(* ===== verification/_CoqProject ===== *)
-Q . S2P
Prelude.v
Machine.v
FwLogic.v
Regs.v
Gpio.v
Delay.v
Frame.v
Clk.v
Int.v
Key.v
Rtc.v
Uart.v
I2c.v
Pwm.v
Ctype.v
CMem.v
Div64.v
Vsprintf.v
Format.v
FormatInt.v
FormatHex.v
Printf.v
Spi.v
Icm20608.v
Ap3216c.v
Mpu9250.v
Gt9147.v
Lcd.v
Font.v
LcdInit.v
LcdApi.v
LcdText.v
Main.v
Lmb.v
Htab.v
HtabSafe.v
Qsort.v
Hexport.v
Himport.v
EnvText.v
Crc32.v
EnvAttr.v
EnvFlags.v
EnvCallback.v
EnvCommon.v
Strto.v
Membuff.v
UDiv64.v
UFormat.v
UFormatText.v
UFormatNum.v
UFormatSpec.v
UFormatCalls.v
Nvedit.v
EnvExport.v
EnvMmc.v
NetSum.v
NetState.v
Net.v
NetUdp.v
Tftp.v
NetVars.v
TftpFile.v
NetLoop.v
Download.v
Silence.v
NetEdges.v
