(* ===== verification/Prelude.v ===== *)
(** * Verification of the i.MX6ULL bare-metal firmware and of boot loader services

    The repository holds twenty stages of a firmware for an i.MX6ULL board and a
    U-Boot with a port to it.  The last stage, src/baremetal/20_pwm, contains the
    drivers of all the earlier ones; this library models its C code, function by
    function, and proves what the drivers and the support library promise.  Of
    U-Boot it models the manager of logical memory blocks, src/uboot/lib/lmb.c,
    which decides where kernel, device tree and ramdisk go, and the environment:
    the hash table of variables, its text form, types, access rights and
    callbacks of variables, the commands that change them, and the copy on the
    memory card; the formatted output these use; the ring buffer of the console
    record; and the network: packets and
    checksums, address resolution, ping, the file transfer protocol TFTP and the loop
    that runs them.

    ** The program and its model

    The firmware has no operating system: [main] (project/main.c) initialises
    clocks, timer, interrupt controller, UART, LCD and backlight, and polls a
    button; interrupt handlers run from a table that drivers register in; the
    drivers (bsp/) talk to memory-mapped registers; printf and the string
    functions (stdio/lib) are linked in.  All of it is modelled as programs of
    one monad [M] (Machine.v), executable with a fuel:

    - the state [fw] is the trace of register accesses so far, newest first, and
      the record [globals] of the static variables, the byte memory and the
      frame buffer;
    - the hardware is a parameter, the class [Device]: the value of the next
      read of a register as a function of the trace.  Theorems hold for every
      device, or for those that satisfy a named hypothesis about documented
      hardware ([storage]: a register returns what was last written;
      [responsive m]: a polled condition becomes true within [m] reads; the
      classes [Ticks], [Bus] and [SpiBus]).  Witnesses instantiate the
      parameter with concrete devices;
    - an outcome is [Ret], [Undef] (undefined behaviour of C: an access out of
      an array, signed overflow, division by zero) or [Fuel];
    - each C loop is [iter] over the loop's variables.  The fuel bounds the
      iterations of every loop separately; a theorem [runs c n s Q] says that
      with fuel [n] the program [c] returns in a state satisfying [Q], so it
      includes termination and absence of undefined behaviour.  The bounds on
      [n] in the statements are explicit: the length of the data, the polls a
      device may take, or the constants of the code (65535 polls of an I2C
      stop, 2047 turns of a busy wait, 65 steps of Euclid's algorithm).

    A w-bit integer is a [Z] with its wrap-around written out ([u8] to [s64]).

    The boot loader's services keep their state in a structure of their own and
    touch no hardware; they are functions on that structure in the option monad,
    [None] being an access out of an array.  The loops of lmb.c over a table have
    ten rounds of fuel, one more than the array has entries, and its search for a
    free block needs no more than ten ([lmb_alloc_highest]); a search of the
    environment needs at most as many rounds as the table has buckets, and no
    table made by an import has more than 521.

    The environment is built in layers.  The table (Htab.v) asks a permission
    check before every change; env_flags_validate (EnvFlags.v) is that check, and
    the class [Enforces] (HtabSafe.v) is what the table's theorems need of it: a
    property that holds of every entry it lets pass then holds of every entry of
    the table.  The text form is written by hexport_r (Hexport.v, sorted by the
    qsort of Qsort.v) and read by himport_r (Himport.v), in place, on the very
    buffer.  env_common.c (EnvCommon.v) adds a checksum (Crc32.v) and falls back to
    the default environment; env_mmc.c (EnvMmc.v) puts the result on a card, which
    is the class [Mmc] with the laws [MmcLaws]; cmd/nvedit.c (Nvedit.v) is what
    users and programs call.  Parameters are the memory allocator ([alloc],
    [strdup]), regular expressions (lib/slre.c), the default environment, which the
    configuration puts together, and the fields a new entry gets
    ([env_callback_init], [env_flags_init]), modelled in EnvCallback.v and
    EnvFlags.v; the table needs of them only that they keep name and value.

    Formatted output (UFormat.v) is a monad over the position in the buffer, the
    memory from its start, what "%n" stored and the arguments left; [None] is
    undefined behaviour: an argument of another type, a store outside the memory, a
    pointer that leaves the address space, an overflow of a width.  Its theorems
    compare it with functions that compute the text (UFormatSpec.v).

    The network (net/net.c, net/arp.c, net/ping.c, net/tftp.c) shares one state,
    the static variables of these files, the transmit buffer, the memory a file is
    loaded to and the trace of what was sent and printed: the record [net] of
    NetState.v.  Its programs are of the monad [N], whose [None] is undefined
    behaviour: a read before or behind a packet, a write out of a buffer, a
    division by zero.  Handlers are called through the variables that hold them,
    as values of an enumeration, and the dispatch is in NetLoop.v.  The class
    [Ethernet] is the devices: how many, the results of starting them, their
    addresses.  The environment and the clock are parameters, the latter as the
    sequence [ticks] of the values its successive reads give.  net_loop is a
    recursion over the list of its turns, each with what the device received in it
    and whether ctrl-c was pressed; [None] as its result says that it still runs
    after them.  Silence.v proves that it ends when nobody answers, on every clock
    that goes on, and Download.v that it ends with the last block when a server
    sends a file.

    ** Files

    - Prelude.v: integers, bit fields, lists, tactics and hint databases.
    - Machine.v, FwLogic.v, Frame.v: the monad, the rules of [runs] for
      sequencing, loops, polling and register updates, divergence, the device
      classes, and the frame rules ([keeps]) for registers a program does not
      touch.
    - Regs.v: register addresses and pins (nxp/mcimx6y2.h, fsl_iomuxc.h) and the
      inline functions of fsl_iomuxc.h and core_ca7.h.
    - Gpio.v: bsp/gpio, bsp/led, bsp/beep.  Delay.v: bsp/delay.  Clk.v: bsp/clk.
      Int.v: bsp/int.  Key.v: bsp/key, bsp/exit, bsp/key_filter, bsp/epit.
      Rtc.v: bsp/rtc.  Uart.v: bsp/uart.  I2c.v: bsp/i2c.  Pwm.v: bsp/pwm.
      Spi.v: bsp/spi.  Icm20608.v: bsp/icm20608.  Ap3216c.v: bsp/ap3216c.
      Mpu9250.v: bsp/mpu9250.
      Gt9147.v: bsp/touch.
    - Ctype.v, CMem.v, Div64.v, Vsprintf.v, Printf.v: stdio/lib (ctype.c,
      string.c, div64.c and muldi3.c, vsprintf.c, printf.c); Format.v,
      FormatInt.v and FormatHex.v hold the theory of [number] and of the
      decimal and hexadecimal conversions.
    - Lcd.v, LcdInit.v: bsp/lcd/lcd.c; Font.v: bsp/lcd/font.h; LcdApi.v,
      LcdText.v: bsp/lcd/lcdapi.c.
    - Main.v: project/main.c and the table of interrupt handlers.
    - Lmb.v: uboot/lib/lmb.c and include/lmb.h.
    - Htab.v, HtabSafe.v, Hexport.v, Himport.v: uboot/lib/hashtable.c and
      include/search.h; EnvText.v: export and import together.  Qsort.v:
      lib/qsort.c.  Crc32.v: lib/crc32.c.  Strto.v: lib/strto.c and simple_itoa.
    - Membuff.v: uboot/lib/membuff.c, a ring buffer whose pointers are addresses.
    - UDiv64.v: uboot/lib/div64.c and include/div64.h.  UFormat.v: the rest of
      lib/vsprintf.c; UFormatText.v: output does not depend on the room;
      UFormatNum.v: digits; UFormatSpec.v: the text that is written;
      UFormatCalls.v: the calls the environment and the network make.
    - EnvAttr.v: uboot/common/env_attr.c.  EnvFlags.v: common/env_flags.c.
      EnvCallback.v: common/env_callback.c.  EnvCommon.v: common/env_common.c, with
      getenv, getenv_f and envmatch.  EnvMmc.v: common/env_mmc.c.  Nvedit.v: the
      rest of cmd/nvedit.c but for the interactive commands, with the export command
      and setenv_hex in EnvExport.v.
    - NetSum.v: uboot/net/checksum.c.  NetState.v: the state of the network, the
      environment it reads and the parameters.  Net.v: net/net.c, net/arp.c and
      net/ping.c, from sending to the dispatch of received packets; NetUdp.v: its
      theorems about datagrams and addresses.  NetVars.v: the strings of addresses
      and the callbacks of the variables that set them.  Tftp.v: net/tftp.c; TftpFile.v: a
      whole transfer.  NetLoop.v: net_loop and what it calls; Download.v,
      Silence.v: what it achieves with a server and without.  NetEdges.v: packets
      and settings the network code does not handle.

    Definitions carry the names of the C functions; a handler is
    [<name>_body], because its C name is a constructor of the type of function
    pointers ([irq_handler] in Machine.v).  A fragment of a long function has a
    name of its own and its comment says which lines it is.

    ** What is proved

    - Arithmetic: 64-bit division and multiplication equal the mathematical
      operations; dates and second counts convert back and forth; the decimal
      digits printed are those of the number, and printing then parsing gives
      the number back; the hexadecimal loop stays in its array below 2^63.
    - Buses: an I2C transfer sends and stores exactly the bytes it should,
      reports refusals, ends within bounds; SPI bytes are shifted inside one
      chip-select frame; the sensor and touch drivers decode what they receive.
    - Time and clocks: delays last at least as long as asked on any timer that
      ticks; the ARM PLL is never changed under the running core; the UART rate
      is within three percent of the one asked for; the PWM sample is within
      its period.
    - Interrupts: the dispatcher calls exactly the registered handler; the
      debouncing handlers refine an abstract state machine.
    - Graphics: fills, lines, circles and characters paint exactly the pixels of
      their mathematical description and no others; lcd_init leaves the
      controller scanning the frame buffer with the panel's timing.
    - The program: [main] initialises the board and shows its screen; its loop
      keeps an invariant over screen, PWM and duty under any presses and PWM
      interrupts, and never ends.
    - Memory blocks: a table of regions represents a set of addresses in a unique
      way; adding and freeing are union and difference, the allocator returns the
      highest block there is, and blocks never overlap.
    - Environment table: it refines a finite map as long as buckets are left that
      were never used; the probe sequence reaches every bucket because the size is
      prime, and the primality test is right.  Without unused buckets, and for any
      text imported, it stays memory safe and keeps what its permission check
      enforces.
    - Environment: setenv and getenv are a finite map; values always have the type
      their flags say, the types are exactly their grammars, and access rights
      allow exactly what they should; export and import are inverse, as text and
      with checksum; damage is noticed and replaced by the default environment; the
      variables are the same before and after the import, and after a restart; a
      number stored by a program is read back, and the commands for export and import
      are inverse.
    - Ring buffer: it refines a list with one byte less room than the buffer, under
      any sequence of operations; reading lines, moving and growing keep the list.
    - Formatted output: vsnprintf writes the text its format and arguments specify
      as far as there is room and nothing outside; the text, the length returned and
      what "%n" stores do not depend on the room, for any format without "%c".
    - Sorting, checksum and numbers: qsort sorts, crc32 is the bitwise CRC-32, and
      decimal numbers are read as they were written.
    - Network: the Internet checksum of a packet is that of its parts; a datagram
      sent is the datagram delivered, on every VLAN the two ends share; an unknown
      address is asked for, and the datagram leaves when the answer comes; under
      losses, repetitions, timeouts and foreign packets a transfer stores exactly
      the blocks received, and succeeds with the last; net_loop downloads the file
      and sets filesize and fileaddr, and gives up when nobody answers; an address
      written as a string is read back.
    - Defects: where the code does not do what it means to, a theorem shows it
      (a touch controller reporting more than five points, lines to the left,
      fills at the edge of the screen, %llx of large numbers, refused I2C data,
      reservations after the last one was freed, variables lost in a table without
      unused buckets, callbacks lost when ".callbacks" changes, default values cut
      to 31 bytes, packets too short for their header, a block size of zero, a
      repeated block of an earlier round of the block numbers, a timeout that
      overflows, a "%c" whose argument is not taken when the buffer is full, the
      filesize of a binary export, an empty ring buffer that cannot grow, and the
      wrong pointer freed with one).

    ** Not modelled

    start.S (assembly), the register bit
    macros no driver uses, the earlier lessons 01 to 19, the interactive
    environment commands (they read the console), print_grouped_ull (it only
    prints), the copies of the environment on other media than the
    card; of the network, the protocols BOOTP, DHCP, NFS, DNS, SNTP, CDP and RARP,
    sending files (tftpput), the registration of devices and their hardware
    addresses, and fragments of datagrams (the board's configuration leaves them
    out); and the rest of U-Boot.  The console messages of
    the environment are left out.  Interrupts
    are modelled as calls of the dispatcher between programs, not as preemption
    inside one.  Variadic arguments are the list of words va_arg yields. *)
From Stdlib Require Export ZArith Lia Bool.
From stdpp Require Export base gmap list numbers option tactics.

#[export] Set Default Goal Selector "!".
Global Open Scope Z_scope.

(** ** Machine integers

    A C integer of width [w] is a [Z]; conversions to a narrower or
    unsigned type are written out with the functions below. *)
Definition u8 (z : Z) : Z := z mod 2 ^ 8.
Definition u16 (z : Z) : Z := z mod 2 ^ 16.
Definition u32 (z : Z) : Z := z mod 2 ^ 32.
Definition u64 (z : Z) : Z := z mod 2 ^ 64.
Definition s8 (z : Z) : Z := (z + 2 ^ 7) mod 2 ^ 8 - 2 ^ 7.
Definition s16 (z : Z) : Z := (z + 2 ^ 15) mod 2 ^ 16 - 2 ^ 15.
Definition s32 (z : Z) : Z := (z + 2 ^ 31) mod 2 ^ 32 - 2 ^ 31.
Definition s64 (z : Z) : Z := (z + 2 ^ 63) mod 2 ^ 64 - 2 ^ 63.

(** [fits w z]: [z] is a value of an unsigned [w]-bit type. *)
Definition fits (w z : Z) : Prop := 0 <= z < 2 ^ w.

(** C's bit operators on values that fit their type.  [a .\ m] is the idiom
    [a & ~m]. *)
Declare Scope cint_scope.
Delimit Scope cint_scope with cint.
Notation "a .& b" := (Z.land a b) (at level 40, left associativity) : cint_scope.
Notation "a .| b" := (Z.lor a b) (at level 50, left associativity) : cint_scope.
Notation "a .\ b" := (Z.ldiff a b) (at level 40, left associativity) : cint_scope.
Notation "a << b" := (Z.shiftl a b) (at level 36, left associativity) : cint_scope.
Notation "a >> b" := (Z.shiftr a b) (at level 36, left associativity) : cint_scope.
Global Open Scope cint_scope.

(** The C truth value of an integer. *)
Definition truthy (z : Z) : bool := negb (z =? 0).

Create HintDb cint.
Create Rewrite HintDb bits.

(** ** Arithmetic automation *)
Ltac zdm := Z.to_euclidean_division_equations.
Ltac dlia := zdm; lia.
Ltac dnia := zdm; nia.

(** Case split on every boolean comparison of the goal or of a hypothesis. *)
Ltac bcase1 :=
  match goal with
  | |- context [?a =? ?b] => destruct (Z.eqb_spec a b)
  | |- context [?a <? ?b] => destruct (Z.ltb_spec a b)
  | |- context [?a <=? ?b] => destruct (Z.leb_spec a b)
  | H : context [?a =? ?b] |- _ => destruct (Z.eqb_spec a b)
  | H : context [?a <? ?b] |- _ => destruct (Z.ltb_spec a b)
  | H : context [?a <=? ?b] |- _ => destruct (Z.leb_spec a b)
  end.
Ltac bcase := repeat (bcase1; simpl in *; try lia).

Lemma u8_small z : 0 <= z < 2 ^ 8 -> u8 z = z.
Proof. apply Z.mod_small. Qed.
Lemma u16_small z : 0 <= z < 2 ^ 16 -> u16 z = z.
Proof. apply Z.mod_small. Qed.
Lemma u32_small z : 0 <= z < 2 ^ 32 -> u32 z = z.
Proof. apply Z.mod_small. Qed.
Lemma u64_small z : 0 <= z < 2 ^ 64 -> u64 z = z.
Proof. apply Z.mod_small. Qed.
Lemma s32_small z : 0 <= z < 2 ^ 31 -> s32 z = z.
Proof. intros. unfold s32. rewrite Z.mod_small by lia. lia. Qed.
Lemma u8_fits z : fits 8 (u8 z).
Proof. apply Z.mod_pos_bound; lia. Qed.
Lemma u16_fits z : fits 16 (u16 z).
Proof. apply Z.mod_pos_bound; lia. Qed.
Lemma u32_fits z : fits 32 (u32 z).
Proof. apply Z.mod_pos_bound; lia. Qed.
Lemma u64_fits z : fits 64 (u64 z).
Proof. apply Z.mod_pos_bound; lia. Qed.
#[export] Hint Resolve u8_fits u16_fits u32_fits u64_fits : cint.

Lemma truthy_false z : truthy z = false <-> z = 0.
Proof. unfold truthy. destruct (Z.eqb_spec z 0); simpl; split; congruence. Qed.
Lemma truthy_true z : truthy z = true <-> z <> 0.
Proof. unfold truthy. destruct (Z.eqb_spec z 0); simpl; split; congruence. Qed.

(** ** Bits *)
Lemma testbit_1 i : Z.testbit 1 i = (i =? 0).
Proof.
  destruct (Z.eqb_spec i 0) as [->|Hi]; [done|].
  destruct (Z.lt_ge_cases i 0) as [H|H]; [by apply Z.testbit_neg_r|].
  apply (Z.bits_above_log2 1 i); simpl; lia.
Qed.

Lemma testbit_above w z i : fits w z -> 0 <= w <= i -> Z.testbit z i = false.
Proof.
  intros Hz Hi. unfold fits in Hz. rewrite <- (Z.mod_small z (2 ^ w)) by lia.
  apply Z.mod_pow2_bits_high. lia.
Qed.

(** A value fits when it is non-negative and its high bits are clear. *)
Lemma fits_bits w z :
  0 <= w -> 0 <= z -> (forall i, w <= i -> Z.testbit z i = false) -> fits w z.
Proof.
  intros Hw Hz Hb. split; [done|].
  destruct (Z.eq_dec z 0) as [->|Hnz]; [by apply Z.pow_pos_nonneg|].
  apply Z.log2_lt_pow2; [lia|].
  destruct (Z.lt_ge_cases (Z.log2 z) w) as [|Hge]; [done|].
  specialize (Hb (Z.log2 z) Hge). rewrite Z.bit_log2 in Hb by lia. done.
Qed.

Lemma lor_fits w a b : 0 <= w -> fits w a -> fits w b -> fits w (a .| b).
Proof.
  intros Hw Ha Hb. apply fits_bits; [done| |].
  - apply Z.lor_nonneg. unfold fits in *. lia.
  - intros i Hi. rewrite Z.lor_spec, !(testbit_above w) by (done || lia). done.
Qed.

Lemma ldiff_fits w a b : 0 <= w -> fits w a -> fits w (a .\ b).
Proof.
  intros Hw Ha. apply fits_bits; [done| |].
  - apply Z.ldiff_nonneg. unfold fits in *. lia.
  - intros i Hi. rewrite Z.ldiff_spec, (testbit_above w) by (done || lia). done.
Qed.

Lemma land_fits_l w a b : 0 <= w -> fits w a -> fits w (a .& b).
Proof.
  intros Hw Ha. apply fits_bits; [done| |].
  - apply Z.land_nonneg. unfold fits in *. lia.
  - intros i Hi. rewrite Z.land_spec, (testbit_above w) by (done || lia). done.
Qed.

Lemma bit_fits w n : 0 <= n < w -> fits w (1 << n).
Proof.
  intros Hn. unfold fits. rewrite Z.shiftl_1_l. split; [by apply Z.pow_nonneg|].
  apply Z.pow_lt_mono_r; lia.
Qed.

Lemma shiftl_fits w z n m : fits m z -> 0 <= m -> 0 <= n -> n + m <= w -> fits w (z << n).
Proof.
  intros Hz Hm Hn Hw. unfold fits in *. rewrite Z.shiftl_mul_pow2 by done.
  assert (0 < 2 ^ n) by (apply Z.pow_pos_nonneg; lia).
  assert (2 ^ (n + m) <= 2 ^ w) as Hle by (apply Z.pow_le_mono_r; lia).
  rewrite Z.pow_add_r in Hle by lia. nia.
Qed.

Lemma shiftr_fits w z n : 0 <= n -> fits w z -> fits w (z >> n).
Proof.
  intros Hn Hz. unfold fits in *. rewrite Z.shiftr_div_pow2 by done.
  assert (0 < 2 ^ n) by (apply Z.pow_pos_nonneg; lia).
  split; [apply Z.div_pos; lia|]. apply Z.le_lt_trans with z; [|lia].
  apply Z.div_le_upper_bound; nia.
Qed.

#[export] Hint Rewrite Z.lor_spec Z.land_spec Z.ldiff_spec Z.lxor_spec : bits.
#[export] Hint Rewrite Z.shiftl_spec Z.shiftr_spec using lia : bits.
#[export] Hint Rewrite testbit_1 : bits.

(** A register bit test [r & (1 << n)] read as [testbit]. *)
Lemma truthy_land_bit z n : 0 <= n -> truthy (z .& (1 << n)) = Z.testbit z n.
Proof.
  intros Hn. destruct (Z.testbit z n) eqn:E.
  - apply truthy_true. intros H0. assert (Z.testbit (z .& (1 << n)) n = false) as F
      by (rewrite H0; apply Z.bits_0).
    autorewrite with bits in F. rewrite E, Z.sub_diag in F. done.
  - apply truthy_false. apply Z.bits_inj'. intros i Hi.
    autorewrite with bits. rewrite Z.bits_0.
    destruct (Z.eqb_spec (i - n) 0); [|by rewrite andb_false_r].
    replace i with n by lia. by rewrite E.
Qed.

(** ** Lists of consecutive integers *)
Lemma seqZ_S lo n : seqZ lo (Z.of_nat (S n)) = lo :: seqZ (lo + 1) (Z.of_nat n).
Proof. rewrite seqZ_cons by lia. repeat f_equal; lia. Qed.

(** ** Bit fields *)

(** The [w]-bit field of [z] at position [k]. *)
Definition field (z k w : Z) : Z := (z >> k) .& Z.ones w.

(** The read-modify-write idiom: clear a field, then or a value into it. *)
Definition insert_field (z k w c : Z) : Z := (z .\ (Z.ones w << k)) .| (c << k).

Lemma testbit_ones_bool w i : 0 <= w -> 0 <= i -> Z.testbit (Z.ones w) i = (i <? w).
Proof.
  intros Hw Hi. destruct (Z.ltb_spec i w); [apply Z.ones_spec_low|apply Z.ones_spec_high]; lia.
Qed.
#[export] Hint Rewrite testbit_ones_bool using lia : bits.

Lemma field_ext z z' k w :
  0 <= k -> 0 <= w ->
  (forall i, k <= i < k + w -> Z.testbit z i = Z.testbit z' i) -> field z k w = field z' k w.
Proof.
  intros Hk Hw Hb. apply Z.bits_inj'. intros i Hi. unfold field. autorewrite with bits.
  destruct (Z.ltb_spec i w); [|by rewrite !andb_false_r]. by rewrite Hb by lia.
Qed.

Lemma testbit_insert_field z k w c i :
  0 <= k -> 0 <= w -> fits w c -> 0 <= i ->
  Z.testbit (insert_field z k w c) i =
    if (k <=? i) && (i <? k + w) then Z.testbit c (i - k) else Z.testbit z i.
Proof.
  intros Hk Hw Hc Hi. unfold insert_field. autorewrite with bits.
  destruct (Z.leb_spec k i); simpl.
  - autorewrite with bits.
    destruct (Z.ltb_spec i (k + w)), (Z.ltb_spec (i - k) w); try lia; simpl.
    + by rewrite andb_false_r.
    + rewrite andb_true_r, (testbit_above w c) by (done || lia). by rewrite orb_false_r.
  - rewrite !(Z.testbit_neg_r _ (i - k)) by lia. by rewrite andb_true_r, orb_false_r.
Qed.

Lemma field_insert_same z k w c :
  0 <= k -> 0 <= w -> fits w c -> field (insert_field z k w c) k w = c.
Proof.
  intros Hk Hw Hc. apply Z.bits_inj'. intros i Hi. unfold field. autorewrite with bits.
  rewrite testbit_insert_field by (done || lia).
  destruct (Z.ltb_spec i w).
  - rewrite andb_true_r. destruct (Z.leb_spec k (i + k)), (Z.ltb_spec (i + k) (k + w)); try lia.
    simpl. f_equal. lia.
  - by rewrite andb_false_r, (testbit_above w c) by (done || lia).
Qed.

Lemma field_insert_other z k w c k' w' :
  0 <= k -> 0 <= w -> fits w c -> 0 <= k' -> 0 <= w' -> k' + w' <= k \/ k + w <= k' ->
  field (insert_field z k w c) k' w' = field z k' w'.
Proof.
  intros Hk Hw Hc Hk' Hw' Hd. apply field_ext; [done..|]. intros i Hi.
  rewrite testbit_insert_field by (done || lia).
  destruct (Z.leb_spec k i), (Z.ltb_spec i (k + w)); simpl; try done; lia.
Qed.

Lemma insert_field_fits n z k w c :
  0 <= k -> 0 <= w -> k + w <= n -> fits n z -> fits w c -> fits n (insert_field z k w c).
Proof.
  intros Hk Hw Hn Hz Hc. apply lor_fits; [lia| |].
  - apply ldiff_fits; [lia|done].
  - by apply (shiftl_fits n c k w).
Qed.

(** Clearing a field and setting all its bits are insertions. *)
Lemma clear_field z k w : 0 <= w -> z .\ (Z.ones w << k) = insert_field z k w 0.
Proof. intros Hw. unfold insert_field. by rewrite Z.shiftl_0_l, Z.lor_0_r. Qed.

Lemma set_field z k w : z .| (Z.ones w << k) = insert_field z k w (Z.ones w).
Proof.
  unfold insert_field. apply Z.bits_inj'. intros i Hi. autorewrite with bits.
  by destruct (Z.testbit z i), (Z.testbit (Z.ones w) (i - k)).
Qed.

Lemma ones_fits w : 0 <= w -> fits w (Z.ones w).
Proof. intros Hw. unfold fits. rewrite Z.ones_equiv. assert (0 < 2 ^ w) by (apply Z.pow_pos_nonneg; lia). lia. Qed.

Lemma field_1 z k : 0 <= k -> field z k 1 = Z.b2z (Z.testbit z k).
Proof.
  intros Hk. unfold field. change (Z.ones 1) with 1.
  apply Z.bits_inj'. intros i Hi. autorewrite with bits.
  destruct (Z.eqb_spec i 0) as [->|Hn].
  - rewrite andb_true_r. by rewrite Z.add_0_l, Z.b2z_bit0.
  - rewrite andb_false_r. destruct (Z.testbit z k); simpl; [|by rewrite Z.bits_0].
    rewrite testbit_1. by destruct (Z.eqb_spec i 0).
Qed.

(** *** Bits and fields of truncated values *)
Lemma testbit_u32 z i : 0 <= i < 32 -> Z.testbit (u32 z) i = Z.testbit z i.
Proof. intros Hi. apply Z.mod_pow2_bits_low. lia. Qed.

Lemma field_u32 z k w : 0 <= k -> 0 <= w -> k + w <= 32 -> field (u32 z) k w = field z k w.
Proof. intros Hk Hw Hs. apply field_ext; [done..|]. intros i Hi. apply testbit_u32. lia. Qed.

Lemma u32_u32 z : u32 (u32 z) = u32 z.
Proof. apply Zmod_mod. Qed.
Lemma u16_u16 z : u16 (u16 z) = u16 z.
Proof. apply Zmod_mod. Qed.
Lemma u8_u8 z : u8 (u8 z) = u8 z.
Proof. apply Zmod_mod. Qed.

(** A field is known from its bits. *)
Lemma field_bits z k w c :
  0 <= k -> 0 <= w -> fits w c ->
  (forall i, In i (seqZ 0 w) -> Z.testbit z (i + k) = Z.testbit c i) -> field z k w = c.
Proof.
  intros Hk Hw Hc Hb. apply Z.bits_inj'. intros i Hi. unfold field. autorewrite with bits.
  destruct (Z.ltb_spec i w).
  - rewrite andb_true_r. apply Hb, list_elem_of_In, elem_of_seqZ. lia.
  - by rewrite andb_false_r, (testbit_above w c) by (done || lia).
Qed.

(** Evaluate the bits of a value built from masks and shifts of constants. *)
Ltac ground_eqb :=
  match goal with
  | |- context [?a =? ?b] =>
      let v := eval vm_compute in (a =? b) in
      lazymatch v with true => idtac | false => idtac end;
      change (a =? b) with v
  | |- context [Z.testbit (Z.pos ?a) ?b] =>
      let v := eval vm_compute in (Z.testbit (Z.pos a) b) in
      lazymatch v with true => idtac | false => idtac end;
      change (Z.testbit (Z.pos a) b) with v
  end.
Ltac bits_eval :=
  repeat (first [rewrite testbit_u32 by lia | progress autorewrite with bits | ground_eqb]);
  rewrite ?Z.bits_0; cbn [negb andb orb];
  rewrite ?andb_false_r, ?andb_true_r, ?orb_true_r, ?orb_false_r.
Ltac field_eval :=
  let i := fresh "i" in let Hin := fresh "Hin" in
  apply field_bits; [lia|lia|done|]; intros i Hin;
  match type of Hin with In _ ?l => let l' := eval vm_compute in l in change (In i l') in Hin end;
  cbn [In] in Hin;
  repeat (destruct Hin as [<-|Hin]; [bits_eval; try done|]); try done.

(** ** Lists *)
Lemma insert_middle {A} (l1 : list A) x y l2 : <[length l1 := y]> (l1 ++ x :: l2) = l1 ++ y :: l2.
Proof. rewrite insert_app_r_alt by lia. by rewrite Nat.sub_diag. Qed.

(** Putting a low part under a shifted high part. *)
Lemma shiftl_lor hi lo k : 0 <= k -> 0 <= lo < 2 ^ k -> (hi << k) .| lo = hi * 2 ^ k + lo.
Proof.
  intros Hk Hlo. rewrite <- Z.shiftl_mul_pow2 by done.
  assert ((hi << k) .& lo = 0) as Hz.
  { apply Z.bits_inj'. intros i Hi. rewrite Z.land_spec, Z.bits_0. destruct (Z.lt_ge_cases i k).
    - by rewrite Z.shiftl_spec_low.
    - rewrite (testbit_above k lo) by (done || lia). apply andb_false_r. }
  by rewrite Z.add_nocarry_lxor, Z.lxor_lor.
Qed.

Lemma land_ones_mod z w : 0 <= w -> z .& Z.ones w = z mod 2 ^ w.
Proof. apply Z.land_ones. Qed.
