(* ===== verification/Machine.v ===== *)
(** The machine the firmware runs on: memory-mapped registers observed through
    a trace of accesses, the program's static variables, and the monad in which
    every driver of the development is written.

    A device is an arbitrary deterministic function from the accesses made so
    far to the value the next read returns ([dev_read]); nothing is assumed of
    it here.  A driver's theorem names what it needs: [storage a] says that
    register [a] reads back what was last written, [polls_to] that a status
    register eventually shows a condition. *)
From S2P Require Import Prelude.

(** ** Registers and traces *)
Inductive event :=
  | Rd (a v : Z)
  | Wr (a v : Z).

(** The accesses made so far, newest first. *)
Abbreviation trace := (list event).

Class Device := {
  (** value a read of address [a] returns after the accesses [tr] *)
  dev_read : trace -> Z -> Z;
  (** reset value of a register *)
  dev_reset : Z -> Z;
  (** contents of DRAM before the program writes it *)
  dram_reset : Z -> Z
}.

Global Instance event_eq_dec : EqDecision event.
Proof. solve_decision. Defined.

(** ** Static variables of the firmware *)

(** [struct tft_lcd_t] of lcd.h *)
Record tft_lcd_t := {
  lcd_height : Z; lcd_width : Z; lcd_pixel_size : Z;
  lcd_vspw : Z; lcd_vbp : Z; lcd_vfp : Z;
  lcd_hspw : Z; lcd_hbp : Z; lcd_hfp : Z;
  lcd_buf : Z; lcd_forecolor : Z; lcd_backcolor : Z; lcd_id : Z
}.

(** [struct gt9147_dev_t] of gt9147.h *)
Record gt9147_dev_t := {
  gt_initfalg : Z; gt_intflag : Z; gt_point_num : Z;
  gt_x : list Z; gt_y : list Z
}.

(** The functions the program installs as interrupt handlers. *)
Inductive irq_handler :=
  | default_irq_handler
  | gpio1_io18_irq_handler
  | epit1_irq_handler
  | key_filter_timer_irq_handler
  | gpio1_16_31_irq_handler
  | pwm1_irq_handler
  | gt9147_irqhandler.

Global Instance irq_handler_eq_dec : EqDecision irq_handler.
Proof. solve_decision. Defined.

Record irq_entry := { irq_fn : irq_handler; irq_opaque : Z }.

Record globals := {
  g_tft_lcd : tft_lcd_t;            (** lcd.c: tft_lcd *)
  g_dram : gmap Z Z;                (** 32-bit words written to DRAM, by address *)
  g_mem : gmap Z Z;                 (** byte-addressed objects: buffers and strings *)
  g_bl_duty : Z;                    (** pwm.c: bl_dev.duty *)
  g_irq_count : Z;                  (** int.c: irq_count *)
  g_irq_table : list irq_entry;     (** int.c: irq_table *)
  g_key_filter_state : Z;           (** key_filter.c: static state *)
  g_epit_state : Z;                 (** epit.c: static state *)
  g_exit_state : Z;                 (** exit.c: static state *)
  g_gt9147_dev : gt9147_dev_t;      (** gt9147.c: gt9147_dev *)
  g_gt_init_fail : Z                (** gt9147.c: gt_init_fail *)
}.

Definition upd_tft_lcd (f : tft_lcd_t -> tft_lcd_t) (g : globals) : globals :=
  {| g_tft_lcd := f g.(g_tft_lcd); g_dram := g.(g_dram); g_mem := g.(g_mem); g_bl_duty := g.(g_bl_duty);
     g_irq_count := g.(g_irq_count); g_irq_table := g.(g_irq_table);
     g_key_filter_state := g.(g_key_filter_state); g_epit_state := g.(g_epit_state);
     g_exit_state := g.(g_exit_state); g_gt9147_dev := g.(g_gt9147_dev);
     g_gt_init_fail := g.(g_gt_init_fail) |}.
Definition upd_dram (f : gmap Z Z -> gmap Z Z) (g : globals) : globals :=
  {| g_tft_lcd := g.(g_tft_lcd); g_dram := f g.(g_dram); g_mem := g.(g_mem); g_bl_duty := g.(g_bl_duty);
     g_irq_count := g.(g_irq_count); g_irq_table := g.(g_irq_table);
     g_key_filter_state := g.(g_key_filter_state); g_epit_state := g.(g_epit_state);
     g_exit_state := g.(g_exit_state); g_gt9147_dev := g.(g_gt9147_dev);
     g_gt_init_fail := g.(g_gt_init_fail) |}.
Definition upd_mem (f : gmap Z Z -> gmap Z Z) (g : globals) : globals :=
  {| g_tft_lcd := g.(g_tft_lcd); g_dram := g.(g_dram); g_mem := f g.(g_mem);
     g_bl_duty := g.(g_bl_duty);
     g_irq_count := g.(g_irq_count); g_irq_table := g.(g_irq_table);
     g_key_filter_state := g.(g_key_filter_state); g_epit_state := g.(g_epit_state);
     g_exit_state := g.(g_exit_state); g_gt9147_dev := g.(g_gt9147_dev);
     g_gt_init_fail := g.(g_gt_init_fail) |}.
Definition upd_bl_duty (v : Z) (g : globals) : globals :=
  {| g_tft_lcd := g.(g_tft_lcd); g_dram := g.(g_dram); g_mem := g.(g_mem); g_bl_duty := v;
     g_irq_count := g.(g_irq_count); g_irq_table := g.(g_irq_table);
     g_key_filter_state := g.(g_key_filter_state); g_epit_state := g.(g_epit_state);
     g_exit_state := g.(g_exit_state); g_gt9147_dev := g.(g_gt9147_dev);
     g_gt_init_fail := g.(g_gt_init_fail) |}.
Definition upd_irq_count (v : Z) (g : globals) : globals :=
  {| g_tft_lcd := g.(g_tft_lcd); g_dram := g.(g_dram); g_mem := g.(g_mem); g_bl_duty := g.(g_bl_duty);
     g_irq_count := v; g_irq_table := g.(g_irq_table);
     g_key_filter_state := g.(g_key_filter_state); g_epit_state := g.(g_epit_state);
     g_exit_state := g.(g_exit_state); g_gt9147_dev := g.(g_gt9147_dev);
     g_gt_init_fail := g.(g_gt_init_fail) |}.
Definition upd_irq_table (v : list irq_entry) (g : globals) : globals :=
  {| g_tft_lcd := g.(g_tft_lcd); g_dram := g.(g_dram); g_mem := g.(g_mem); g_bl_duty := g.(g_bl_duty);
     g_irq_count := g.(g_irq_count); g_irq_table := v;
     g_key_filter_state := g.(g_key_filter_state); g_epit_state := g.(g_epit_state);
     g_exit_state := g.(g_exit_state); g_gt9147_dev := g.(g_gt9147_dev);
     g_gt_init_fail := g.(g_gt_init_fail) |}.
Definition upd_key_filter_state (v : Z) (g : globals) : globals :=
  {| g_tft_lcd := g.(g_tft_lcd); g_dram := g.(g_dram); g_mem := g.(g_mem); g_bl_duty := g.(g_bl_duty);
     g_irq_count := g.(g_irq_count); g_irq_table := g.(g_irq_table);
     g_key_filter_state := v; g_epit_state := g.(g_epit_state);
     g_exit_state := g.(g_exit_state); g_gt9147_dev := g.(g_gt9147_dev);
     g_gt_init_fail := g.(g_gt_init_fail) |}.
Definition upd_epit_state (v : Z) (g : globals) : globals :=
  {| g_tft_lcd := g.(g_tft_lcd); g_dram := g.(g_dram); g_mem := g.(g_mem); g_bl_duty := g.(g_bl_duty);
     g_irq_count := g.(g_irq_count); g_irq_table := g.(g_irq_table);
     g_key_filter_state := g.(g_key_filter_state); g_epit_state := v;
     g_exit_state := g.(g_exit_state); g_gt9147_dev := g.(g_gt9147_dev);
     g_gt_init_fail := g.(g_gt_init_fail) |}.
Definition upd_exit_state (v : Z) (g : globals) : globals :=
  {| g_tft_lcd := g.(g_tft_lcd); g_dram := g.(g_dram); g_mem := g.(g_mem); g_bl_duty := g.(g_bl_duty);
     g_irq_count := g.(g_irq_count); g_irq_table := g.(g_irq_table);
     g_key_filter_state := g.(g_key_filter_state); g_epit_state := g.(g_epit_state);
     g_exit_state := v; g_gt9147_dev := g.(g_gt9147_dev);
     g_gt_init_fail := g.(g_gt_init_fail) |}.
Definition upd_gt9147_dev (f : gt9147_dev_t -> gt9147_dev_t) (g : globals) : globals :=
  {| g_tft_lcd := g.(g_tft_lcd); g_dram := g.(g_dram); g_mem := g.(g_mem); g_bl_duty := g.(g_bl_duty);
     g_irq_count := g.(g_irq_count); g_irq_table := g.(g_irq_table);
     g_key_filter_state := g.(g_key_filter_state); g_epit_state := g.(g_epit_state);
     g_exit_state := g.(g_exit_state); g_gt9147_dev := f g.(g_gt9147_dev);
     g_gt_init_fail := g.(g_gt_init_fail) |}.
Definition upd_gt_init_fail (v : Z) (g : globals) : globals :=
  {| g_tft_lcd := g.(g_tft_lcd); g_dram := g.(g_dram); g_mem := g.(g_mem); g_bl_duty := g.(g_bl_duty);
     g_irq_count := g.(g_irq_count); g_irq_table := g.(g_irq_table);
     g_key_filter_state := g.(g_key_filter_state); g_epit_state := g.(g_epit_state);
     g_exit_state := g.(g_exit_state); g_gt9147_dev := g.(g_gt9147_dev);
     g_gt_init_fail := v |}.

(** Static storage before [main]: zero, as C initialises it. *)
Definition tft_lcd0 : tft_lcd_t :=
  {| lcd_height := 0; lcd_width := 0; lcd_pixel_size := 0; lcd_vspw := 0; lcd_vbp := 0;
     lcd_vfp := 0; lcd_hspw := 0; lcd_hbp := 0; lcd_hfp := 0; lcd_buf := 0;
     lcd_forecolor := 0; lcd_backcolor := 0; lcd_id := 0 |}.
Definition gt9147_dev0 : gt9147_dev_t :=
  {| gt_initfalg := 0; gt_intflag := 0; gt_point_num := 0;
     gt_x := replicate 5 0; gt_y := replicate 5 0 |}.
Definition globals0 : globals :=
  {| g_tft_lcd := tft_lcd0; g_dram := ∅; g_mem := ∅; g_bl_duty := 0; g_irq_count := 0;
     g_irq_table := replicate 160 {| irq_fn := default_irq_handler; irq_opaque := 0 |};
     g_key_filter_state := 0; g_epit_state := 0; g_exit_state := 0;
     g_gt9147_dev := gt9147_dev0; g_gt_init_fail := 0 |}.

(** ** The firmware monad *)
Record fw := Fw { tr : trace; gl : globals }.
Definition fw0 : fw := Fw [] globals0.

(** [Ret a s]: the call returned [a] in state [s].  [Fuel]: some loop used up
    its iterations.  [Undef]: the C program has undefined behaviour here (an
    array access outside its bounds). *)
Inductive out (A : Type) :=
  | Ret (a : A) (s : fw)
  | Fuel
  | Undef.
Arguments Ret {A} a s.
Arguments Fuel {A}.
Arguments Undef {A}.

(** A computation takes the number of iterations each of its loops may make. *)
Definition M (A : Type) : Type := nat -> fw -> out A.

Definition ret {A} (a : A) : M A := fun _ s => Ret a s.
Definition bind {A B} (m : M A) (k : A -> M B) : M B := fun n s =>
  match m n s with
  | Ret a s' => k a n s'
  | Fuel => Fuel
  | Undef => Undef
  end.
Definition undefined {A} : M A := fun _ _ => Undef.

Declare Scope fw_scope.
Delimit Scope fw_scope with fw.
Notation "x <- m ;; k" := (bind m (fun x => k))
  (at level 100, m at next level, right associativity) : fw_scope.
Notation "'unpack' x <- m ;; k" := (bind m (fun x => k))
  (at level 100, x strict pattern, m at next level, right associativity) : fw_scope.
Notation "m ;; k" := (bind m (fun _ => k))
  (at level 100, right associativity) : fw_scope.
Notation "'when' b 'then' m" := (if b then m else ret tt)
  (at level 100, b at level 99, m at level 99) : fw_scope.
Global Open Scope fw_scope.

Section Ops.
Context `{Device}.

(** Volatile accesses of 32, 16 bits. *)
Definition rd32 (a : Z) : M Z := fun _ s =>
  let v := u32 (dev_read s.(tr) a) in Ret v (Fw (Rd a v :: s.(tr)) s.(gl)).
Definition wr32 (a v : Z) : M unit := fun _ s =>
  Ret tt (Fw (Wr a (u32 v) :: s.(tr)) s.(gl)).
Definition rd16 (a : Z) : M Z := fun _ s =>
  let v := u16 (dev_read s.(tr) a) in Ret v (Fw (Rd a v :: s.(tr)) s.(gl)).
Definition wr16 (a v : Z) : M unit := fun _ s =>
  Ret tt (Fw (Wr a (u16 v) :: s.(tr)) s.(gl)).

(** [R |= m], [R &= ~m]: a read, then a write. *)
Definition set32 (a m : Z) : M unit := v <- rd32 a ;; wr32 a (v .| m).
Definition clr32 (a m : Z) : M unit := v <- rd32 a ;; wr32 a (v .\ m).
Definition set16 (a m : Z) : M unit := v <- rd16 a ;; wr16 a (v .| m).
Definition clr16 (a m : Z) : M unit := v <- rd16 a ;; wr16 a (v .\ m).

Definition gets {A} (f : globals -> A) : M A := fun _ s => Ret (f s.(gl)) s.
Definition modify (f : globals -> globals) : M unit := fun _ s =>
  Ret tt (Fw s.(tr) (f s.(gl))).

(** Loops: [body] returns [inl x'] to continue with [x'], [inr b] to leave. *)
Fixpoint iter_n {X B} (k : nat) (body : X -> M (X + B)) (x : X) (n : nat) (s : fw) : out B :=
  match k with
  | O => Fuel
  | S k =>
      match body x n s with
      | Ret (inl x') s' => iter_n k body x' n s'
      | Ret (inr b) s' => Ret b s'
      | Fuel => Fuel
      | Undef => Undef
      end
  end.
Definition iter {X B} (body : X -> M (X + B)) (x : X) : M B := fun n s =>
  iter_n n body x n s.

(** [while (!done(R)) {}] on a volatile register. *)
Definition poll32 (a : Z) (done : Z -> bool) : M unit :=
  iter (fun _ : unit => v <- rd32 a ;; if done v then ret (inr tt) else ret (inl tt)) tt.
Definition poll16 (a : Z) (done : Z -> bool) : M unit :=
  iter (fun _ : unit => v <- rd16 a ;; if done v then ret (inr tt) else ret (inl tt)) tt.

(** A counted [for] loop whose body does not change the counter. *)
Fixpoint for_list {A} (l : list A) (body : A -> M unit) : M unit :=
  match l with
  | [] => ret tt
  | x :: l => body x ;; for_list l body
  end.
End Ops.
