(* ===== verification/FwLogic.v ===== *)
(** Reasoning about firmware computations: total-correctness triples over the
    monad of Machine.v, the registers a trace leaves behind, and the rules for
    accesses, bounded loops and polling. *)
From S2P Require Import Prelude Machine.

(** [runs m n s Q]: with [n] iterations per loop, [m] returns from [s], without
    undefined behaviour, in a state and with a value satisfying [Q]. *)
Definition runs {A} (m : M A) (n : nat) (s : fw) (Q : A -> fw -> Prop) : Prop :=
  match m n s with
  | Ret a s' => Q a s'
  | _ => False
  end.

Section Rules.
Context {A B : Type}.

Lemma runs_ret (a : A) n s (Q : A -> fw -> Prop) : Q a s -> runs (ret a) n s Q.
Proof. done. Qed.

Lemma runs_bind (m : M A) (k : A -> M B) n s Q :
  runs m n s (fun a s' => runs (k a) n s' Q) -> runs (bind m k) n s Q.
Proof. unfold runs, bind. by destruct (m n s). Qed.

Lemma runs_mono (m : M A) n s (P Q : A -> fw -> Prop) :
  runs m n s P -> (forall a s', P a s' -> Q a s') -> runs m n s Q.
Proof. unfold runs. destruct (m n s); auto. Qed.

Lemma runs_eq (m : M A) n s a s' (Q : A -> fw -> Prop) :
  m n s = Ret a s' -> Q a s' -> runs m n s Q.
Proof. unfold runs. by intros ->. Qed.

Lemma runs_inv (m : M A) n s (Q : A -> fw -> Prop) :
  runs m n s Q -> exists a s', m n s = Ret a s' /\ Q a s'.
Proof. unfold runs. destruct (m n s); [eauto|done|done]. Qed.

Lemma runs_gets (f : globals -> A) n s (Q : A -> fw -> Prop) :
  Q (f s.(gl)) s -> runs (gets f) n s Q.
Proof. done. Qed.

Lemma runs_modify f n s (Q : unit -> fw -> Prop) :
  Q tt (Fw s.(tr) (f s.(gl))) -> runs (modify f) n s Q.
Proof. done. Qed.

Lemma bind_ret_l (a : A) (k : A -> M B) n s : bind (ret a) k n s = k a n s.
Proof. done. Qed.

Lemma bind_ret_r (m : M A) n s : bind m ret n s = m n s.
Proof. unfold bind, ret. by destruct (m n s). Qed.
End Rules.

Lemma bind_assoc {A B C} (m : M A) (k : A -> M B) (h : B -> M C) n s :
  bind (bind m k) h n s = bind m (fun a => bind (k a) h) n s.
Proof. unfold bind. by destruct (m n s). Qed.

(** A loop terminates when each iteration lowers a bound [j] on what is left. *)
Lemma runs_iter {X B} (P : nat -> X -> fw -> Prop) (Q : B -> fw -> Prop)
    (body : X -> M (X + B)) n j x s :
  (forall j x s, P j x s -> runs (body x) n s (fun r s' =>
     match r with
     | inl x' => exists j', (j' < j)%nat /\ P j' x' s'
     | inr b => Q b s'
     end)) ->
  P j x s -> (j < n)%nat -> runs (iter body x) n s Q.
Proof.
  intros Hstep HP Hj. unfold runs, iter.
  assert (forall k j x s, P j x s -> (j < k)%nat ->
    match iter_n k body x n s with Ret b s' => Q b s' | _ => False end) as Hk; [|by eapply Hk].
  clear j x s HP Hj. induction k as [|k IH]; intros j x s HP Hj; [lia|]. simpl.
  specialize (Hstep j x s HP). unfold runs in Hstep.
  destruct (body x n s) as [[x'|b] s'| |]; [|done|done|done].
  destruct Hstep as (j' & Hlt & HP'). apply (IH j' x' s'); [done|lia].
Qed.

(** A loop that reaches undefined behaviour after [j] rounds. *)
Lemma iter_undef {X B} (P : nat -> X -> fw -> Prop) (body : X -> M (X + B)) n j x s :
  (forall j x s, P (S j) x s -> runs (body x) n s (fun r s' =>
     match r with inl x' => P j x' s' | inr _ => False end)) ->
  (forall x s, P O x s -> body x n s = Undef) ->
  P j x s -> (j < n)%nat -> iter body x n s = Undef.
Proof.
  intros Hstep H0 HP Hj. unfold iter.
  assert (forall k j x s, P j x s -> (j < k)%nat -> iter_n k body x n s = Undef) as Hk;
    [|by eapply Hk].
  clear j x s HP Hj. induction k as [|k IH]; intros j x s HP Hj; [lia|]. simpl.
  destruct j as [|j]; [by rewrite H0|]. specialize (Hstep j x s HP). unfold runs in Hstep.
  destruct (body x n s) as [[x'|b] s'| |]; [|done|done|done]. apply (IH j x' s'); [done|lia].
Qed.

(** A loop whose body always asks for another round never ends. *)
Lemma iter_diverges {X B} (P : X -> fw -> Prop) (body : X -> M (X + B)) n x s :
  (forall x s, P x s -> runs (body x) n s (fun r s' =>
     match r with inl x' => P x' s' | inr _ => False end)) ->
  P x s -> iter body x n s = Fuel.
Proof.
  intros Hstep HP. unfold iter. generalize n at 1. intros k. revert x s HP.
  induction k as [|k IH]; intros x s HP; [done|]. simpl.
  specialize (Hstep x s HP). unfold runs in Hstep.
  destruct (body x n s) as [[x'|b] s'| |]; [|done|done|done]. by apply IH.
Qed.

(** [for] over a list, with the part already done as the index of the invariant. *)
Lemma runs_for_list {A} (I : list A -> fw -> Prop) (body : A -> M unit) n l :
  forall done s,
  I done s ->
  (forall d x rest s, d ++ x :: rest = done ++ l -> I d s ->
     runs (body x) n s (fun _ s' => I (d ++ [x]) s')) ->
  runs (for_list l body) n s (fun _ s' => I (done ++ l) s').
Proof.
  induction l as [|x l IH]; intros d s HI Hb; simpl.
  - apply runs_ret. by rewrite app_nil_r.
  - apply runs_bind. eapply runs_mono; [by apply (Hb d x l)|].
    intros [] s' HI'. replace (d ++ x :: l) with ((d ++ [x]) ++ l) by by rewrite <- app_assoc.
    apply IH; [done|]. intros d' y rest s'' Heq. apply (Hb d' y rest).
    by rewrite Heq, <- app_assoc.
Qed.

(** ** What a trace says about registers *)

(** Values written to [a], oldest first. *)
Fixpoint outs (a : Z) (t : trace) : list Z :=
  match t with
  | [] => []
  | Wr b v :: t => if a =? b then outs a t ++ [v] else outs a t
  | Rd _ _ :: t => outs a t
  end.

(** All writes, oldest first. *)
Fixpoint writes (t : trace) : list (Z * Z) :=
  match t with
  | [] => []
  | Wr b v :: t => writes t ++ [(b, v)]
  | Rd _ _ :: t => writes t
  end.

Definition is_read (a : Z) (e : event) : Prop := exists v, e = Rd a v.
Definition is_rd (e : event) : Prop := exists a v, e = Rd a v.

Lemma is_read_rd a e : is_read a e -> is_rd e.
Proof. intros [v ->]. by exists a, v. Qed.

Lemma outs_app_rd a l t : Forall is_rd l -> outs a (l ++ t) = outs a t.
Proof. induction 1 as [|? l (b & v & ->)]; done. Qed.

Lemma writes_app_rd l t : Forall is_rd l -> writes (l ++ t) = writes t.
Proof. induction 1 as [|? l (b & v & ->)]; done. Qed.

Lemma outs_writes a t : outs a t = snd <$> filter (fun w => fst w = a) (writes t).
Proof.
  induction t as [|[b v|b v] t IH]; simpl; [done|done|].
  rewrite list.filter_app, fmap_app, <- IH, list.filter_cons, list.filter_nil.
  destruct (Z.eqb_spec a b), (decide (fst (b, v) = a)); simpl in *; subst; try done.
  by rewrite app_nil_r.
Qed.

(** The value a storage register holds after [t], from the reset values. *)
Fixpoint regval_from (reset : Z -> Z) (t : trace) (a : Z) : Z :=
  match t with
  | [] => u32 (reset a)
  | Wr b v :: t => if a =? b then u32 v else regval_from reset t a
  | Rd _ _ :: t => regval_from reset t a
  end.

(** A concrete device: storage everywhere, except that the addresses where
    [volatile] answers return what it says of the accesses made so far. *)
Definition sim_device (reset : Z -> Z) (volatile : Z -> option (trace -> Z)) : Device :=
  {| dev_read := fun t a =>
       match volatile a with Some f => f t | None => regval_from reset t a end;
     dev_reset := reset; dram_reset := fun _ => 0 |}.
Definition reg_device : Device := sim_device (fun _ => 0) (fun _ => None).

Section Registers.
Context `{Device}.

(** The value register [a] holds after [t] if it behaves as storage. *)
Definition regval : trace -> Z -> Z := regval_from dev_reset.

(** Register [a] reads back what was last written to it. *)
Definition storage (a : Z) : Prop := forall t, dev_read t a = regval t a.

Lemma regval_fits t a : fits 32 (regval t a).
Proof.
  unfold regval. induction t as [|[b v|b v] t IH]; simpl; [apply u32_fits|done|].
  destruct (a =? b); [apply u32_fits|done].
Qed.

Lemma u32_regval t a : u32 (regval t a) = regval t a.
Proof. apply u32_small, regval_fits. Qed.

Lemma regval_rd t a b v : regval (Rd b v :: t) a = regval t a.
Proof. done. Qed.

Lemma regval_wr_eq t a v : regval (Wr a v :: t) a = u32 v.
Proof. unfold regval. simpl. by rewrite Z.eqb_refl. Qed.

Lemma regval_wr_ne t a b v : a <> b -> regval (Wr b v :: t) a = regval t a.
Proof. intros Hne. unfold regval. simpl. by destruct (Z.eqb_spec a b). Qed.

Lemma regval_app_rd l t a : Forall is_rd l -> regval (l ++ t) a = regval t a.
Proof. induction 1 as [|? l (b & v & ->)]; done. Qed.

(** *** Rules for accesses *)
Lemma runs_rd32 a n s (Q : Z -> fw -> Prop) :
  (let v := u32 (dev_read s.(tr) a) in Q v (Fw (Rd a v :: s.(tr)) s.(gl))) ->
  runs (rd32 a) n s Q.
Proof. done. Qed.
Lemma runs_wr32 a v n s (Q : unit -> fw -> Prop) :
  Q tt (Fw (Wr a (u32 v) :: s.(tr)) s.(gl)) -> runs (wr32 a v) n s Q.
Proof. done. Qed.
Lemma runs_rd16 a n s (Q : Z -> fw -> Prop) :
  (let v := u16 (dev_read s.(tr) a) in Q v (Fw (Rd a v :: s.(tr)) s.(gl))) ->
  runs (rd16 a) n s Q.
Proof. done. Qed.
Lemma runs_wr16 a v n s (Q : unit -> fw -> Prop) :
  Q tt (Fw (Wr a (u16 v) :: s.(tr)) s.(gl)) -> runs (wr16 a v) n s Q.
Proof. done. Qed.

(** *** Polling *)

(** [responsive m w a done]: whatever was done before, at most [m] reads of
    [a] (of width [w]) fail to show [done] before one does. *)
Fixpoint shows (m : nat) (conv : Z -> Z) (a : Z) (done : Z -> bool) (t : trace) : Prop :=
  let v := conv (dev_read t a) in
  done v = true \/
  match m with
  | O => False
  | S m => shows m conv a done (Rd a v :: t)
  end.
Definition responsive (m : nat) (conv : Z -> Z) (a : Z) (done : Z -> bool) : Prop :=
  forall t, shows m conv a done t.

Lemma shows_ext m conv a done done' t :
  (forall v, done v = done' v) -> shows m conv a done t -> shows m conv a done' t.
Proof.
  intros He. revert t. induction m as [|m IH]; intros t; simpl; rewrite He; [done|].
  intros [|]; [by left|right; by apply IH].
Qed.

Lemma runs_poll (conv : Z -> Z) a (done : Z -> bool) (rd : M Z) m n s (Q : unit -> fw -> Prop) :
  (forall n s, rd n s = let v := conv (dev_read s.(tr) a) in
                        Ret v (Fw (Rd a v :: s.(tr)) s.(gl))) ->
  shows m conv a done s.(tr) -> (m < n)%nat ->
  (forall l v, Forall (is_read a) l -> done v = true ->
     v = conv (dev_read (l ++ s.(tr)) a) ->
     Q tt (Fw (Rd a v :: l ++ s.(tr)) s.(gl))) ->
  runs (iter (fun _ : unit => v <- rd ;; if done v then ret (inr tt) else ret (inl tt)) tt) n s Q.
Proof.
  intros Hrd Hs Hn HQ.
  apply (runs_iter (fun j _ s' => shows j conv a done s'.(tr) /\
    gl s' = gl s /\ exists l, Forall (is_read a) l /\ tr s' = l ++ tr s)
    Q _ n m tt s); [|by eauto using Forall_nil|done].
  intros j _ [t' g'] (Hsh & Hg & l & Hl & Ht). simpl in *. subst g' t'.
  apply runs_bind. eapply runs_eq; [apply Hrd|]. simpl.
  destruct (done (conv (dev_read (l ++ tr s) a))) eqn:Hd.
  - apply runs_ret. by apply HQ.
  - apply runs_ret. destruct j as [|j]; simpl in Hsh.
    { destruct Hsh; [congruence|done]. }
    destruct Hsh as [|Hsh]; [congruence|]. exists j. split; [lia|].
    split; [done|]. split; [done|]. eexists (_ :: l).
    split; [|done]. constructor; [by eexists|done].
Qed.

Lemma runs_poll32 a done m n s (Q : unit -> fw -> Prop) :
  shows m u32 a done s.(tr) -> (m < n)%nat ->
  (forall l v, Forall (is_read a) l -> done v = true ->
     v = u32 (dev_read (l ++ s.(tr)) a) ->
     Q tt (Fw (Rd a v :: l ++ s.(tr)) s.(gl))) ->
  runs (poll32 a done) n s Q.
Proof. apply (runs_poll u32 a done (rd32 a)). done. Qed.

Lemma runs_poll16 a done m n s (Q : unit -> fw -> Prop) :
  shows m u16 a done s.(tr) -> (m < n)%nat ->
  (forall l v, Forall (is_read a) l -> done v = true ->
     v = u16 (dev_read (l ++ s.(tr)) a) ->
     Q tt (Fw (Rd a v :: l ++ s.(tr)) s.(gl))) ->
  runs (poll16 a done) n s Q.
Proof. apply (runs_poll u16 a done (rd16 a)). done. Qed.

(** A storage register that already shows the condition ends the poll at once. *)
Lemma shows_storage a done t m :
  storage a -> done (regval t a) = true -> shows m u32 a done t.
Proof.
  intros Hs Hd. destruct m; simpl; left; rewrite Hs, u32_regval; done.
Qed.
End Registers.

Arguments regval : simpl never.

Lemma storage_sim reset volatile a :
  volatile a = None -> @storage (sim_device reset volatile) a.
Proof. intros Hv t. simpl. by rewrite Hv. Qed.

Lemma Forall_is_read_rd a l : Forall (is_read a) l -> Forall is_rd l.
Proof. induction 1; constructor; eauto using is_read_rd. Qed.
Create HintDb fwdb.
#[export] Hint Resolve Forall_is_read_rd : fwdb.

(** One symbolic step of a straight-line computation. *)
Ltac fw_step :=
  lazymatch goal with
  | |- runs (bind _ _) _ _ _ => apply runs_bind
  | |- runs (if true then _ else _) _ _ _ => cbv iota
  | |- runs (if false then _ else _) _ _ _ => cbv iota
  | |- runs (ret _) _ _ _ => apply runs_ret
  | |- runs (rd32 _) _ _ _ => apply runs_rd32; cbv zeta; cbn [tr gl]
  | |- runs (wr32 _ _) _ _ _ => apply runs_wr32; cbn [tr gl]
  | |- runs (rd16 _) _ _ _ => apply runs_rd16; cbv zeta; cbn [tr gl]
  | |- runs (wr16 _ _) _ _ _ => apply runs_wr16; cbn [tr gl]
  | |- runs (gets _) _ _ _ => apply runs_gets; cbn [tr gl]
  | |- runs (modify _) _ _ _ => apply runs_modify; cbn [tr gl]
  | |- runs (set32 _ _) _ _ _ => unfold set32
  | |- runs (clr32 _ _) _ _ _ => unfold clr32
  | |- runs (set16 _ _) _ _ _ => unfold set16
  | |- runs (clr16 _ _) _ _ _ => unfold clr16
  end.
Ltac fw_steps := repeat fw_step.

(** ** Values written to and read from one register *)

(** Values read from [a], oldest first. *)
Fixpoint ins (a : Z) (t : trace) : list Z :=
  match t with
  | [] => []
  | Rd b v :: t => if a =? b then ins a t ++ [v] else ins a t
  | Wr _ _ :: t => ins a t
  end.

Lemma outs_rd a b v t : outs a (Rd b v :: t) = outs a t.
Proof. done. Qed.
Lemma outs_wr_eq a v t : outs a (Wr a v :: t) = outs a t ++ [v].
Proof. simpl. by rewrite Z.eqb_refl. Qed.
Lemma outs_wr_ne a b v t : a <> b -> outs a (Wr b v :: t) = outs a t.
Proof. intros Hne. simpl. by destruct (Z.eqb_spec a b). Qed.
Lemma ins_wr a b v t : ins a (Wr b v :: t) = ins a t.
Proof. done. Qed.
Lemma ins_rd_eq a v t : ins a (Rd a v :: t) = ins a t ++ [v].
Proof. simpl. by rewrite Z.eqb_refl. Qed.
Lemma ins_rd_ne a b v t : a <> b -> ins a (Rd b v :: t) = ins a t.
Proof. intros Hne. simpl. by destruct (Z.eqb_spec a b). Qed.
Lemma ins_app_read a b l t : Forall (is_read b) l -> a <> b -> ins a (l ++ t) = ins a t.
Proof.
  intros Hl Hne. induction Hl as [|? l (v & ->)]; [done|]. simpl app. by rewrite ins_rd_ne.
Qed.
