(* ===== verification/Regs.v ===== *)
(** Register map of the i.MX6ULL as the firmware's headers give it
    (baremetal/20_pwm/nxp/mcimx6y2.h, fsl_iomuxc.h, core_ca7.h): a peripheral
    register is its bus address, a pin macro the record of its five words, and
    the inline functions of the headers are translated here.

    Coprocessor registers are not on the bus; they get negative numbers, so
    that no bus address can be confused with one. *)
From S2P Require Import Prelude Machine FwLogic.

(** ** Peripherals with several instances: offset from the instance's base *)
Definition GPIO_DR (base : Z) : Z := base + 0x0.
Definition GPIO_GDIR (base : Z) : Z := base + 0x4.
Definition GPIO_ICR1 (base : Z) : Z := base + 0xC.
Definition GPIO_ICR2 (base : Z) : Z := base + 0x10.
Definition GPIO_IMR (base : Z) : Z := base + 0x14.
Definition GPIO_ISR (base : Z) : Z := base + 0x18.
Definition GPIO_EDGE_SEL (base : Z) : Z := base + 0x1C.
Definition I2C_IFDR (base : Z) : Z := base + 0x4.
Definition I2C_I2CR (base : Z) : Z := base + 0x8.
Definition I2C_I2SR (base : Z) : Z := base + 0xC.
Definition I2C_I2DR (base : Z) : Z := base + 0x10.
Definition ECSPI_RXDATA (base : Z) : Z := base + 0x0.
Definition ECSPI_TXDATA (base : Z) : Z := base + 0x4.
Definition ECSPI_CONREG (base : Z) : Z := base + 0x8.
Definition ECSPI_CONFIGREG (base : Z) : Z := base + 0xC.
Definition ECSPI_STATREG (base : Z) : Z := base + 0x18.
Definition ECSPI_PERIODREG (base : Z) : Z := base + 0x1C.
Definition UART_URXD (base : Z) : Z := base + 0x0.
Definition UART_UTXD (base : Z) : Z := base + 0x40.
Definition UART_UCR1 (base : Z) : Z := base + 0x80.
Definition UART_UCR2 (base : Z) : Z := base + 0x84.
Definition UART_UCR3 (base : Z) : Z := base + 0x88.
Definition UART_UFCR (base : Z) : Z := base + 0x90.
Definition UART_USR2 (base : Z) : Z := base + 0x98.
Definition UART_UBIR (base : Z) : Z := base + 0xA4.
Definition UART_UBMR (base : Z) : Z := base + 0xA8.

Definition GPIO1 : Z := 0x209C000.
Definition GPIO3 : Z := 0x20A4000.
Definition GPIO5 : Z := 0x20AC000.
Definition I2C1 : Z := 0x21A0000.
Definition I2C2 : Z := 0x21A4000.
Definition ECSPI3 : Z := 0x2010000.
Definition UART1 : Z := 0x2020000.

(** ** Peripherals with one instance *)
Definition PWM1_PWMCR : Z := 0x2080000.
Definition PWM1_PWMSR : Z := 0x2080004.
Definition PWM1_PWMIR : Z := 0x2080008.
Definition PWM1_PWMSAR : Z := 0x208000C.
Definition PWM1_PWMPR : Z := 0x2080010.
Definition EPIT1_CR : Z := 0x20D0000.
Definition EPIT1_SR : Z := 0x20D0004.
Definition EPIT1_LR : Z := 0x20D0008.
Definition EPIT1_CMPR : Z := 0x20D000C.
Definition GPT1_CR : Z := 0x2098000.
Definition GPT1_PR : Z := 0x2098004.
Definition GPT1_OCR0 : Z := 0x2098010.
Definition GPT1_CNT : Z := 0x2098024.
Definition SNVS_HPCOMR : Z := 0x20CC004.
Definition SNVS_LPCR : Z := 0x20CC038.
Definition SNVS_LPSRTCMR : Z := 0x20CC050.
Definition SNVS_LPSRTCLR : Z := 0x20CC054.
Definition LCDIF_CTRL : Z := 0x21C8000.
Definition LCDIF_CTRL1 : Z := 0x21C8010.
Definition LCDIF_TRANSFER_COUNT : Z := 0x21C8030.
Definition LCDIF_CUR_BUF : Z := 0x21C8040.
Definition LCDIF_NEXT_BUF : Z := 0x21C8050.
Definition LCDIF_VDCTRL0 : Z := 0x21C8070.
Definition LCDIF_VDCTRL1 : Z := 0x21C8080.
Definition LCDIF_VDCTRL2 : Z := 0x21C8090.
Definition LCDIF_VDCTRL3 : Z := 0x21C80A0.
Definition LCDIF_VDCTRL4 : Z := 0x21C80B0.
Definition CCM_CCSR : Z := 0x20C400C.
Definition CCM_CACRR : Z := 0x20C4010.
Definition CCM_CBCDR : Z := 0x20C4014.
Definition CCM_CBCMR : Z := 0x20C4018.
Definition CCM_CSCMR1 : Z := 0x20C401C.
Definition CCM_CSCDR2 : Z := 0x20C4038.
Definition CCM_CDHIPR : Z := 0x20C4048.
Definition CCM_CCGR0 : Z := 0x20C4068.
Definition CCM_CCGR1 : Z := 0x20C406C.
Definition CCM_CCGR2 : Z := 0x20C4070.
Definition CCM_CCGR3 : Z := 0x20C4074.
Definition CCM_CCGR4 : Z := 0x20C4078.
Definition CCM_CCGR5 : Z := 0x20C407C.
Definition CCM_CCGR6 : Z := 0x20C4080.
Definition CCM_ANALOG_PLL_ARM : Z := 0x20C8000.
Definition CCM_ANALOG_PLL_VIDEO : Z := 0x20C80A0.
Definition CCM_ANALOG_PLL_VIDEO_NUM : Z := 0x20C80B0.
Definition CCM_ANALOG_PLL_VIDEO_DENOM : Z := 0x20C80C0.
Definition CCM_ANALOG_PFD_480 : Z := 0x20C80F0.
Definition CCM_ANALOG_PFD_528 : Z := 0x20C8100.
Definition CCM_ANALOG_MISC2 : Z := 0x20C8170.

(** ** Coprocessor registers *)
Definition CP15_CBAR : Z := -1.
Definition CP15_VBAR : Z := -2.
Definition CP15_CPACR : Z := -3.
Definition VFP_FPEXC : Z := -4.

(** ** Interrupt numbers *)
Definition NUMBER_OF_INT_VECTORS : Z := 160.
Definition EPIT1_IRQn : Z := 88.
Definition GPIO1_Combined_0_15_IRQn : Z := 98.
Definition GPIO1_Combined_16_31_IRQn : Z := 99.
Definition PWM1_IRQn : Z := 115.

(** ** Pins: mux register, mux mode, input register, input daisy, pad register *)
Record pin_id := Pin {
  muxRegister : Z; muxMode : Z; inputRegister : Z; inputDaisy : Z; configRegister : Z
}.
Definition IOMUXC_GPIO1_IO03_GPIO1_IO03 := Pin 0x020E0068 0x5 0x00000000 0x0 0x020E02F4.
Definition IOMUXC_SNVS_SNVS_TAMPER1_GPIO5_IO01 := Pin 0x0229000C 0x5 0x00000000 0x0 0x02290050.
Definition IOMUXC_SNVS_SNVS_TAMPER9_GPIO5_IO09 := Pin 0x0229002C 0x5 0x00000000 0x0 0x02290070.
Definition IOMUXC_UART1_CTS_B_GPIO1_IO18 := Pin 0x020E008C 0x5 0x00000000 0x0 0x020E0318.
Definition IOMUXC_GPIO1_IO08_PWM1_OUT := Pin 0x020E007C 0x0 0x00000000 0x0 0x020E0308.
Definition IOMUXC_GPIO1_IO08_GPIO1_IO08 := Pin 0x020E007C 0x5 0x00000000 0x0 0x020E0308.
Definition IOMUXC_GPIO1_IO09_GPIO1_IO09 := Pin 0x020E0080 0x5 0x00000000 0x0 0x020E030C.
Definition IOMUXC_LCD_VSYNC_GPIO3_IO03 := Pin 0x020E0110 0x5 0x00000000 0x0 0x020E039C.
Definition IOMUXC_LCD_DATA07_GPIO3_IO12 := Pin 0x020E0134 0x5 0x00000000 0x0 0x020E03C0.
Definition IOMUXC_LCD_DATA15_GPIO3_IO20 := Pin 0x020E0154 0x5 0x00000000 0x0 0x020E03E0.
Definition IOMUXC_LCD_DATA23_GPIO3_IO28 := Pin 0x020E0174 0x5 0x00000000 0x0 0x020E0400.
Definition IOMUXC_LCD_CLK_LCDIF_CLK := Pin 0x020E0104 0x0 0x00000000 0x0 0x020E0390.
Definition IOMUXC_LCD_ENABLE_LCDIF_ENABLE := Pin 0x020E0108 0x0 0x00000000 0x0 0x020E0394.
Definition IOMUXC_LCD_HSYNC_LCDIF_HSYNC := Pin 0x020E010C 0x0 0x020E05DC 0x0 0x020E0398.
Definition IOMUXC_LCD_VSYNC_LCDIF_VSYNC := Pin 0x020E0110 0x0 0x00000000 0x0 0x020E039C.
Definition IOMUXC_UART4_TX_DATA_I2C1_SCL := Pin 0x020E00B4 0x2 0x020E05A4 0x1 0x020E0340.
Definition IOMUXC_UART4_RX_DATA_I2C1_SDA := Pin 0x020E00B8 0x2 0x020E05A8 0x2 0x020E0344.
Definition IOMUXC_UART5_TX_DATA_I2C2_SCL := Pin 0x020E00BC 0x2 0x020E05AC 0x2 0x020E0348.
Definition IOMUXC_UART5_RX_DATA_I2C2_SDA := Pin 0x020E00C0 0x2 0x020E05B0 0x2 0x020E034C.
Definition IOMUXC_UART2_RX_DATA_ECSPI3_SCLK := Pin 0x020E0098 0x8 0x020E0554 0x0 0x020E0324.
Definition IOMUXC_UART2_CTS_B_ECSPI3_MOSI := Pin 0x020E009C 0x8 0x020E055C 0x0 0x020E0328.
Definition IOMUXC_UART2_RTS_B_ECSPI3_MISO := Pin 0x020E00A0 0x8 0x020E0558 0x0 0x020E032C.
Definition IOMUXC_UART2_TX_DATA_GPIO1_IO20 := Pin 0x020E0094 0x5 0x00000000 0x0 0x020E0320.
Definition IOMUXC_UART1_TX_DATA_UART1_TX := Pin 0x020E0084 0x0 0x00000000 0x0 0x020E0310.
Definition IOMUXC_UART1_TX_DATA_UART1_RX := Pin 0x020E0084 0x0 0x020E0624 0x2 0x020E0310.
Definition IOMUXC_UART1_RX_DATA_UART1_RX := Pin 0x020E0088 0x0 0x020E0624 0x3 0x020E0314.
Definition IOMUXC_LCD_DATA00_LCDIF_DATA00 := Pin 0x020E0118 0x0 0x00000000 0x0 0x020E03A4.
Definition IOMUXC_LCD_DATA01_LCDIF_DATA01 := Pin 0x020E011C 0x0 0x00000000 0x0 0x020E03A8.
Definition IOMUXC_LCD_DATA02_LCDIF_DATA02 := Pin 0x020E0120 0x0 0x00000000 0x0 0x020E03AC.
Definition IOMUXC_LCD_DATA03_LCDIF_DATA03 := Pin 0x020E0124 0x0 0x00000000 0x0 0x020E03B0.
Definition IOMUXC_LCD_DATA04_LCDIF_DATA04 := Pin 0x020E0128 0x0 0x00000000 0x0 0x020E03B4.
Definition IOMUXC_LCD_DATA05_LCDIF_DATA05 := Pin 0x020E012C 0x0 0x00000000 0x0 0x020E03B8.
Definition IOMUXC_LCD_DATA06_LCDIF_DATA06 := Pin 0x020E0130 0x0 0x00000000 0x0 0x020E03BC.
Definition IOMUXC_LCD_DATA07_LCDIF_DATA07 := Pin 0x020E0134 0x0 0x00000000 0x0 0x020E03C0.
Definition IOMUXC_LCD_DATA08_LCDIF_DATA08 := Pin 0x020E0138 0x0 0x00000000 0x0 0x020E03C4.
Definition IOMUXC_LCD_DATA09_LCDIF_DATA09 := Pin 0x020E013C 0x0 0x00000000 0x0 0x020E03C8.
Definition IOMUXC_LCD_DATA10_LCDIF_DATA10 := Pin 0x020E0140 0x0 0x00000000 0x0 0x020E03CC.
Definition IOMUXC_LCD_DATA11_LCDIF_DATA11 := Pin 0x020E0144 0x0 0x00000000 0x0 0x020E03D0.
Definition IOMUXC_LCD_DATA12_LCDIF_DATA12 := Pin 0x020E0148 0x0 0x00000000 0x0 0x020E03D4.
Definition IOMUXC_LCD_DATA13_LCDIF_DATA13 := Pin 0x020E014C 0x0 0x00000000 0x0 0x020E03D8.
Definition IOMUXC_LCD_DATA14_LCDIF_DATA14 := Pin 0x020E0150 0x0 0x00000000 0x0 0x020E03DC.
Definition IOMUXC_LCD_DATA15_LCDIF_DATA15 := Pin 0x020E0154 0x0 0x00000000 0x0 0x020E03E0.
Definition IOMUXC_LCD_DATA16_LCDIF_DATA16 := Pin 0x020E0158 0x0 0x00000000 0x0 0x020E03E4.
Definition IOMUXC_LCD_DATA17_LCDIF_DATA17 := Pin 0x020E015C 0x0 0x00000000 0x0 0x020E03E8.
Definition IOMUXC_LCD_DATA18_LCDIF_DATA18 := Pin 0x020E0160 0x0 0x00000000 0x0 0x020E03EC.
Definition IOMUXC_LCD_DATA19_LCDIF_DATA19 := Pin 0x020E0164 0x0 0x00000000 0x0 0x020E03F0.
Definition IOMUXC_LCD_DATA20_LCDIF_DATA20 := Pin 0x020E0168 0x0 0x00000000 0x0 0x020E03F4.
Definition IOMUXC_LCD_DATA21_LCDIF_DATA21 := Pin 0x020E016C 0x0 0x00000000 0x0 0x020E03F8.
Definition IOMUXC_LCD_DATA22_LCDIF_DATA22 := Pin 0x020E0170 0x0 0x00000000 0x0 0x020E03FC.
Definition IOMUXC_LCD_DATA23_LCDIF_DATA23 := Pin 0x020E0174 0x0 0x00000000 0x0 0x020E0400.

(** Every register the development names lies in one address space; two names
    denote the same register only if their numbers agree. *)
Ltac regs_unfold :=
  cbv [GPIO_DR GPIO_GDIR GPIO_ICR1 GPIO_ICR2 GPIO_IMR GPIO_ISR GPIO_EDGE_SEL
       I2C_IFDR I2C_I2CR I2C_I2SR I2C_I2DR ECSPI_RXDATA ECSPI_TXDATA ECSPI_CONREG
       ECSPI_CONFIGREG ECSPI_STATREG ECSPI_PERIODREG UART_URXD UART_UTXD UART_UCR1 UART_UCR2
       UART_UCR3 UART_UFCR UART_USR2 UART_UBIR UART_UBMR GPIO1 GPIO3 GPIO5 I2C1 I2C2 ECSPI3
       UART1] in *.
Ltac reg_ne := regs_unfold; first [ discriminate | lia ].

(** Reads of registers known to be storage, and register values along a trace. *)
Ltac storage_read :=
  match goal with
  | Hs : storage ?a |- context [dev_read ?t ?a] => rewrite (Hs t), u32_regval
  end.
Ltac reg_simpl :=
  cbn [tr gl];
  repeat first
    [ storage_read
    | rewrite regval_rd
    | rewrite u32_u32
    | rewrite regval_wr_eq
    | rewrite regval_wr_ne by reg_ne ].

(** Values of a register that no write of an explicit trace touches. *)
Ltac reg_frame :=
  cbn [tr gl];
  repeat first [ rewrite regval_rd | rewrite regval_wr_ne by (done || reg_ne)
               | rewrite regval_app_rd by eauto with fwdb ]; try done.

(** Symbolic execution in which reads of storage registers are resolved at once. *)
Ltac fw_reg := repeat (fw_step; reg_simpl).

Section Inline.
Context `{Device}.

(** fsl_iomuxc.h *)
Definition IOMUXC_SetPinMux (p : pin_id) (inputOnfield : Z) : M unit :=
  wr32 p.(muxRegister)
    ((u32 p.(muxMode) .& 0xF) .| (u32 (u32 inputOnfield << 4) .& 0x10)) ;;
  when truthy p.(inputRegister) then wr32 p.(inputRegister) (u32 p.(inputDaisy) .& 0x7).

Definition IOMUXC_SetPinConfig (p : pin_id) (configValue : Z) : M unit :=
  when truthy p.(configRegister) then wr32 p.(configRegister) configValue.

(** core_ca7.h *)
Definition GIC_base : M Z := v <- rd32 CP15_CBAR ;; ret (v .& 0xFFFF0000).

(** Where the i.MX6ULL places its interrupt controller. *)
Definition gic_placed : Prop := forall t, u32 (dev_read t CP15_CBAR) .& 0xFFFF0000 = 0xA00000.

Definition GIC_Init : M unit :=
  gic <- GIC_base ;;
  typer <- rd32 (gic + 0x1004) ;;
  for_list (seqZ 0 ((typer .& 0x1F) + 1)) (fun i => wr32 (gic + 0x1180 + 4 * i) 0xFFFFFFFF) ;;
  wr32 (gic + 0x2004) (u32 (0xFF << 3) .& 0xFF) ;;
  wr32 (gic + 0x2008) 2 ;;
  wr32 (gic + 0x1000) 1 ;;
  wr32 (gic + 0x2000) 1.

Definition GIC_EnableIRQ (irq : Z) : M unit :=
  gic <- GIC_base ;;
  wr32 (gic + 0x1100 + 4 * (irq >> 5)) (1 << (irq .& 0x1F)).
End Inline.

(** Inputs and outputs of a register along an explicit trace. *)
Ltac io_simpl :=
  cbn [tr gl];
  repeat first
    [ rewrite outs_rd | rewrite outs_wr_eq | rewrite outs_wr_ne by reg_ne
    | rewrite outs_app_rd by eauto with fwdb
    | rewrite ins_wr | rewrite ins_rd_eq | rewrite ins_rd_ne by reg_ne
    | erewrite ins_app_read by (eassumption || reg_ne) ].
