(* ===== verification/Gpio.v ===== *)
(** General-purpose I/O: baremetal/20_pwm/bsp/gpio/gpio.c, and the two devices
    that only drive one output pin, bsp/led/led.c and bsp/beep/beep.c. *)
From S2P Require Import Prelude Machine FwLogic Regs.

(** ** Data of gpio.h *)
Inductive pin_dir := GPIO_INPUT | GPIO_OUTPUT.
Inductive pin_irq_mode :=
  | IRQ_MODE_NONE | IRQ_MODE_LOW | IRQ_MODE_HIGH | IRQ_MODE_REDGE | IRQ_MODE_FEDGE
  | IRQ_MODE_RFEDGE.
Record pin_cfg := { cfg_dir : pin_dir; cfg_def_val : Z; cfg_irq_mode : pin_irq_mode }.

Global Instance pin_irq_mode_eq_dec : EqDecision pin_irq_mode.
Proof. solve_decision. Defined.

Definition LEVEL_LOW : Z := 0.
Definition LEVEL_HIGH : Z := 1.
Definition ACT_ON : Z := 1.
Definition ACT_OFF : Z := 0.
Definition LED0 : Z := 0.

(** ** Operations *)
Section Operations.
Context `{Device}.

Definition set_pin_intput (base pin : Z) : M unit := clr32 (GPIO_GDIR base) (1 << pin).
Definition set_pin_output (base pin : Z) : M unit := set32 (GPIO_GDIR base) (1 << pin).
Definition pin_output_low (base pin : Z) : M unit := clr32 (GPIO_DR base) (1 << pin).
Definition pin_output_high (base pin : Z) : M unit := set32 (GPIO_DR base) (1 << pin).

Definition pin_read (base pin : Z) : M Z :=
  v <- rd32 (GPIO_DR base) ;; ret ((v >> pin) .& 0x1).

Definition pin_write (base pin level : Z) : M unit :=
  if level =? LEVEL_LOW then pin_output_low base pin else pin_output_high base pin.

(** The register [icr] points to and the shift of the pin's two bits. *)
Definition icr_of (base pin : Z) : Z :=
  if pin <? 16 then GPIO_ICR1 base else GPIO_ICR2 base.
Definition icr_shift (pin : Z) : Z := 2 * (if pin <? 16 then pin else pin - 16).

Definition pin_int_config (base pin : Z) (int_mode : pin_irq_mode) : M unit :=
  clr32 (GPIO_EDGE_SEL base) (1 << pin) ;;
  let icr := icr_of base pin in
  let shift := icr_shift pin in
  match int_mode with
  | IRQ_MODE_LOW => clr32 icr (0x3 << shift)
  | IRQ_MODE_HIGH => v <- rd32 icr ;; wr32 icr ((v .\ (0x3 << shift)) .| (0x1 << shift))
  | IRQ_MODE_REDGE => v <- rd32 icr ;; wr32 icr ((v .\ (0x3 << shift)) .| (0x2 << shift))
  | IRQ_MODE_FEDGE => set32 icr (0x3 << shift)
  | IRQ_MODE_RFEDGE => set32 (GPIO_EDGE_SEL base) (1 << pin)
  | IRQ_MODE_NONE => ret tt
  end.

Definition gpio_init (base pin : Z) (cfg : pin_cfg) : M unit :=
  match cfg.(cfg_dir) with
  | GPIO_INPUT => set_pin_intput base pin
  | GPIO_OUTPUT => set_pin_output base pin ;; pin_write base pin cfg.(cfg_def_val)
  end ;;
  pin_int_config base pin cfg.(cfg_irq_mode).

Definition pin_int_enable (base pin : Z) : M unit := set32 (GPIO_IMR base) (1 << pin).
Definition pin_int_disable (base pin : Z) : M unit := clr32 (GPIO_IMR base) (1 << pin).
Definition pin_int_clear (base pin : Z) : M unit := set32 (GPIO_ISR base) (1 << pin).

(** led.c *)
Definition led_on : M unit := clr32 (GPIO_DR GPIO1) (1 << 3).
Definition led_off : M unit := set32 (GPIO_DR GPIO1) (1 << 3).
Definition led_init : M unit :=
  IOMUXC_SetPinMux IOMUXC_GPIO1_IO03_GPIO1_IO03 0 ;;
  IOMUXC_SetPinConfig IOMUXC_GPIO1_IO03_GPIO1_IO03 0x000010B0 ;;
  set32 (GPIO_GDIR GPIO1) (1 << 3) ;;
  led_off.
Definition led_switch (led action : Z) : M unit :=
  if led =? LED0 then (if action =? ACT_ON then led_on else led_off) else ret tt.

(** beep.c *)
Definition beep_off : M unit := set32 (GPIO_DR GPIO5) (1 << 1).
Definition beep_on : M unit := clr32 (GPIO_DR GPIO5) (1 << 1).
Definition beep_init : M unit :=
  IOMUXC_SetPinMux IOMUXC_SNVS_SNVS_TAMPER1_GPIO5_IO01 0 ;;
  IOMUXC_SetPinConfig IOMUXC_SNVS_SNVS_TAMPER1_GPIO5_IO01 0x000010B0 ;;
  set32 (GPIO_GDIR GPIO5) (1 << 1) ;;
  beep_off.
Definition beep_switch (action : Z) : M unit :=
  if action =? ACT_ON then beep_on
  else if action =? ACT_OFF then beep_off
  else ret tt.
End Operations.

(** ** Single-bit read-modify-write *)
Section BitRmw.
Context `{Device}.

(** The registers of [t'] are those of [t] except [a], whose bit [n] is [b]. *)
Definition only_bit (a n : Z) (b : bool) (t t' : trace) : Prop :=
  (forall r, r <> a -> regval t' r = regval t r) /\
  (forall i, 0 <= i -> Z.testbit (regval t' a) i =
                        if i =? n then b else Z.testbit (regval t a) i).

Lemma set_bit_spec z n i : fits 32 z -> 0 <= n < 32 -> 0 <= i ->
  Z.testbit (u32 (z .| (1 << n))) i = if i =? n then true else Z.testbit z i.
Proof.
  intros Hz Hn Hi. rewrite u32_small by (apply lor_fits; [lia|done|by apply bit_fits]).
  autorewrite with bits. destruct (Z.eqb_spec i n) as [->|Hne].
  - by rewrite Z.sub_diag, orb_true_r.
  - destruct (Z.eqb_spec (i - n) 0); [lia|]. by rewrite orb_false_r.
Qed.

Lemma clr_bit_spec z n i : fits 32 z -> 0 <= n < 32 -> 0 <= i ->
  Z.testbit (u32 (z .\ (1 << n))) i = if i =? n then false else Z.testbit z i.
Proof.
  intros Hz Hn Hi. rewrite u32_small by (apply ldiff_fits; [lia|done]).
  autorewrite with bits. destruct (Z.eqb_spec i n) as [->|Hne].
  - by rewrite Z.sub_diag, andb_false_r.
  - destruct (Z.eqb_spec (i - n) 0); [lia|]. by rewrite andb_true_r.
Qed.

Lemma runs_set_bit a n fuel s (Q : unit -> fw -> Prop) :
  storage a -> 0 <= n < 32 ->
  (forall s', gl s' = gl s -> only_bit a n true (tr s) (tr s') -> Q tt s') ->
  runs (set32 a (1 << n)) fuel s Q.
Proof.
  intros Hs Hn HQ. fw_steps. apply HQ; [done|]. cbn [tr]. storage_read. split.
  - intros r Hr. by rewrite regval_wr_ne, regval_rd.
  - intros i Hi. rewrite regval_wr_eq, (u32_small (u32 _)) by apply u32_fits.
    apply set_bit_spec; auto using regval_fits.
Qed.

Lemma runs_clr_bit a n fuel s (Q : unit -> fw -> Prop) :
  storage a -> 0 <= n < 32 ->
  (forall s', gl s' = gl s -> only_bit a n false (tr s) (tr s') -> Q tt s') ->
  runs (clr32 a (1 << n)) fuel s Q.
Proof.
  intros Hs Hn HQ. fw_steps. apply HQ; [done|]. cbn [tr]. storage_read. split.
  - intros r Hr. by rewrite regval_wr_ne, regval_rd.
  - intros i Hi. rewrite regval_wr_eq, (u32_small (u32 _)) by apply u32_fits.
    apply clr_bit_spec; auto using regval_fits.
Qed.
End BitRmw.

(** ** Pins *)
Section Pins.
Context `{Device}.
Context (base pin : Z) (Hpin : 0 <= pin < 32) (Hdr : storage (GPIO_DR base)).

Lemma runs_pin_write level n s (Q : unit -> fw -> Prop) :
  (forall s', gl s' = gl s ->
     only_bit (GPIO_DR base) pin (truthy level) (tr s) (tr s') -> Q tt s') ->
  runs (pin_write base pin level) n s Q.
Proof.
  intros HQ. unfold pin_write, truthy, LEVEL_LOW in *.
  destruct (Z.eqb_spec level 0).
  - apply runs_clr_bit; [done|done|]. by apply HQ.
  - apply runs_set_bit; [done|done|]. by apply HQ.
Qed.

Lemma runs_pin_read n s (Q : Z -> fw -> Prop) :
  (forall v, v = Z.b2z (Z.testbit (regval (tr s) (GPIO_DR base)) pin) ->
     Q v (Fw (Rd (GPIO_DR base) (regval (tr s) (GPIO_DR base)) :: tr s) (gl s))) ->
  runs (pin_read base pin) n s Q.
Proof.
  intros HQ. unfold pin_read. fw_steps. storage_read. apply HQ.
  rewrite <- field_1 by lia. done.
Qed.
End Pins.

(** The two-bit interrupt field of pin [q] of a bank, and its edge-select bit. *)
Definition icr_field `{Device} (base q : Z) (t : trace) : Z :=
  field (regval t (icr_of base q)) (icr_shift q) 2.
Definition edge_bit `{Device} (base q : Z) (t : trace) : bool :=
  Z.testbit (regval t (GPIO_EDGE_SEL base)) q.

(** Encoding of the level and edge modes in the interrupt field; [None] leaves it. *)
Definition icr_code (m : pin_irq_mode) : option Z :=
  match m with
  | IRQ_MODE_LOW => Some 0 | IRQ_MODE_HIGH => Some 1
  | IRQ_MODE_REDGE => Some 2 | IRQ_MODE_FEDGE => Some 3
  | IRQ_MODE_NONE | IRQ_MODE_RFEDGE => None
  end.

(** What interrupt configuration of [pin] to mode [m] means for all pins of the
    bank. *)
Definition int_configured `{Device} (base pin : Z) (m : pin_irq_mode) (t t' : trace) : Prop :=
  forall q, 0 <= q < 32 ->
    icr_field base q t' =
      (if q =? pin then default (icr_field base q t) (icr_code m) else icr_field base q t) /\
    edge_bit base q t' =
      (if q =? pin then bool_decide (m = IRQ_MODE_RFEDGE) else edge_bit base q t).

Section IntConfig.
Context `{Device}.
Context (base pin : Z) (Hpin : 0 <= pin < 32).
Context (Hicr : storage (icr_of base pin)) (Hedge : storage (GPIO_EDGE_SEL base)).

Lemma icr_of_cases q : icr_of base q = GPIO_ICR1 base \/ icr_of base q = GPIO_ICR2 base.
Proof. unfold icr_of. destruct (q <? 16); auto. Qed.

Lemma icr_of_not_edge q : icr_of base q <> GPIO_EDGE_SEL base.
Proof. destruct (icr_of_cases q) as [-> | ->]; reg_ne. Qed.

Lemma icr_shift_range q : 0 <= q < 32 -> 0 <= icr_shift q /\ icr_shift q + 2 <= 32.
Proof. unfold icr_shift. destruct (Z.ltb_spec q 16); lia. Qed.

(** Writing [insert_field] to the pin's ICR changes that pin's field only. *)
Lemma icr_insert c v t q :
  fits 2 c -> 0 <= q < 32 ->
  v = insert_field (regval t (icr_of base pin)) (icr_shift pin) 2 c ->
  icr_field base q (Wr (icr_of base pin) (u32 v) :: Rd (icr_of base pin) (regval t (icr_of base pin)) :: t) =
    if q =? pin then c else icr_field base q t.
Proof.
  intros Hc Hq ->. unfold icr_field. pose proof (icr_shift_range pin Hpin).
  pose proof (icr_shift_range q Hq).
  assert (fits 32 (insert_field (regval t (icr_of base pin)) (icr_shift pin) 2 c)) as Hf
    by (apply insert_field_fits; try lia; auto using regval_fits).
  destruct (Z.eqb_spec q pin) as [->|Hne].
  - rewrite regval_wr_eq, !u32_small by (rewrite ?u32_small; exact Hf).
    apply field_insert_same; (done || lia).
  - destruct (Z.eq_dec (icr_of base q) (icr_of base pin)) as [He|He].
    + rewrite He, regval_wr_eq, !u32_small by (rewrite ?u32_small; exact Hf).
      apply field_insert_other; try (done || lia).
      unfold icr_of, icr_shift in *.
      destruct (Z.ltb_spec q 16), (Z.ltb_spec pin 16); try lia; exfalso; revert He; reg_ne.
    + by rewrite regval_wr_ne, regval_rd.
Qed.

Lemma edge_write q v t : edge_bit base q (Wr (icr_of base pin) v :: t) = edge_bit base q t.
Proof. unfold edge_bit. rewrite regval_wr_ne; [done|]. intros E. by apply (icr_of_not_edge pin). Qed.

(** After [EDGE_SEL &= ~(1 << pin)] the pin is not in both-edges mode. *)
Lemma edge_cleared t t' q :
  only_bit (GPIO_EDGE_SEL base) pin false t t' -> 0 <= q < 32 ->
  icr_field base q t' = icr_field base q t /\
  edge_bit base q t' = if q =? pin then false else edge_bit base q t.
Proof.
  intros [Hr Hb] Hq. split.
  - unfold icr_field. rewrite Hr; [done|]. apply icr_of_not_edge.
  - unfold edge_bit. apply Hb. lia.
Qed.

Lemma runs_pin_int_config m n s (Q : unit -> fw -> Prop) :
  (forall s', gl s' = gl s -> int_configured base pin m (tr s) (tr s') ->
     (forall r, r <> GPIO_EDGE_SEL base -> r <> icr_of base pin ->
        regval (tr s') r = regval (tr s) r) -> Q tt s') ->
  runs (pin_int_config base pin m) n s Q.
Proof.
  intros HQ. unfold pin_int_config. apply runs_bind. apply runs_clr_bit; [done|done|].
  intros [t1 g1] Hg H1. simpl in Hg, H1. subst g1. cbv zeta.
  pose proof (proj1 H1) as Hother.
  assert (forall c v, fits 2 c ->
    v = insert_field (regval t1 (icr_of base pin)) (icr_shift pin) 2 c ->
    icr_code m = Some c -> m <> IRQ_MODE_RFEDGE ->
    Q tt (Fw (Wr (icr_of base pin) (u32 v) :: Rd (icr_of base pin)
                (regval t1 (icr_of base pin)) :: t1) (gl s))) as Hins.
  { intros c v Hc Hv Hm Hne. apply HQ; [done| |].
    - intros q Hq. cbn [tr]. rewrite (icr_insert c v t1 q Hc Hq Hv), edge_write.
      destruct (edge_cleared _ _ q H1 Hq) as [Ei Ee]. rewrite Hm. cbn [default].
      unfold edge_bit at 1. rewrite regval_rd. fold (edge_bit base q t1). rewrite Ee, Ei.
      split; [done|]. by rewrite bool_decide_false.
    - intros r He Hr. cbn [tr]. rewrite regval_wr_ne by done. by apply Hother. }
  destruct m; simpl.
  - apply runs_ret. apply HQ; [done| |].
    + intros q Hq. destruct (edge_cleared _ _ q H1 Hq) as [Ei Ee]. cbn [tr]. rewrite Ei, Ee.
      by destruct (q =? pin).
    + intros r He _. by apply Hother.
  - fw_steps. storage_read. apply (Hins 0); [done| |done|done]. by apply (clear_field _ _ 2).
  - fw_steps. storage_read. by apply (Hins 1).
  - fw_steps. storage_read. by apply (Hins 2).
  - fw_steps. storage_read. apply (Hins 3); [done| |done|done]. apply (set_field _ _ 2).
  - apply runs_set_bit; [done|done|]. intros [t2 g2] Hg [Hr Hb]. simpl in Hg, Hr, Hb. subst g2.
    apply HQ; [done| |].
    + intros q Hq. destruct (edge_cleared _ _ q H1 Hq) as [Ei Ee]. cbn [tr icr_code default].
      unfold icr_field, edge_bit in *. rewrite Hr by apply icr_of_not_edge.
      rewrite Hb by lia. rewrite Ei, Ee. destruct (q =? pin); done.
    + intros r He Hr'. cbn [tr]. rewrite Hr by done. by apply Hother.
Qed.
End IntConfig.

(** What [gpio_init] leaves behind: the direction bit, the output level of an
    output pin, the interrupt configuration, and nothing else of the machine. *)
Definition gpio_configured `{Device} (base pin : Z) (cfg : pin_cfg) (t t' : trace) : Prop :=
  let out := match cfg.(cfg_dir) with GPIO_OUTPUT => true | GPIO_INPUT => false end in
  (forall i, 0 <= i -> Z.testbit (regval t' (GPIO_GDIR base)) i =
     if i =? pin then out else Z.testbit (regval t (GPIO_GDIR base)) i) /\
  (forall i, 0 <= i -> Z.testbit (regval t' (GPIO_DR base)) i =
     if (i =? pin) && out then truthy cfg.(cfg_def_val)
     else Z.testbit (regval t (GPIO_DR base)) i) /\
  int_configured base pin cfg.(cfg_irq_mode) t t' /\
  (forall r, r <> GPIO_GDIR base -> r <> GPIO_DR base -> r <> GPIO_EDGE_SEL base ->
     r <> icr_of base pin -> regval t' r = regval t r).

Section Init.
Context `{Device}.
Context (base pin : Z) (Hpin : 0 <= pin < 32).
Context (Hdr : storage (GPIO_DR base)) (Hdir : storage (GPIO_GDIR base))
  (Hicr : storage (icr_of base pin)) (Hedge : storage (GPIO_EDGE_SEL base)).

Lemma icr_of_not_dr q : icr_of base q <> GPIO_DR base /\ icr_of base q <> GPIO_GDIR base.
Proof. destruct (icr_of_cases base q) as [-> | ->]; split; reg_ne. Qed.

(** Interrupt configuration is not affected by accesses to other registers. *)
Lemma int_configured_frame m t0 t1 t2 :
  (forall q, regval t1 (icr_of base q) = regval t0 (icr_of base q)) ->
  regval t1 (GPIO_EDGE_SEL base) = regval t0 (GPIO_EDGE_SEL base) ->
  int_configured base pin m t1 t2 -> int_configured base pin m t0 t2.
Proof.
  intros Hi He Hc q Hq. specialize (Hc q Hq). unfold icr_field, edge_bit in *.
  by rewrite Hi, He in Hc.
Qed.

Lemma runs_gpio_init cfg n s (Q : unit -> fw -> Prop) :
  (forall s', gl s' = gl s -> gpio_configured base pin cfg (tr s) (tr s') -> Q tt s') ->
  runs (gpio_init base pin cfg) n s Q.
Proof.
  intros HQ. unfold gpio_init. apply runs_bind.
  assert (forall t1 out,
    out = match cfg_dir cfg with GPIO_OUTPUT => true | GPIO_INPUT => false end ->
    (forall i, 0 <= i -> Z.testbit (regval t1 (GPIO_GDIR base)) i =
       if i =? pin then out else Z.testbit (regval (tr s) (GPIO_GDIR base)) i) ->
    (forall i, 0 <= i -> Z.testbit (regval t1 (GPIO_DR base)) i =
       if (i =? pin) && out then truthy (cfg_def_val cfg)
       else Z.testbit (regval (tr s) (GPIO_DR base)) i) ->
    (forall r, r <> GPIO_GDIR base -> r <> GPIO_DR base -> regval t1 r = regval (tr s) r) ->
    runs (pin_int_config base pin (cfg_irq_mode cfg)) n (Fw t1 (gl s)) Q) as Hcfg.
  { intros t1 out Hout Hd Hr Ho. apply runs_pin_int_config; [done..|].
    intros s' Hg Hc Hf. apply HQ; [done|]. unfold gpio_configured. rewrite <- Hout.
    pose proof (icr_of_not_dr pin) as [Hn1 Hn2].
    split; [|split; [|split]].
    - intros i Hi. rewrite Hf by (reg_ne || congruence). by apply Hd.
    - intros i Hi. rewrite Hf by (reg_ne || congruence). by apply Hr.
    - eapply int_configured_frame; [..|exact Hc]; cbn [tr].
      + intros q. apply Ho; apply icr_of_not_dr.
      + apply Ho; reg_ne.
    - intros r H1 H2 H3 H4. rewrite Hf by done. by apply Ho. }
  destruct (cfg_dir cfg) eqn:Hdireq.
  - apply runs_clr_bit; [done|done|]. intros [t1 g1] Hg [Hr Hb]. simpl in *. subst g1.
    apply (Hcfg t1 false); [done|done| |by auto].
    intros i Hi. rewrite andb_false_r. rewrite Hr by reg_ne. done.
  - apply runs_bind. apply runs_set_bit; [done|done|]. intros [t1 g1] Hg [Hr Hb].
    simpl in *. subst g1. apply runs_pin_write; [done|done|].
    intros [t2 g2] Hg [Hr2 Hb2]. simpl in *. subst g2. apply (Hcfg t2 true); [done| | |].
    + intros i Hi. rewrite Hr2 by reg_ne. by apply Hb.
    + intros i Hi. rewrite andb_true_r, Hb2 by done. rewrite Hr by reg_ne. done.
    + intros r H1 H2. rewrite Hr2 by done. by apply Hr.
Qed.
End Init.

(** ** Properties *)

(** The registers of a bank that configuration of [pin] touches are storage. *)
Definition bank_storage `{Device} (base pin : Z) : Prop :=
  storage (GPIO_DR base) /\ storage (GPIO_GDIR base) /\ storage (icr_of base pin) /\
  storage (GPIO_EDGE_SEL base).

(** [gpio_init] sets the direction bit of its pin, the output level of an
    output pin and the pin's interrupt mode (its two bits of ICR1 or ICR2 and
    its edge-select bit) as the configuration says, for each of the 32 pins of
    a bank and each of the six interrupt modes, and leaves every other pin of
    the bank and every other register as it was. *)
Theorem gpio_init_configures `{Device} base pin cfg n s :
  0 <= pin < 32 -> bank_storage base pin ->
  runs (gpio_init base pin cfg) n s (fun _ s' =>
    gl s' = gl s /\ gpio_configured base pin cfg (tr s) (tr s')).
Proof.
  intros Hp (H1 & H2 & H3 & H4). apply runs_gpio_init; [done..|]. by intros s' Hg Hc.
Qed.

Definition irq_pin_cfg : pin_cfg :=
  {| cfg_dir := GPIO_OUTPUT; cfg_def_val := 1; cfg_irq_mode := IRQ_MODE_REDGE |}.

Lemma gpio_init_configures_witness :
  runs (@gpio_init reg_device GPIO1 18 irq_pin_cfg) 1 fw0 (fun _ s' =>
    gl s' = gl fw0 /\ @gpio_configured reg_device GPIO1 18 irq_pin_cfg (tr fw0) (tr s')).
Proof.
  apply (@gpio_init_configures reg_device); [lia|repeat split; by apply storage_sim].
Defined.
