(* ===== verification/Delay.v ===== *)
(** Delays: baremetal/20_pwm/bsp/delay/delay.c.  The GPT1 counter runs at
    1 MHz; [delay_us] adds up the differences of successive readings. *)
From S2P Require Import Prelude Machine FwLogic Regs.

(** ** Operations *)
Section Operations.
Context `{Device}.

Definition delay_init : M unit :=
  wr32 GPT1_CR 0 ;;
  wr32 GPT1_CR (1 << 15) ;;
  poll32 GPT1_CR (fun v => negb (truthy (v .& 0x00008000))) ;;
  set32 GPT1_CR ((1 << 1) .| (1 << 6)) ;;
  wr32 GPT1_PR 0x41 ;;
  wr32 GPT1_OCR0 0xFFFFFFFF ;;
  set32 GPT1_CR (1 << 0).

(** Ticks the loop of [delay_us] counts between two readings. *)
Definition delay_step (cnt_old cnt_new : Z) : Z :=
  if cnt_old <? cnt_new then cnt_new - cnt_old else 0xFFFFFFFF - cnt_old + cnt_new.

Definition delay_us (us : Z) : M unit :=
  old <- rd32 GPT1_CNT ;;
  iter (fun '(cnt_old, time) =>
    cnt_new <- rd32 GPT1_CNT ;;
    if negb (cnt_new =? cnt_old) then
      let time := u64 (time + u64 (delay_step cnt_old cnt_new)) in
      if us <=? time then ret (inr tt) else ret (inl (cnt_new, time))
    else ret (inl (cnt_old, time))) (old, 0).

(** The counter [i] is an [int]: past [2^31 - 1] its increment is undefined. *)
Definition delay_ms (ms : Z) : M unit :=
  for_list (seqZ 0 (Z.min ms (2 ^ 31))) (fun _ => delay_us 1000) ;;
  if 2 ^ 31 <=? ms then undefined else ret tt.

Definition delay_short (tick : Z) : M unit :=
  iter (fun tick => if truthy tick then ret (inl (u32 (tick - 1))) else ret (inr tt)) tick.

Definition delay (ms : Z) : M unit :=
  iter (fun ms =>
    if truthy ms then delay_short 0x7FF ;; ret (inl (u32 (ms - 1))) else ret (inr tt)) ms.
End Operations.

(** ** Busy waiting *)
Section Busy.
Context `{Device}.

(** A [while (x--)] loop over a 32-bit counter whose body changes nothing. *)
Lemma runs_countdown (body : M unit) c n s :
  fits 32 c -> (Z.to_nat c < n)%nat -> body n s = Ret tt s ->
  runs (iter (fun c => if truthy c then body ;; ret (inl (u32 (c - 1))) else ret (inr tt)) c)
    n s (fun _ s' => s' = s).
Proof.
  intros Hc Hn Hb.
  apply (runs_iter (fun j c s' => s' = s /\ fits 32 c /\ j = Z.to_nat c) _ _ _ (Z.to_nat c));
    [|done|done].
  intros j c' s' (-> & Hc' & ->). destruct (truthy c') eqn:Ht.
  - apply truthy_true in Ht. apply runs_bind. eapply runs_eq; [exact Hb|]. apply runs_ret.
    unfold fits in Hc'. rewrite u32_small by lia. exists (Z.to_nat (c' - 1)).
    repeat split; lia.
  - by apply runs_ret.
Qed.

Lemma runs_delay_short tick n s :
  fits 32 tick -> (Z.to_nat tick < n)%nat -> runs (delay_short tick) n s (fun _ s' => s' = s).
Proof. intros Ht Hn. by apply (runs_countdown (ret tt)). Qed.

Lemma runs_delay ms n s (Q : unit -> fw -> Prop) :
  fits 32 ms -> (Z.to_nat ms < n)%nat -> (0x7FF < n)%nat -> Q tt s -> runs (delay ms) n s Q.
Proof.
  intros Hm Hn H7 HQ. eapply runs_mono.
  - apply runs_countdown; [done|done|].
    destruct (runs_inv _ _ _ _ (runs_delay_short 0x7FF n s ltac:(unfold fits; lia) ltac:(lia)))
      as ([] & s' & E & ->).
    exact E.
  - by intros [] s' ->.
Qed.
End Busy.

(** ** The timer *)

(** What [delay_us] relies on: reading the counter shows the low 32 bits of an
    ever-growing tick count [now], no interval between two reads reaches a full
    turn of the counter, and it advances within [m] further reads. *)
Class Ticks `{Device} (m : nat) := {
  now : trace -> Z;
  now_cnt : forall t, dev_read t GPT1_CNT = now t mod 2 ^ 32;
  now_mono : forall t v, 0 <= now (Rd GPT1_CNT v :: t) - now t < 2 ^ 32;
  now_live : forall t v, shows m u32 GPT1_CNT (fun v' => negb (v' =? v)) t
}.

Section Ticking.
Context `{Ticks}.

Definition cnt (t : trace) : Z := u32 (dev_read t GPT1_CNT).

Lemma cnt_now t : cnt t = now t mod 2 ^ 32.
Proof. unfold cnt. rewrite now_cnt. apply Zmod_mod. Qed.

(** What the loop counts never exceeds the ticks that really passed, and is
    zero only at the step of a full turn. *)
Lemma delay_step_sound t v :
  let t' := Rd GPT1_CNT v :: t in
  cnt t' <> cnt t ->
  0 <= delay_step (cnt t) (cnt t') <= now t' - now t /\
  (delay_step (cnt t) (cnt t') = 0 -> cnt t = 2 ^ 32 - 1 /\ cnt t' = 0).
Proof.
  cbv zeta. intros Hne. pose proof (now_mono t v) as Hm. rewrite !cnt_now in *. unfold delay_step.
  set (a := now t) in *. set (b := now (Rd GPT1_CNT v :: t)) in *.
  pose proof (Z.mod_pos_bound a (2 ^ 32) ltac:(lia)).
  pose proof (Z.mod_pos_bound b (2 ^ 32) ltac:(lia)).
  pose proof (Z.div_mod a (2 ^ 32) ltac:(lia)). pose proof (Z.div_mod b (2 ^ 32) ltac:(lia)).
  destruct (Z.ltb_spec (a mod 2 ^ 32) (b mod 2 ^ 32)); nia.
Qed.

(** Work left: two units per missing microsecond, one for a turn to come, each
    worth [m + 1] reads, and the reads [k] left until the counter moves. *)
Definition left (us cnt_old time : Z) (k : nat) : nat :=
  ((2 * Z.to_nat (us - time) + (if (cnt_old =? 2 ^ 32 - 1)%Z then 1 else 0)) * S m + k)%nat.

(** Reads of the counter on top of reads of the counter. *)
Definition cnt_reads_since (t0 t : trace) : Prop :=
  exists l, Forall (is_read GPT1_CNT) l /\ t = l ++ t0.
Lemma cnt_reads t0 t v : cnt_reads_since t0 t -> cnt_reads_since t0 (Rd GPT1_CNT v :: t).
Proof.
  intros (l & Hl & ->). exists (Rd GPT1_CNT v :: l). split; [|done].
  constructor; [by exists v|done].
Qed.
Lemma cnt_read_1 t v : cnt_reads_since t (Rd GPT1_CNT v :: t).
Proof. apply cnt_reads. by exists []. Qed.

Definition waiting (us : Z) (s0 : fw) (j : nat) (x : Z * Z) (s : fw) : Prop :=
  let '(cnt_old, time) := x in
  exists k, gl s = gl s0 /\ cnt_reads_since (tr s0) (tr s) /\ (k <= m)%nat /\ j = left us cnt_old time k /\ 0 <= time /\
    time <= 2 ^ 32 /\
    (exists t v, tr s = Rd GPT1_CNT v :: t /\ cnt_old = cnt t /\ time <= now t - now (tr s0)) /\
    shows k u32 GPT1_CNT (fun v => negb (v =? cnt_old)) (tr s).

Lemma left_lt (us old time : Z) (k : nat) (old' time' : Z) (k' : nat) :
  (k' <= m)%nat ->
  us - time > 0 ->
  time < time' \/ time' = time /\ old = 2 ^ 32 - 1 /\ old' <> 2 ^ 32 - 1 ->
  (left us old' time' k' < left us old time k)%nat.
Proof.
  intros Hk Hus Hp. unfold left.
  assert (Z.to_nat (us - time') + 1 <= Z.to_nat (us - time) \/ time' = time)%nat as Hs by lia.
  destruct (Z.eqb_spec old (2 ^ 32 - 1)), (Z.eqb_spec old' (2 ^ 32 - 1)), Hs; subst; try lia; nia.
Qed.

Lemma runs_delay_us us n s (Q : unit -> fw -> Prop) :
  fits 32 us -> ((2 * Z.to_nat us + 1) * S m + m < n)%nat ->
  (forall l, Forall (is_read GPT1_CNT) l -> us <= now (l ++ tr s) - now (tr s) ->
     Q tt (Fw (l ++ tr s) (gl s))) ->
  runs (delay_us us) n s Q.
Proof.
  intros Hus Hn HQ. unfold fits in Hus. unfold delay_us. apply runs_bind. fw_step.
  set (t1 := Rd _ _ :: tr s).
  apply (runs_iter (waiting us s) Q _ n (left us (cnt (tr s)) 0 m)).
  2: { exists m. split; [done|]. split; [by apply cnt_read_1|]. split; [lia|]. split; [done|].
       split; [lia|]. split; [lia|]. split; [|apply now_live]. exists (tr s), (u32 (dev_read (tr s) GPT1_CNT)).
       split; [done|]. split; [done|lia]. }
  2: { unfold left. destruct (_ =? _); nia. }
  clear t1. intros j [old time] [t' g'] (k & Hg & Hl & Hk & -> & Ht0 & Ht & (t & v & Htr & Hold & Hel) & Hsh).
  simpl in Hg, Htr. subst g' t' old.
  pose proof (fun v' => cnt_reads _ _ v' Hl) as Hl'. cbn [tr] in Hl'.
  apply runs_bind. fw_step. fold (cnt (Rd GPT1_CNT v :: t)).
  set (t' := Rd GPT1_CNT v :: t) in *. pose proof (now_mono t v) as Hm. fold t' in Hm.
  destruct (Z.eqb_spec (cnt t') (cnt t)) as [He|Hne]; simpl.
  - apply runs_ret. destruct k as [|k].
    { simpl in Hsh. fold (cnt t') in Hsh. rewrite He, Z.eqb_refl in Hsh. destruct Hsh; done. }
    exists (left us (cnt t) time k). split; [unfold left; lia|]. exists k.
    split; [done|]. split; [apply Hl'|]. split; [lia|]. split; [done|]. split; [done|].
    split; [done|]. split.
    + exists t', (cnt t'). split; [done|]. split; [done|]. lia.
    + simpl in Hsh. fold (cnt t') in Hsh. rewrite He, Z.eqb_refl in Hsh.
      destruct Hsh as [|Hsh]; [done|]. cbn [tr]. by rewrite He.
  - destruct (delay_step_sound t v Hne) as [[Hs0 Hs1] Hz]. fold t' in Hs0, Hs1, Hz.
    set (d := delay_step (cnt t) (cnt t')) in *.
    rewrite (u64_small d), u64_small by lia.
    destruct (Z.leb_spec us (time + d)).
    + apply runs_ret. destruct (Hl' (cnt t')) as (l & Hf & El). rewrite El.
      apply HQ; [done|]. rewrite <- El. pose proof (now_mono t' (cnt t')). lia.
    + apply runs_ret. exists (left us (cnt t') (time + d) m). split.
      { apply left_lt; [done|lia|]. destruct (Z.eq_dec d 0) as [E|]; [|lia].
        destruct (Hz E) as [-> ->]. lia. }
      exists m. split; [done|]. split; [apply Hl'|]. split; [done|]. split; [done|].
      split; [lia|]. split; [lia|].
      split; [|apply now_live]. exists t', (cnt t'). split; [done|]. split; [done|]. lia.
Qed.

Lemma runs_delay_ms ms n s (Q : unit -> fw -> Prop) :
  0 <= ms < 2 ^ 31 -> (2001 * S m + m < n)%nat ->
  (forall l, Forall (is_read GPT1_CNT) l -> 1000 * ms <= now (l ++ tr s) - now (tr s) ->
     Q tt (Fw (l ++ tr s) (gl s))) ->
  runs (delay_ms ms) n s Q.
Proof.
  intros Hms Hn HQ. unfold delay_ms. rewrite Z.min_l by lia. apply runs_bind.
  eapply runs_mono.
  - apply (runs_for_list (fun d s' => gl s' = gl s /\ exists l, Forall (is_read GPT1_CNT) l /\
      tr s' = l ++ tr s /\ 1000 * Z.of_nat (length d) <= now (l ++ tr s) - now (tr s)) _ n _ []).
    + split; [done|]. exists []. repeat split; simpl; [constructor|lia].
    + intros d x rest [t g] _ (Hg & l & Hl & Ht & He). simpl in Hg, Ht. subst g t.
      apply runs_delay_us; [unfold fits; lia|lia|]. cbn [tr gl]. intros l' Hl' He'.
      split; [done|]. exists (l' ++ l). split; [by apply Forall_app|].
      rewrite <- app_assoc. split; [done|]. rewrite length_app. simpl length. lia.
  - intros [] [t g] (Hg & l & Hl & Ht & He). simpl in Hg, Ht. subst g t.
    destruct (Z.leb_spec (2 ^ 31) ms); [lia|]. apply runs_ret. apply HQ; [done|].
    rewrite app_nil_l, length_seqZ in He. lia.
Qed.
End Ticking.

(** A timer that moves on by three ticks at every read of its counter. *)
Fixpoint cnt_read_count (t : trace) : Z :=
  match t with
  | [] => 0
  | Rd a _ :: t => (if a =? GPT1_CNT then 1 else 0) + cnt_read_count t
  | Wr _ _ :: t => cnt_read_count t
  end.
Definition timer_device : Device :=
  sim_device (fun _ => 0) (fun a =>
    if a =? GPT1_CNT then Some (fun t => (2 ^ 32 - 2 + 3 * cnt_read_count t) mod 2 ^ 32) else None).
(** Any device with that counter ticks. *)
Definition sim_ticks reset volatile :
  volatile GPT1_CNT = Some (fun t => (2 ^ 32 - 2 + 3 * cnt_read_count t) mod 2 ^ 32) ->
  @Ticks (sim_device reset volatile) 1.
Proof.
  intros Hv. set (d := sim_device reset volatile).
  assert (forall t, @dev_read d t GPT1_CNT = (2 ^ 32 - 2 + 3 * cnt_read_count t) mod 2 ^ 32) as Hr
    by (intros t; simpl; by rewrite Hv).
  refine (@Build_Ticks d 1 (fun t => 2 ^ 32 - 2 + 3 * cnt_read_count t) _ _ _).
  - exact Hr.
  - intros t v. cbn [cnt_read_count]. rewrite Z.eqb_refl. lia.
  - intros t v. cbn [shows]. set (a := u32 (@dev_read d t GPT1_CNT)).
    destruct (Z.eqb_spec a v) as [Ea|]; [right; left|left; done]. subst v.
    destruct (Z.eqb_spec (u32 (@dev_read d (Rd GPT1_CNT a :: t) GPT1_CNT)) a) as [E|];
      [exfalso|done].
    revert E. subst a. unfold u32. rewrite !Hr. cbn [cnt_read_count].
    change (GPT1_CNT =? GPT1_CNT) with true. cbn iota. intros E. dlia.
Defined.

Global Instance timer_ticks : @Ticks timer_device 1.
Proof. by apply sim_ticks. Defined.

(** ** Properties *)

(** on any timer that keeps ticking, [delay_us us] returns for every 32-bit
    [us] (an explicit bound on the loop's iterations suffices), at least [us]
    ticks of the timer have then passed, also when the 32-bit counter turns over
    meanwhile, and nothing was accessed but the counter, by reads. *)
Theorem delay_us_waits `{Ticks} us n s :
  fits 32 us -> ((2 * Z.to_nat us + 1) * S m + m < n)%nat ->
  runs (delay_us us) n s (fun _ s' => exists l, Forall (is_read GPT1_CNT) l /\
    s' = Fw (l ++ tr s) (gl s) /\ us <= now (tr s') - now (tr s)).
Proof. intros Hus Hn. apply runs_delay_us; [done..|]. intros l Hl He. by exists l. Qed.

Lemma delay_us_waits_witness :
  runs (@delay_us timer_device 5) 100 fw0 (fun _ s' => exists l, Forall (is_read GPT1_CNT) l /\
    s' = Fw (l ++ tr fw0) (gl fw0) /\
    5 <= @now timer_device 1 timer_ticks (tr s') - @now timer_device 1 timer_ticks (tr fw0)).
Proof. apply (@delay_us_waits timer_device 1 timer_ticks); [unfold fits; lia | lia]. Defined.

(** [delay_ms ms] returns for every [ms] below [2^31] after at least
    [1000 * ms] ticks, having only read the counter. *)
Theorem delay_ms_waits `{Ticks} ms n s :
  0 <= ms < 2 ^ 31 -> (2001 * S m + m < n)%nat ->
  runs (delay_ms ms) n s (fun _ s' => exists l, Forall (is_read GPT1_CNT) l /\
    s' = Fw (l ++ tr s) (gl s) /\ 1000 * ms <= now (tr s') - now (tr s)).
Proof. intros Hms Hn. apply runs_delay_ms; [done..|]. intros l Hl He. by exists l. Qed.

Lemma delay_ms_waits_witness :
  runs (@delay_ms timer_device 2) 4100 fw0 (fun _ s' => exists l, Forall (is_read GPT1_CNT) l /\
    s' = Fw (l ++ tr fw0) (gl fw0) /\
    1000 * 2 <= @now timer_device 1 timer_ticks (tr s') - @now timer_device 1 timer_ticks (tr fw0)).
Proof. apply (@delay_ms_waits timer_device 1 timer_ticks); lia. Defined.
