(* ===== verification/Frame.v ===== *)
(** Computations that only access registers: whatever the device answers, they
    return and leave every variable of the program alone.  The hint database
    [keeps] derives it from the shape of the code. *)
From S2P Require Import Prelude Machine FwLogic Regs Gpio Delay.

Definition keeps {A} (n : nat) (m : M A) : Prop :=
  forall s, runs m n s (fun _ s' => gl s' = gl s).

Section Rules.
Context `{Device} (n : nat).

Lemma keeps_ret {A} (a : A) : keeps n (ret a).
Proof. intros s. by apply runs_ret. Qed.
Lemma keeps_bind {A B} (m : M A) (k : A -> M B) :
  keeps n m -> (forall a, keeps n (k a)) -> keeps n (bind m k).
Proof.
  intros Hm Hk s. apply runs_bind. eapply runs_mono; [apply Hm|]. intros a s' Hs'.
  eapply runs_mono; [apply Hk|]. intros b s'' Hs''. simpl in *. congruence.
Qed.
Lemma keeps_rd32 a : keeps n (rd32 a).
Proof. by intros s. Qed.
Lemma keeps_wr32 a v : keeps n (wr32 a v).
Proof. by intros s. Qed.
Lemma keeps_gets {A} (f : globals -> A) : keeps n (gets f).
Proof. by intros s. Qed.
Lemma keeps_poll32 a done m : responsive m u32 a done -> (m < n)%nat -> keeps n (poll32 a done).
Proof. intros Hr Hm s. by apply (runs_poll32 a done m); [apply Hr| |]. Qed.
Lemma keeps_if {A} (b : bool) (m1 m2 : M A) : keeps n m1 -> keeps n m2 -> keeps n (if b then m1 else m2).
Proof. by destruct b. Qed.

Lemma keeps_runs {A} (m : M A) s (Q : A -> fw -> Prop) :
  keeps n m -> (forall a t, Q a (Fw t (gl s))) -> runs m n s Q.
Proof.
  intros Hm HQ. apply (runs_mono _ _ _ _ _ (Hm s)). intros a [t g] Hg. simpl in Hg. by subst g.
Qed.

(** In a sequence, a computation that keeps the variables can be skipped. *)
Lemma runs_keeps {A B} (m : M A) (k : A -> M B) s (Q : B -> fw -> Prop) :
  keeps n m -> (forall a t, runs (k a) n (Fw t (gl s)) Q) -> runs (bind m k) n s Q.
Proof.
  intros Hm Hk. apply runs_bind. eapply runs_mono; [apply Hm|].
  intros a [t g] Hg. simpl in Hg. subst g. apply Hk.
Qed.
End Rules.

Create HintDb keeps.
Ltac keeps_tac := repeat (lazymatch goal with
  | |- forall _, _ => intro
  | |- keeps _ (bind _ _) => apply keeps_bind
  | |- keeps _ (ret _) => apply keeps_ret
  | |- keeps _ (rd32 _) => apply keeps_rd32
  | |- keeps _ (wr32 _ _) => apply keeps_wr32
  | |- keeps _ (gets _) => apply keeps_gets
  | |- keeps _ (set32 _ _) => unfold set32
  | |- keeps _ (clr32 _ _) => unfold clr32
  | |- keeps _ (match ?x with _ => _ end) => destruct x
  | |- keeps _ _ => solve [auto with keeps nocore]
  end).

Section Drivers.
Context `{Device} (n : nat).

Lemma keeps_mux p v : keeps n (IOMUXC_SetPinMux p v).
Proof. unfold IOMUXC_SetPinMux. keeps_tac. Qed.
Lemma keeps_config p v : keeps n (IOMUXC_SetPinConfig p v).
Proof. unfold IOMUXC_SetPinConfig. keeps_tac. Qed.
Lemma keeps_pin_write base pin v : keeps n (pin_write base pin v).
Proof. unfold pin_write, pin_output_low, pin_output_high, set32, clr32. keeps_tac. Qed.
#[local] Hint Resolve keeps_pin_write : keeps.
Lemma keeps_pin_read base pin : keeps n (pin_read base pin).
Proof. unfold pin_read. keeps_tac. Qed.
Lemma keeps_gpio_init base pin cfg : keeps n (gpio_init base pin cfg).
Proof.
  unfold gpio_init, set_pin_intput, set_pin_output, pin_int_config, set32, clr32.
  keeps_tac.
Qed.
End Drivers.
#[export] Hint Resolve keeps_mux keeps_config keeps_pin_write keeps_pin_read keeps_gpio_init : keeps.

Lemma keeps_delay_ms `{Ticks} ms n :
  0 <= ms < 2 ^ 31 -> (2001 * S m + m < n)%nat -> keeps n (delay_ms ms).
Proof. intros Hms Hn s. by apply runs_delay_ms. Qed.
