(* ===== verification/Clk.v ===== *)
(** Clock tree: baremetal/20_pwm/bsp/clk/clk.c. *)
From S2P Require Import Prelude Machine FwLogic Regs Gpio.

Definition CCGR_RST_VAL : Z := 0xFFFFFFFF.

Section Operations.
Context `{Device}.

Definition clock_enable : M unit :=
  wr32 CCM_CCGR0 CCGR_RST_VAL ;;
  wr32 CCM_CCGR1 CCGR_RST_VAL ;;
  wr32 CCM_CCGR2 CCGR_RST_VAL ;;
  wr32 CCM_CCGR3 CCGR_RST_VAL ;;
  wr32 CCM_CCGR4 CCGR_RST_VAL ;;
  wr32 CCM_CCGR5 CCGR_RST_VAL ;;
  wr32 CCM_CCGR6 CCGR_RST_VAL.

(** [clock_init], lines 22 to 43: the ARM core moves to the 24 MHz oscillator,
    its PLL is programmed, and the core moves back. *)
Definition clock_init_arm : M unit :=
  ccsr <- rd32 CCM_CCSR ;;
  (when (ccsr >> 2) .& 0x1 =? 0 then
    (clr32 CCM_CCSR (1 << 8) ;;
     set32 CCM_CCSR (1 << 2))) ;;
  wr32 CCM_ANALOG_PLL_ARM ((1 << 13) .| ((0x42 << 0) .& 0x7F)) ;;
  clr32 CCM_CCSR (1 << 2) ;;
  wr32 CCM_CACRR 0x00000000.

(** Lines 45 to 62: the fractional dividers of PLL2 and PLL3. *)
Definition clock_init_pfd : M unit :=
  reg_val <- rd32 CCM_ANALOG_PFD_528 ;;
  let reg_val := reg_val .\ 0x3F3F3F3F in
  let reg_val := reg_val .| (32 << 24) in
  let reg_val := reg_val .| (24 << 16) in
  let reg_val := reg_val .| (16 << 8) in
  let reg_val := reg_val .| (27 << 0) in
  wr32 CCM_ANALOG_PFD_528 reg_val ;;
  reg_val <- rd32 CCM_ANALOG_PFD_480 ;;
  let reg_val := reg_val .\ 0x3F3F3F3F in
  let reg_val := reg_val .| (19 << 24) in
  let reg_val := reg_val .| (17 << 16) in
  let reg_val := reg_val .| (16 << 8) in
  let reg_val := reg_val .| (12 << 0) in
  wr32 CCM_ANALOG_PFD_480 reg_val.

(** Lines 67 to 92: bus and peripheral clock roots. *)
Definition clock_init_bus : M unit :=
  clr32 CCM_CBCMR (3 << 18) ;;
  set32 CCM_CBCMR (1 << 18) ;;
  clr32 CCM_CBCDR (1 << 25) ;;
  poll32 CCM_CDHIPR (fun v => negb (truthy (v .& (1 << 5)))) ;;
  clr32 CCM_CBCDR (3 << 8) ;;
  set32 CCM_CBCDR (1 << 8) ;;
  clr32 CCM_CSCMR1 (1 << 6) ;;
  clr32 CCM_CSCMR1 (7 << 0).

Definition clock_init : M unit := clock_init_arm ;; clock_init_pfd ;; clock_init_bus.
End Operations.

(** ** Fields after a masked update *)

(** A field the mask covers takes its value from the constant. *)
Lemma field_masked z mask c k w :
  0 <= k -> 0 <= w -> forallb (Z.testbit mask) (seqZ k w) = true ->
  field ((z .\ mask) .| c) k w = field c k w.
Proof.
  intros Hk Hw Hm. apply field_ext; [done..|]. intros i Hi. autorewrite with bits.
  rewrite forallb_forall in Hm. rewrite Hm; [by rewrite andb_false_r|].
  apply list_elem_of_In, elem_of_seqZ. lia.
Qed.

Lemma fits_masked z mask c : fits 32 z -> fits 32 c -> fits 32 ((z .\ mask) .| c).
Proof. intros Hz Hc. apply lor_fits; [lia| |done]. by apply ldiff_fits. Qed.

(** The two divider words [clock_init] leaves. *)
Definition pfd_528 (z : Z) : Z := (z .\ 0x3F3F3F3F) .| 0x2018101B.
Definition pfd_480 (z : Z) : Z := (z .\ 0x3F3F3F3F) .| 0x1311100C.

Lemma pfd_528_eq z :
  ((((z .\ 0x3F3F3F3F) .| (32 << 24)) .| (24 << 16)) .| (16 << 8)) .| (27 << 0) = pfd_528 z.
Proof. unfold pfd_528. by rewrite <- !Z.lor_assoc. Qed.
Lemma pfd_480_eq z :
  ((((z .\ 0x3F3F3F3F) .| (19 << 24)) .| (17 << 16)) .| (16 << 8)) .| (12 << 0) = pfd_480 z.
Proof. unfold pfd_480. by rewrite <- !Z.lor_assoc. Qed.

(** [PFDn = pll * 18 / FRAC] in MHz, [FRAC] the six-bit field of divider [n]. *)
Definition pfd_frac (v n : Z) : Z := field v (8 * n) 6.

Definition clocks_programmed `{Device} (t : trace) : Prop :=
  regval t CCM_ANALOG_PLL_ARM = 0x2042 /\ Z.testbit (regval t CCM_CCSR) 2 = false /\
  regval t CCM_CACRR = 0 /\
  (pfd_frac (regval t CCM_ANALOG_PFD_528) <$> [0; 1; 2; 3]) = [27; 16; 24; 32] /\
  (pfd_frac (regval t CCM_ANALOG_PFD_480) <$> [0; 1; 2; 3]) = [12; 16; 17; 19] /\
  field (regval t CCM_CBCMR) 18 2 = 1 /\ Z.testbit (regval t CCM_CBCDR) 25 = false /\
  field (regval t CCM_CBCDR) 8 2 = 1 /\
  Z.testbit (regval t CCM_CSCMR1) 6 = false /\ field (regval t CCM_CSCMR1) 0 3 = 0.

(** Every write of the ARM PLL since [t0] found the core on the step clock
    ([PLL1_SW_CLK_SEL] set). *)
Definition pll_written_off `{Device} (t0 t : trace) : Prop :=
  forall post pre v, t = post ++ Wr CCM_ANALOG_PLL_ARM v :: pre ->
    (length t0 <= length pre)%nat -> Z.testbit (regval pre CCM_CCSR) 2 = true.

Section Written.
Context `{Device}.

Lemma pll_off_here t : pll_written_off t t.
Proof.
  intros post pre v E Hl. apply (f_equal length) in E. rewrite length_app in E. simpl in E. lia.
Qed.

Lemma pll_off_cons t0 t e :
  (forall v, e = Wr CCM_ANALOG_PLL_ARM v -> Z.testbit (regval t CCM_CCSR) 2 = true) ->
  pll_written_off t0 t -> pll_written_off t0 (e :: t).
Proof.
  intros He Ht post pre v E Hl. destruct post as [|e' post]; simpl in E; injection E as -> ->.
  - by apply (He v).
  - by apply (Ht post pre v).
Qed.

Lemma pll_off_rds t0 t l : Forall is_rd l -> pll_written_off t0 t -> pll_written_off t0 (l ++ t).
Proof.
  intros Hl Ht. induction Hl as [|e l (a & v & ->) _ IH]; [done|]. by apply pll_off_cons.
Qed.
End Written.

(** Discharge [pll_written_off] on an explicit trace. *)
Ltac pll_off :=
  repeat first [ done | apply pll_off_here
               | apply pll_off_cons; [intros ?v ?E; try discriminate E|]
               | apply pll_off_rds; [by eauto with fwdb|] ].

Section Init.
Context `{Device}.
Context (Hccsr : storage CCM_CCSR) (H528 : storage CCM_ANALOG_PFD_528)
  (H480 : storage CCM_ANALOG_PFD_480) (Hcmr : storage CCM_CBCMR) (Hcdr : storage CCM_CBCDR)
  (Hscmr : storage CCM_CSCMR1).

Lemma ccsr_main v : ((v >> 2) .& 0x1 =? 0) = negb (Z.testbit v 2).
Proof.
  change 0x1 with (Z.ones 1). change ((v >> 2) .& Z.ones 1) with (field v 2 1).
  rewrite field_1 by lia. by destruct (Z.testbit v 2).
Qed.

Lemma runs_clock_init_arm n s (Q : unit -> fw -> Prop) :
  (forall t, (forall t0, pll_written_off t0 (tr s) -> pll_written_off t0 t) -> regval t CCM_ANALOG_PLL_ARM = 0x2042 ->
     Z.testbit (regval t CCM_CCSR) 2 = false -> regval t CCM_CACRR = 0 -> Q tt (Fw t (gl s))) ->
  runs clock_init_arm n s Q.
Proof.
  intros HQ. unfold clock_init_arm. fw_reg. rewrite ccsr_main.
  destruct (Z.testbit (regval (tr s) CCM_CCSR) 2) eqn:Hb; cbn [negb]; fw_reg; apply HQ.
  all: try (intros t0 Ht0; pll_off; reg_simpl).
  all: reg_simpl; try done.
  all: repeat rewrite testbit_u32 by lia; autorewrite with bits; rewrite ?andb_false_r, ?orb_true_r;
    done.
Qed.

Lemma runs_clock_init_pfd n s (Q : unit -> fw -> Prop) :
  (forall t, (forall t0, pll_written_off t0 (tr s) -> pll_written_off t0 t) ->
     regval t CCM_ANALOG_PFD_528 = u32 (pfd_528 (regval (tr s) CCM_ANALOG_PFD_528)) ->
     regval t CCM_ANALOG_PFD_480 = u32 (pfd_480 (regval (tr s) CCM_ANALOG_PFD_480)) ->
     (forall r, r <> CCM_ANALOG_PFD_528 -> r <> CCM_ANALOG_PFD_480 ->
        regval t r = regval (tr s) r) -> Q tt (Fw t (gl s))) ->
  runs clock_init_pfd n s Q.
Proof.
  intros HQ. unfold clock_init_pfd. cbv zeta. fw_reg.
  rewrite pfd_528_eq, pfd_480_eq. apply HQ; [intros t0 Ht0; by pll_off| | |].
  - by reg_simpl.
  - by reg_simpl.
  - intros r H1 H2. reg_frame.
Qed.

Lemma two_bits z k :
  0 <= k <= 30 -> field (u32 (u32 (z .\ (3 << k)) .| (1 << k))) k 2 = 1.
Proof.
  intros Hk. rewrite field_u32 by lia. change 3 with (Z.ones 2).
  rewrite clear_field by lia. apply field_bits; [lia|lia|done|].
  intros i Hi. apply list_elem_of_In, elem_of_seqZ in Hi. autorewrite with bits.
  rewrite testbit_u32 by lia. rewrite testbit_insert_field by (done || lia).
  destruct (Z.leb_spec k (i + k)), (Z.ltb_spec (i + k) (k + 2)); try lia. simpl.
  rewrite Z.bits_0. simpl. f_equal. lia.
Qed.

Lemma runs_clock_init_bus m n s (Q : unit -> fw -> Prop) :
  responsive m u32 CCM_CDHIPR (fun v => negb (truthy (v .& (1 << 5)))) -> (m < n)%nat ->
  (forall t, (forall t0, pll_written_off t0 (tr s) -> pll_written_off t0 t) ->
     field (regval t CCM_CBCMR) 18 2 = 1 -> Z.testbit (regval t CCM_CBCDR) 25 = false ->
     field (regval t CCM_CBCDR) 8 2 = 1 ->
     Z.testbit (regval t CCM_CSCMR1) 6 = false -> field (regval t CCM_CSCMR1) 0 3 = 0 ->
     (forall r, r <> CCM_CBCMR -> r <> CCM_CBCDR -> r <> CCM_CSCMR1 ->
        regval t r = regval (tr s) r) -> Q tt (Fw t (gl s))) ->
  runs clock_init_bus n s Q.
Proof.
  intros Hr Hm HQ. unfold clock_init_bus. fw_reg. apply (runs_poll32 _ _ m); [apply Hr|done|].
  intros l v Hl _ _. assert (Forall is_rd l) as Hl' by eauto with fwdb. cbn [tr gl].
  repeat (fw_step; reg_simpl; rewrite ?(regval_app_rd l _ _ Hl'); reg_simpl). apply HQ.
  { intros t0 Ht0. pll_off. }
  all: reg_simpl; rewrite ?(regval_app_rd l _ _ Hl'); reg_simpl.
  1, 3: apply two_bits; lia.
  - generalize (regval (tr s) CCM_CBCDR). intros z. by bits_eval.
  - generalize (regval (tr s) CCM_CSCMR1). intros z. by bits_eval.
  - generalize (regval (tr s) CCM_CSCMR1). intros z. by field_eval.
  - intros r H1 H2 H3. reg_frame.
Qed.
End Init.

(** ** Properties *)

(** A clock controller whose registers are storage and that takes [m] polls to
    finish a clock switch. *)
Definition ccm_storage `{Device} : Prop :=
  storage CCM_CCSR /\ storage CCM_ANALOG_PFD_528 /\ storage CCM_ANALOG_PFD_480 /\
  storage CCM_CBCMR /\ storage CCM_CBCDR /\ storage CCM_CSCMR1.


(** C32: on a clock controller whose switch handshake completes, [clock_init]
    returns with every clock programmed (792 MHz ARM PLL undivided, the eight
    fractional dividers, the AHB, IPG and PERCLK selections), and every write
    of the ARM PLL happened while the core ran from the step clock and not from
    that PLL, whichever of the two it ran from before. *)
Theorem clock_init_safe `{Device} m n s :
  ccm_storage -> responsive m u32 CCM_CDHIPR (fun v => negb (truthy (v .& (1 << 5)))) ->
  (m < n)%nat ->
  runs clock_init n s (fun _ s' =>
    clocks_programmed (tr s') /\ pll_written_off (tr s) (tr s') /\ gl s' = gl s).
Proof.
  intros (H1 & H2 & H3 & H4 & H5 & H6) Hr Hm. unfold clock_init.
  apply runs_bind, runs_clock_init_arm; [done|]. intros t1 Hp1 Hpll Hc Ha.
  apply runs_bind, runs_clock_init_pfd; [done..|]. cbn [tr gl]. intros t2 Hp2 H528 H480 Hf2.
  apply (runs_clock_init_bus H4 H5 H6 m); [done..|]. cbn [tr gl].
  intros t3 Hp3 Hb1 Hb2 Hb3 Hb4 Hb5 Hf3.
  split; [|split; [by apply Hp3, Hp2, Hp1, pll_off_here|done]].
  unfold clocks_programmed. cbn [tr]. rewrite !Hf3, H528, H480, !Hf2 by done.
  unfold pfd_frac, pfd_528, pfd_480. cbn [fmap list_fmap].
  repeat rewrite field_u32 by lia. repeat rewrite field_masked by (lia || reflexivity).
  repeat split; (done || reflexivity).
Qed.

(** The handshake flag is set for the first poll after a switch. *)
Definition ccm_device : Device :=
  sim_device (fun _ => 0) (fun a => if a =? CCM_CDHIPR then Some (fun t =>
    match t with Rd b _ :: _ => if b =? CCM_CDHIPR then 0 else 32 | _ => 32 end) else None).

Lemma clock_init_safe_witness :
  runs (@clock_init ccm_device) 5 fw0 (fun _ s' =>
    @clocks_programmed ccm_device (tr s') /\ @pll_written_off ccm_device (tr fw0) (tr s') /\
    gl s' = gl fw0).
Proof.
  apply (@clock_init_safe ccm_device 1); [|intros t; right; left; reflexivity|lia].
  repeat split; by apply storage_sim.
Defined.
