(* ===== verification/Int.v ===== *)
(** Interrupt dispatch: baremetal/20_pwm/bsp/int/int.c.

    The dispatcher calls whatever function the table holds.  Its code is proved
    against the interface [Handlers]; Main.v gives the instance with the
    handlers the drivers install. *)
From S2P Require Import Prelude Machine FwLogic Regs.

(** The body of each handler, applied to its two arguments. *)
Class Handlers := call_handler : irq_handler -> Z -> Z -> M unit.

Section Operations.
Context `{Device}.

(** [while (1) {}] *)
Definition default_irq_handler_body : M unit := iter (fun _ : unit => ret (inl tt)) tt.

Definition irq_handler_register (irq : Z) (handler : irq_handler) (opaque : Z) : M unit :=
  table <- gets g_irq_table ;;
  if (0 <=? irq) && (irq <? Z.of_nat (length table)) then
    modify (upd_irq_table (<[Z.to_nat irq := {| irq_fn := handler; irq_opaque := opaque |}]> table))
  else undefined.

Definition irq_table_init : M unit :=
  modify (upd_irq_count 0) ;;
  for_list (seqZ 0 NUMBER_OF_INT_VECTORS) (fun i => irq_handler_register i default_irq_handler 0).

Definition int_init : M unit :=
  GIC_Init ;;
  irq_table_init ;;
  wr32 CP15_VBAR 0x87800000.

Definition sys_irq_handler `{Handlers} (gicc_iar : Z) : M unit :=
  let irq_id := gicc_iar .& 0x3FF in
  if NUMBER_OF_INT_VECTORS <=? irq_id then ret tt
  else
    count <- gets g_irq_count ;;
    modify (upd_irq_count (u32 (count + 1))) ;;
    table <- gets g_irq_table ;;
    match table !! Z.to_nat irq_id with
    | Some e => call_handler e.(irq_fn) irq_id e.(irq_opaque)
    | None => undefined
    end ;;
    count <- gets g_irq_count ;;
    modify (upd_irq_count (u32 (count - 1))).
End Operations.

(** ** The table *)

(** The table has its 160 entries and the nesting counter is a [uint32_t]. *)
Definition table_ok (g : globals) : Prop :=
  length (g_irq_table g) = 160%nat /\ fits 32 (g_irq_count g).

Definition installed (g : globals) (irq : Z) (h : irq_handler) (o : Z) : Prop :=
  g_irq_table g !! Z.to_nat irq = Some {| irq_fn := h; irq_opaque := o |}.

Section Table.
Context `{Device}.

(** What registration changes: one entry of the table. *)
Definition registered (irq : Z) (h : irq_handler) (o : Z) (g : globals) : globals :=
  upd_irq_table (<[Z.to_nat irq := {| irq_fn := h; irq_opaque := o |}]> (g_irq_table g)) g.

Lemma registered_ok irq h o g : table_ok g -> table_ok (registered irq h o g).
Proof. intros [Hl Hc]. split; [|done]. simpl. by rewrite length_insert. Qed.

Lemma registered_installed irq h o g :
  table_ok g -> 0 <= irq < 160 -> installed (registered irq h o g) irq h o.
Proof. intros [Hl _] Hi. unfold installed. simpl. apply list_lookup_insert_eq. lia. Qed.

Lemma registered_other irq h o g irq' h' o' :
  0 <= irq -> 0 <= irq' -> irq <> irq' -> installed g irq' h' o' ->
  installed (registered irq h o g) irq' h' o'.
Proof.
  intros H1 H2 Hne Hi. unfold installed in *. simpl. rewrite list_lookup_insert_ne by lia. done.
Qed.

Lemma runs_register irq h o n s (Q : unit -> fw -> Prop) :
  table_ok (gl s) -> 0 <= irq < 160 -> Q tt (Fw (tr s) (registered irq h o (gl s))) ->
  runs (irq_handler_register irq h o) n s Q.
Proof.
  intros [Hl _] Hi HQ. unfold irq_handler_register. fw_steps. rewrite Hl.
  destruct (Z.leb_spec 0 irq), (Z.ltb_spec irq (Z.of_nat 160)); try lia. simpl. fw_steps. done.
Qed.

(** A register access changes no static variable. *)
Lemma runs_gic_init n s (Q : unit -> fw -> Prop) :
  (forall t, Q tt (Fw t (gl s))) -> runs GIC_Init n s Q.
Proof.
  intros HQ. unfold GIC_Init, GIC_base. fw_steps.
  eapply runs_mono; [apply (runs_for_list (fun _ s' => gl s' = gl s) _ n _ [])|].
  - done.
  - intros d x rest [t g] _ Hg. by fw_steps.
  - intros [] [t g] Hg. simpl in Hg. subst g. fw_steps. apply HQ.
Qed.

Lemma runs_gic_enable irq n s (Q : unit -> fw -> Prop) :
  (forall t, Q tt (Fw t (gl s))) -> runs (GIC_EnableIRQ irq) n s Q.
Proof. intros HQ. unfold GIC_EnableIRQ, GIC_base. fw_steps. apply HQ. Qed.

(** [g'] is [g] but for the table and the depth of the interrupts. *)
Definition only_irq (g g' : globals) : Prop :=
  exists c table, g' = upd_irq_table table (upd_irq_count c g).

(** After [irq_table_init] every entry is the default handler. *)
Lemma runs_irq_table_init n s (Q : unit -> fw -> Prop) :
  length (g_irq_table (gl s)) = 160%nat ->
  (forall g, table_ok g -> g_irq_count g = 0 ->
     (forall irq, 0 <= irq < 160 -> installed g irq default_irq_handler 0) ->
     only_irq (gl s) g -> Q tt (Fw (tr s) g)) ->
  runs irq_table_init n s Q.
Proof.
  intros Hl HQ. unfold irq_table_init. apply runs_bind. fw_step.
  eapply runs_mono; [apply (runs_for_list (fun d s' => tr s' = tr s /\ table_ok (gl s') /\
    g_irq_count (gl s') = 0 /\ only_irq (gl s) (gl s') /\
    (forall irq, irq ∈ d -> installed (gl s') irq default_irq_handler 0)) _ n _ [])|].
  - split; [done|]. split; [by split|]. split; [done|].
    split; [by exists 0, (g_irq_table (gl s))|]. intros irq Hi. by apply elem_of_nil in Hi.
  - intros d x rest [t g] Heq (Ht & Ho & Hc & Hg & Hi). simpl in *.
    assert (x ∈ seqZ 0 NUMBER_OF_INT_VECTORS) as Hx
      by (rewrite <- Heq; apply elem_of_app; right; left).
    apply elem_of_seqZ in Hx. unfold NUMBER_OF_INT_VECTORS in Hx.
    apply runs_register; [done|lia|]. cbn [tr gl].
    split; [done|]. split; [by apply registered_ok|]. split; [done|].
    split; [destruct Hg as (c & table & ->); by eexists _, _|]. intros irq Hin. destruct (decide (irq = x)) as [->|Hne].
    + apply registered_installed; [done|lia].
    + apply elem_of_app in Hin as [Hin|Hin]; [|by apply list_elem_of_singleton in Hin].
      assert (irq ∈ seqZ 0 NUMBER_OF_INT_VECTORS) as Hq
        by (rewrite <- Heq; apply elem_of_app; by left).
      apply elem_of_seqZ in Hq. apply registered_other; [lia|lia|done|by apply Hi].
  - intros [] [t g] (Ht & Ho & Hc & Hg & Hi). simpl in *. subst t. apply HQ; [done|done| |done].
    intros irq Hr. apply Hi. rewrite elem_of_seqZ. unfold NUMBER_OF_INT_VECTORS. lia.
Qed.
End Table.

(** ** Properties *)

Lemma iter_n_forever k n s :
  iter_n (B := unit) k (fun _ : unit => ret (inl tt)) tt n s = Fuel.
Proof. induction k; simpl; auto. Qed.

Section Dispatch.
Context `{Device} `{Handlers}.

Lemma iar_range iar : 0 <= iar -> 0 <= iar .& 0x3FF < 1024.
Proof.
  intros Hi. change 0x3FF with (Z.ones 10). rewrite Z.land_ones by lia.
  apply Z.mod_pos_bound. lia.
Qed.

(** Dispatch of an installed handler, against what is known of the handler. *)
Lemma runs_dispatch iar h o n s (Q : unit -> fw -> Prop) :
  0 <= iar -> iar .& 0x3FF < 160 -> table_ok (gl s) ->
  installed (gl s) (iar .& 0x3FF) h o ->
  runs (call_handler h (iar .& 0x3FF) o) n
    (Fw (tr s) (upd_irq_count (u32 (g_irq_count (gl s) + 1)) (gl s)))
    (fun _ s' => g_irq_count (gl s') = u32 (g_irq_count (gl s) + 1) /\
       Q tt (Fw (tr s') (upd_irq_count (g_irq_count (gl s)) (gl s')))) ->
  runs (sys_irq_handler iar) n s Q.
Proof.
  intros Hi Hid [Hl Hc] Hin HQ. unfold sys_irq_handler. cbv zeta.
  unfold NUMBER_OF_INT_VECTORS. destruct (Z.leb_spec 160 (iar .& 0x3FF)); [lia|].
  fw_steps. unfold installed in Hin. cbn [g_irq_table upd_irq_count]. rewrite Hin. cbn [irq_fn irq_opaque].
  eapply runs_mono; [exact HQ|]. intros [] s' (Hcount & HQ'). fw_steps. rewrite Hcount.
  replace (u32 (u32 (g_irq_count (gl s) + 1) - 1)) with (g_irq_count (gl s)); [done|].
  unfold u32, fits in *. rewrite Zminus_mod_idemp_l. rewrite Z.mod_small; lia.
Qed.
End Dispatch.

(** What the dispatcher may assume of the handlers: the default one is the
    endless loop of int.c. *)
Class DefaultHandler `{Handlers} :=
  call_default : forall irq o, call_handler default_irq_handler irq o = default_irq_handler_body.

(** C29: after [int_init] and a registration, [sys_irq_handler] on a GIC
    acknowledge word whose low ten bits are the registered number calls exactly
    that handler, with the interrupt number and the registered argument, at
    nesting depth 1; if the handler leaves the depth as it found it, the depth
    is 0 again afterwards and nothing else of the handler's effect is changed. *)
Theorem irq_dispatch `{Device} `{Handlers} irq h o iar n s (P : fw -> Prop) :
  length (g_irq_table (gl s)) = 160%nat -> 0 <= irq < 160 -> 0 <= iar -> iar .& 0x3FF = irq ->
  (forall t g, table_ok g -> g_irq_count g = 1 ->
     runs (call_handler h irq o) n (Fw t g) (fun _ s' => g_irq_count (gl s') = 1 /\ P s')) ->
  runs (int_init ;; irq_handler_register irq h o ;; sys_irq_handler iar) n s (fun _ s' =>
    exists s1, P s1 /\ tr s' = tr s1 /\ gl s' = upd_irq_count 0 (gl s1)).
Proof.
  intros Hl Hr Hi Hid Hh. unfold int_init. apply runs_bind, runs_bind, runs_gic_init. intros t1.
  apply runs_bind, runs_irq_table_init; [done|]. intros g Hg Hc _ _. fw_step.
  apply runs_bind, runs_register; [done|done|].
  apply (runs_dispatch iar h o); cbn [tr gl]; rewrite ?Hid; [done|lia|..].
  - by apply registered_ok.
  - by apply registered_installed.
  - cbn [g_irq_count registered upd_irq_table]. rewrite Hc. eapply runs_mono; [apply Hh; [|done]|].
    + apply (registered_ok irq h o) in Hg. destruct Hg as [Hg _]. by split.
    + intros [] s' [Hc' HP]. split; [done|]. by exists s'.
Qed.

(** The handler that only counts its calls in a static variable. *)
Definition counting_handlers : Handlers := fun h irq o =>
  match h with
  | default_irq_handler => default_irq_handler_body
  | _ => modify (upd_bl_duty (irq + o))
  end.

Lemma irq_dispatch_witness :
  runs (@int_init reg_device ;; irq_handler_register 115 pwm1_irq_handler 7 ;;
        @sys_irq_handler counting_handlers (2 ^ 10 + 115)) 3 fw0 (fun _ s' =>
    exists s1, g_bl_duty (gl s1) = 122 /\ tr s' = tr s1 /\ gl s' = upd_irq_count 0 (gl s1)).
Proof.
  apply (@irq_dispatch reg_device counting_handlers 115 pwm1_irq_handler 7 (2 ^ 10 + 115) 3 fw0
    (fun s1 => g_bl_duty (gl s1) = 122)); [reflexivity|lia|lia|reflexivity|].
  intros t g _ Hc. split; [exact Hc|reflexivity].
Defined.

(** an acknowledge word with an interrupt number of 160 or more (such as
    1023, spurious) is ignored; after [int_init], an interrupt for which no
    handler was registered never returns, whatever the number of iterations
    allowed. *)
Theorem irq_spurious_and_unregistered `{Device} `{DefaultHandler} iar n s :
  length (g_irq_table (gl s)) = 160%nat -> 0 <= iar ->
  (160 <= iar .& 0x3FF -> sys_irq_handler iar n s = Ret tt s) /\
  (iar .& 0x3FF < 160 -> (int_init ;; sys_irq_handler iar) n s = Fuel).
Proof.
  intros Hl Hi. split; intros Hid.
  - unfold sys_irq_handler. cbv zeta. unfold NUMBER_OF_INT_VECTORS.
    by destruct (Z.leb_spec 160 (iar .& 0x3FF)); [|lia].
  - assert (runs int_init n s (fun _ s' => sys_irq_handler iar n s' = Fuel)) as Hrun.
    { unfold int_init. apply runs_bind, runs_gic_init. intros t1.
      apply runs_bind, runs_irq_table_init; [done|]. intros g Hg Hc Hin _. fw_step.
      pose proof (iar_range iar Hi). specialize (Hin (iar .& 0x3FF) ltac:(lia)).
      unfold sys_irq_handler, bind, gets, modify, installed in *. cbv zeta.
      unfold NUMBER_OF_INT_VECTORS. destruct (Z.leb_spec 160 (iar .& 0x3FF)); [lia|].
      cbn [tr gl g_irq_table upd_irq_count]. rewrite Hin. cbn [irq_fn irq_opaque].
      rewrite call_default. unfold default_irq_handler_body, iter.
      by rewrite iter_n_forever. }
    apply runs_inv in Hrun as ([] & s' & E & Hf). unfold bind. by rewrite E.
Qed.

Lemma counting_default : @DefaultHandler counting_handlers.
Proof. intros irq o. reflexivity. Qed.

Lemma irq_spurious_and_unregistered_witness :
  @sys_irq_handler counting_handlers 1023 5%nat fw0 = Ret tt fw0 /\
  (@int_init reg_device ;; @sys_irq_handler counting_handlers 115) 5%nat fw0 = Fuel.
Proof.
  split.
  - apply (@irq_spurious_and_unregistered reg_device counting_handlers counting_default 1023 5%nat fw0);
      [reflexivity|lia|vm_compute; discriminate].
  - apply (@irq_spurious_and_unregistered reg_device counting_handlers counting_default 115 5%nat fw0);
      [reflexivity|lia|reflexivity].
Defined.
