(* ===== verification/Key.v ===== *)
(** Buttons and the periodic timer: baremetal/20_pwm/bsp/key/key.c (polled
    button), bsp/exit/exit.c (button interrupt), bsp/key_filter/key_filter.c
    (button interrupt debounced by the EPIT1 timer) and bsp/epit/epit.c. *)
From S2P Require Import Prelude Machine FwLogic Regs Gpio Delay Int.

Definition KEY_NONE : Z := 0.
Definition KEY0_VAL : Z := 1.
Definition KEY_DOWN : Z := 0.
Definition KEY_UP : Z := 1.

(** C's [!x]. *)
Definition lnot (z : Z) : Z := if z =? 0 then 1 else 0.

Section Operations.
Context `{Device}.

(** *** key.c *)

(** [def_val] and [irq_mode] of the local [key_cfg] are not assigned: they are
    arguments of the model. *)
Definition key_init (junk_val : Z) (junk_mode : pin_irq_mode) : M unit :=
  IOMUXC_SetPinMux IOMUXC_UART1_CTS_B_GPIO1_IO18 0 ;;
  IOMUXC_SetPinConfig IOMUXC_UART1_CTS_B_GPIO1_IO18 0x0000F080 ;;
  gpio_init GPIO1 18
    {| cfg_dir := GPIO_INPUT; cfg_def_val := junk_val; cfg_irq_mode := junk_mode |}.

Definition key_get_val : M Z :=
  v <- pin_read GPIO1 18 ;;
  if v =? KEY_DOWN then
    delay 10 ;;
    v <- pin_read GPIO1 18 ;;
    if v =? KEY_DOWN then ret KEY0_VAL else ret KEY_NONE
  else
    v <- pin_read GPIO1 18 ;;
    if v =? KEY_UP then ret KEY_NONE else ret KEY_NONE.

(** *** exit.c *)
Definition key_irq_cfg : pin_cfg :=
  {| cfg_dir := GPIO_INPUT; cfg_def_val := LEVEL_HIGH; cfg_irq_mode := IRQ_MODE_FEDGE |}.

Definition exit_init : M unit :=
  IOMUXC_SetPinMux IOMUXC_UART1_CTS_B_GPIO1_IO18 0 ;;
  IOMUXC_SetPinConfig IOMUXC_UART1_CTS_B_GPIO1_IO18 0x0000F080 ;;
  gpio_init GPIO1 18 key_irq_cfg ;;
  GIC_EnableIRQ GPIO1_Combined_16_31_IRQn ;;
  irq_handler_register GPIO1_Combined_16_31_IRQn gpio1_io18_irq_handler 0 ;;
  pin_int_enable GPIO1 18.

Definition gpio1_io18_irq_handler_body : M unit :=
  delay 10 ;;
  v <- pin_read GPIO1 18 ;;
  (when v =? KEY_DOWN then
    (state <- gets g_exit_state ;;
     modify (upd_exit_state (lnot state)) ;;
     beep_switch (lnot state))) ;;
  pin_int_clear GPIO1 18.

(** *** key_filter.c *)
Definition key_filter_timer_init (val : Z) : M unit :=
  wr32 EPIT1_CR 0 ;;
  wr32 EPIT1_CR ((1 << 24) .| (1 << 3) .| (1 << 2) .| (1 << 1)) ;;
  wr32 EPIT1_LR val ;;
  wr32 EPIT1_CMPR 0 ;;
  GIC_EnableIRQ EPIT1_IRQn ;;
  irq_handler_register EPIT1_IRQn key_filter_timer_irq_handler 0.

Definition key_filter_init : M unit :=
  IOMUXC_SetPinMux IOMUXC_UART1_CTS_B_GPIO1_IO18 0 ;;
  IOMUXC_SetPinConfig IOMUXC_UART1_CTS_B_GPIO1_IO18 0x0000F080 ;;
  gpio_init GPIO1 18 key_irq_cfg ;;
  GIC_EnableIRQ GPIO1_Combined_16_31_IRQn ;;
  irq_handler_register GPIO1_Combined_16_31_IRQn gpio1_16_31_irq_handler 0 ;;
  pin_int_enable GPIO1 18 ;;
  key_filter_timer_init (66000000 / 100).

Definition key_filter_timer_stop : M unit := clr32 EPIT1_CR (1 << 0).

Definition key_filter_timer_start (val : Z) : M unit :=
  clr32 EPIT1_CR (1 << 0) ;;
  wr32 EPIT1_LR val ;;
  set32 EPIT1_CR (1 << 0).

Definition key_filter_timer_irq_handler_body : M unit :=
  sr <- rd32 EPIT1_SR ;;
  (when truthy (sr .& (1 << 0)) then
    (key_filter_timer_stop ;;
     v <- pin_read GPIO1 18 ;;
     when v =? KEY_DOWN then
       (state <- gets g_key_filter_state ;;
        modify (upd_key_filter_state (lnot state)) ;;
        beep_switch (lnot state)))) ;;
  set32 EPIT1_SR (1 << 0).

Definition gpio1_16_31_irq_handler_body : M unit :=
  key_filter_timer_start (66000000 / 100) ;;
  pin_int_clear GPIO1 18.

(** *** epit.c *)
Definition epit1_init (frac val : Z) : M unit :=
  let frac := if frac <? 0xFFF then frac else 0xFFF in
  wr32 EPIT1_CR 0 ;;
  wr32 EPIT1_CR ((1 << 24) .| (frac << 4) .| (1 << 3) .| (1 << 2) .| (1 << 1)) ;;
  wr32 EPIT1_LR val ;;
  wr32 EPIT1_CMPR 0 ;;
  GIC_EnableIRQ EPIT1_IRQn ;;
  irq_handler_register EPIT1_IRQn epit1_irq_handler 0 ;;
  set32 EPIT1_CR (1 << 0).

Definition epit1_irq_handler_body : M unit :=
  state <- gets g_epit_state ;;
  modify (upd_epit_state (lnot state)) ;;
  sr <- rd32 EPIT1_SR ;;
  (when truthy (sr .& (1 << 0)) then led_switch LED0 (lnot state)) ;;
  set32 EPIT1_SR (1 << 0).
End Operations.

(** ** The polled button *)
Section Polled.
Context `{Device}.

(** The level of the button's pin if it is read after [t]: 1 is released. *)
Definition button_level (t : trace) : Z := (u32 (dev_read t (GPIO_DR GPIO1)) >> 18) .& 1.

Definition button_read (t : trace) : trace :=
  Rd (GPIO_DR GPIO1) (u32 (dev_read t (GPIO_DR GPIO1))) :: t.

Lemma runs_button n s (Q : Z -> fw -> Prop) :
  Q (button_level (tr s)) (Fw (button_read (tr s)) (gl s)) -> runs (pin_read GPIO1 18) n s Q.
Proof. intros HQ. unfold pin_read. by fw_steps. Qed.

Lemma button_level_01 t : button_level t = 0 \/ button_level t = 1.
Proof.
  unfold button_level. generalize (u32 (dev_read t (GPIO_DR GPIO1)) >> 18). intros v.
  replace (v .& 1) with (v mod 2 ^ 1) by (symmetry; by apply (Z.land_ones v 1)).
  pose proof (Z.mod_pos_bound v (2 ^ 1) ltac:(lia)). lia.
Qed.

(** What the polled driver takes for a press: the pin is low at two readings, the
    debounce delay between them. *)
Definition pressed (t : trace) : bool :=
  (button_level t =? KEY_DOWN) && (button_level (button_read t) =? KEY_DOWN).

(** [key_get_val] returns for every behaviour of the pin and only reads it, twice. *)
Lemma runs_key_get_val n s (Q : Z -> fw -> Prop) :
  (0x7FF < n)%nat ->
  Q (if pressed (tr s) then KEY0_VAL else KEY_NONE) (Fw (button_read (button_read (tr s))) (gl s)) ->
  runs key_get_val n s Q.
Proof.
  unfold pressed. intros Hn HQ. unfold key_get_val. apply runs_bind, runs_button.
  destruct (button_level (tr s) =? KEY_DOWN); simpl in *.
  - apply runs_bind, runs_delay; [unfold fits; lia|lia|done|]. apply runs_bind, runs_button.
    cbn [tr gl]. by destruct (_ =? KEY_DOWN); apply runs_ret.
  - apply runs_bind, runs_button. cbn [tr gl]. by destruct (_ =? KEY_UP); apply runs_ret.
Qed.
End Polled.

(** ** The debouncer as a state machine *)
Module Debounce.

(** Is the timer running, is the beeper on. *)
Record st := St { armed : bool; beeping : bool }.

(** What the interrupt controller delivers, and the pin's level the code sees
    at a timeout. *)
Inductive ev := Edge | Timeout (level : Z) | Early.

(** An edge (re)starts the timer; a timeout stops it and toggles the beeper if
    the button is still down; a timer interrupt before the timeout does nothing. *)
Definition step (x : st) (e : ev) : st :=
  match e with
  | Edge => St true x.(beeping)
  | Timeout l => St false (if l =? KEY_DOWN then negb x.(beeping) else x.(beeping))
  | Early => x
  end.
Definition run (x : st) (l : list ev) : st := foldl step x l.

(** A burst of bounces with one timeout at the end toggles the beeper at most
    once, and exactly once when the button is down at the end. *)
Lemma run_burst x l lv :
  Forall (fun e => e = Edge \/ e = Early) l ->
  run x (l ++ [Timeout lv]) =
    St false (if lv =? KEY_DOWN then negb x.(beeping) else x.(beeping)).
Proof.
  intros Hl. unfold run. rewrite foldl_app. simpl. f_equal.
  enough (beeping (foldl step x l) = beeping x) as -> by done.
  revert x. induction Hl as [|e l He Hl IH]; intros x; [done|]. simpl. rewrite IH.
  by destruct He as [-> | ->].
Qed.

(** The interrupts as the controller delivers them. *)
Inductive irq := Pin | Timer.
End Debounce.

Section Filter.
Context `{Device}.
Import Debounce.

Definition handle (k : irq) : M unit :=
  match k with
  | Pin => gpio1_16_31_irq_handler_body
  | Timer => key_filter_timer_irq_handler_body
  end.

(** The accesses the timer handler has made when it samples the pin. *)
Definition stop_trace (t : trace) : trace :=
  let t1 := Rd EPIT1_SR (u32 (dev_read t EPIT1_SR)) :: t in
  let cr := u32 (dev_read t1 EPIT1_CR) in
  Wr EPIT1_CR (u32 (cr .\ (1 << 0))) :: Rd EPIT1_CR cr :: t1.

(** The event an interrupt taken after [t] is: the timer's status bit decides
    between a timeout and an early interrupt, the pin's level is what it is when
    the handler samples it. *)
Definition irq_ev (k : irq) (t : trace) : ev :=
  match k with
  | Pin => Edge
  | Timer =>
      if Z.testbit (u32 (dev_read t EPIT1_SR)) 0 then Timeout (button_level (stop_trace t))
      else Early
  end.

(** [delivers n s ks es s']: the interrupts [ks] are handled one after the
    other from [s] to [s'], and mean the events [es]. *)
Inductive delivers (n : nat) : fw -> list irq -> list ev -> fw -> Prop :=
  | delivers_nil s : delivers n s [] [] s
  | delivers_cons k ks es s s1 s' :
      handle k n s = Ret tt s1 -> delivers n s1 ks es s' ->
      delivers n s (k :: ks) (irq_ev k (tr s) :: es) s'.

(** The timer's enable bit is [armed], the static variable and the beeper's
    active-low pin are [beeping]. *)
Definition shows_st (x : st) (s : fw) : Prop :=
  Z.testbit (regval (tr s) EPIT1_CR) 0 = armed x /\
  g_key_filter_state (gl s) = Z.b2z (beeping x) /\
  Z.testbit (regval (tr s) (GPIO_DR GPIO5)) 1 = negb (beeping x).

Context (Hcr : storage EPIT1_CR) (Hbeep : storage (GPIO_DR GPIO5)).

Lemma runs_beep_switch (on : bool) n s (Q : unit -> fw -> Prop) :
  (forall t, only_bit (GPIO_DR GPIO5) 1 (negb on) (tr s) t -> Q tt (Fw t (gl s))) ->
  runs (beep_switch (Z.b2z on)) n s Q.
Proof.
  intros HQ. unfold beep_switch. destruct on; simpl.
  - apply runs_clr_bit; [done|lia|]. intros [t g] Hg Ho. simpl in *. subst g. by apply HQ.
  - apply runs_set_bit; [done|lia|]. intros [t g] Hg Ho. simpl in *. subst g. by apply HQ.
Qed.

Lemma runs_pin_irq x n s :
  shows_st x s -> runs (handle Pin) n s (fun _ s' => shows_st (step x Edge) s').
Proof.
  intros (Ha & Hs & Hb). unfold handle, gpio1_16_31_irq_handler_body, key_filter_timer_start, pin_int_clear.
  fw_reg. split; [|split; [done|]]; cbn [tr gl]; reg_simpl; [|done].
  generalize (regval (tr s) EPIT1_CR). intros z. by bits_eval.
Qed.

Lemma runs_timer_irq x n s :
  shows_st x s -> runs (handle Timer) n s (fun _ s' => shows_st (step x (irq_ev Timer (tr s))) s').
Proof.
  intros (Ha & Hs & Hb). unfold handle, key_filter_timer_irq_handler_body, irq_ev. do 3 fw_step.
  rewrite truthy_land_bit by lia.
  destruct (Z.testbit (u32 (dev_read (tr s) EPIT1_SR)) 0) eqn:Hsr.
  2: { fw_steps. split; [|split; [done|]]; by reg_frame. }
  unfold key_filter_timer_stop. do 5 fw_step. apply runs_bind, runs_button. cbn [tr gl].
  fold (stop_trace (tr s)). set (lv := button_level (stop_trace (tr s))).
  assert (forall r, r <> EPIT1_CR -> regval (button_read (stop_trace (tr s))) r = regval (tr s) r)
    as Hframe by (intros r Hr; unfold button_read, stop_trace; reg_frame).
  assert (Z.testbit (regval (button_read (stop_trace (tr s))) EPIT1_CR) 0 = false) as Hoff.
  { unfold button_read, stop_trace. reg_simpl. generalize (regval (tr s) EPIT1_CR).
    intros z. by bits_eval. }
  unfold step. destruct (Z.eqb_spec lv KEY_DOWN) as [El|El].
  - fw_steps. rewrite Hs.
    replace (lnot (Z.b2z (beeping x))) with (Z.b2z (negb (beeping x))) by by destruct (beeping x).
    apply runs_beep_switch. cbn [tr gl]. intros t [Hr Hbit]. fw_steps.
    split; [|split; [done|]]; cbn [tr gl armed beeping]; reg_frame.
    + by rewrite Hr.
    + by rewrite Hbit by lia.
  - fw_steps. split; [|split; [done|]]; cbn [tr gl armed beeping]; reg_frame.
Qed.

Lemma runs_handle x k n s :
  shows_st x s -> runs (handle k) n s (fun _ s' => shows_st (step x (irq_ev k (tr s))) s').
Proof. destruct k; [apply runs_pin_irq|apply runs_timer_irq]. Qed.
End Filter.

(** ** Properties *)

(** C24: the interrupt handlers of key_filter.c implement the debouncing state
    machine [Debounce.step]: any sequence of button and timer interrupts, with
    any pin levels, is handled to the end, and leaves the timer's enable bit,
    the static state and the beeper's pin as the machine says; in particular a
    burst of bounces that ends with one timeout stops the timer and toggles the
    beeper once if the button is then down, and not at all otherwise. *)
Theorem key_filter_refines `{Device} n x s ks :
  storage EPIT1_CR -> storage (GPIO_DR GPIO5) -> shows_st x s ->
  exists es s', for_list ks handle n s = Ret tt s' /\ delivers n s ks es s' /\
    shows_st (Debounce.run x es) s' /\
    (forall l lv, es = l ++ [Debounce.Timeout lv] ->
       Forall (fun e => e = Debounce.Edge \/ e = Debounce.Early) l ->
       shows_st (Debounce.St false
         (if lv =? KEY_DOWN then negb (Debounce.beeping x) else Debounce.beeping x)) s').
Proof.
  intros Hcr Hbeep. assert (forall x s, shows_st x s ->
    exists es s', for_list ks handle n s = Ret tt s' /\ delivers n s ks es s' /\
      shows_st (Debounce.run x es) s') as Hrun.
  { induction ks as [|k ks IH]; intros x' s0 Hx.
    - exists [], s0. split; [done|]. split; [constructor|done].
    - pose proof (runs_handle Hcr Hbeep x' k n s0 Hx) as Hk.
      apply runs_inv in Hk as ([] & s1 & E & Hs1).
      destruct (IH _ _ Hs1) as (es & s' & E' & Hd & Hs').
      exists (irq_ev k (tr s0) :: es), s'. split; [|split; [|done]].
      + simpl. unfold bind. by rewrite E.
      + by econstructor. }
  intros Hx. destruct (Hrun x s Hx) as (es & s' & E & Hd & Hs'). exists es, s'.
  split; [done|]. split; [done|]. split; [done|]. intros l lv -> Hl.
  by rewrite Debounce.run_burst in Hs'.
Qed.

(** A pin that is low, and a timer that has timed out. *)
Definition pressed_device : Device :=
  sim_device (fun _ => 0) (fun a =>
    if a =? EPIT1_SR then Some (fun _ => 1)
    else if a =? GPIO_DR GPIO1 then Some (fun _ => 0) else None).

Lemma key_filter_refines_witness :
  let ks := [Debounce.Pin; Debounce.Pin; Debounce.Timer] in
  let s0 := Fw [Wr (GPIO_DR GPIO5) 2] globals0 in
  let x0 := Debounce.St false false in
  exists es s', for_list ks (@handle pressed_device) 3%nat s0 = Ret tt s' /\
    @delivers pressed_device 3 s0 ks es s' /\
    @shows_st pressed_device (Debounce.run x0 es) s' /\
    (forall l lv, es = l ++ [Debounce.Timeout lv] ->
       Forall (fun e => e = Debounce.Edge \/ e = Debounce.Early) l ->
       @shows_st pressed_device (Debounce.St false
         (if lv =? KEY_DOWN then negb (Debounce.beeping x0) else Debounce.beeping x0)) s').
Proof.
  apply (@key_filter_refines pressed_device 3);
    [by apply storage_sim|by apply storage_sim|repeat split; reflexivity].
Defined.
