(* ===== verification/Rtc.v ===== *)
(** The real-time clock: baremetal/20_pwm/bsp/rtc/rtc.c.  Calendar dates are
    converted to seconds since 1970 and split over the two registers of the
    SNVS counter. *)
From S2P Require Import Prelude Machine FwLogic Regs.

(** ** Data of rtc.h *)
Record rtc_date_time := {
  year : Z; month : Z; day : Z; hour : Z; minute : Z; second : Z
}.
Definition SECONDS_IN_A_DAY : Z := 86400.
Definition SECONDS_IN_A_HOUR : Z := 3600.
Definition SECONDS_IN_A_MINUTE : Z := 60.
Definition DAYS_IN_A_YEAR : Z := 365.
Definition YEAR_RANGE_START : Z := 1970.
Definition YEAR_RANGE_END : Z := 2099.

(** ** Operations *)
Definition rtc_is_leap_year (y : Z) : Z :=
  if y mod 400 =? 0 then 1
  else if (y mod 4 =? 0) && negb (y mod 100 =? 0) then 1 else 0.

(** [for (i = 1970; i < time->year; i++)] *)
Fixpoint year_loop (k : nat) (i days : Z) : Z * Z :=
  match k with
  | O => (i, days)
  | S k =>
      let days := u32 (days + DAYS_IN_A_YEAR) in
      let days := if truthy (rtc_is_leap_year (u16 i)) then u32 (days + 1) else days in
      year_loop k (u32 (i + 1)) days
  end.

Definition monthdays : list Z := [0; 0; 31; 59; 90; 120; 151; 181; 212; 243; 273; 304; 334].

(** [None]: the month indexes outside [monthdays]. *)
Definition rtc_data_to_second (time : rtc_date_time) : option Z :=
  let '(i, days) := year_loop (Z.to_nat (time.(year) - 1970)) 1970 0 in
  md ← monthdays !! Z.to_nat time.(month);
  let days := u32 (days + md) in
  let days := if truthy (rtc_is_leap_year (u16 i)) && (3 <=? time.(month))
              then u32 (days + 1) else days in
  let days := u32 (days + (time.(day) - 1)) in
  Some (u32 (days * SECONDS_IN_A_DAY + time.(hour) * SECONDS_IN_A_HOUR +
             time.(minute) * SECONDS_IN_A_MINUTE + time.(second))).

Definition daysPerMonth (leap : bool) : list Z :=
  [0; 31; if leap then 29 else 28; 31; 30; 31; 30; 31; 31; 30; 31; 30; 31].

(** [for (x = 1; x <= 12; x++)]: the month found, if any, and the days left. *)
Fixpoint month_loop (dpm : list Z) (x days : Z) : option Z * Z :=
  match dpm with
  | [] => (None, days)
  | d :: dpm => if days <=? d then (Some x, days) else month_loop dpm (x + 1) (days - d)
  end.

Section Operations.
Context `{Device}.

Definition rtc_enable : M unit :=
  set32 SNVS_LPCR (1 << 0) ;; poll32 SNVS_LPCR (fun v => truthy (v .& 0x1)).
Definition rtc_disable : M unit :=
  clr32 SNVS_LPCR (1 << 0) ;; poll32 SNVS_LPCR (fun v => negb (truthy (v .& 0x1))).
Definition rtc_init : M unit := set32 SNVS_HPCOMR (1 << 31) ;; rtc_enable.

Definition rtc_set_date_time (datetime : rtc_date_time) : M unit :=
  tmp <- rd32 SNVS_LPCR ;;
  rtc_disable ;;
  match rtc_data_to_second datetime with
  | None => undefined
  | Some seconds =>
      wr32 SNVS_LPSRTCMR (seconds >> 17) ;;
      wr32 SNVS_LPSRTCLR (seconds << 15) ;;
      when truthy (tmp .& 0x1) then rtc_enable
  end.

(** [datetime] is what the caller's structure held before the call. *)
Definition rtc_second_to_date (seconds : Z) (datetime : rtc_date_time) : M rtc_date_time :=
  let days := seconds / SECONDS_IN_A_DAY + 1 in
  let rem := seconds mod SECONDS_IN_A_DAY in
  let hour := u8 (rem / SECONDS_IN_A_HOUR) in
  let rem := rem mod SECONDS_IN_A_HOUR in
  let minute := u8 (rem / 60) in
  let second := u8 (rem mod SECONDS_IN_A_MINUTE) in
  unpack (days, year) <- iter (fun '(days, daysInYear, year) =>
      if daysInYear <? days then
        let days := days - daysInYear in
        let year := u16 (year + 1) in
        ret (inl (days,
                  (if negb (truthy (rtc_is_leap_year year)) then DAYS_IN_A_YEAR
                   else DAYS_IN_A_YEAR + 1), year))
      else ret (inr (days, year)))
    (days, DAYS_IN_A_YEAR, YEAR_RANGE_START) ;;
  let dpm := daysPerMonth (truthy (rtc_is_leap_year year)) in
  let '(m, days) := month_loop (drop 1 dpm) 1 days in
  ret {| year := year; month := default datetime.(month) (u8 <$> m); day := u8 days;
         hour := hour; minute := minute; second := second |}.

Definition rtc_get_seconds : M Z :=
  mr <- rd32 SNVS_LPSRTCMR ;;
  lr <- rd32 SNVS_LPSRTCLR ;;
  ret (u32 (mr << 17) .| (lr >> 15)).

Definition rtc_get_datetime (datetime : rtc_date_time) : M rtc_date_time :=
  seconds <- rtc_get_seconds ;; rtc_second_to_date seconds datetime.
End Operations.

(** ** Calendar specification *)

(** Days in a Gregorian year and in a month. *)
Definition ydays (y : Z) : Z := 365 + rtc_is_leap_year y.
Definition mdays (y m : Z) : Z := nth (Z.to_nat m) (daysPerMonth (truthy (rtc_is_leap_year y))) 0.

(** Days from 1 January 1970 to 1 January of the year [1970 + k]. *)
Fixpoint epoch (k : nat) : Z :=
  match k with
  | O => 0
  | S k => epoch k + ydays (1970 + Z.of_nat k)
  end.

Definition valid_date (d : rtc_date_time) : Prop :=
  1970 <= d.(year) /\ 1 <= d.(month) <= 12 /\ 1 <= d.(day) <= mdays d.(year) d.(month) /\
  0 <= d.(hour) < 24 /\ 0 <= d.(minute) < 60 /\ 0 <= d.(second) < 60.

(** Days of the year before the first of month [m]. *)
Definition cum (leap : bool) (m : Z) : Z :=
  nth (Z.to_nat m) monthdays 0 + (if leap && (3 <=? m) then 1 else 0).

(** ** Lemmas *)
Lemma leap_01 y : rtc_is_leap_year y = 0 \/ rtc_is_leap_year y = 1.
Proof. unfold rtc_is_leap_year. repeat case_match; auto. Qed.

Lemma truthy_leap y : rtc_is_leap_year y = Z.b2z (truthy (rtc_is_leap_year y)).
Proof. by destruct (leap_01 y) as [-> | ->]. Qed.

Lemma ydays_range y : 365 <= ydays y <= 366.
Proof. unfold ydays. destruct (leap_01 y); lia. Qed.

Lemma epoch_bounds k : 365 * Z.of_nat k <= epoch k <= 366 * Z.of_nat k.
Proof.
  induction k as [|k IH]; simpl epoch; [lia|]. pose proof (ydays_range (1970 + Z.of_nat k)). lia.
Qed.

Lemma epoch_mono j k : (j <= k)%nat -> epoch j <= epoch k.
Proof.
  induction 1 as [|k _ IH]; [lia|]. simpl. pose proof (ydays_range (1970 + Z.of_nat k)). lia.
Qed.

(** The year a day number falls in is unique. *)
Lemma epoch_unique j k d :
  epoch j < d <= epoch (S j) -> epoch k < d <= epoch (S k) -> j = k.
Proof.
  intros Hj Hk. destruct (Nat.lt_trichotomy j k) as [Hlt|[He|Hlt]]; [|done|].
  - assert (epoch (S j) <= epoch k) by (apply epoch_mono; lia). lia.
  - assert (epoch (S k) <= epoch j) by (apply epoch_mono; lia). lia.
Qed.

(** The month loop on every day of both kinds of year, by evaluation. *)
Definition month_of (leap : bool) (n : Z) : option Z * Z :=
  month_loop (drop 1 (daysPerMonth leap)) 1 n.

Definition month_check (leap : bool) (n : Z) : bool :=
  match month_of leap n with
  | (Some m, d) =>
      (1 <=? m) && (m <=? 12) && (1 <=? d) && (d <=? nth (Z.to_nat m) (daysPerMonth leap) 0) &&
      (cum leap m + d =? n)
  | _ => false
  end.

Lemma month_check_all leap :
  forallb (month_check leap) (seqZ 1 (if leap then 366 else 365)) = true.
Proof. destruct leap; vm_compute; reflexivity. Qed.

Lemma month_of_spec leap n :
  1 <= n <= 365 + Z.b2z leap ->
  exists m d, month_of leap n = (Some m, d) /\ 1 <= m <= 12 /\
    1 <= d <= nth (Z.to_nat m) (daysPerMonth leap) 0 /\ cum leap m + d = n.
Proof.
  intros Hn. pose proof (month_check_all leap) as Hall.
  rewrite forallb_forall in Hall. specialize (Hall n).
  unfold month_check in Hall. destruct (month_of leap n) as [[m|] d].
  - exists m, d. split; [done|].
    assert (Hin : In n (seqZ 1 (if leap then 366 else 365)))
      by (apply list_elem_of_In, elem_of_seqZ; destruct leap; simpl in *; lia).
    specialize (Hall Hin). rewrite !andb_true_iff in Hall.
    destruct Hall as [[[[H1 H2] H3] H4] H5]. lia.
  - assert (Hin : In n (seqZ 1 (if leap then 366 else 365)))
      by (apply list_elem_of_In, elem_of_seqZ; destruct leap; simpl in *; lia).
    specialize (Hall Hin). done.
Qed.

(** Months and days are recovered from the day of the year. *)
Definition month_inv_check (leap : bool) (m : Z) : bool :=
  forallb (fun d => bool_decide (month_of leap (cum leap m + d) = (Some m, d)))
    (seqZ 1 (nth (Z.to_nat m) (daysPerMonth leap) 0)).

Lemma month_of_cum leap m d :
  1 <= m <= 12 -> 1 <= d <= nth (Z.to_nat m) (daysPerMonth leap) 0 ->
  month_of leap (cum leap m + d) = (Some m, d).
Proof.
  intros Hm Hd.
  assert (Hall : forallb (month_inv_check leap) (seqZ 1 12) = true)
    by (destruct leap; vm_compute; reflexivity).
  rewrite forallb_forall in Hall.
  assert (Hin : In m (seqZ 1 12)) by (apply list_elem_of_In, elem_of_seqZ; lia).
  specialize (Hall m Hin). unfold month_inv_check in Hall. rewrite forallb_forall in Hall.
  assert (Hin' : In d (seqZ 1 (nth (Z.to_nat m) (daysPerMonth leap) 0)))
    by (apply list_elem_of_In, elem_of_seqZ; lia).
  specialize (Hall d Hin'). by apply bool_decide_eq_true in Hall.
Qed.

Lemma mdays_le y m : 1 <= m <= 12 -> mdays y m <= 31.
Proof.
  intros Hm. unfold mdays. set (l := truthy _). clearbody l.
  assert (forallb (fun m => nth (Z.to_nat m) (daysPerMonth l) 0 <=? 31) (seqZ 1 12) = true) as Hall
    by (destruct l; vm_compute; reflexivity).
  rewrite forallb_forall in Hall. specialize (Hall m). rewrite Z.leb_le in Hall.
  apply Hall, list_elem_of_In, elem_of_seqZ. lia.
Qed.

Lemma cum_range leap m d :
  1 <= m <= 12 -> 1 <= d <= nth (Z.to_nat m) (daysPerMonth leap) 0 ->
  1 <= cum leap m + d <= 365 + Z.b2z leap.
Proof.
  intros Hm Hd.
  assert (forallb (fun m => (0 <=? cum leap m) &&
    (cum leap m + nth (Z.to_nat m) (daysPerMonth leap) 0 <=? 365 + Z.b2z leap)) (seqZ 1 12) = true)
    as Hall by (destruct leap; vm_compute; reflexivity).
  rewrite forallb_forall in Hall.
  assert (Hin : In m (seqZ 1 12)) by (apply list_elem_of_In, elem_of_seqZ; lia).
  specialize (Hall m Hin). rewrite andb_true_iff, !Z.leb_le in Hall. lia.
Qed.

(** Day number (1 January 1970 is day 1) and seconds since the epoch of a date. *)
Definition leap (y : Z) : bool := truthy (rtc_is_leap_year y).
Definition years (d : rtc_date_time) : nat := Z.to_nat (d.(year) - 1970).
Definition daynum (d : rtc_date_time) : Z :=
  epoch (years d) + (cum (leap d.(year)) d.(month) + d.(day)).
Definition secs (d : rtc_date_time) : Z :=
  (daynum d - 1) * 86400 + d.(hour) * 3600 + d.(minute) * 60 + d.(second).

Lemma ydays_leap y : ydays y = 365 + Z.b2z (leap y).
Proof. unfold ydays, leap. by rewrite <- truthy_leap. Qed.

Lemma year_of_years d : 1970 <= d.(year) -> d.(year) = 1970 + Z.of_nat (years d).
Proof. unfold years. lia. Qed.

Lemma daynum_in_year d :
  valid_date d -> epoch (years d) < daynum d <= epoch (S (years d)).
Proof.
  intros (Hy & Hm & Hd & _). simpl epoch. rewrite <- year_of_years by done.
  unfold daynum. rewrite ydays_leap.
  pose proof (cum_range (leap (year d)) (month d) (day d) Hm Hd). lia.
Qed.

Lemma secs_range d :
  valid_date d -> (daynum d - 1) * 86400 <= secs d < daynum d * 86400.
Proof. intros (_ & _ & _ & ? & ? & ?). unfold secs. lia. Qed.

Lemma secs_inj d d' : valid_date d -> valid_date d' -> secs d = secs d' -> d = d'.
Proof.
  intros Hv Hv' He.
  assert (daynum d = daynum d') as Hdn.
  { pose proof (secs_range d Hv). pose proof (secs_range d' Hv'). lia. }
  assert (years d = years d') as Hk.
  { apply (epoch_unique _ _ (daynum d)); [by apply daynum_in_year|].
    rewrite Hdn. by apply daynum_in_year. }
  destruct Hv as (Hy & Hm & Hd & Hh & Hmi & Hs).
  destruct Hv' as (Hy' & Hm' & Hd' & Hh' & Hmi' & Hs').
  assert (year d = year d') as Hye by (rewrite (year_of_years d), (year_of_years d'); lia).
  assert (month_of (leap (year d)) (cum (leap (year d)) (month d) + day d) =
          month_of (leap (year d)) (cum (leap (year d')) (month d') + day d')) as Hmo.
  { f_equal. unfold daynum in Hdn. rewrite Hk in Hdn. lia. }
  rewrite <- Hye, !month_of_cum in Hmo; [| done | unfold mdays in Hd'; by rewrite <- Hye in Hd'
    | done | done].
  unfold secs in He. rewrite Hdn in He.
  destruct d as [y m dd h mi sc], d' as [y' m' dd' h' mi' sc']. simpl in *.
  injection Hmo as -> ->. subst y'. f_equal; lia.
Qed.

(** The year loop adds up the days of the years passed over. *)
Lemma year_loop_epoch k j :
  (j + k <= 1000)%nat ->
  year_loop k (1970 + Z.of_nat j) (epoch j) = (1970 + Z.of_nat (j + k), epoch (j + k)).
Proof.
  revert j. induction k as [|k IH]; intros j Hjk; simpl year_loop.
  - by rewrite Nat.add_0_r.
  - pose proof (epoch_bounds j). rewrite u16_small, (u32_small (epoch j + _)),
      (u32_small (1970 + Z.of_nat j + 1)) by (unfold DAYS_IN_A_YEAR; lia).
    rewrite (u32_small (_ + 1)) by (unfold DAYS_IN_A_YEAR; lia).
    replace (1970 + Z.of_nat j + 1) with (1970 + Z.of_nat (S j)) by lia.
    replace (j + S k)%nat with (S j + k)%nat by lia. rewrite <- IH by lia. f_equal.
    simpl. unfold ydays, DAYS_IN_A_YEAR. rewrite (truthy_leap (1970 + Z.of_nat j)) at 2.
    destruct (truthy _); simpl; lia.
Qed.

Lemma monthdays_range k : 0 <= nth k monthdays 0 <= 334.
Proof. do 13 (destruct k as [|k]; [simpl; lia|]). destruct k; simpl; lia. Qed.

Lemma data_to_second_secs d :
  valid_date d -> secs d < 2 ^ 32 -> rtc_data_to_second d = Some (secs d).
Proof.
  intros Hv Hs. pose proof (secs_range d Hv). pose proof (daynum_in_year d Hv) as Hdn.
  pose proof (epoch_bounds (years d)). assert (Hk : (years d <= 1000)%nat) by lia.
  destruct Hv as (Hy & Hm & Hd & Hh & Hmi & Hsc).
  pose proof (cum_range (leap (year d)) (month d) (day d) Hm Hd) as Hc.
  unfold rtc_data_to_second. fold (years d).
  pose proof (year_loop_epoch (years d) 0 ltac:(lia)) as Hl. 
  change (1970 + Z.of_nat 0) with 1970 in Hl. change (epoch 0) with 0 in Hl. rewrite Hl.
  rewrite Nat.add_0_l.
  rewrite <- year_of_years by done. rewrite u16_small by (rewrite year_of_years; lia).
  assert (monthdays !! Z.to_nat (month d) = Some (nth (Z.to_nat (month d)) monthdays 0)) as ->.
  { destruct (lookup_lt_is_Some_2 monthdays (Z.to_nat (month d))) as [x Hx]; [simpl; lia|].
    rewrite Hx. f_equal. by rewrite nth_lookup, Hx. }
  simpl. f_equal. fold (leap (year d)).
  assert (0 <= nth (Z.to_nat (month d)) monthdays 0 <= 365) as Hn.
  { pose proof (monthdays_range (Z.to_nat (month d))). lia. }
  assert (forall b : bool, u32 ((if b then u32 (u32 (epoch (years d) + nth (Z.to_nat (month d)) monthdays 0) + 1)
             else u32 (epoch (years d) + nth (Z.to_nat (month d)) monthdays 0)) + (day d - 1)) =
           epoch (years d) + nth (Z.to_nat (month d)) monthdays 0 + (if b then 1 else 0) + (day d - 1)) as ->.
  { intros b. pose proof (mdays_le (year d) (month d) Hm).
    rewrite (u32_small (epoch _ + _)), (u32_small (_ + 1)) by lia. destruct b; rewrite u32_small; lia. }
  unfold secs, daynum, cum, SECONDS_IN_A_DAY, SECONDS_IN_A_HOUR, SECONDS_IN_A_MINUTE in *.
  rewrite u32_small; lia.
Qed.

Section Convert.
Context `{Device}.

(** The year loop of [rtc_second_to_date] finds the year of day [d]. *)
Lemma runs_year_search D n s (Q : Z * Z -> fw -> Prop) :
  1 <= D <= 49711 -> (136 < n)%nat ->
  (forall k days, 1 <= days <= ydays (1970 + Z.of_nat k) -> (k <= 136)%nat ->
     days + epoch k = D -> Q (days, 1970 + Z.of_nat k) s) ->
  runs (iter (fun '(days, daysInYear, year) =>
      if daysInYear <? days then
        let days := days - daysInYear in
        let year := u16 (year + 1) in
        ret (inl (days,
                  (if negb (truthy (rtc_is_leap_year year)) then DAYS_IN_A_YEAR
                   else DAYS_IN_A_YEAR + 1), year))
      else ret (inr (days, year)))
    (D, DAYS_IN_A_YEAR, YEAR_RANGE_START)) n s Q.
Proof.
  intros HD Hn HQ.
  apply (runs_iter (fun j '(days, diy, y) s' => s' = s /\ exists k, y = 1970 + Z.of_nat k /\
    days + epoch k = D /\ diy = ydays y /\ 1 <= days /\ (days <= 365 * (Z.of_nat j + 1)))
    Q _ n 136 (D, DAYS_IN_A_YEAR, YEAR_RANGE_START) s); [| |done].
  - intros j [[days diy] y] s' (-> & k & -> & He & -> & Hd & Hj).
    pose proof (ydays_range (1970 + Z.of_nat k)). pose proof (epoch_bounds k).
    destruct (Z.ltb_spec (ydays (1970 + Z.of_nat k)) days) as [Hlt|Hge]; cbv zeta.
    + apply runs_ret. exists (pred j). split; [lia|]. split; [done|]. exists (S k).
      rewrite u16_small by lia. replace (1970 + Z.of_nat k + 1) with (1970 + Z.of_nat (S k)) by lia.
      split; [done|]. simpl epoch. split; [lia|]. split; [|lia].
      unfold ydays, DAYS_IN_A_YEAR. rewrite (truthy_leap (1970 + Z.of_nat (S k))) at 2.
      by destruct (truthy _).
    + apply runs_ret. apply HQ; [lia| |done]. lia.
  - split; [done|]. exists 0%nat. split; [done|]. simpl epoch. split; [lia|]. split; [done|]. lia.
Qed.

Lemma runs_second_to_date sec old n s (Q : rtc_date_time -> fw -> Prop) :
  0 <= sec < 2 ^ 32 -> (136 < n)%nat ->
  (forall d, valid_date d -> secs d = sec -> Q d s) ->
  runs (rtc_second_to_date sec old) n s Q.
Proof.
  intros Hsec Hn HQ. unfold rtc_second_to_date. cbv zeta. apply runs_bind.
  unfold SECONDS_IN_A_DAY, SECONDS_IN_A_HOUR, SECONDS_IN_A_MINUTE.
  apply runs_year_search; [dlia|done|]. intros k days Hd Hk He.
  fold (leap (1970 + Z.of_nat k)). fold (month_of (leap (1970 + Z.of_nat k)) days).
  rewrite ydays_leap in Hd.
  destruct (month_of_spec _ _ Hd) as (m & d & Hm & Hmr & Hdr & Hc). rewrite Hm.
  assert (d <= 31) by (pose proof (mdays_le (1970 + Z.of_nat k) m Hmr);
    unfold mdays in *; unfold leap in *; lia).
  apply runs_ret. change (default (month old) (u8 <$> Some m)) with (u8 m).
  rewrite (u8_small m), (u8_small d) by lia.
  rewrite !u8_small by dlia.
  apply HQ.
  - unfold valid_date. cbn [year month day hour minute second]. unfold mdays.
    fold (leap (1970 + Z.of_nat k)).
    split; [lia|]. split; [done|]. split; [done|]. split; [dlia|]. split; dlia.
  - unfold secs, daynum, years. cbn [year month day hour minute second].
    replace (Z.to_nat (1970 + Z.of_nat k - 1970)) with k by lia. rewrite Hc. dlia.
Qed.
End Convert.

(** A 32-bit count survives the split over the two counter registers. *)
Lemma rtc_register_split s :
  fits 32 s -> u32 (u32 (u32 (s >> 17)) << 17) .| (u32 (u32 (s << 15)) >> 15) = s.
Proof.
  intros Hs. unfold u32. rewrite !Zmod_mod. rewrite <- !(Z.land_ones _ 32) by lia.
  apply Z.bits_inj'. intros i Hi.
  autorewrite with bits. destruct (Z.ltb_spec i 17).
  - rewrite (Z.testbit_neg_r _ (i - 17)) by lia. simpl.
    destruct (Z.ltb_spec (i + 15) 32); [|lia]. rewrite andb_true_r. f_equal. lia.
  - rewrite Z.shiftr_spec, testbit_ones_bool by lia.
    destruct (Z.ltb_spec (i + 15) 32); [lia|]. rewrite andb_false_r, orb_false_r.
    destruct (Z.ltb_spec (i - 17) 32), (Z.ltb_spec i 32); rewrite ?andb_true_r, ?andb_false_r;
      try lia; try (replace (i - 17 + 17) with i by lia; done);
      rewrite (testbit_above 32 s) by (done || lia); done.
Qed.

Section Clock.
Context `{Device}.
Context (Hlpcr : storage SNVS_LPCR) (Hmr : storage SNVS_LPSRTCMR) (Hlr : storage SNVS_LPSRTCLR).

Lemma truthy_land1 v : truthy (v .& 1) = Z.testbit v 0.
Proof. by apply (truthy_land_bit v 0). Qed.

Lemma runs_rtc_disable n s (Q : unit -> fw -> Prop) :
  (0 < n)%nat ->
  (forall t, regval t SNVS_LPCR = regval (tr s) SNVS_LPCR .\ 1 ->
     (forall r, r <> SNVS_LPCR -> regval t r = regval (tr s) r) -> Q tt (Fw t (gl s))) ->
  runs rtc_disable n s Q.
Proof.
  intros Hn HQ. unfold rtc_disable. fw_steps. storage_read. change (1 << 0) with 1.
  assert (fits 32 (regval (tr s) SNVS_LPCR .\ 1)) as Hf by (apply ldiff_fits; auto using regval_fits; lia).
  apply (runs_poll32 _ _ 0); [|done|].
  - apply shows_storage; [done|]. cbn [tr]. rewrite regval_wr_eq, !u32_small by (rewrite ?u32_small; done).
    rewrite truthy_land1, Z.ldiff_spec. simpl. by rewrite andb_false_r.
  - intros l v Hl _ _. cbn [tr gl]. apply HQ.
    + rewrite regval_rd, regval_app_rd, regval_wr_eq by eauto with fwdb.
      by rewrite !u32_small by (rewrite ?u32_small; done).
    + intros r Hr. rewrite regval_rd, regval_app_rd, regval_wr_ne by eauto with fwdb. done.
Qed.

Lemma runs_rtc_enable n s (Q : unit -> fw -> Prop) :
  (0 < n)%nat ->
  (forall t, regval t SNVS_LPCR = regval (tr s) SNVS_LPCR .| 1 ->
     (forall r, r <> SNVS_LPCR -> regval t r = regval (tr s) r) -> Q tt (Fw t (gl s))) ->
  runs rtc_enable n s Q.
Proof.
  intros Hn HQ. unfold rtc_enable. fw_steps. storage_read. change (1 << 0) with 1.
  assert (fits 32 (regval (tr s) SNVS_LPCR .| 1)) as Hf by (apply lor_fits; auto using regval_fits; done).
  apply (runs_poll32 _ _ 0); [|done|].
  - apply shows_storage; [done|]. cbn [tr]. rewrite regval_wr_eq, !u32_small by (rewrite ?u32_small; done).
    rewrite truthy_land1, Z.lor_spec. simpl. by rewrite orb_true_r.
  - intros l v Hl _ _. cbn [tr gl]. apply HQ.
    + rewrite regval_rd, regval_app_rd, regval_wr_eq by eauto with fwdb.
      by rewrite !u32_small by (rewrite ?u32_small; done).
    + intros r Hr. rewrite regval_rd, regval_app_rd, regval_wr_ne by eauto with fwdb. done.
Qed.

(** Setting a date loads the counter with its seconds and leaves the enable
    bit as it was. *)
Lemma runs_rtc_set d n s (Q : unit -> fw -> Prop) :
  valid_date d -> secs d < 2 ^ 32 -> (0 < n)%nat ->
  (forall t, regval t SNVS_LPCR = regval (tr s) SNVS_LPCR ->
     regval t SNVS_LPSRTCMR = u32 (u32 (secs d >> 17)) ->
     regval t SNVS_LPSRTCLR = u32 (u32 (secs d << 15)) -> Q tt (Fw t (gl s))) ->
  runs (rtc_set_date_time d) n s Q.
Proof.
  intros Hv Hs Hn HQ. unfold rtc_set_date_time. apply runs_bind. fw_step. storage_read.
  apply runs_bind. apply runs_rtc_disable; [done|]. cbn [tr gl].
  intros t Ht _. rewrite data_to_second_secs by done. fw_steps.
  rewrite regval_rd in Ht. set (old := regval (tr s) SNVS_LPCR) in *.
  destruct (truthy (old .& 1)) eqn:Hb; rewrite truthy_land1 in Hb.
  - apply runs_rtc_enable; [done|]. cbn [tr gl]. intros t' Ht' Hr'. apply HQ.
    + rewrite Ht'. reg_simpl. rewrite Ht. apply Z.bits_inj'. intros i Hi.
      autorewrite with bits. destruct (Z.eqb_spec i 0) as [->|]; [rewrite Hb; done|].
      by rewrite andb_true_r, orb_false_r.
    + rewrite Hr' by done. by reg_simpl.
    + rewrite Hr' by done. by reg_simpl.
  - fw_steps. apply HQ; reg_simpl; [|done..]. rewrite Ht. apply Z.bits_inj'. intros i Hi.
    autorewrite with bits. destruct (Z.eqb_spec i 0) as [->|]; [rewrite Hb; done|].
    by rewrite andb_true_r.
Qed.
End Clock.

Lemma secs_bound d : valid_date d -> d.(year) <= 2105 -> secs d < 2 ^ 32.
Proof.
  intros Hv Hy. pose proof (secs_range d Hv). pose proof (daynum_in_year d Hv).
  assert (epoch (S (years d)) <= epoch 136) by (apply epoch_mono; unfold years; lia).
  assert (epoch 136 = 49673) by (vm_compute; reflexivity). lia.
Qed.

(** ** Properties *)

(** C25: for every valid date of the years 1970 to 2105 (a superset of the
    documented 1970 to 2099), converting it to seconds and back returns the same
    date: [rtc_second_to_date] terminates (136 iterations suffice), touches no
    register and no variable, and gives the date it was made from. *)
Theorem rtc_date_roundtrip d old n s :
  valid_date d -> d.(year) <= 2105 -> (136 < n)%nat ->
  exists v, rtc_data_to_second d = Some v /\
    runs (rtc_second_to_date v old) n s (fun d' s' => d' = d /\ s' = s).
Proof.
  intros Hv Hy Hn. pose proof (secs_bound d Hv Hy). exists (secs d).
  split; [by apply data_to_second_secs|].
  apply runs_second_to_date; [|done|].
  - pose proof (secs_range d Hv). pose proof (daynum_in_year d Hv).
    pose proof (epoch_bounds (years d)). lia.
  - intros d' Hv' He. split; [|done]. by apply secs_inj.
Qed.

Definition leap_day : rtc_date_time :=
  {| year := 2000; month := 2; day := 29; hour := 23; minute := 59; second := 58 |}.

Lemma rtc_date_roundtrip_witness :
  valid_date leap_day /\
  exists v, rtc_data_to_second leap_day = Some v /\
    runs (rtc_second_to_date v leap_day) 200 fw0 (fun d' s' => d' = leap_day /\ s' = fw0).
Proof.
  assert (valid_date leap_day) as Hv by (unfold valid_date; vm_compute; intuition discriminate).
  split; [exact Hv|].
  apply rtc_date_roundtrip; [exact Hv | vm_compute; discriminate | lia].
Defined.

(** for every 32-bit second count, [rtc_second_to_date] terminates with a
    valid calendar date, and [rtc_data_to_second] of that date is the count it
    came from: no second of the counter's range is lost or duplicated. *)
Theorem rtc_second_roundtrip v old n s :
  fits 32 v -> (136 < n)%nat ->
  runs (rtc_second_to_date v old) n s (fun d s' =>
    s' = s /\ valid_date d /\ rtc_data_to_second d = Some v).
Proof.
  intros Hv Hn. apply runs_second_to_date; [done|done|]. intros d Hd He.
  split; [done|]. split; [done|]. rewrite <- He. apply data_to_second_secs; [done|].
  rewrite He. apply Hv.
Qed.

Lemma rtc_second_roundtrip_witness :
  runs (rtc_second_to_date 4294967295 leap_day) 137 fw0 (fun d s' =>
    s' = fw0 /\ valid_date d /\ rtc_data_to_second d = Some 4294967295).
Proof.
  apply rtc_second_roundtrip; [unfold fits; lia | lia].
Defined.

(** on a clock whose three registers keep what is written to them (the
    counter does not tick in between), setting a date and reading the clock
    returns that date, whether the clock was running or stopped before, and
    leaves the control register, with its enable bit, as it was. *)
Theorem rtc_set_then_get `{Device} d old n s :
  storage SNVS_LPCR -> storage SNVS_LPSRTCMR -> storage SNVS_LPSRTCLR ->
  valid_date d -> d.(year) <= 2105 -> (136 < n)%nat ->
  runs (rtc_set_date_time d ;; rtc_get_datetime old) n s (fun d' s' =>
    d' = d /\ regval (tr s') SNVS_LPCR = regval (tr s) SNVS_LPCR /\ gl s' = gl s).
Proof.
  intros H1 H2 H3 Hv Hy Hn. pose proof (secs_bound d Hv Hy) as Hb.
  apply runs_bind. apply runs_rtc_set; [done..|lia|]. intros t Hc Hm Hl.
  unfold rtc_get_datetime, rtc_get_seconds. fw_steps. reg_simpl. rewrite Hm, Hl.
  assert (fits 32 (secs d)) as Hf.
  { pose proof (secs_range d Hv). pose proof (daynum_in_year d Hv).
    pose proof (epoch_bounds (years d)). split; lia. }
  rewrite rtc_register_split by done. apply runs_second_to_date; [done|done|].
  intros d' Hv' He. split; [by apply secs_inj|]. cbn [tr gl]. reg_simpl. done.
Qed.

Lemma rtc_set_then_get_witness :
  runs (@rtc_set_date_time reg_device leap_day ;; @rtc_get_datetime reg_device leap_day) 137 fw0 (fun d' s' =>
    d' = leap_day /\ @regval reg_device (tr s') SNVS_LPCR =
      @regval reg_device (tr fw0) SNVS_LPCR /\ gl s' = gl fw0).
Proof.
  apply (@rtc_set_then_get reg_device); try (by apply storage_sim);
    [unfold valid_date; vm_compute; intuition discriminate | vm_compute; discriminate | lia].
Defined.
