(* ===== verification/Uart.v ===== *)
(** Serial port: baremetal/20_pwm/bsp/uart/uart.c. *)
From S2P Require Import Prelude Machine FwLogic Regs.

Definition UART_UFCR_RFDIV_MASK : Z := 0x380.
Definition UART_UFCR_RFDIV (x : Z) : Z := u32 (x << 7) .& UART_UFCR_RFDIV_MASK.
Definition UART_UBIR_INC_MASK : Z := 0xFFFF.
Definition UART_UBIR_INC (x : Z) : Z := u32 (x << 0) .& 0xFFFF.
Definition UART_UBMR_MOD (x : Z) : Z := u32 (x << 0) .& 0xFFFF.

(** ** Operations *)
Section Operations.
Context `{Device}.

Definition uart_io_init : M unit :=
  IOMUXC_SetPinMux IOMUXC_UART1_TX_DATA_UART1_TX 0 ;;
  IOMUXC_SetPinMux IOMUXC_UART1_RX_DATA_UART1_RX 0 ;;
  IOMUXC_SetPinConfig IOMUXC_UART1_TX_DATA_UART1_TX 0x000010B0 ;;
  IOMUXC_SetPinConfig IOMUXC_UART1_TX_DATA_UART1_RX 0x000010B0.

Definition uart_enable (base : Z) : M unit := set32 (UART_UCR1 base) (1 << 0).
Definition uart_disable (base : Z) : M unit := clr32 (UART_UCR1 base) (1 << 0).

Definition uart_soft_reset (base : Z) : M unit :=
  clr32 (UART_UCR2 base) (1 << 0) ;;
  poll32 (UART_UCR2 base) (fun v => truthy (v .& 0x00000001)).

(** The two Euclid loops of [uart_set_baudrate] (lines 74-79 and 139-144). *)
Definition divisor_loop (numerator denominator : Z) : M Z :=
  iter (fun '(numerator, denominator, divisor) =>
    if negb (denominator =? 0) then
      let divisor := u32 denominator in
      ret (inl (divisor, numerator mod denominator, divisor))
    else ret (inr divisor)) (numerator, denominator, 1).

(** Lines 86 to 101: scale the fraction down until both parts are in range. *)
Definition limit_ratio (numerator denominator : Z) : Z * Z :=
  if (UART_UBIR_INC_MASK * 7 <? numerator) || (UART_UBIR_INC_MASK <? denominator) then
    let m := u32 (u32 (numerator - 1) / (UART_UBIR_INC_MASK * 7) + 1) in
    let n := u32 (u32 (denominator - 1) / UART_UBIR_INC_MASK + 1) in
    let max := if n <? m then m else n in
    let numerator := numerator / max in
    let denominator := denominator / max in
    (if 0 =? numerator then 1 else numerator, if 0 =? denominator then 1 else denominator)
  else (numerator, denominator).

(** The [switch (divider)] of lines 104 to 130. *)
Definition refFreqDiv_of (divider : Z) : Z :=
  if divider =? 1 then 0x05 else if divider =? 2 then 0x04 else if divider =? 3 then 0x03
  else if divider =? 4 then 0x02 else if divider =? 5 then 0x01 else if divider =? 6 then 0x00
  else if divider =? 7 then 0x06 else 0x05.

Definition uart_set_baudrate (base baudrate clk : Z) : M unit :=
  divisor <- divisor_loop clk (u32 (baudrate << 4)) ;;
  let '(numerator, denominator) := limit_ratio (clk / divisor) (u32 (baudrate << 4) / divisor) in
  let divider := u32 (u32 (numerator - 1) / UART_UBIR_INC_MASK + 1) in
  let refFreqDiv := refFreqDiv_of divider in
  divisor <- divisor_loop clk (u32 (numerator << 4)) ;;
  let tempNumerator := clk / divisor in
  let tempDenominator := u32 (numerator << 4) / divisor in
  if tempDenominator =? 0 then undefined
  else
    let baudDiff := u64 (tempNumerator * denominator) / tempDenominator in
    let baudDiff := if baudrate <=? baudDiff then baudDiff - baudrate else baudrate - baudDiff in
    when baudDiff <? u32 (baudrate / 100 * 3) then
      (clr32 (UART_UFCR base) UART_UFCR_RFDIV_MASK ;;
       set32 (UART_UFCR base) (UART_UFCR_RFDIV refFreqDiv) ;;
       wr32 (UART_UBIR base) (UART_UBIR_INC (u32 (denominator - 1))) ;;
       wr32 (UART_UBMR base) (UART_UBMR_MOD (u32 (numerator / divider - 1)))).

Definition uart_init : M unit :=
  uart_io_init ;;
  uart_disable UART1 ;;
  uart_soft_reset UART1 ;;
  wr32 (UART_UCR1 UART1) 0 ;;
  (v <- rd32 (UART_UCR1 UART1) ;; wr32 (UART_UCR1 UART1) (v .& (1 << 14))) ;;
  set32 (UART_UCR2 UART1) ((1 << 14) .| (1 << 5) .| (1 << 2) .| (1 << 1)) ;;
  set32 (UART_UCR3 UART1) (1 << 2) ;;
  uart_set_baudrate UART1 115200 80000000 ;;
  uart_enable UART1.

Definition putc (c : Z) : M unit :=
  poll32 (UART_USR2 UART1) (fun v => truthy (v .& 0x00000008)) ;;
  wr32 (UART_UTXD UART1) (c .& 0xFF).

(** [str] is the memory object the argument points to, from the pointer on. *)
Definition puts (str : list Z) : M unit :=
  iter (fun p =>
    match p with
    | [] => undefined
    | c :: p' => if truthy c then putc c ;; ret (inl p') else ret (inr tt)
    end) str.

Definition getc : M Z :=
  poll32 (UART_USR2 UART1) (fun v => truthy (v .& 0x00000001)) ;;
  v <- rd32 (UART_URXD UART1) ;;
  ret (u8 v).

Definition raise (sig_nr : Z) : M unit := ret tt.
End Operations.

(** ** The divisor loop computes the greatest common divisor *)

(** A step of Euclid's algorithm halves the product of the pair. *)
Lemma euclid_half a b : 0 < b <= a -> 2 * (b * (a mod b)) < a * b.
Proof.
  intros Hb. pose proof (Z.mod_pos_bound a b ltac:(lia)). pose proof (Z.div_mod a b ltac:(lia)).
  assert (1 <= a / b) by (apply Z.div_le_lower_bound; lia). nia.
Qed.

Definition euclid_inv (g : Z) (j : nat) (x : Z * Z * Z) : Prop :=
  let '(num, den, div) := x in
  div = num /\ 0 <= den < num /\ num < 2 ^ 32 /\ num * den < 2 ^ Z.of_nat j /\ Z.gcd num den = g.

Lemma runs_divisor_loop a b n s (Q : Z -> fw -> Prop) :
  0 <= a < 2 ^ 32 -> 0 < b < 2 ^ 32 -> (65 < n)%nat ->
  Q (Z.gcd a b) s -> runs (divisor_loop a b) n s Q.
Proof.
  intros Ha Hb Hn HQ. unfold divisor_loop.
  apply (runs_iter (fun j x s' => s' = s /\
    (j = 65%nat /\ x = (a, b, 1) \/ (j <= 64)%nat /\ euclid_inv (Z.gcd a b) j x)) Q _ n 65);
    [|by split; [|left]|done].
  intros j [[num den] div] s' (-> & [[-> Hx]|[Hj (-> & Hd & Hn32 & Hp & Hg)]]).
  - injection Hx as -> -> ->. destruct (Z.eqb_spec b 0); [lia|]. simpl. apply runs_ret.
    exists 64%nat. split; [lia|]. split; [done|]. right. split; [done|].
    pose proof (Z.mod_pos_bound a b ltac:(lia)). rewrite u32_small by lia.
    unfold euclid_inv. rewrite Z.gcd_comm, Z.gcd_mod, Z.gcd_comm by lia. repeat split; try lia.
    change (Z.of_nat 64) with 64. nia.
  - destruct (Z.eqb_spec den 0) as [->|Hnz]; simpl; apply runs_ret.
    + rewrite Z.gcd_0_r, Z.abs_eq in Hg by lia. by rewrite Hg.
    + destruct j as [|j]; [change (2 ^ Z.of_nat 0) with 1 in Hp; nia|].
      exists j. split; [lia|]. split; [done|]. right. split; [lia|].
      pose proof (Z.mod_pos_bound num den ltac:(lia)). rewrite u32_small by lia.
      unfold euclid_inv. rewrite Z.gcd_comm, Z.gcd_mod, Z.gcd_comm by lia.
      pose proof (euclid_half num den ltac:(lia)).
      rewrite Nat2Z.inj_succ, Z.pow_succ_r in Hp by lia. repeat split; (done || lia).
Qed.

(** ** The fraction *)
Lemma ceil_div_bound x k : 0 < x -> 0 < k -> x <= k * ((x - 1) / k + 1).
Proof. intros Hx Hk. pose proof (Z.mul_succ_div_gt (x - 1) k Hk). lia. Qed.

Lemma div_ceil_le x k c : 0 < x -> 0 < k -> (x - 1) / k + 1 <= c -> 0 <= x / c <= k.
Proof.
  intros Hx Hk Hc. assert (0 <= (x - 1) / k) by (apply Z.div_pos; lia).
  pose proof (ceil_div_bound x k Hx Hk). split; [apply Z.div_pos; lia|].
  apply Z.div_le_upper_bound; [lia|]. nia.
Qed.

Lemma limit_ratio_range num den num' den' :
  0 < num < 2 ^ 32 -> 0 < den < 2 ^ 32 -> limit_ratio num den = (num', den') ->
  1 <= num' <= 0xFFFF * 7 /\ 1 <= den' <= 0xFFFF /\
  (num <= 0xFFFF * 7 -> den <= 0xFFFF -> num' = num /\ den' = den).
Proof.
  intros Hn Hd E. unfold limit_ratio, UART_UBIR_INC_MASK in E.
  destruct ((0xFFFF * 7 <? num) || (0xFFFF <? den)) eqn:Eb.
  - assert (0 <= (num - 1) / (0xFFFF * 7) < 2 ^ 31 /\ 0 <= (den - 1) / 0xFFFF < 2 ^ 31) as [H1 H2]
      by (repeat split; try (apply Z.div_pos; lia); apply Z.div_lt_upper_bound; lia).
    rewrite !(u32_small (_ - 1)) in E by lia. rewrite !u32_small in E by lia. cbv zeta in E.
    set (c := if _ <? _ then _ else _) in E.
    assert ((num - 1) / (0xFFFF * 7) + 1 <= c /\ (den - 1) / 0xFFFF + 1 <= c) as [Hc1 Hc2]
      by (subst c; destruct (Z.ltb_spec ((den - 1) / 0xFFFF + 1) ((num - 1) / (0xFFFF * 7) + 1)); lia).
    pose proof (div_ceil_le num (0xFFFF * 7) c ltac:(lia) ltac:(lia) Hc1).
    pose proof (div_ceil_le den 0xFFFF c ltac:(lia) ltac:(lia) Hc2).
    clearbody c. generalize dependent (num / c). generalize dependent (den / c).
    intros y Hy x E Hx.
    apply orb_true_iff in Eb as [Eb|Eb]; apply Z.ltb_lt in Eb;
      destruct (Z.eqb_spec 0 x), (Z.eqb_spec 0 y); injection E as <- <-; lia.
  - apply orb_false_iff in Eb as [E1 E2]. apply Z.ltb_ge in E1, E2. injection E as <- <-. lia.
Qed.

(** The quotient of the two reduced words is the quotient of the originals. *)
Lemma reduced_quotient a b d :
  0 < b -> 0 <= a -> 0 <= d -> a / Z.gcd a b * d / (b / Z.gcd a b) = a * d / b.
Proof.
  intros Hb Ha Hd. set (g := Z.gcd a b).
  assert (0 < g) as Hg.
  { pose proof (Z.gcd_nonneg a b). destruct (Z.eq_dec g 0) as [E|]; [|lia].
    apply Z.gcd_eq_0_r in E. lia. }
  destruct (Z.gcd_divide_l a b) as [a' Ea]. destruct (Z.gcd_divide_r a b) as [b' Eb].
  fold g in Ea, Eb. clearbody g. subst a b. assert (0 < b') by nia.
  rewrite !Z.div_mul by lia. replace (a' * g * d) with (a' * d * g) by lia.
  by rewrite Z.div_mul_cancel_r by lia.
Qed.

Lemma gcd_quot_pos a b : 0 < a -> 0 < b -> 0 < Z.gcd a b /\ 0 < a / Z.gcd a b <= a.
Proof.
  intros Ha Hb. pose proof (Z.gcd_nonneg a b). destruct (Z.gcd_divide_l a b) as [a' Ea].
  assert (0 < Z.gcd a b) by (destruct (Z.eq_dec (Z.gcd a b) 0); lia).
  set (g := Z.gcd a b) in *. clearbody g. subst a. split; [done|]. rewrite Z.div_mul by lia. nia.
Qed.

(** The documented encoding of the reference divider in RFDIV. *)
Definition rfdiv_code (divider : Z) : option Z :=
  nth_error [5; 4; 3; 2; 1; 0; 6] (Z.to_nat (divider - 1)).

Definition baud_programmed `{Device} (base baud clk : Z) (t t' : trace) : Prop :=
  exists num den div ref,
    1 <= num <= 0xFFFF * 7 /\ 1 <= den <= 0xFFFF /\ 1 <= div <= 7 /\
    rfdiv_code div = Some ref /\ field (regval t' (UART_UFCR base)) 7 3 = ref /\
    1 <= num / div <= 0xFFFF /\
    (exists ufcr1 ufcr2, writes t' = writes t ++
      [(UART_UFCR base, ufcr1); (UART_UFCR base, ufcr2);
       (UART_UBIR base, den - 1); (UART_UBMR base, num / div - 1)]) /\
    Z.abs (clk * den / (16 * num) - baud) < 3 * (baud / 100) /\
    (let g := Z.gcd clk (16 * baud) in
     clk / g <= 0xFFFF * 7 -> 16 * baud / g <= 0xFFFF -> clk * den = 16 * baud * num).

Section Baud.
Context `{Device}.
Context (base baud clk : Z) (Hbaud : 0 < baud < 2 ^ 28) (Hclk : 0 < clk < 2 ^ 32).
Context (Hufcr : storage (UART_UFCR base)).

Lemma times16 z : 0 <= z < 2 ^ 28 -> u32 (z << 4) = 16 * z.
Proof. intros Hz. rewrite Z.shiftl_mul_pow2 by lia. rewrite u32_small; lia. Qed.

Lemma divider_range num : 1 <= num <= 0xFFFF * 7 ->
  let div := u32 (u32 (num - 1) / UART_UBIR_INC_MASK + 1) in
  1 <= div <= 7 /\ 1 <= num / div <= 0xFFFF.
Proof.
  intros Hn. unfold UART_UBIR_INC_MASK. cbv zeta. rewrite (u32_small (num - 1)) by lia.
  assert (0 <= (num - 1) / 0xFFFF < 7)
    by (split; [apply Z.div_pos; lia|]; apply Z.div_lt_upper_bound; lia).
  rewrite u32_small by lia. split; [lia|].
  pose proof (div_ceil_le num 0xFFFF ((num - 1) / 0xFFFF + 1) ltac:(lia) ltac:(lia) ltac:(lia)).
  split; [|lia]. apply Z.div_le_lower_bound; [lia|].
  pose proof (Z.mul_div_le (num - 1) 0xFFFF ltac:(lia)). lia.
Qed.

Lemma rfdiv_matches div : 1 <= div <= 7 -> rfdiv_code div = Some (refFreqDiv_of div).
Proof.
  intros Hd. assert (div = 1 \/ div = 2 \/ div = 3 \/ div = 4 \/ div = 5 \/ div = 6 \/ div = 7)
    as Hc by lia.
  by repeat (destruct Hc as [->|Hc]; [reflexivity|]); subst.
Qed.

Lemma low16 z : 1 <= z <= 0xFFFF -> u32 (UART_UBIR_INC (u32 (z - 1))) = z - 1.
Proof.
  intros Hz. unfold UART_UBIR_INC. rewrite Z.shiftl_0_r, u32_u32, (u32_small (z - 1)) by lia.
  replace ((z - 1) .& 0xFFFF) with (z - 1); [apply u32_small; lia|].
  symmetry. rewrite (Z.land_ones _ 16) by lia. apply Z.mod_small. lia.
Qed.

Lemma rfdiv_field v ref : fits 3 ref ->
  field (u32 (u32 (v .\ UART_UFCR_RFDIV_MASK) .| UART_UFCR_RFDIV ref)) 7 3 = ref.
Proof.
  intros Hr. unfold UART_UFCR_RFDIV, UART_UFCR_RFDIV_MASK. rewrite field_u32 by lia.
  assert (u32 (ref << 7) .& 0x380 = ref << 7) as ->.
  { rewrite u32_small by (apply (shiftl_fits 32 ref 7 3); [done|lia..]).
    apply Z.bits_inj'. intros i Hi. change 0x380 with (Z.ones 3 << 7). autorewrite with bits.
    destruct (Z.ltb_spec (i - 7) 0).
    - by rewrite (Z.testbit_neg_r ref) by lia.
    - autorewrite with bits. destruct (Z.ltb_spec (i - 7) 3); [by rewrite andb_true_r|].
      by rewrite (testbit_above 3 ref) by (done || lia). }
  apply field_bits; [lia|lia|done|]. intros i Hi. apply list_elem_of_In, elem_of_seqZ in Hi.
  change 0x380 with (Z.ones 3 << 7). autorewrite with bits. rewrite testbit_u32 by lia.
  autorewrite with bits. destruct (Z.ltb_spec (i + 7 - 7) 3); [|lia].
  rewrite andb_false_r. simpl. f_equal. lia.
Qed.

Lemma runs_program_baud num den n s (Q : unit -> fw -> Prop) :
  1 <= num <= 0xFFFF * 7 -> 1 <= den <= 0xFFFF ->
  Z.abs (clk * den / (16 * num) - baud) < 3 * (baud / 100) ->
  (let g := Z.gcd clk (16 * baud) in
   clk / g <= 0xFFFF * 7 -> 16 * baud / g <= 0xFFFF -> clk * den = 16 * baud * num) ->
  let div := u32 (u32 (num - 1) / UART_UBIR_INC_MASK + 1) in
  (forall t, baud_programmed base baud clk (tr s) t -> Q tt (Fw t (gl s))) ->
  runs (clr32 (UART_UFCR base) UART_UFCR_RFDIV_MASK ;;
        set32 (UART_UFCR base) (UART_UFCR_RFDIV (refFreqDiv_of div)) ;;
        wr32 (UART_UBIR base) (UART_UBIR_INC (u32 (den - 1))) ;;
        wr32 (UART_UBMR base) (UART_UBMR_MOD (u32 (num / div - 1)))) n s Q.
Proof.
  intros Hn Hd Hrate Hex div HQ. pose proof (divider_range num Hn) as [Hdiv Hnd]. fold div in Hdiv, Hnd.
  fw_reg. apply HQ. clearbody div. exists num, den, div, (refFreqDiv_of div).
  split; [done|]. split; [done|]. split; [done|]. split; [by apply rfdiv_matches|].
  change UART_UBMR_MOD with UART_UBIR_INC. split; [|split; [done|split; [|done]]].
  - reg_simpl. apply rfdiv_field. pose proof (rfdiv_matches div Hdiv) as E.
    assert (div = 1 \/ div = 2 \/ div = 3 \/ div = 4 \/ div = 5 \/ div = 6 \/ div = 7)
      as Hc by lia.
    by repeat (destruct Hc as [->|Hc]; [done|]); subst.
  - rewrite !low16 by done. cbn [writes]. eexists _, _. by rewrite <- !app_assoc.
Qed.

Lemma runs_set_baudrate n s (Q : unit -> fw -> Prop) :
  (65 < n)%nat ->
  Q tt s -> (forall t, baud_programmed base baud clk (tr s) t -> Q tt (Fw t (gl s))) ->
  runs (uart_set_baudrate base baud clk) n s Q.
Proof.
  intros Hn HQ0 HQ. unfold uart_set_baudrate. rewrite times16 by lia.
  apply runs_bind, runs_divisor_loop; [lia|lia|done|].
  pose proof (gcd_quot_pos clk (16 * baud) ltac:(lia) ltac:(lia)) as [Hg Hq1].
  pose proof (gcd_quot_pos (16 * baud) clk ltac:(lia) ltac:(lia)) as [_ Hq2].
  rewrite Z.gcd_comm in Hq2.
  destruct (limit_ratio _ _) as [num den] eqn:El.
  apply limit_ratio_range in El as (Hnum & Hden & Hsame); [|lia|lia].
  rewrite times16 by lia. cbv zeta. apply runs_bind, runs_divisor_loop; [lia|lia|done|].
  pose proof (gcd_quot_pos clk (16 * num) ltac:(lia) ltac:(lia)) as [Hg2 Hq3].
  pose proof (gcd_quot_pos (16 * num) clk ltac:(lia) ltac:(lia)) as [_ Hq4].
  rewrite Z.gcd_comm in Hq4.
  destruct (Z.eqb_spec (16 * num / Z.gcd clk (16 * num)) 0); [lia|].
  rewrite (u64_small (_ * _)) by nia. rewrite reduced_quotient by lia.
  set (rate := clk * den / (16 * num)).
  assert (0 <= baud / 100 <= baud) by (split; [apply Z.div_pos; lia|apply Z.div_le_upper_bound; lia]).
  rewrite u32_small by lia.
  destruct (Z.ltb_spec (if baud <=? rate then rate - baud else baud - rate) (baud / 100 * 3)) as [Hlt|];
    [|by apply runs_ret].
  apply runs_program_baud; [done|done| | |done].
  - fold rate. destruct (Z.leb_spec baud rate); lia.
  - intros g H1 H2. destruct (Hsame H1 H2) as [-> ->].
    destruct (Z.gcd_divide_l clk (16 * baud)) as [c1 E1].
    destruct (Z.gcd_divide_r clk (16 * baud)) as [c2 E2]. fold g in E1, E2, Hg |- *.
    clearbody g. rewrite E1, E2. rewrite !Z.div_mul by lia. lia.
Qed.
End Baud.

(** ** Initialisation *)
Section Init.
Context `{Device}.

(** UART1 as [uart_init] leaves it: 115200 baud from an 80 MHz reference, exact
    fraction 72/3125, 8 data bits, transmitter and receiver on, enabled. *)
Definition uart_ready (t : trace) : Prop :=
  field (regval t (UART_UFCR UART1)) 7 3 = 5 /\
  regval t (UART_UBIR UART1) = 71 /\ regval t (UART_UBMR UART1) = 3124 /\
  80000000 * (71 + 1) = 115200 * (16 * (3124 + 1)) /\
  Forall (fun i => Z.testbit (regval t (UART_UCR2 UART1)) i = true) [14; 5; 2; 1] /\
  Z.testbit (regval t (UART_UCR3 UART1)) 2 = true /\
  regval t (UART_UCR1 UART1) = 1.

Lemma runs_baud_115200 n s (Q : unit -> fw -> Prop) :
  storage (UART_UFCR UART1) -> (65 < n)%nat ->
  (forall t, field (regval t (UART_UFCR UART1)) 7 3 = 5 ->
     regval t (UART_UBIR UART1) = 71 -> regval t (UART_UBMR UART1) = 3124 ->
     (forall r, r <> UART_UFCR UART1 -> r <> UART_UBIR UART1 -> r <> UART_UBMR UART1 ->
        regval t r = regval (tr s) r) -> Q tt (Fw t (gl s))) ->
  runs (uart_set_baudrate UART1 115200 80000000) n s Q.
Proof.
  intros Hs Hn HQ. unfold uart_set_baudrate. rewrite !times16 by lia.
  apply runs_bind, runs_divisor_loop; [lia|lia|done|].
  replace (limit_ratio _ _) with (3125, 72) by (vm_compute; reflexivity). cbv iota zeta.
  rewrite times16 by lia. apply runs_bind, runs_divisor_loop; [lia|lia|done|].
  replace (16 * 3125 / Z.gcd 80000000 (16 * 3125)) with 1 by (vm_compute; reflexivity).
  replace (80000000 / Z.gcd 80000000 (16 * 3125)) with 1600 by (vm_compute; reflexivity).
  replace (u32 (u32 (3125 - 1) / UART_UBIR_INC_MASK + 1)) with 1 by (vm_compute; reflexivity).
  change (1 =? 0) with false. cbv iota.
  replace (_ <? u32 (115200 / 100 * 3)) with true by (vm_compute; reflexivity). cbv iota.
  fw_reg. apply HQ.
  - reg_simpl. by apply rfdiv_field.
  - by reg_simpl.
  - by reg_simpl.
  - intros r H1 H2 H3. reg_frame.
Qed.

Lemma runs_uart_io_init n s (Q : unit -> fw -> Prop) :
  (forall t, Q tt (Fw t (gl s))) -> runs uart_io_init n s Q.
Proof.
  intros HQ. unfold uart_io_init, IOMUXC_SetPinMux, IOMUXC_SetPinConfig.
  cbn [muxRegister muxMode inputRegister inputDaisy configRegister IOMUXC_UART1_TX_DATA_UART1_TX
       IOMUXC_UART1_RX_DATA_UART1_RX IOMUXC_UART1_TX_DATA_UART1_RX truthy negb Z.eqb].
  fw_steps. apply HQ.
Qed.

Lemma runs_uart_init m n s (Q : unit -> fw -> Prop) :
  storage (UART_UFCR UART1) -> storage (UART_UCR1 UART1) -> storage (UART_UCR3 UART1) ->
  responsive m u32 (UART_UCR2 UART1) (fun v => truthy (v .& 0x00000001)) ->
  (m < n)%nat -> (65 < n)%nat ->
  (forall t, uart_ready t -> Q tt (Fw t (gl s))) -> runs uart_init n s Q.
Proof.
  intros H1 H2 H3 Hr Hm Hn HQ. unfold uart_init, uart_disable, uart_soft_reset, uart_enable.
  apply runs_bind, runs_uart_io_init. intros t0. fw_reg.
  apply (runs_poll32 _ _ m); [apply Hr|done|]. intros l v Hl _ _. cbn [tr gl]. fw_reg.
  apply runs_baud_115200; [done..|]. cbn [tr gl]. intros t Hb1 Hb2 Hb3 Hf. fw_reg. apply HQ.
  assert (regval t (UART_UCR1 UART1) = 0) as Hc1
    by (rewrite Hf by reg_ne; reg_simpl; reflexivity).
  unfold uart_ready. reg_simpl. rewrite Hc1.
  split; [done|]. split; [done|]. split; [done|]. split; [done|].
  split; [|split; [|done]]; rewrite !Hf by reg_ne; reg_simpl.
  - repeat constructor; match goal with |- context [u32 ?x .| _] => generalize (u32 x) end;
      intros z; by bits_eval.
  - match goal with |- context [?x .| (1 << 2)] => generalize x end. intros z. by bits_eval.
Qed.
End Init.

(** ** Transmission *)

(** Every character was written right after a poll that saw the transmitter
    idle: nothing overtakes a character still being sent. *)
Fixpoint paced (t : trace) : bool :=
  match t with
  | [] => true
  | e :: t' =>
      (match e with
       | Wr a _ =>
           if a =? UART_UTXD UART1 then
             match t' with
             | Rd b v :: _ => (b =? UART_USR2 UART1) && truthy (v .& 0x00000008)
             | _ => false
             end
           else true
       | Rd _ _ => true
       end) && paced t'
  end.

Lemma paced_rds l t : Forall is_rd l -> paced (l ++ t) = paced t.
Proof. induction 1 as [|? l (a & v & ->)]; done. Qed.

Section Send.
Context `{Device}.
Context (m : nat)
  (Hidle : responsive m u32 (UART_USR2 UART1) (fun v => truthy (v .& 0x00000008))).

Lemma runs_putc c n s (Q : unit -> fw -> Prop) :
  (m < n)%nat ->
  (forall t, writes t = writes (tr s) ++ [(UART_UTXD UART1, c .& 0xFF)] ->
     paced t = paced (tr s) -> Q tt (Fw t (gl s))) ->
  runs (putc c) n s Q.
Proof.
  intros Hn HQ. unfold putc. apply runs_bind, (runs_poll32 _ _ m); [apply Hidle|done|].
  intros l v Hl Hv _. fw_step. apply HQ.
  - cbn [writes]. rewrite writes_app_rd by eauto with fwdb. repeat f_equal.
    apply u32_small. rewrite (Z.land_ones _ 8) by lia.
    pose proof (Z.mod_pos_bound c (2 ^ 8)). lia.
  - cbn [paced]. rewrite !Z.eqb_refl, Hv. simpl. apply paced_rds. eauto with fwdb.
Qed.

Lemma runs_puts cs rest n : forall s (Q : unit -> fw -> Prop),
  (m < n)%nat -> (length cs < n)%nat -> Forall (fun c => 0 < c < 256) cs ->
  (forall t, writes t = writes (tr s) ++ ((fun c => (UART_UTXD UART1, c)) <$> cs) ->
     paced t = paced (tr s) -> Q tt (Fw t (gl s))) ->
  runs (puts (cs ++ 0 :: rest)) n s Q.
Proof.
  intros s Q Hm Hlen Hcs HQ. unfold puts.
  apply (runs_iter (fun j p s' => exists done todo, cs = done ++ todo /\ j = length todo /\
    p = todo ++ 0 :: rest /\ gl s' = gl s /\ paced (tr s') = paced (tr s) /\
    writes (tr s') = writes (tr s) ++ ((fun c => (UART_UTXD UART1, c)) <$> done)) Q _ n (length cs));
    [|exists [], cs; by rewrite app_nil_r|done].
  intros j p [t g] (d & todo & Hd & -> & -> & Hg & Hp & Hw). simpl in Hg, Hp, Hw. subst g.
  destruct todo as [|c todo]; simpl.
  - apply runs_ret. apply HQ; [|done]. by rewrite Hw, Hd, app_nil_r.
  - rewrite Hd in Hcs. apply Forall_app in Hcs as [_ Hcs]. apply list.Forall_cons in Hcs as [Hc _].
    destruct (truthy c) eqn:Et; [|apply truthy_false in Et; lia].
    apply runs_bind, runs_putc; [done|]. cbn [tr gl]. intros t' Hw' Hp'. apply runs_ret.
    exists (length todo). split; [lia|]. exists (d ++ [c]), todo.
    split; [by rewrite <- app_assoc|]. repeat split; try done; [cbn [tr]; congruence|].
    cbn [tr]. rewrite Hw', Hw, fmap_app, <- app_assoc. simpl. repeat f_equal.
    rewrite (Z.land_ones _ 8) by lia. apply Z.mod_small. lia.
Qed.
End Send.

(** ** Properties *)



(** if the soft reset completes, [uart_init] returns and leaves UART1
    enabled with UBIR = 71, UBMR = 3124 and RFDIV = 5, for which the baud rate
    is exactly 115200 from 80 MHz, 8 data bits and both directions on; no
    static variable changes. *)
Theorem uart_init_ready `{Device} m n s :
  storage (UART_UFCR UART1) -> storage (UART_UCR1 UART1) -> storage (UART_UCR3 UART1) ->
  responsive m u32 (UART_UCR2 UART1) (fun v => truthy (v .& 0x00000001)) ->
  (m < n)%nat -> (65 < n)%nat ->
  runs uart_init n s (fun _ s' => uart_ready (tr s') /\ gl s' = gl s).
Proof. intros H1 H2 H3 Hr Hm Hn. by apply (runs_uart_init m). Qed.

(** A UART whose reset is done, and whose transmitter is idle, at the second poll. *)
Definition second_poll (a v : Z) (t : trace) : Z :=
  match t with Rd b _ :: _ => if b =? a then v else 0 | _ => 0 end.
Definition uart_device : Device :=
  sim_device (fun _ => 0) (fun a =>
    if a =? UART_UCR2 UART1 then Some (second_poll (UART_UCR2 UART1) 1)
    else if a =? UART_USR2 UART1 then Some (second_poll (UART_USR2 UART1) 8) else None).

Lemma uart_init_ready_witness :
  runs (@uart_init uart_device) 70 fw0 (fun _ s' =>
    @uart_ready uart_device (tr s') /\ gl s' = gl fw0).
Proof.
  apply (@uart_init_ready uart_device 1);
    [by apply storage_sim..|intros t; right; left; reflexivity|lia|lia].
Defined.

(** on a transmitter that becomes idle, [puts] of a NUL-terminated string
    sends exactly its characters, in order, and nothing else; each one is
    written right after a poll that saw the transmitter idle, so none is
    overwritten before it is sent. *)
Theorem puts_sends `{Device} m cs rest n s :
  responsive m u32 (UART_USR2 UART1) (fun v => truthy (v .& 0x00000008)) ->
  (m < n)%nat -> (length cs < n)%nat -> Forall (fun c => 0 < c < 256) cs ->
  runs (puts (cs ++ 0 :: rest)) n s (fun _ s' => gl s' = gl s /\
    writes (tr s') = writes (tr s) ++ ((fun c => (UART_UTXD UART1, c)) <$> cs) /\
    paced (tr s') = paced (tr s)).
Proof. intros Hr Hm Hn Hc. by apply (runs_puts m). Qed.

Lemma puts_sends_witness :
  runs (@puts uart_device ([72; 105] ++ 0 :: [7])) 5 fw0 (fun _ s' => gl s' = gl fw0 /\
    writes (tr s') = writes (tr fw0) ++ ((fun c => (UART_UTXD UART1, c)) <$> [72; 105]) /\
    paced (tr s') = paced (tr fw0)).
Proof.
  apply (@puts_sends uart_device 1);
    [intros t; right; left; reflexivity|lia|simpl; lia|repeat constructor; lia].
Defined.
