(* ===== verification/I2c.v ===== *)
(** I2C master: baremetal/20_pwm/bsp/i2c/i2c.c.  The controller's registers are
    16 bits wide. *)
From S2P Require Import Prelude Machine FwLogic Regs.

Definition I2C_STATUS_OK : Z := 0.
Definition I2C_STATUS_BUSY : Z := 1.
Definition I2C_STATUS_NAK : Z := 3.
Definition I2C_STATUS_ARBITRATION_LOST : Z := 4.
Definition I2C_STATUS_TIMEOUT : Z := 5.
Definition I2C_STATUS_ADDR_NAK : Z := 6.

Inductive i2c_dir := I2C_WRITE | I2C_READ.
Global Instance i2c_dir_eq_dec : EqDecision i2c_dir.
Proof. solve_decision. Defined.

(** [data] is the memory object the pointer designates, from the pointer on. *)
Record i2c_transfer := {
  slave_addr : Z; dir : i2c_dir; reg_addr : Z; reg_addr_len : Z;
  data : list Z; data_len : Z
}.

(** The byte that opens a transfer. *)
Definition addr_byte (addr : Z) (d : i2c_dir) : Z :=
  (addr << 1) .| match d with I2C_READ => 1 | I2C_WRITE => 0 end.

(** ** Operations *)
Section Operations.
Context `{Device}.

Definition i2c_init (base : Z) : M unit :=
  clr16 (I2C_I2CR base) (1 << 7) ;;
  wr16 (I2C_IFDR base) (0x15 << 0) ;;
  set16 (I2C_I2CR base) (1 << 7).

Definition i2c_master_repeated_start (base addr : Z) (d : i2c_dir) : M Z :=
  sr <- rd16 (I2C_I2SR base) ;;
  busy <- (if truthy (sr .& (1 << 5)) then
             cr <- rd16 (I2C_I2CR base) ;; ret (cr .& (1 << 5) =? 0)
           else ret false) ;;
  if busy : bool then ret I2C_STATUS_BUSY
  else
    set16 (I2C_I2CR base) ((1 << 4) .| (1 << 2)) ;;
    wr16 (I2C_I2DR base) (addr_byte addr d) ;;
    ret I2C_STATUS_OK.

Definition i2c_master_start (base addr : Z) (d : i2c_dir) : M Z :=
  sr <- rd16 (I2C_I2SR base) ;;
  if truthy (sr .& (1 << 5)) then ret I2C_STATUS_BUSY
  else
    set16 (I2C_I2CR base) ((1 << 5) .| (1 << 4)) ;;
    wr16 (I2C_I2DR base) (addr_byte addr d) ;;
    ret I2C_STATUS_OK.

Definition i2c_check_and_clear_error (base status : Z) : M Z :=
  if truthy (status .& (1 << 4)) then
    clr16 (I2C_I2SR base) (1 << 4) ;;
    clr16 (I2C_I2CR base) (1 << 7) ;;
    set16 (I2C_I2CR base) (1 << 7) ;;
    ret I2C_STATUS_ARBITRATION_LOST
  else if truthy (status .& (1 << 0)) then ret I2C_STATUS_NAK
  else ret I2C_STATUS_OK.

Definition i2c_master_stop (base : Z) : M Z :=
  clr16 (I2C_I2CR base) ((1 << 5) .| (1 << 4) .| (1 << 3)) ;;
  iter (fun timeout =>
    sr <- rd16 (I2C_I2SR base) ;;
    if truthy (sr .& (1 << 5)) then
      let timeout := u16 (timeout - 1) in
      if timeout =? 0 then ret (inr I2C_STATUS_TIMEOUT) else ret (inl timeout)
    else ret (inr I2C_STATUS_OK)) 0xffff.

(** [while (!(base->I2SR & (1 << bit)));] *)
Definition wait_flag (base bit : Z) : M unit :=
  poll16 (I2C_I2SR base) (fun v => truthy (v .& (1 << bit))).

Definition i2c_master_write (base : Z) (buf : list Z) (size : Z) : M unit :=
  wait_flag base 7 ;;
  clr16 (I2C_I2SR base) (1 << 1) ;;
  set16 (I2C_I2CR base) (1 << 4) ;;
  iter (fun '(buf, size) =>
    if truthy size then
      match buf with
      | [] => undefined
      | b :: buf =>
          wr16 (I2C_I2DR base) b ;;
          wait_flag base 1 ;;
          clr16 (I2C_I2SR base) (1 << 1) ;;
          sr <- rd16 (I2C_I2SR base) ;;
          err <- i2c_check_and_clear_error base sr ;;
          if truthy err then ret (inr tt) else ret (inl (buf, u32 (size - 1)))
      end
    else ret (inr tt)) (buf, size) ;;
  clr16 (I2C_I2SR base) (1 << 1) ;;
  i2c_master_stop base ;;
  ret tt.

(** The body of the loop of lines 189 to 202, [size] already decremented.  The
    buffer is filled from its start; storing past its end is undefined. *)
Definition read_step (base : Z) (buf : list Z) (i : nat) (size : Z) : M (list Z) :=
  wait_flag base 1 ;;
  clr16 (I2C_I2SR base) (1 << 1) ;;
  (when size =? 0 then (i2c_master_stop base ;; ret tt)) ;;
  (when size =? 1 then set16 (I2C_I2CR base) (1 << 3)) ;;
  v <- rd16 (I2C_I2DR base) ;;
  if (i <? length buf)%nat then ret (<[i := u8 v]> buf) else undefined.

Definition i2c_master_read (base : Z) (buf : list Z) (size : Z) : M (list Z) :=
  wait_flag base 7 ;;
  clr16 (I2C_I2SR base) (1 << 1) ;;
  clr16 (I2C_I2CR base) ((1 << 4) .| (1 << 3)) ;;
  (when size =? 1 then set16 (I2C_I2CR base) (1 << 3)) ;;
  rd16 (I2C_I2DR base) ;;
  iter (fun '(buf, i, size) =>
    if truthy size then
      let size := u32 (size - 1) in
      buf <- read_step base buf i size ;; ret (inl (buf, S i, size))
    else ret (inr buf)) (buf, O, size).

(** Lines 242 to 258: the register address, most significant byte first.  The
    result is the error that ended it, if any, and the length left. *)
Definition send_reg_addr (base reg len : Z) : M (Z * Z) :=
  iter (fun len =>
    clr16 (I2C_I2SR base) (1 << 1) ;;
    let len := u8 (len - 1) in
    if 4 <=? len then undefined
    else
      wr16 (I2C_I2DR base) (reg >> (8 * len)) ;;
      wait_flag base 1 ;;
      sr <- rd16 (I2C_I2SR base) ;;
      err <- i2c_check_and_clear_error base sr ;;
      if truthy err then i2c_master_stop base ;; ret (inr (err, len))
      else if 0 <? len then ret (inl len) else ret (inr (err, len))) len.

Definition set_len (x : i2c_transfer) (l : Z) : i2c_transfer :=
  {| slave_addr := x.(slave_addr); dir := x.(dir); reg_addr := x.(reg_addr);
     reg_addr_len := l; data := x.(data); data_len := x.(data_len) |}.
Definition set_data (x : i2c_transfer) (d : list Z) : i2c_transfer :=
  {| slave_addr := x.(slave_addr); dir := x.(dir); reg_addr := x.(reg_addr);
     reg_addr_len := x.(reg_addr_len); data := d; data_len := x.(data_len) |}.

(** Lines 276 to 286: the data phase. *)
Definition transfer_data (base : Z) (xfer : i2c_transfer) : M (Z * i2c_transfer) :=
  if (0 <? xfer.(data_len)) then
    match xfer.(dir) with
    | I2C_WRITE =>
        i2c_master_write base xfer.(data) xfer.(data_len) ;;
        ret (I2C_STATUS_OK, xfer)
    | I2C_READ =>
        d <- i2c_master_read base xfer.(data) xfer.(data_len) ;;
        ret (I2C_STATUS_OK, set_data xfer d)
    end
  else ret (I2C_STATUS_OK, xfer).

(** Lines 260 to 273: turn the bus around for a read. *)
Definition turn_to_read (base : Z) (xfer : i2c_transfer) : M Z :=
  clr16 (I2C_I2SR base) (1 << 1) ;;
  i2c_master_repeated_start base xfer.(slave_addr) I2C_READ ;;
  wait_flag base 1 ;;
  sr <- rd16 (I2C_I2SR base) ;;
  err <- i2c_check_and_clear_error base sr ;;
  if truthy err then i2c_master_stop base ;; ret I2C_STATUS_ADDR_NAK
  else ret I2C_STATUS_OK.

(** The call's result and the structure as it leaves it. *)
Definition i2c_master_transfer (base : Z) (xfer : i2c_transfer) : M (Z * i2c_transfer) :=
  clr16 (I2C_I2SR base) ((1 << 1) .| (1 << 4)) ;;
  poll16 (I2C_I2SR base) (fun v => truthy ((v >> 7) .& 0x1)) ;;
  let d := if (0 <? xfer.(reg_addr_len)) && bool_decide (xfer.(dir) = I2C_READ)
           then I2C_WRITE else xfer.(dir) in
  err <- i2c_master_start base xfer.(slave_addr) d ;;
  if truthy err then ret (err, xfer)
  else
    wait_flag base 1 ;;
    sr <- rd16 (I2C_I2SR base) ;;
    err <- i2c_check_and_clear_error base sr ;;
    if truthy err then i2c_master_stop base ;; ret (err, xfer)
    else if truthy xfer.(reg_addr_len) then
      unpack (err, len) <- send_reg_addr base xfer.(reg_addr) xfer.(reg_addr_len) ;;
      let xfer := set_len xfer len in
      if truthy err then ret (err, xfer)
      else
        err <- (match xfer.(dir) with
                | I2C_READ => turn_to_read base xfer
                | I2C_WRITE => ret I2C_STATUS_OK
                end) ;;
        if truthy err then ret (err, xfer) else transfer_data base xfer
    else transfer_data base xfer.
End Operations.

(** ** Stopping *)

(** The polls [i2c_master_stop] may make. *)
Lemma runs_i2c_stop `{Device} base n s (Q : Z -> fw -> Prop) :
  0xffff < Z.of_nat n ->
  (forall l r cr, Forall (is_read (I2C_I2SR base)) l -> 1 <= Z.of_nat (length l) <= 0xffff ->
     r = I2C_STATUS_OK /\ (exists v l', l = Rd (I2C_I2SR base) v :: l' /\ Z.testbit v 5 = false) \/
     r = I2C_STATUS_TIMEOUT /\ Z.of_nat (length l) = 0xffff /\
       Forall (fun e => exists v, e = Rd (I2C_I2SR base) v /\ Z.testbit v 5 = true) l ->
     cr = u16 (u16 (dev_read (tr s) (I2C_I2CR base)) .\ ((1 << 5) .| (1 << 4) .| (1 << 3))) ->
     Q r (Fw (l ++ Wr (I2C_I2CR base) cr ::
              Rd (I2C_I2CR base) (u16 (dev_read (tr s) (I2C_I2CR base))) :: tr s) (gl s))) ->
  runs (i2c_master_stop base) n s Q.
Proof.
  intros Hn HQ. unfold i2c_master_stop. do 4 fw_step. fw_step.
  match goal with |- runs _ _ (Fw ?t _) _ => set (t0 := t) end.
  apply (runs_iter (fun j x s' => gl s' = gl s /\ j = Z.to_nat x /\ 1 <= x <= 0xffff /\
    exists l, tr s' = l ++ t0 /\ Z.of_nat (length l) = 0xffff - x /\
      Forall (fun e => exists v, e = Rd (I2C_I2SR base) v /\ Z.testbit v 5 = true) l)
    Q _ n (Z.to_nat 0xffff)); [|by repeat split; [..|exists []]|lia].
  intros j x [t g] (Hg & -> & Hx & l & Ht & Hl & Hf). simpl in Hg, Ht. subst g t.
  apply runs_bind. fw_step. set (v := u16 (dev_read (l ++ t0) (I2C_I2SR base))).
  rewrite truthy_land_bit by lia.
  assert (Forall (is_read (I2C_I2SR base)) l) as Hr
    by (eapply list.Forall_impl; [exact Hf|]; intros e (w & -> & _); by exists w).
  destruct (Z.testbit v 5) eqn:Hv.
  - rewrite u16_small by lia. destruct (Z.eqb_spec (x - 1) 0).
    + apply runs_ret. apply (HQ (Rd (I2C_I2SR base) v :: l)); [|cbn [length]; lia| |done].
      * constructor; [by exists v|done].
      * right. split; [done|]. split; [cbn [length]; lia|]. constructor; [by exists v|done].
    + apply runs_ret. exists (Z.to_nat (x - 1)). split; [lia|].
      repeat split; try lia. exists (Rd (I2C_I2SR base) v :: l). split; [done|].
      split; [cbn [length]; lia|]. constructor; [by exists v|done].
  - apply runs_ret. apply (HQ (Rd (I2C_I2SR base) v :: l)); [|cbn [length]; lia| |done].
    + constructor; [by exists v|done].
    + left. split; [done|]. by exists v, l.
Qed.

(** ** A bus with a slave that answers *)

(** The controller as the driver relies on it: its control register is storage,
    the bus is busy exactly while the controller is master, arbitration is never
    lost, and a byte in flight completes within [m] polls. *)
Class Bus `{Device} (base : Z) (m : nat) := {
  bus_cr : storage (I2C_I2CR base);
  bus_busy : forall t, Z.testbit (u16 (dev_read t (I2C_I2SR base))) 5 =
                       Z.testbit (regval t (I2C_I2CR base)) 5;
  bus_arb : forall t, Z.testbit (u16 (dev_read t (I2C_I2SR base))) 4 = false;
  bus_done : responsive m u16 (I2C_I2SR base) (fun v => truthy (v .& (1 << 1)));
  bus_icf : responsive m u16 (I2C_I2SR base) (fun v => truthy (v .& (1 << 7)))
}.

(** The slave acknowledges, or does not acknowledge, everything. *)
Definition acks `{Device} (base : Z) : Prop :=
  forall t, Z.testbit (u16 (dev_read t (I2C_I2SR base))) 0 = false.
Definition naks `{Device} (base : Z) : Prop :=
  forall t, Z.testbit (u16 (dev_read t (I2C_I2SR base))) 0 = true.

(** The register address as it is sent. *)
Fixpoint reg_words (reg : Z) (len : nat) : list Z :=
  match len with
  | O => []
  | S k => u16 (reg >> (8 * Z.of_nat k)) :: reg_words reg k
  end.

Lemma testbit_u16 z i : 0 <= i < 16 -> Z.testbit (u16 z) i = Z.testbit z i.
Proof. intros Hi. apply Z.mod_pow2_bits_low. lia. Qed.

Section Transfers.
Context `{Bus}.
Context (n : nat) (Hm : (m < n)%nat) (Hstop : 0xffff < Z.of_nat n).

Definition master (t : trace) : bool := Z.testbit (regval t (I2C_I2CR base)) 5.

(** What the data register has sent and received. *)
Definition sent (t : trace) : list Z := outs (I2C_I2DR base) t.
Definition received (t : trace) : list Z := ins (I2C_I2DR base) t.

(** [t'] differs from [t] in accesses to the status register only. *)
Definition quiet (t t' : trace) : Prop :=
  sent t' = sent t /\ received t' = received t /\ master t' = master t.

Lemma runs_wait_flag bit s (Q : unit -> fw -> Prop) :
  bit = 1 \/ bit = 7 ->
  (forall t, quiet (tr s) t -> Q tt (Fw t (gl s))) -> runs (wait_flag base bit) n s Q.
Proof.
  intros Hbit HQ. unfold wait_flag. apply (runs_poll16 _ _ m); [|done|].
  - destruct Hbit as [-> | ->]; [apply bus_done|apply bus_icf].
  - intros l v Hl _ _. apply HQ. unfold quiet, sent, received, master. io_simpl.
    by rewrite regval_rd, regval_app_rd by eauto with fwdb.
Qed.

Lemma runs_clr_sr k s (Q : unit -> fw -> Prop) :
  (forall t, quiet (tr s) t -> Q tt (Fw t (gl s))) -> runs (clr16 (I2C_I2SR base) k) n s Q.
Proof. intros HQ. fw_steps. apply HQ. unfold quiet, sent, received, master. io_simpl. reg_frame. Qed.

Lemma runs_rd_sr s (Q : Z -> fw -> Prop) :
  (forall v t, quiet (tr s) t -> v = u16 (dev_read (tr s) (I2C_I2SR base)) -> Q v (Fw t (gl s))) ->
  runs (rd16 (I2C_I2SR base)) n s Q.
Proof. intros HQ. fw_steps. apply HQ; [|done]. unfold quiet, sent, received, master. io_simpl. reg_frame. Qed.

Lemma check_no_error v s (Q : Z -> fw -> Prop) :
  Z.testbit v 4 = false -> Z.testbit v 0 = false -> Q I2C_STATUS_OK s ->
  runs (i2c_check_and_clear_error base v) n s Q.
Proof.
  intros Hb4 Hb0 HQ. unfold i2c_check_and_clear_error. rewrite !truthy_land_bit by lia.
  rewrite Hb4, Hb0. by apply runs_ret.
Qed.

Lemma check_nak v s (Q : Z -> fw -> Prop) :
  Z.testbit v 4 = false -> Z.testbit v 0 = true -> Q I2C_STATUS_NAK s ->
  runs (i2c_check_and_clear_error base v) n s Q.
Proof.
  intros Hb4 Hb0 HQ. unfold i2c_check_and_clear_error. rewrite !truthy_land_bit by lia.
  rewrite Hb4, Hb0. by apply runs_ret.
Qed.

Lemma quiet_trans t1 t2 t3 : quiet t1 t2 -> quiet t2 t3 -> quiet t1 t3.
Proof. unfold quiet. intuition congruence. Qed.

(** Updates of the control register that keep the controller master. *)
Lemma cr_set_master k t :
  Z.testbit (u16 (u16 (regval t (I2C_I2CR base)) .| k)) 5 = master t || Z.testbit k 5.
Proof. unfold master. by rewrite testbit_u16, Z.lor_spec, testbit_u16 by lia. Qed.

Lemma runs_set_cr k s (Q : unit -> fw -> Prop) :
  (forall t, sent t = sent (tr s) -> received t = received (tr s) ->
     master t = master (tr s) || Z.testbit k 5 -> Q tt (Fw t (gl s))) ->
  runs (set16 (I2C_I2CR base) k) n s Q.
Proof.
  intros HQ. pose proof bus_cr as Hc. fw_steps. apply HQ; unfold sent, received; io_simpl; try done.
  unfold master at 1. rewrite regval_wr_eq, testbit_u32 by lia. rewrite Hc. apply cr_set_master.
Qed.

Lemma runs_clr_cr k s (Q : unit -> fw -> Prop) :
  (forall t, sent t = sent (tr s) -> received t = received (tr s) ->
     master t = master (tr s) && negb (Z.testbit k 5) -> Q tt (Fw t (gl s))) ->
  runs (clr16 (I2C_I2CR base) k) n s Q.
Proof.
  intros HQ. pose proof bus_cr as Hc. fw_steps. apply HQ; unfold sent, received; io_simpl; try done.
  unfold master. rewrite regval_wr_eq, testbit_u32 by lia. rewrite Hc.
  by rewrite testbit_u16, Z.ldiff_spec, testbit_u16 by lia.
Qed.

Lemma runs_wr_dr v s (Q : unit -> fw -> Prop) :
  (forall t, sent t = sent (tr s) ++ [u16 v] -> received t = received (tr s) ->
     master t = master (tr s) -> Q tt (Fw t (gl s))) ->
  runs (wr16 (I2C_I2DR base) v) n s Q.
Proof.
  intros HQ. fw_steps. apply HQ; unfold sent, received, master; io_simpl; try done. reg_frame.
Qed.

Lemma runs_rd_dr s (Q : Z -> fw -> Prop) :
  (forall v t, sent t = sent (tr s) -> received t = received (tr s) ++ [v] ->
     master t = master (tr s) -> Q v (Fw t (gl s))) ->
  runs (rd16 (I2C_I2DR base)) n s Q.
Proof. intros HQ. fw_steps. apply HQ; unfold sent, received, master; io_simpl; done. Qed.

Lemma runs_bus_stop s (Q : Z -> fw -> Prop) :
  (forall t, sent t = sent (tr s) -> received t = received (tr s) -> master t = false ->
     Q I2C_STATUS_OK (Fw t (gl s))) ->
  runs (i2c_master_stop base) n s Q.
Proof.
  intros HQ. unfold i2c_master_stop. apply runs_bind, runs_clr_cr. intros t Hs Hr Hma.
  change (Z.testbit (1 << 5 .| 1 << 4 .| 1 << 3) 5) with true in Hma. rewrite andb_false_r in Hma.
  destruct n as [|n']; [lia|]. unfold runs, iter. cbn [iter_n]. unfold bind, rd16, ret. cbn [tr gl].
  rewrite truthy_land_bit, bus_busy by lia. fold (master t). rewrite Hma. apply HQ.
  - unfold sent. io_simpl. exact Hs.
  - unfold received. io_simpl. exact Hr.
  - unfold master. by rewrite regval_rd.
Qed.
(** Start conditions. *)
Lemma runs_bus_start addr d s (Q : Z -> fw -> Prop) :
  master (tr s) = false ->
  (forall t, sent t = sent (tr s) ++ [u16 (addr_byte addr d)] -> received t = received (tr s) ->
     master t = true -> Q I2C_STATUS_OK (Fw t (gl s))) ->
  runs (i2c_master_start base addr d) n s Q.
Proof.
  intros Hma HQ. unfold i2c_master_start. apply runs_bind, runs_rd_sr.
  intros v t1 (Hs1 & Hr1 & Hm1) ->. rewrite truthy_land_bit, bus_busy by lia.
  fold (master (tr s)). rewrite Hma. apply runs_bind, runs_set_cr. cbn [tr gl].
  intros t2 Hs2 Hr2 Hm2. apply runs_bind, runs_wr_dr. cbn [tr gl]. intros t3 Hs3 Hr3 Hm3.
  apply runs_ret. apply HQ; [congruence|congruence|]. rewrite Hm3, Hm2. by rewrite orb_true_r.
Qed.

Lemma runs_bus_restart addr d s (Q : Z -> fw -> Prop) :
  master (tr s) = true ->
  (forall t, sent t = sent (tr s) ++ [u16 (addr_byte addr d)] -> received t = received (tr s) ->
     master t = true -> Q I2C_STATUS_OK (Fw t (gl s))) ->
  runs (i2c_master_repeated_start base addr d) n s Q.
Proof.
  intros Hma HQ. unfold i2c_master_repeated_start. apply runs_bind, runs_rd_sr.
  intros v t1 (Hs1 & Hr1 & Hm1) ->. rewrite truthy_land_bit, bus_busy by lia.
  fold (master (tr s)). rewrite Hma. apply runs_bind, runs_bind. fw_step. apply runs_ret.
  assert ((u16 (dev_read t1 (I2C_I2CR base)) .& (1 << 5) =? 0) = false) as ->.
  { pose proof bus_cr as Hc. rewrite Hc. rewrite <- (negb_involutive (_ =? 0)).
    change (negb (?x =? 0)) with (truthy x).
    fold (truthy (u16 (regval t1 (I2C_I2CR base)) .& (1 << 5))).
    rewrite truthy_land_bit, testbit_u16 by lia. fold (master t1). by rewrite Hm1, Hma. }
  apply runs_bind, runs_set_cr. cbn [tr gl]. unfold sent at 2, received at 2, master at 2. io_simpl.
  rewrite regval_rd. fold (sent t1) (received t1) (master t1).
  intros t2 Hs2 Hr2 Hm2. apply runs_bind, runs_wr_dr. cbn [tr gl]. intros t3 Hs3 Hr3 Hm3.
  apply runs_ret. apply HQ; [congruence|congruence|]. by rewrite Hm3, Hm2, Hm1, Hma.
Qed.

(** Reading needs no acknowledgement of the slave. *)
Lemma runs_read_step ds x todo rest s (Q : list Z -> fw -> Prop) :
  (forall v t, sent t = sent (tr s) -> received t = received (tr s) ++ [v] ->
     (todo = [] -> master t = false) -> Q ((u8 <$> ds ++ [v]) ++ todo ++ rest) (Fw t (gl s))) ->
  runs (read_step base ((u8 <$> ds) ++ (x :: todo) ++ rest) (length ds)
          (Z.of_nat (length todo))) n s Q.
Proof.
  intros HQ. unfold read_step.
  apply runs_bind, runs_wait_flag; [by left|]. intros t1 (Hs1 & Hr1 & Hm1).
  apply runs_bind, runs_clr_sr. cbn [tr gl]. intros t2 (Hs2 & Hr2 & Hm2). apply runs_bind.
  eapply (runs_mono _ _ _ (fun _ s' => gl s' = gl s /\ sent (tr s') = sent (tr s) /\
    received (tr s') = received (tr s) /\ (todo = [] -> master (tr s') = false))).
  { destruct (Z.eqb_spec (Z.of_nat (length todo)) 0) as [E|E].
    - apply runs_bind, runs_bus_stop. cbn [tr gl]. intros t3 Hs3 Hr3 Hm3. apply runs_ret.
      repeat split; cbn [tr]; congruence.
    - apply runs_ret. repeat split; cbn [tr]; try congruence. intros ->. done. }
  intros [] [t3 g] (Hg & Hs3 & Hr3 & Hm3). simpl in Hg, Hs3, Hr3, Hm3. subst g. apply runs_bind.
  eapply (runs_mono _ _ _ (fun _ s' => gl s' = gl s /\ sent (tr s') = sent (tr s) /\
    received (tr s') = received (tr s) /\ (todo = [] -> master (tr s') = false))).
  { destruct (Z.eqb_spec (Z.of_nat (length todo)) 1) as [E|E]; [|by apply runs_ret].
    apply runs_set_cr. cbn [tr gl]. intros t4 Hs4 Hr4 Hm4. repeat split; cbn [tr]; try congruence.
    intros ->. done. }
  intros [] [t4 g] (Hg & Hs4 & Hr4 & Hm4). simpl in Hg, Hs4, Hr4, Hm4. subst g.
  apply runs_bind, runs_rd_dr. cbn [tr gl]. intros v t' Hs' Hr' Hm'.
  rewrite !length_app, length_fmap. cbn [length].
  destruct (Nat.ltb_spec (length ds) (length ds + (S (length todo) + length rest))); [|lia].
  apply runs_ret. change ((x :: todo) ++ rest) with (x :: todo ++ rest).
  rewrite <- (length_fmap u8 ds). rewrite (insert_middle (u8 <$> ds) x).
  replace ((u8 <$> ds) ++ u8 v :: todo ++ rest) with ((u8 <$> ds ++ [v]) ++ todo ++ rest)
    by by rewrite fmap_app, <- app_assoc.
  apply HQ; [congruence|congruence|]. intros E. rewrite Hm'. auto.
Qed.

(** The loop of [i2c_master_read] after [ds] were received, [todo] to come. *)
Definition reading (old rest : list Z) (dummy : Z) (s0 : fw) (j : nat)
    (x : list Z * nat * Z) (s : fw) : Prop :=
  exists ds todo, length old = (length ds + length todo)%nat /\ j = length todo /\
    x = ((u8 <$> ds) ++ todo ++ rest, length ds, Z.of_nat (length todo)) /\ gl s = gl s0 /\
    sent (tr s) = sent (tr s0) /\ received (tr s) = received (tr s0) ++ dummy :: ds /\
    (todo = [] -> master (tr s) = false).

Lemma runs_bus_read old rest s (Q : list Z -> fw -> Prop) :
  Z.of_nat (length old) < 2 ^ 32 -> (1 <= length old < n)%nat ->
  (forall ds dummy t, length ds = length old -> sent t = sent (tr s) ->
     received t = received (tr s) ++ dummy :: ds -> master t = false ->
     Q ((u8 <$> ds) ++ rest) (Fw t (gl s))) ->
  runs (i2c_master_read base (old ++ rest) (Z.of_nat (length old))) n s Q.
Proof.
  intros H32 Hlen HQ. unfold i2c_master_read.
  apply runs_bind, runs_wait_flag; [by right|]. intros t1 (Hs1 & Hr1 & Hm1).
  apply runs_bind, runs_clr_sr. cbn [tr gl]. intros t2 (Hs2 & Hr2 & Hm2).
  apply runs_bind, runs_clr_cr. cbn [tr gl]. intros t3 Hs3 Hr3 _. apply runs_bind.
  eapply (runs_mono _ _ _ (fun _ s' => gl s' = gl s /\ sent (tr s') = sent (tr s) /\
    received (tr s') = received (tr s))).
  { destruct (Z.of_nat (length old) =? 1).
    - apply runs_set_cr. cbn [tr gl]. intros t4 Hs4 Hr4 _. repeat split; cbn [tr]; congruence.
    - apply runs_ret. repeat split; cbn [tr]; congruence. }
  intros [] [t4 g] (Hg & Hs4 & Hr4). simpl in Hg, Hs4, Hr4. subst g.
  apply runs_bind, runs_rd_dr. cbn [tr gl]. intros dummy t5 Hs5 Hr5 _.
  apply (runs_iter (reading old rest dummy s) _ _ n (length old)); [| |lia].
  2: { exists [], old. repeat split; cbn [tr]; [congruence|congruence|].
       intros ->. simpl in Hlen. lia. }
  intros j x [t g] (ds & todo & Hl & -> & -> & Hg & Hs & Hr & Hma).
  simpl in Hg, Hs, Hr, Hma. subst g. destruct todo as [|x todo].
  { simpl. apply runs_ret. apply (HQ ds dummy); auto. simpl in Hl. lia. }
  destruct (truthy (Z.of_nat (length (x :: todo)))) eqn:Et;
    [|apply truthy_false in Et; simpl in Et; lia].
  replace (u32 (Z.of_nat (length (x :: todo)) - 1)) with (Z.of_nat (length todo))
    by (simpl length in *; rewrite u32_small; lia). cbv zeta.
  apply runs_bind, runs_read_step. cbn [tr gl]. intros v t' Hs' Hr' Hm'. apply runs_ret.
  exists (length todo). split; [simpl; lia|]. exists (ds ++ [v]), todo.
  rewrite length_app. cbn [length] in *. repeat split; try lia; cbn [tr]; try done.
  - by rewrite Nat.add_1_r.
  - congruence.
  - rewrite Hr', Hr, <- app_assoc. done.
Qed.

Section Acked.
Context (Hack : acks base).

(** Status read and check, then the rest. *)
Lemma runs_checked {A} (k : Z -> M A) s (Q : A -> fw -> Prop) :
  (forall t, quiet (tr s) t -> runs (k I2C_STATUS_OK) n (Fw t (gl s)) Q) ->
  runs (sr <- rd16 (I2C_I2SR base) ;; err <- i2c_check_and_clear_error base sr ;; k err) n s Q.
Proof.
  intros HQ. apply runs_bind, runs_rd_sr. intros v t Ht ->. apply runs_bind.
  apply check_no_error; [apply bus_arb|apply Hack|by apply HQ].
Qed.

Lemma runs_send_reg reg len s (Q : Z * Z -> fw -> Prop) :
  (1 <= len <= 4)%nat ->
  (forall t, sent t = sent (tr s) ++ reg_words reg len -> received t = received (tr s) ->
     master t = master (tr s) -> Q (I2C_STATUS_OK, 0) (Fw t (gl s))) ->
  runs (send_reg_addr base reg (Z.of_nat len)) n s Q.
Proof.
  intros Hlen HQ. unfold send_reg_addr.
  apply (runs_iter (fun j x s' => x = Z.of_nat j /\ (1 <= j <= 4)%nat /\ gl s' = gl s /\
    sent (tr s') ++ reg_words reg j = sent (tr s) ++ reg_words reg len /\
    received (tr s') = received (tr s) /\ master (tr s') = master (tr s)) Q _ n len);
    [|done|lia].
  intros j x [t g] (-> & Hj & Hg & Hs & Hr & Hma). simpl in Hg, Hs, Hr, Hma. subst g.
  destruct j as [|j]; [lia|].
  apply runs_bind, runs_clr_sr. cbn [tr gl]. intros t1 (Hs1 & Hr1 & Hm1).
  replace (u8 (Z.of_nat (S j) - 1)) with (Z.of_nat j) by (rewrite u8_small; lia). cbv zeta.
  destruct (Z.leb_spec 4 (Z.of_nat j)); [lia|].
  apply runs_bind, runs_wr_dr. cbn [tr gl]. intros t2 Hs2 Hr2 Hm2.
  apply runs_bind, runs_wait_flag; [by left|]. cbn [tr gl]. intros t3 (Hs3 & Hr3 & Hm3).
  apply runs_checked. cbn [tr gl]. intros t4 (Hs4 & Hr4 & Hm4). cbn [truthy I2C_STATUS_OK negb Z.eqb].
  assert (sent t4 ++ reg_words reg j = sent (tr s) ++ reg_words reg len) as Hsent.
  { rewrite Hs4, Hs3, Hs2, Hs1, <- Hs, <- app_assoc. done. }
  destruct (Z.ltb_spec 0 (Z.of_nat j)); apply runs_ret.
  - exists j. split; [lia|]. repeat split; try (done || lia); cbn [tr]; congruence.
  - replace j with O in * by lia. rewrite app_nil_r in Hsent. apply HQ; congruence.
Qed.

Lemma runs_bus_write buf rest s (Q : unit -> fw -> Prop) :
  Z.of_nat (length buf) < 2 ^ 32 -> (length buf < n)%nat ->
  (forall t, sent t = sent (tr s) ++ (u16 <$> buf) -> received t = received (tr s) ->
     master t = false -> Q tt (Fw t (gl s))) ->
  runs (i2c_master_write base (buf ++ rest) (Z.of_nat (length buf))) n s Q.
Proof.
  intros H32 Hlen HQ. unfold i2c_master_write.
  apply runs_bind, runs_wait_flag; [by right|]. intros t1 (Hs1 & Hr1 & Hm1).
  apply runs_bind, runs_clr_sr. cbn [tr gl]. intros t2 (Hs2 & Hr2 & Hm2).
  apply runs_bind, runs_set_cr. cbn [tr gl]. intros t3 Hs3 Hr3 _.
  apply runs_bind.
  apply (runs_iter (fun j x s' => exists d todo, buf = d ++ todo /\ j = length todo /\
    x = (todo ++ rest, Z.of_nat (length todo)) /\ gl s' = gl s /\
    sent (tr s') = sent (tr s) ++ (u16 <$> d) /\ received (tr s') = received (tr s))
    _ _ n (length buf)).
  2: { exists [], buf. repeat split; cbn [tr]; [|congruence]. rewrite app_nil_r. congruence. }
  2: { done. }
  intros j x [t g] (d & todo & Hd & -> & -> & Hg & Hs & Hr). simpl in Hg, Hs, Hr. subst g.
  destruct todo as [|b todo].
  - simpl. apply runs_ret. apply runs_bind, runs_clr_sr. cbn [tr gl]. intros t4 (Hs4 & Hr4 & Hm4).
    apply runs_bind, runs_bus_stop. cbn [tr gl]. intros t5 Hs5 Hr5 Hm5. apply runs_ret.
    apply HQ; [|congruence|done]. rewrite Hd, app_nil_r. congruence.
  - destruct (truthy (Z.of_nat (length (b :: todo)))) eqn:Et;
      [|apply truthy_false in Et; simpl in Et; lia].
    apply runs_bind, runs_wr_dr. cbn [tr gl]. intros t4 Hs4 Hr4 Hm4.
    apply runs_bind, runs_wait_flag; [by left|]. cbn [tr gl]. intros t5 (Hs5 & Hr5 & Hm5).
    apply runs_bind, runs_clr_sr. cbn [tr gl]. intros t6 (Hs6 & Hr6 & Hm6).
    apply runs_checked. cbn [tr gl]. intros t7 (Hs7 & Hr7 & Hm7).
    cbn [truthy I2C_STATUS_OK negb Z.eqb]. apply runs_ret. exists (length todo).
    split; [simpl; lia|]. exists (d ++ [b]), todo. rewrite <- app_assoc.
    split; [done|]. split; [done|]. split.
    { f_equal. simpl length. rewrite Hd, length_app in H32. simpl length in H32.
      rewrite u32_small; lia. }
    split; [done|]. cbn [tr]. split; [|congruence].
    rewrite Hs7, Hs6, Hs5, Hs4, Hs, fmap_app, <- app_assoc. done.
Qed.

(** The opening of a transfer, up to the acknowledged address. *)
Lemma runs_wait_icf s (Q : unit -> fw -> Prop) :
  (forall t, quiet (tr s) t -> Q tt (Fw t (gl s))) ->
  runs (poll16 (I2C_I2SR base) (fun v => truthy ((v >> 7) .& 0x1))) n s Q.
Proof.
  intros HQ. apply (runs_poll16 _ _ m); [|done|].
  - eapply shows_ext; [|apply bus_icf]. intros v. simpl. rewrite truthy_land_bit by lia.
    change ((v >> 7) .& 1) with (field v 7 1). rewrite field_1 by lia. by destruct (Z.testbit v 7).
  - intros l v Hl _ _. apply HQ. unfold quiet, sent, received, master. io_simpl.
    by rewrite regval_rd, regval_app_rd by eauto with fwdb.
Qed.

Lemma runs_turn x s (Q : Z -> fw -> Prop) :
  master (tr s) = true ->
  (forall t, sent t = sent (tr s) ++ [u16 (addr_byte (slave_addr x) I2C_READ)] ->
     received t = received (tr s) -> master t = true -> Q I2C_STATUS_OK (Fw t (gl s))) ->
  runs (turn_to_read base x) n s Q.
Proof.
  intros Hma HQ. unfold turn_to_read. apply runs_bind, runs_clr_sr. intros t1 (Hs1 & Hr1 & Hm1).
  apply runs_bind, runs_bus_restart; [cbn [tr]; congruence|]. cbn [tr gl]. intros t2 Hs2 Hr2 Hm2.
  apply runs_bind, runs_wait_flag; [by left|]. cbn [tr gl]. intros t3 (Hs3 & Hr3 & Hm3).
  apply runs_checked. cbn [tr gl]. intros t4 (Hs4 & Hr4 & Hm4). apply runs_ret.
  apply HQ; congruence.
Qed.

(** The bytes a transfer puts on the bus before its data. *)
Definition header (x : i2c_transfer) : list Z :=
  let a := slave_addr x in
  match Z.to_nat (reg_addr_len x), dir x with
  | O, d => [u16 (addr_byte a d)]
  | len, I2C_WRITE => u16 (addr_byte a I2C_WRITE) :: reg_words (reg_addr x) len
  | len, I2C_READ =>
      u16 (addr_byte a I2C_WRITE) :: reg_words (reg_addr x) len ++ [u16 (addr_byte a I2C_READ)]
  end.

Lemma runs_transfer_header x s (Q : Z * i2c_transfer -> fw -> Prop) :
  master (tr s) = false -> 0 <= reg_addr_len x <= 4 ->
  (forall x' t, sent t = sent (tr s) ++ header x -> received t = received (tr s) ->
     x' = set_len x 0 -> runs (transfer_data base x') n (Fw t (gl s)) Q) ->
  runs (i2c_master_transfer base x) n s Q.
Proof.
  intros Hma Hlen HQ. unfold i2c_master_transfer.
  apply runs_bind, runs_clr_sr. intros t1 (Hs1 & Hr1 & Hm1).
  apply runs_bind, runs_wait_icf. cbn [tr gl]. intros t2 (Hs2 & Hr2 & Hm2). cbv zeta.
  apply runs_bind, runs_bus_start; [cbn [tr]; congruence|]. cbn [tr gl]. intros t3 Hs3 Hr3 Hm3.
  change (truthy I2C_STATUS_OK) with false. cbv iota.
  apply runs_bind, runs_wait_flag; [by left|]. cbn [tr gl]. intros t4 (Hs4 & Hr4 & Hm4).
  apply runs_checked. cbn [tr gl]. intros t5 (Hs5 & Hr5 & Hm5).
  change (truthy I2C_STATUS_OK) with false. cbv iota.
  rewrite Hs3, Hs2, Hs1 in Hs4. rewrite Hs4 in Hs5. clear Hs1 Hs2 Hs3 Hs4.
  unfold header in HQ. destruct (truthy (reg_addr_len x)) eqn:Et.
  - apply truthy_true in Et. replace (0 <? reg_addr_len x) with true in Hs5 by (symmetry; apply Z.ltb_lt; lia).
    apply runs_bind. rewrite <- (Z2Nat.id (reg_addr_len x)) by lia.
    apply runs_send_reg; [lia|]. cbn [tr gl]. intros t6 Hs6 Hr6 Hm6. cbv zeta.
    change (truthy I2C_STATUS_OK) with false. cbv iota. cbn [dir set_len].
    destruct (Z.to_nat (reg_addr_len x)) as [|len] eqn:El; [lia|].
    apply runs_bind. destruct (dir x); simpl in Hs5.
    + apply runs_ret. change (truthy I2C_STATUS_OK) with false. cbv iota.
      apply HQ; [|congruence|done]. rewrite Hs6, Hs5, <- app_assoc. done.
    + apply runs_turn; [cbn [tr]; congruence|]. cbn [tr gl]. intros t7 Hs7 Hr7 _.
      change (truthy I2C_STATUS_OK) with false. cbv iota. cbn [slave_addr set_len] in Hs7.
      apply HQ; [|congruence|done]. rewrite Hs7, Hs6, Hs5, <- !app_assoc. done.
  - apply truthy_false in Et. rewrite Et in *. simpl in Hs5, HQ.
    apply HQ; [done|congruence|]. destruct x; simpl in *. by subst.
Qed.

Lemma runs_transfer_write x buf rest s (Q : Z * i2c_transfer -> fw -> Prop) :
  dir x = I2C_WRITE -> 0 <= reg_addr_len x <= 4 ->
  data x = buf ++ rest -> data_len x = Z.of_nat (length buf) -> 0 < data_len x < 2 ^ 32 ->
  master (tr s) = false -> (length buf < n)%nat ->
  (forall t, sent t = sent (tr s) ++ header x ++ (u16 <$> buf) -> received t = received (tr s) ->
     master t = false -> Q (I2C_STATUS_OK, set_len x 0) (Fw t (gl s))) ->
  runs (i2c_master_transfer base x) n s Q.
Proof.
  intros Hd Hl Hdata Hlen H32 Hma Hb HQ. apply runs_transfer_header; [done..|].
  intros x' t Hs Hr ->. unfold transfer_data. cbn [data_len dir data set_len].
  destruct (Z.ltb_spec 0 (data_len x)); [|lia]. rewrite Hd, Hdata, Hlen.
  apply runs_bind, runs_bus_write; [lia|done|]. cbn [tr gl].
  intros t' Hs' Hr' Hm'. apply runs_ret. apply HQ; [|congruence|done].
  by rewrite Hs', Hs, <- app_assoc.
Qed.

Lemma runs_transfer_read x old rest s (Q : Z * i2c_transfer -> fw -> Prop) :
  dir x = I2C_READ -> 0 <= reg_addr_len x <= 4 ->
  data x = old ++ rest -> data_len x = Z.of_nat (length old) -> 0 < data_len x < 2 ^ 32 ->
  master (tr s) = false -> (length old < n)%nat ->
  (forall dummy ds t, length ds = length old -> sent t = sent (tr s) ++ header x ->
     received t = received (tr s) ++ dummy :: ds -> master t = false ->
     Q (I2C_STATUS_OK, set_data (set_len x 0) ((u8 <$> ds) ++ rest)) (Fw t (gl s))) ->
  runs (i2c_master_transfer base x) n s Q.
Proof.
  intros Hd Hl Hdata Hlen H32 Hma Hb HQ. apply runs_transfer_header; [done..|].
  intros x' t Hs Hr ->. unfold transfer_data. cbn [data_len dir data set_len].
  destruct (Z.ltb_spec 0 (data_len x)); [|lia]. rewrite Hd, Hdata, Hlen.
  apply runs_bind, runs_bus_read; [lia|lia|]. cbn [tr gl].
  intros ds dummy t' Hds Hs' Hr' Hm'. apply runs_ret. apply (HQ dummy ds); congruence.
Qed.
End Acked.
End Transfers.

(** A controller on I2C1 that completes every byte at once; the slave's answer
    to every byte is given. *)
Definition i2c_device (nak : bool) : Device :=
  sim_device (fun _ => 0) (fun a =>
    if a =? I2C_I2SR I2C1 then Some (fun t =>
      (if Z.testbit (regval_from (fun _ => 0) t (I2C_I2CR I2C1)) 5 then 0xA2 else 0x82) + Z.b2z nak)
    else None).

Lemma i2c_device_sr nak t :
  @dev_read (i2c_device nak) t (I2C_I2SR I2C1) =
    (if Z.testbit (@regval (i2c_device nak) t (I2C_I2CR I2C1)) 5 then 0xA2 else 0x82) + Z.b2z nak.
Proof. reflexivity. Qed.

Global Instance i2c_device_bus nak : @Bus (i2c_device nak) I2C1 0.
Proof.
  refine (@Build_Bus (i2c_device nak) I2C1 0 _ _ _ _ _).
  - by apply storage_sim.
  - intros t. rewrite i2c_device_sr. by destruct (Z.testbit (regval t _) 5), nak.
  - intros t. rewrite i2c_device_sr. by destruct (Z.testbit (regval t _) 5), nak.
  - intros t. left. rewrite i2c_device_sr. by destruct (Z.testbit (regval t _) 5), nak.
  - intros t. left. rewrite i2c_device_sr. by destruct (Z.testbit (regval t _) 5), nak.
Defined.

(** ** Properties *)

(** for every behaviour of the bus, [i2c_master_stop] returns after at most
    65535 polls of the status register; it reports success exactly when the
    last poll saw the bus idle, and a timeout when all 65535 saw it busy. *)
Theorem i2c_stop_bounded `{Device} base n s :
  0xffff < Z.of_nat n ->
  runs (i2c_master_stop base) n s (fun r s' => gl s' = gl s /\ exists l t,
    tr s' = l ++ t /\ Forall (is_read (I2C_I2SR base)) l /\ 1 <= Z.of_nat (length l) <= 0xffff /\
    (r = I2C_STATUS_OK /\ (exists v l', l = Rd (I2C_I2SR base) v :: l' /\ Z.testbit v 5 = false) \/
     r = I2C_STATUS_TIMEOUT /\ Z.of_nat (length l) = 0xffff /\
       Forall (fun e => exists v, e = Rd (I2C_I2SR base) v /\ Z.testbit v 5 = true) l)).
Proof.
  intros Hn. apply runs_i2c_stop; [done|]. intros l r cr Hl Hlen Hr _. split; [done|].
  cbn [tr]. by eexists l, _.
Qed.

Lemma i2c_stop_bounded_witness :
  runs (@i2c_master_stop reg_device I2C1) (Z.to_nat 65536) fw0 (fun r s' => gl s' = gl fw0 /\ exists l t,
    tr s' = l ++ t /\ Forall (is_read (I2C_I2SR I2C1)) l /\ 1 <= Z.of_nat (length l) <= 0xffff /\
    (r = I2C_STATUS_OK /\ (exists v l', l = Rd (I2C_I2SR I2C1) v :: l' /\ Z.testbit v 5 = false) \/
     r = I2C_STATUS_TIMEOUT /\ Z.of_nat (length l) = 0xffff /\
       Forall (fun e => exists v, e = Rd (I2C_I2SR I2C1) v /\ Z.testbit v 5 = true) l)).
Proof. apply (@i2c_stop_bounded reg_device). lia. Defined.

(** a write transfer on an idle bus to a slave that acknowledges returns
    success and sends exactly the address byte with the write bit, the register
    address most significant byte first, and the [data_len] bytes of the
    buffer; the controller gives up the bus, and the structure comes back with
    its register length at zero. *)
Theorem i2c_write_transfer `{Bus} x buf rest n s :
  acks base -> dir x = I2C_WRITE -> 0 <= reg_addr_len x <= 4 ->
  data x = buf ++ rest -> data_len x = Z.of_nat (length buf) -> 0 < data_len x < 2 ^ 32 ->
  @master _ base (tr s) = false -> (m < n)%nat -> 0xffff < Z.of_nat n -> (length buf < n)%nat ->
  runs (i2c_master_transfer base x) n s (fun '(err, x') s' =>
    err = I2C_STATUS_OK /\ x' = set_len x 0 /\ gl s' = gl s /\
    sent (base := base) (tr s') = sent (base := base) (tr s) ++ header x ++ (u16 <$> buf) /\
    @master _ base (tr s') = false).
Proof.
  intros Ha Hd Hl Hdata Hlen H32 Hma Hm Hn Hb.
  apply (runs_transfer_write (m := m) n Hm Hn Ha x buf rest); try done.
Qed.

Definition write_xfer : i2c_transfer :=
  {| slave_addr := 0x14; dir := I2C_WRITE; reg_addr := 0x8047; reg_addr_len := 2;
     data := [0x41; 0xe0; 0x01]; data_len := 2 |}.

Lemma i2c_write_transfer_witness :
  runs (@i2c_master_transfer (i2c_device false) I2C1 write_xfer) (Z.to_nat 65536) fw0
    (fun '(err, x') s' =>
    err = I2C_STATUS_OK /\ x' = set_len write_xfer 0 /\ gl s' = gl fw0 /\
    sent (base := I2C1) (tr s') =
      sent (base := I2C1) (tr fw0) ++ header write_xfer ++ (u16 <$> [0x41; 0xe0]) /\
    @master (i2c_device false) I2C1 (tr s') = false).
Proof.
  apply (@i2c_write_transfer (i2c_device false) I2C1 0 (i2c_device_bus false) write_xfer
    [0x41; 0xe0] [0x01]); try reflexivity; try (cbn; lia).
  intros t. rewrite i2c_device_sr. destruct (Z.testbit (regval t _) 5); reflexivity.
Defined.


Definition read_xfer : i2c_transfer :=
  {| slave_addr := 0x1E; dir := I2C_READ; reg_addr := 0x0A; reg_addr_len := 1;
     data := [0; 0; 9]; data_len := 2 |}.


(** when no slave acknowledges the address, a transfer on an idle bus
    returns [I2C_STATUS_NAK] with the structure unchanged, after sending the
    address byte and nothing else, and gives up the bus; when another master
    holds the bus, it returns [I2C_STATUS_BUSY] and sends nothing. *)
Theorem i2c_transfer_refused `{Bus} x n s :
  (m < n)%nat -> 0xffff < Z.of_nat n ->
  let d := if (0 <? reg_addr_len x) && bool_decide (dir x = I2C_READ) then I2C_WRITE else dir x in
  (naks base -> @master _ base (tr s) = false ->
   runs (i2c_master_transfer base x) n s (fun '(err, x') s' =>
     err = I2C_STATUS_NAK /\ x' = x /\ gl s' = gl s /\ @master _ base (tr s') = false /\
     sent (base := base) (tr s') =
       sent (base := base) (tr s) ++ [u16 (addr_byte (slave_addr x) d)])) /\
  (@master _ base (tr s) = true ->
   runs (i2c_master_transfer base x) n s (fun '(err, x') s' =>
     err = I2C_STATUS_BUSY /\ x' = x /\ gl s' = gl s /\
     sent (base := base) (tr s') = sent (base := base) (tr s))).
Proof.
  intros Hm Hn d. split.
  - intros Hnak Hma. unfold i2c_master_transfer.
    apply runs_bind, (runs_clr_sr (m := m)); try done. intros t1 (Hs1 & Hr1 & Hm1).
    apply runs_bind, runs_wait_icf; try done. cbn [tr gl]. intros t2 (Hs2 & Hr2 & Hm2). cbv zeta. fold d.
    apply runs_bind, runs_bus_start; try done; [cbn [tr]; congruence|]. cbn [tr gl]. intros t3 Hs3 Hr3 Hm3.
    change (truthy I2C_STATUS_OK) with false. cbv iota.
    apply runs_bind, runs_wait_flag; try done; [by left|]. cbn [tr gl]. intros t4 (Hs4 & Hr4 & Hm4).
    apply runs_bind, (runs_rd_sr (m := m)); try done. cbn [tr gl]. intros v t5 (Hs5 & Hr5 & Hm5) ->.
    apply runs_bind, (check_nak (m := m)); try done; [apply bus_arb|].
    change (truthy I2C_STATUS_NAK) with true. cbv iota.
    apply runs_bind, runs_bus_stop; try done. cbn [tr gl]. intros t6 Hs6 Hr6 Hm6. apply runs_ret.
    repeat split; try done. cbn [tr]. congruence.
  - intros Hma. unfold i2c_master_transfer.
    apply runs_bind, (runs_clr_sr (m := m)); try done. intros t1 (Hs1 & Hr1 & Hm1).
    apply runs_bind, runs_wait_icf; try done. cbn [tr gl]. intros t2 (Hs2 & Hr2 & Hm2). cbv zeta.
    apply runs_bind. unfold i2c_master_start. apply runs_bind, (runs_rd_sr (m := m)); try done. cbn [tr gl].
    intros v t3 (Hs3 & Hr3 & Hm3) ->. rewrite truthy_land_bit, bus_busy by lia.
    fold (master (base := base) t2). rewrite Hm2, Hm1, Hma. apply runs_ret.
    change (truthy I2C_STATUS_BUSY) with true. cbv iota. apply runs_ret.
    repeat split; try done. cbn [tr]. congruence.
Qed.

Lemma i2c_transfer_refused_witness :
  let d := if (0 <? reg_addr_len write_xfer) && bool_decide (dir write_xfer = I2C_READ)
           then I2C_WRITE else dir write_xfer in
  runs (@i2c_master_transfer (i2c_device true) I2C1 write_xfer) (Z.to_nat 65536) fw0
    (fun '(err, x') s' =>
     err = I2C_STATUS_NAK /\ x' = write_xfer /\ gl s' = gl fw0 /\
     @master (i2c_device true) I2C1 (tr s') = false /\
     sent (base := I2C1) (tr s') =
       sent (base := I2C1) (tr fw0) ++ [u16 (addr_byte (slave_addr write_xfer) d)]).
Proof.
  apply (@i2c_transfer_refused (i2c_device true) I2C1 0 (i2c_device_bus true) write_xfer);
    [cbn; lia|cbn; lia| |reflexivity].
  intros t. rewrite i2c_device_sr. destruct (Z.testbit (regval t _) 5); reflexivity.
Defined.

(** A slave on I2C1 that acknowledges its first [k] bytes only. *)
Definition short_slave (k : nat) : Device :=
  sim_device (fun _ => 0) (fun a =>
    if a =? I2C_I2SR I2C1 then Some (fun t =>
      (if Z.testbit (regval_from (fun _ => 0) t (I2C_I2CR I2C1)) 5 then 0xA2 else 0x82) +
      Z.b2z (k <? length (outs (I2C_I2DR I2C1) t))%nat)
    else None).

(** a slave that refuses a data byte of a write goes unnoticed: the
    transfer stops sending, and still returns success although the function is
    documented to return an error when the transfer fails. *)
Theorem i2c_data_nak_unreported :
  match @i2c_master_transfer (short_slave 3) I2C1 write_xfer 20%nat fw0 with
  | Ret (err, _) s' => err = I2C_STATUS_OK /\
      outs (I2C_I2DR I2C1) (tr s') = [0x28; 0x80; 0x8047; 0x41]
  | _ => False
  end.
Proof. vm_compute. split; reflexivity. Qed.
