(* ===== verification/Pwm.v ===== *)
(** Backlight: baremetal/20_pwm/bsp/pwm/pwm.c. *)
From S2P Require Import Prelude Machine FwLogic Regs Int.

Section Operations.
Context `{Device}.

Definition pwm1_set_sample (val : Z) : M unit := wr32 PWM1_PWMSAR (val .& 0xFFFF).

Definition pwm1_set_period (val : Z) : M unit :=
  let reg_val := if val <? 2 then 2 else u16 (val - 2) in
  wr32 PWM1_PWMPR (reg_val .& 0xFFFF).

Definition pwm1_set_duty (duty : Z) : M unit :=
  modify (upd_bl_duty duty) ;;
  pr <- rd32 PWM1_PWMPR ;;
  let period := u16 (u32 (pr + 2)) in
  d <- gets g_bl_duty ;;
  let sample := u16 (period * d / 100) in
  pwm1_set_sample sample.

Definition pwm1_enable : M unit := set32 PWM1_PWMCR (1 << 0).

Definition pwm1_irq_handler_body : M unit :=
  sr <- rd32 PWM1_PWMSR ;;
  when truthy (sr .& (1 << 3)) then
    (d <- gets g_bl_duty ;;
     pwm1_set_duty d ;;
     set32 PWM1_PWMSR (1 << 3)).

Definition backlight_init : M unit :=
  IOMUXC_SetPinMux IOMUXC_GPIO1_IO08_PWM1_OUT 0 ;;
  IOMUXC_SetPinConfig IOMUXC_GPIO1_IO08_PWM1_OUT 0xB090 ;;
  wr32 PWM1_PWMCR 0 ;;
  set32 PWM1_PWMCR ((1 << 26) .| (1 << 16) .| (65 << 4)) ;;
  pwm1_set_period 1000 ;;
  modify (upd_bl_duty 50) ;;
  for_list (seqZ 0 4) (fun _ => d <- gets g_bl_duty ;; pwm1_set_duty d) ;;
  set32 PWM1_PWMIR (1 << 0) ;;
  irq_handler_register PWM1_IRQn pwm1_irq_handler 0 ;;
  GIC_EnableIRQ PWM1_IRQn ;;
  wr32 PWM1_PWMSR 0 ;;
  pwm1_enable.
End Operations.

(** ** Samples *)
Lemma low16_id z : 0 <= z < 2 ^ 16 -> u32 (z .& 0xFFFF) = z.
Proof.
  intros Hz. replace (z .& 0xFFFF) with z; [apply u32_small; lia|].
  symmetry. rewrite (Z.land_ones _ 16) by lia. apply Z.mod_small. lia.
Qed.

(** A sample is that percentage of the period, and never more than the period. *)
Lemma sample_range p d : 0 <= p < 2 ^ 16 -> 0 <= d <= 100 -> 0 <= p * d / 100 <= p.
Proof.
  intros Hp Hd. split; [apply Z.div_pos; nia|]. apply Z.div_le_upper_bound; nia.
Qed.

Section Duty.
Context `{Device}.
Context (Hpr : storage PWM1_PWMPR).

(** The period the counter runs with, from the register. *)
Definition period_of (t : trace) : Z := regval t PWM1_PWMPR + 2.

Lemma runs_set_duty d n s (Q : unit -> fw -> Prop) :
  0 <= d <= 100 -> 0 <= period_of (tr s) < 2 ^ 16 ->
  (forall t, outs PWM1_PWMSAR t = outs PWM1_PWMSAR (tr s) ++ [period_of (tr s) * d / 100] ->
     (forall r, r <> PWM1_PWMSAR -> regval t r = regval (tr s) r) ->
     Q tt (Fw t (upd_bl_duty d (gl s)))) ->
  runs (pwm1_set_duty d) n s Q.
Proof.
  intros Hd Hp HQ. unfold pwm1_set_duty, pwm1_set_sample. cbv zeta. fw_reg.
  unfold period_of in Hp. pose proof (sample_range _ d Hp Hd).
  cbn [g_bl_duty upd_bl_duty]. rewrite (u32_small (_ + 2)) by lia. rewrite (u16_small (_ + 2)) by lia.
  rewrite u16_small, low16_id by lia. apply HQ.
  - by io_simpl.
  - intros r Hr. reg_frame.
Qed.

Lemma runs_set_period p n s (Q : unit -> fw -> Prop) :
  2 <= p < 2 ^ 16 ->
  (forall t, period_of t = p -> outs PWM1_PWMSAR t = outs PWM1_PWMSAR (tr s) ->
     (forall r, r <> PWM1_PWMPR -> regval t r = regval (tr s) r) -> Q tt (Fw t (gl s))) ->
  runs (pwm1_set_period p) n s Q.
Proof.
  intros Hp HQ. unfold pwm1_set_period. cbv zeta. destruct (Z.ltb_spec p 2); [lia|].
  rewrite u16_small by lia. fw_step. rewrite low16_id by lia. apply HQ.
  - unfold period_of. rewrite regval_wr_eq, u32_small by lia. lia.
  - by io_simpl.
  - intros r Hr. reg_frame.
Qed.
End Duty.

(** ** Properties *)

(** after [pwm1_set_period p] and [pwm1_set_duty d], for every 16-bit period
    of at least 2 and every percentage, the period the hardware counts is [p],
    the one sample written is [p * d / 100], at most the period, and the duty
    the interrupt handler will reuse is [d]. *)
Theorem pwm_duty_sample `{Device} p d n s :
  storage PWM1_PWMPR -> 2 <= p < 2 ^ 16 -> 0 <= d <= 100 ->
  runs (pwm1_set_period p ;; pwm1_set_duty d) n s (fun _ s' =>
    period_of (tr s') = p /\ 0 <= p * d / 100 <= p /\
    outs PWM1_PWMSAR (tr s') = outs PWM1_PWMSAR (tr s) ++ [p * d / 100] /\
    gl s' = upd_bl_duty d (gl s)).
Proof.
  intros Hs Hp Hd. apply runs_bind, runs_set_period; [done..|]. intros t Ht Ho _.
  apply runs_set_duty; [done|done|cbn [tr]; lia|]. cbn [tr gl]. intros t' Ho' Hf.
  split; [unfold period_of in *; by rewrite Hf|]. split; [apply sample_range; lia|].
  split; [|done]. by rewrite Ho', Ho, Ht.
Qed.

Lemma pwm_duty_sample_witness :
  runs (pwm1_set_period 1000 ;; @pwm1_set_duty reg_device 70) 1 fw0 (fun _ s' =>
    @period_of reg_device (tr s') = 1000 /\ 0 <= 1000 * 70 / 100 <= 1000 /\
    outs PWM1_PWMSAR (tr s') = outs PWM1_PWMSAR (tr fw0) ++ [1000 * 70 / 100] /\
    gl s' = upd_bl_duty 70 (gl fw0)).
Proof. apply (@pwm_duty_sample reg_device); [by apply storage_sim|lia|lia]. Defined.

Definition pwm_cr : Z := (1 << 26) .| (1 << 16) .| (65 << 4) .| (1 << 0).

(** [backlight_init]: the accesses before the last one, which enables the PWM. *)
Lemma runs_backlight_init `{Device} n s (Q : unit -> fw -> Prop) :
  storage PWM1_PWMPR -> storage PWM1_PWMCR -> gic_placed -> table_ok (gl s) ->
  (forall t, Z.testbit (regval t PWM1_PWMCR) 0 = false -> period_of t = 1000 ->
     outs PWM1_PWMSAR t = outs PWM1_PWMSAR (tr s) ++ replicate 4 500 ->
     Q tt (Fw (Wr PWM1_PWMCR pwm_cr :: t)
              (registered PWM1_IRQn pwm1_irq_handler 0 (upd_bl_duty 50 (gl s))))) ->
  runs backlight_init n s Q.
Proof.
  intros Hpr Hcr Hgic Hok HQ. unfold backlight_init, IOMUXC_SetPinMux, IOMUXC_SetPinConfig.
  cbn [muxRegister muxMode inputRegister inputDaisy configRegister IOMUXC_GPIO1_IO08_PWM1_OUT
       truthy negb Z.eqb].
  fw_reg. apply runs_set_period; [lia|]. cbn [tr gl]. intros t1 Hp1 Ho1 Hf1. fw_steps.
  eapply runs_mono; [apply (runs_for_list (fun d s' => period_of (tr s') = 1000 /\
    outs PWM1_PWMSAR (tr s') = outs PWM1_PWMSAR (tr s) ++ replicate (length d) 500 /\
    regval (tr s') PWM1_PWMCR = regval t1 PWM1_PWMCR /\
    gl s' = upd_bl_duty 50 (gl s)) _ n _ [])|].
  - cbn [tr gl]. rewrite Ho1. io_simpl. by rewrite app_nil_r.
  - intros d x rest [t g] _ (Hp & Ho & Hc & Hg). simpl in Hp, Ho, Hc, Hg. subst g. fw_steps.
    apply runs_set_duty; [done|done|cbn [tr]; lia|]. cbn [tr gl]. intros t' Ho' Hf'.
    split; [unfold period_of in *; by rewrite Hf'|]. rewrite Ho', Ho, Hp, length_app.
    split; [|split; [by rewrite Hf'|done]]. rewrite replicate_add, app_assoc. done.
  - intros [] [t g] (Hp & Ho & Hc & Hg). simpl in Hp, Ho, Hc, Hg. subst g. fw_steps.
    apply runs_register; [done|unfold PWM1_IRQn; lia|]. cbn [tr gl].
    apply runs_bind. unfold GIC_EnableIRQ, GIC_base, pwm1_enable. fw_steps. rewrite !Hgic.
    assert (regval t1 PWM1_PWMCR = 0x4010410) as Hc1 by (rewrite Hf1 by done; reg_simpl; reflexivity).
    replace (Wr PWM1_PWMCR _) with (Wr PWM1_PWMCR pwm_cr)
      by (f_equal; reg_simpl; rewrite Hc, Hc1; reflexivity).
    apply HQ.
    + reg_simpl. by rewrite Hc, Hc1.
    + unfold period_of in *. by reg_simpl.
    + io_simpl. by rewrite Ho.
Qed.

(** [backlight_init] fills the four-entry sample FIFO with the sample for
    half of a 1000-tick period, installs the FIFO handler with its duty, and
    enables the PWM, with the prescaler for 1 MHz, by its very last access, so
    that the counter never runs unconfigured. *)
Theorem backlight_init_ready `{Device} n s :
  storage PWM1_PWMPR -> storage PWM1_PWMCR -> gic_placed -> table_ok (gl s) ->
  runs backlight_init n s (fun _ s' => exists t,
    tr s' = Wr PWM1_PWMCR pwm_cr :: t /\
    Z.testbit (regval t PWM1_PWMCR) 0 = false /\ period_of t = 1000 /\
    outs PWM1_PWMSAR t = outs PWM1_PWMSAR (tr s) ++ replicate 4 500 /\
    installed (gl s') PWM1_IRQn pwm1_irq_handler 0 /\ g_bl_duty (gl s') = 50).
Proof.
  intros Hpr Hcr Hgic Hok. apply runs_backlight_init; [done..|]. intros t Hb Hp Ho. exists t.
  split; [done|]. split; [done|]. split; [done|]. split; [done|]. split; [|done].
  apply registered_installed; [done|unfold PWM1_IRQn; lia].
Qed.

(** A device with the interrupt controller in its place. *)
Definition gic_device : Device :=
  sim_device (fun _ => 0) (fun a => if a =? CP15_CBAR then Some (fun _ => 0xA00000) else None).

Lemma backlight_init_ready_witness :
  runs (@backlight_init gic_device) 1 fw0 (fun _ s' => exists t,
    tr s' = Wr PWM1_PWMCR pwm_cr :: t /\
    Z.testbit (@regval gic_device t PWM1_PWMCR) 0 = false /\ @period_of gic_device t = 1000 /\
    outs PWM1_PWMSAR t = outs PWM1_PWMSAR (tr fw0) ++ replicate 4 500 /\
    installed (gl s') PWM1_IRQn pwm1_irq_handler 0 /\ g_bl_duty (gl s') = 50).
Proof.
  apply (@backlight_init_ready gic_device);
    [by apply storage_sim|by apply storage_sim|by intros t|].
  split; [reflexivity|unfold fits; cbn; lia].
Defined.
