(* ===== verification/Ctype.v ===== *)
(** Character classes: baremetal/20_pwm/stdio/lib/ctype.c and the macros of
    stdio/include/ctype.h. *)
From S2P Require Import Prelude.

Definition CT_U : Z := 0x01.
Definition CT_L : Z := 0x02.
Definition CT_D : Z := 0x04.
Definition CT_C : Z := 0x08.
Definition CT_P : Z := 0x10.
Definition CT_S : Z := 0x20.
Definition CT_X : Z := 0x40.
Definition CT_SP : Z := 0x80.

Definition _ctype : list Z :=
  let C := CT_C in let S := CT_S in let P := CT_P in let D := CT_D in
  let U := CT_U in let L := CT_L in let X := CT_X in let SP := CT_SP in
  replicate 9 C ++ replicate 5 (C.|S) ++ replicate 18 C ++ [S.|SP] ++ replicate 15 P ++
  replicate 10 D ++ replicate 7 P ++ replicate 6 (U.|X) ++ replicate 20 U ++
  replicate 6 P ++ replicate 6 (L.|X) ++ replicate 20 L ++ replicate 4 P ++ [C] ++
  replicate 32 0 ++ [S.|SP] ++ replicate 31 P ++ replicate 23 U ++ [P] ++ replicate 7 U ++
  replicate 24 L ++ [P] ++ replicate 8 L.

Definition __ismask (x : Z) : Z := nth (Z.to_nat (u8 x)) _ctype 0.

Definition isdigit (c : Z) : bool := truthy (__ismask c .& CT_D).
Definition islower (c : Z) : bool := truthy (__ismask c .& CT_L).
Definition isupper (c : Z) : bool := truthy (__ismask c .& CT_U).
Definition isspace (c : Z) : bool := truthy (__ismask c .& CT_S).
Definition isxdigit (c : Z) : bool := truthy (__ismask c .& (CT_D .| CT_X)).

Definition tolower (c : Z) : Z := if isupper c then u8 (c - (65 - 97)) else c.
Definition toupper (c : Z) : Z := if islower c then u8 (c - (97 - 65)) else c.

(** ** Properties *)

(** [P] holds of every 7-bit character, by evaluation. *)
Lemma ascii_ind (P : Z -> bool) :
  forallb P (seqZ 0 128) = true -> forall c, 0 <= c < 128 -> P c = true.
Proof.
  intros H c Hc. rewrite forallb_forall in H. apply H, list_elem_of_In, elem_of_seqZ. lia.
Qed.

(** Digits, letters, hexadecimal digits and white space of the table are the
    ASCII ones. *)
Definition ascii_classes (c : Z) : bool :=
  Bool.eqb (isdigit c) ((48 <=? c) && (c <=? 57)) &&
  Bool.eqb (isupper c) ((65 <=? c) && (c <=? 90)) &&
  Bool.eqb (islower c) ((97 <=? c) && (c <=? 122)) &&
  Bool.eqb (isxdigit c) (((48 <=? c) && (c <=? 57)) || ((65 <=? c) && (c <=? 70)) ||
                         ((97 <=? c) && (c <=? 102))) &&
  Bool.eqb (isspace c) ((c =? 32) || ((9 <=? c) && (c <=? 13))).

Lemma ascii_classes_ok c : 0 <= c < 128 -> ascii_classes c = true.
Proof. apply ascii_ind. vm_compute. reflexivity. Qed.

Lemma isdigit_ascii c : 0 <= c < 128 -> isdigit c = (48 <=? c) && (c <=? 57).
Proof.
  intros Hc. pose proof (ascii_classes_ok c Hc) as H. unfold ascii_classes in H.
  rewrite !andb_true_iff in H. destruct H as ((((H & _) & _) & _) & _). by apply eqb_prop in H.
Qed.

Lemma isxdigit_ascii c : 0 <= c < 128 -> isxdigit c =
  ((48 <=? c) && (c <=? 57)) || ((65 <=? c) && (c <=? 70)) || ((97 <=? c) && (c <=? 102)).
Proof.
  intros Hc. pose proof (ascii_classes_ok c Hc) as H. unfold ascii_classes in H.
  rewrite !andb_true_iff in H. destruct H as ((((_ & _) & _) & H) & _). by apply eqb_prop in H.
Qed.
