(* ===== verification/CMem.v ===== *)
(** Byte memory and the string library: baremetal/20_pwm/stdio/lib/string.c.

    Memory maps addresses to bytes; an access outside every object is undefined
    behaviour.  Plain [char] is unsigned, as on ARM. *)
From S2P Require Import Prelude Machine FwLogic Ctype.

(** ** Loads and stores *)
Definition ld8 (a : Z) : M Z := fun _ s =>
  match g_mem s.(gl) !! a with Some v => Ret v s | None => Undef end.
Definition st8 (a v : Z) : M unit := fun _ s =>
  match g_mem s.(gl) !! a with
  | Some _ => Ret tt (Fw s.(tr) (upd_mem (<[a := u8 v]>) s.(gl)))
  | None => Undef
  end.

Definition NULL : Z := 0.

(** ** string.c *)
Definition strnicmp (s1 s2 len : Z) : M Z :=
  if truthy len then
    iter (fun '(s1, s2, len) =>
      c1 <- ld8 s1 ;;
      c2 <- ld8 s2 ;;
      if negb (truthy c1) || negb (truthy c2) then ret (inr (c1 - c2))
      else
        let '(c1, c2) := if c1 =? c2 then (c1, c2) else (tolower c1, tolower c2) in
        if negb (c1 =? c2) then ret (inr (c1 - c2))
        else
          let len := u32 (len - 1) in
          if truthy len then ret (inl (s1 + 1, s2 + 1, len)) else ret (inr (c1 - c2)))
      (s1, s2, len)
  else ret 0.

(** [while (( *dest++ = *src++) != 0);] *)
Definition copy_string (dest src : Z) : M unit :=
  iter (fun '(dest, src) =>
    c <- ld8 src ;;
    st8 dest c ;;
    if c =? 0 then ret (inr tt) else ret (inl (dest + 1, src + 1))) (dest, src).

Definition strcpy (dest src : Z) : M Z := copy_string dest src ;; ret dest.

Definition strncpy (dest src count : Z) : M Z :=
  iter (fun '(dest, src, count) =>
    if truthy count then
      c <- ld8 src ;;
      st8 dest c ;;
      if c =? 0 then ret (inr tt) else ret (inl (dest + 1, src + 1, u32 (count - 1)))
    else ret (inr tt)) (dest, src, count) ;;
  ret dest.

(** [while ( *p ) p++;] *)
Definition skip_string (p : Z) : M Z :=
  iter (fun p => c <- ld8 p ;; if truthy c then ret (inl (p + 1)) else ret (inr p)) p.

Definition strcat (dest src : Z) : M Z :=
  d <- skip_string dest ;;
  copy_string d src ;;
  ret dest.

Definition strncat (dest src count : Z) : M Z :=
  (when truthy count then
    (d <- skip_string dest ;;
     iter (fun '(d, src, count) =>
       c <- ld8 src ;;
       st8 d c ;;
       if truthy c then
         let count := u32 (count - 1) in
         if count =? 0 then st8 (d + 1) 0 ;; ret (inr tt)
         else ret (inl (d + 1, src + 1, count))
       else ret (inr tt)) (d, src, count))) ;;
  ret dest.

Definition strcmp (cs ct : Z) : M Z :=
  iter (fun '(cs, ct) =>
    a <- ld8 cs ;;
    b <- ld8 ct ;;
    let __res := s8 (a - b) in
    if truthy __res || negb (truthy a) then ret (inr __res) else ret (inl (cs + 1, ct + 1)))
    (cs, ct).

Definition strncmp (cs ct count : Z) : M Z :=
  iter (fun '(cs, ct, count, __res) =>
    if truthy count then
      a <- ld8 cs ;;
      b <- ld8 ct ;;
      let __res := s8 (a - b) in
      if truthy __res || negb (truthy a) then ret (inr __res)
      else ret (inl (cs + 1, ct + 1, u32 (count - 1), __res))
    else ret (inr __res)) (cs, ct, count, 0).

Definition strchr (s c : Z) : M Z :=
  iter (fun s =>
    v <- ld8 s ;;
    if negb (v =? u8 c) then if v =? 0 then ret (inr NULL) else ret (inl (s + 1))
    else ret (inr s)) s.

Definition strlen (s : Z) : M Z := p <- skip_string s ;; ret (u32 (p - s)).

Definition strrchr (s c : Z) : M Z :=
  len <- strlen s ;;
  iter (fun p =>
    v <- ld8 p ;;
    if v =? u8 c then ret (inr p)
    else if s <=? p - 1 then ret (inl (p - 1)) else ret (inr NULL)) (s + len).

Definition strnlen (s count : Z) : M Z :=
  p <- iter (fun '(sc, count) =>
         if truthy count then
           c <- ld8 sc ;;
           if negb (c =? 0) then ret (inl (sc + 1, u32 (count - 1))) else ret (inr sc)
         else ret (inr sc)) (s, count) ;;
  ret (u32 (p - s)).

(** [for (a = accept; *a; ++a) if (c == *a) break;] returns where it stopped. *)
Definition find_in (accept c : Z) : M Z :=
  iter (fun a =>
    v <- ld8 a ;;
    if v =? 0 then ret (inr a) else if c =? v then ret (inr a) else ret (inl (a + 1))) accept.

Definition strspn (s accept : Z) : M Z :=
  iter (fun '(p, count) =>
    c <- ld8 p ;;
    if negb (c =? 0) then
      a <- find_in accept c ;;
      v <- ld8 a ;;
      if v =? 0 then ret (inr count) else ret (inl (p + 1, u32 (count + 1)))
    else ret (inr count)) (s, 0).

Definition strpbrk (cs ct : Z) : M Z :=
  iter (fun sc1 =>
    c <- ld8 sc1 ;;
    if negb (c =? 0) then
      sc2 <- find_in ct c ;;
      v <- ld8 sc2 ;;
      if v =? 0 then ret (inl (sc1 + 1)) else ret (inr sc1)
    else ret (inr NULL)) cs.

(** The static [___strtok] is passed in and returned. *)
Definition strtok (___strtok s ct : Z) : M (Z * Z) :=
  let sbegin := if truthy s then s else ___strtok in
  if negb (truthy sbegin) then ret (NULL, ___strtok)
  else
    k <- strspn sbegin ct ;;
    let sbegin := sbegin + k in
    c <- ld8 sbegin ;;
    if c =? 0 then ret (NULL, NULL)
    else
      send <- strpbrk sbegin ct ;;
      if truthy send then
        c <- ld8 send ;;
        if negb (c =? 0) then st8 send 0 ;; ret (sbegin, send + 1) else ret (sbegin, send)
      else ret (sbegin, send).

(** [*s] is passed in and returned. *)
Definition strsep (s ct : Z) : M (Z * Z) :=
  if s =? NULL then ret (NULL, s)
  else
    send <- strpbrk s ct ;;
    if truthy send then st8 send 0 ;; ret (s, send + 1) else ret (s, send).

Definition memset (s c count : Z) : M Z :=
  iter (fun '(xs, count) =>
    if truthy count then st8 xs c ;; ret (inl (xs + 1, u32 (count - 1))) else ret (inr tt))
    (s, count) ;;
  ret s.

(** [while (count--) *tmp++ = *s++;] *)
Definition copy_up (dest src count : Z) : M unit :=
  iter (fun '(tmp, s, count) =>
    if truthy count then
      v <- ld8 s ;; st8 tmp v ;; ret (inl (tmp + 1, s + 1, u32 (count - 1)))
    else ret (inr tt)) (dest, src, count).

Definition bcopy (src dest count : Z) : M unit := copy_up dest src count.
Definition memcpy (dest src count : Z) : M Z := copy_up dest src count ;; ret dest.

Definition memmove (dest src count : Z) : M Z :=
  (if dest <=? src then copy_up dest src count
   else
     iter (fun '(tmp, s, count) =>
       if truthy count then
         v <- ld8 (s - 1) ;; st8 (tmp - 1) v ;; ret (inl (tmp - 1, s - 1, u32 (count - 1)))
       else ret (inr tt)) (dest + count, src + count, count)) ;;
  ret dest.

Definition memcmp (cs ct count : Z) : M Z :=
  iter (fun '(su1, su2, count, res) =>
    if 0 <? count then
      a <- ld8 su1 ;;
      b <- ld8 su2 ;;
      let res := a - b in
      if negb (res =? 0) then ret (inr res) else ret (inl (su1 + 1, su2 + 1, u32 (count - 1), res))
    else ret (inr res)) (cs, ct, count, 0).

Definition memscan (addr c size : Z) : M Z :=
  iter (fun '(p, size) =>
    if truthy size then
      v <- ld8 p ;; if v =? c then ret (inr p) else ret (inl (p + 1, u32 (size - 1)))
    else ret (inr p)) (addr, size).

Definition strstr (s1 s2 : Z) : M Z :=
  l2 <- strlen s2 ;;
  let l2 := s32 l2 in
  if l2 =? 0 then ret s1
  else
    l1 <- strlen s1 ;;
    iter (fun '(s1, l1) =>
      if l2 <=? l1 then
        r <- memcmp s1 s2 (u32 l2) ;;
        if r =? 0 then ret (inr s1) else ret (inl (s1 + 1, l1 - 1))
      else ret (inr NULL)) (s1, s32 l1).

Definition memchr (s c n : Z) : M Z :=
  iter (fun '(p, n) =>
    if negb (n =? 0) then
      v <- ld8 p ;;
      if u8 c =? v then ret (inr (p + 1 - 1)) else ret (inl (p + 1, u32 (n - 1)))
    else ret (inr NULL)) (s, n).

(** ** Objects in memory *)

(** The bytes [l] are at [a]. *)
Definition bytes_at (m : gmap Z Z) (a : Z) (l : list Z) : Prop :=
  forall i c, l !! i = Some c -> m !! (a + Z.of_nat i) = Some c.

(** The NUL-terminated string with characters [cs] is at [a]. *)
Definition str_at (m : gmap Z Z) (a : Z) (cs : list Z) : Prop :=
  Forall (fun c => 0 < c < 256) cs /\ bytes_at m a (cs ++ [0]).

Lemma bytes_at_cons m a c l :
  bytes_at m a (c :: l) <-> m !! a = Some c /\ bytes_at m (a + 1) l.
Proof.
  split.
  - intros H. split; [specialize (H O c eq_refl); by rewrite Z.add_0_r in H|].
    intros i c' Hi. specialize (H (S i) c' Hi). by replace (a + 1 + Z.of_nat i) with (a + Z.of_nat (S i)) by lia.
  - intros [Ha Hl] [|i] c' Hi; simpl in Hi.
    + injection Hi as <-. by rewrite Z.add_0_r.
    + specialize (Hl i c' Hi). by replace (a + Z.of_nat (S i)) with (a + 1 + Z.of_nat i) by lia.
Qed.

Lemma bytes_at_app m a l1 l2 :
  bytes_at m a (l1 ++ l2) <-> bytes_at m a l1 /\ bytes_at m (a + Z.of_nat (length l1)) l2.
Proof.
  revert a. induction l1 as [|c l1 IH]; intros a; cbn [app length].
  - rewrite Z.add_0_r. split; [by split|by intros [_ H]].
  - rewrite !bytes_at_cons, IH. replace (a + 1 + Z.of_nat (length l1)) with (a + Z.of_nat (S (length l1))) by lia.
    intuition.
Qed.

Lemma str_at_nil m a : str_at m a [] <-> m !! a = Some 0.
Proof.
  unfold str_at. cbn [app]. rewrite bytes_at_cons. split; [intuition|].
  intros H. split; [constructor|]. split; [done|]. intros i c Hi. by destruct i.
Qed.

Lemma str_at_cons m a c cs :
  str_at m a (c :: cs) <-> 0 < c < 256 /\ m !! a = Some c /\ str_at m (a + 1) cs.
Proof.
  unfold str_at. cbn [app]. rewrite bytes_at_cons, list.Forall_cons. intuition.
Qed.

Lemma runs_ld8 a v n s (Q : Z -> fw -> Prop) :
  g_mem (gl s) !! a = Some v -> Q v s -> runs (ld8 a) n s Q.
Proof. intros H HQ. unfold runs, ld8. by rewrite H. Qed.

Lemma runs_st8 a v n s (Q : unit -> fw -> Prop) :
  is_Some (g_mem (gl s) !! a) -> Q tt (Fw (tr s) (upd_mem (<[a := u8 v]>) (gl s))) ->
  runs (st8 a v) n s Q.
Proof. intros [w H] HQ. unfold runs, st8. by rewrite H. Qed.

(** A state whose memory is [m], all else as in [s]. *)
Definition with_mem (m : gmap Z Z) (s : fw) : fw := Fw (tr s) (upd_mem (fun _ => m) (gl s)).

Lemma with_mem_same s : with_mem (g_mem (gl s)) s = s.
Proof. destruct s as [t []]. done. Qed.
Lemma with_mem_gmem m s : g_mem (gl (with_mem m s)) = m.
Proof. done. Qed.
Lemma with_mem_twice m m' s : with_mem m (with_mem m' s) = with_mem m s.
Proof. done. Qed.

(** ** Reading strings *)
Section Strings.
Context (n : nat).

Lemma runs_skip_string p cs s (Q : Z -> fw -> Prop) :
  str_at (g_mem (gl s)) p cs -> (length cs < n)%nat ->
  Q (p + Z.of_nat (length cs)) s -> runs (skip_string p) n s Q.
Proof.
  intros Hs Hn HQ. unfold skip_string.
  apply (runs_iter (fun j x s' => s' = s /\ exists rest, j = length rest /\
    str_at (g_mem (gl s)) x rest /\ x + Z.of_nat (length rest) = p + Z.of_nat (length cs))
    Q _ n (length cs)); [|by eauto|done].
  intros j x s' (-> & rest & -> & Hr & Hx). apply runs_bind. destruct rest as [|c rest].
  - apply str_at_nil in Hr. eapply runs_ld8; [done|]. apply runs_ret.
    simpl in Hx. rewrite Z.add_0_r in Hx. by subst x.
  - apply str_at_cons in Hr as (Hc & Hx0 & Hr). eapply runs_ld8; [done|].
    assert (truthy c = true) as -> by (apply truthy_true; lia). apply runs_ret.
    exists (length rest). split; [simpl; lia|]. split; [done|]. exists rest.
    split; [done|]. split; [done|]. simpl length in Hx. lia.
Qed.

Lemma runs_strlen p cs s (Q : Z -> fw -> Prop) :
  str_at (g_mem (gl s)) p cs -> (length cs < n)%nat -> Z.of_nat (length cs) < 2 ^ 32 ->
  Q (Z.of_nat (length cs)) s -> runs (strlen p) n s Q.
Proof.
  intros Hs Hn H32 HQ. unfold strlen. apply runs_bind. eapply runs_skip_string; [done|done|].
  apply runs_ret. rewrite u32_small by lia. by replace (p + Z.of_nat (length cs) - p) with (Z.of_nat (length cs)) by lia.
Qed.

(** The difference of the first characters at which two strings differ, the
    terminator counting as 0. *)
Fixpoint str_diff (cs ct : list Z) : Z :=
  match cs, ct with
  | [], [] => 0
  | [], b :: _ => - b
  | a :: _, [] => a
  | a :: cs, b :: ct => if a =? b then str_diff cs ct else a - b
  end.

Lemma s8_zero z : -255 <= z <= 255 -> s8 z = 0 -> z = 0.
Proof. unfold s8. intros Hz H. dlia. Qed.

Lemma s8_small z : -128 <= z < 128 -> s8 z = z.
Proof. unfold s8. intros Hz. rewrite Z.mod_small; lia. Qed.

Lemma runs_strcmp s (Q : Z -> fw -> Prop) : forall cs ct p q k,
  str_at (g_mem (gl s)) p cs -> str_at (g_mem (gl s)) q ct -> (length cs < k)%nat ->
  Q (s8 (str_diff cs ct)) s ->
  match iter_n k (fun '(cs, ct) =>
    a <- ld8 cs ;;
    b <- ld8 ct ;;
    let __res := s8 (a - b) in
    if truthy __res || negb (truthy a) then ret (inr __res) else ret (inl (cs + 1, ct + 1)))
    (p, q) n s with Ret v s' => Q v s' | _ => False end.
Proof.
  induction cs as [|a cs IH]; intros ct p q k Hp Hq Hk HQ; (destruct k as [|k]; [simpl in Hk; lia|]).
  - apply str_at_nil in Hp. cbn [iter_n]. unfold bind, ld8. rewrite Hp.
    destruct ct as [|b ct].
    + apply str_at_nil in Hq. rewrite Hq. simpl. exact HQ.
    + apply str_at_cons in Hq as (Hb & Hq & _). rewrite Hq. rewrite orb_true_r. exact HQ.
  - apply str_at_cons in Hp as (Ha & Hp & Hp'). cbn [iter_n]. unfold bind, ld8. rewrite Hp.
    assert (forall z, z <> 0 -> -255 <= z <= 255 -> truthy (s8 z) = true) as Hz
      by (intros z H1 H2; apply truthy_true; intros H0; by apply H1, s8_zero).
    destruct ct as [|b ct].
    + apply str_at_nil in Hq. rewrite Hq, Z.sub_0_r, Hz by lia. exact HQ.
    + apply str_at_cons in Hq as (Hb & Hq & Hq'). rewrite Hq. cbn [str_diff] in HQ.
      destruct (Z.eqb_spec a b) as [->|Hne].
      * rewrite Z.sub_diag. change (truthy (s8 0)) with false.
        assert (truthy b = true) as -> by (apply truthy_true; lia). simpl.
        apply (IH ct); [done|done|simpl in Hk; lia|done].
      * rewrite Hz by lia. exact HQ.
Qed.
End Strings.

Lemma str_diff_range cs : forall ct,
  Forall (fun c => 0 < c < 256) cs -> Forall (fun c => 0 < c < 256) ct ->
  -255 <= str_diff cs ct <= 255 /\ (str_diff cs ct = 0 <-> cs = ct).
Proof.
  induction cs as [|a cs IH]; intros [|b ct] H1 H2; simpl.
  - split; [lia|by split].
  - apply list.Forall_cons in H2 as [Hb _]. split; [lia|]. split; [lia|done].
  - apply list.Forall_cons in H1 as [Ha _]. split; [lia|]. split; [lia|done].
  - apply list.Forall_cons in H1 as [Ha H1]. apply list.Forall_cons in H2 as [Hb H2].
    destruct (Z.eqb_spec a b) as [->|Hne].
    + destruct (IH ct H1 H2) as [Hr Hi]. split; [done|]. rewrite Hi. split; congruence.
    + split; [lia|]. split; [lia|]. intros [= E _]. done.
Qed.

Lemma str_diff_ascii cs : forall ct,
  Forall (fun c => 0 < c < 128) cs -> Forall (fun c => 0 < c < 128) ct ->
  -128 <= str_diff cs ct < 128.
Proof.
  induction cs as [|a cs IH]; intros [|b ct] H1 H2; simpl.
  - lia.
  - apply list.Forall_cons in H2 as [Hb _]. lia.
  - apply list.Forall_cons in H1 as [Ha _]. lia.
  - apply list.Forall_cons in H1 as [Ha H1]. apply list.Forall_cons in H2 as [Hb H2].
    destruct (Z.eqb_spec a b) as [->|Hne]; [by apply IH|lia].
Qed.

(** ** Copying *)

(** [m'] is [m] with the [count] bytes from [src] placed at [dest]. *)
Definition moved (m : gmap Z Z) (dest src count : Z) (m' : gmap Z Z) : Prop :=
  forall a, m' !! a =
    if (dest <=? a) && (a <? dest + count) then m !! (src + (a - dest)) else m !! a.

Definition mapped (m : gmap Z Z) (a count : Z) : Prop :=
  forall i, 0 <= i < count -> is_Some (m !! (a + i)).

Definition mappedb (m : gmap Z Z) (a count : Z) : bool :=
  forallb (fun i => bool_decide (is_Some (m !! (a + i)))) (seqZ 0 count).

Lemma mappedb_ok m a count : mappedb m a count = true -> mapped m a count.
Proof.
  unfold mappedb. rewrite forallb_forall. intros H i Hi.
  apply (bool_decide_eq_true_1 (is_Some (m !! (a + i)))), H. apply list_elem_of_In, elem_of_seqZ. lia.
Qed.

(** Memory holds bytes. *)
Definition bytes_ok (m : gmap Z Z) : Prop := map_Forall (fun _ v => 0 <= v < 256) m.

Global Instance bytes_ok_dec m : Decision (bytes_ok m).
Proof. unfold bytes_ok. apply _. Defined.

Section Copy.
Context (n : nat) (dest src count : Z) (s0 : fw).
Let m := g_mem (gl s0).
Context (Hok : bytes_ok m) (Hcount : 0 <= count < 2 ^ 32) (Hn : (Z.to_nat count < n)%nat).
Context (Hsrc : mapped m src count) (Hdest : mapped m dest count).

Lemma moved_mapped k m' a :
  0 <= k <= count -> moved m dest src k m' -> is_Some (m !! a) -> is_Some (m' !! a).
Proof.
  intros Hk Hm Ha. rewrite Hm. destruct ((dest <=? a) && (a <? dest + k)) eqn:E; [|done].
  apply andb_true_iff in E as [E1 E2]. apply Z.leb_le in E1. apply Z.ltb_lt in E2.
  apply Hsrc. lia.
Qed.

(** One byte more at the end of the region already moved. *)
Lemma moved_up k m' v :
  0 <= k < count -> dest <= src -> moved m dest src k m' -> m' !! (src + k) = Some v ->
  v = u8 v /\ moved m dest src (k + 1) (<[dest + k := v]> m').
Proof.
  intros Hk Hle Hm Hv.
  assert (m !! (src + k) = Some v) as Hv'.
  { rewrite Hm in Hv. destruct (Z.leb_spec dest (src + k)), (Z.ltb_spec (src + k) (dest + k));
      simpl in Hv; try lia; done. }
  split; [symmetry; apply u8_small; apply (Hok _ _ Hv')|].
  intros a. destruct (Z.eq_dec a (dest + k)) as [->|Hne].
  - rewrite lookup_insert_eq. destruct (Z.leb_spec dest (dest + k)), (Z.ltb_spec (dest + k) (dest + (k + 1)));
      simpl; try lia. by replace (src + (dest + k - dest)) with (src + k) by lia.
  - rewrite lookup_insert_ne by done. rewrite Hm.
    destruct (Z.leb_spec dest a), (Z.ltb_spec a (dest + k)), (Z.ltb_spec a (dest + (k + 1)));
      simpl; try lia; done.
Qed.

Lemma moved_0 : moved m dest src 0 m.
Proof.
  intros a. destruct (Z.leb_spec dest a), (Z.ltb_spec a (dest + 0)); simpl; try lia; done.
Qed.

Lemma runs_copy_up (Q : unit -> fw -> Prop) :
  dest <= src -> (forall m', moved m dest src count m' -> Q tt (with_mem m' s0)) ->
  runs (copy_up dest src count) n s0 Q.
Proof.
  intros Hle HQ. unfold copy_up.
  apply (runs_iter (fun j x s' => exists k m', x = (dest + k, src + k, count - k) /\
    0 <= k <= count /\ j = Z.to_nat (count - k) /\ s' = with_mem m' s0 /\ moved m dest src k m')
    Q _ n (Z.to_nat count)).
  - intros j x s' (k & m' & -> & Hk & -> & -> & Hm). destruct (truthy (count - k)) eqn:Et.
    + apply truthy_true in Et. destruct (moved_mapped k m' (src + k) ltac:(lia) Hm) as [v Hv];
        [apply Hsrc; lia|].
      destruct (moved_up k m' v ltac:(lia) Hle Hm Hv) as [Hu Hm'].
      apply runs_bind. eapply runs_ld8; [exact Hv|]. apply runs_bind, runs_st8.
      { apply (moved_mapped k); [lia|done|]. apply Hdest. lia. }
      apply runs_ret. exists (Z.to_nat (count - (k + 1))). split; [lia|].
      exists (k + 1), (<[dest + k := v]> m'). split; [|split; [lia|split; [done|split; [|done]]]].
      * rewrite u32_small by lia. f_equal; [f_equal; lia|lia].
      * by rewrite <- Hu.
    + apply truthy_false in Et. apply runs_ret. apply HQ. by replace count with k by lia.
  - exists 0, m. rewrite !Z.add_0_r, Z.sub_0_r. repeat split; try lia; [|apply moved_0].
    symmetry. apply with_mem_same.
  - done.
Qed.

(** The region already moved by the downward loop: the last [k] bytes. *)
Definition moved_down (k : Z) (m' : gmap Z Z) : Prop :=
  moved m (dest + count - k) (src + count - k) k m'.

Lemma moved_down_step k m' v :
  0 <= k < count -> src < dest -> moved_down k m' -> m' !! (src + count - k - 1) = Some v ->
  v = u8 v /\ moved_down (k + 1) (<[dest + count - k - 1 := v]> m').
Proof.
  intros Hk Hlt Hm Hv. unfold moved_down, moved in *.
  assert (m !! (src + count - k - 1) = Some v) as Hv'.
  { rewrite Hm in Hv. destruct (Z.leb_spec (dest + count - k) (src + count - k - 1)); [lia|done]. }
  split; [symmetry; apply u8_small; apply (Hok _ _ Hv')|].
  intros a. destruct (Z.eq_dec a (dest + count - k - 1)) as [->|Hne].
  - rewrite lookup_insert_eq.
    destruct (Z.leb_spec (dest + count - (k + 1)) (dest + count - k - 1)),
      (Z.ltb_spec (dest + count - k - 1) (dest + count - (k + 1) + (k + 1))); simpl; try lia.
    rewrite <- Hv'. f_equal. lia.
  - rewrite lookup_insert_ne by done. rewrite Hm.
    destruct (Z.leb_spec (dest + count - k) a), (Z.ltb_spec a (dest + count - k + k)),
      (Z.leb_spec (dest + count - (k + 1)) a), (Z.ltb_spec a (dest + count - (k + 1) + (k + 1)));
      simpl; try lia; try done. f_equal. lia.
Qed.

Lemma moved_down_mapped k m' a :
  0 <= k <= count -> moved_down k m' -> is_Some (m !! a) -> is_Some (m' !! a).
Proof.
  intros Hk Hm Ha. unfold moved_down, moved in Hm. rewrite Hm.
  destruct (_ && _) eqn:E; [|done]. apply andb_true_iff in E as [E1 E2].
  apply Z.leb_le in E1. apply Z.ltb_lt in E2.
  replace (src + count - k + (a - (dest + count - k))) with (src + (a - dest)) by lia.
  apply Hsrc. lia.
Qed.

Lemma runs_memmove (Q : Z -> fw -> Prop) :
  (forall m', moved m dest src count m' -> Q dest (with_mem m' s0)) ->
  runs (memmove dest src count) n s0 Q.
Proof.
  intros HQ. unfold memmove. apply runs_bind. destruct (Z.leb_spec dest src).
  { apply runs_copy_up; [done|]. intros m' Hm. apply runs_ret. by apply HQ. }
  apply (runs_iter (fun j x s' => exists k m', x = (dest + count - k, src + count - k, count - k) /\
    0 <= k <= count /\ j = Z.to_nat (count - k) /\ s' = with_mem m' s0 /\ moved_down k m')
    _ _ n (Z.to_nat count)).
  - intros j x s' (k & m' & -> & Hk & -> & -> & Hm). destruct (truthy (count - k)) eqn:Et.
    + apply truthy_true in Et.
      destruct (moved_down_mapped k m' (src + count - k - 1) ltac:(lia) Hm) as [v Hv].
      { replace (src + count - k - 1) with (src + (count - k - 1)) by lia. apply Hsrc. lia. }
      destruct (moved_down_step k m' v ltac:(lia) ltac:(lia) Hm Hv) as [Hu Hm'].
      apply runs_bind. eapply runs_ld8; [exact Hv|]. apply runs_bind, runs_st8.
      { apply (moved_down_mapped k); [lia|done|].
        replace (dest + count - k - 1) with (dest + (count - k - 1)) by lia. apply Hdest. lia. }
      apply runs_ret. exists (Z.to_nat (count - (k + 1))). split; [lia|].
      exists (k + 1), (<[dest + count - k - 1 := v]> m').
      split; [|split; [lia|split; [done|split; [|done]]]].
      * rewrite u32_small by lia. f_equal; [f_equal; lia|lia].
      * by rewrite <- Hu.
    + apply truthy_false in Et. apply runs_ret, runs_ret. apply HQ. replace k with count in Hm by lia.
      unfold moved_down in Hm. replace (dest + count - count) with dest in Hm by lia.
      by replace (src + count - count) with src in Hm by lia.
  - exists 0, m. rewrite !Z.sub_0_r. repeat split; try lia; [symmetry; apply with_mem_same|].
    unfold moved_down, moved. intros a.
    destruct (Z.leb_spec (dest + count - 0) a), (Z.ltb_spec a (dest + count - 0 + 0)); simpl; try lia; done.
  - done.
Qed.
End Copy.

(** ** Searching *)

(** Position of the first occurrence of [needle] in [hay]. *)
Fixpoint find_sub (hay needle : list Z) : option nat :=
  if bool_decide (take (length needle) hay = needle) then Some O
  else match hay with
       | [] => None
       | _ :: hay => S <$> find_sub hay needle
       end.

Section Search.
Context (n : nat) (s : fw).
Let m := g_mem (gl s).

(** [memcmp] of two objects of the same length finds whether they are equal. *)
Lemma runs_memcmp l1 : forall l2 p q r k (Q : Z -> fw -> Prop),
  bytes_at m p l1 -> bytes_at m q l2 -> length l1 = length l2 ->
  Forall (fun c => 0 <= c < 256) l1 -> Forall (fun c => 0 <= c < 256) l2 ->
  (length l1 < k)%nat -> Z.of_nat (length l1) < 2 ^ 32 -> r = 0 ->
  (forall v, (v = 0 <-> l1 = l2) -> Q v s) ->
  match iter_n k (fun '(su1, su2, count, res) =>
    if 0 <? count then
      a <- ld8 su1 ;;
      b <- ld8 su2 ;;
      let res := a - b in
      if negb (res =? 0) then ret (inr res) else ret (inl (su1 + 1, su2 + 1, u32 (count - 1), res))
    else ret (inr res)) (p, q, Z.of_nat (length l1), r) n s with Ret v s' => Q v s' | _ => False end.
Proof.
  induction l1 as [|a l1 IH]; intros [|b l2] p q r k Q Hp Hq Hl H1 H2 Hk H32 -> HQ;
    simpl in Hl; try lia; (destruct k as [|k]; [simpl in Hk; lia|]).
  - simpl. apply HQ. done.
  - apply bytes_at_cons in Hp as [Hp Hp']. apply bytes_at_cons in Hq as [Hq Hq'].
    apply list.Forall_cons in H1 as [Ha H1]. apply list.Forall_cons in H2 as [Hb H2].
    cbn [iter_n]. destruct (Z.ltb_spec 0 (Z.of_nat (length (a :: l1)))) as [_|]; [|simpl in *; lia].
    unfold bind, ld8. unfold m in Hp, Hq. rewrite Hp, Hq.
    destruct (Z.eqb_spec (a - b) 0) as [E|E]; simpl negb; cbv iota; unfold ret.
    + replace (u32 (Z.of_nat (length (a :: l1)) - 1)) with (Z.of_nat (length l1))
        by (simpl length in *; rewrite u32_small; lia).
      apply (IH l2); try done; try lia; [simpl in Hk; lia|simpl in H32; lia|].
      intros v Hv. apply HQ. rewrite Hv. replace b with a by lia. split; congruence.
    + apply HQ. split; [done|]. intros [= -> ->]. lia.
Qed.

Lemma find_sub_short hay needle : (length hay < length needle)%nat -> find_sub hay needle = None.
Proof.
  induction hay as [|c hay IH]; intros Hl; cbn [find_sub].
  - rewrite take_nil, bool_decide_eq_false_2; [done|]. intros <-. simpl in Hl. lia.
  - rewrite bool_decide_eq_false_2.
    + rewrite IH; [done|]. simpl in Hl. lia.
    + intros E. apply (f_equal length) in E. rewrite length_take in E. lia.
Qed.

Lemma str_at_bytes p cs : str_at m p cs -> bytes_at m p cs.
Proof. intros [_ H]. by apply bytes_at_app in H as [H _]. Qed.

Lemma str_at_chars p cs : str_at m p cs -> Forall (fun c => 0 <= c < 256) cs.
Proof. intros [H _]. eapply list.Forall_impl; [exact H|]. intros c Hc; simpl in Hc; lia. Qed.

Lemma bytes_at_take p k l : bytes_at m p l -> bytes_at m p (take k l).
Proof. intros H. rewrite <- (take_drop k l) in H. by apply bytes_at_app in H as [H _]. Qed.

Lemma runs_strstr p q hay needle (Q : Z -> fw -> Prop) :
  str_at m p hay -> str_at m q needle ->
  Z.of_nat (length hay) < 2 ^ 31 -> Z.of_nat (length needle) < 2 ^ 31 ->
  (length hay + 1 < n)%nat -> (length needle < n)%nat ->
  Q (match find_sub hay needle with Some k => p + Z.of_nat k | None => NULL end) s ->
  runs (strstr p q) n s Q.
Proof.
  intros Hp Hq H1 H2 Hn1 Hn2 HQ. unfold strstr. apply runs_bind.
  eapply runs_strlen; [exact Hq|done|lia|].
  assert (forall z, 0 <= z < 2 ^ 31 -> s32 z = z) as Hs by (intros z Hz; unfold s32; rewrite Z.mod_small; lia).
  rewrite Hs by lia. destruct (Z.eqb_spec (Z.of_nat (length needle)) 0) as [E|E].
  { destruct needle; [|simpl in E; lia]. apply runs_ret. revert HQ. destruct hay; simpl; by rewrite Z.add_0_r. }
  apply runs_bind. eapply runs_strlen; [exact Hp|lia|lia|]. rewrite Hs by lia.
  apply (runs_iter (fun j x s' => s' = s /\ exists rest k, j = length rest /\
    x = (p + Z.of_nat k, Z.of_nat (length rest)) /\ str_at m (p + Z.of_nat k) rest /\
    (length rest <= length hay)%nat /\
    Q (match find_sub rest needle with Some i => p + Z.of_nat (k + i) | None => NULL end) s)
    Q _ n (length hay)); [| |lia].
  2: { split; [done|]. exists hay, O. rewrite Z.add_0_r. done. }
  intros j x s' (-> & rest & k & -> & -> & Hr & Hle & HQ').
  destruct (Z.leb_spec (Z.of_nat (length needle)) (Z.of_nat (length rest))) as [Hlen|Hlen].
  2: { apply runs_ret. by rewrite find_sub_short in HQ' by lia. }
  apply runs_bind. unfold memcmp, runs, iter. rewrite u32_small by lia.
  assert (length (take (length needle) rest) = length needle) as Ht by (rewrite length_take; lia).
  rewrite <- Ht. apply (runs_memcmp (take (length needle) rest) needle); try done; try lia.
  - by apply bytes_at_take, str_at_bytes.
  - by apply str_at_bytes.
  - by apply Forall_take, (str_at_chars _ _ Hr).
  - by apply (str_at_chars _ _ Hq).
  - intros v Hv. destruct rest as [|c rest].
    { simpl in Hlen. lia. }
    cbn [find_sub] in HQ'. destruct (Z.eqb_spec v 0) as [Ev|Ev].
    + rewrite bool_decide_eq_true_2 in HQ' by by apply Hv. rewrite Nat.add_0_r in HQ'. done.
    + rewrite bool_decide_eq_false_2 in HQ' by (rewrite <- Hv; done). simpl.
      exists (length rest). split; [simpl; lia|]. split; [done|]. exists rest, (S k).
      apply str_at_cons in Hr as (_ & _ & Hr). split; [done|].
      replace (p + Z.of_nat (S k)) with (p + Z.of_nat k + 1) by lia.
      split; [f_equal; simpl length; lia|]. split; [done|]. split; [simpl in Hle; lia|].
      destruct (find_sub rest needle) as [i|]; simpl in HQ'; [|done].
      by replace (S k + i)%nat with (k + S i)%nat by lia.
Qed.
End Search.

(** ** Properties *)

(** C27: [memmove] copies any two mapped areas of the same length, however they
    overlap: afterwards the destination holds what the source held before, and
    no other byte of memory changed. *)
Theorem memmove_correct dest src count n s :
  let m := g_mem (gl s) in
  bytes_ok m -> 0 <= count < 2 ^ 32 -> mapped m src count -> mapped m dest count ->
  (Z.to_nat count < n)%nat ->
  runs (memmove dest src count) n s (fun r s' =>
    r = dest /\ exists m', moved m dest src count m' /\ s' = with_mem m' s).
Proof. intros m Hok Hc Hs Hd Hn. apply runs_memmove; [done..|]. intros m' Hm'. eauto. Qed.

(** A memory with the given bytes from address 4096 on. *)
Definition mem_of (l : list Z) : gmap Z Z :=
  list_to_map (zip (seqZ 4096 (Z.of_nat (length l))) l).
Definition fw_mem (l : list Z) : fw := with_mem (mem_of l) fw0.

Lemma memmove_correct_witness :
  runs (memmove 4098 4096 3) 4 (fw_mem [1; 2; 3; 4; 5; 6]) (fun r s' =>
    r = 4098 /\ exists m', moved (mem_of [1; 2; 3; 4; 5; 6]) 4098 4096 3 m' /\
      s' = with_mem m' (fw_mem [1; 2; 3; 4; 5; 6])).
Proof.
  apply (memmove_correct 4098 4096 3 4 (fw_mem [1; 2; 3; 4; 5; 6])).
  - apply (bool_decide_unpack (bytes_ok (mem_of [1; 2; 3; 4; 5; 6]))). vm_compute. exact I.
  - lia.
  - intros i Hi. assert (i = 0 \/ i = 1 \/ i = 2) as [->|[->| ->]] by lia; vm_compute; eexists; reflexivity.
  - intros i Hi. assert (i = 0 \/ i = 1 \/ i = 2) as [->|[->| ->]] by lia; vm_compute; eexists; reflexivity.
  - lia.
Defined.

(** [strcmp] of two strings returns 0 exactly when they are equal, and for
    7-bit strings the difference of the first characters at which they differ
    (the terminator counting as 0), so that its sign is the lexicographic
    order. *)
Theorem strcmp_correct p q cs ct n s :
  str_at (g_mem (gl s)) p cs -> str_at (g_mem (gl s)) q ct -> (length cs < n)%nat ->
  runs (strcmp p q) n s (fun r s' => s' = s /\ (r = 0 <-> cs = ct) /\
    (Forall (fun c => 0 < c < 128) cs -> Forall (fun c => 0 < c < 128) ct -> r = str_diff cs ct)).
Proof.
  intros Hp Hq Hn. unfold strcmp, runs, iter. apply (runs_strcmp n s _ cs ct); [done..|].
  destruct (str_diff_range cs ct (proj1 Hp) (proj1 Hq)) as [Hr Hi].
  split; [done|]. split.
  - rewrite <- Hi. split; [by apply s8_zero|by intros ->].
  - intros H1 H2. apply s8_small. by apply str_diff_ascii.
Qed.

Lemma strcmp_correct_witness :
  runs (strcmp 4096 4099) 3 (fw_mem [97; 98; 0; 97; 0]) (fun r s' =>
    s' = fw_mem [97; 98; 0; 97; 0] /\ (r = 0 <-> [97; 98] = [97]) /\
    (Forall (fun c => 0 < c < 128) [97; 98] -> Forall (fun c => 0 < c < 128) [97] ->
     r = str_diff [97; 98] [97])).
Proof.
  apply (strcmp_correct 4096 4099 [97; 98] [97] 3 (fw_mem [97; 98; 0; 97; 0])).
  - rewrite !str_at_cons, str_at_nil. vm_compute. repeat split; reflexivity.
  - rewrite !str_at_cons, str_at_nil. vm_compute. repeat split; reflexivity.
  - simpl. lia.
Defined.

(** with characters above 127 the sign of [strcmp] is not the order of the
    strings: the difference is truncated to a [signed char], so 0xC8 compares
    below the letter A. *)
Theorem strcmp_truncates :
  strcmp 4096 4098 3%nat (fw_mem [200; 0; 65; 0]) = Ret (-121) (fw_mem [200; 0; 65; 0]) /\
  str_diff [200] [65] = 135.
Proof. split; vm_compute; reflexivity. Qed.

(** [strstr] returns the address of the first occurrence of the second
    string in the first (the start for an empty second string), and NULL when
    there is none. *)
Theorem strstr_first p q hay needle n s :
  str_at (g_mem (gl s)) p hay -> str_at (g_mem (gl s)) q needle ->
  Z.of_nat (length hay) < 2 ^ 31 -> Z.of_nat (length needle) < 2 ^ 31 ->
  (length hay + 1 < n)%nat -> (length needle < n)%nat ->
  runs (strstr p q) n s (fun r s' => s' = s /\
    r = match find_sub hay needle with Some k => p + Z.of_nat k | None => NULL end).
Proof. intros Hp Hq H1 H2 Hn1 Hn2. by apply (runs_strstr n s p q hay needle). Qed.

Lemma strstr_first_witness :
  let s := fw_mem [97; 97; 98; 0; 97; 98; 0] in
  runs (strstr 4096 4100) 5 s (fun r s' => s' = s /\
    r = match find_sub [97; 97; 98] [97; 98] with Some k => 4096 + Z.of_nat k | None => NULL end).
Proof.
  apply (strstr_first 4096 4100 [97; 97; 98] [97; 98] 5 (fw_mem [97; 97; 98; 0; 97; 98; 0])).
  - rewrite !str_at_cons, str_at_nil. vm_compute. repeat split; reflexivity.
  - rewrite !str_at_cons, str_at_nil. vm_compute. repeat split; reflexivity.
  - simpl; lia.
  - simpl; lia.
  - simpl; lia.
  - simpl; lia.
Defined.
