(* ===== verification/Div64.v ===== *)
(** 64-bit arithmetic on the 32-bit core: baremetal/20_pwm/stdio/lib/div64.c,
    the macro [do_div] of stdio/include/div64.h, and stdio/lib/muldi3.c. *)
From S2P Require Import Prelude Machine FwLogic.

(** ** Operations *)

(** The shift loop of [__div64_32]: the multiple of the divisor to start from. *)
Definition div64_scale (rem b : Z) : M (Z * Z) :=
  iter (fun '(b, d) =>
    if (0 <? s64 b) && (b <? rem) then ret (inl (u64 (b + b), u64 (d + d)))
    else ret (inr (b, d))) (b, 1).

(** The subtract loop. *)
Definition div64_loop (rem res b d : Z) : M (Z * Z) :=
  iter (fun '(rem, res, b, d) =>
    let '(rem, res) := if b <=? rem then (u64 (rem - b), u64 (res + d)) else (rem, res) in
    let b := b >> 1 in
    let d := d >> 1 in
    if truthy d then ret (inl (rem, res, b, d)) else ret (inr (res, rem))) (rem, res, b, d).

(** [*n] after the call, and the result. *)
Definition __div64_32 (n base : Z) : M (Z * Z) :=
  let high := u32 (n >> 32) in
  if base <=? high then
    if base =? 0 then undefined
    else
      let high := high / base in
      let res := u64 (high << 32) in
      let rem := u64 (n - u64 (u32 (high * base) << 32)) in
      unpack (b, d) <- div64_scale rem base ;;
      unpack (res, rem) <- div64_loop rem res b d ;;
      ret (res, u32 rem)
  else
    unpack (b, d) <- div64_scale n base ;;
    unpack (res, rem) <- div64_loop n 0 b d ;;
    ret (res, u32 rem).

Definition do_div (n base : Z) : M (Z * Z) :=
  if n >> 32 =? 0 then
    if base =? 0 then undefined else ret (u32 n / base, u32 n mod base)
  else __div64_32 n base.

(** The inline assembly of [umul_ppmm], one line per instruction; the result is
    (xh, xl). *)
Definition umul_ppmm (a b : Z) : Z * Z :=
  let t0 := a >> 16 in
  let xh := b >> 16 in
  let t1 := a .\ u32 (t0 << 16) in
  let t2 := b .\ u32 (xh << 16) in
  let xl := u32 (t1 * t2) in
  let t2 := u32 (t0 * t2) in
  let t1 := u32 (xh * t1) in
  let xh := u32 (t0 * xh) in
  let carry := 2 ^ 32 <=? t2 + t1 in
  let t1 := u32 (t2 + t1) in
  let xh := if carry then u32 (xh + 65536) else xh in
  let sum := xl + u32 (t1 << 16) in
  let carry := 2 ^ 32 <=? sum in
  let xl := u32 sum in
  let xh := u32 (xh + (t1 >> 16) + Z.b2z carry) in
  (xh, xl).

Definition __muldi3 (u v : Z) : Z :=
  let uu_low := u32 u in
  let uu_high := u32 (u64 u >> 32) in
  let vv_low := u32 v in
  let vv_high := u32 (u64 v >> 32) in
  let '(w_high, w_low) := umul_ppmm uu_low vv_low in
  let w_high := u32 (w_high + u32 (u32 (uu_low * vv_high) + u32 (uu_high * vv_low))) in
  s64 (w_high * 2 ^ 32 + w_low).

(** ** Division *)
Section Division.
Context (n : nat) (base N : Z) (Hbase : 0 < base < 2 ^ 32) (HN : 0 <= N < 2 ^ 64) (Hn : (64 < n)%nat).

Lemma runs_div64_scale rem s (Q : Z * Z -> fw -> Prop) :
  0 <= rem < 2 ^ 64 ->
  (forall k, 0 <= k <= 63 -> base * 2 ^ k < 2 ^ 64 -> rem < 2 * (base * 2 ^ k) ->
     Q (base * 2 ^ k, 2 ^ k) s) ->
  runs (div64_scale rem base) n s Q.
Proof.
  intros Hr HQ. unfold div64_scale.
  apply (runs_iter (fun j x s' => s' = s /\ exists k, x = (base * 2 ^ k, 2 ^ k) /\
    0 <= k <= 63 /\ base * 2 ^ k < 2 ^ 64 /\ j = Z.to_nat (63 - k)) Q _ n 63); [| |lia].
  2: { split; [done|]. exists 0. rewrite Z.mul_1_r. repeat split; lia. }
  intros j x s' (-> & k & -> & Hk & Hb & ->).
  assert (0 < 2 ^ k) by (apply Z.pow_pos_nonneg; lia).
  set (b := base * 2 ^ k) in *. assert (0 < b) by nia.
  assert (s64 b = if b <? 2 ^ 63 then b else b - 2 ^ 64) as ->.
  { unfold s64. destruct (Z.ltb_spec b (2 ^ 63)).
    - rewrite Z.mod_small; lia.
    - rewrite <- (Z_mod_plus _ (-1)), Z.mod_small; lia. }
  destruct ((0 <? (if b <? 2 ^ 63 then b else b - 2 ^ 64)) && (b <? rem)) eqn:Ec.
  - apply andb_true_iff in Ec as [E1 E2]. apply Z.ltb_lt in E1, E2.
    destruct (Z.ltb_spec b (2 ^ 63)); [|lia]. apply runs_ret.
    assert (k < 63) by (destruct (Z.eq_dec k 63) as [->|]; [subst b; nia|lia]).
    exists (Z.to_nat (63 - (k + 1))). split; [lia|]. split; [done|]. exists (k + 1).
    rewrite Z.pow_add_r by lia. change (2 ^ 1) with 2. subst b.
    rewrite !u64_small by nia. repeat split; try lia. f_equal; lia.
  - apply runs_ret. apply HQ; [done|done|]. fold b. apply andb_false_iff in Ec as [E|E].
    + apply Z.ltb_ge in E. destruct (Z.ltb_spec b (2 ^ 63)); lia.
    + apply Z.ltb_ge in E. lia.
Qed.

Lemma runs_div64_loop s rem0 res0 k0 (Q : Z * Z -> fw -> Prop) :
  0 <= k0 <= 63 -> 0 <= res0 -> 0 <= rem0 < 2 * (base * 2 ^ k0) -> res0 * base + rem0 = N ->
  Q (N / base, N mod base) s ->
  runs (div64_loop rem0 res0 (base * 2 ^ k0) (2 ^ k0)) n s Q.
Proof.
  intros Hk0 Hres0 Hrem0 Hval0 HQ. unfold div64_loop.
  apply (runs_iter (fun j x s' => s' = s /\ exists k rem res,
    x = (rem, res, base * 2 ^ k, 2 ^ k) /\ j = Z.to_nat k /\ 0 <= k <= 63 /\ 0 <= res /\
    0 <= rem < 2 * (base * 2 ^ k) /\ res * base + rem = N) Q _ n (Z.to_nat k0)); [| |lia].
  2: { split; [done|]. by exists k0, rem0, res0. }
  intros j x s' (-> & k & rem & res & -> & -> & Hk & Hres & Hrem & Hval).
  assert (0 < 2 ^ k) by (apply Z.pow_pos_nonneg; lia). set (b := base * 2 ^ k) in *.
  assert (exists rem' res', (if b <=? rem then (u64 (rem - b), u64 (res + 2 ^ k)) else (rem, res)) =
    (rem', res') /\ 0 <= res' /\ 0 <= rem' < b /\ res' * base + rem' = N)
    as (rem' & res' & -> & Hres' & Hrem' & Hval').
  { destruct (Z.leb_spec b rem).
    - assert ((res + 2 ^ k) * base + (rem - b) = N) by (subst b; nia).
      exists (rem - b), (res + 2 ^ k). rewrite !u64_small by nia. repeat split; lia.
    - exists rem, res. split; [done|]. lia. }
  cbv zeta. destruct (Z.eq_dec k 0) as [->|Hk0'].
  - change (2 ^ 0 >> 1) with 0. apply runs_ret.
    rewrite (Z.div_unique N base res' rem') by (subst b; lia).
    by rewrite (Z.mod_unique N base res' rem') by (subst b; lia).
  - assert (2 ^ k = 2 * 2 ^ (k - 1)) as Hpow
      by (rewrite <- Z.pow_succ_r by lia; f_equal; lia).
    assert (0 < 2 ^ (k - 1)) by (apply Z.pow_pos_nonneg; lia).
    assert (2 ^ k >> 1 = 2 ^ (k - 1)) as ->.
    { rewrite Z.shiftr_div_pow2, Hpow by lia. change (2 ^ 1) with 2. rewrite Z.mul_comm. apply Z.div_mul. lia. }
    assert (b >> 1 = base * 2 ^ (k - 1)) as ->.
    { subst b. rewrite Z.shiftr_div_pow2, Hpow by lia. change (2 ^ 1) with 2.
      replace (base * (2 * 2 ^ (k - 1))) with (base * 2 ^ (k - 1) * 2) by lia. apply Z.div_mul. lia. }
    assert (truthy (2 ^ (k - 1)) = true) as -> by (apply truthy_true; lia).
    apply runs_ret. exists (Z.to_nat (k - 1)). split; [lia|]. split; [done|].
    exists (k - 1), rem', res'. subst b. repeat split; try lia.
Qed.

Lemma runs_div64_32 s (Q : Z * Z -> fw -> Prop) :
  Q (N / base, N mod base) s -> runs (__div64_32 N base) n s Q.
Proof.
  intros HQ. unfold __div64_32. cbv zeta.
  assert (u32 (N >> 32) = N / 2 ^ 32) as ->.
  { rewrite Z.shiftr_div_pow2 by lia. apply u32_small. split; [apply Z.div_pos; lia|].
    apply Z.div_lt_upper_bound; lia. }
  set (h := N / 2 ^ 32). assert (0 <= h < 2 ^ 32) as Hh
    by (split; [apply Z.div_pos; lia|apply Z.div_lt_upper_bound; lia]).
  pose proof (Z.div_mod N (2 ^ 32) ltac:(lia)) as Hdm. fold h in Hdm.
  pose proof (Z.mod_pos_bound N (2 ^ 32) ltac:(lia)) as Hlow.
  pose proof (Z.mod_pos_bound N base ltac:(lia)) as Hmod.
  destruct (Z.leb_spec base h).
  - destruct (Z.eqb_spec base 0); [lia|].
    pose proof (Z.div_mod h base ltac:(lia)). pose proof (Z.mod_pos_bound h base ltac:(lia)).
    assert (0 <= h / base <= h) by (split; [apply Z.div_pos; lia|apply Z.div_le_upper_bound; nia]).
    set (q := h / base) in *. rewrite (u32_small (q * base)) by nia.
    rewrite !Z.shiftl_mul_pow2 by lia. rewrite (u64_small (q * 2 ^ 32)) by lia.
    rewrite (u64_small (q * base * 2 ^ 32)) by nia. rewrite u64_small by nia.
    apply runs_bind, runs_div64_scale; [nia|]. intros k Hk Hb Hr.
    apply runs_bind, runs_div64_loop; [done|lia|nia|lia|].
    apply runs_ret. by rewrite u32_small by lia.
  - apply runs_bind, runs_div64_scale; [lia|]. intros k Hk Hb Hr.
    apply runs_bind, runs_div64_loop; [done|lia|lia|lia|].
    apply runs_ret. by rewrite u32_small by lia.
Qed.

Lemma runs_do_div s (Q : Z * Z -> fw -> Prop) :
  Q (N / base, N mod base) s -> runs (do_div N base) n s Q.
Proof.
  intros HQ. unfold do_div. destruct (Z.eqb_spec (N >> 32) 0) as [E|E].
  - destruct (Z.eqb_spec base 0); [lia|]. rewrite Z.shiftr_div_pow2 in E by lia.
    apply Z.div_small_iff in E; [|lia]. apply runs_ret. by rewrite u32_small by lia.
  - by apply runs_div64_32.
Qed.
End Division.

(** ** Multiplication *)

(** Splitting a word at bit 16, as the shift and [bic] instructions do. *)
Lemma bic_high a : 0 <= a < 2 ^ 32 -> a .\ u32 ((a >> 16) << 16) = a mod 2 ^ 16.
Proof.
  intros Ha. rewrite Z.shiftr_div_pow2, Z.shiftl_mul_pow2 by lia.
  pose proof (Z.div_mod a (2 ^ 16) ltac:(lia)). pose proof (Z.mod_pos_bound a (2 ^ 16) ltac:(lia)).
  rewrite u32_small by lia. rewrite <- Z.land_ones, <- Z.shiftl_mul_pow2, <- Z.shiftr_div_pow2 by lia.
  apply Z.bits_inj'. intros i Hi. autorewrite with bits.
  destruct (Z.ltb_spec i 16).
  - rewrite (Z.testbit_neg_r _ (i - 16)) by lia. done.
  - rewrite Z.shiftr_spec by lia. replace (i - 16 + 16) with i by lia.
    by destruct (Z.testbit a i).
Qed.

Lemma umul_ppmm_correct a b :
  0 <= a < 2 ^ 32 -> 0 <= b < 2 ^ 32 ->
  let '(xh, xl) := umul_ppmm a b in
  0 <= xh < 2 ^ 32 /\ 0 <= xl < 2 ^ 32 /\ xh * 2 ^ 32 + xl = a * b.
Proof.
  intros Ha Hb. unfold umul_ppmm. rewrite !bic_high by done.
  rewrite !Z.shiftr_div_pow2 by lia.
  pose proof (Z.div_mod a (2 ^ 16) ltac:(lia)) as Ea. pose proof (Z.div_mod b (2 ^ 16) ltac:(lia)) as Eb.
  pose proof (Z.mod_pos_bound a (2 ^ 16) ltac:(lia)). pose proof (Z.mod_pos_bound b (2 ^ 16) ltac:(lia)).
  assert (0 <= a / 2 ^ 16 < 2 ^ 16) by (split; [apply Z.div_pos; lia|apply Z.div_lt_upper_bound; lia]).
  assert (0 <= b / 2 ^ 16 < 2 ^ 16) by (split; [apply Z.div_pos; lia|apply Z.div_lt_upper_bound; lia]).
  set (ah := a / 2 ^ 16) in *. set (al := a mod 2 ^ 16) in *.
  set (bh := b / 2 ^ 16) in *. set (bl := b mod 2 ^ 16) in *. clearbody ah al bh bl.
  assert (0 <= al * bl <= (2 ^ 16 - 1) * (2 ^ 16 - 1)) by nia.
  assert (0 <= ah * bl <= (2 ^ 16 - 1) * (2 ^ 16 - 1)) by nia.
  assert (0 <= bh * al <= (2 ^ 16 - 1) * (2 ^ 16 - 1)) by nia.
  assert (0 <= ah * bh <= (2 ^ 16 - 1) * (2 ^ 16 - 1)) by nia.
  rewrite !(u32_small (_ * _)) by lia.
  assert (a * b = ah * bh * 2 ^ 32 + (ah * bl + bh * al) * 2 ^ 16 + al * bl) as -> by (rewrite Ea, Eb; lia).
  generalize dependent (al * bl). generalize dependent (ah * bl). generalize dependent (bh * al).
  generalize dependent (ah * bh). intros hh Hhh m1 Hm1 m2 Hm2 ll Hll. cbv zeta.
  set (mid := u32 (m2 + m1)). assert (0 <= mid < 2 ^ 32) as Hmid by apply u32_fits.
  assert (mid = m2 + m1 - (if 2 ^ 32 <=? m2 + m1 then 2 ^ 32 else 0)) as Emid.
  { subst mid. unfold u32. destruct (Z.leb_spec (2 ^ 32) (m2 + m1)).
    - rewrite <- (Z_mod_plus _ (-1)), Z.mod_small; lia.
    - rewrite Z.mod_small; lia. }
  clearbody mid. rewrite Z.shiftl_mul_pow2 by lia.
  pose proof (Z.div_mod mid (2 ^ 16) ltac:(lia)) as Ed.
  pose proof (Z.mod_pos_bound mid (2 ^ 16) ltac:(lia)).
  assert (u32 (mid * 2 ^ 16) = mid mod 2 ^ 16 * 2 ^ 16) as ->.
  { unfold u32. change (2 ^ 32) with (2 ^ 16 * 2 ^ 16). by rewrite Zmult_mod_distr_r. }
  set (dh := mid / 2 ^ 16) in *. set (dl := mid mod 2 ^ 16) in *. clearbody dh dl.
  set (sum := ll + dl * 2 ^ 16). assert (0 <= sum < 2 * 2 ^ 32) by (subst sum; lia).
  assert (u32 sum = sum - (if 2 ^ 32 <=? sum then 2 ^ 32 else 0)) as ->.
  { unfold u32. destruct (Z.leb_spec (2 ^ 32) sum).
    - rewrite <- (Z_mod_plus _ (-1)), Z.mod_small; lia.
    - rewrite Z.mod_small; lia. }
  assert ((if 2 ^ 32 <=? m2 + m1 then u32 (hh + 65536) else hh) =
    hh + (if 2 ^ 32 <=? m2 + m1 then 65536 else 0)) as ->.
  { destruct (2 ^ 32 <=? m2 + m1); [apply u32_small; lia|lia]. }
  destruct (Z.leb_spec (2 ^ 32) (m2 + m1)), (Z.leb_spec (2 ^ 32) sum); simpl Z.b2z;
    rewrite u32_small by lia; subst sum; lia.
Qed.

(** ** Properties *)

(** [do_div] divides any 64-bit number by any non-zero 32-bit number: it
    returns (65 iterations of each loop of [__div64_32] suffice), the number
    becomes the quotient and the result is the remainder. *)
Theorem do_div_correct N base n s :
  0 <= N < 2 ^ 64 -> 0 < base < 2 ^ 32 -> (64 < n)%nat ->
  runs (do_div N base) n s (fun '(q, r) s' => q = N / base /\ r = N mod base /\ s' = s).
Proof. intros HN Hb Hn. by apply runs_do_div. Qed.

Lemma do_div_correct_witness :
  runs (do_div 18446744073709551615 100000) 65 fw0 (fun '(q, r) s' =>
    q = 18446744073709551615 / 100000 /\ r = 18446744073709551615 mod 100000 /\ s' = fw0).
Proof. apply do_div_correct; lia. Defined.

Lemma u32_ex z : exists k, u32 z = z + 2 ^ 32 * k.
Proof. exists (- (z / 2 ^ 32)). unfold u32. rewrite Z.mod_eq; lia. Qed.

Lemma s64_cong a b : (exists k, a = b + 2 ^ 64 * k) -> s64 a = s64 b.
Proof.
  intros [k ->]. unfold s64. replace (b + 2 ^ 64 * k + 2 ^ 63) with (b + 2 ^ 63 + k * 2 ^ 64) by lia.
  by rewrite Z_mod_plus_full.
Qed.

(** A 64-bit number from its two words. *)
Lemma u64_split z : exists k, z = u32 (u64 z >> 32) * 2 ^ 32 + u32 z + 2 ^ 64 * k.
Proof.
  exists (z / 2 ^ 64). rewrite Z.shiftr_div_pow2 by lia.
  pose proof (Z.div_mod z (2 ^ 64) ltac:(lia)). pose proof (Z.mod_pos_bound z (2 ^ 64) ltac:(lia)).
  unfold u64. rewrite (u32_small (_ / _)).
  2: { split; [apply Z.div_pos; lia|apply Z.div_lt_upper_bound; lia]. }
  pose proof (Z.div_mod (z mod 2 ^ 64) (2 ^ 32) ltac:(lia)).
  enough (u32 z = (z mod 2 ^ 64) mod 2 ^ 32) by lia.
  unfold u32. change (2 ^ 64) with (2 ^ 32 * 2 ^ 32). rewrite Z.rem_mul_r by lia.
  rewrite Z.mul_comm, Z_mod_plus_full. by rewrite Zmod_mod.
Qed.

(** [__muldi3], built from the 16-by-16-bit multiply instructions of
    [umul_ppmm], returns the product of its arguments modulo [2^64], as a signed
    64-bit number. *)
Theorem muldi3_correct u v : __muldi3 u v = s64 (u * v).
Proof.
  unfold __muldi3. pose proof (umul_ppmm_correct (u32 u) (u32 v) (u32_fits u) (u32_fits v)) as H.
  destruct (umul_ppmm (u32 u) (u32 v)) as [xh xl]. destruct H as (Hh & Hl & E). cbv zeta.
  destruct (u64_split u) as [ku Hu]. destruct (u64_split v) as [kv Hv].
  set (uh := u32 (u64 u >> 32)) in *. set (vh := u32 (u64 v >> 32)) in *.
  set (ul := u32 u) in *. set (vl := u32 v) in *.
  destruct (u32_ex (ul * vh)) as [k1 ->]. destruct (u32_ex (uh * vl)) as [k2 ->].
  destruct (u32_ex (ul * vh + 2 ^ 32 * k1 + (uh * vl + 2 ^ 32 * k2))) as [k3 ->].
  match goal with |- context [u32 (xh + ?z)] => destruct (u32_ex (xh + z)) as [k4 ->] end.
  apply s64_cong. rewrite Hu, Hv.
  exists (k4 + k3 + k1 + k2 - uh * vh - ku * (vh * 2 ^ 32 + vl) - kv * (uh * 2 ^ 32 + ul) - 2 ^ 64 * ku * kv).
  transitivity (xh * 2 ^ 32 + xl + 2 ^ 32 * (ul * vh + uh * vl) + 2 ^ 64 * (k1 + k2 + k3 + k4)); [lia|].
  rewrite E. ring.
Qed.
