(* ===== verification/Vsprintf.v ===== *)
(** Formatted output and input: baremetal/20_pwm/stdio/lib/vsprintf.c.

    Format strings, buffers and strings are in byte memory (CMem.v); an argument
    list is the list of 32-bit words that [va_arg] of stdio/include/vsprintf.h
    walks over. *)
From S2P Require Import Prelude Machine FwLogic Ctype CMem Div64.

Definition ZEROPAD : Z := 1.
Definition SIGN : Z := 2.
Definition PLUS : Z := 4.
Definition SPACE : Z := 8.
Definition LEFT : Z := 16.
Definition SPECIAL : Z := 32.
Definition LARGE : Z := 64.
Definition SMALL : Z := 32.

(** ** Reading numbers *)

(** [isdigit(c) ? c-'0' : toupper(c)-'A'+10] *)
Definition digit_value (c : Z) : Z := if isdigit c then c - 48 else toupper c - 65 + 10.

(** Lines 49 to 62: base detection; the base and the pointer it leaves. *)
Definition strto_base (cp base : Z) : M (Z * Z) :=
  if base =? 0 then
    c <- ld8 cp ;;
    if c =? 48 then
      c1 <- ld8 (cp + 1) ;;
      x <- (if toupper c1 =? 88 then c2 <- ld8 (cp + 2) ;; ret (isxdigit c2) else ret false) ;;
      if x : bool then ret (16, cp + 2) else ret (8, cp + 1)
    else ret (10, cp)
  else if base =? 16 then
    c <- ld8 cp ;;
    x <- (if c =? 48 then c1 <- ld8 (cp + 1) ;; ret (toupper c1 =? 88) else ret false) ;;
    if x : bool then ret (16, cp + 2) else ret (16, cp)
  else ret (base, cp).

(** The digit loop with a result of the given width; result and end pointer. *)
Definition strto_digits (wrap : Z -> Z) (cp base : Z) : M (Z * Z) :=
  iter (fun '(cp, result) =>
    c <- ld8 cp ;;
    if isxdigit c && (u32 (digit_value c) <? base)
    then ret (inl (cp + 1, wrap (result * base + u32 (digit_value c))))
    else ret (inr (result, cp))) (cp, 0).

Definition simple_strtoul (cp base : Z) : M (Z * Z) :=
  unpack (base, cp) <- strto_base cp base ;;
  strto_digits u32 cp base.

Definition simple_strtol (cp base : Z) : M (Z * Z) :=
  c <- ld8 cp ;;
  if c =? 45 then
    unpack (r, e) <- simple_strtoul (cp + 1) base ;; ret (s32 (u32 (- r)), e)
  else unpack (r, e) <- simple_strtoul cp base ;; ret (s32 r, e).

Definition simple_strtoull (cp base : Z) : M (Z * Z) :=
  unpack (base, cp) <- strto_base cp base ;;
  strto_digits u64 cp base.

Definition simple_strtoll (cp base : Z) : M (Z * Z) :=
  c <- ld8 cp ;;
  if c =? 45 then
    unpack (r, e) <- simple_strtoull (cp + 1) base ;; ret (s64 (u64 (- r)), e)
  else unpack (r, e) <- simple_strtoull cp base ;; ret (s64 r, e).

(** The number and the pointer after it; a number past the range of [int] is
    undefined. *)
Definition skip_atoi (s : Z) : M (Z * Z) :=
  iter (fun '(s, i) =>
    c <- ld8 s ;;
    if isdigit c then
      let i := i * 10 + c - 48 in
      if i <? 2 ^ 31 then ret (inl (s + 1, i)) else undefined
    else ret (inr (i, s))) (s, 0).

(** ** Decimal digits *)

(** The local buffer is the list of the characters stored so far. *)
Definition put_dec_trunc (buf : list Z) (q : Z) : list Z :=
  let d1 := (q >> 4) .& 0xf in
  let d2 := (q >> 8) .& 0xf in
  let d3 := q >> 12 in
  let d0 := u32 (6 * (d3 + d2 + d1) + (q .& 0xf)) in
  let q := u32 (d0 * 0xcd) >> 11 in
  let d0 := u32 (d0 - 10 * q) in
  let buf := buf ++ [u8 (d0 + 48)] in
  let d1 := u32 (q + 9 * d3 + 5 * d2 + d1) in
  if negb (d1 =? 0) then
    let q := u32 (d1 * 0xcd) >> 11 in
    let d1 := u32 (d1 - 10 * q) in
    let buf := buf ++ [u8 (d1 + 48)] in
    let d2 := u32 (q + 2 * d2) in
    if negb (d2 =? 0) || negb (d3 =? 0) then
      let q := u32 (d2 * 0xd) >> 7 in
      let d2 := u32 (d2 - 10 * q) in
      let buf := buf ++ [u8 (d2 + 48)] in
      let d3 := u32 (q + 4 * d3) in
      if negb (d3 =? 0) then
        let q := u32 (d3 * 0xcd) >> 11 in
        let d3 := u32 (d3 - 10 * q) in
        let buf := buf ++ [u8 (d3 + 48)] in
        if negb (q =? 0) then buf ++ [u8 (q + 48)] else buf
      else buf
    else buf
  else buf.

Definition put_dec_full (buf : list Z) (q : Z) : list Z :=
  let d1 := (q >> 4) .& 0xf in
  let d2 := (q >> 8) .& 0xf in
  let d3 := q >> 12 in
  let d0 := u32 (6 * (d3 + d2 + d1) + (q .& 0xf)) in
  let q := u32 (d0 * 0xcd) >> 11 in
  let d0 := u32 (d0 - 10 * q) in
  let buf := buf ++ [u8 (d0 + 48)] in
  let d1 := u32 (q + 9 * d3 + 5 * d2 + d1) in
  let q := u32 (d1 * 0xcd) >> 11 in
  let d1 := u32 (d1 - 10 * q) in
  let buf := buf ++ [u8 (d1 + 48)] in
  let d2 := u32 (q + 2 * d2) in
  let q := u32 (d2 * 0xd) >> 7 in
  let d2 := u32 (d2 - 10 * q) in
  let buf := buf ++ [u8 (d2 + 48)] in
  let d3 := u32 (q + 4 * d3) in
  let q := u32 (d3 * 0xcd) >> 11 in
  let d3 := u32 (d3 - 10 * q) in
  let buf := buf ++ [u8 (d3 + 48)] in
  buf ++ [u8 (q + 48)].

Definition put_dec (buf : list Z) (num : Z) : M (list Z) :=
  iter (fun '(buf, num) =>
    if num <? 100000 then ret (inr (put_dec_trunc buf (u32 num)))
    else
      unpack (num, rem) <- do_div num 100000 ;;
      ret (inl (put_dec_full buf rem, num))) (buf, num).

(** ** [number] *)

(** [ADDCH]: nothing is stored from [end] on. *)
Definition addch (end_ str ch : Z) : M Z :=
  (when str <? end_ then st8 str ch) ;; ret (str + 1).

(** [while (--size >= 0) ADDCH(buf, c);] returns [size] and [buf]. *)
Definition pad (end_ c size buf : Z) : M (Z * Z) :=
  iter (fun '(size, buf) =>
    let size := size - 1 in
    if 0 <=? size then buf <- addch end_ buf c ;; ret (inl (size, buf))
    else ret (inr (size, buf))) (size, buf).

Definition digits : list Z := [48;49;50;51;52;53;54;55;56;57;65;66;67;68;69;70].

(** Lines 300 to 311: base 8 or 16.  The array [tmp] has 100 elements. *)
Definition number_bits (num base locase : Z) : M (list Z) :=
  let mask := base - 1 in
  let shift := if base =? 16 then 4 else 3 in
  iter (fun '(tmp, num) =>
    if (length tmp <? 100)%nat then
      let tmp := tmp ++ [nth (Z.to_nat (u8 num .& mask)) digits 0 .| locase] in
      let num := num >> shift in
      if truthy num then ret (inl (tmp, num)) else ret (inr tmp)
    else undefined) ([], num).

(** Lines 291 to 314: the digits, least significant first. *)
Definition number_digits (num base locase : Z) : M (list Z) :=
  if num =? 0 then ret [48]
  else if negb (base =? 10) then number_bits num base locase
  else put_dec [] (u64 num).

(** Lines 270 to 283: the sign character, the magnitude and the width left. *)
Definition number_sign (num size type : Z) : M (Z * Z * Z) :=
  if truthy (type .& SIGN) then
    if num <? 0 then if num =? - 2 ^ 63 then undefined else ret (45, - num, size - 1)
    else if truthy (type .& PLUS) then ret (43, num, size - 1)
    else if truthy (type .& SPACE) then ret (32, num, size - 1)
    else ret (0, num, size)
  else ret (0, num, size).

(** Lines 340 to 345: precision zeros, then the digits. *)
Definition number_body (end_ : Z) (tmp : list Z) (precision buf : Z) : M Z :=
  let i := Z.of_nat (length tmp) in
  buf <- iter (fun '(precision, buf) =>
           let precision := precision - 1 in
           if i <=? precision then buf <- addch end_ buf 48 ;; ret (inl (precision, buf))
           else ret (inr buf)) (precision, buf) ;;
  iter (fun '(i, buf) =>
    let i := i - 1 in
    if 0 <=? i then buf <- addch end_ buf (nth (Z.to_nat i) tmp 0) ;; ret (inl (i, buf))
    else ret (inr buf)) (i, buf).

Definition number (buf end_ num base size precision type : Z) : M Z :=
  let need_pfx := truthy (type .& SPECIAL) && negb (base =? 10) in
  let locase := type .& SMALL in
  let type := if truthy (type .& LEFT) then type .\ ZEROPAD else type in
  unpack (sign, num, size) <- number_sign num size type ;;
  let size := if need_pfx then (if base =? 16 then size - 2 else size - 1) else size in
  tmp <- number_digits num base locase ;;
  let i := Z.of_nat (length tmp) in
  let precision := if precision <? i then i else precision in
  let size := s32 (size - precision) in
  unpack (size, buf) <-
    (if negb (truthy (type .& (ZEROPAD + LEFT))) then pad end_ 32 size buf else ret (size, buf)) ;;
  buf <- (if truthy sign then addch end_ buf sign else ret buf) ;;
  buf <- (if need_pfx then
            buf <- addch end_ buf 48 ;;
            if base =? 16 then addch end_ buf (88 .| locase) else ret buf
          else ret buf) ;;
  unpack (size, buf) <-
    (if negb (truthy (type .& LEFT))
     then pad end_ (if truthy (type .& ZEROPAD) then 48 else 32) size buf
     else ret (size, buf)) ;;
  buf <- number_body end_ tmp precision buf ;;
  unpack (size, buf) <- pad end_ 32 size buf ;;
  ret buf.

(** ** [vsnprintf] *)

(** [if (str <= end) *str = ch; ++str;] *)
Definition emit (end_ str ch : Z) : M Z :=
  (when str <=? end_ then st8 str ch) ;; ret (str + 1).

(** [while (--field_width > 0) emit(' ');] *)
Definition pad_char (end_ width str : Z) : M (Z * Z) :=
  iter (fun '(width, str) =>
    let width := width - 1 in
    if 0 <? width then str <- emit end_ str 32 ;; ret (inl (width, str))
    else ret (inr (width, str))) (width, str).

(** [while (len < field_width--) emit(' ');] *)
Definition pad_str (end_ len width str : Z) : M (Z * Z) :=
  iter (fun '(width, str) =>
    if len <? width then str <- emit end_ str 32 ;; ret (inl (width - 1, str))
    else ret (inr (width - 1, str))) (width, str).

(** Little-endian stores of the wider types. *)
Definition st16 (a v : Z) : M unit := st8 a v ;; st8 (a + 1) (v >> 8).
Definition st32 (a v : Z) : M unit := st16 a v ;; st16 (a + 2) (v >> 16).
Definition st64 (a v : Z) : M unit := st32 a v ;; st32 (a + 4) (v >> 32).

(** [va_arg] of a word. *)
Definition va_word (args : list Z) : M (Z * list Z) :=
  match args with
  | [] => undefined
  | w :: args => ret (u32 w, args)
  end.

(** Lines 508 to 518: the flags, and the pointer past them. *)
Definition vsn_flags (fmt : Z) : M (Z * Z) :=
  iter (fun '(fmt, flags) =>
    let fmt := fmt + 1 in
    c <- ld8 fmt ;;
    if c =? 45 then ret (inl (fmt, flags .| LEFT))
    else if c =? 43 then ret (inl (fmt, flags .| PLUS))
    else if c =? 32 then ret (inl (fmt, flags .| SPACE))
    else if c =? 35 then ret (inl (fmt, flags .| SPECIAL))
    else if c =? 48 then ret (inl (fmt, flags .| ZEROPAD))
    else ret (inr (fmt, flags))) (fmt, 0).

(** Lines 519 to 531: pointer, arguments left, width, flags. *)
Definition vsn_width (fmt flags : Z) (args : list Z) : M (Z * list Z * Z * Z) :=
  c <- ld8 fmt ;;
  if isdigit c then
    unpack (width, fmt) <- skip_atoi fmt ;; ret (fmt, args, width, flags)
  else if c =? 42 then
    unpack (w, args) <- va_word args ;;
    let width := s32 w in
    if width <? 0 then
      if width =? - 2 ^ 31 then undefined else ret (fmt + 1, args, - width, flags .| LEFT)
    else ret (fmt + 1, args, width, flags)
  else ret (fmt, args, -1, flags).

(** Lines 533 to 546: pointer, arguments left, precision. *)
Definition vsn_precision (fmt : Z) (args : list Z) : M (Z * list Z * Z) :=
  c <- ld8 fmt ;;
  if c =? 46 then
    let fmt := fmt + 1 in
    c <- ld8 fmt ;;
    unpack (fmt, args, precision) <-
      (if isdigit c then
         unpack (p, fmt) <- skip_atoi fmt ;; ret (fmt, args, p)
       else if c =? 42 then
         unpack (w, args) <- va_word args ;; ret (fmt + 1, args, s32 w)
       else ret (fmt, args, -1)) ;;
    ret (fmt, args, if precision <? 0 then 0 else precision)
  else ret (fmt, args, -1).

(** Lines 548 to 558: pointer and qualifier. *)
Definition vsn_qualifier (fmt : Z) : M (Z * Z) :=
  c <- ld8 fmt ;;
  if (c =? 104) || (c =? 108) || (c =? 76) || (c =? 90) || (c =? 122) then
    c1 <- ld8 (fmt + 1) ;;
    if (c =? 108) && (c1 =? 108) then ret (fmt + 2, 76) else ret (fmt + 1, c)
  else ret (fmt, -1).

(** Lines 565 to 582: the character conversion. *)
Definition vsn_char (end_ str flags width : Z) (args : list Z) : M (Z * list Z) :=
  unpack (width, str) <-
    (if negb (truthy (flags .& LEFT)) then pad_char end_ width str else ret (width, str)) ;;
  unpack (w, args) <- va_word args ;;
  str <- emit end_ str (u8 w) ;;
  unpack (width, str) <- pad_char end_ width str ;;
  ret (str, args).

Definition NULL_text : list Z := [60; 78; 85; 76; 76; 62].

(** Lines 584 to 608: the string conversion. *)
Definition vsn_string (end_ str flags width precision : Z) (args : list Z) : M (Z * list Z) :=
  unpack (s, args) <- va_word args ;;
  len <- (if s <? 1024 then ret (Z.min (Z.of_nat (length NULL_text)) (u32 precision))
          else strnlen s (u32 precision)) ;;
  let len := s32 len in
  unpack (width, str) <-
    (if negb (truthy (flags .& LEFT)) then pad_str end_ len width str else ret (width, str)) ;;
  str <- iter (fun '(i, str) =>
           if i <? len then
             c <- (if s <? 1024 then ret (nth (Z.to_nat i) NULL_text 0) else ld8 (s + i)) ;;
             str <- emit end_ str c ;;
             ret (inl (i + 1, str))
           else ret (inr str)) (0, str) ;;
  unpack (width, str) <- pad_str end_ len width str ;;
  ret (str, args).

(** Lines 673 to 689: the argument of an integer conversion. *)
Definition vsn_arg (qualifier flags : Z) (args : list Z) : M (Z * list Z) :=
  if qualifier =? 76 then
    unpack (lo, args) <- va_word args ;;
    unpack (hi, args) <- va_word args ;;
    ret (hi * 2 ^ 32 + lo, args)
  else
    unpack (w, args) <- va_word args ;;
    if qualifier =? 108 then ret (if truthy (flags .& SIGN) then u64 (s32 w) else w, args)
    else if (qualifier =? 90) || (qualifier =? 122) then ret (w, args)
    else if qualifier =? 104 then
      let h := u16 w in
      ret (if truthy (flags .& SIGN) then u64 ((h + 2 ^ 15) mod 2 ^ 16 - 2 ^ 15) else h, args)
    else ret (if truthy (flags .& SIGN) then u64 (s32 w) else w, args).

(** The integer conversions, lines 643 to 657 and 673 to 691: [base] and the
    flags the [switch] has set. *)
Definition vsn_num (end_ str base flags width precision qualifier : Z) (args : list Z)
    : M (Z * list Z) :=
  unpack (num, args) <- vsn_arg qualifier flags args ;;
  str <- number str end_ (s64 num) base width precision flags ;;
  ret (str, args).

(** The [switch] on the conversion character, lines 563 to 671.  The result is
    the pointer the loop continues from, [str] and the arguments left. *)
Definition vsn_conv (buf end_ str fmt flags width precision qualifier : Z) (args : list Z)
    : M (Z * Z * list Z) :=
  c <- ld8 fmt ;;
  if c =? 99 then
    unpack (str, args) <- vsn_char end_ str flags width args ;; ret (fmt, str, args)
  else if c =? 115 then
    unpack (str, args) <- vsn_string end_ str flags width precision args ;; ret (fmt, str, args)
  else if c =? 112 then
    let '(width, flags) := if width =? -1 then (8, flags .| ZEROPAD) else (width, flags) in
    unpack (w, args) <- va_word args ;;
    str <- number str end_ w 16 width precision flags ;;
    ret (fmt, str, args)
  else if c =? 110 then
    unpack (ip, args) <- va_word args ;;
    st32 ip (str - buf) ;;
    ret (fmt, str, args)
  else if c =? 37 then str <- emit end_ str 37 ;; ret (fmt, str, args)
  else if c =? 111 then
    unpack (str, args) <- vsn_num end_ str 8 flags width precision qualifier args ;;
    ret (fmt, str, args)
  else if c =? 88 then
    unpack (str, args) <- vsn_num end_ str 16 (flags .| LARGE) width precision qualifier args ;;
    ret (fmt, str, args)
  else if c =? 120 then
    unpack (str, args) <- vsn_num end_ str 16 flags width precision qualifier args ;;
    ret (fmt, str, args)
  else if (c =? 100) || (c =? 105) then
    unpack (str, args) <- vsn_num end_ str 10 (flags .| SIGN) width precision qualifier args ;;
    ret (fmt, str, args)
  else if c =? 117 then
    unpack (str, args) <- vsn_num end_ str 10 flags width precision qualifier args ;;
    ret (fmt, str, args)
  else
    str <- emit end_ str 37 ;;
    if truthy c then str <- emit end_ str c ;; ret (fmt, str, args)
    else ret (fmt - 1, str, args).

(** The body of the loop of line 500, for one character of the format. *)
Definition vsn_step (buf end_ fmt str c : Z) (args : list Z) : M (Z * Z * list Z) :=
  if negb (c =? 37) then str <- emit end_ str c ;; ret (fmt, str, args)
  else
    unpack (fmt, flags) <- vsn_flags fmt ;;
    unpack (fmt, args, width, flags) <- vsn_width fmt flags args ;;
    unpack (fmt, args, precision) <- vsn_precision fmt args ;;
    unpack (fmt, qualifier) <- vsn_qualifier fmt ;;
    vsn_conv buf end_ str fmt flags width precision qualifier args.

Definition vsnprintf (buf size fmt : Z) (args : list Z) : M Z :=
  if s32 size <? 0 then ret 0
  else
    let end_ := u32 (buf + size - 1) in
    let '(end_, size) := if end_ <? u32 (buf - 1)
                         then (0xFFFFFFFF, u32 (0xFFFFFFFF - buf + 1)) else (end_, size) in
    str <- iter (fun '(fmt, str, args) =>
             c <- ld8 fmt ;;
             if truthy c then
               unpack (fmt, str, args) <- vsn_step buf end_ fmt str c args ;;
               ret (inl (fmt + 1, str, args))
             else ret (inr str)) (fmt, buf, args) ;;
    (if str <=? end_ then st8 str 0 else when 0 <? size then st8 end_ 0) ;;
    ret (s32 (str - buf)).

Definition vscnprintf (buf size fmt : Z) (args : list Z) : M Z :=
  i <- vsnprintf buf size fmt args ;;
  ret (s32 (if size <=? u32 i then u32 (size - 1) else i)).

Definition snprintf (buf size fmt : Z) (args : list Z) : M Z := vsnprintf buf size fmt args.

Definition scnprintf (buf size fmt : Z) (args : list Z) : M Z :=
  i <- vsnprintf buf size fmt args ;;
  ret (s32 (if size <=? u32 i then u32 (size - 1) else i)).

Definition vsprintf (buf fmt : Z) (args : list Z) : M Z := vsnprintf buf 0x7FFFFFFF fmt args.

Definition sprintf (buf fmt : Z) (args : list Z) : M Z := vsprintf buf fmt args.

(** ** [vsscanf] *)

(** [while (p( *s)) s++;] *)
Definition skip_while (p : Z -> bool) (s : Z) : M Z :=
  iter (fun s => c <- ld8 s ;; if p c then ret (inl (s + 1)) else ret (inr s)) s.

Definition not_space (c : Z) : bool := negb (isspace c) && truthy c.

(** Lines 887 to 901: pointer and qualifier ([hh] is H, [ll] is L). *)
Definition vss_qualifier (fmt : Z) : M (Z * Z) :=
  c <- ld8 fmt ;;
  if (c =? 104) || (c =? 108) || (c =? 76) || (c =? 90) || (c =? 122) then
    c1 <- ld8 (fmt + 1) ;;
    if c =? c1 then
      if c =? 104 then ret (fmt + 2, 72) else if c =? 108 then ret (fmt + 2, 76)
      else ret (fmt + 1, c)
    else ret (fmt + 1, c)
  else ret (fmt, -1).

(** Lines 909 to 919: characters; returns [str]. *)
Definition vss_char (str s width : Z) : M Z :=
  iter (fun '(s, str, width) =>
    c <- ld8 str ;;
    st8 s c ;;
    let width := width - 1 in
    more <- (if 0 <? width then c <- ld8 (str + 1) ;; ret (truthy c) else ret false) ;;
    if more : bool then ret (inl (s + 1, str + 1, width)) else ret (inr (str + 1)))
    (s, str, if width =? -1 then 1 else width).

(** Lines 920 to 936: a string up to white space; returns [str]. *)
Definition vss_string (str s width : Z) : M Z :=
  str <- skip_while isspace str ;;
  unpack (s, str) <- iter (fun '(s, str, width) =>
    c <- ld8 str ;;
    if truthy c && negb (isspace c) && truthy width then
      st8 s c ;; ret (inl (s + 1, str + 1, width - 1))
    else ret (inr (s, str))) (s, str, if width =? -1 then 0x7FFFFFFF else width) ;;
  st8 s 0 ;;
  ret str.

(** Lines 977 to 982: no digit of the base follows. *)
Definition vss_no_digit (base digit : Z) : bool :=
  negb (truthy digit) || ((base =? 16) && negb (isxdigit digit)) ||
  ((base =? 10) && negb (isdigit digit)) ||
  ((base =? 8) && (negb (isdigit digit) || (55 <? digit))) ||
  ((base =? 0) && negb (isdigit digit)).

(** Lines 984 to 1037: convert and store; returns the pointer after the number. *)
Definition vss_store (qualifier is_sign base str p : Z) : M Z :=
  if qualifier =? 76 then
    unpack (v, next) <- (if truthy is_sign then simple_strtoll str base else simple_strtoull str base) ;;
    st64 p v ;; ret next
  else
    unpack (v, next) <-
      (if truthy is_sign && negb ((qualifier =? 90) || (qualifier =? 122))
       then simple_strtol str base else simple_strtoul str base) ;;
    (if qualifier =? 72 then st8 p v else if qualifier =? 104 then st16 p v else st32 p v) ;;
    ret next.

(** Lines 967 to 1042: an integer conversion; [None] when it does not match. *)
Definition vss_num (qualifier is_sign base str : Z) (args : list Z) : M (option (Z * list Z)) :=
  str <- skip_while isspace str ;;
  digit <- ld8 str ;;
  digit <- (if truthy is_sign && (digit =? 45) then ld8 (str + 1) else ret digit) ;;
  if vss_no_digit base digit then ret None
  else
    unpack (p, args) <- va_word args ;;
    next <- vss_store qualifier is_sign base str p ;;
    ret (Some (next, args)).

(** Lines 908 to 1042, from the conversion character on.  [inl]: go on with the
    pointers, the arguments and the count; [inr]: the number converted. *)
Definition vss_conv (buf fmt str num width qualifier : Z) (args : list Z)
    : M ((Z * Z * list Z * Z) + Z) :=
  c <- ld8 fmt ;;
  let fmt := fmt + 1 in
  if c =? 99 then
    unpack (s, args) <- va_word args ;;
    str <- vss_char str s width ;; ret (inl (fmt, str, args, num + 1))
  else if c =? 115 then
    unpack (s, args) <- va_word args ;;
    str <- vss_string str s width ;; ret (inl (fmt, str, args, num + 1))
  else if c =? 110 then
    unpack (p, args) <- va_word args ;;
    st32 p (str - buf) ;; ret (inl (fmt, str, args, num))
  else if c =? 37 then
    d <- ld8 str ;;
    if negb (d =? 37) then ret (inr num) else ret (inl (fmt, str + 1, args, num))
  else if (c =? 111) || (c =? 120) || (c =? 88) || (c =? 105) || (c =? 100) || (c =? 117) then
    let base := if c =? 111 then 8 else if (c =? 120) || (c =? 88) then 16
                else if c =? 105 then 0 else 10 in
    let is_sign := if (c =? 105) || (c =? 100) then 1 else 0 in
    r <- vss_num qualifier is_sign base str args ;;
    match r with
    | Some (next, args) =>
        if truthy next then ret (inl (fmt, next, args, num + 1)) else ret (inr (num + 1))
    | None => ret (inr num)
    end
  else ret (inr num).

(** One round of the loop of line 848. *)
Definition vss_step (buf fmt str num : Z) (args : list Z) : M ((Z * Z * list Z * Z) + Z) :=
  c <- ld8 fmt ;;
  unpack (fmt, str) <-
    (if isspace c then
       fmt <- skip_while isspace fmt ;; str <- skip_while isspace str ;; ret (fmt, str)
     else ret (fmt, str)) ;;
  c <- ld8 fmt ;;
  if negb (c =? 37) && truthy c then
    d <- ld8 str ;;
    if negb (c =? d) then ret (inr num) else ret (inl (fmt + 1, str + 1, args, num))
  else if negb (truthy c) then ret (inr num)
  else
    let fmt := fmt + 1 in
    c <- ld8 fmt ;;
    if c =? 42 then
      fmt <- skip_while not_space fmt ;;
      str <- skip_while not_space str ;;
      ret (inl (fmt, str, args, num))
    else
      unpack (width, fmt) <- (if isdigit c then skip_atoi fmt else ret (-1, fmt)) ;;
      unpack (fmt, qualifier) <- vss_qualifier fmt ;;
      c <- ld8 fmt ;;
      if negb (truthy c) then ret (inr num)
      else
        d <- ld8 str ;;
        if negb (truthy d) then ret (inr num)
        else vss_conv buf fmt str num width qualifier args.

Definition vsscanf (buf fmt : Z) (args : list Z) : M Z :=
  iter (fun '(fmt, str, args, num) =>
    c <- ld8 fmt ;;
    if truthy c then
      d <- ld8 str ;;
      if truthy d then vss_step buf fmt str num args else ret (inr num)
    else ret (inr num)) (fmt, buf, args, 0).

Definition sscanf (buf fmt : Z) (args : list Z) : M Z := vsscanf buf fmt args.
