(* ===== verification/Format.v ===== *)
(** What the functions of vsprintf.c compute: decimal digits, padding, and the
    text [number] puts into a bounded buffer, for all its flags. *)
From S2P Require Import Prelude Machine FwLogic Ctype CMem Div64 Vsprintf.

(** ** Decimal digits, least significant first *)
Definition dec_digit (c : Z) : Prop := 48 <= c <= 57.

Fixpoint dec_value (l : list Z) : Z :=
  match l with
  | [] => 0
  | c :: l => (c - 48) + 10 * dec_value l
  end.

Lemma dec_value_app l1 l2 :
  dec_value (l1 ++ l2) = dec_value l1 + 10 ^ Z.of_nat (length l1) * dec_value l2.
Proof.
  induction l1 as [|c l1 IH]; cbn [app dec_value length]; [lia|].
  rewrite IH, Nat2Z.inj_succ, Z.pow_succ_r by lia. lia.
Qed.

(** Canonical: no leading zero, so the last of the list is not the digit 0
    unless it is alone. *)
Definition canonical (l : list Z) : Prop :=
  Forall dec_digit l /\ l <> [] /\ (forall l', l = l' ++ [48] -> l' = []).

(** The multiplications that stand for a division by ten. *)
Lemma by10 x : 0 <= x < 400 -> u32 (x * 0xcd) >> 11 = x / 10.
Proof.
  intros Hx. assert (forallb (fun x => u32 (x * 0xcd) >> 11 =? x / 10) (seqZ 0 400) = true) as H
    by (vm_compute; reflexivity).
  rewrite forallb_forall in H. apply Z.eqb_eq, H, list_elem_of_In, elem_of_seqZ. lia.
Qed.
Lemma by10_small x : 0 <= x < 69 -> u32 (x * 0xd) >> 7 = x / 10.
Proof.
  intros Hx. assert (forallb (fun x => u32 (x * 0xd) >> 7 =? x / 10) (seqZ 0 69) = true) as H
    by (vm_compute; reflexivity).
  rewrite forallb_forall in H. apply Z.eqb_eq, H, list_elem_of_In, elem_of_seqZ. lia.
Qed.

(** The nibbles of a number below 100000. *)
Lemma nibbles q : 0 <= q < 100000 ->
  q = (q >> 12) * 4096 + ((q >> 8) .& 0xf) * 256 + ((q >> 4) .& 0xf) * 16 + (q .& 0xf) /\
  0 <= q >> 12 <= 24 /\ 0 <= (q >> 8) .& 0xf <= 15 /\ 0 <= (q >> 4) .& 0xf <= 15 /\
  0 <= q .& 0xf <= 15.
Proof.
  intros Hq. assert (forall z, z .& 0xf = z mod 16) as Hl by (intros z; by apply (Z.land_ones z 4)).
  rewrite !Hl, !Z.shiftr_div_pow2 by lia. change (2 ^ 12) with 4096. change (2 ^ 8) with 256.
  change (2 ^ 4) with 16. dlia.
Qed.

(** The chain of divisions both routines compute, from the nibbles on: [ei] is
    the sum at digit [i] and [qi] its quotient by ten. *)
Ltac dec_chain q Hq :=
  destruct (nibbles q Hq) as (Eq & H3 & H2 & H1 & H0);
  generalize dependent (q .& 0xf); generalize dependent ((q >> 4) .& 0xf);
  generalize dependent ((q >> 8) .& 0xf); generalize dependent (q >> 12);
  intros d3 H3 d2 H2 d1 H1 d0 Eq H0; cbv zeta;
  rewrite (u32_small (6 * (d3 + d2 + d1) + d0)) by lia; set (e0 := 6 * (d3 + d2 + d1) + d0) in *;
  assert (0 <= e0 < 340) by lia; rewrite (by10 e0) by lia;
  pose proof (Z.div_mod e0 10 ltac:(lia)); pose proof (Z.mod_pos_bound e0 10 ltac:(lia));
  set (q0 := e0 / 10) in *; rewrite (u32_small (e0 - 10 * q0)) by lia;
  rewrite (u32_small (q0 + 9 * d3 + 5 * d2 + d1)) by lia; set (e1 := q0 + 9 * d3 + 5 * d2 + d1) in *;
  assert (0 <= e1 < 340) by lia; rewrite (by10 e1) by lia;
  pose proof (Z.div_mod e1 10 ltac:(lia)); pose proof (Z.mod_pos_bound e1 10 ltac:(lia));
  set (q1 := e1 / 10) in *; rewrite (u32_small (e1 - 10 * q1)) by lia;
  rewrite (u32_small (q1 + 2 * d2)) by lia; set (e2 := q1 + 2 * d2) in *;
  assert (0 <= e2 < 69) by lia; rewrite (by10_small e2) by lia;
  pose proof (Z.div_mod e2 10 ltac:(lia)); pose proof (Z.mod_pos_bound e2 10 ltac:(lia));
  set (q2 := e2 / 10) in *; rewrite (u32_small (e2 - 10 * q2)) by lia;
  rewrite (u32_small (q2 + 4 * d3)) by lia; set (e3 := q2 + 4 * d3) in *;
  assert (0 <= e3 < 400) by lia; rewrite (by10 e3) by lia;
  pose proof (Z.div_mod e3 10 ltac:(lia)); pose proof (Z.mod_pos_bound e3 10 ltac:(lia));
  set (q3 := e3 / 10) in *; rewrite (u32_small (e3 - 10 * q3)) by lia;
  assert (q = e0 - 10 * q0 + 10 * (e1 - 10 * q1) + 100 * (e2 - 10 * q2) +
              1000 * (e3 - 10 * q3) + 10000 * q3) by lia;
  assert (0 <= q3 <= 9) by lia;
  rewrite !u8_small by lia.

Lemma put_dec_full_spec buf q : 0 <= q < 100000 ->
  exists l, put_dec_full buf q = buf ++ l /\ length l = 5%nat /\ Forall dec_digit l /\ dec_value l = q.
Proof.
  intros Hq. unfold put_dec_full. dec_chain q Hq. rewrite <- !app_assoc. eexists.
  split; [reflexivity|]. split; [done|]. split; [|simpl; lia].
  unfold dec_digit. repeat constructor; lia.
Qed.

(** The number of digits is decided by the sums; the first that is dropped is
    zero and so are all after it. *)
Lemma put_dec_trunc_spec buf q : 0 <= q < 100000 ->
  exists l, put_dec_trunc buf q = buf ++ l /\ (length l <= 5)%nat /\ canonical l /\ dec_value l = q.
Proof.
  intros Hq. unfold put_dec_trunc. dec_chain q Hq.
  assert (forall l c, Forall dec_digit l -> dec_digit c -> (c = 48 -> l = []) -> canonical (l ++ [c]))
    as Hcan.
  { clear. intros l c Hl Hc Hz. split; [apply Forall_app; split; [done|by constructor]|].
    split; [by destruct l|]. intros l' E. apply app_inj_2 in E as [<- E]; [|done].
    injection E as ->. auto. }
  destruct (Z.eqb_spec e1 0); cbn [negb].
  { exists ([] ++ [e0 - 10 * q0 + 48]). split; [done|]. split; [simpl; lia|].
    split; [|simpl; lia]. apply Hcan; [constructor|unfold dec_digit; lia|done]. }
  destruct (negb (e2 =? 0) || negb (d3 =? 0)) eqn:Ez.
  2: { apply orb_false_iff in Ez as [E1 E2]. apply negb_false_iff, Z.eqb_eq in E1, E2.
       exists ([e0 - 10 * q0 + 48] ++ [e1 - 10 * q1 + 48]).
       split; [by rewrite <- !app_assoc|]. split; [simpl; lia|].
       split; [|simpl; lia].
       apply Hcan; [unfold dec_digit; repeat constructor; lia|unfold dec_digit; lia|lia]. }
  assert (e2 <> 0 \/ d3 <> 0) as Hnz.
  { apply orb_true_iff in Ez as [E|E]; apply negb_true_iff, Z.eqb_neq in E; auto. }
  destruct (Z.eqb_spec e3 0); cbn [negb].
  { exists ([e0 - 10 * q0 + 48; e1 - 10 * q1 + 48] ++ [e2 - 10 * q2 + 48]).
    split; [by rewrite <- !app_assoc|]. split; [simpl; lia|]. split; [|simpl; lia].
    apply Hcan; [unfold dec_digit; repeat constructor; lia|unfold dec_digit; lia|lia]. }
  destruct (Z.eqb_spec q3 0); cbn [negb].
  { exists ([e0 - 10 * q0 + 48; e1 - 10 * q1 + 48; e2 - 10 * q2 + 48] ++ [e3 - 10 * q3 + 48]).
    split; [by rewrite <- !app_assoc|]. split; [simpl; lia|]. split; [|simpl; lia].
    apply Hcan; [unfold dec_digit; repeat constructor; lia|unfold dec_digit; lia|lia]. }
  exists ([e0 - 10 * q0 + 48; e1 - 10 * q1 + 48; e2 - 10 * q2 + 48; e3 - 10 * q3 + 48] ++ [q3 + 48]).
  split; [by rewrite <- !app_assoc|]. split; [simpl; lia|]. split; [|simpl; lia].
  apply Hcan; [unfold dec_digit; repeat constructor; lia|unfold dec_digit; lia|lia].
Qed.

(** [put_dec] writes the canonical decimal digits of any 64-bit number. *)
Lemma runs_put_dec num n s (Q : list Z -> fw -> Prop) :
  0 <= num < 2 ^ 64 -> (64 < n)%nat ->
  (forall l, canonical l -> dec_value l = num -> (length l <= 20)%nat -> Q l s) ->
  runs (put_dec [] num) n s Q.
Proof.
  intros Hnum Hn HQ. unfold put_dec.
  apply (runs_iter (fun j x s' => s' = s /\ exists buf k, x = (buf, k) /\ (j <= 3)%nat /\
    length buf = (5 * (3 - j))%nat /\ Forall dec_digit buf /\ (buf <> [] -> 0 < k) /\
    0 <= k < 100000 ^ (Z.of_nat j + 1) /\
    dec_value buf + 10 ^ Z.of_nat (length buf) * k = num) Q _ n 3); [| |lia].
  2: { split; [done|]. exists [], num. split; [done|]. split; [lia|]. split; [done|].
       split; [constructor|]. split; [done|]. change (100000 ^ (Z.of_nat 3 + 1)) with 100000000000000000000.
       cbn [dec_value length]. change (10 ^ Z.of_nat 0) with 1. lia. }
  intros j x s' (-> & buf & k & -> & Hj & Hlen & Hbuf & Hpos & Hk & Hval).
  destruct (Z.ltb_spec k 100000) as [Hlt|Hge].
  - apply runs_ret. rewrite u32_small by lia.
    destruct (put_dec_trunc_spec buf k ltac:(lia)) as (l & -> & Hl & (Hd & Hne & Hz) & Hv).
    apply HQ; [|by rewrite dec_value_app, Hv|rewrite length_app; lia].
    split; [by apply Forall_app|]. split; [by destruct buf, l|]. intros l' E.
    destruct (exists_last Hne) as (l0 & c & ->). rewrite app_assoc in E.
    apply app_inj_2 in E as [E1 E2]; [|done]. injection E2 as ->.
    specialize (Hz l0 eq_refl). subst l0. destruct buf as [|b buf]; [by rewrite <- E1|].
    simpl in Hv. specialize (Hpos ltac:(done)). lia.
  - destruct j as [|j]; [change (100000 ^ (Z.of_nat 0 + 1)) with 100000 in Hk; lia|].
    apply runs_bind, runs_do_div; [lia| |done|].
    { assert (100000 ^ (Z.of_nat (S j) + 1) <= 100000 ^ 4) as Hp by (apply Z.pow_le_mono_r; lia).
      assert (0 <= 10 ^ Z.of_nat (length buf)) by (apply Z.pow_nonneg; lia).
      assert (1 <= 10 ^ Z.of_nat (length buf)) by (apply (Z.pow_le_mono_r 10 0); lia).
      assert (0 <= dec_value buf).
      { clear - Hbuf. induction Hbuf as [|c l Hc Hl IH]; simpl; [lia|]. unfold dec_digit in Hc. lia. }
      nia. }
    apply runs_ret. pose proof (Z.mod_pos_bound k 100000 ltac:(lia)) as Hm.
    pose proof (Z.div_mod k 100000 ltac:(lia)) as Hdm.
    destruct (put_dec_full_spec buf (k mod 100000) Hm) as (l & -> & Hl & Hd & Hv).
    exists j. split; [lia|]. split; [done|]. exists (buf ++ l), (k / 100000). split; [done|].
    split; [lia|]. split; [rewrite length_app; lia|]. split; [by apply Forall_app|].
    split; [intros _; apply Z.div_str_pos; lia|]. split.
    + split; [apply Z.div_pos; lia|]. apply Z.div_lt_upper_bound; [lia|].
      replace (Z.of_nat (S j) + 1) with (Z.succ (Z.of_nat j + 1)) in Hk by lia.
      rewrite Z.pow_succ_r in Hk by lia. lia.
    + rewrite dec_value_app, length_app, Hl, Hv, Nat2Z.inj_add, Z.pow_add_r by lia.
      change (10 ^ Z.of_nat 5) with 100000. rewrite <- Hval. rewrite Hdm at 3. ring.
Qed.

(** ** Characters put into a bounded buffer *)

(** Memory after the characters [l] went out at [p], those before [lim] stored. *)
Fixpoint put_chars (m : gmap Z Z) (p lim : Z) (l : list Z) : gmap Z Z :=
  match l with
  | [] => m
  | c :: l => put_chars (if p <? lim then <[p := u8 c]> m else m) (p + 1) lim l
  end.

Lemma put_chars_app m p lim l1 l2 :
  put_chars m p lim (l1 ++ l2) = put_chars (put_chars m p lim l1) (p + Z.of_nat (length l1)) lim l2.
Proof.
  revert m p. induction l1 as [|c l1 IH]; intros m p; cbn [app put_chars length].
  - by rewrite Z.add_0_r.
  - rewrite IH. by replace (p + 1 + Z.of_nat (length l1)) with (p + Z.of_nat (S (length l1))) by lia.
Qed.

(** The places of [k] characters from [p] that are below [lim] exist. *)
Definition room (m : gmap Z Z) (p lim : Z) (k : nat) : Prop :=
  forall a, p <= a < p + Z.of_nat k -> a < lim -> is_Some (m !! a).

Lemma room_put m p lim q l k : room m q lim k -> room (put_chars m p lim l) q lim k.
Proof.
  revert m p. induction l as [|c l IH]; intros m p Hr; cbn [put_chars]; [done|].
  apply IH. destruct (p <? lim); [|done]. intros a Ha Hl.
  destruct (Z.eq_dec a p) as [->|Hne]; [rewrite lookup_insert_eq; by eexists|].
  rewrite lookup_insert_ne by done. by apply Hr.
Qed.

Lemma room_le m p lim k k' : (k' <= k)%nat -> room m p lim k -> room m p lim k'.
Proof. intros Hk Hr a Ha. apply Hr. lia. Qed.

Lemma room_from m p lim k q k' :
  p <= q -> q + Z.of_nat k' <= p + Z.of_nat k -> room m p lim k -> room m q lim k'.
Proof. intros H1 H2 Hr a Ha. apply Hr. lia. Qed.

(** The state after the characters [l] went out from [p]. *)
Definition after (s : fw) (p lim : Z) (l : list Z) : fw :=
  with_mem (put_chars (g_mem (gl s)) p lim l) s.

Lemma after_app s p lim l1 l2 :
  after s p lim (l1 ++ l2) = after (after s p lim l1) (p + Z.of_nat (length l1)) lim l2.
Proof. unfold after. by rewrite put_chars_app. Qed.
Lemma after_nil s p lim : after s p lim [] = s.
Proof. apply with_mem_same. Qed.

Section Output.
Context (n : nat) (lim : Z).

(** [k] more characters fit at [p], or are past the limit. *)
Definition fits_at (s : fw) (p : Z) (k : nat) : Prop := room (g_mem (gl s)) p lim k.

Lemma fits_at_after s p k q l : fits_at s p k -> fits_at (after s q lim l) p k.
Proof. apply room_put. Qed.

Lemma runs_addch p c s (Q : Z -> fw -> Prop) :
  fits_at s p 1 -> Q (p + 1) (after s p lim [c]) -> runs (addch lim p c) n s Q.
Proof.
  intros Hr HQ. unfold addch. unfold after, put_chars in HQ. apply runs_bind.
  destruct (Z.ltb_spec p lim).
  - apply runs_st8; [apply Hr; lia|]. by apply runs_ret.
  - apply runs_ret, runs_ret. by rewrite with_mem_same in HQ.
Qed.

Lemma runs_pad c p s : forall size (Q : Z * Z -> fw -> Prop),
  (Z.to_nat size < n)%nat -> fits_at s p (Z.to_nat size) ->
  Q ((if 0 <=? size then -1 else size - 1), p + Z.of_nat (Z.to_nat size))
    (after s p lim (replicate (Z.to_nat size) c)) ->
  runs (pad lim c size p) n s Q.
Proof.
  intros size Q Hn Hr HQ. unfold pad.
  apply (runs_iter (fun j x s' => exists d, (d <= Z.to_nat size)%nat /\
    j = (Z.to_nat size - d)%nat /\ x = (size - Z.of_nat d, p + Z.of_nat d) /\
    s' = after s p lim (replicate d c)) Q _ n (Z.to_nat size)); [| |lia].
  2: { exists O. rewrite Z.sub_0_r, Z.add_0_r. simpl. rewrite after_nil. split; [lia|]. split; [lia|done]. }
  intros j x s' (d & Hd & -> & -> & ->). cbv zeta.
  destruct (Z.leb_spec 0 (size - Z.of_nat d - 1)).
  - apply runs_bind, runs_addch.
    { apply fits_at_after. eapply room_from; [..|exact Hr]; lia. }
    apply runs_ret. exists (Z.to_nat size - S d)%nat. split; [lia|]. exists (S d).
    split; [lia|]. split; [done|]. split; [f_equal; lia|].
    rewrite <- (Nat.add_1_r d), replicate_add. simpl replicate at 2.
    by rewrite after_app, length_replicate.
  - apply runs_ret. replace d with (Z.to_nat size) by lia.
    destruct (Z.leb_spec 0 size);
      [replace (size - Z.of_nat (Z.to_nat size) - 1) with (-1) by lia
      |replace (size - Z.of_nat (Z.to_nat size) - 1) with (size - 1) by lia]; done.
Qed.

(** The last [k] of the digits, most significant first. *)
Lemma rev_take_S (tmp : list Z) k c :
  tmp !! k = Some c -> rev (drop k tmp) = rev (drop (S k) tmp) ++ [c].
Proof. intros H. by rewrite (drop_S tmp c k H). Qed.

Lemma runs_out_digits tmp p s (Q : Z -> fw -> Prop) :
  (length tmp < n)%nat -> fits_at s p (length tmp) ->
  Q (p + Z.of_nat (length tmp)) (after s p lim (rev tmp)) ->
  runs (iter (fun '(i, buf) =>
    let i := i - 1 in
    if 0 <=? i then buf <- addch lim buf (nth (Z.to_nat i) tmp 0) ;; ret (inl (i, buf))
    else ret (inr buf)) (Z.of_nat (length tmp), p)) n s Q.
Proof.
  intros Hn Hr HQ.
  apply (runs_iter (fun j x s' => (j <= length tmp)%nat /\
    x = (Z.of_nat j, p + Z.of_nat (length tmp - j)) /\ s' = after s p lim (rev (drop j tmp)))
    Q _ n (length tmp)); [| |done].
  2: { rewrite drop_all, Nat.sub_diag, Z.add_0_r. simpl. by rewrite after_nil. }
  intros j x s' (Hj & -> & ->). cbv zeta. destruct j as [|j].
  - simpl. apply runs_ret. by rewrite Nat.sub_0_r.
  - destruct (Z.leb_spec 0 (Z.of_nat (S j) - 1)); [|lia].
    destruct (lookup_lt_is_Some_2 tmp j ltac:(lia)) as [c Hc].
    replace (Z.to_nat (Z.of_nat (S j) - 1)) with j by lia.
    rewrite (nth_lookup_Some _ _ _ _ Hc). apply runs_bind, runs_addch.
    { apply fits_at_after. eapply room_from; [..|exact Hr]; lia. }
    apply runs_ret. exists j. split; [lia|]. split; [lia|]. split; [f_equal; lia|].
    by rewrite (rev_take_S tmp j c Hc), after_app, length_rev, length_drop.
Qed.

Definition zeros (precision : Z) (tmp : list Z) : list Z :=
  replicate (Z.to_nat (precision - Z.of_nat (length tmp))) 48.

Lemma runs_number_body tmp precision p s (Q : Z -> fw -> Prop) :
  let l := zeros precision tmp ++ rev tmp in
  (length l < n)%nat -> fits_at s p (length l) ->
  Q (p + Z.of_nat (length l)) (after s p lim l) ->
  runs (number_body lim tmp precision p) n s Q.
Proof.
  intros l Hn Hr HQ. unfold number_body. cbv zeta.
  set (i := Z.of_nat (length tmp)). set (k := Z.to_nat (precision - i)).
  assert (length l = k + length tmp)%nat as Hl
    by (subst l; unfold zeros; by rewrite length_app, length_replicate, length_rev).
  apply runs_bind.
  apply (runs_iter (fun j x s' => exists d, (d <= k)%nat /\ j = (k - d)%nat /\
    x = (precision - Z.of_nat d, p + Z.of_nat d) /\ s' = after s p lim (replicate d 48)) _ _ n k);
    [| |lia].
  2: { exists O. rewrite Z.sub_0_r, Z.add_0_r. simpl. rewrite after_nil. split; [lia|]. split; [lia|done]. }
  intros j x s' (d & Hd & -> & -> & ->). cbv zeta.
  destruct (Z.leb_spec i (precision - Z.of_nat d - 1)).
  - apply runs_bind, runs_addch.
    { apply fits_at_after. eapply room_from; [..|exact Hr]; lia. }
    apply runs_ret. exists (k - S d)%nat. split; [lia|]. exists (S d).
    split; [lia|]. split; [done|]. split; [f_equal; lia|].
    rewrite <- (Nat.add_1_r d), replicate_add. simpl replicate at 2.
    by rewrite after_app, length_replicate.
  - apply runs_ret. replace d with k by lia. apply runs_out_digits; [lia| |].
    { apply fits_at_after. eapply room_from; [..|exact Hr]; lia. }
    subst l. unfold zeros in HQ. fold i k in HQ. rewrite after_app, length_replicate in HQ.
    rewrite length_app, length_replicate, length_rev in HQ.
    by replace (p + Z.of_nat k + Z.of_nat (length tmp)) with (p + Z.of_nat (k + length tmp)) by lia.
Qed.

(** *** The text of a number *)
Definition pad_left (size : Z) : Z := if 0 <=? size then -1 else size - 1.

Definition number_text (sign : Z) (pfx tmp : list Z) (size precision type : Z) : list Z :=
  let precision := Z.max precision (Z.of_nat (length tmp)) in
  let size := s32 (size - precision) in
  let left := truthy (type .& LEFT) in
  let spaces := negb (truthy (type .& (ZEROPAD + LEFT))) in
  let size1 := if spaces then pad_left size else size in
  let size2 := if left then size1 else pad_left size1 in
  (if spaces then replicate (Z.to_nat size) 32 else []) ++
  (if truthy sign then [sign] else []) ++ pfx ++
  (if left then [] else
     replicate (Z.to_nat size1) (if truthy (type .& ZEROPAD) then 48 else 32)) ++
  (zeros precision tmp ++ rev tmp) ++
  replicate (Z.to_nat size2) 32.

(** The characters [l] go out after [d] of a text with room for [k]. *)
Lemma runs_addch_at s p d c k (Q : Z -> fw -> Prop) :
  fits_at s p k -> (length d < k)%nat ->
  Q (p + Z.of_nat (length (d ++ [c]))) (after s p lim (d ++ [c])) ->
  runs (addch lim (p + Z.of_nat (length d)) c) n (after s p lim d) Q.
Proof.
  intros Hr Hk HQ. apply runs_addch.
  - apply fits_at_after. eapply room_from; [..|exact Hr]; lia.
  - rewrite after_app, length_app in HQ. simpl in HQ.
    by replace (p + Z.of_nat (length d) + 1) with (p + Z.of_nat (length d + 1)) by lia.
Qed.

Lemma runs_pad_at s p d c size k (Q : Z * Z -> fw -> Prop) :
  fits_at s p k -> (length d + Z.to_nat size <= k)%nat -> (k < n)%nat ->
  (forall l, l = d ++ replicate (Z.to_nat size) c ->
     Q (pad_left size, p + Z.of_nat (length l)) (after s p lim l)) ->
  runs (pad lim c size (p + Z.of_nat (length d))) n (after s p lim d) Q.
Proof.
  intros Hr Hk Hn HQ. apply runs_pad; [lia| |].
  - apply fits_at_after. eapply room_from; [..|exact Hr]; lia.
  - specialize (HQ _ eq_refl). rewrite after_app, length_app, length_replicate in HQ.
    by replace (p + Z.of_nat (length d) + Z.of_nat (Z.to_nat size))
      with (p + Z.of_nat (length d + Z.to_nat size)) by lia.
Qed.

Lemma runs_body_at s p d tmp precision k (Q : Z -> fw -> Prop) :
  fits_at s p k -> (length d + length (zeros precision tmp ++ rev tmp) <= k)%nat -> (k < n)%nat ->
  (forall l, l = d ++ (zeros precision tmp ++ rev tmp) ->
     Q (p + Z.of_nat (length l)) (after s p lim l)) ->
  runs (number_body lim tmp precision (p + Z.of_nat (length d))) n (after s p lim d) Q.
Proof.
  intros Hr Hk Hn HQ. apply runs_number_body; [lia| |].
  - apply fits_at_after. eapply room_from; [..|exact Hr]; lia.
  - specialize (HQ _ eq_refl). rewrite after_app, (length_app d) in HQ.
    by replace (p + Z.of_nat (length d) + Z.of_nat (length (zeros precision tmp ++ rev tmp)))
      with (p + Z.of_nat (length d + length (zeros precision tmp ++ rev tmp))) by lia.
Qed.

(** The optional parts of the text. *)
Lemma runs_opt_pad (b : bool) s p d c size k (Q : Z * Z -> fw -> Prop) :
  fits_at s p k -> (length d + length (if b then replicate (Z.to_nat size) c else []) <= k)%nat ->
  (k < n)%nat ->
  (forall l, l = d ++ (if b then replicate (Z.to_nat size) c else []) ->
     Q (if b then pad_left size else size, p + Z.of_nat (length l)) (after s p lim l)) ->
  runs (if b then pad lim c size (p + Z.of_nat (length d)) else ret (size, p + Z.of_nat (length d)))
    n (after s p lim d) Q.
Proof.
  intros Hr Hk Hn HQ. destruct b.
  - rewrite length_replicate in Hk. by apply (runs_pad_at s p d c size k).
  - apply runs_ret. apply HQ. by rewrite app_nil_r.
Qed.

Lemma runs_opt_pad0 (b : bool) s p c size k (Q : Z * Z -> fw -> Prop) :
  fits_at s p k -> (length (if b then replicate (Z.to_nat size) c else []) <= k)%nat ->
  (k < n)%nat ->
  (let l := if b then replicate (Z.to_nat size) c else [] in
     Q (if b then pad_left size else size, p + Z.of_nat (length l)) (after s p lim l)) ->
  runs (if b then pad lim c size p else ret (size, p)) n s Q.
Proof.
  intros Hr Hk Hn HQ. pose proof (runs_opt_pad b s p [] c size k Q Hr Hk Hn) as Hp.
  rewrite after_nil in Hp. replace (p + Z.of_nat (length [])) with p in Hp by (simpl; lia).
  apply Hp. by intros l ->.
Qed.

Lemma runs_opt_sign s p d sign k (Q : Z -> fw -> Prop) :
  fits_at s p k -> (length d + length (if truthy sign then [sign] else []) <= k)%nat ->
  (forall l, l = d ++ (if truthy sign then [sign] else []) ->
     Q (p + Z.of_nat (length l)) (after s p lim l)) ->
  runs (if truthy sign then addch lim (p + Z.of_nat (length d)) sign
        else ret (p + Z.of_nat (length d))) n (after s p lim d) Q.
Proof.
  intros Hr Hk HQ. destruct (truthy sign).
  - simpl in Hk. apply (runs_addch_at s p d sign k); [done|lia|]. by apply HQ.
  - apply runs_ret. apply HQ. by rewrite app_nil_r.
Qed.

(** *** The whole of [number] *)
Definition prefix_text (base type : Z) : list Z :=
  if truthy (type .& SPECIAL) && negb (base =? 10)
  then 48 :: (if base =? 16 then [88 .| (type .& SMALL)] else []) else [].

Definition drop_zeropad (type : Z) : Z :=
  if truthy (type .& LEFT) then type .\ ZEROPAD else type.

Lemma runs_opt_prefix s p d base type k (Q : Z -> fw -> Prop) :
  fits_at s p k -> (length d + length (prefix_text base type) <= k)%nat ->
  (forall l, l = d ++ prefix_text base type -> Q (p + Z.of_nat (length l)) (after s p lim l)) ->
  runs (if truthy (type .& SPECIAL) && negb (base =? 10) then
          buf <- addch lim (p + Z.of_nat (length d)) 48 ;;
          if base =? 16 then addch lim buf (88 .| (type .& SMALL)) else ret buf
        else ret (p + Z.of_nat (length d))) n (after s p lim d) Q.
Proof.
  intros Hr Hk HQ. unfold prefix_text in *. destruct (truthy _ && _).
  - apply runs_bind. destruct (base =? 16); simpl in Hk.
    + apply (runs_addch_at s p d 48 k); [done|lia|].
      apply (runs_addch_at s p (d ++ [48]) _ k); [done|rewrite length_app; simpl; lia|].
      apply HQ. by rewrite <- app_assoc.
    + apply (runs_addch_at s p d 48 k); [done|lia|]. apply runs_ret. by apply HQ.
  - apply runs_ret. apply HQ. by rewrite app_nil_r.
Qed.

Lemma runs_number p num base size precision type sign num' size' tmp s (Q : Z -> fw -> Prop) :
  let text := number_text sign (prefix_text base type) tmp
    (size' - Z.of_nat (length (prefix_text base type))) precision (drop_zeropad type) in
  number_sign num size (drop_zeropad type) n s = Ret (sign, num', size') s ->
  number_digits num' base (type .& SMALL) n s = Ret tmp s ->
  fits_at s p (length text) -> (length text < n)%nat ->
  Q (p + Z.of_nat (length text)) (after s p lim text) ->
  runs (number p lim num base size precision type) n s Q.
Proof.
  intros text Hsign Hdig Hr Hn HQ. unfold number. cbv zeta. fold (drop_zeropad type).
  apply runs_bind. eapply runs_eq; [exact Hsign|].
  apply runs_bind. eapply runs_eq; [exact Hdig|].
  assert ((if precision <? Z.of_nat (length tmp) then Z.of_nat (length tmp) else precision) =
    Z.max precision (Z.of_nat (length tmp))) as -> by (destruct (Z.ltb_spec precision (Z.of_nat (length tmp))); lia).
  set (prec := Z.max precision (Z.of_nat (length tmp))) in *.
  assert ((if truthy (type .& SPECIAL) && negb (base =? 10)
           then if base =? 16 then size' - 2 else size' - 1 else size') =
    size' - Z.of_nat (length (prefix_text base type))) as ->.
  { unfold prefix_text. destruct (truthy _ && _), (base =? 16); simpl; lia. }
  unfold text, number_text in *. clear text. cbv zeta in HQ, Hr, Hn.
  fold prec in HQ, Hr, Hn.
  set (sz := s32 (size' - Z.of_nat (length (prefix_text base type)) - prec)) in *.
  set (t := drop_zeropad type) in *.
  set (b := negb (truthy (t .& (ZEROPAD + LEFT)))) in *.
  set (sz1 := if b then pad_left sz else sz) in *.
  set (zc := if truthy (t .& ZEROPAD) then 48 else 32) in *.
  set (pa := if b then replicate (Z.to_nat sz) 32 else []) in *.
  set (pb := if truthy sign then [sign] else []) in *.
  set (pc := prefix_text base type) in *.
  assert ((if truthy (t .& LEFT) then [] else replicate (Z.to_nat sz1) zc) =
    (if negb (truthy (t .& LEFT)) then replicate (Z.to_nat sz1) zc else [])) as Epd
    by by destruct (truthy (t .& LEFT)).
  assert ((if truthy (t .& LEFT) then sz1 else pad_left sz1) =
    (if negb (truthy (t .& LEFT)) then pad_left sz1 else sz1)) as Esz2
    by by destruct (truthy (t .& LEFT)).
  rewrite Epd, Esz2 in *. clear Epd Esz2.
  set (pd := if negb _ then replicate (Z.to_nat sz1) zc else []) in *.
  set (sz2 := if negb _ then pad_left sz1 else sz1) in *.
  set (k := length (pa ++ _)) in Hr, Hn.
  assert (k = length pa + length pb + length pc + length pd +
    length (zeros prec tmp ++ rev tmp) + Z.to_nat sz2)%nat as Hk
    by (subst k; rewrite (length_app pa), (length_app pb), (length_app pc), (length_app pd),
          (length_app (_ ++ rev tmp)), length_replicate; lia).
  clearbody k. apply runs_bind.
  apply (runs_opt_pad0 b s p 32 sz k); [done|fold pa; lia|done|]. fold pa sz1.
  apply runs_bind, (runs_opt_sign s p pa sign k); [done|fold pb; lia|].
  fold pb. intros l2 ->.
  apply runs_bind, (runs_opt_prefix s p _ base type k); [done|fold pc; rewrite !length_app; lia|].
  fold pc. intros l3 ->. apply runs_bind.
  apply (runs_opt_pad (negb (truthy (t .& LEFT))) s p _ zc sz1 k);
    [done|fold pd; rewrite !length_app; lia|done|].
  fold pd sz2. intros l4 ->.
  apply runs_bind, (runs_body_at s p _ tmp prec k);
    [done|rewrite (length_app _ pd), (length_app _ pc), (length_app pa); lia|done|].
  intros l5 ->. apply runs_bind, (runs_pad_at s p _ 32 _ k);
    [done|rewrite (length_app _ (zeros _ _ ++ _)), (length_app _ pd), (length_app _ pc),
       (length_app pa); lia|done|].
  intros l6 ->. apply runs_ret. rewrite <- !app_assoc in *. exact HQ.
Qed.
End Output.
