(* ===== verification/FormatInt.v ===== *)
(** Integers through the formatted output and input of vsprintf.c: what
    [snprintf] stores for a signed integer in a buffer of any size, and that
    [simple_strtol] reads back what [sprintf] wrote. *)
From S2P Require Import Prelude Machine FwLogic Ctype CMem Div64 Vsprintf Format.

(** The decimal text of an integer: a sign when negative, then the digits, most
    significant first, without leading zeros. *)
Definition decimal_text (num : Z) (t : list Z) : Prop :=
  exists l, canonical l /\ dec_value l = Z.abs num /\
            t = (if num <? 0 then [45] else []) ++ rev l.

Lemma decimal_text_chars num t : decimal_text num t -> Forall (fun c => 0 < c < 256) t.
Proof.
  intros (l & (Hd & _) & _ & ->). apply Forall_app. split.
  - destruct (num <? 0); repeat constructor; lia.
  - apply Forall_rev. eapply list.Forall_impl; [exact Hd|]. unfold dec_digit. lia.
Qed.

Lemma dec_value_nonneg l : Forall dec_digit l -> 0 <= dec_value l.
Proof. induction 1 as [|c l Hc Hl IH]; simpl; [lia|]. unfold dec_digit in Hc. lia. Qed.

(** A canonical text is as short as its value allows. *)
Lemma canonical_length l k : canonical l -> (0 < k)%nat -> dec_value l < 10 ^ Z.of_nat k ->
  (length l <= k)%nat.
Proof.
  intros (Hd & Hne & Hz) Hk Hv. destruct (exists_last Hne) as (l0 & c & ->).
  apply Forall_app in Hd as [Hd0 Hdc]. inversion Hdc as [|? ? Hc _]; subst. unfold dec_digit in Hc.
  rewrite dec_value_app in Hv. cbn [dec_value] in Hv. rewrite length_app. simpl.
  destruct (Z.eq_dec c 48) as [->|Hc0]; [rewrite (Hz l0 eq_refl); simpl; lia|].
  pose proof (dec_value_nonneg l0 Hd0). assert (0 < 10 ^ Z.of_nat (length l0)) by (apply Z.pow_pos_nonneg; lia).
  assert (Z.of_nat (length l0) < Z.of_nat k); [|lia].
  apply (Z.pow_lt_mono_r_iff 10); [lia|lia|]. nia.
Qed.

Lemma decimal_text_length num t :
  - 2 ^ 31 <= num < 2 ^ 31 -> decimal_text num t -> (length t <= 11)%nat.
Proof.
  intros Hnum (l & Hl & Hv & ->). pose proof (canonical_length l 10 Hl ltac:(lia)) as Hlen.
  change (10 ^ Z.of_nat 10) with 10000000000 in Hlen. rewrite length_app, length_rev.
  destruct (num <? 0); simpl; lia.
Qed.

(** ** Memory after bounded output *)
Lemma put_chars_out m p lim l a :
  a < p \/ lim <= a \/ p + Z.of_nat (length l) <= a -> put_chars m p lim l !! a = m !! a.
Proof.
  revert m p. induction l as [|c l IH]; intros m p Ha; cbn [put_chars]; [done|].
  cbn [length] in Ha. rewrite IH by lia. destruct (Z.ltb_spec p lim); [|done].
  apply lookup_insert_ne. lia.
Qed.

Lemma put_chars_in m p lim l :
  Forall (fun c => 0 < c < 256) l ->
  bytes_at (put_chars m p lim l) p (take (Z.to_nat (lim - p)) l).
Proof.
  intros Hl. revert m p. induction Hl as [|c l Hc Hl IH]; intros m p; cbn [put_chars].
  - rewrite take_nil. intros i c Hi. by destruct i.
  - destruct (Z.ltb_spec p lim) as [Hlt|].
    + replace (Z.to_nat (lim - p)) with (S (Z.to_nat (lim - (p + 1)))) by lia.
      cbn [take]. apply bytes_at_cons. split; [|apply IH].
      rewrite put_chars_out by lia. rewrite u8_small by lia. apply lookup_insert_eq.
    + replace (Z.to_nat (lim - p)) with O by lia. intros i c' Hi. by destruct i.
Qed.

(** ** [number] on a plain signed decimal conversion *)
Lemma number_sign_int num n s : - 2 ^ 63 < num < 2 ^ 63 ->
  number_sign num (-1) SIGN n s =
  Ret (if num <? 0 then 45 else 0, Z.abs num, if num <? 0 then -2 else -1) s.
Proof.
  intros Hn. unfold number_sign. change (truthy (SIGN .& SIGN)) with true.
  change (truthy (SIGN .& PLUS)) with false. change (truthy (SIGN .& SPACE)) with false.
  cbv iota. destruct (Z.ltb_spec num 0).
  - destruct (Z.eqb_spec num (- 2 ^ 63)); [lia|]. unfold ret. by rewrite Z.abs_neq by lia.
  - unfold ret. by rewrite Z.abs_eq by lia.
Qed.

Lemma number_digits_int num n s : 0 <= num < 2 ^ 63 -> (64 < n)%nat ->
  exists l, number_digits num 10 0 n s = Ret l s /\ canonical l /\ dec_value l = num /\
            (length l <= 20)%nat.
Proof.
  intros Hnum Hn. unfold number_digits. destruct (Z.eqb_spec num 0) as [->|Hne].
  - exists [48]. repeat split; [|done| |simpl; lia].
    + repeat constructor; lia.
    + intros [|x [|y l']] E; [done|done|]. simpl in E. by injection E.
  - change (negb (10 =? 10)) with false. cbv iota. rewrite u64_small by lia.
    assert (runs (put_dec [] num) n s (fun l s' =>
      s' = s /\ canonical l /\ dec_value l = num /\ (length l <= 20)%nat)) as Hr
      by (apply runs_put_dec; [lia|done|by auto]).
    apply runs_inv in Hr as (l & s' & E & -> & Hl). by exists l.
Qed.

Lemma number_text_int sign tmp size :
  size < 0 -> size = -1 \/ size = -2 -> (length tmp <= 20)%nat -> (1 <= length tmp)%nat ->
  number_text sign [] tmp size (-1) SIGN = (if truthy sign then [sign] else []) ++ rev tmp.
Proof.
  intros _ Hs Hl Hl1. unfold number_text. rewrite Z.max_r by lia.
  change (truthy (SIGN .& (ZEROPAD + LEFT))) with false. change (truthy (SIGN .& LEFT)) with false.
  cbv [negb]. cbv zeta.
  assert (s32 (size - Z.of_nat (length tmp)) < 0) as Hneg by (unfold s32; dlia).
  assert (forall z, z < 0 -> Z.to_nat (pad_left z) = O /\ pad_left z < 0) as Hp.
  { intros z Hz. unfold pad_left. destruct (Z.leb_spec 0 z); lia. }
  destruct (Hp _ Hneg) as [E1 H1]. destruct (Hp _ H1) as [E2 _]. rewrite E1, E2.
  replace (Z.to_nat (s32 _)) with O by lia. unfold zeros. rewrite Z.sub_diag. simpl.
  by rewrite app_nil_r.
Qed.

Lemma runs_number_int p lim num n s (Q : Z -> fw -> Prop) :
  - 2 ^ 31 <= num < 2 ^ 31 -> (64 < n)%nat -> fits_at lim s p 11 ->
  (forall t, decimal_text num t -> (length t <= 11)%nat ->
     Q (p + Z.of_nat (length t)) (after s p lim t)) ->
  runs (number p lim num 10 (-1) (-1) SIGN) n s Q.
Proof.
  intros Hnum Hn Hr HQ.
  destruct (number_digits_int (Z.abs num) n s ltac:(lia) Hn) as (l & E & Hcan & Hv & Hl).
  assert (1 <= length l)%nat by (destruct Hcan as (_ & Hne & _); destruct l; [done|simpl; lia]).
  set (sg := if num <? 0 then 45 else 0).
  assert (number_text sg (prefix_text 10 SIGN) l
    ((if num <? 0 then -2 else -1) - Z.of_nat (length (prefix_text 10 SIGN))) (-1) (drop_zeropad SIGN)
    = (if num <? 0 then [45] else []) ++ rev l) as Et.
  { change (prefix_text 10 SIGN) with (@nil Z). change (drop_zeropad SIGN) with SIGN.
    simpl (Z.of_nat _). rewrite Z.sub_0_r.
    rewrite number_text_int by (try done; destruct (num <? 0); lia).
    subst sg. by destruct (num <? 0). }
  assert (length ((if (num <? 0)%Z then [45%Z] else []) ++ rev l) <= 11)%nat as H11
    by (apply (decimal_text_length num); [done|by exists l]).
  eapply (runs_number n lim p num 10 (-1) (-1) SIGN sg (Z.abs num) (if num <? 0 then -2 else -1) l);
    cbv zeta; rewrite ?Et.
  - change (drop_zeropad SIGN) with SIGN. apply number_sign_int. lia.
  - exact E.
  - eapply room_le; [|exact Hr]. lia.
  - lia.
  - apply HQ; [by exists l|lia].
Qed.

(** ** [snprintf] with the format of one signed integer *)
Lemma runs_iter_exit {X B} (body : X -> M (X + B)) x n s (Q : B -> fw -> Prop) :
  (0 < n)%nat ->
  runs (body x) n s (fun r s' => match r with inl _ => False | inr b => Q b s' end) ->
  runs (iter body x) n s Q.
Proof.
  intros Hn Hr. apply (runs_iter (fun j x' s' => x' = x /\ s' = s) Q body n 0 x s); [|done|done].
  intros j ? ? [-> ->]. eapply runs_mono; [exact Hr|]. by intros [|].
Qed.

Lemma s64_u32 num : - 2 ^ 31 <= num < 2 ^ 31 -> s64 (u64 (s32 (u32 (u32 num)))) = num.
Proof. intros H. unfold s64, u64, s32, u32. dlia. Qed.

Lemma put_chars_some m p lim l a : is_Some (m !! a) -> is_Some (put_chars m p lim l !! a).
Proof.
  revert m p. induction l as [|c l IH]; intros m p Hs; cbn [put_chars]; [done|]. apply IH.
  destruct (p <? lim); [|done]. destruct (Z.eq_dec a p) as [->|Hne];
    [rewrite lookup_insert_eq; by eexists|by rewrite lookup_insert_ne].
Qed.

Section PrintInt.
Context (buf size fmt num : Z) (n : nat) (s : fw).
Let m := g_mem (gl s).
Let lim := buf + size - 1.
Hypothesis Hfmt : str_at m fmt [37; 100].
Hypothesis Hsize : 0 < size < 2 ^ 31.
Hypothesis Hbuf : 0 < buf /\ buf + size <= 2 ^ 32.
Hypothesis Hmap : mapped m buf (Z.min size 12).
Hypothesis Hdis : fmt + 3 <= buf \/ buf + Z.min size 12 <= fmt.
Hypothesis Hnum : - 2 ^ 31 <= num < 2 ^ 31.
Hypothesis Hn : (64 < n)%nat.

Lemma fmt_chars : m !! fmt = Some 37 /\ m !! (fmt + 1) = Some 100 /\ m !! (fmt + 2) = Some 0.
Proof.
  apply str_at_cons in Hfmt as (_ & H0 & H1). apply str_at_cons in H1 as (_ & H1 & H2).
  apply str_at_nil in H2. by replace (fmt + 2) with (fmt + 1 + 1) by lia.
Qed.

Lemma runs_conv_d (Q : Z * Z * list Z -> fw -> Prop) :
  (forall t, decimal_text num t -> (length t <= 11)%nat ->
     Q (fmt + 1, buf + Z.of_nat (length t), []) (after s buf lim t)) ->
  runs (vsn_step buf lim fmt buf 37 [u32 num]) n s Q.
Proof.
  intros HQ. destruct fmt_chars as (_ & H1 & _). unfold vsn_step. cbv [negb Z.eqb Pos.eqb].
  apply runs_bind. unfold vsn_flags. apply runs_iter_exit; [lia|]. cbv zeta.
  apply runs_bind. eapply runs_ld8; [exact H1|]. cbv [Z.eqb Pos.eqb]. apply runs_ret.
  apply runs_bind. unfold vsn_width. apply runs_bind. eapply runs_ld8; [exact H1|].
  change (isdigit 100) with false. cbv [Z.eqb Pos.eqb]. apply runs_ret.
  apply runs_bind. unfold vsn_precision. apply runs_bind. eapply runs_ld8; [exact H1|].
  cbv [Z.eqb Pos.eqb]. apply runs_ret.
  apply runs_bind. unfold vsn_qualifier. apply runs_bind. eapply runs_ld8; [exact H1|].
  cbv [Z.eqb Pos.eqb orb]. apply runs_ret.
  unfold vsn_conv. apply runs_bind. eapply runs_ld8; [exact H1|]. cbv [Z.eqb Pos.eqb orb].
  apply runs_bind. unfold vsn_num, vsn_arg, va_word. cbv [Z.eqb Pos.eqb orb].
  change (truthy ((0 .| SIGN) .& SIGN)) with true. change (0 .| SIGN) with SIGN. cbv iota.
  do 2 apply runs_bind. apply runs_ret, runs_ret. rewrite s64_u32 by done.
  apply runs_bind. apply runs_number_int; [done|done| |].
  - intros a Ha Hl. replace a with (buf + (a - buf)) by lia. apply Hmap. subst lim. lia.
  - intros t Ht Hl. do 2 apply runs_ret. by apply HQ.
Qed.

(** The text up to the limit, and the terminator where it goes. *)
Lemma stored t : decimal_text num t ->
  let m' := <[Z.min (buf + Z.of_nat (length t)) lim := 0]> (put_chars m buf lim t) in
  str_at m' buf (take (Z.to_nat (size - 1)) t) /\
  (forall a, a < buf \/ buf + Z.min size 12 <= a -> m' !! a = m !! a).
Proof.
  intros Ht m'. pose proof (decimal_text_length num t Hnum Ht). pose proof (decimal_text_chars num t Ht) as Hc. subst lim. split.
  - split; [by apply Forall_take|]. apply bytes_at_app. rewrite length_take. split.
    + pose proof (put_chars_in m buf (buf + size - 1) t Hc) as Hb.
      replace (buf + size - 1 - buf) with (size - 1) in Hb by lia.
      intros i c Hi. subst m'. rewrite lookup_insert_ne; [by apply Hb|].
      apply lookup_lt_Some in Hi. rewrite length_take in Hi. lia.
    + apply bytes_at_cons. split; [|intros i c Hi; by destruct i]. subst m'.
      replace (buf + Z.of_nat (Z.to_nat (size - 1) `min` length t))
        with (Z.min (buf + Z.of_nat (length t)) (buf + size - 1)) by lia.
      apply lookup_insert_eq.
  - intros a Ha. subst m'. rewrite lookup_insert_ne by lia. apply put_chars_out. lia.
Qed.

Lemma runs_terminate t (Q : unit -> fw -> Prop) :
  (length t <= 11)%nat ->
  Q tt (with_mem (<[Z.min (buf + Z.of_nat (length t)) lim := 0]> (put_chars m buf lim t)) s) ->
  runs (if buf + Z.of_nat (length t) <=? lim then st8 (buf + Z.of_nat (length t)) 0
        else when 0 <? size then st8 lim 0) n (after s buf lim t) Q.
Proof.
  intros Hl HQ.
  assert (forall a, buf <= a < buf + Z.min size 12 -> is_Some (g_mem (gl (after s buf lim t)) !! a)) as Hm.
  { intros a Ha. apply put_chars_some. replace a with (buf + (a - buf)) by lia. apply Hmap. lia. }
  destruct (Z.leb_spec (buf + Z.of_nat (length t)) lim) as [Hle|Hgt].
  - apply runs_st8; [apply Hm; subst lim; lia|]. by rewrite Z.min_l in HQ by lia.
  - destruct (Z.ltb_spec 0 size); [|lia].
    apply runs_st8; [apply Hm; subst lim; lia|]. by rewrite Z.min_r in HQ by lia.
Qed.

Lemma runs_snprintf_int (Q : Z -> fw -> Prop) :
  (forall t m', decimal_text num t -> (length t <= 11)%nat ->
     str_at m' buf (take (Z.to_nat (size - 1)) t) ->
     (forall a, a < buf \/ buf + Z.min size 12 <= a -> m' !! a = m !! a) ->
     Q (Z.of_nat (length t)) (with_mem m' s)) ->
  runs (vsnprintf buf size fmt [u32 num]) n s Q.
Proof.
  intros HQ. destruct fmt_chars as (H0 & _ & H2). unfold vsnprintf.
  destruct (Z.ltb_spec (s32 size) 0) as [Hs|_]; [unfold s32 in Hs; dlia|].
  rewrite (u32_small (buf + size - 1)), (u32_small (buf - 1)) by lia.
  destruct (Z.ltb_spec (buf + size - 1) (buf - 1)); [lia|]. fold lim. cbv zeta.
  apply runs_bind.
  apply (runs_iter (fun j x s' => (j = 1%nat /\ x = (fmt, buf, [u32 num]) /\ s' = s) \/
    (j = 0%nat /\ exists t, decimal_text num t /\ (length t <= 11)%nat /\
      x = (fmt + 2, buf + Z.of_nat (length t), []) /\ s' = after s buf lim t)) _ _ n 1);
    [|by left|lia].
  intros j x s' [(-> & -> & ->)|(-> & t & Ht & Hl & -> & ->)]; apply runs_bind.
  { eapply runs_ld8; [exact H0|]. change (truthy 37) with true. cbv iota.
    apply runs_bind, runs_conv_d. intros t Ht Hl. apply runs_ret. exists 0%nat. split; [lia|].
    right. split; [done|]. exists t. by replace (fmt + 1 + 1) with (fmt + 2) by lia. }
  eapply runs_ld8; [unfold after; rewrite with_mem_gmem; rewrite put_chars_out; [exact H2|subst lim; lia]|].
  change (truthy 0) with false. cbv iota. apply runs_ret.
  assert (s32 (buf + Z.of_nat (length t) - buf) = Z.of_nat (length t)) as -> by (unfold s32; dlia).
  apply runs_bind, runs_terminate; [done|]. apply runs_ret. destruct (stored t Ht). by apply (HQ t).
Qed.
End PrintInt.

(** ** Reading the digits back *)
Lemma dec_value_snoc d c : dec_value (rev (d ++ [c])) = (c - 48) + 10 * dec_value (rev d).
Proof. by rewrite rev_app_distr. Qed.

Lemma digit_value_dec c : dec_digit c ->
  isxdigit c && (u32 (digit_value c) <? 10) = true /\ u32 (digit_value c) = c - 48.
Proof.
  intros Hc. unfold dec_digit in Hc. unfold digit_value.
  rewrite isdigit_ascii, isxdigit_ascii by lia.
  destruct (Z.leb_spec 48 c), (Z.leb_spec c 57); try lia. cbn [andb orb].
  rewrite u32_small by lia. split; [|done]. apply Z.ltb_lt. lia.
Qed.

Lemma runs_strto_digits p ds n s (Q : Z * Z -> fw -> Prop) :
  Forall dec_digit ds -> str_at (g_mem (gl s)) p ds -> (length ds < n)%nat ->
  Q (u32 (dec_value (rev ds)), p + Z.of_nat (length ds)) s ->
  runs (strto_digits u32 p 10) n s Q.
Proof.
  intros Hd Hs Hn HQ. unfold strto_digits.
  apply (runs_iter (fun j x s' => s' = s /\ exists d rest, ds = d ++ rest /\ j = length rest /\
    str_at (g_mem (gl s)) (p + Z.of_nat (length d)) rest /\
    x = (p + Z.of_nat (length d), u32 (dec_value (rev d)))) Q _ n (length ds)); [| |done].
  2: { split; [done|]. exists [], ds. rewrite Z.add_0_r. done. }
  intros j x s' (-> & d & rest & -> & -> & Hr & ->). apply runs_bind. destruct rest as [|c rest].
  - apply str_at_nil in Hr. eapply runs_ld8; [done|]. change (isxdigit 0) with false. cbn [andb]. cbv iota. apply runs_ret.
    by rewrite app_nil_r in HQ.
  - apply str_at_cons in Hr as (_ & Hc & Hr). eapply runs_ld8; [done|].
    apply Forall_app in Hd as [_ Hd]. inversion Hd as [|? ? Hc' _]; subst.
    destruct (digit_value_dec c Hc') as [-> ->]. apply runs_ret.
    exists (length rest). split; [simpl; lia|]. split; [done|]. exists (d ++ [c]), rest.
    rewrite <- app_assoc, length_app, Nat2Z.inj_add, Z.add_assoc. split; [done|].
    split; [done|]. split; [done|]. simpl (Z.of_nat _). f_equal. rewrite dec_value_snoc. unfold u32. dlia.
Qed.

Lemma runs_strtol_decimal p num t n s (Q : Z * Z -> fw -> Prop) :
  - 2 ^ 31 <= num < 2 ^ 31 -> decimal_text num t -> str_at (g_mem (gl s)) p t ->
  (length t < n)%nat -> Q (num, p + Z.of_nat (length t)) s ->
  runs (simple_strtol p 10) n s Q.
Proof.
  intros Hnum (l & (Hd & Hne & _) & Hv & ->) Hs Hn HQ. unfold simple_strtol, simple_strtoul.
  apply Forall_rev in Hd. apply runs_bind. rewrite length_app in Hn.
  destruct (Z.ltb_spec num 0); cbn [app length] in *.
  - apply str_at_cons in Hs as (_ & Hc & Hs). eapply runs_ld8; [exact Hc|]. cbv [Z.eqb Pos.eqb].
    do 2 apply runs_bind. apply runs_ret. eapply runs_strto_digits; [done|done|lia|].
    apply runs_ret. rewrite rev_involutive, Hv.
    replace (p + Z.of_nat (S (length (rev l)))) with (p + 1 + Z.of_nat (length (rev l))) in HQ by lia.
    replace (s32 _) with num; [done|]. unfold s32, u32. dlia.
  - destruct (rev l) as [|c ds] eqn:E.
    { apply (f_equal length) in E. rewrite length_rev in E. by destruct l. }
    pose proof Hs as Hs'. apply str_at_cons in Hs' as (_ & Hc & _). eapply runs_ld8; [exact Hc|].
    assert (dec_digit c) as Hdc by (by inversion Hd). unfold dec_digit in Hdc.
    destruct (Z.eqb_spec c 45); [lia|]. do 2 apply runs_bind. apply runs_ret.
    eapply runs_strto_digits; [done|done|lia|]. apply runs_ret.
    rewrite <- E, rev_involutive, Hv, E. replace (s32 _) with num; [done|]. unfold s32, u32. dlia.
Qed.

(** ** Properties *)

(** [put_dec] turns every 64-bit number into its decimal digits, least
    significant first and without leading zeros, in at most twenty characters,
    and leaves memory and registers alone. *)
Theorem put_dec_decimal num n s :
  0 <= num < 2 ^ 64 -> (64 < n)%nat ->
  runs (put_dec [] num) n s (fun l s' =>
    s' = s /\ canonical l /\ dec_value l = num /\ (length l <= 20)%nat).
Proof. intros Hnum Hn. apply runs_put_dec; [done|done|]. by auto. Qed.

Lemma put_dec_decimal_witness :
  runs (put_dec [] 18446744073709551615) 65 fw0 (fun l s' =>
    s' = fw0 /\ canonical l /\ dec_value l = 18446744073709551615 /\ (length l <= 20)%nat).
Proof. apply (put_dec_decimal 18446744073709551615 65 fw0); lia. Defined.

(** C28: [snprintf(buf, size, fmt, num)] with the format "%d" stores the decimal
    text of [num], cut to what the buffer holds beside its terminator, and the
    terminator; it stores nothing outside the buffer (nor past its twelfth byte) and returns the length of
    the uncut text. *)
Theorem snprintf_int buf size fmt num n s :
  let m := g_mem (gl s) in
  str_at m fmt [37; 100] -> 0 < size < 2 ^ 31 -> 0 < buf -> buf + size <= 2 ^ 32 ->
  mapped m buf (Z.min size 12) -> fmt + 3 <= buf \/ buf + Z.min size 12 <= fmt ->
  - 2 ^ 31 <= num < 2 ^ 31 -> (64 < n)%nat ->
  runs (snprintf buf size fmt [u32 num]) n s (fun r s' => exists t m',
    decimal_text num t /\ r = Z.of_nat (length t) /\ s' = with_mem m' s /\
    str_at m' buf (take (Z.to_nat (size - 1)) t) /\
    (forall a, a < buf \/ buf + Z.min size 12 <= a -> m' !! a = m !! a)).
Proof.
  intros m Hf Hs H1 H2 Hm Hd Hnum Hn. unfold snprintf.
  apply runs_snprintf_int; [done..|]. intros t m' Ht _ Hb Ho. by exists t, m'.
Qed.

(** "%d" at address 100, a buffer of eight bytes at 200. *)
Definition print_state : fw :=
  with_mem (list_to_map (zip (seqZ 100 3 ++ seqZ 200 8) ([37; 100; 0] ++ replicate 8 170))) fw0.

Lemma snprintf_int_witness :
  runs (snprintf 200 4 100 [u32 (-12345)]) 65 print_state (fun r s' => exists t m',
    decimal_text (-12345) t /\ r = Z.of_nat (length t) /\ s' = with_mem m' print_state /\
    str_at m' 200 (take (Z.to_nat 3) t) /\
    (forall a, a < 200 \/ 204 <= a -> m' !! a = g_mem (gl print_state) !! a)).
Proof.
  apply (snprintf_int 200 4 100 (-12345) 65 print_state); try lia.
  - rewrite !str_at_cons, str_at_nil. vm_compute. repeat split; reflexivity.
  - apply mappedb_ok. vm_compute. reflexivity.
Defined.

(** printing then parsing: for every 32-bit [num], [simple_strtol] in base 10
    reads from the text [sprintf] left in the buffer the number [num] itself, and
    stops at the end of that text, whose length [sprintf] returned. *)
Theorem print_parse_int buf fmt num n s :
  let m := g_mem (gl s) in
  str_at m fmt [37; 100] -> 0 < buf -> buf + (2 ^ 31 - 1) <= 2 ^ 32 ->
  mapped m buf 12 -> fmt + 3 <= buf \/ buf + 12 <= fmt ->
  - 2 ^ 31 <= num < 2 ^ 31 -> (64 < n)%nat ->
  runs (r <- sprintf buf fmt [u32 num] ;; p <- simple_strtol buf 10 ;; ret (r, p)) n s
    (fun '(r, p) _ => p = (num, buf + r)).
Proof.
  intros m Hf H1 H2 Hm Hd Hnum Hn. unfold sprintf, vsprintf. apply runs_bind.
  apply runs_snprintf_int; [done|lia|lia|done|done|done|done|].
  intros t m' Ht Hl Hb _. rewrite take_ge in Hb by lia.
  apply runs_bind. eapply runs_strtol_decimal; [done|exact Ht|done|lia|]. by apply runs_ret.
Qed.

Definition print_state12 : fw :=
  with_mem (list_to_map (zip (seqZ 100 3 ++ seqZ 200 12) ([37; 100; 0] ++ replicate 12 170))) fw0.

Lemma print_parse_int_witness :
  runs (r <- sprintf 200 100 [u32 (- 2 ^ 31)] ;; p <- simple_strtol 200 10 ;; ret (r, p)) 65
    print_state12 (fun '(r, p) _ => p = (- 2 ^ 31, 200 + r)).
Proof.
  apply (print_parse_int 200 100 (- 2 ^ 31) 65 print_state12); try lia.
  - rewrite !str_at_cons, str_at_nil. vm_compute. repeat split; reflexivity.
  - apply mappedb_ok. vm_compute. reflexivity.
Defined.
