(* ===== verification/FormatHex.v ===== *)
(** Octal and hexadecimal output of vsprintf.c: the digits [number] computes for
    a non-negative number, and what it does with a 64-bit number whose top bit
    is set. *)
From S2P Require Import Prelude Machine FwLogic Ctype CMem Div64 Vsprintf.

(** The number with the digits [ds] in [base], least significant first. *)
Fixpoint radix_value (base : Z) (ds : list Z) : Z :=
  match ds with
  | [] => 0
  | d :: ds => d + base * radix_value base ds
  end.

Lemma radix_value_snoc base ds d : 0 <= base ->
  radix_value base (ds ++ [d]) = radix_value base ds + base ^ Z.of_nat (length ds) * d.
Proof.
  intros Hb. induction ds as [|x ds IH]; cbn [app radix_value length]; [rewrite Z.pow_0_r; lia|].
  rewrite IH, Nat2Z.inj_succ, Z.pow_succ_r by lia. ring.
Qed.

(** The character of a digit. *)
Definition digit_char (locase d : Z) : Z := nth (Z.to_nat d) digits 0 .| locase.

Lemma low_digit sh r : sh = 3 \/ sh = 4 -> u8 r .& (2 ^ sh - 1) = r mod 2 ^ sh.
Proof.
  intros Hs. replace (2 ^ sh - 1) with (Z.ones sh) by (rewrite Z.ones_equiv; lia).
  rewrite Z.land_ones by lia. unfold u8. destruct Hs as [-> | ->]; dlia.
Qed.

Lemma runs_number_bits sh num locase n s (Q : list Z -> fw -> Prop) :
  sh = 3 \/ sh = 4 -> 0 < num < 2 ^ 63 -> (22 < n)%nat ->
  (forall ds, Forall (fun d => 0 <= d < 2 ^ sh) ds -> radix_value (2 ^ sh) ds = num ->
     (exists ds' d, ds = ds' ++ [d] /\ d <> 0) -> (length ds <= 22)%nat ->
     Q (digit_char locase <$> ds) s) ->
  runs (number_bits num (2 ^ sh) locase) n s Q.
Proof.
  intros Hsh Hnum Hn HQ. unfold number_bits. cbv zeta.
  assert ((if 2 ^ sh =? 16 then 4 else 3) = sh) as -> by by destruct Hsh as [-> | ->].
  assert (8 <= 2 ^ sh) as Hb by (destruct Hsh as [-> | ->]; lia).
  apply (runs_iter (fun j x s' => s' = s /\ exists ds r, x = (digit_char locase <$> ds, r) /\
    Forall (fun d => 0 <= d < 2 ^ sh) ds /\ (length ds + j = 22)%nat /\
    0 < r < (2 ^ sh) ^ Z.of_nat j /\
    radix_value (2 ^ sh) ds + (2 ^ sh) ^ Z.of_nat (length ds) * r = num) Q _ n 22); [| |done].
  2: { split; [done|]. exists [], num. split; [done|]. split; [constructor|]. split; [done|].
       split; [|simpl radix_value; rewrite Z.pow_0_r; lia].
       assert (8 ^ 22 <= (2 ^ sh) ^ Z.of_nat 22) by (apply Z.pow_le_mono_l; lia). lia. }
  intros j x s' (-> & ds & r & -> & Hd & Hj & Hr & Hv). rewrite length_fmap.
  destruct (Nat.ltb_spec (length ds) 100); [|lia]. cbv zeta.
  destruct j as [|j]; [rewrite Z.pow_0_r in Hr; lia|].
  rewrite low_digit by done. rewrite Z.shiftr_div_pow2 by lia.
  pose proof (Z.mod_pos_bound r (2 ^ sh) ltac:(lia)) as Hm.
  pose proof (Z.div_mod r (2 ^ sh) ltac:(lia)) as Hdm.
  change [nth (Z.to_nat (r mod 2 ^ sh)) digits 0 .| locase] with (digit_char locase <$> [r mod 2 ^ sh]).
  rewrite <- fmap_app.
  assert (Forall (fun d => 0 <= d < 2 ^ sh) (ds ++ [r mod 2 ^ sh])) as Hd'
    by (apply Forall_app; split; [done|by constructor]).
  destruct (truthy (r / 2 ^ sh)) eqn:Ht; apply runs_ret.
  - apply truthy_true in Ht. exists j. split; [lia|]. split; [done|].
    eexists (_ ++ [_]), _. split; [done|]. split; [done|]. rewrite length_app. cbn [length].
    split; [lia|]. rewrite Nat2Z.inj_succ, Z.pow_succ_r in Hr by lia. split.
    + pose proof (Z.div_pos r (2 ^ sh)). split; [lia|]. apply Z.div_lt_upper_bound; lia.
    + rewrite radix_value_snoc, Nat2Z.inj_add, Z.pow_add_r by lia. rewrite Z.pow_1_r.
      rewrite <- Hv. rewrite Hdm at 3. ring.
  - apply truthy_false in Ht. apply HQ; [done| | |rewrite length_app; simpl; lia].
    + rewrite radix_value_snoc by lia. rewrite <- Hv. do 2 f_equal. lia.
    + exists ds, (r mod 2 ^ sh). split; [done|lia].
Qed.

(** An arithmetic shift of a negative number never reaches zero. *)
Lemma number_bits_negative sh num locase n s :
  sh = 3 \/ sh = 4 -> num < 0 -> (100 < n)%nat ->
  number_bits num (2 ^ sh) locase n s = Undef.
Proof.
  intros Hsh Hnum Hn. unfold number_bits, iter. cbv zeta.
  assert ((if 2 ^ sh =? 16 then 4 else 3) = sh) as -> by by destruct Hsh as [-> | ->].
  match goal with |- iter_n _ ?b _ _ _ = _ => set (body := b) end.
  assert (forall k f tmp r, r < 0 -> k = (100 - length tmp)%nat -> (k < f)%nat ->
    iter_n f body (tmp, r) n s = Undef) as H; [|apply (H 100%nat); [done|done|lia]].
  induction k as [|k IH]; intros f tmp r Hr Hk Hkf;
    (destruct f as [|f]; [lia|]); cbn [iter_n]; unfold body at 1.
  - destruct (Nat.ltb_spec (length tmp) 100); [lia|done].
  - destruct (Nat.ltb_spec (length tmp) 100); [|lia].
    assert (r >> sh < 0) as Hr' by (apply Z.shiftr_neg; lia).
    assert (truthy (r >> sh) = true) as Et by (apply truthy_true; lia).
    rewrite Et. unfold ret. apply IH; [done|rewrite length_app; simpl; lia|lia].
Qed.

(** the octal and hexadecimal digits of every number from 1 to 2{^63}-1: the
    value of the digits is the number, there is no leading zero, at most 22 of
    the 100 places of [tmp] are used. *)
Theorem number_bits_value sh num locase n s :
  sh = 3 \/ sh = 4 -> 0 < num < 2 ^ 63 -> (22 < n)%nat ->
  runs (number_bits num (2 ^ sh) locase) n s (fun tmp s' => s' = s /\ exists ds,
    tmp = digit_char locase <$> ds /\ Forall (fun d => 0 <= d < 2 ^ sh) ds /\
    radix_value (2 ^ sh) ds = num /\ (exists ds' d, ds = ds' ++ [d] /\ d <> 0) /\
    (length ds <= 22)%nat).
Proof.
  intros Hs Hnum Hn. apply runs_number_bits; [done..|]. intros ds H1 H2 H3 H4.
  split; [done|]. by exists ds.
Qed.

Lemma number_bits_value_witness :
  runs (number_bits (2 ^ 63 - 1) (2 ^ 4) 32) 23 fw0 (fun tmp s' => s' = fw0 /\ exists ds,
    tmp = digit_char 32 <$> ds /\ Forall (fun d => 0 <= d < 2 ^ 4) ds /\
    radix_value (2 ^ 4) ds = 2 ^ 63 - 1 /\ (exists ds' d, ds = ds' ++ [d] /\ d <> 0) /\
    (length ds <= 22)%nat).
Proof. apply (number_bits_value 4 (2 ^ 63 - 1) 32 23 fw0); [by right|lia|lia]. Defined.

(** a 64-bit argument with its top bit set, printed in base 16 (%llx), becomes a negative
    [long long] in [number], which shifts it right arithmetically: it stays
    non-zero, and the loop stores past the end of [tmp]. *)
Theorem number_hex_overruns buf end_ lo hi n s :
  2 ^ 31 <= hi < 2 ^ 32 -> 0 <= lo < 2 ^ 32 -> (100 < n)%nat ->
  vsn_num end_ buf 16 0 (-1) (-1) 76 [lo; hi] n s = Undef.
Proof.
  intros Hhi Hlo Hn. unfold vsn_num, vsn_arg, va_word. cbv [Z.eqb Pos.eqb].
  unfold bind at 1 2 3, ret at 1 2 3. rewrite !(u32_small lo), !(u32_small hi) by lia.
  unfold bind at 1.
  set (num := s64 (hi * 2 ^ 32 + lo)). assert (num < 0) as Hneg by (subst num; unfold s64; dlia).
  unfold number. cbv zeta. change (truthy (0 .& LEFT)) with false. cbv iota.
  unfold number_sign. change (truthy (0 .& SIGN)) with false. cbv iota.
  unfold bind at 1, ret at 1. unfold bind at 1.
  unfold number_digits. destruct (Z.eqb_spec num 0); [lia|].
  change (negb (16 =? 10)) with true. cbv iota. change 16 with (2 ^ 4) at 1.
  rewrite number_bits_negative; [done|by right|done|done].
Qed.

Lemma number_hex_overruns_witness :
  vsn_num 300 200 16 0 (-1) (-1) 76 [0; 2 ^ 31] 101%nat fw0 = Undef.
Proof. apply (number_hex_overruns 200 300 0 (2 ^ 31) 101 fw0); lia. Defined.
