(* ===== verification/Printf.v ===== *)
(** Formatted output to and input from the serial port:
    baremetal/20_pwm/stdio/lib/printf.c. *)
From S2P Require Import Prelude Machine FwLogic Regs Uart Ctype CMem Div64 Vsprintf Format FormatInt.
From Stdlib Require String Ascii.
Export String.StringSyntax.
Delimit Scope string_scope with string.

(** Where the linker places the buffers and the string literals of the program. *)
Class Layout := {
  g_pcOutBuf : Z;
  g_pcInBuf : Z;
  literal : String.string -> Z
}.

Arguments literal {_} _%_string.

(** The end of a literal's text, written as an escape in the source. *)
Definition crlf : String.string :=
  String.String (Ascii.ascii_of_nat 13) (String.String (Ascii.ascii_of_nat 10) String.EmptyString).

(** The characters of a literal. *)
Fixpoint chars (s : String.string) : list Z :=
  match s with
  | String.EmptyString => []
  | String.String c s => Z.of_N (Ascii.N_of_ascii c) :: chars s
  end.

Section Operations.
Context `{Device} `{Layout}.

(** The loop of lines 26 to 29; [strlen] is called again in every round. *)
Definition send_buffer : M unit :=
  iter (fun i =>
    l <- strlen g_pcOutBuf ;;
    if u32 i <? l then
      c <- ld8 (g_pcOutBuf + i) ;; putc c ;; ret (inl (i + 1))
    else ret (inr tt)) 0.

Definition printf (fmt : Z) (args : list Z) : M Z :=
  len <- vsprintf g_pcOutBuf fmt args ;;
  send_buffer ;;
  ret len.

(** The loop of lines 43 to 56: echo and store up to the end of the line. *)
Definition read_line : M unit :=
  iter (fun i =>
    c <- getc ;;
    putc c ;;
    if (c =? 0x0d) || (c =? 0x0a) then st8 (g_pcInBuf + i) 0 ;; ret (inr tt)
    else st8 (g_pcInBuf + i) c ;; ret (inl (i + 1))) 0.

Definition scanf (fmt : Z) (args : list Z) : M Z :=
  read_line ;;
  vsscanf g_pcInBuf fmt args.
End Operations.

(** ** Sending the buffer *)
Section Send.
Context `{Device} `{Layout}.
Context (m n : nat).
Hypothesis Hidle : responsive m u32 (UART_USR2 UART1) (fun v => truthy (v .& 0x00000008)).
Hypothesis Hm : (m < n)%nat.

(** [t'] is [t] after the characters [cs] went out, each when the transmitter
    was idle. *)
Definition said (t t' : trace) (cs : list Z) : Prop :=
  writes t' = writes t ++ ((fun c => (UART_UTXD UART1, c)) <$> cs) /\ paced t' = paced t.

Lemma runs_send_buffer cs s (Q : unit -> fw -> Prop) :
  str_at (g_mem (gl s)) g_pcOutBuf cs -> (length cs < n)%nat -> Z.of_nat (length cs) < 2 ^ 31 ->
  (forall t, said (tr s) t cs -> Q tt (Fw t (gl s))) ->
  runs send_buffer n s Q.
Proof.
  intros Hs Hn Hl HQ. unfold send_buffer.
  apply (runs_iter (fun j x s' => gl s' = gl s /\ exists d rest, cs = d ++ rest /\
    j = length rest /\ x = Z.of_nat (length d) /\ said (tr s) (tr s') d) Q _ n (length cs));
    [| |done].
  2: { split; [done|]. exists [], cs. split; [done|]. split; [done|]. split; [done|].
       split; [by rewrite app_nil_r|done]. }
  intros j x [t g] (Hg & d & rest & -> & -> & -> & Hsaid). cbn [tr gl] in *. subst g.
  rewrite length_app in Hl, Hn. apply runs_bind.
  apply (runs_strlen n _ (d ++ rest)); [done|rewrite length_app; lia|rewrite length_app; lia|].
  rewrite u32_small by lia. rewrite length_app. destruct rest as [|c rest].
  - destruct (Z.ltb_spec (Z.of_nat (length d)) (Z.of_nat (length d + length (@nil Z))));
      [simpl in *; lia|]. apply runs_ret. apply HQ. by rewrite app_nil_r.
  - destruct (Z.ltb_spec (Z.of_nat (length d)) (Z.of_nat (length d + length (c :: rest))));
      [|simpl in *; lia].
    destruct Hs as [Hc Hb]. rewrite <- app_assoc, bytes_at_app, <- app_comm_cons, bytes_at_cons in Hb.
    destruct Hb as (_ & Hb & _). apply Forall_app in Hc as [_ Hc]. inversion Hc as [|? ? Hc0 _]; subst.
    apply runs_bind. eapply runs_ld8; [exact Hb|]. apply runs_bind.
    apply (runs_putc m Hidle); [done|]. cbn [tr gl]. intros t' Hw Hp. apply runs_ret.
    exists (length rest). split; [simpl; lia|]. split; [done|]. exists (d ++ [c]), rest.
    split; [by rewrite <- app_assoc|]. split; [done|]. split; [rewrite length_app; simpl; lia|].
    destruct Hsaid as [Hw0 Hp0]. split; cbn [tr]; [|congruence].
    rewrite Hw, Hw0, fmap_app, <- app_assoc. simpl. repeat f_equal.
    rewrite (Z.land_ones _ 8) by lia. apply Z.mod_small. lia.
Qed.
End Send.

(** [printf] of one signed integer sends exactly its decimal text to the
    serial port, in order and without overrunning the transmitter, returns the
    text's length, and stores only in its own buffer. *)
Theorem printf_int `{Device} `{Layout} m fmt num n s :
  let mem := g_mem (gl s) in
  responsive m u32 (UART_USR2 UART1) (fun v => truthy (v .& 0x00000008)) ->
  str_at mem fmt [37; 100] -> 0 < g_pcOutBuf -> g_pcOutBuf + (2 ^ 31 - 1) <= 2 ^ 32 ->
  mapped mem g_pcOutBuf 12 -> fmt + 3 <= g_pcOutBuf \/ g_pcOutBuf + 12 <= fmt ->
  - 2 ^ 31 <= num < 2 ^ 31 -> (64 < n)%nat -> (m < n)%nat ->
  runs (printf fmt [u32 num]) n s (fun r s' => exists text,
    decimal_text num text /\ r = Z.of_nat (length text) /\ said (tr s) (tr s') text /\
    (forall a, a < g_pcOutBuf \/ g_pcOutBuf + 12 <= a -> g_mem (gl s') !! a = mem !! a)).
Proof.
  intros mem Hidle Hf H1 H2 Hmap Hd Hnum Hn Hm. unfold printf, vsprintf. apply runs_bind.
  apply runs_snprintf_int; [done|lia|lia|done|done|done|done|].
  intros text m' Ht Hl Hb Ho. rewrite take_ge in Hb by lia. apply runs_bind.
  apply (runs_send_buffer m n Hidle Hm text); [done|lia|lia|].
  intros t Hsaid. apply runs_ret. by exists text.
Qed.

Definition layout200 : Layout := {| g_pcOutBuf := 200; g_pcInBuf := 300; literal := fun _ => 100 |}.

Lemma printf_int_witness :
  runs (@printf uart_device layout200 100 [u32 (-7)]) 70 print_state12 (fun r s' => exists text,
    decimal_text (-7) text /\ r = Z.of_nat (length text) /\
    said (tr print_state12) (tr s') text /\
    (forall a, a < 200 \/ 212 <= a -> g_mem (gl s') !! a = g_mem (gl print_state12) !! a)).
Proof.
  apply (@printf_int uart_device layout200 1 100 (-7) 70 print_state12); try (simpl; lia).
  - intros t. right. left. reflexivity.
  - rewrite !str_at_cons, str_at_nil. vm_compute. repeat split; reflexivity.
  - apply mappedb_ok. vm_compute. reflexivity.
Defined.
