(* ===== verification/Spi.v ===== *)
(** SPI master: baremetal/20_pwm/bsp/spi/spi.c. *)
From S2P Require Import Prelude Machine FwLogic Regs.

Section Operations.
Context `{Device}.

Definition spi_init (base : Z) : M unit :=
  wr32 (ECSPI_CONREG base) 0 ;;
  set32 (ECSPI_CONREG base) ((1 << 0) .| (1 << 3) .| (1 << 4) .| (7 << 20)) ;;
  wr32 (ECSPI_CONFIGREG base) 0 ;;
  wr32 (ECSPI_PERIODREG base) 0x2000 ;;
  clr32 (ECSPI_CONREG base) ((0xF << 12) .| (0xF << 8)) ;;
  set32 (ECSPI_CONREG base) (0x9 << 12).

Definition spi_ch0_rw_byte (base data : Z) : M Z :=
  clr32 (ECSPI_CONREG base) (3 << 18) ;;
  set32 (ECSPI_CONREG base) (0 << 18) ;;
  poll32 (ECSPI_STATREG base) (fun v => truthy (v .& (1 << 0))) ;;
  wr32 (ECSPI_TXDATA base) data ;;
  poll32 (ECSPI_STATREG base) (fun v => truthy (v .& (1 << 3))) ;;
  rx <- rd32 (ECSPI_RXDATA base) ;;
  ret (u8 rx).
End Operations.

(** ** A controller that shifts every byte *)

(** The transmit buffer drains and an answer arrives within [m] polls. *)
Class SpiBus `{Device} (base : Z) (m : nat) := {
  spi_tx_empty : responsive m u32 (ECSPI_STATREG base) (fun v => truthy (v .& (1 << 0)));
  spi_rx_ready : responsive m u32 (ECSPI_STATREG base) (fun v => truthy (v .& (1 << 3)))
}.

(** All registers of the controller. *)
Definition spi_reg (base a : Z) : Prop := base <= a <= base + 0x1C.

(** [t'] continues [t] with accesses to the controller at [base] only. *)
Definition spi_only (base : Z) (t t' : trace) : Prop :=
  exists l, t' = l ++ t /\ Forall (fun e => match e with Rd a _ | Wr a _ => spi_reg base a end) l.

(** Bytes out, bytes in. *)
Definition shifted_out (base : Z) (t : trace) : list Z := outs (ECSPI_TXDATA base) t.
Definition shifted_in (base : Z) (t : trace) : list Z := ins (ECSPI_RXDATA base) t.

Section Exchange.
Context `{SpiBus}.
Context (n : nat) (Hm : (m < n)%nat).

Lemma spi_only_reads l t : Forall (is_read (ECSPI_STATREG base)) l -> spi_only base t (l ++ t).
Proof.
  intros Hl. exists l. split; [done|]. eapply list.Forall_impl; [exact Hl|].
  intros e [v ->]. unfold spi_reg, ECSPI_STATREG. lia.
Qed.

Lemma spi_only_cons e t t' :
  match e with Rd a _ | Wr a _ => spi_reg base a end -> spi_only base t t' -> spi_only base t (e :: t').
Proof. intros He (l & -> & Hl). exists (e :: l). split; [done|by constructor]. Qed.

Lemma spi_only_trans t1 t2 t3 : spi_only base t1 t2 -> spi_only base t2 t3 -> spi_only base t1 t3.
Proof.
  intros (l1 & -> & H1) (l2 & -> & H2). exists (l2 ++ l1). split; [by rewrite app_assoc|].
  by apply Forall_app.
Qed.

Lemma runs_spi_byte data s (Q : Z -> fw -> Prop) :
  0 <= data < 2 ^ 32 ->
  (forall t v, shifted_out base t = shifted_out base (tr s) ++ [data] ->
     shifted_in base t = shifted_in base (tr s) ++ [v] -> spi_only base (tr s) t -> Q (u8 v) (Fw t (gl s))) ->
  runs (spi_ch0_rw_byte base data) n s Q.
Proof.
  intros Hd HQ. unfold spi_ch0_rw_byte. fw_steps.
  apply (runs_poll32 _ _ m); [apply spi_tx_empty|done|]. intros l1 v1 Hl1 _ _. fw_steps.
  apply (runs_poll32 _ _ m); [apply spi_rx_ready|done|]. intros l2 v2 Hl2 _ _. fw_steps.
  unfold shifted_out, shifted_in in HQ. eapply HQ.
  - repeat first [ rewrite outs_rd | rewrite outs_wr_eq | rewrite outs_app_rd by eauto with fwdb
      | rewrite outs_wr_ne by (unfold ECSPI_TXDATA, ECSPI_CONREG; lia) ]; cbn [tr].
    rewrite u32_small by done. reflexivity.
  - rewrite ins_rd_eq.
    repeat first [ rewrite ins_wr | rewrite (ins_app_read _ (ECSPI_STATREG base))
                     by (done || (unfold ECSPI_RXDATA, ECSPI_STATREG; lia))
                 | rewrite ins_rd_ne by (unfold ECSPI_RXDATA, ECSPI_STATREG, ECSPI_CONREG; lia) ].
    reflexivity.
  - repeat first [ apply spi_only_cons; [unfold spi_reg, ECSPI_RXDATA, ECSPI_STATREG, ECSPI_CONREG, ECSPI_TXDATA; lia|]
                 | eapply spi_only_trans; [|apply spi_only_reads; eassumption] ].
    by exists [].
Qed.
End Exchange.
