(* ===== verification/Icm20608.v ===== *)
(** The motion sensor on the SPI bus: baremetal/20_pwm/bsp/icm20608/icm20608.c.
    [float] and [double] are IEEE 754 binary32 and binary64, evaluated with the
    specification floats of the standard library. *)
From S2P Require Import Prelude Machine FwLogic Regs Gpio Delay Uart Ctype CMem Div64 Vsprintf Printf Spi.
From Stdlib Require Import Floats.SpecFloat.

Definition ICM20608G_ID : Z := 0xAF.
Definition ICM20608D_ID : Z := 0xAE.
Definition STATUS_OK : Z := 0.
Definition STATUS_ID_ERROR : Z := 1.
Definition ICM20_SMPLRT_DIV : Z := 0x19.
Definition ICM20_CONFIG : Z := 0x1A.
Definition ICM20_GYRO_CONFIG : Z := 0x1B.
Definition ICM20_ACCEL_CONFIG : Z := 0x1C.
Definition ICM20_ACCEL_CONFIG2 : Z := 0x1D.
Definition ICM20_LP_MODE_CFG : Z := 0x1E.
Definition ICM20_FIFO_EN : Z := 0x23.
Definition ICM20_ACCEL_XOUT_H : Z := 0x3B.
Definition ICM20_PWR_MGMT_1 : Z := 0x6B.
Definition ICM20_PWR_MGMT_2 : Z := 0x6C.
Definition ICM20_WHO_AM_I : Z := 0x75.

(** [struct icm20608_dev_struc] *)
Record icm20608_dev_struc := {
  gyro_x_adc : Z; gyro_y_adc : Z; gyro_z_adc : Z;
  accel_x_adc : Z; accel_y_adc : Z; accel_z_adc : Z; temp_adc : Z;
  gyro_x_act : Z; gyro_y_act : Z; gyro_z_act : Z;
  accel_x_act : Z; accel_y_act : Z; accel_z_act : Z; temp_act : Z
}.

(** ** Floating point *)
Definition float_of_Z (z : Z) : spec_float := binary_normalize 24 128 z 0 false.
Definition double_of_Z (z : Z) : spec_float := binary_normalize 53 1024 z 0 false.
(** The nearest double of [z / 10], as the literals of the source denote. *)
Definition double_tenths (z : Z) : spec_float :=
  SFdiv 53 1024 (double_of_Z z) (double_of_Z 10).
Definition convert (prec emax : Z) (x : spec_float) : spec_float :=
  match x with
  | S754_finite s m e => binary_normalize prec emax (cond_Zopp s (Zpos m)) e s
  | x => x
  end.
(** Conversion to [int]: towards zero. *)
Definition int_of_float (x : spec_float) : Z :=
  match x with
  | S754_finite s m e => cond_Zopp s (if 0 <=? e then Zpos m << e else Zpos m >> (- e))
  | _ => 0
  end.

(** [((float)adc / scale) * 100] *)
Definition scaled (adc : Z) (scale : spec_float) : Z :=
  int_of_float (SFmul 24 128 (SFdiv 24 128 (float_of_Z adc) scale) (float_of_Z 100)).
(** [(((float)adc - 25) / 326.8 + 25) * 100]: a [double] from the division on. *)
Definition scaled_temp (adc : Z) : Z :=
  let d := convert 53 1024 (SFsub 24 128 (float_of_Z adc) (float_of_Z 25)) in
  int_of_float
    (SFmul 53 1024
       (SFadd 53 1024 (SFdiv 53 1024 d (double_tenths 3268)) (double_of_Z 25)) (double_of_Z 100)).

Section Operations.
Context `{Device} `{Layout}.

Definition ICM20608_CSN (level : Z) : M unit :=
  if truthy level then pin_write GPIO1 20 1 else pin_write GPIO1 20 0.

Definition icm20608_write_reg (reg val : Z) : M unit :=
  let reg := reg .\ 0x80 in
  ICM20608_CSN 0 ;;
  spi_ch0_rw_byte ECSPI3 reg ;;
  spi_ch0_rw_byte ECSPI3 val ;;
  ICM20608_CSN 1.

Definition icm20608_read_reg (reg : Z) : M Z :=
  let reg := reg .| 0x80 in
  ICM20608_CSN 0 ;;
  spi_ch0_rw_byte ECSPI3 reg ;;
  val <- spi_ch0_rw_byte ECSPI3 0xFF ;;
  ICM20608_CSN 1 ;;
  ret val.

(** [buf] is the array the pointer designates; the result is its new content. *)
Definition icm20608_read_len (reg : Z) (buf : list Z) (len : Z) : M (list Z) :=
  let reg := reg .| 0x80 in
  ICM20608_CSN 0 ;;
  spi_ch0_rw_byte ECSPI3 reg ;;
  buf <- iter (fun '(i, buf) =>
           if i <? len then
             v <- spi_ch0_rw_byte ECSPI3 0xFF ;;
             if (Z.to_nat i <? length buf)%nat
             then ret (inl (u8 (i + 1), <[Z.to_nat i := v]> buf)) else undefined
           else ret (inr buf)) (0, buf) ;;
  ICM20608_CSN 1 ;;
  ret buf.

(** [cs_cfg.irq_mode] is not initialised by the source; [junk] is its value. *)
Definition icm20608_init (junk : pin_irq_mode) : M Z :=
  IOMUXC_SetPinMux IOMUXC_UART2_RX_DATA_ECSPI3_SCLK 0 ;;
  IOMUXC_SetPinMux IOMUXC_UART2_CTS_B_ECSPI3_MOSI 0 ;;
  IOMUXC_SetPinMux IOMUXC_UART2_RTS_B_ECSPI3_MISO 0 ;;
  IOMUXC_SetPinConfig IOMUXC_UART2_RX_DATA_ECSPI3_SCLK 0x10B1 ;;
  IOMUXC_SetPinConfig IOMUXC_UART2_CTS_B_ECSPI3_MOSI 0x10B1 ;;
  IOMUXC_SetPinConfig IOMUXC_UART2_RTS_B_ECSPI3_MISO 0x10B1 ;;
  IOMUXC_SetPinMux IOMUXC_UART2_TX_DATA_GPIO1_IO20 0 ;;
  IOMUXC_SetPinConfig IOMUXC_UART2_TX_DATA_GPIO1_IO20 0x10B0 ;;
  gpio_init GPIO1 20 {| cfg_dir := GPIO_OUTPUT; cfg_def_val := 0; cfg_irq_mode := junk |} ;;
  spi_init ECSPI3 ;;
  icm20608_write_reg ICM20_PWR_MGMT_1 0x80 ;;
  delay_ms 50 ;;
  icm20608_write_reg ICM20_PWR_MGMT_1 0x01 ;;
  delay_ms 50 ;;
  id <- icm20608_read_reg ICM20_WHO_AM_I ;;
  printf (literal (String.append "ICM20608 ID = %#X" crlf)) [id] ;;
  if negb (id =? ICM20608G_ID) && negb (id =? ICM20608D_ID) then ret STATUS_ID_ERROR
  else
    icm20608_write_reg ICM20_SMPLRT_DIV 0x00 ;;
    icm20608_write_reg ICM20_GYRO_CONFIG 0x18 ;;
    icm20608_write_reg ICM20_ACCEL_CONFIG 0x18 ;;
    icm20608_write_reg ICM20_CONFIG 0x04 ;;
    icm20608_write_reg ICM20_ACCEL_CONFIG2 0x04 ;;
    icm20608_write_reg ICM20_PWR_MGMT_2 0x00 ;;
    icm20608_write_reg ICM20_LP_MODE_CFG 0x00 ;;
    icm20608_write_reg ICM20_FIFO_EN 0x00 ;;
    ret STATUS_OK.

(** The four scales of the gyroscope and of the accelerometer. *)
Definition gyro_scale (data : Z) : spec_float :=
  if data =? 0 then float_of_Z 131
  else if data =? 1 then convert 24 128 (double_tenths 655)
  else if data =? 2 then convert 24 128 (double_tenths 328)
  else convert 24 128 (double_tenths 164).
Definition accel_scale (data : Z) : Z :=
  if data =? 0 then 16384 else if data =? 1 then 8192 else if data =? 2 then 4096 else 2048.

Definition icm20608_gyro_scaleget : M spec_float :=
  v <- icm20608_read_reg ICM20_GYRO_CONFIG ;; ret (gyro_scale ((v >> 3) .& 0x3)).
Definition icm20608_accel_scaleget : M Z :=
  v <- icm20608_read_reg ICM20_ACCEL_CONFIG ;; ret (accel_scale ((v >> 3) .& 0x3)).

(** [(unsigned short)((data[i] << 8) | data[i + 1])] *)
Definition raw16 (data : list Z) (i : nat) : Z := u16 ((nth i data 0 << 8) .| nth (S i) data 0).

(** The structure as the assignments of the function leave it: every field is
    assigned. *)
Definition icm20608_values (data : list Z) (gyroscale : spec_float) (accescale : Z)
    : icm20608_dev_struc :=
  {| accel_x_adc := raw16 data 0; accel_y_adc := raw16 data 2; accel_z_adc := raw16 data 4;
     temp_adc := raw16 data 6; gyro_x_adc := raw16 data 8; gyro_y_adc := raw16 data 10;
     gyro_z_adc := raw16 data 12;
     gyro_x_act := scaled (raw16 data 8) gyroscale;
     gyro_y_act := scaled (raw16 data 10) gyroscale;
     gyro_z_act := scaled (raw16 data 12) gyroscale;
     accel_x_act := scaled (raw16 data 0) (float_of_Z accescale);
     accel_y_act := scaled (raw16 data 2) (float_of_Z accescale);
     accel_z_act := scaled (raw16 data 4) (float_of_Z accescale);
     temp_act := scaled_temp (raw16 data 6) |}.

(** The new value of [icm20608_dev]; [junk] is what the array holds on entry. *)
Definition icm20608_get_data (junk : list Z) : M icm20608_dev_struc :=
  data <- icm20608_read_len ICM20_ACCEL_XOUT_H junk 14 ;;
  gyroscale <- icm20608_gyro_scaleget ;;
  accescale <- icm20608_accel_scaleget ;;
  ret (icm20608_values data gyroscale accescale).
End Operations.

(** One g at the full scale of 16 g, gyro at rest: exact. *)
Example accel_1g : scaled 2048 (float_of_Z (accel_scale 3)) = 100.
Proof. reflexivity. Qed.
Example gyro_164 : scaled 164 (gyro_scale 3) = 1000.
Proof. reflexivity. Qed.

(** ** The sensor's frames *)
Definition CS_DR : Z := GPIO_DR GPIO1.

(** The chip select, active low. *)
Definition selected `{Device} (t : trace) : bool := negb (Z.testbit (regval t CS_DR) 20).

(** Every byte of [t] was put on the bus while the sensor was selected. *)
Fixpoint framed `{Device} (t : trace) : bool :=
  match t with
  | [] => true
  | e :: t' =>
      (match e with
       | Wr a _ => if a =? ECSPI_TXDATA ECSPI3 then selected t' else true
       | Rd _ _ => true
       end) && framed t'
  end.

Section Frames.
Context `{SpiBus ECSPI3 m}.
Context (n : nat) (Hm : (m < n)%nat).
Hypothesis Hdr : storage CS_DR.

Lemma spi_only_dr t t' : spi_only ECSPI3 t t' -> regval t' CS_DR = regval t CS_DR.
Proof.
  intros (l & -> & Hl). induction Hl as [|e l He Hl IH]; [done|]. simpl app.
  destruct e as [a v|a v]; [by rewrite regval_rd|].
  rewrite regval_wr_ne; [done|]. unfold spi_reg, ECSPI3, CS_DR, GPIO_DR, GPIO1 in *. lia.
Qed.

Lemma spi_only_selected t t' : spi_only ECSPI3 t t' -> selected t' = selected t.
Proof. intros Hs. unfold selected. by rewrite (spi_only_dr _ _ Hs). Qed.

Lemma spi_only_framed t t' : spi_only ECSPI3 t t' -> selected t = true -> framed t' = framed t.
Proof.
  intros (l & -> & Hl) Hs. induction Hl as [|e l He Hl IH]; [done|]. simpl.
  rewrite IH. assert (selected (l ++ t) = true) as ->
    by (rewrite (spi_only_selected t); [done|by exists l]).
  by destruct e as [a v|a v]; [|destruct (a =? _)].
Qed.

(** One byte inside a frame. *)
Lemma runs_frame_byte data s (Q : Z -> fw -> Prop) :
  0 <= data < 2 ^ 32 -> selected (tr s) = true ->
  (forall t v, shifted_out ECSPI3 t = shifted_out ECSPI3 (tr s) ++ [data] ->
     shifted_in ECSPI3 t = shifted_in ECSPI3 (tr s) ++ [v] ->
     regval t CS_DR = regval (tr s) CS_DR -> framed t = framed (tr s) ->
     Q (u8 v) (Fw t (gl s))) ->
  runs (spi_ch0_rw_byte ECSPI3 data) n s Q.
Proof.
  intros Hd Hs HQ. apply (runs_spi_byte n Hm); [done|]. intros t v Ho Hi Hsp.
  apply HQ; [done|done|by apply spi_only_dr|by apply spi_only_framed].
Qed.

Lemma runs_csn (level : bool) s (Q : unit -> fw -> Prop) :
  (forall t, shifted_out ECSPI3 t = shifted_out ECSPI3 (tr s) -> shifted_in ECSPI3 t = shifted_in ECSPI3 (tr s) ->
     selected t = negb level -> framed t = framed (tr s) ->
     (forall i, 0 <= i -> i <> 20 -> Z.testbit (regval t CS_DR) i = Z.testbit (regval (tr s) CS_DR) i) ->
     Q tt (Fw t (gl s))) ->
  runs (ICM20608_CSN (Z.b2z level)) n s Q.
Proof.
  intros HQ.
  assert (ICM20608_CSN (Z.b2z level) = if level then set32 CS_DR (1 << 20) else clr32 CS_DR (1 << 20))
    as -> by by destruct level.
  assert (forall v w t, framed (Wr CS_DR v :: Rd CS_DR w :: t) = framed t) as Hfr by done.
  destruct level; fw_steps; rewrite Hdr, u32_regval; apply HQ; try apply Hfr;
    try (unfold shifted_out, shifted_in; io_simpl; done); unfold selected;
    rewrite ?regval_wr_eq, ?u32_u32.
  - rewrite set_bit_spec by (auto using regval_fits; lia). done.
  - intros i Hi Hne. rewrite ?regval_wr_eq, ?u32_u32, set_bit_spec by (auto using regval_fits; lia).
    destruct (Z.eqb_spec i 20); done.
  - rewrite clr_bit_spec by (auto using regval_fits; lia). done.
  - intros i Hi Hne. rewrite ?regval_wr_eq, ?u32_u32, clr_bit_spec by (auto using regval_fits; lia).
    destruct (Z.eqb_spec i 20); done.
Qed.

(** What a frame leaves: the sensor is deselected, every byte went out while it
    was selected, and no other pin of the port moved. *)
Definition frame_done (t t' : trace) : Prop :=
  selected t' = false /\ framed t' = framed t /\
  forall i, 0 <= i -> i <> 20 -> Z.testbit (regval t' CS_DR) i = Z.testbit (regval t CS_DR) i.

(** Inside a frame that began at [t]. *)
Definition in_frame (t t' : trace) : Prop :=
  selected t' = true /\ framed t' = framed t /\
  forall i, 0 <= i -> i <> 20 -> Z.testbit (regval t' CS_DR) i = Z.testbit (regval t CS_DR) i.

Lemma runs_select s (Q : unit -> fw -> Prop) :
  (forall t, shifted_out ECSPI3 t = shifted_out ECSPI3 (tr s) ->
     shifted_in ECSPI3 t = shifted_in ECSPI3 (tr s) -> in_frame (tr s) t -> Q tt (Fw t (gl s))) ->
  runs (ICM20608_CSN 0) n s Q.
Proof. intros HQ. apply (runs_csn false). intros t Ho Hi Hs Hf Hb. by apply HQ. Qed.

Lemma runs_deselect t0 s (Q : unit -> fw -> Prop) :
  in_frame t0 (tr s) ->
  (forall t, shifted_out ECSPI3 t = shifted_out ECSPI3 (tr s) ->
     shifted_in ECSPI3 t = shifted_in ECSPI3 (tr s) -> frame_done t0 t -> Q tt (Fw t (gl s))) ->
  runs (ICM20608_CSN 1) n s Q.
Proof.
  intros (H1 & H2 & H3) HQ. apply (runs_csn true). intros t Ho Hi Hs Hf Hb. apply HQ; [done|done|].
  split; [done|]. split; [congruence|]. intros i Hi0 Hi1. by rewrite Hb, H3.
Qed.

Lemma runs_exchange t0 data s (Q : Z -> fw -> Prop) :
  0 <= data < 2 ^ 32 -> in_frame t0 (tr s) ->
  (forall t v, shifted_out ECSPI3 t = shifted_out ECSPI3 (tr s) ++ [data] ->
     shifted_in ECSPI3 t = shifted_in ECSPI3 (tr s) ++ [v] -> in_frame t0 t -> Q (u8 v) (Fw t (gl s))) ->
  runs (spi_ch0_rw_byte ECSPI3 data) n s Q.
Proof.
  intros Hd (H1 & H2 & H3) HQ. apply runs_frame_byte; [done|done|]. intros t v Ho Hi Hr Hf.
  apply HQ; [done|done|]. split; [unfold selected in *; by rewrite Hr|]. split; [congruence|].
  intros i Hi0 Hi1. by rewrite Hr, H3.
Qed.

(** The bytes read so far fill the front of the buffer. *)
Lemma runs_read_len reg buf len s (Q : list Z -> fw -> Prop) :
  0 <= reg < 256 -> 0 <= len < 256 -> len <= Z.of_nat (length buf) -> (256 < n)%nat ->
  (forall t d vs, length vs = Z.to_nat len ->
     shifted_out ECSPI3 t = shifted_out ECSPI3 (tr s) ++ (reg .| 0x80) :: replicate (Z.to_nat len) 0xFF ->
     shifted_in ECSPI3 t = shifted_in ECSPI3 (tr s) ++ d :: vs ->
     frame_done (tr s) t -> Q ((u8 <$> vs) ++ drop (Z.to_nat len) buf) (Fw t (gl s))) ->
  runs (icm20608_read_len reg buf len) n s Q.
Proof.
  intros Hreg Hlen Hbuf Hn HQ. unfold icm20608_read_len. cbv zeta.
  assert (0 <= reg .| 0x80 < 2 ^ 32) as Hr'
    by (apply (lor_fits 32); [lia|unfold fits; lia|unfold fits; lia]).
  apply runs_bind, runs_select. intros t1 Ho1 Hi1 Hf1.
  apply runs_bind, (runs_exchange (tr s)); [done|done|]. cbn [tr gl]. intros t2 d Ho2 Hi2 Hf2.
  apply runs_bind.
  apply (runs_iter (fun j x s' => gl s' = gl s /\ exists vs, (length vs + j = Z.to_nat len)%nat /\
    x = (Z.of_nat (length vs), (u8 <$> vs) ++ drop (length vs) buf) /\
    shifted_out ECSPI3 (tr s') =
      shifted_out ECSPI3 (tr s) ++ (reg .| 0x80) :: replicate (length vs) 0xFF /\
    shifted_in ECSPI3 (tr s') = shifted_in ECSPI3 (tr s) ++ d :: vs /\ in_frame (tr s) (tr s'))
    _ _ n (Z.to_nat len)); [| |lia].
  2: { split; [done|]. exists []. cbn [length tr]. split; [lia|]. split; [done|].
       rewrite Ho2, Ho1, Hi2, Hi1. done. }
  clear t1 Ho1 Hi1 Hf1 t2 Ho2 Hi2 Hf2.
  intros j x [t g] (Hg & vs & Hj & -> & Ho & Hi & Hf). cbn [tr gl] in *. subst g.
  destruct (Z.ltb_spec (Z.of_nat (length vs)) len).
  - apply runs_bind, (runs_exchange (tr s)); [lia|done|]. cbn [tr gl]. intros t' v Ho' Hi' Hf'.
    rewrite Nat2Z.id, length_app, length_fmap, length_drop.
    destruct (Nat.ltb_spec (length vs) (length vs + (length buf - length vs))); [|lia].
    apply runs_ret. exists (j - 1)%nat. split; [lia|]. split; [done|]. exists (vs ++ [v]).
    rewrite length_app. cbn [length tr]. split; [lia|]. split; [f_equal|].
    + rewrite u8_small by lia. lia.
    + destruct (lookup_lt_is_Some_2 buf (length vs) ltac:(lia)) as [b Hb].
      rewrite (drop_S buf b (length vs) Hb). rewrite <- (length_fmap u8 vs) at 1.
      rewrite insert_middle, fmap_app, <- app_assoc. by rewrite Nat.add_1_r.
    + rewrite Ho', Ho, Hi', Hi, replicate_add, <- !app_assoc. done.
  - apply runs_ret. assert (length vs = Z.to_nat len) as El by lia.
    apply runs_bind, (runs_deselect (tr s)); [done|]. cbn [tr gl]. intros t' Ho' Hi' Hf'.
    apply runs_ret. rewrite El. apply (HQ _ d); [done|by rewrite Ho', Ho, El|by rewrite Hi', Hi|done].
Qed.

Lemma runs_write_reg reg val s (Q : unit -> fw -> Prop) :
  0 <= reg < 256 -> 0 <= val < 256 ->
  (forall t, shifted_out ECSPI3 t = shifted_out ECSPI3 (tr s) ++ [reg .\ 0x80; val] ->
     frame_done (tr s) t -> Q tt (Fw t (gl s))) ->
  runs (icm20608_write_reg reg val) n s Q.
Proof.
  intros Hreg Hval HQ. unfold icm20608_write_reg. cbv zeta.
  assert (0 <= reg .\ 0x80 < 2 ^ 32) as Hr'
    by (apply (ldiff_fits 32); [lia|unfold fits; lia]).
  apply runs_bind, runs_select. intros t1 Ho1 Hi1 Hf1.
  apply runs_bind, (runs_exchange (tr s)); [done|done|]. cbn [tr gl]. intros t2 d2 Ho2 Hi2 Hf2.
  apply runs_bind, (runs_exchange (tr s)); [lia|done|]. cbn [tr gl]. intros t3 d3 Ho3 Hi3 Hf3.
  apply (runs_deselect (tr s)); [done|]. cbn [tr gl]. intros t4 Ho4 Hi4 Hf4.
  apply HQ; [|done]. by rewrite Ho4, Ho3, Ho2, Ho1, <- app_assoc.
Qed.
End Frames.

(** a burst read of the motion sensor is one frame: the read command (the
    register with its top bit set) and one filler byte per register go out while
    the chip select is low, the buffer receives the bytes that came back after
    the command, the chip select ends high and no other pin of the port moves. *)
Theorem icm20608_read_framed `{SpiBus ECSPI3 m} reg buf len n s :
  storage CS_DR -> (m < n)%nat -> (256 < n)%nat ->
  0 <= reg < 256 -> 0 <= len < 256 -> len <= Z.of_nat (length buf) ->
  runs (icm20608_read_len reg buf len) n s (fun buf' s' => exists d vs,
    length vs = Z.to_nat len /\
    shifted_out ECSPI3 (tr s') =
      shifted_out ECSPI3 (tr s) ++ (reg .| 0x80) :: replicate (Z.to_nat len) 0xFF /\
    shifted_in ECSPI3 (tr s') = shifted_in ECSPI3 (tr s) ++ d :: vs /\
    buf' = (u8 <$> vs) ++ drop (Z.to_nat len) buf /\
    frame_done (tr s) (tr s')).
Proof.
  intros Hdr Hm Hn Hreg Hlen Hbuf. apply runs_read_len; [done..|].
  intros t d vs Hl Ho Hi Hf. by exists d, vs.
Qed.

(** A controller that is always ready and answers every byte with 0x55. *)
Definition spi_device : Device :=
  sim_device (fun _ => 0) (fun a =>
    if a =? ECSPI_STATREG ECSPI3 then Some (fun _ => 9)
    else if a =? ECSPI_RXDATA ECSPI3 then Some (fun _ => 0x155) else None).
Global Instance spi_device_bus : @SpiBus spi_device ECSPI3 0.
Proof. split; intros t; left; reflexivity. Defined.

Lemma icm20608_read_framed_witness :
  runs (@icm20608_read_len spi_device 0x3B [1; 2; 3; 4] 3) 257 fw0 (fun buf' s' => exists d vs,
    length vs = Z.to_nat 3 /\
    shifted_out ECSPI3 (tr s') =
      shifted_out ECSPI3 (tr fw0) ++ (0x3B .| 0x80) :: replicate (Z.to_nat 3) 0xFF /\
    shifted_in ECSPI3 (tr s') = shifted_in ECSPI3 (tr fw0) ++ d :: vs /\
    buf' = (u8 <$> vs) ++ drop (Z.to_nat 3) [1; 2; 3; 4] /\
    @frame_done spi_device (tr fw0) (tr s')).
Proof.
  apply (@icm20608_read_framed spi_device 0 _ 0x3B [1; 2; 3; 4] 3 257 fw0);
    [by apply storage_sim|lia|lia|lia|lia|simpl; lia].
Defined.

(** a register write of the motion sensor is one frame of two bytes, the
    register with its top bit cleared and the value. *)
Theorem icm20608_write_framed `{SpiBus ECSPI3 m} reg val n s :
  storage CS_DR -> (m < n)%nat -> 0 <= reg < 256 -> 0 <= val < 256 ->
  runs (icm20608_write_reg reg val) n s (fun _ s' =>
    shifted_out ECSPI3 (tr s') = shifted_out ECSPI3 (tr s) ++ [reg .\ 0x80; val] /\
    frame_done (tr s) (tr s')).
Proof. intros Hdr Hm Hreg Hval. apply runs_write_reg; [done..|]. by auto. Qed.

Lemma icm20608_write_framed_witness :
  runs (@icm20608_write_reg spi_device 0x6B 0x80) 1 fw0 (fun _ s' =>
    shifted_out ECSPI3 (tr s') = shifted_out ECSPI3 (tr fw0) ++ [0x6B .\ 0x80; 0x80] /\
    @frame_done spi_device (tr fw0) (tr s')).
Proof.
  apply (@icm20608_write_framed spi_device 0 _ 0x6B 0x80 1 fw0);
    [by apply storage_sim|lia|lia|lia].
Defined.

(** the raw readings are stored as unsigned: a sensor that reports minus one
    on an axis of the accelerometer (both bytes 0xFF) yields an acceleration of
    almost 32 g instead of a small negative one. *)
Theorem icm20608_negative_lost :
  let v := icm20608_values (replicate 14 0xFF) (gyro_scale 3) (accel_scale 3) in
  accel_x_adc v = 65535 /\ accel_x_act v = 3199 /\ temp_adc v = 65535.
Proof. vm_compute. repeat split; reflexivity. Qed.
