(* ===== verification/Ap3216c.v ===== *)
(** The ambient light and proximity sensor on the I2C bus:
    baremetal/20_pwm/bsp/ap3216c/ap3216c.c. *)
From S2P Require Import Prelude Machine FwLogic Regs Delay I2c.

Definition AP3216C_ADDR : Z := 0x1E.
Definition AP3216C_SYSTEMCONG : Z := 0x00.
Definition AP3216C_IRDATALOW : Z := 0x0A.

(** The transfers the two accessors set up. *)
Definition write_byte_xfer (addr reg data : Z) : i2c_transfer :=
  {| slave_addr := addr; dir := I2C_WRITE; reg_addr := reg; reg_addr_len := 1;
     data := [data]; data_len := 1 |}.
Definition read_byte_xfer (addr reg : Z) : i2c_transfer :=
  {| slave_addr := addr; dir := I2C_READ; reg_addr := reg; reg_addr_len := 1;
     data := [0]; data_len := 1 |}.

(** The measurements six data bytes encode. *)
Definition ir_of (b0 b1 : Z) : Z :=
  if truthy (b0 .& 0x80) then 0 else u16 ((b1 << 2) .| (b0 .& 0x03)).
Definition als_of (b2 b3 : Z) : Z := u16 ((b3 << 8) .| b2).
Definition ps_of (b4 b5 : Z) : Z :=
  if truthy (b4 .& 0x40) then 0 else u16 (((b5 .& 0x3F) << 4) .| (b4 .& 0x0F)).

Section Operations.
Context `{Device}.

Definition ap3216c_write_byte (addr reg data : Z) : M Z :=
  unpack (err, _) <- i2c_master_transfer I2C1 (write_byte_xfer addr reg data) ;;
  ret (if truthy err then 1 else 0).

Definition ap3216c_read_byte (addr reg : Z) : M Z :=
  unpack (_, x) <- i2c_master_transfer I2C1 (read_byte_xfer addr reg) ;;
  ret (nth 0 (data x) 0).

Definition ap3216c_init : M Z :=
  IOMUXC_SetPinMux IOMUXC_UART4_TX_DATA_I2C1_SCL 1 ;;
  IOMUXC_SetPinMux IOMUXC_UART4_RX_DATA_I2C1_SDA 1 ;;
  IOMUXC_SetPinConfig IOMUXC_UART4_TX_DATA_I2C1_SCL 0x70B0 ;;
  IOMUXC_SetPinConfig IOMUXC_UART4_RX_DATA_I2C1_SDA 0x70B0 ;;
  i2c_init I2C1 ;;
  ap3216c_write_byte AP3216C_ADDR AP3216C_SYSTEMCONG 0x04 ;;
  delay_ms 50 ;;
  ap3216c_write_byte AP3216C_ADDR AP3216C_SYSTEMCONG 0x03 ;;
  data <- ap3216c_read_byte AP3216C_ADDR AP3216C_SYSTEMCONG ;;
  if data =? 0x03 then ret 0 else ret 1.

(** The six bytes of the loop, lines 114 to 117. *)
Definition read_six : M (list Z) :=
  iter (fun '(i, buf) =>
    if i <? 6 then
      v <- ap3216c_read_byte AP3216C_ADDR (u8 (AP3216C_IRDATALOW + i)) ;;
      ret (inl (u8 (i + 1), buf ++ [v]))
    else ret (inr buf)) (0, []).

(** The values stored through [ir], [ps] and [als]. *)
Definition ap3216c_read_data : M (Z * Z * Z) :=
  buf <- read_six ;;
  let b i := nth i buf 0 in
  ret (ir_of (b 0%nat) (b 1%nat), ps_of (b 4%nat) (b 5%nat), als_of (b 2%nat) (b 3%nat)).
End Operations.

(** ** Reading on a bus that answers *)
Section Reading.
Context `{Bus I2C1 m}.
Context (n : nat) (Hm : (m < n)%nat) (Hstop : 0xffff < Z.of_nat n) (Hack : acks I2C1).

(** The bytes that ask for register [reg]. *)
Definition query (reg : Z) : list Z := [0x3C; reg; 0x3D].

Lemma runs_ap_read reg s (Q : Z -> fw -> Prop) :
  0 <= reg < 256 -> @master _ I2C1 (tr s) = false ->
  (forall dummy v t, sent (base := I2C1) t = sent (base := I2C1) (tr s) ++ query reg ->
     received (base := I2C1) t = received (base := I2C1) (tr s) ++ [dummy; v] ->
     @master _ I2C1 t = false -> Q (u8 v) (Fw t (gl s))) ->
  runs (ap3216c_read_byte AP3216C_ADDR reg) n s Q.
Proof.
  intros Hreg Hma HQ. unfold ap3216c_read_byte. apply runs_bind.
  apply (runs_transfer_read n Hm Hstop Hack _ [0] []); try done;
    try (cbn [reg_addr_len data_len length read_byte_xfer]; lia).
  intros dummy ds t Hds Hs Hr Hm'. destruct ds as [|v [|]]; try done.
  apply runs_ret. apply (HQ dummy v); [|done|done]. rewrite Hs. f_equal. unfold header. simpl.
  unfold query. repeat f_equal. rewrite Z.shiftr_0_r. apply u16_small. lia.
Qed.

(** The traffic of reading registers [regs] that answered [vs]. *)
Fixpoint answers (ds : list (Z * Z)) : list Z :=
  match ds with
  | [] => []
  | (dummy, v) :: ds => dummy :: v :: answers ds
  end.

Lemma answers_app ds1 ds2 : answers (ds1 ++ ds2) = answers ds1 ++ answers ds2.
Proof. induction ds1 as [|[d v] ds1 IH]; [done|]. simpl. by rewrite IH. Qed.

Lemma runs_read_six s (Q : list Z -> fw -> Prop) :
  @master _ I2C1 (tr s) = false ->
  (forall ds t, length ds = 6%nat ->
     sent (base := I2C1) t = sent (base := I2C1) (tr s) ++ mjoin (query <$> seqZ 0x0A 6) ->
     received (base := I2C1) t = received (base := I2C1) (tr s) ++ answers ds ->
     @master _ I2C1 t = false -> Q ((fun d => u8 (snd d)) <$> ds) (Fw t (gl s))) ->
  runs read_six n s Q.
Proof.
  intros Hma HQ. unfold read_six.
  apply (runs_iter (fun j x s' => gl s' = gl s /\ exists ds, (length ds + j = 6)%nat /\
    x = (Z.of_nat (length ds), (fun d => u8 (snd d)) <$> ds) /\
    sent (base := I2C1) (tr s') =
      sent (base := I2C1) (tr s) ++ mjoin (query <$> seqZ 0x0A (Z.of_nat (length ds))) /\
    received (base := I2C1) (tr s') = received (base := I2C1) (tr s) ++ answers ds /\
    @master _ I2C1 (tr s') = false) Q _ n 6); [| |lia].
  2: { split; [done|]. exists []. simpl. rewrite !app_nil_r. done. }
  intros j x [t g] (Hg & ds & Hj & -> & Hs & Hr & Hma'). cbn [tr gl] in *. subst g.
  destruct (Z.ltb_spec (Z.of_nat (length ds)) 6).
  - unfold AP3216C_IRDATALOW. rewrite !u8_small by lia. apply runs_bind, runs_ap_read; [lia|done|].
    cbn [tr gl]. intros dummy v t' Hs' Hr' Hm'. apply runs_ret. exists (j - 1)%nat. split; [lia|].
    split; [done|]. exists (ds ++ [(dummy, v)]). rewrite length_app. cbn [length tr].
    split; [lia|]. split; [f_equal; [lia|by rewrite fmap_app]|].
    rewrite Hs', Hs, Hr', Hr, answers_app, <- !app_assoc. split; [|done].
    rewrite Nat2Z.inj_add, seqZ_app, fmap_app, join_app by lia. done.
  - apply runs_ret. assert (length ds = 6%nat) as E by lia. rewrite E in Hs.
    by apply (HQ ds).
Qed.
End Reading.

(** ** What the bytes mean *)
Lemma ir_of_spec b0 b1 :
  ir_of (u8 b0) (u8 b1) = if Z.testbit b0 7 then 0 else u8 b1 * 4 + b0 mod 4.
Proof.
  unfold ir_of. rewrite (truthy_land_bit _ 7) by lia. unfold u8 at 1. rewrite Z.mod_pow2_bits_low by lia.
  destruct (Z.testbit b0 7); [done|]. change 3 with (Z.ones 2). rewrite land_ones_mod by lia.
  pose proof (u8_fits b1) as Hb1. unfold fits in Hb1.
  pose proof (Z.mod_pos_bound (u8 b0) (2 ^ 2) ltac:(lia)).
  rewrite shiftl_lor, u16_small by lia. unfold u8 at 2. f_equal. dlia.
Qed.

Lemma ps_of_spec b4 b5 :
  ps_of (u8 b4) (u8 b5) = if Z.testbit b4 6 then 0 else b5 mod 64 * 16 + b4 mod 16.
Proof.
  unfold ps_of. rewrite (truthy_land_bit _ 6) by lia. unfold u8 at 1. rewrite Z.mod_pow2_bits_low by lia.
  destruct (Z.testbit b4 6); [done|]. change 0x3F with (Z.ones 6). change 0x0F with (Z.ones 4).
  rewrite !land_ones_mod by lia.
  pose proof (Z.mod_pos_bound (u8 b5) (2 ^ 6) ltac:(lia)).
  pose proof (Z.mod_pos_bound (u8 b4) (2 ^ 4) ltac:(lia)).
  rewrite shiftl_lor, u16_small by lia. unfold u8. f_equal; dlia.
Qed.

Lemma als_of_spec b2 b3 : als_of (u8 b2) (u8 b3) = u8 b3 * 256 + u8 b2.
Proof.
  unfold als_of. pose proof (u8_fits b2) as H2. pose proof (u8_fits b3) as H3. unfold fits in *.
  by rewrite shiftl_lor, u16_small by lia.
Qed.

(** [ap3216c_read_data] on a bus with a sensor that acknowledges asks for
    the six data registers 0x0A to 0x0F in order, one transfer each, and returns
    the measurements the six answers encode: ten bits of infrared and of
    proximity (zero when the sensor flags an overflow), sixteen bits of ambient
    light; the bus is free afterwards. *)
Theorem ap3216c_read_decodes `{Bus I2C1 m} n s :
  acks I2C1 -> @master _ I2C1 (tr s) = false -> (m < n)%nat -> 0xffff < Z.of_nat n ->
  runs ap3216c_read_data n s (fun '(ir, ps, als) s' => exists d0 d1 d2 d3 d4 d5 b0 b1 b2 b3 b4 b5,
    received (base := I2C1) (tr s') = received (base := I2C1) (tr s) ++
      [d0; b0; d1; b1; d2; b2; d3; b3; d4; b4; d5; b5] /\
    sent (base := I2C1) (tr s') = sent (base := I2C1) (tr s) ++
      [0x3C; 0x0A; 0x3D; 0x3C; 0x0B; 0x3D; 0x3C; 0x0C; 0x3D;
       0x3C; 0x0D; 0x3D; 0x3C; 0x0E; 0x3D; 0x3C; 0x0F; 0x3D] /\
    ir = (if Z.testbit b0 7 then 0 else (u8 b1) * 4 + b0 mod 4) /\
    ps = (if Z.testbit b4 6 then 0 else (b5 mod 64) * 16 + b4 mod 16) /\
    als = (u8 b3) * 256 + u8 b2 /\
    @master _ I2C1 (tr s') = false).
Proof.
  intros Ha Hma Hm Hn. unfold ap3216c_read_data. apply runs_bind, runs_read_six; [done..|].
  intros ds t Hl Hs Hr Hm'.
  do 6 (destruct ds as [|[? ?] ds]; [done|]). destruct ds; [|done]. apply runs_ret.
  do 12 eexists. split; [exact Hr|]. split; [exact Hs|]. cbn [nth fmap list_fmap snd].
  rewrite ir_of_spec, ps_of_spec, als_of_spec. repeat split; try done.
Qed.

Lemma ap3216c_read_decodes_witness :
  runs (@ap3216c_read_data (i2c_device false)) (Z.to_nat 65536) fw0
    (fun '(ir, ps, als) s' => exists d0 d1 d2 d3 d4 d5 b0 b1 b2 b3 b4 b5,
    received (base := I2C1) (tr s') = received (base := I2C1) (tr fw0) ++
      [d0; b0; d1; b1; d2; b2; d3; b3; d4; b4; d5; b5] /\
    sent (base := I2C1) (tr s') = sent (base := I2C1) (tr fw0) ++
      [0x3C; 0x0A; 0x3D; 0x3C; 0x0B; 0x3D; 0x3C; 0x0C; 0x3D;
       0x3C; 0x0D; 0x3D; 0x3C; 0x0E; 0x3D; 0x3C; 0x0F; 0x3D] /\
    ir = (if Z.testbit b0 7 then 0 else (u8 b1) * 4 + b0 mod 4) /\
    ps = (if Z.testbit b4 6 then 0 else (b5 mod 64) * 16 + b4 mod 16) /\
    als = (u8 b3) * 256 + u8 b2 /\
    @master (i2c_device false) I2C1 (tr s') = false).
Proof.
  apply (@ap3216c_read_decodes (i2c_device false) 0 (i2c_device_bus false)); [|done|lia|lia].
  intros t. rewrite i2c_device_sr. destruct (Z.testbit (regval t _) 5); reflexivity.
Defined.
