(* ===== verification/Mpu9250.v ===== *)
(** The motion sensor and magnetometer on the I2C bus:
    baremetal/20_pwm/bsp/mpu9250/mpu9250.c.  Its single-byte transfers have the
    shape of those of Ap3216c.v. *)
From S2P Require Import Prelude Machine FwLogic Regs Delay Uart Ctype CMem Div64 Vsprintf Printf I2c Ap3216c.

Definition MPU9250_ADDR : Z := 0x68.
Definition MPU6500_ID : Z := 0x71.
Definition AK8963_ADDR : Z := 0x0C.
Definition AK8963_ID : Z := 0x48.
Definition MPU_SAMPLE_RATE_REG : Z := 0x19.
Definition MPU_CFG_REG : Z := 0x1A.
Definition MPU_GYRO_CFG_REG : Z := 0x1B.
Definition MPU_ACCEL_CFG_REG : Z := 0x1C.
Definition MPU_FIFO_EN_REG : Z := 0x23.
Definition MPU_INTBP_CFG_REG : Z := 0x37.
Definition MPU_INT_EN_REG : Z := 0x38.
Definition MPU_ACCEL_XOUTH_REG : Z := 0x3B.
Definition MPU_GYRO_XOUTH_REG : Z := 0x43.
Definition MPU_USER_CTRL_REG : Z := 0x6A.
Definition MPU_PWR_MGMT1_REG : Z := 0x6B.
Definition MPU_PWR_MGMT2_REG : Z := 0x6C.
Definition MPU_DEVICE_ID_REG : Z := 0x75.
Definition MAG_WIA : Z := 0x00.
Definition MAG_CNTL1 : Z := 0x0A.
Definition MAG_XOUT_L : Z := 0x03.

Definition mpu_read_xfer (addr reg len : Z) (buf : list Z) : i2c_transfer :=
  {| slave_addr := addr; dir := I2C_READ; reg_addr := reg; reg_addr_len := 1;
     data := buf; data_len := len |}.

(** The code of the low-pass filter, lines 144 to 149. *)
Definition lpf_code (fre : Z) : Z :=
  if 188 <=? fre then 1
  else if 98 <=? fre then 2
  else if 42 <=? fre then 3
  else if 20 <=? fre then 4
  else if 10 <=? fre then 5
  else 6.

(** The rate after lines 159 and 160, and the divider of line 162. *)
Definition clamp_rate (rate : Z) : Z :=
  let rate := if 1000 <? rate then 1000 else rate in
  if rate <? 4 then 4 else rate.
Definition rate_divider (rate : Z) : Z := u8 (Z.quot 1000 rate - 1).

(** [((short)hi << 8) | lo], stored in a short. *)
Definition axis (hi lo : Z) : Z := s16 ((hi << 8) .| lo).
(** The three values of a buffer, the high bytes first or the low bytes. *)
Definition axes_be (buf : list Z) : Z * Z * Z :=
  let b i := nth i buf 0 in
  (axis (b 0%nat) (b 1%nat), axis (b 2%nat) (b 3%nat), axis (b 4%nat) (b 5%nat)).
Definition axes_le (buf : list Z) : Z * Z * Z :=
  let b i := nth i buf 0 in
  (axis (b 1%nat) (b 0%nat), axis (b 3%nat) (b 2%nat), axis (b 5%nat) (b 4%nat)).

Section Operations.
Context `{Device} `{Layout}.

Definition mpu_write_byte (addr reg data : Z) : M Z :=
  unpack (err, _) <- i2c_master_transfer I2C1 (write_byte_xfer addr reg data) ;;
  ret (if truthy err then 1 else 0).

Definition mpu_read_byte (addr reg : Z) : M Z :=
  unpack (_, x) <- i2c_master_transfer I2C1 (read_byte_xfer addr reg) ;;
  ret (nth 0 (data x) 0).

(** The new content of the array [buf]. *)
Definition mpu_read_len (addr reg len : Z) (buf : list Z) : M (list Z) :=
  unpack (_, x) <- i2c_master_transfer I2C1 (mpu_read_xfer addr reg len buf) ;;
  ret (data x).

Definition mpu_set_gyro_range (range : Z) : M Z :=
  mpu_write_byte MPU9250_ADDR MPU_GYRO_CFG_REG (u8 (range << 3)).

Definition mpu_set_accel_range (range : Z) : M Z :=
  mpu_write_byte MPU9250_ADDR MPU_ACCEL_CFG_REG (u8 (range << 3)).

Definition mpu_set_lpf (fre : Z) : M Z :=
  mpu_write_byte MPU9250_ADDR MPU_CFG_REG (lpf_code fre).

Definition mpu_set_rate (rate : Z) : M Z :=
  let rate := clamp_rate rate in
  mpu_write_byte MPU9250_ADDR MPU_SAMPLE_RATE_REG (rate_divider rate) ;;
  mpu_set_lpf (Z.quot rate 2).

(** Lines 16 to 48: pins, bus, reset and configuration. *)
Definition mpu9250_config : M unit :=
  IOMUXC_SetPinMux IOMUXC_UART4_TX_DATA_I2C1_SCL 1 ;;
  IOMUXC_SetPinMux IOMUXC_UART4_RX_DATA_I2C1_SDA 1 ;;
  IOMUXC_SetPinConfig IOMUXC_UART4_TX_DATA_I2C1_SCL 0x70B0 ;;
  IOMUXC_SetPinConfig IOMUXC_UART4_RX_DATA_I2C1_SDA 0x70B0 ;;
  i2c_init I2C1 ;;
  mpu_write_byte MPU9250_ADDR MPU_PWR_MGMT1_REG 0x80 ;;
  delay_ms 100 ;;
  mpu_write_byte MPU9250_ADDR MPU_PWR_MGMT1_REG 0x00 ;;
  mpu_set_gyro_range 3 ;;
  mpu_set_accel_range 0 ;;
  mpu_set_rate 50 ;;
  mpu_write_byte MPU9250_ADDR MPU_INT_EN_REG 0x00 ;;
  mpu_write_byte MPU9250_ADDR MPU_USER_CTRL_REG 0x00 ;;
  mpu_write_byte MPU9250_ADDR MPU_FIFO_EN_REG 0x00 ;;
  mpu_write_byte MPU9250_ADDR MPU_INTBP_CFG_REG 0x82 ;;
  ret tt.

Definition mpu9250_init : M Z :=
  mpu9250_config ;;
  id <- mpu_read_byte MPU9250_ADDR MPU_DEVICE_ID_REG ;;
  if id =? MPU6500_ID then
    printf (literal (String.append "MPU9250 ID=%#X" crlf)) [id] ;;
    mpu_write_byte MPU9250_ADDR MPU_PWR_MGMT1_REG 0x01 ;;
    mpu_write_byte MPU9250_ADDR MPU_PWR_MGMT2_REG 0x00 ;;
    mpu_set_rate 50 ;;
    mag <- mpu_read_byte AK8963_ADDR MAG_WIA ;;
    if mag =? AK8963_ID then
      printf (literal (String.append "AK8963_ID=%#X" crlf)) [mag] ;;
      mpu_write_byte AK8963_ADDR MAG_CNTL1 0x11 ;;
      ret 0
    else ret 2
  else ret 1.

(** The values stored through the three pointers; [junk] is what the array [buf]
    holds on entry. *)
Definition mpu_get_gyroscope (junk : list Z) : M (Z * Z * Z) :=
  buf <- mpu_read_len MPU9250_ADDR MPU_GYRO_XOUTH_REG 6 junk ;;
  ret (axes_be buf).

Definition mpu_get_accelerometer (junk : list Z) : M (Z * Z * Z) :=
  buf <- mpu_read_len MPU9250_ADDR MPU_ACCEL_XOUTH_REG 6 junk ;;
  ret (axes_be buf).

Definition mpu_get_magnetometer (junk : list Z) : M (Z * Z * Z) :=
  buf <- mpu_read_len AK8963_ADDR MAG_XOUT_L 6 junk ;;
  mpu_write_byte AK8963_ADDR MAG_CNTL1 0x11 ;;
  ret (axes_le buf).
End Operations.

(** ** Rates, filters and measurements *)

(** The divider the sensor gets is the largest whose rate, 1000 Hz over the divider
    plus one, is not below the rate asked for, and it fits the register. *)
Lemma rate_divider_spec rate :
  let r := clamp_rate rate in let d := rate_divider r in
  0 <= d < 250 /\ r * (d + 1) <= 1000 /\ 1000 < r * (d + 2).
Proof.
  cbv zeta. assert (4 <= clamp_rate rate <= 1000) as Hr.
  { unfold clamp_rate. destruct (Z.ltb_spec 1000 rate), (Z.ltb_spec rate 4); try done; try lia. }
  unfold rate_divider. rewrite Z.quot_div_nonneg by lia.
  pose proof (Z.div_mod 1000 (clamp_rate rate) ltac:(lia)).
  pose proof (Z.mod_pos_bound 1000 (clamp_rate rate) ltac:(lia)).
  assert (1 <= 1000 / clamp_rate rate <= 250) by (split; [apply Z.div_le_lower_bound|apply Z.div_le_upper_bound]; lia).
  rewrite u8_small by lia. split_and!; nia.
Qed.

(** The bandwidth in Hz that a filter code selects. *)
Definition lpf_bandwidth (code : Z) : Z := nth (Z.to_nat code) [250; 188; 98; 42; 20; 10; 5] 0.

(** The filter is the widest that is not wider than asked, of those there are. *)
Lemma lpf_code_spec fre :
  1 <= lpf_code fre <= 6 /\ (5 <= fre -> lpf_bandwidth (lpf_code fre) <= fre) /\
  (forall c, 1 <= c <= 6 -> lpf_bandwidth c <= fre -> lpf_bandwidth c <= lpf_bandwidth (lpf_code fre)).
Proof.
  assert (forall c, 1 <= c <= 6 -> c ∈ [1; 2; 3; 4; 5; 6]) as Hc.
  { intros c Hc. rewrite !elem_of_cons. lia. }
  unfold lpf_code.
  repeat match goal with |- context [?a <=? ?b] => destruct (Z.leb_spec a b) end;
    (split; [lia|]; split; [unfold lpf_bandwidth; simpl; lia|]; intros c Hr%Hc; rewrite !elem_of_cons, elem_of_nil in Hr;
     destruct_or! Hr; subst; unfold lpf_bandwidth; simpl; lia).
Qed.

(** Two bytes of two's complement. *)
Lemma axis_spec hi lo :
  axis (u8 hi) (u8 lo) = let v := u8 hi * 256 + u8 lo in if v <? 2 ^ 15 then v else v - 2 ^ 16.
Proof.
  unfold axis. pose proof (u8_fits hi) as Hh. pose proof (u8_fits lo) as Hl. unfold fits in *.
  cbv zeta. rewrite shiftl_lor by lia. unfold s16. change (2 ^ 8) with 256 in *.
  destruct (Z.ltb_spec (u8 hi * 256 + u8 lo) (2 ^ 15)); dlia.
Qed.

(** ** The chip on a bus that answers *)
Section Answering.
Context `{Bus I2C1 m} `{Layout}.
Context (n : nat) (Hm : (m < n)%nat) (Hstop : 0xffff < Z.of_nat n) (Hack : acks I2C1).

Lemma addr_write addr : 0 <= addr < 128 -> u16 (addr_byte addr I2C_WRITE) = addr * 2.
Proof. intros Ha. unfold addr_byte. rewrite shiftl_lor, u16_small by lia. lia. Qed.
Lemma addr_read addr : 0 <= addr < 128 -> u16 (addr_byte addr I2C_READ) = addr * 2 + 1.
Proof. intros Ha. unfold addr_byte. rewrite shiftl_lor, u16_small by lia. lia. Qed.
Lemma reg_byte reg : 0 <= reg < 256 -> reg_words reg 1 = [reg].
Proof. intros Hr. simpl. by rewrite Z.shiftr_0_r, u16_small by lia. Qed.

Lemma runs_mpu_write addr reg data s (Q : Z -> fw -> Prop) :
  0 <= addr < 128 -> 0 <= reg < 256 -> 0 <= data < 256 -> @master _ I2C1 (tr s) = false ->
  (forall t, sent (base := I2C1) t = sent (base := I2C1) (tr s) ++ [addr * 2; reg; data] ->
     received (base := I2C1) t = received (base := I2C1) (tr s) ->
     @master _ I2C1 t = false -> Q 0 (Fw t (gl s))) ->
  runs (mpu_write_byte addr reg data) n s Q.
Proof.
  intros Ha Hr Hd Hma HQ. unfold mpu_write_byte. apply runs_bind.
  apply (runs_transfer_write n Hm Hstop Hack _ [data] []); try done;
    try (cbn [reg_addr_len data_len length write_byte_xfer]; lia).
  intros t Hs Hre Hma'. apply runs_ret. apply HQ; [|done|done]. rewrite Hs. f_equal.
  change (u16 (addr_byte addr I2C_WRITE) :: (reg_words reg 1 ++ [u16 data]) = [addr * 2; reg; data]).
  rewrite addr_write, reg_byte, u16_small by lia. done.
Qed.

Lemma runs_mpu_read addr reg len junk s (Q : list Z -> fw -> Prop) :
  0 <= addr < 128 -> 0 <= reg < 256 -> len = Z.of_nat (length junk) -> 0 < len < 256 ->
  @master _ I2C1 (tr s) = false ->
  (forall dummy ds t, length ds = length junk ->
     sent (base := I2C1) t = sent (base := I2C1) (tr s) ++ [addr * 2; reg; addr * 2 + 1] ->
     received (base := I2C1) t = received (base := I2C1) (tr s) ++ dummy :: ds ->
     @master _ I2C1 t = false -> Q (u8 <$> ds) (Fw t (gl s))) ->
  runs (mpu_read_len addr reg len junk) n s Q.
Proof.
  intros Ha Hr -> Hl Hma HQ. unfold mpu_read_len. apply runs_bind.
  apply (runs_transfer_read n Hm Hstop Hack _ junk []); try done;
    try (cbn [reg_addr_len data_len mpu_read_xfer]; lia).
  { by rewrite app_nil_r. }
  intros dummy ds t Hds Hs Hre Hma'. apply runs_ret. rewrite app_nil_r. apply (HQ dummy ds); try done.
  rewrite Hs. f_equal.
  change (u16 (addr_byte addr I2C_WRITE) :: (reg_words reg 1 ++ [u16 (addr_byte addr I2C_READ)]) =
    [addr * 2; reg; addr * 2 + 1]).
  rewrite addr_write, addr_read, reg_byte by lia. done.
Qed.

(** Setting the rate writes the divider, then the filter of half the rate. *)
Lemma mpu_set_rate_writes rate s :
  @master _ I2C1 (tr s) = false ->
  runs (mpu_set_rate rate) n s (fun r s' => r = 0 /\ gl s' = gl s /\
    sent (base := I2C1) (tr s') = sent (base := I2C1) (tr s) ++
      [0xD0; 0x19; rate_divider (clamp_rate rate); 0xD0; 0x1A; lpf_code (clamp_rate rate / 2)] /\
    @master _ I2C1 (tr s') = false).
Proof.
  intros Hma. unfold mpu_set_rate. cbv zeta.
  pose proof (rate_divider_spec rate) as (Hd & _). pose proof (lpf_code_spec (clamp_rate rate / 2)) as (Hc & _).
  assert (0 <= clamp_rate rate) as Hr.
  { unfold clamp_rate. destruct (Z.ltb_spec 1000 rate), (Z.ltb_spec rate 4); try done; lia. }
  apply runs_bind, runs_mpu_write; try done; try lia. intros t Hs _ Hm1.
  unfold mpu_set_lpf. rewrite Z.quot_div_nonneg by lia.
  apply runs_mpu_write; try done; try lia. cbn [tr gl]. intros t' Hs' _ Hm2.
  split_and!; try done. cbn [tr]. by rewrite Hs', Hs, <- app_assoc.
Qed.

(** The three values of six bytes in two's complement. *)
Definition signed16 (v : Z) : Z := if v <? 2 ^ 15 then v else v - 2 ^ 16.
Definition two (hi lo : Z) : Z := signed16 (u8 hi * 256 + u8 lo).

(** The gyroscope and the accelerometer are read in one transfer, high bytes first. *)
Lemma runs_axes reg junk s :
  0 <= reg < 256 -> length junk = 6%nat -> @master _ I2C1 (tr s) = false ->
  runs (buf <- mpu_read_len MPU9250_ADDR reg 6 junk ;; ret (axes_be buf)) n s (fun v s' =>
    exists d b0 b1 b2 b3 b4 b5, v = (two b0 b1, two b2 b3, two b4 b5) /\ gl s' = gl s /\
    sent (base := I2C1) (tr s') = sent (base := I2C1) (tr s) ++ [0xD0; reg; 0xD1] /\
    received (base := I2C1) (tr s') = received (base := I2C1) (tr s) ++ [d; b0; b1; b2; b3; b4; b5] /\
    @master _ I2C1 (tr s') = false).
Proof.
  intros Hr Hj Hma. apply runs_bind, runs_mpu_read; try done; try lia.
  intros d ds t Hl Hs Hre Hm'. rewrite Hj in Hl. do 6 (destruct ds as [|? ds]; [done|]). destruct ds; [|done].
  apply runs_ret. do 7 eexists. split; [|split; [done|split; [exact Hs|split; [exact Hre|exact Hm']]]].
  unfold axes_be. cbn [nth fmap list_fmap]. by rewrite !axis_spec.
Qed.

(** The magnetometer is read low bytes first, and told to measure again. *)
Lemma mpu_get_magnetometer_reads junk s :
  length junk = 6%nat -> @master _ I2C1 (tr s) = false ->
  runs (mpu_get_magnetometer junk) n s (fun v s' =>
    exists d b0 b1 b2 b3 b4 b5, v = (two b1 b0, two b3 b2, two b5 b4) /\ gl s' = gl s /\
    sent (base := I2C1) (tr s') = sent (base := I2C1) (tr s) ++ [0x18; 0x03; 0x19; 0x18; 0x0A; 0x11] /\
    received (base := I2C1) (tr s') = received (base := I2C1) (tr s) ++ [d; b0; b1; b2; b3; b4; b5] /\
    @master _ I2C1 (tr s') = false).
Proof.
  intros Hj Hma. unfold mpu_get_magnetometer. apply runs_bind, runs_mpu_read; try done; try lia.
  intros d ds t Hl Hs Hre Hm'. rewrite Hj in Hl. do 6 (destruct ds as [|? ds]; [done|]). destruct ds; [|done].
  apply runs_bind, runs_mpu_write; try done; try lia. cbn [tr gl]. intros t' Hs' Hr' Hm''.
  apply runs_ret. do 7 eexists. split; [|split; [done|split; [|split; [|exact Hm'']]]].
  - unfold axes_le. cbn [nth fmap list_fmap]. by rewrite !axis_spec.
  - cbn [tr]. by rewrite Hs', Hs, <- app_assoc.
  - cbn [tr]. by rewrite Hr', Hre.
Qed.
End Answering.
