(* ===== verification/Gt9147.v ===== *)
(** The capacitive touch controller on the second I2C bus:
    baremetal/20_pwm/bsp/touch/gt9147.c. *)
From S2P Require Import Prelude Machine FwLogic Regs Gpio Delay Uart Ctype CMem Div64 Vsprintf Printf Int I2c.

Definition GT9147_ADDR : Z := 0x14.
Definition GT_CTRL_REG : Z := 0x8040.
Definition GT_CFGS_REG : Z := 0x8047.
Definition GT_CHECK_REG : Z := 0x80FF.
Definition GT_PID_REG : Z := 0x8140.
Definition GT_GSTID_REG : Z := 0x814E.
Definition GT9147_INIT_FINISHED : Z := 1.
Definition GT9147_INIT_NOTFINISHED : Z := 0.

(** Runs of equal bytes are written as one. *)
Definition GT9147_CFG_TBL : list Z :=
  [0x41; 0xe0; 0x01; 0x10; 0x01; 0x05; 0x0d; 0x00; 0x01; 0x08; 0x28; 0x05; 0x50; 0x32;
   0x03; 0x05; 0x00; 0x00; 0xff; 0xff] ++
  replicate 7 0x00 ++
  [0x89; 0x28; 0x0a; 0x17; 0x15; 0x31; 0x0d; 0x00; 0x00; 0x02; 0x9b; 0x03; 0x25] ++
  replicate 7 0x00 ++
  [0x32; 0x00; 0x00; 0x00; 0x0f; 0x94; 0x94; 0xc5; 0x02; 0x07; 0x00; 0x00; 0x04; 0x8d;
   0x13; 0x00; 0x5c; 0x1e; 0x00; 0x3c; 0x30; 0x00; 0x29; 0x4c; 0x00; 0x1e; 0x78; 0x00;
   0x1e] ++
  replicate 36 0x00 ++ [0x08; 0x0a; 0x0c; 0x0e; 0x10; 0x12; 0x14; 0x16; 0x18; 0x1a] ++
  replicate 4 0x00 ++ [0x1f] ++ replicate 15 0xff ++
  [0x00; 0x02; 0x04; 0x05; 0x06; 0x08; 0x0a; 0x0c; 0x0e; 0x1d; 0x1e; 0x1f; 0x20; 0x22;
   0x24; 0x28; 0x29; 0xff] ++
  replicate 8 0x00 ++ replicate 16 0xff.

Definition GT9147_TPX_TBL : list Z := [0x8150; 0x8158; 0x8160; 0x8168; 0x8170].

(** Assignments to fields of [gt9147_dev]. *)
Definition set_initfalg (v : Z) (d : gt9147_dev_t) : gt9147_dev_t :=
  {| gt_initfalg := v; gt_intflag := d.(gt_intflag); gt_point_num := d.(gt_point_num);
     gt_x := d.(gt_x); gt_y := d.(gt_y) |}.
Definition set_intflag (v : Z) (d : gt9147_dev_t) : gt9147_dev_t :=
  {| gt_initfalg := d.(gt_initfalg); gt_intflag := v; gt_point_num := d.(gt_point_num);
     gt_x := d.(gt_x); gt_y := d.(gt_y) |}.
Definition set_point_num (v : Z) (d : gt9147_dev_t) : gt9147_dev_t :=
  {| gt_initfalg := d.(gt_initfalg); gt_intflag := d.(gt_intflag); gt_point_num := v;
     gt_x := d.(gt_x); gt_y := d.(gt_y) |}.
Definition set_point (i : nat) (x y : Z) (d : gt9147_dev_t) : gt9147_dev_t :=
  {| gt_initfalg := d.(gt_initfalg); gt_intflag := d.(gt_intflag);
     gt_point_num := d.(gt_point_num);
     gt_x := <[i := x]> d.(gt_x); gt_y := <[i := y]> d.(gt_y) |}.

(** The transfers of the accessors: the register address has two bytes. *)
Definition gt_write_xfer (addr reg : Z) (buf : list Z) (len : Z) : i2c_transfer :=
  {| slave_addr := addr; dir := I2C_WRITE; reg_addr := reg; reg_addr_len := 2;
     data := buf; data_len := len |}.
Definition gt_read_xfer (addr reg : Z) (buf : list Z) (len : Z) : i2c_transfer :=
  {| slave_addr := addr; dir := I2C_READ; reg_addr := reg; reg_addr_len := 2;
     data := buf; data_len := len |}.

(** Lines 308 to 311: [buf[0]] after the loop and the negation. *)
Definition cfg_checksum (tbl : list Z) : Z :=
  u8 (Z.lnot (foldl (fun sum b => u8 (sum + b)) 0 tbl) + 1).

Section Operations.
Context `{Device} `{Layout}.

Definition gt9147_write_byte (addr reg data : Z) : M Z :=
  unpack (err, _) <- i2c_master_transfer I2C2 (gt_write_xfer addr reg [data] 1) ;;
  ret (if truthy err then 1 else 0).

Definition gt9147_read_byte (addr reg : Z) : M Z :=
  unpack (_, x) <- i2c_master_transfer I2C2 (gt_read_xfer addr reg [0] 1) ;;
  ret (nth 0 (data x) 0).

(** The new content of the array [buf]. *)
Definition gt9147_read_len (addr reg len : Z) (buf : list Z) : M (list Z) :=
  unpack (_, x) <- i2c_master_transfer I2C2 (gt_read_xfer addr reg buf len) ;;
  ret (data x).

Definition gt9147_write_len (addr reg len : Z) (buf : list Z) : M unit :=
  i2c_master_transfer I2C2 (gt_write_xfer addr reg buf len) ;;
  ret tt.

Definition gt9147_send_cfg (mode : Z) : M unit :=
  gt9147_write_len GT9147_ADDR GT_CFGS_REG (Z.of_nat (length GT9147_CFG_TBL)) GT9147_CFG_TBL ;;
  gt9147_write_len GT9147_ADDR GT_CHECK_REG 2 [cfg_checksum GT9147_CFG_TBL; mode].

(** The body of the loop of lines 335 to 340. *)
Definition read_point (i : nat) (buf : list Z) : M (list Z) :=
  match GT9147_TPX_TBL !! i with
  | None => undefined
  | Some reg =>
      buf <- gt9147_read_len GT9147_ADDR reg 4 buf ;;
      let b k := nth k buf 0 in
      modify (upd_gt9147_dev (set_point i (u16 ((b 1%nat << 8) + b 0%nat))
                                          (u16 ((b 3%nat << 8) + b 2%nat)))) ;;
      ret buf
  end.

(** [junk] is what the array [buf] holds on entry. *)
Definition gt9147_read_tpcoord (junk : list Z) : M unit :=
  regvalue <- gt9147_read_byte GT9147_ADDR GT_GSTID_REG ;;
  gt9147_write_byte GT9147_ADDR GT_GSTID_REG 0x00 ;;
  modify (upd_gt9147_dev (set_point_num (regvalue .& 0xF))) ;;
  iter (fun '(i, buf) =>
    dev <- gets g_gt9147_dev ;;
    if i <? dev.(gt_point_num) then
      buf <- read_point (Z.to_nat i) buf ;; ret (inl (u8 (i + 1), buf))
    else ret (inr tt)) (0, junk).

Definition gt9147_irqhandler_body (junk : list Z) : M unit :=
  dev <- gets g_gt9147_dev ;;
  (when dev.(gt_initfalg) =? GT9147_INIT_FINISHED then
     (modify (upd_gt9147_dev (set_intflag 1)) ;; gt9147_read_tpcoord junk)) ;;
  pin_int_clear GPIO1 9.

(** A local array that a call takes the address of, placed at [a]. *)
Fixpoint place (a : Z) (l : list Z) : M unit :=
  match l with
  | [] => ret tt
  | c :: l => st8 a c ;; place (a + 1) l
  end.

Definition say (text : String.string) (args : list Z) : M unit :=
  printf (literal (String.append text crlf)) args ;; ret tt.
Arguments say _%_string _.

(** Lines 132 to 153: the trigger the controller asks for. *)
Definition int_mode (mode : Z) : M pin_irq_mode :=
  if mode =? 0 then say "InterruptMode: IntRisingEdge" [] ;; ret IRQ_MODE_REDGE
  else if mode =? 1 then say "InterruptMode: IntFallingEdge" [] ;; ret IRQ_MODE_FEDGE
  else if mode =? 2 then say "InterruptMode: IntLowLevel" [] ;; ret IRQ_MODE_LOW
  else if mode =? 3 then say "InterruptMode: IntHighLevel" [] ;; ret IRQ_MODE_HIGH
  else say "InterruptMode: Error" [] ;; ret IRQ_MODE_RFEDGE.

(** Lines 47 to 111: variables, pins and the reset sequence. *)
Definition gt9147_reset : M unit :=
  modify (upd_gt9147_dev (set_initfalg GT9147_INIT_NOTFINISHED)) ;;
  say "[gt9147_init]: Init!" [] ;;
  dev <- gets g_gt9147_dev ;;
  say "[gt9147_init]: gt9147_dev.initfalg = %d" [dev.(gt_initfalg)] ;;
  for_list (seq 0 5) (fun i => modify (upd_gt9147_dev (set_point i 0 0))) ;;
  modify (upd_gt9147_dev (set_point_num 0)) ;;
  IOMUXC_SetPinMux IOMUXC_UART5_TX_DATA_I2C2_SCL 1 ;;
  IOMUXC_SetPinMux IOMUXC_UART5_RX_DATA_I2C2_SDA 1 ;;
  IOMUXC_SetPinConfig IOMUXC_UART5_TX_DATA_I2C2_SCL 0x70B0 ;;
  IOMUXC_SetPinConfig IOMUXC_UART5_RX_DATA_I2C2_SDA 0x70B0 ;;
  IOMUXC_SetPinMux IOMUXC_GPIO1_IO09_GPIO1_IO09 0 ;;
  IOMUXC_SetPinMux IOMUXC_SNVS_SNVS_TAMPER9_GPIO5_IO09 0 ;;
  IOMUXC_SetPinConfig IOMUXC_GPIO1_IO09_GPIO1_IO09 0x10B0 ;;
  IOMUXC_SetPinConfig IOMUXC_SNVS_SNVS_TAMPER9_GPIO5_IO09 0x10B0 ;;
  gpio_init GPIO1 9 {| cfg_dir := GPIO_OUTPUT; cfg_def_val := LEVEL_HIGH; cfg_irq_mode := IRQ_MODE_NONE |} ;;
  gpio_init GPIO5 9 {| cfg_dir := GPIO_OUTPUT; cfg_def_val := LEVEL_HIGH; cfg_irq_mode := IRQ_MODE_NONE |} ;;
  i2c_init I2C2 ;;
  pin_write GPIO5 9 0 ;;
  delay_ms 10 ;;
  pin_write GPIO5 9 1 ;;
  delay_ms 10 ;;
  pin_write GPIO1 9 0 ;;
  delay_ms 100.

(** Lines 113 to 129: identification; the interrupt mode of the controller.
    [temp] is the address of the local array, [junk] its content on entry. *)
Definition gt9147_identify (temp : Z) (junk : list Z) : M Z :=
  t <- gt9147_read_len GT9147_ADDR GT_PID_REG 6 junk ;;
  let t := <[4%nat := 0]> (<[6%nat := nth 4 t 0]> t) in
  place temp t ;;
  say "CTP ID: %s" [temp] ;;
  say "Default Ver: %#x" [(nth 5 t 0 << 8) .| nth 6 t 0] ;;
  IOMUXC_SetPinConfig IOMUXC_GPIO1_IO09_GPIO1_IO09 0x0080 ;;
  if negb (nth 0 t 0 =? 0x31) then
    v <- gt9147_read_byte GT9147_ADDR 0x804D ;;
    say "9xx" [] ;;
    ret (v .& 0x3)
  else v <- gt9147_read_byte GT9147_ADDR 0x8056 ;; ret (v .& 0x3).

(** Lines 162 to 177, after the soft reset of the controller was accepted. *)
Definition gt9147_start : M unit :=
  delay_ms 10 ;;
  gt9147_write_byte GT9147_ADDR GT_CTRL_REG 0 ;;
  say "[gt9147_init]: GIC_EnableIRQ()!" [] ;;
  GIC_EnableIRQ GPIO1_Combined_0_15_IRQn ;;
  say "[gt9147_init]: irq_handler_register()!" [] ;;
  irq_handler_register GPIO1_Combined_0_15_IRQn gt9147_irqhandler NULL ;;
  say "[gt9147_init]: pin_int_enable()!" [] ;;
  pin_int_enable GPIO1 9 ;;
  say "[gt9147_init]: Mark Done!" [] ;;
  say "[gt9147_init]: initfalg = " [] ;;
  modify (upd_gt9147_dev (set_initfalg GT9147_INIT_FINISHED)) ;;
  modify (upd_gt9147_dev (set_intflag 0)) ;;
  say "[gt9147_init]: Init Done!" [].

Definition gt9147_init (temp : Z) (junk : list Z) : M unit :=
  gt9147_reset ;;
  mode <- gt9147_identify temp junk ;;
  irq_mode <- int_mode mode ;;
  gpio_init GPIO1 9 {| cfg_dir := GPIO_INPUT; cfg_def_val := LEVEL_LOW; cfg_irq_mode := irq_mode |} ;;
  failed <- gt9147_write_byte GT9147_ADDR GT_CTRL_REG 0x02 ;;
  (if truthy failed then
     say "[gt9147_init]: Init Fail!" [] ;;
     modify (upd_gt_init_fail 1)
   else gt9147_start) ;;
  delay_ms 10.
End Operations.

(** ** The accessors on a bus that answers *)
Section Accessors.
Context `{Bus I2C2 m}.
Context (n : nat) (Hm : (m < n)%nat) (Hstop : 0xffff < Z.of_nat n) (Hack : acks I2C2).

Abbreviation bus_sent := (sent (base := I2C2)).
Abbreviation bus_received := (received (base := I2C2)).
Abbreviation bus_master := (master (base := I2C2)).

Lemma gt_words reg : 0 <= reg < 2 ^ 16 -> reg_words reg 2 = [reg >> 8; reg].
Proof.
  intros Hr. cbn [reg_words]. change (8 * Z.of_nat 1) with 8. change (8 * Z.of_nat 0) with 0.
  rewrite Z.shiftr_0_r, !u16_small; [done|done|]. apply (shiftr_fits 16); [lia|done].
Qed.

(** The bytes that select register [reg] for reading and for writing. *)
Definition gt_read_header (reg : Z) : list Z := [0x28; reg >> 8; reg; 0x29].
Definition gt_write_header (reg : Z) : list Z := [0x28; reg >> 8; reg].

Lemma runs_gt_read reg buf s (Q : list Z -> fw -> Prop) :
  0 <= reg < 2 ^ 16 -> (0 < length buf < 256)%nat -> bus_master (tr s) = false ->
  (forall dummy ds t, length ds = length buf ->
     bus_sent t = bus_sent (tr s) ++ gt_read_header reg ->
     bus_received t = bus_received (tr s) ++ dummy :: ds -> bus_master t = false ->
     Q (u8 <$> ds) (Fw t (gl s))) ->
  runs (gt9147_read_len GT9147_ADDR reg (Z.of_nat (length buf)) buf) n s Q.
Proof.
  intros Hreg Hl Hma HQ. unfold gt9147_read_len. apply runs_bind.
  apply (runs_transfer_read n Hm Hstop Hack _ buf []); try done;
    try (cbn [reg_addr_len data_len data length gt_read_xfer]; first [lia | by rewrite app_nil_r]).
  intros dummy ds t Hds Hs Hr Hma'. apply runs_ret. cbn [data set_data]. rewrite app_nil_r.
  apply (HQ dummy ds t Hds); [|done|done]. rewrite Hs. unfold header.
  cbn [reg_addr_len slave_addr reg_addr dir gt_read_xfer]. change (Z.to_nat 2) with 2%nat.
  cbv iota. by rewrite gt_words.
Qed.

Lemma runs_gt_read_byte reg s (Q : Z -> fw -> Prop) :
  0 <= reg < 2 ^ 16 -> bus_master (tr s) = false ->
  (forall dummy v t, bus_sent t = bus_sent (tr s) ++ gt_read_header reg ->
     bus_received t = bus_received (tr s) ++ [dummy; v] -> bus_master t = false ->
     Q (u8 v) (Fw t (gl s))) ->
  runs (gt9147_read_byte GT9147_ADDR reg) n s Q.
Proof.
  intros Hreg Hma HQ.
  assert (gt9147_read_byte GT9147_ADDR reg n s =
    (l <- gt9147_read_len GT9147_ADDR reg (Z.of_nat (length [0])) [0] ;; ret (nth 0 l 0)) n s) as E.
  { unfold gt9147_read_byte, gt9147_read_len. rewrite bind_assoc. unfold bind.
    by destruct (i2c_master_transfer _ _ n s) as [[? ?] ?| |]. }
  unfold runs. rewrite E. apply runs_bind, runs_gt_read; [done|simpl; lia|done|].
  intros dummy ds t Hds Hs Hr Hma'. destruct ds as [|v [|]]; try done.
  apply runs_ret. by apply (HQ dummy v).
Qed.

Lemma runs_gt_write_xfer reg buf s (Q : Z * i2c_transfer -> fw -> Prop) :
  0 <= reg < 2 ^ 16 -> (0 < length buf < 256)%nat -> bus_master (tr s) = false ->
  (forall x t, bus_sent t = bus_sent (tr s) ++ gt_write_header reg ++ (u16 <$> buf) ->
     bus_received t = bus_received (tr s) -> bus_master t = false ->
     Q (I2C_STATUS_OK, x) (Fw t (gl s))) ->
  runs (i2c_master_transfer I2C2 (gt_write_xfer GT9147_ADDR reg buf (Z.of_nat (length buf)))) n s Q.
Proof.
  intros Hreg Hl Hma HQ.
  apply (runs_transfer_write n Hm Hstop Hack _ buf []); try done;
    try (cbn [reg_addr_len data_len data length gt_write_xfer]; first [lia | by rewrite app_nil_r]).
  intros t Hs Hr Hma'. apply HQ; [|done|done]. rewrite Hs. unfold header.
  cbn [reg_addr_len slave_addr reg_addr dir gt_write_xfer]. change (Z.to_nat 2) with 2%nat.
  cbv iota. by rewrite gt_words.
Qed.

(** ** Touch points *)

(** A point's coordinates from its four bytes. *)
Definition coord (lo hi : Z) : Z := u8 hi * 256 + u8 lo.

Lemma coord_spec lo hi : u16 ((u8 hi << 8) + u8 lo) = coord lo hi.
Proof.
  pose proof (u8_fits lo) as H1. pose proof (u8_fits hi) as H2. unfold fits in *.
  rewrite Z.shiftl_mul_pow2 by lia. unfold coord. apply u16_small. lia.
Qed.

(** What the bus delivered for one point, and the coordinates it encodes. *)
Record sample := { sm_dummy : Z; sm_b0 : Z; sm_b1 : Z; sm_b2 : Z; sm_b3 : Z }.
Definition sample_bytes (p : sample) : list Z :=
  [sm_dummy p; sm_b0 p; sm_b1 p; sm_b2 p; sm_b3 p].
Definition sample_x (p : sample) : Z := coord (sm_b0 p) (sm_b1 p).
Definition sample_y (p : sample) : Z := coord (sm_b2 p) (sm_b3 p).

(** The structure after the first points were stored. *)
Definition touched (d : gt9147_dev_t) (pts : list sample) : gt9147_dev_t :=
  {| gt_initfalg := d.(gt_initfalg); gt_intflag := d.(gt_intflag);
     gt_point_num := d.(gt_point_num);
     gt_x := (sample_x <$> pts) ++ drop (length pts) d.(gt_x);
     gt_y := (sample_y <$> pts) ++ drop (length pts) d.(gt_y) |}.

(** The arrays have their five elements. *)
Definition dev_ok (d : gt9147_dev_t) : Prop := length (gt_x d) = 5%nat /\ length (gt_y d) = 5%nat.

Lemma insert_next {A} (f : A -> Z) (pts : list A) p (l : list Z) :
  (length pts < length l)%nat ->
  <[length pts := f p]> ((f <$> pts) ++ drop (length pts) l) =
  (f <$> (pts ++ [p])) ++ drop (length (pts ++ [p])) l.
Proof.
  intros Hl. destruct (lookup_lt_is_Some_2 l (length pts) Hl) as [x Hx].
  rewrite (drop_S l x _ Hx). rewrite <- (length_fmap f pts) at 1.
  rewrite insert_middle, fmap_app, <- app_assoc, length_app. cbn [length fmap list_fmap app].
  by rewrite Nat.add_1_r.
Qed.

Lemma touched_snoc d pts p : dev_ok d -> (length pts < 5)%nat ->
  set_point (length pts) (sample_x p) (sample_y p) (touched d pts) = touched d (pts ++ [p]).
Proof.
  intros [Hx Hy] Hl. unfold set_point, touched. cbn [gt_x gt_y gt_initfalg gt_intflag gt_point_num].
  by rewrite !insert_next by lia.
Qed.

Lemma runs_read_point i buf s (Q : list Z -> fw -> Prop) :
  (i < 5)%nat -> length buf = 4%nat -> bus_master (tr s) = false ->
  (forall p t buf', length buf' = 4%nat ->
     bus_sent t = bus_sent (tr s) ++ gt_read_header (0x8150 + 8 * Z.of_nat i) ->
     bus_received t = bus_received (tr s) ++ sample_bytes p -> bus_master t = false ->
     Q buf' (Fw t (upd_gt9147_dev (set_point i (sample_x p) (sample_y p)) (gl s)))) ->
  runs (read_point i buf) n s Q.
Proof.
  intros Hi Hb Hma HQ. unfold read_point.
  assert (GT9147_TPX_TBL !! i = Some (0x8150 + 8 * Z.of_nat i)) as ->
    by (do 5 (destruct i as [|i]; [done|]); lia).
  apply runs_bind. change 4 with (Z.of_nat 4). rewrite <- Hb. apply runs_gt_read; [lia|lia|done|].
  intros dummy ds t Hds Hs Hr Hma'. rewrite Hb in Hds.
  destruct ds as [|b0 [|b1 [|b2 [|b3 [|]]]]]; try done. cbn [fmap list_fmap nth]. cbv zeta.
  fw_steps. rewrite !coord_spec.
  apply (HQ {| sm_dummy := dummy; sm_b0 := b0; sm_b1 := b1; sm_b2 := b2; sm_b3 := b3 |}); done.
Qed.

(** The loop over the reported points. *)
Definition points_read (s0 : fw) (d : gt9147_dev_t) (pts : list sample) (s : fw) : Prop :=
  gl s = upd_gt9147_dev (fun _ => touched d pts) (gl s0) /\
  bus_sent (tr s) = bus_sent (tr s0) ++
    mjoin ((fun i => gt_read_header (0x8150 + 8 * i)) <$> seqZ 0 (Z.of_nat (length pts))) /\
  bus_received (tr s) = bus_received (tr s0) ++ mjoin (sample_bytes <$> pts) /\
  bus_master (tr s) = false.

Lemma runs_points_step s0 d pts buf s (Q : list Z -> fw -> Prop) :
  dev_ok d -> (length pts < 5)%nat -> length buf = 4%nat -> points_read s0 d pts s ->
  (forall p buf' s', length buf' = 4%nat -> points_read s0 d (pts ++ [p]) s' -> Q buf' s') ->
  runs (read_point (length pts) buf) n s Q.
Proof.
  intros Hd Hl Hb (Hg & Hs & Hr & Hma) HQ. apply runs_read_point; [done|done|done|].
  intros p t buf' Hb' Hs' Hr' Hma'. apply (HQ p); [done|]. split.
  { cbn [gl]. rewrite Hg, <- touched_snoc by done. done. }
  cbn [tr]. rewrite Hs', Hs, Hr', Hr, <- !app_assoc, length_app. cbn [length].
  rewrite Nat2Z.inj_add, seqZ_app, !fmap_app, !join_app by lia. done.
Qed.

Abbreviation points_body := (fun '(i, buf) =>
    dev <- gets g_gt9147_dev ;;
    if i <? dev.(gt_point_num) then
      buf <- read_point (Z.to_nat i) buf ;; ret (inl (u8 (i + 1), buf))
    else ret (inr tt)).

(** One round of the loop with a point left to read. *)
Lemma runs_points_round s0 d pts buf s (Q : (Z * list Z) + unit -> fw -> Prop) :
  dev_ok d -> (length pts < 5)%nat -> Z.of_nat (length pts) < gt_point_num d ->
  length buf = 4%nat -> points_read s0 d pts s ->
  (forall p buf' s', length buf' = 4%nat -> points_read s0 d (pts ++ [p]) s' ->
     Q (inl (Z.of_nat (length (pts ++ [p])), buf')) s') ->
  runs (points_body (Z.of_nat (length pts), buf)) n s Q.
Proof.
  intros Hd Hl Hk Hb Hp HQ. cbv beta iota. fw_steps. pose proof Hp as (Hg & _). rewrite Hg.
  cbn [upd_gt9147_dev g_gt9147_dev touched gt_point_num].
  destruct (Z.ltb_spec (Z.of_nat (length pts)) (gt_point_num d)); [|lia]. rewrite Nat2Z.id.
  apply runs_bind, (runs_points_step s0 d); [done..|]. intros p buf' s' Hb' Hp'. apply runs_ret.
  replace (u8 (Z.of_nat (length pts) + 1)) with (Z.of_nat (length (pts ++ [p])))
    by (rewrite length_app; simpl; rewrite u8_small; lia). by apply HQ.
Qed.

Lemma runs_points d s junk (Q : unit -> fw -> Prop) :
  g_gt9147_dev (gl s) = d -> dev_ok d -> 0 <= gt_point_num d <= 5 -> length junk = 4%nat ->
  bus_master (tr s) = false ->
  (forall pts s', Z.of_nat (length pts) = gt_point_num d -> points_read s d pts s' -> Q tt s') ->
  runs (iter points_body (0, junk)) n s Q.
Proof.
  intros Hdev Hd Hk Hj Hma HQ.
  apply (runs_iter (fun j x s' => exists pts buf, x = (Z.of_nat (length pts), buf) /\
    length buf = 4%nat /\ Z.of_nat (length pts + j) = gt_point_num d /\ points_read s d pts s')
    Q _ n (Z.to_nat (gt_point_num d))); [| |lia].
  2: { exists [], junk. split; [done|]. split; [done|]. split; [simpl; lia|].
       split; [|cbn; by rewrite !app_nil_r]. destruct s as [t g]. simpl in Hdev |- *. subst d.
       unfold touched. cbn. rewrite !drop_0. by destruct g as [? ? ? ? ? ? ? ? ? [] ?]. }
  intros j x s' (pts & buf & -> & Hb & Hj' & Hp). destruct j as [|j].
  - fw_steps. pose proof Hp as (Hg & _). rewrite Hg.
    cbn [upd_gt9147_dev g_gt9147_dev touched gt_point_num].
    destruct (Z.ltb_spec (Z.of_nat (length pts)) (gt_point_num d)); [lia|]. apply runs_ret.
    apply (HQ pts); [lia|done].
  - apply (runs_points_round s d); [done|lia|lia|done|done|]. intros p buf' s'' Hb' Hp'.
    exists j. split; [lia|]. exists (pts ++ [p]), buf'. rewrite length_app. simpl length.
    repeat split; try done; [lia|apply Hp'..].
Qed.

(** A sixth point is outside the tables. *)
Lemma points_overrun d s junk :
  g_gt9147_dev (gl s) = d -> dev_ok d -> 5 < gt_point_num d -> length junk = 4%nat ->
  bus_master (tr s) = false -> iter points_body (0, junk) n s = Undef.
Proof.
  intros Hdev Hd Hk Hj Hma.
  apply (iter_undef (fun j x s' => exists pts buf, x = (Z.of_nat (length pts), buf) /\
    length buf = 4%nat /\ (length pts + j = 5)%nat /\ points_read s d pts s') _ n 5); [| | |lia].
  - intros j x s' (pts & buf & -> & Hb & Hj' & Hp).
    apply (runs_points_round s d); [done|lia|lia|done|done|]. intros p buf' s'' Hb' Hp'.
    exists (pts ++ [p]), buf'. rewrite length_app. simpl length.
    repeat split; try done; [lia|apply Hp'..].
  - intros x s' (pts & buf & -> & Hb & Hj' & (Hg & _)). unfold bind, gets. rewrite Hg.
    cbn [upd_gt9147_dev g_gt9147_dev touched gt_point_num].
    destruct (Z.ltb_spec (Z.of_nat (length pts)) (gt_point_num d)); [|lia]. rewrite Nat2Z.id.
    by replace (length pts) with 5%nat by lia.
  - exists [], junk. split; [done|]. split; [done|]. split; [simpl; lia|].
    split; [|cbn; by rewrite !app_nil_r]. destruct s as [t g]. simpl in Hdev |- *. subst d.
    unfold touched. cbn. rewrite !drop_0. by destruct g as [? ? ? ? ? ? ? ? ? [] ?].
Qed.
End Accessors.

(** reading the touch points, on a bus whose slave acknowledges: the driver
    reads the status register, clears it, and, when the status announces [k]
    points with [k] at most five, stores exactly the [k] pairs of coordinates
    the controller delivered (little-endian, from the registers of point 1 to
    point [k] in order) in the first [k] places of the arrays, leaving the other
    places alone; with [k] above five it leaves the bounds of its tables. *)
Theorem gt9147_points `{Bus I2C2 m} junk n s :
  acks I2C2 -> master (base := I2C2) (tr s) = false -> (m < n)%nat -> 0xffff < Z.of_nat n ->
  dev_ok (g_gt9147_dev (gl s)) -> length junk = 4%nat ->
  exists status s1, gt9147_read_byte GT9147_ADDR GT_GSTID_REG n s = Ret status s1 /\
  let k := status .& 0xF in
  if 5 <? k then gt9147_read_tpcoord junk n s = Undef
  else runs (gt9147_read_tpcoord junk) n s (fun _ s' => exists pts,
    Z.of_nat (length pts) = k /\
    gl s' = upd_gt9147_dev (fun d => touched (set_point_num k d) pts) (gl s) /\
    sent (base := I2C2) (tr s') = sent (base := I2C2) (tr s1) ++
      gt_write_header GT_GSTID_REG ++ [0] ++
      mjoin ((fun i => gt_read_header (0x8150 + 8 * i)) <$> seqZ 0 k) /\
    received (base := I2C2) (tr s') =
      received (base := I2C2) (tr s1) ++ mjoin (sample_bytes <$> pts) /\
    master (base := I2C2) (tr s') = false).
Proof.
  intros Ha Hma Hm Hn Hd Hj.
  assert (runs (gt9147_read_byte GT9147_ADDR GT_GSTID_REG) n s (fun v s1 =>
    fits 8 v /\ gl s1 = gl s /\ master (base := I2C2) (tr s1) = false)) as Hst.
  { apply (runs_gt_read_byte n Hm Hn Ha); [unfold GT_GSTID_REG; lia|done|].
    intros dummy v t _ _ Hma'. split; [apply u8_fits|done]. }
  apply runs_inv in Hst as (st & s1 & E & Hst & Hg & Hma1). exists st, s1. split; [done|]. cbv zeta.
  set (k := st .& 0xF).
  assert (0 <= k < 16) as Hk
    by (subst k; rewrite (Z.land_ones _ 4) by lia; apply Z.mod_pos_bound; lia).
  assert (runs (gt9147_write_byte GT9147_ADDR GT_GSTID_REG 0x00) n s1 (fun _ s2 =>
    gl s2 = gl s1 /\ master (base := I2C2) (tr s2) = false /\
    sent (base := I2C2) (tr s2) = sent (base := I2C2) (tr s1) ++ gt_write_header GT_GSTID_REG ++ [0] /\
    received (base := I2C2) (tr s2) = received (base := I2C2) (tr s1))) as Hw.
  { unfold gt9147_write_byte. apply runs_bind.
    apply (runs_gt_write_xfer n Hm Hn Ha _ [0]); [unfold GT_GSTID_REG; lia|simpl; lia|done|].
    intros x t Hs Hr Hma2. by apply runs_ret. }
  apply runs_inv in Hw as (w & s2 & E2 & Hg2 & Hma2 & Hs2 & Hr2).
  set (s3 := Fw (tr s2) (upd_gt9147_dev (set_point_num k) (gl s2))).
  assert (dev_ok (g_gt9147_dev (gl s3))) as Hd3 by (subst s3; simpl; by rewrite Hg2, Hg).
  destruct (Z.ltb_spec 5 k).
  - unfold gt9147_read_tpcoord. unfold bind at 1. rewrite E. unfold bind at 1. rewrite E2.
    unfold bind at 1, modify. cbv beta iota. fold k. fold s3.
    by apply (points_overrun n Hm Hn Ha (g_gt9147_dev (gl s3))).
  - unfold gt9147_read_tpcoord. apply runs_bind. eapply runs_eq; [exact E|].
    apply runs_bind. eapply runs_eq; [exact E2|]. apply runs_bind, runs_modify. fold k. fold s3.
    apply (runs_points n Hm Hn Ha (g_gt9147_dev (gl s3))); [done|done|simpl; lia|done|done|].
    intros pts s' Hl (Hg' & Hs' & Hr' & Hma'). cbn in Hl. exists pts. split; [done|].
    split; [rewrite Hg'; subst s3; cbn [gl]; by rewrite Hg2, Hg|].
    rewrite Hs', Hr'. subst s3. cbn [tr]. rewrite Hs2, Hr2, Hl, <- !app_assoc. done.
Qed.

(** A controller on the second bus that reports two points. *)
Definition touch_device : Device :=
  sim_device (fun _ => 0) (fun a =>
    if a =? I2C_I2SR I2C2 then Some (fun t =>
      if Z.testbit (regval_from (fun _ => 0) t (I2C_I2CR I2C2)) 5 then 0xA2 else 0x82)
    else if a =? I2C_I2DR I2C2 then Some (fun _ => 0x82) else None).

Lemma touch_device_sr t :
  @dev_read touch_device t (I2C_I2SR I2C2) =
    (if Z.testbit (@regval touch_device t (I2C_I2CR I2C2)) 5 then 0xA2 else 0x82).
Proof. reflexivity. Qed.

Global Instance touch_device_bus : @Bus touch_device I2C2 0.
Proof.
  refine (@Build_Bus touch_device I2C2 0 _ _ _ _ _).
  - by apply storage_sim.
  - intros t. rewrite touch_device_sr. by destruct (Z.testbit (regval t _) 5).
  - intros t. rewrite touch_device_sr. by destruct (Z.testbit (regval t _) 5).
  - intros t. left. rewrite touch_device_sr. by destruct (Z.testbit (regval t _) 5).
  - intros t. left. rewrite touch_device_sr. by destruct (Z.testbit (regval t _) 5).
Defined.

Lemma touch_device_acks : @acks touch_device I2C2.
Proof. intros t. rewrite touch_device_sr. by destruct (Z.testbit (regval t _) 5). Qed.

Lemma gt9147_points_witness :
  exists status s1, @gt9147_read_byte touch_device GT9147_ADDR GT_GSTID_REG (Z.to_nat 65536) fw0 =
    Ret status s1 /\
  let k := status .& 0xF in
  if 5 <? k then @gt9147_read_tpcoord touch_device [0; 0; 0; 0] (Z.to_nat 65536) fw0 = Undef
  else runs (@gt9147_read_tpcoord touch_device [0; 0; 0; 0]) (Z.to_nat 65536) fw0 (fun _ s' => exists pts,
    Z.of_nat (length pts) = k /\
    gl s' = upd_gt9147_dev (fun d => touched (set_point_num k d) pts) (gl fw0) /\
    sent (base := I2C2) (tr s') = sent (base := I2C2) (tr s1) ++
      gt_write_header GT_GSTID_REG ++ [0] ++
      mjoin ((fun i => gt_read_header (0x8150 + 8 * i)) <$> seqZ 0 k) /\
    received (base := I2C2) (tr s') =
      received (base := I2C2) (tr s1) ++ mjoin (sample_bytes <$> pts) /\
    @master touch_device I2C2 (tr s') = false).
Proof.
  apply (@gt9147_points touch_device 0 touch_device_bus [0; 0; 0; 0] (Z.to_nat 65536) fw0);
    [apply touch_device_acks|done|lia|lia|done|done].
Defined.

(** sending the configuration: the table goes to its registers and the
    checksum and the mode to the two registers right behind it; the bytes of the
    table and the checksum add up to zero modulo 256. *)
Theorem gt9147_cfg_checksum `{Bus I2C2 m} mode n s :
  acks I2C2 -> master (base := I2C2) (tr s) = false -> (m < n)%nat -> 0xffff < Z.of_nat n ->
  0 <= mode < 256 ->
  GT_CFGS_REG + Z.of_nat (length GT9147_CFG_TBL) = GT_CHECK_REG /\
  exists check, (foldr Z.add 0 GT9147_CFG_TBL + check) mod 256 = 0 /\ 0 <= check < 256 /\
  runs (gt9147_send_cfg mode) n s (fun _ s' =>
    sent (base := I2C2) (tr s') = sent (base := I2C2) (tr s) ++
      gt_write_header GT_CFGS_REG ++ GT9147_CFG_TBL ++
      gt_write_header GT_CHECK_REG ++ [check; mode] /\
    gl s' = gl s /\ master (base := I2C2) (tr s') = false).
Proof.
  intros Ha Hma Hm Hn Hmode. split; [reflexivity|]. exists (cfg_checksum GT9147_CFG_TBL).
  assert (u16 <$> GT9147_CFG_TBL = GT9147_CFG_TBL) as Et by (vm_compute; reflexivity).
  assert (0 <= cfg_checksum GT9147_CFG_TBL < 256) as Hc by apply u8_fits.
  split; [vm_compute; reflexivity|]. split; [done|]. unfold gt9147_send_cfg.
  apply runs_bind. unfold gt9147_write_len at 1. apply runs_bind.
  apply (runs_gt_write_xfer n Hm Hn Ha GT_CFGS_REG GT9147_CFG_TBL); [unfold GT_CFGS_REG; lia| |done|].
  { change (length GT9147_CFG_TBL) with 184%nat. lia. }
  intros x t Hs Hr Hma1. apply runs_ret. unfold gt9147_write_len. apply runs_bind.
  apply (runs_gt_write_xfer n Hm Hn Ha GT_CHECK_REG [cfg_checksum GT9147_CFG_TBL; mode]);
    [unfold GT_CHECK_REG; lia|simpl; lia|done|].
  intros x' t' Hs' Hr' Hma2. apply runs_ret. cbn [tr gl] in *. split; [|done].
  rewrite Hs', Hs, Et. cbn [fmap list_fmap]. by rewrite !u16_small, <- !app_assoc by lia.
Qed.

Lemma gt9147_cfg_checksum_witness :
  GT_CFGS_REG + Z.of_nat (length GT9147_CFG_TBL) = GT_CHECK_REG /\
  exists check, (foldr Z.add 0 GT9147_CFG_TBL + check) mod 256 = 0 /\ 0 <= check < 256 /\
  runs (@gt9147_send_cfg touch_device 1) (Z.to_nat 65536) fw0 (fun _ s' =>
    sent (base := I2C2) (tr s') = sent (base := I2C2) (tr fw0) ++
      gt_write_header GT_CFGS_REG ++ GT9147_CFG_TBL ++
      gt_write_header GT_CHECK_REG ++ [check; 1] /\
    gl s' = gl fw0 /\ @master touch_device I2C2 (tr s') = false).
Proof.
  apply (@gt9147_cfg_checksum touch_device 0 touch_device_bus 1 (Z.to_nat 65536) fw0);
    [apply touch_device_acks|done|lia|lia|lia].
Defined.
