(* ===== verification/Lcd.v ===== *)
(** The LCD controller and its frame buffer: baremetal/20_pwm/bsp/lcd/lcd.c.

    The frame buffer is ordinary memory: the words written so far are in
    [g_dram], every other word has the value [dram_reset] gives it. *)
From S2P Require Import Prelude Machine FwLogic Regs Gpio Delay.

Definition ATK4342 : Z := 0x4342.
Definition ATK4384 : Z := 0x4384.
Definition ATK7084 : Z := 0x7084.
Definition ATK7016 : Z := 0x7016.
Definition ATK1018 : Z := 0x1018.
Definition ATKVGA : Z := 0xFF00.
Definition ATKUNKNOWN : Z := 0x0000.
Definition PIXEL_SIZE_ARGB8888 : Z := 4.
Definition LCD_FRAMEBUF_ADDR : Z := 0x89000000.
Definition LCD_WHITE : Z := 0x00FFFFFF.
Definition LCD_RED : Z := 0x00FF0000.
Definition LCD_BLUE : Z := 0x000000FF.

(** ** Assignments to [tft_lcd] *)
Definition with_geometry (h w vs vb vf hs hb hf : Z) (l : tft_lcd_t) : tft_lcd_t :=
  {| lcd_height := h; lcd_width := w; lcd_pixel_size := l.(lcd_pixel_size);
     lcd_vspw := vs; lcd_vbp := vb; lcd_vfp := vf; lcd_hspw := hs; lcd_hbp := hb; lcd_hfp := hf;
     lcd_buf := l.(lcd_buf); lcd_forecolor := l.(lcd_forecolor);
     lcd_backcolor := l.(lcd_backcolor); lcd_id := l.(lcd_id) |}.
Definition with_display (id pixel_size buf back fore : Z) (l : tft_lcd_t) : tft_lcd_t :=
  {| lcd_height := l.(lcd_height); lcd_width := l.(lcd_width); lcd_pixel_size := pixel_size;
     lcd_vspw := l.(lcd_vspw); lcd_vbp := l.(lcd_vbp); lcd_vfp := l.(lcd_vfp);
     lcd_hspw := l.(lcd_hspw); lcd_hbp := l.(lcd_hbp); lcd_hfp := l.(lcd_hfp);
     lcd_buf := buf; lcd_forecolor := fore; lcd_backcolor := back; lcd_id := id |}.
Definition with_forecolor (c : Z) (l : tft_lcd_t) : tft_lcd_t :=
  {| lcd_height := l.(lcd_height); lcd_width := l.(lcd_width);
     lcd_pixel_size := l.(lcd_pixel_size);
     lcd_vspw := l.(lcd_vspw); lcd_vbp := l.(lcd_vbp); lcd_vfp := l.(lcd_vfp);
     lcd_hspw := l.(lcd_hspw); lcd_hbp := l.(lcd_hbp); lcd_hfp := l.(lcd_hfp);
     lcd_buf := l.(lcd_buf); lcd_forecolor := c; lcd_backcolor := l.(lcd_backcolor);
     lcd_id := l.(lcd_id) |}.

(** The panel with the identification bits [panel_id]. *)
Definition panel_of (panel_id : Z) : Z :=
  if panel_id =? 0 then ATK4342
  else if panel_id =? 1 then ATK7084
  else if panel_id =? 2 then ATK7016
  else if panel_id =? 4 then ATK4384
  else if panel_id =? 5 then ATK1018
  else if panel_id =? 7 then ATKVGA
  else ATKUNKNOWN.

Section Operations.
Context `{Device}.

(** The fields of the pin configurations the source leaves uninitialised are
    arguments: the interrupt mode, and the unused output level of inputs. *)
Definition lcd_panel_id_gpio_init (jm : pin_irq_mode) (jv : Z) : M unit :=
  IOMUXC_SetPinMux IOMUXC_LCD_VSYNC_GPIO3_IO03 0 ;;
  IOMUXC_SetPinConfig IOMUXC_LCD_VSYNC_GPIO3_IO03 0x000010B0 ;;
  gpio_init GPIO3 3 {| cfg_dir := GPIO_OUTPUT; cfg_def_val := LEVEL_HIGH; cfg_irq_mode := jm |} ;;
  IOMUXC_SetPinMux IOMUXC_LCD_DATA07_GPIO3_IO12 0 ;;
  IOMUXC_SetPinMux IOMUXC_LCD_DATA15_GPIO3_IO20 0 ;;
  IOMUXC_SetPinMux IOMUXC_LCD_DATA23_GPIO3_IO28 0 ;;
  IOMUXC_SetPinConfig IOMUXC_LCD_DATA07_GPIO3_IO12 0x0000F080 ;;
  IOMUXC_SetPinConfig IOMUXC_LCD_DATA15_GPIO3_IO20 0x0000F080 ;;
  IOMUXC_SetPinConfig IOMUXC_LCD_DATA23_GPIO3_IO28 0x0000F080 ;;
  gpio_init GPIO3 12 {| cfg_dir := GPIO_INPUT; cfg_def_val := jv; cfg_irq_mode := jm |} ;;
  gpio_init GPIO3 20 {| cfg_dir := GPIO_INPUT; cfg_def_val := jv; cfg_irq_mode := jm |} ;;
  gpio_init GPIO3 28 {| cfg_dir := GPIO_INPUT; cfg_def_val := jv; cfg_irq_mode := jm |}.

Definition lcd_read_panel_id : M Z :=
  id_m0 <- pin_read GPIO3 28 ;;
  id_m1 <- pin_read GPIO3 20 ;;
  id_m2 <- pin_read GPIO3 12 ;;
  ret (panel_of (id_m0 .| (id_m1 << 1) .| (id_m2 << 2))).

Definition lcd_gpio_init (jm : pin_irq_mode) : M unit :=
  IOMUXC_SetPinMux IOMUXC_LCD_DATA00_LCDIF_DATA00 0 ;;
  IOMUXC_SetPinMux IOMUXC_LCD_DATA01_LCDIF_DATA01 0 ;;
  IOMUXC_SetPinMux IOMUXC_LCD_DATA02_LCDIF_DATA02 0 ;;
  IOMUXC_SetPinMux IOMUXC_LCD_DATA03_LCDIF_DATA03 0 ;;
  IOMUXC_SetPinMux IOMUXC_LCD_DATA04_LCDIF_DATA04 0 ;;
  IOMUXC_SetPinMux IOMUXC_LCD_DATA05_LCDIF_DATA05 0 ;;
  IOMUXC_SetPinMux IOMUXC_LCD_DATA06_LCDIF_DATA06 0 ;;
  IOMUXC_SetPinMux IOMUXC_LCD_DATA07_LCDIF_DATA07 0 ;;
  IOMUXC_SetPinMux IOMUXC_LCD_DATA08_LCDIF_DATA08 0 ;;
  IOMUXC_SetPinMux IOMUXC_LCD_DATA09_LCDIF_DATA09 0 ;;
  IOMUXC_SetPinMux IOMUXC_LCD_DATA10_LCDIF_DATA10 0 ;;
  IOMUXC_SetPinMux IOMUXC_LCD_DATA11_LCDIF_DATA11 0 ;;
  IOMUXC_SetPinMux IOMUXC_LCD_DATA12_LCDIF_DATA12 0 ;;
  IOMUXC_SetPinMux IOMUXC_LCD_DATA13_LCDIF_DATA13 0 ;;
  IOMUXC_SetPinMux IOMUXC_LCD_DATA14_LCDIF_DATA14 0 ;;
  IOMUXC_SetPinMux IOMUXC_LCD_DATA15_LCDIF_DATA15 0 ;;
  IOMUXC_SetPinMux IOMUXC_LCD_DATA16_LCDIF_DATA16 0 ;;
  IOMUXC_SetPinMux IOMUXC_LCD_DATA17_LCDIF_DATA17 0 ;;
  IOMUXC_SetPinMux IOMUXC_LCD_DATA18_LCDIF_DATA18 0 ;;
  IOMUXC_SetPinMux IOMUXC_LCD_DATA19_LCDIF_DATA19 0 ;;
  IOMUXC_SetPinMux IOMUXC_LCD_DATA20_LCDIF_DATA20 0 ;;
  IOMUXC_SetPinMux IOMUXC_LCD_DATA21_LCDIF_DATA21 0 ;;
  IOMUXC_SetPinMux IOMUXC_LCD_DATA22_LCDIF_DATA22 0 ;;
  IOMUXC_SetPinMux IOMUXC_LCD_DATA23_LCDIF_DATA23 0 ;;
  IOMUXC_SetPinMux IOMUXC_LCD_ENABLE_LCDIF_ENABLE 0 ;;
  IOMUXC_SetPinMux IOMUXC_LCD_HSYNC_LCDIF_HSYNC 0 ;;
  IOMUXC_SetPinMux IOMUXC_LCD_VSYNC_LCDIF_VSYNC 0 ;;
  IOMUXC_SetPinMux IOMUXC_LCD_CLK_LCDIF_CLK 0 ;;
  IOMUXC_SetPinMux IOMUXC_GPIO1_IO08_GPIO1_IO08 0 ;;
  IOMUXC_SetPinConfig IOMUXC_LCD_DATA00_LCDIF_DATA00 0x000000B9 ;;
  IOMUXC_SetPinConfig IOMUXC_LCD_DATA01_LCDIF_DATA01 0x000000B9 ;;
  IOMUXC_SetPinConfig IOMUXC_LCD_DATA02_LCDIF_DATA02 0x000000B9 ;;
  IOMUXC_SetPinConfig IOMUXC_LCD_DATA03_LCDIF_DATA03 0x000000B9 ;;
  IOMUXC_SetPinConfig IOMUXC_LCD_DATA04_LCDIF_DATA04 0x000000B9 ;;
  IOMUXC_SetPinConfig IOMUXC_LCD_DATA05_LCDIF_DATA05 0x000000B9 ;;
  IOMUXC_SetPinConfig IOMUXC_LCD_DATA06_LCDIF_DATA06 0x000000B9 ;;
  IOMUXC_SetPinConfig IOMUXC_LCD_DATA07_LCDIF_DATA07 0x000000B9 ;;
  IOMUXC_SetPinConfig IOMUXC_LCD_DATA08_LCDIF_DATA08 0x000000B9 ;;
  IOMUXC_SetPinConfig IOMUXC_LCD_DATA09_LCDIF_DATA09 0x000000B9 ;;
  IOMUXC_SetPinConfig IOMUXC_LCD_DATA10_LCDIF_DATA10 0x000000B9 ;;
  IOMUXC_SetPinConfig IOMUXC_LCD_DATA11_LCDIF_DATA11 0x000000B9 ;;
  IOMUXC_SetPinConfig IOMUXC_LCD_DATA12_LCDIF_DATA12 0x000000B9 ;;
  IOMUXC_SetPinConfig IOMUXC_LCD_DATA13_LCDIF_DATA13 0x000000B9 ;;
  IOMUXC_SetPinConfig IOMUXC_LCD_DATA14_LCDIF_DATA14 0x000000B9 ;;
  IOMUXC_SetPinConfig IOMUXC_LCD_DATA15_LCDIF_DATA15 0x000000B9 ;;
  IOMUXC_SetPinConfig IOMUXC_LCD_DATA16_LCDIF_DATA16 0x000000B9 ;;
  IOMUXC_SetPinConfig IOMUXC_LCD_DATA17_LCDIF_DATA17 0x000000B9 ;;
  IOMUXC_SetPinConfig IOMUXC_LCD_DATA18_LCDIF_DATA18 0x000000B9 ;;
  IOMUXC_SetPinConfig IOMUXC_LCD_DATA19_LCDIF_DATA19 0x000000B9 ;;
  IOMUXC_SetPinConfig IOMUXC_LCD_DATA20_LCDIF_DATA20 0x000000B9 ;;
  IOMUXC_SetPinConfig IOMUXC_LCD_DATA21_LCDIF_DATA21 0x000000B9 ;;
  IOMUXC_SetPinConfig IOMUXC_LCD_DATA22_LCDIF_DATA22 0x000000B9 ;;
  IOMUXC_SetPinConfig IOMUXC_LCD_DATA23_LCDIF_DATA23 0x000000B9 ;;
  IOMUXC_SetPinConfig IOMUXC_LCD_CLK_LCDIF_CLK 0x000000B9 ;;
  IOMUXC_SetPinConfig IOMUXC_LCD_ENABLE_LCDIF_ENABLE 0x000000B9 ;;
  IOMUXC_SetPinConfig IOMUXC_LCD_HSYNC_LCDIF_HSYNC 0x000000B9 ;;
  IOMUXC_SetPinConfig IOMUXC_LCD_VSYNC_LCDIF_VSYNC 0x000000B9 ;;
  IOMUXC_SetPinConfig IOMUXC_GPIO1_IO08_GPIO1_IO08 0x000010B0 ;;
  gpio_init GPIO1 8 {| cfg_dir := GPIO_OUTPUT; cfg_def_val := LEVEL_HIGH; cfg_irq_mode := jm |} ;;
  pin_write GPIO1 8 1.

Definition lcd_reset : M unit := set32 LCDIF_CTRL (1 << 31).
Definition lcd_noreset : M unit := clr32 LCDIF_CTRL (1 << 31).
Definition lcd_enable : M unit := set32 LCDIF_CTRL (1 << 0).
Definition lcd_disable : M unit := clr32 LCDIF_CTRL (1 << 0).

Definition lcd_clk_init (loop_div pre_div post_div : Z) : M unit :=
  wr32 CCM_ANALOG_PLL_VIDEO_DENOM 1 ;;
  wr32 CCM_ANALOG_PLL_VIDEO_NUM 0 ;;
  clr32 CCM_ANALOG_PLL_VIDEO 0xFFFFFFFF ;;
  set32 CCM_ANALOG_PLL_VIDEO (loop_div << 0) ;;
  clr32 CCM_ANALOG_PLL_VIDEO (3 << 19) ;;
  set32 CCM_ANALOG_PLL_VIDEO (2 << 19) ;;
  clr32 CCM_ANALOG_MISC2 (3 << 30) ;;
  set32 CCM_ANALOG_MISC2 (0 << 30) ;;
  set32 CCM_ANALOG_PLL_VIDEO (1 << 13) ;;
  clr32 CCM_CSCDR2 (7 << 15) ;;
  set32 CCM_CSCDR2 (2 << 15) ;;
  clr32 CCM_CSCDR2 (7 << 12) ;;
  set32 CCM_CSCDR2 ((pre_div - 1) << 12) ;;
  clr32 CCM_CBCMR (7 << 23) ;;
  set32 CCM_CBCMR ((post_div - 1) << 23) ;;
  clr32 CCM_CSCDR2 (7 << 9) ;;
  set32 CCM_CSCDR2 (0 << 9).

(** Words of the frame buffer. *)
Definition dram_word (g : globals) (a : Z) : Z :=
  match g_dram g !! a with Some v => v | None => dram_reset a end.
Definition st_dram (a v : Z) : M unit := modify (upd_dram (<[a := u32 v]>)).
Definition ld_dram (a : Z) : M Z := gets (fun g => dram_word g a).

(** [pixel_size * (width * y + x)], computed in [int]: past its range the
    behaviour is undefined. *)
Definition position (l : tft_lcd_t) (x y : Z) : Z := lcd_pixel_size l * (lcd_width l * y + x).
Definition pixel_addr (l : tft_lcd_t) (x y : Z) : Z := u32 (lcd_buf l + position l x y).

Definition lcd_draw_point (x y color : Z) : M unit :=
  l <- gets g_tft_lcd ;;
  if (lcd_width l * y + x <? 2 ^ 31) && (position l x y <? 2 ^ 31)
  then st_dram (pixel_addr l x y) color else undefined.

Definition lcd_read_point (x y : Z) : M Z :=
  l <- gets g_tft_lcd ;;
  if (lcd_width l * y + x <? 2 ^ 31) && (position l x y <? 2 ^ 31)
  then ld_dram (pixel_addr l x y) else undefined.

(** The inner loop of lines 442 to 444. *)
Definition fill_row (x0 x1 y color : Z) : M unit :=
  iter (fun x =>
    if x <=? x1 then lcd_draw_point x y color ;; ret (inl (u16 (x + 1))) else ret (inr tt)) x0.

Definition lcd_fill (x0 y0 x1 y1 color : Z) : M unit :=
  l <- gets g_tft_lcd ;;
  let x0 := if x0 <? 0 then 0 else x0 in
  let y0 := if y0 <? 0 then 0 else y0 in
  let x1 := if lcd_width l <? x1 then lcd_width l else x1 in
  let y1 := if lcd_height l <? y1 then lcd_height l else y1 in
  iter (fun y =>
    if y <=? y1 then fill_row x0 x1 y color ;; ret (inl (u16 (y + 1))) else ret (inr tt)) y0.

Definition lcd_clear (color : Z) : M unit :=
  l <- gets g_tft_lcd ;;
  let frame_size := u32 (lcd_width l * lcd_height l) in
  iter (fun pixel =>
    if pixel <? frame_size then
      st_dram (u32 (lcd_buf l + 4 * pixel)) color ;; ret (inl (u32 (pixel + 1)))
    else ret (inr tt)) 0.

Definition set_geometry (h w vs vb vf hs hb hf : Z) : M unit :=
  modify (upd_tft_lcd (with_geometry h w vs vb vf hs hb hf)).

(** Lines 478 to 538: the parameters and the clock of the panel. *)
Definition lcd_set_panel (lcd_id : Z) : M unit :=
  if lcd_id =? ATK4342 then
    set_geometry 272 481 1 8 8 1 40 5 ;; lcd_clk_init 27 8 8
  else if lcd_id =? ATK4384 then
    set_geometry 480 800 3 32 13 48 88 40 ;; lcd_clk_init 42 4 8
  else if lcd_id =? ATK7084 then
    set_geometry 480 800 1 23 22 1 46 210 ;; lcd_clk_init 30 3 7
  else if lcd_id =? ATK7016 then
    set_geometry 600 1024 3 20 12 20 140 160 ;; lcd_clk_init 32 3 5
  else if lcd_id =? ATK1018 then
    set_geometry 800 1280 3 10 10 10 80 70 ;; lcd_clk_init 35 3 5
  else if lcd_id =? ATKVGA then
    set_geometry 768 1366 3 24 3 143 213 70 ;; lcd_clk_init 32 3 3
  else ret tt.

(** Lines 565 to 639: the controller's registers. *)
Definition lcd_controller_init (lcd_id : Z) : M unit :=
  clr32 LCDIF_CTRL 0xFFFFFFFF ;;
  set32 LCDIF_CTRL ((1 << 19) .| (1 << 17) .| (3 << 10) .| (3 << 8) .| (1 << 5)) ;;
  clr32 LCDIF_CTRL1 (0xF << 16) ;;
  set32 LCDIF_CTRL1 (7 << 16) ;;
  l <- gets g_tft_lcd ;;
  clr32 LCDIF_TRANSFER_COUNT 0xFFFFFFFF ;;
  set32 LCDIF_TRANSFER_COUNT ((lcd_height l << 16) .| (lcd_width l << 0)) ;;
  clr32 LCDIF_VDCTRL0 0xFFFFFFFF ;;
  (if lcd_id =? ATKVGA
   then set32 LCDIF_VDCTRL0 ((1 << 28) .| (1 << 25) .| (1 << 21) .| (1 << 20) .| (lcd_vspw l << 0))
   else set32 LCDIF_VDCTRL0 ((1 << 28) .| (1 << 24) .| (1 << 21) .| (1 << 20) .| (lcd_vspw l << 0))) ;;
  clr32 LCDIF_VDCTRL1 0xFFFFFFFF ;;
  set32 LCDIF_VDCTRL1 (lcd_height l + lcd_vspw l + lcd_vfp l + lcd_vbp l) ;;
  clr32 LCDIF_VDCTRL2 0xFFFFFFFF ;;
  set32 LCDIF_VDCTRL2 ((lcd_hspw l << 18) .| (lcd_width l + lcd_hspw l + lcd_hfp l + lcd_hbp l)) ;;
  clr32 LCDIF_VDCTRL3 0xFFFFFFFF ;;
  set32 LCDIF_VDCTRL3 (((lcd_hbp l + lcd_hspw l) << 16) .| (lcd_vbp l + lcd_vspw l)) ;;
  clr32 LCDIF_VDCTRL4 0xFFFFFFFF ;;
  set32 LCDIF_VDCTRL4 ((1 << 18) .| lcd_width l) ;;
  wr32 LCDIF_CUR_BUF (lcd_buf l) ;;
  wr32 LCDIF_NEXT_BUF (lcd_buf l).

Definition lcd_init (jm : pin_irq_mode) (jv : Z) : M unit :=
  lcd_panel_id_gpio_init jm jv ;;
  lcd_id <- lcd_read_panel_id ;;
  lcd_gpio_init jm ;;
  lcd_reset ;;
  delay_ms 10 ;;
  lcd_noreset ;;
  lcd_set_panel lcd_id ;;
  modify (upd_tft_lcd (with_display lcd_id PIXEL_SIZE_ARGB8888 LCD_FRAMEBUF_ADDR LCD_WHITE LCD_WHITE)) ;;
  lcd_controller_init lcd_id ;;
  lcd_enable ;;
  delay_ms 10 ;;
  lcd_clear LCD_WHITE.
End Operations.

(** ** The screen *)

(** What [lcd_init] establishes of the display parameters. *)
Definition screen_ok (l : tft_lcd_t) : Prop :=
  lcd_pixel_size l = 4 /\ 0 < lcd_width l <= 2048 /\ 0 < lcd_height l <= 2048 /\
  lcd_buf l = LCD_FRAMEBUF_ADDR.

Definition on_screen (l : tft_lcd_t) (x y : Z) : Prop :=
  0 <= x < lcd_width l /\ 0 <= y < lcd_height l.

(** The colour the screen shows at a point. *)
Definition pixel `{Device} (g : globals) (x y : Z) : Z :=
  dram_word g (pixel_addr (g_tft_lcd g) x y).

Lemma pixel_addr_eq l x y : screen_ok l -> on_screen l x y ->
  pixel_addr l x y = LCD_FRAMEBUF_ADDR + 4 * (lcd_width l * y + x).
Proof.
  intros (Hp & Hw & Hh & Hb) [Hx Hy]. unfold pixel_addr, position. rewrite Hp, Hb.
  apply u32_small. unfold LCD_FRAMEBUF_ADDR. nia.
Qed.

(** No two points share a word. *)
Lemma pixel_addr_inj l x y x' y' : screen_ok l -> on_screen l x y -> on_screen l x' y' ->
  pixel_addr l x y = pixel_addr l x' y' -> x = x' /\ y = y'.
Proof.
  intros Hl H1 H2. rewrite !pixel_addr_eq by done. destruct H1 as [Hx Hy], H2 as [Hx' Hy'].
  intros E. assert (y = y') as -> by nia. split; [lia|done].
Qed.

Section Painting.
Context `{Device}.

(** [s'] is [s] with the points of the screen where [f] says so in the colour it
    says, and nothing else changed. *)
Definition paints (s s' : fw) (f : Z -> Z -> option Z) : Prop :=
  tr s' = tr s /\ (exists m, gl s' = upd_dram (fun _ => m) (gl s)) /\
  (forall x y, on_screen (g_tft_lcd (gl s)) x y ->
     pixel (gl s') x y = match f x y with Some c => c | None => pixel (gl s) x y end) /\
  (forall a, (forall x y, on_screen (g_tft_lcd (gl s)) x y -> a <> pixel_addr (g_tft_lcd (gl s)) x y) ->
     dram_word (gl s') a = dram_word (gl s) a).

Definition over (f g : Z -> Z -> option Z) (x y : Z) : option Z :=
  match f x y with Some c => Some c | None => g x y end.
Definition dot (x y c : Z) (u v : Z) : option Z :=
  if (u =? x) && (v =? y) then Some c else None.

Lemma paints_refl s : paints s s (fun _ _ => None).
Proof.
  split; [done|]. split; [|done]. exists (g_dram (gl s)). by destruct s as [t []].
Qed.

Lemma paints_lcd s s' f : paints s s' f -> g_tft_lcd (gl s') = g_tft_lcd (gl s).
Proof. by intros (_ & (m & ->) & _). Qed.

Lemma paints_trans s1 s2 s3 f g : paints s1 s2 f -> paints s2 s3 g -> paints s1 s3 (over g f).
Proof.
  intros H1 H2. pose proof (paints_lcd _ _ _ H1) as El.
  destruct H1 as (Ht1 & (m1 & Hg1) & Hp1 & Ho1), H2 as (Ht2 & (m2 & Hg2) & Hp2 & Ho2).
  rewrite El in *. split; [congruence|]. split; [exists m2; by rewrite Hg2, Hg1|]. split.
  - intros x y Hxy. unfold over. rewrite Hp2 by done. destruct (g x y); [done|by apply Hp1].
  - intros a Ha. rewrite Ho2, Ho1 by done. done.
Qed.

Lemma paints_ext s s' f g :
  (forall x y, on_screen (g_tft_lcd (gl s)) x y -> f x y = g x y) -> paints s s' f -> paints s s' g.
Proof.
  intros He (Ht & Hg & Hp & Ho). split; [done|]. split; [done|]. split; [|done].
  intros x y Hxy. by rewrite <- He, Hp.
Qed.

Lemma runs_st_pixel x y c n s (Q : unit -> fw -> Prop) :
  let l := g_tft_lcd (gl s) in
  screen_ok l -> on_screen l x y -> 0 <= c < 2 ^ 32 ->
  (forall s', paints s s' (dot x y c) -> Q tt s') -> runs (st_dram (pixel_addr l x y) c) n s Q.
Proof.
  intros l Hl Hxy Hc HQ. unfold st_dram. fw_steps.
  rewrite u32_small by done. apply HQ. split; [done|].
  split; [by eexists|]. cbn [gl]. split.
  - intros u v Huv. unfold pixel, dram_word. cbn [upd_dram g_dram g_tft_lcd]. fold l. unfold dot.
    destruct (decide (pixel_addr l x y = pixel_addr l u v)) as [E|Hne].
    + rewrite E, lookup_insert_eq. apply pixel_addr_inj in E as [-> ->]; [|done..].
      by rewrite !Z.eqb_refl.
    + rewrite lookup_insert_ne by done.
      destruct (Z.eqb_spec u x), (Z.eqb_spec v y); subst; done.
  - intros a Ha. unfold dram_word. cbn [upd_dram g_dram]. rewrite lookup_insert_ne; [done|].
    intros E. by apply (Ha x y Hxy).
Qed.

Lemma position_fits l x y : screen_ok l -> on_screen l x y ->
  (lcd_width l * y + x <? 2 ^ 31) && (position l x y <? 2 ^ 31) = true.
Proof.
  intros (Hp & Hw & Hh & Hb) [Hx Hy]. unfold position. rewrite Hp.
  apply andb_true_intro. split; apply Z.ltb_lt; nia.
Qed.

Lemma runs_draw x y c n s (Q : unit -> fw -> Prop) :
  screen_ok (g_tft_lcd (gl s)) -> on_screen (g_tft_lcd (gl s)) x y -> 0 <= c < 2 ^ 32 ->
  (forall s', paints s s' (dot x y c) -> Q tt s') -> runs (lcd_draw_point x y c) n s Q.
Proof.
  intros Hl Hxy Hc HQ. unfold lcd_draw_point. fw_steps. rewrite position_fits by done.
  by apply runs_st_pixel.
Qed.

(** One more point over what was painted. *)
Lemma runs_draw_over s0 f x y c n s (Q : unit -> fw -> Prop) :
  screen_ok (g_tft_lcd (gl s0)) -> paints s0 s f -> on_screen (g_tft_lcd (gl s0)) x y ->
  0 <= c < 2 ^ 32 ->
  (forall s', paints s0 s' (over (dot x y c) f) -> Q tt s') -> runs (lcd_draw_point x y c) n s Q.
Proof.
  intros Hl Hp Hxy Hc HQ. pose proof (paints_lcd _ _ _ Hp) as El.
  apply runs_draw; [by rewrite El|by rewrite El|done|]. intros s' Hs'.
  apply HQ. by eapply paints_trans.
Qed.

(** ** Filling *)
Definition box (x0 y0 x1 y1 c : Z) (u v : Z) : option Z :=
  if (x0 <=? u) && (u <=? x1) && (y0 <=? v) && (v <=? y1) then Some c else None.

Lemma runs_fill_row s0 f x0 x1 y c n s (Q : unit -> fw -> Prop) :
  screen_ok (g_tft_lcd (gl s0)) -> paints s0 s f ->
  0 <= x0 -> x1 < lcd_width (g_tft_lcd (gl s0)) -> 0 <= y < lcd_height (g_tft_lcd (gl s0)) ->
  0 <= c < 2 ^ 32 -> (2048 < n)%nat ->
  (forall s', paints s0 s' (over (box x0 y x1 y c) f) -> Q tt s') ->
  runs (fill_row x0 x1 y c) n s Q.
Proof.
  intros Hl Hp Hx0 Hx1 Hy Hc Hn HQ. unfold fill_row. pose proof Hl as (_ & Hw & _).
  apply (runs_iter (fun j x s' => x0 <= x /\ x <= Z.max x0 (x1 + 1) /\ j = Z.to_nat (x1 + 1 - x) /\
    paints s0 s' (over (box x0 y (x - 1) y c) f)) Q _ n (Z.to_nat (x1 + 1 - x0))); [| |lia].
  2: { split; [lia|]. split; [lia|]. split; [done|]. eapply paints_ext; [|exact Hp].
       intros u v _. unfold over, box. bcase; done. }
  intros j x s' (H1 & H2 & -> & Hp'). destruct (Z.leb_spec x x1).
  - apply runs_bind, (runs_draw_over s0 (over (box x0 y (x - 1) y c) f)); [done|done|split; lia|done|].
    intros s'' Hs''. apply runs_ret. rewrite u16_small by lia. exists (Z.to_nat (x1 + 1 - (x + 1))).
    split; [lia|]. split; [lia|]. split; [lia|]. split; [done|].
    eapply paints_ext; [|exact Hs'']. intros u v _. unfold over, box, dot. bcase; done.
  - apply runs_ret. apply HQ. eapply paints_ext; [|exact Hp'].
    intros u v _. unfold over, box. bcase; done.
Qed.

Lemma runs_lcd_fill x0 y0 x1 y1 c n s (Q : unit -> fw -> Prop) :
  let l := g_tft_lcd (gl s) in
  screen_ok l -> 0 <= x0 -> 0 <= y0 -> x1 < lcd_width l -> y1 < lcd_height l ->
  0 <= c < 2 ^ 32 -> (2048 < n)%nat ->
  (forall s', paints s s' (box x0 y0 x1 y1 c) -> Q tt s') ->
  runs (lcd_fill x0 y0 x1 y1 c) n s Q.
Proof.
  intros l Hl Hx0 Hy0 Hx1 Hy1 Hc Hn HQ. unfold lcd_fill. fw_steps. fold l. cbv zeta.
  destruct (Z.ltb_spec x0 0), (Z.ltb_spec y0 0), (Z.ltb_spec (lcd_width l) x1),
    (Z.ltb_spec (lcd_height l) y1); try lia.
  pose proof Hl as (_ & Hw & Hh & _).
  apply (runs_iter (fun j y s' => y0 <= y /\ y <= Z.max y0 (y1 + 1) /\ j = Z.to_nat (y1 + 1 - y) /\
    paints s s' (box x0 y0 x1 (y - 1) c)) Q _ n (Z.to_nat (y1 + 1 - y0))); [| |lia].
  2: { split; [lia|]. split; [lia|]. split; [done|]. eapply paints_ext; [|apply paints_refl].
       intros u v _. unfold box. bcase; done. }
  intros j y s' (H4 & H5 & -> & Hp'). destruct (Z.leb_spec y y1).
  - apply runs_bind, (runs_fill_row s (box x0 y0 x1 (y - 1) c)); try done; [fold l; lia|].
    intros s'' Hs''. apply runs_ret. rewrite u16_small by lia. exists (Z.to_nat (y1 + 1 - (y + 1))).
    split; [lia|]. split; [lia|]. split; [lia|]. split; [done|].
    eapply paints_ext; [|exact Hs'']. intros u v _. unfold over, box. bcase; done.
  - apply runs_ret. apply HQ. eapply paints_ext; [|exact Hp'].
    intros u v _. unfold box. bcase; done.
Qed.

(** ** Clearing *)
Definition sheet (l : tft_lcd_t) (k c : Z) (u v : Z) : option Z :=
  if lcd_width l * v + u <? k then Some c else None.

Lemma index_eqb w u v k : 0 <= u < w ->
  (u =? k mod w) && (v =? k / w) = (w * v + u =? k).
Proof.
  intros Hu. destruct (Z.eqb_spec (w * v + u) k) as [<-|Hne].
  - replace (w * v + u) with (u + v * w) by lia.
    rewrite Z.mod_add, Z.div_add, Z.mod_small, Z.div_small, Z.add_0_l by lia. by rewrite !Z.eqb_refl.
  - destruct (Z.eqb_spec u (k mod w)), (Z.eqb_spec v (k / w)); try done. subst.
    exfalso. apply Hne. symmetry. apply Z.div_mod. lia.
Qed.

Lemma runs_lcd_clear c n s (Q : unit -> fw -> Prop) :
  let l := g_tft_lcd (gl s) in
  screen_ok l -> 0 <= c < 2 ^ 32 -> lcd_width l * lcd_height l < Z.of_nat n ->
  (forall s', paints s s' (fun _ _ => Some c) -> Q tt s') -> runs (lcd_clear c) n s Q.
Proof.
  intros l Hl Hc Hn HQ. unfold lcd_clear. fw_steps. fold l. pose proof Hl as (_ & Hw & Hh & Hb).
  assert (0 < lcd_width l * lcd_height l <= 2048 * 2048) as Hsz by nia.
  rewrite u32_small by lia. cbv zeta. set (size := lcd_width l * lcd_height l) in *.
  apply (runs_iter (fun j k s' => 0 <= k <= size /\ j = Z.to_nat (size - k) /\
    paints s s' (sheet l k c)) Q _ n (Z.to_nat (size - 0))); [| |lia].
  2: { split; [lia|]. split; [done|]. eapply paints_ext; [|apply paints_refl].
       intros u v [Hu Hv]. unfold sheet. destruct (Z.ltb_spec (lcd_width l * v + u) 0); [nia|done]. }
  intros j k s' (Hk & -> & Hp). destruct (Z.ltb_spec k size) as [Hlt|Hge].
  - assert (on_screen l (k mod lcd_width l) (k / lcd_width l)) as Hon.
    { split; [apply Z.mod_pos_bound; lia|]. split; [apply Z.div_pos; lia|].
      apply Z.div_lt_upper_bound; [lia|]. done. }
    pose proof (Z.div_mod k (lcd_width l) ltac:(lia)) as Hdm.
    assert (u32 (lcd_buf l + 4 * k) = pixel_addr l (k mod lcd_width l) (k / lcd_width l)) as ->.
    { unfold pixel_addr, position. destruct Hl as (-> & _). by rewrite <- Hdm. }
    pose proof (paints_lcd _ _ _ Hp) as El. fold l in El. apply runs_bind.
    rewrite <- El. apply runs_st_pixel; rewrite ?El; [done|done|done|]. intros s'' Hs''.
    apply runs_ret. rewrite u32_small by lia. exists (Z.to_nat (size - (k + 1))). split; [lia|].
    split; [lia|]. split; [done|]. eapply paints_ext; [|eapply paints_trans; [exact Hp|exact Hs'']].
    intros u v [Hu Hv]. fold l in Hu, Hv. unfold over, dot, sheet.
    rewrite index_eqb by done. bcase; done.
  - apply runs_ret. apply HQ. eapply paints_ext; [|exact Hp]. intros u v [Hu Hv]. fold l in Hu, Hv.
    unfold sheet. destruct (Z.ltb_spec (lcd_width l * v + u) k); [done|nia].
Qed.
End Painting.

(** ** Properties *)

(** a rectangle that lies on the screen is filled exactly: every point of it
    gets the colour, every other point of the screen keeps its own, no word
    outside the frame buffer and no other variable or register changes. *)
Theorem lcd_fill_exact `{Device} x0 y0 x1 y1 c n s :
  let l := g_tft_lcd (gl s) in
  screen_ok l -> 0 <= x0 -> 0 <= y0 -> x1 < lcd_width l -> y1 < lcd_height l ->
  0 <= c < 2 ^ 32 -> (2048 < n)%nat ->
  runs (lcd_fill x0 y0 x1 y1 c) n s (fun _ s' => paints s s' (box x0 y0 x1 y1 c)).
Proof. intros l Hl H1 H2 H3 H4 Hc Hn. apply runs_lcd_fill; auto. Qed.

(** A screen of 8 by 4 points. *)
Definition small_screen : fw :=
  Fw [] (upd_tft_lcd (fun _ => with_display 0 4 LCD_FRAMEBUF_ADDR 0 7
                        (with_geometry 4 8 0 0 0 0 0 0 tft_lcd0)) globals0).

Lemma small_screen_ok : screen_ok (g_tft_lcd (gl small_screen)).
Proof. unfold screen_ok. simpl. lia. Qed.

Lemma lcd_fill_exact_witness :
  runs (lcd_fill 1 1 3 2 9) 2049 small_screen (fun _ s' =>
    @paints reg_device small_screen s' (box 1 1 3 2 9)).
Proof.
  apply (@lcd_fill_exact reg_device 1 1 3 2 9 2049 small_screen);
    [apply small_screen_ok|lia|lia|simpl; lia|simpl; lia|lia|lia].
Defined.

(** what was drawn is read back, and drawing a point changes what no other
    point of the screen reads. *)
Theorem lcd_point_roundtrip `{Device} x y c u v n s :
  let l := g_tft_lcd (gl s) in
  screen_ok l -> on_screen l x y -> on_screen l u v -> 0 <= c < 2 ^ 32 ->
  runs (lcd_draw_point x y c ;; lcd_read_point u v) n s (fun r s' =>
    r = if (u =? x) && (v =? y) then c else pixel (gl s) u v).
Proof.
  intros l Hl Hxy Huv Hc. apply runs_bind, runs_draw; [done|done|done|]. intros s' Hp.
  pose proof (paints_lcd _ _ _ Hp) as El. unfold lcd_read_point. fw_steps. rewrite El.
  rewrite position_fits by done. destruct Hp as (_ & _ & Hp & _). specialize (Hp u v Huv).
  unfold dot in Hp. unfold pixel at 1 in Hp. rewrite El in Hp. unfold ld_dram. fw_steps.
  fold l in Hp |- *. rewrite Hp. by destruct ((u =? x) && (v =? y)).
Qed.

Lemma lcd_point_roundtrip_witness :
  runs (lcd_draw_point 7 3 5 ;; @lcd_read_point reg_device 0 3) 1 small_screen
    (fun r s' => r = if (0 =? 7) && (3 =? 3) then 5 else @pixel reg_device (gl small_screen) 0 3).
Proof.
  apply (@lcd_point_roundtrip reg_device 7 3 5 0 3 1 small_screen);
    [apply small_screen_ok|unfold on_screen; simpl; lia|unfold on_screen; simpl; lia|lia].
Defined.

(** [lcd_fill] clips a rectangle to the width and the height themselves,
    one past the last column and row, and its bounds are inclusive: asked to
    fill the first row to its right edge and beyond, it also colours the first
    point of the second row; asked to fill the last row and beyond, it writes
    past the end of the frame buffer. *)
Theorem lcd_fill_spills :
  match lcd_fill 6 0 100 0 9 20%nat small_screen,
        lcd_fill 0 3 0 100 9 20%nat small_screen with
  | Ret _ s1, Ret _ s2 =>
      @pixel reg_device (gl s1) 0 1 = 9 /\ @pixel reg_device (gl small_screen) 0 1 = 0 /\
      @dram_word reg_device (gl s2) (LCD_FRAMEBUF_ADDR + 4 * 8 * 4) = 9
  | _, _ => False
  end.
Proof. vm_compute. repeat split; reflexivity. Qed.
