(* ===== verification/Font.v ===== *)
(** The font tables: baremetal/20_pwm/bsp/lcd/font.h.

    Each glyph is the array of its bytes, column by column from the left, most
    significant bit at the top of each byte.  A row of the tables is written as
    one number, most significant byte first; [hexbytes] takes it apart.  The
    table of the largest font is declared with rows of 128 bytes of which the
    source initialises 64; C fills the rest with zeros. *)
From S2P Require Import Prelude.

Fixpoint hexbytes (n : nat) (z : Z) : list Z :=
  match n with
  | O => []
  | S k => ((z >> (8 * Z.of_nat k)) .& 0xff) :: hexbytes k z
  end.

Definition asc2_1206 : list (list Z) := hexbytes 12 <$>
  [0x000000000000000000000000;
   0x000000003F40000000000000;
   0x000030004000300040000000;
   0x09000BC03D000BC03D000900;
   0x18C024407FE0224031800000;
   0x180024C01B000D8032400180;
   0x03801C4027401C8007400040;
   0x100060000000000000000000;
   0x0000000000001F8020404020;
   0x0000402020401F8000000000;
   0x090006001F80060009000000;
   0x040004003F80040004000000;
   0x001000600000000000000000;
   0x040004000400040004000000;
   0x000000400000000000000000;
   0x002001C00600380040000000;
   0x1F802040204020401F800000;
   0x000010403FC0004000000000;
   0x18C021402240244018400000;
   0x10802040244024401B800000;
   0x02000D0011003FC001400000;
   0x3C8024402440244023800000;
   0x1F8024402440344003800000;
   0x3000200027C0380020000000;
   0x1B802440244024401B800000;
   0x1C0022C0224022401F800000;
   0x000000000840000000000000;
   0x000000000460000000000000;
   0x000004000A00110020804040;
   0x090009000900090009000000;
   0x00004040208011000A000400;
   0x180020002340240018000000;
   0x1F802040274029401F400000;
   0x004007C039000F0001C00040;
   0x20403FC0244024401B800000;
   0x1F8020402040204030800000;
   0x20403FC0204020401F800000;
   0x20403FC024402E4030C00000;
   0x20403FC024402E0030000000;
   0x0F0010802040224033800200;
   0x20403FC0040004003FC02040;
   0x204020403FC0204020400000;
   0x0060202020203FC020002000;
   0x20403FC024400B0030C02040;
   0x20403FC020400040004000C0;
   0x3FC03C0003C03C003FC00000;
   0x20403FC00C4023003FC02000;
   0x1F802040204020401F800000;
   0x20403FC02440240018000000;
   0x1F802140214020E01FA00000;
   0x20403FC02440260019C00040;
   0x18C024402440224031800000;
   0x300020403FC0204030000000;
   0x20003F80004000403F802000;
   0x20003E0001C0070038002000;
   0x380007C03C0007C038000000;
   0x204039C0060039C020400000;
   0x2000384007C0384020000000;
   0x304021C02640384020C00000;
   0x000000007FE0402040200000;
   0x000070000C00038000400000;
   0x0000402040207FE000000000;
   0x000020004000200000000000;
   0x001000100010001000100010;
   0x000000004000000000000000;
   0x000002800540054003C00040;
   0x20003FC00440044003800000;
   0x000003800440044006400000;
   0x00000380044024403FC00040;
   0x000003800540054003400000;
   0x000004401FC0244024402000;
   0x000002E00550055006500420;
   0x20403FC00440040003C00040;
   0x0000044027C0004000000000;
   0x00100010041027E000000000;
   0x20403FC00140070004C00440;
   0x204020403FC0004000400000;
   0x07C0040007C0040003C00000;
   0x044007C00440040003C00040;
   0x000003800440044003800000;
   0x041007F00450044003800000;
   0x000003800440045007F00010;
   0x044007C00240040004000000;
   0x000006400540054004C00000;
   0x000004001F80044000400000;
   0x040007800040044007C00040;
   0x0400070004C0018006000400;
   0x060001C0070001C006000000;
   0x044006C0010006C004400000;
   0x0410071004E0018006000400;
   0x0000044005C0064004400000;
   0x0000000004007BE040200000;
   0x000000000000FFF000000000;
   0x000040207BE0040000000000;
   0x400080004000200020004000].

Definition asc2_1608 : list (list Z) := hexbytes 16 <$>
  [0x00000000000000000000000000000000;
   0x0000000000001FCC000C000000000000;
   0x00000800300060000800300060000000;
   0x022003FC1E20022003FC1E2002200000;
   0x00000E1811043FFF10840C7800000000;
   0x0F0010840F3800C00778188400780000;
   0x00780F8410C411240E9800E400840008;
   0x08006800700000000000000000000000;
   0x00000000000007E01818200440020000;
   0x000040022004181807E0000000000000;
   0x0240024001800FF00180024002400000;
   0x0080008000800FF80080008000800000;
   0x0001000D000E00000000000000000000;
   0x00000080008000800080008000800080;
   0x0000000C000C00000000000000000000;
   0x00000006001800600180060018002000;
   0x000007F0080810041004080807F00000;
   0x0000080408041FFC0004000400000000;
   0x00000E0C10141024104411840E0C0000;
   0x00000C1810041104110412880C700000;
   0x000000E00320042408241FFC00240000;
   0x00001F98108411041104108810700000;
   0x000007F0088811041104188800700000;
   0x00001C00100010FC13001C0010000000;
   0x00000E3811441084108411440E380000;
   0x00000700088C10441044088807F00000;
   0x000000000000030C030C000000000000;
   0x00000000000101060000000000000000;
   0x00000080014002200410080810040000;
   0x02200220022002200220022002200000;
   0x00001004080804100220014000800000;
   0x00000E001200100C106C10800F000000;
   0x03E00C1813E4142417C4082807D00000;
   0x0004003C03C41C40074000E4001C0004;
   0x10041FFC1104110411040E8800700000;
   0x03E00C1810041004100410081C100000;
   0x10041FFC100410041004080807F00000;
   0x10041FFC1104110417C4100408180000;
   0x10041FFC1104110017C0100008000000;
   0x03E00C181004100410441C7800400000;
   0x10041FFC10840080008010841FFC1004;
   0x0000100410041FFC1004100400000000;
   0x00030001100110011FFE100010000000;
   0x10041FFC110403801464181C10040000;
   0x10041FFC1004000400040004000C0000;
   0x10041FFC1F0000FC1F001FFC10040000;
   0x10041FFC0C04030000E010181FFC1000;
   0x07F00808100410041004080807F00000;
   0x10041FFC10841080108010800F000000;
   0x07F0081810241024101C080A07F20000;
   0x10041FFC1104110011C011300E0C0004;
   0x00000E1C11041084108410441C380000;
   0x1800100010041FFC1004100018000000;
   0x10001FF810040004000410041FF81000;
   0x10001E0011E0001C007013801C001000;
   0x1FC0103C00E01F0000E0103C1FC00000;
   0x1004180C163401C001C01634180C1004;
   0x10001C00130400FC13041C0010000000;
   0x0804101C1064108413041C0410180000;
   0x0000000000007FFE4002400240020000;
   0x000030000C0003800060001C00030000;
   0x00004002400240027FFE000000000000;
   0x00000000200040004000400020000000;
   0x00010001000100010001000100010001;
   0x00004000400020000000000000000000;
   0x00000098012401440144014400FC0004;
   0x10001FFC008801040104008800700000;
   0x00000070008801040104010400880000;
   0x0000007000880104010411081FFC0004;
   0x000000F8014401440144014400C80000;
   0x0000010401040FFC1104110411001800;
   0x000000D601290129012901C901060000;
   0x10041FFC008401000100010400FC0004;
   0x00000104190419FC0004000400000000;
   0x0000000300010101190119FE00000000;
   0x10041FFC0024004001B4010C01040000;
   0x0000100410041FFC0004000400000000;
   0x010401FC0104010001FC0104010000FC;
   0x010401FC008401000100010400FC0004;
   0x000000F8010401040104010400F80000;
   0x010101FF008501040104008800700000;
   0x00000070008801040104010501FF0001;
   0x0104010401FC00840104010001800000;
   0x000000CC012401240124012401980000;
   0x00000100010007F80104010400000000;
   0x010001F8000400040004010801FC0004;
   0x010001800170000C0010016001800100;
   0x01F0010C003001C00030010C01F00100;
   0x00000104018C00740170018C01040000;
   0x010101810171000E0018016001800100;
   0x00000184010C013401440184010C0000;
   0x000000000000000001003EFC40024002;
   0x0000000000000000FFFF000000000000;
   0x0000400240023EFC0100000000000000;
   0x00006000800080004000400020002000].

Definition asc2_2412 : list (list Z) := hexbytes 36 <$>
  [0x000000000000000000000000000000000000000000000000000000000000000000000000;
   0x0000000000000000000000000000000F80380FFE380F8038000000000000000000000000;
   0x0000000000000100000600000C00003800003100000600000C0000380000300000000000;
   0x0000000061800067F807F9800061800061800061800061800067F807F980006180000000;
   0x00000000000001C0E003E0F00630080418081FFFFE040E080787F00381E0000000000000;
   0x01F000060C00040408060C7001F9C0000E00003BE000EC18070808040C180003E0000000;
   0x0001E00007F003F818041C0804170807E1D003C0E00023B0003C08002008000010000000;
   0x0000000100003100003200001C0000000000000000000000000000000000000000000000;
   0x000000000000000000000000000000007F0001FFC00780F00C0018100004200002000000;
   0x0000002000021000040C00180780F001FFC0007F00000000000000000000000000000000;
   0x000000004200006600006600003C0000180003FFC0001800003C00006600006600004200;
   0x00000000080000080000080000080000080001FFC0000800000800000800000800000800;
   0x00000000000100003100003200001C000000000000000000000000000000000000000000;
   0x000000000800000800000800000800000800000800000800000800000800000800000000;
   0x000000000000000038000038000038000000000000000000000000000000000000000000;
   0x00000000000600001C000070000180000E0000380000C0000700001C0000300000000000;
   0x000000007F8001FFE003807006001804000804000806001803807001FFE0007F80000000;
   0x00000000000001000801000801000803FFF807FFF8000008000008000008000000000000;
   0x00000001C03802C058040098040118040218040418061C1803F81801E0F8000000000000;
   0x00000001C0E003C0F004000804080804080806180803F41801E7F00001E0000000000000;
   0x000000000300000D0000110000610000810803010807FFF80FFFF8000108000108000000;
   0x0000000000E007FCD0060808061008061008061008061838060FF00607C0000000000000;
   0x000000003F8001FFE0038430020818041008041008041008071810030FF00007C0000000;
   0x00000000000003C0000700000600000600F80607F806180006E000070000060000000000;
   0x00000001E1E003F7F0063410041808041808040C08040C0806161803F3F001C1E0000000;
   0x00000000F80003FC300306380402080402080402080404100308F001FFC0007F00000000;
   0x000000000000000000000000000000007038007038007038000000000000000000000000;
   0x00000000000000000000000000000000301A00301C000000000000000000000000000000;
   0x000000000000000800001400002200004100008080010040020020040010080008000000;
   0x000000002100002100002100002100002100002100002100002100002100002100000000;
   0x000000000000080008040010020020010040008080004100002200001400000800000000;
   0x00000003C00004C000040000080038080F380808380810000C300007E00003C000000000;
   0x000000003F8000FFE0038070020F1006708804C088048308047F8802C09003012000FE40;
   0x0000080000180001F8003E0801C20007020007E20000FE00001FC80001F8000038000008;
   0x04000807FFF807FFF804080804080804080804080806180803F41801E7F00001E0000000;
   0x000000003F8001FFE00380700200180400080400080400080400100600200780C0000000;
   0x04000807FFF807FFF804000804000804000804001802001003807001FFE0007F80000000;
   0x04000807FFF807FFF8040808040808040808040808043E08040008060018010060000000;
   0x04000807FFF807FFF8040808040800040800040800043E00060000060000018000000000;
   0x000000003F8001FFE00380700600180400080402080402080203F00783F0000200000200;
   0x04000807FFF807FFF804080800080000080000080000080004080807FFF807FFF8040008;
   0x00000000000004000804000804000807FFF807FFF8040008040008040008000000000000;
   0x00000000000600000700000104000104000104000307FFFE07FFFC040000040000040000;
   0x04000807FFF807FFF8040C08001800003E0004C7800503C80600F8040038040018000008;
   0x04000807FFF807FFF8040008000008000008000008000008000008000018000060000000;
   0x04000807FFF807800807FC00007FC00003F80007C000780007800807FFF807FFF8040008;
   0x04000807FFF807000803C00000E000003800001E000007000001C00400F007FFF8040000;
   0x000000007F8001FFE003807006001804000804000806001803003001FFE0007F80000000;
   0x04000807FFF807FFF8040408040400040400040400040400060C0003F80001F000000000;
   0x000000007F8001FFE00380700600880400880400C806003C03003E01FFE6007F84000000;
   0x04000807FFF807FFF8040808040800040C00040F00040BC00610F003F03801E008000008;
   0x00000001E0F803F030063010041808041808040C08040C080206180207F00781E0000000;
   0x01800006000004000004000004000807FFF807FFF8040008040000040000060000018000;
   0x04000007FFE007FFF004001800000800000800000800000800000804001007FFE0040000;
   0x04000006000007E00007FE00041FE00001F80000380001E0043E0007C000060000040000;
   0x04000007E00007FFC0041FF80007C007F80007FF80043FF80007C004F800070000040000;
   0x00000004000806001807C07805F1C8003E00001F800463E80780F8060018040008000000;
   0x04000006000007800007E008047C08001FF80007F800180804E008070000060000040000;
   0x0000000100080600380400F80403E8040F08047C0805F00807C008070018040060000000;
   0x0000000000000000000000000000003FFFFE200002200002200002200002200002000000;
   0x00000000000008000007000000C0000038000006000001C000003000000E000001000000;
   0x0000000000002000022000022000022000022000023FFFFE000000000000000000000000;
   0x000000000000000000080000100000300000200000300000100000080000000000000000;
   0x000001000001000001000001000001000001000001000001000001000001000001000001;
   0x000000000000000000200000200000100000100000000000000000000000000000000000;
   0x0000000000F00019F8001B18002208002608002408002410003FF8001FF8000008000018;
   0x00000004000007FFF80FFFF0001818001008002008002008003018001FF0000FC0000000;
   0x0000000007C0001FF0001830002008002008002008003C08001C10000060000000000000;
   0x0000000007C0001FF000381800200800200800200804101007FFF80FFFF0000010000000;
   0x0000000000000007C0001FF0001230002218002208002208003208001E10000E20000000;
   0x00000000200000200800200801FFF803FFF8062008042008042008072000030000000000;
   0x00000000000E000E6E001FF30031B10020B10020B1003191001F13002E1E00200E003000;
   0x00000004000807FFF80FFFF8001008002000002000002008003FF8001FF8000008000000;
   0x000000000000002008002008002008063FF8063FF8000008000008000008000000000000;
   0x000000000000000003000003002001002001002003063FFE063FFC000000000000000000;
   0x00000004000807FFF80FFFF8000188000300002FC00038F8002038002008000008000000;
   0x00000000000004000804000804000807FFF80FFFF8000008000008000008000000000000;
   0x002008003FF8003FF8001008002000003FF8003FF8001008002000003FF8003FF8000008;
   0x000000002008003FF8003FF8001008001000002000002008003FF8001FF8000008000000;
   0x0000000007C0000FF0001830003008002008002008003008001830000FF00007C0000000;
   0x000000002001003FFF003FFF001011002009002008002008003038001FF0000FC0000000;
   0x0000000007C0001FF0003818002008002008002009001011001FFF003FFF000001000000;
   0x002008002008002008003FF8003FF8000808001008002008002000003000003000000000;
   0x000000000000000C78001E180033080023080021080021880021980030F0003860000000;
   0x00000000200000200000200000FFF003FFF8002008002008002008000030000000000000;
   0x000000002000003FF0007FF8000018000008000008002010003FF8007FF0000010000000;
   0x000000002000003000003C00003F800023F0000078000070002380003C00003000002000;
   0x002000003C00003FE00023F80000E0002700003E00003FE00021F80001E0003E00002000;
   0x000000002008002008003838003E680027800003C8002CF8003838002018002008000000;
   0x000000002000003003003C01003F830023EC000070002380003C00002000002000000000;
   0x0000000000000038080020380020F80023E8002F88003E08003808002018000070000000;
   0x0000000000000000000000000000000008000014001FF7FC300006200002000000000000;
   0x000000000000000000000000000000000000FFFFFF000000000000000000000000000000;
   0x0000000000002000023000061FF7FC001400000800000000000000000000000000000000;
   0x0000001800006000004000004000002000001000000800000400000400000C0000100000].

Definition asc2_3216 : list (list Z) := (fun z => hexbytes 64 z ++ replicate 64 0) <$>
  [0x00000000000000000000000000000000000000000000000000000000000000000000000000000000000000000000000000000000000000000000000000000000;
   0x00000000000000000000000000000000000000000000000007F000C007FFE1E007F001E0000000C0000000000000000000000000000000000000000000000000;
   0x00000000000000000020000001C00000078000001F0000001E0000001C20000001C00000078000001F0000001E0000001C000000000000000000000000000000;
   0x0000000000180C0000180C0000180FE0001FFC0003F80C0000180C0000180C0000180C0000180C0000180FE0001FFC0003F80C0000180C0000180C0000000000;
   0x000000000000000000000780007807C000FC0640010E002003070020020380200FFFFFFC0201C0200200E0600130704001F03F8000F01F000000000000000000;
   0x00FE000001FF00000301800002008060030181C001FF070000FE18000000E0000003BF00000CFFC00071806001C10020030180600000FFC000003F0000000000;
   0x00001F0000007FC000FCC0C001FF80600303E0200202782002061E2003FC074001F00380000103C000011C600001E02000010020000100400000018000000000;
   0x00000000002000001C6000001C4000001F8000000F00000000000000000000000000000000000000000000000000000000000000000000000000000000000000;
   0x000000000000000000000000000000000000000000000000000000000007F800003FFF00007807C001C000E00300003004000008080000041000000200000000;
   0x000000001000000208000004040000080300003001C000E0007807C0003FFF000007F80000000000000000000000000000000000000000000000000000000000;
   0x0000000000000000000C1800000E3800000E380000063000000360000061438000FFFF80006143000003600000063000000E3800000E3800000C180000000000;
   0x0000000000000000000080000000800000008000000080000000800000008000007FFF0000008000000080000000800000008000000080000000800000000000;
   0x0000000000000001000000E3000000E2000000FC0000007800000000000000000000000000000000000000000000000000000000000000000000000000000000;
   0x00000000000080000000800000008000000080000000800000008000000080000000800000008000000080000000800000008000000080000000800000000000;
   0x0000000000000000000000C0000001E0000001E0000000C000000000000000000000000000000000000000000000000000000000000000000000000000000000;
   0x000000000000000C00000038000000E00000038000000E00000038000000E00000038000000E00000038000000E00000038000000E0000001800000000000000;
   0x0000000000000000000FF800007FFF0000F00780018000C00300006002000020020000200200002003000060018000C000E00380007FFF00000FF80000000000;
   0x0000000000000000000000000080002000800020008000200080006001FFFFE003FFFFE000000060000000200000002000000020000000000000000000000000;
   0x0000000000000000007800E000980160010002600200046002000860020010600200206002004060030080600183006001FE00E0007C07800000000000000000;
   0x000000000000000000F0078001F007C00100004002000020020100200201002002010020030380200186804001FCC0C000787F8000001E000000000000000000;
   0x000000000000080000003800000048000001880000060800000C0810003008100040081001FFFFF003FFFFF003FFFFF000000810000008100000081000000000;
   0x000000000000000000000780001F864003E10020030200200304002003040020030400200304002003060040030301C00301FF8003007E000000000000000000;
   0x00000000000000000007FC00003FFF000070C380008180C001010060030200200202002002020020020200200203004001C180C000C0FF8000007E0000000000;
   0x000000000000000000F0000003C000000380000003000000030007E003003FE00301C00003060000031800000360000003800000030000000000000000000000;
   0x0000000000001F0000783F8000FC60C0018EC040030780200203002002018020020180200201C0200301E040018670C000FC3F8000781F000000000000000000;
   0x00000000003F000000FF81C001C0C1C00100602002002020020020200200202002002060020040C00100C18000C18F00007FFE00001FF0000000000000000000;
   0x000000000000000000000000000000000000000000000000000300C0000781E0000781E0000300C0000000000000000000000000000000000000000000000000;
   0x00000000000000000000000000000000000000000000000000060066000600780000000000000000000000000000000000000000000000000000000000000000;
   0x0000000000000000000080000001C0000003600000063000000C180000180C00003006000060030000C001800100004002000020040000100000000000000000;
   0x00000000000410000004100000041000000410000004100000041000000410000004100000041000000410000004100000041000000410000004100000000000;
   0x000000000000000004000010020000200100004000C00180006003000030060000180C00000C180000063000000360000001C000000080000000000000000000;
   0x00000000000000000078000001F800000238000002000000040000C0040079E0040081E0040100C004030000020200000306000001FC000000F8000000000000;
   0x00000000000FF800003FFE000070078000C000C00101F8400307FC20021E04200230082002203020023FFC20013F044001800CC000E03180001FC20000000000;
   0x0000002000000060000003E000003E200003E020003E200003E020000380200007FC2000003FE0000003FE2000003FE0000001E0000000200000002000000000;
   0x00000000020000200200002003FFFFE003FFFFE00201002002010020020100200201002002010020030300200186806001FCC0C000F87F8000001F0000000000;
   0x000000000007F800003FFF000070078000C000C001000040030000200200002002000020020000200200002001000040018000C003C001800030060000000000;
   0x00000000020000200200002003FFFFE003FFFFE0020000200200002002000020020000200300006001000040018000C000F00780007FFE00000FF80000000000;
   0x00000000020000200200002003FFFFE003FFFFE0020100200201002002010020020100200201002002038020020FE0200300006003C000E00060030000000000;
   0x00000000020000200200002003FFFFE003FFFFE002010020020100200201000002010000020100000201000002038000030FE0000300000003C0000000600000;
   0x000000000007F800003FFE000070078001C001C00100004003000020020000200200002002000020010020200100204003C03F8000303F800000200000002000;
   0x020000200200002003FFFFE003FFFFE00200802002008020000080000000800000008000020080200200802003FFFFE003FFFFE0020000200200002000000000;
   0x0000000000000000000000000200002002000020020000200200002003FFFFE003FFFFE002000020020000200200002002000020000000000000000000000000;
   0x000000000000000E0000000F0000000F000000010200000102000001020000030200000603FFFFFC03FFFFF80200000002000000020000000200000000000000;
   0x00000000020000200200002003FFFFE003FFFFE00200C0200201002000078000000FE0000030F80002603E2003800F20030003E0020000E00200002000000020;
   0x00000000020000200200002003FFFFE003FFFFE00200002002000020000000200000002000000020000000200000002000000060000000E00000030000000000;
   0x020000200200002003FFFFE003E0002003FF0020001FF0000001FF8000000FE000001E000003E000003E002003E0002003FFFFE003FFFFE00200002002000020;
   0x020000200200002003FFFFE00380002003F0002000FC0000001F00000007C0000001F00000007C0002001F80020007E003FFFFE0020000000200000000000000;
   0x00000000000FF800003FFE0000F00780018000C0010000400200002002000020020000200200002001000040018000C000F00380003FFE00000FF80000000000;
   0x00000000020000200200002003FFFFE003FFFFE0020080200200802002008000020080000200800002008000030180000183000000FE0000007C000000000000;
   0x00000000000FF800007FFF0000F00380018001C001000640020004200200042002000620020003E0010000F80180005C00E0038C003FFF0C000FFC1800000000;
   0x00000000020000200200002003FFFFE003FFFFE00201002002010020020180000201E0000201FC0003033F80018607E001FC00E000F800200000002000000000;
   0x00000000000000000078060000FE01E0018600C0030300400203002002018020020180200201C0200200C0200100E060018070C003E03F8000001F0000000000;
   0x0000000000600000038000000300000002000000020000200200002003FFFFE003FFFFE0020000200200002002000000020000000380000000E0000000000000;
   0x020000000200000003FFFF0003FFFFC0020000400200006000000020000000200000002000000020020000400200008003FFFF00020000000200000000000000;
   0x00000000020000000200000003C0000003FC0000023FC0000003F80000007F80000007E000000780000078000203C000023C000003C000000200000002000000;
   0x0200000003C0000003FF8000023FFE0002007FE000000F000200F00003EF000003FF8000020FFE0000003FE000001F000207E00003F800000300000002000000;
   0x000000000200002002000020038000E003F0032002FC0C20021F30000007C0000007F00002187C0002601F20038003E0020000E0020000200000002000000000;
   0x00000000020000000300000003C0000003F80000023E0020020FC0200001FFE000007FE000038020021C00200270000003800000020000000200000000000000;
   0x0000000000000020006000E0038003E003000FA002003E200200F8200203E020020F8020023E00200278002003E00060038000E0020003000000000000000000;
   0x0000000000000000000000000000000000000000000000001FFFFFFC100000041000000410000004100000041000000410000004100000040000000000000000;
   0x0000000000000000000000000700000003C0000000780000001E00000003C0000000F00000001E0000000780000000F00000003C000000060000000000000000;
   0x0000000000000000100000041000000410000004100000041000000410000004100000041FFFFFFC000000000000000000000000000000000000000000000000;
   0x00000000000000000000000000000000020000000400000008000000180000001000000018000000180000000400000002000000000000000000000000000000;
   0x00000001000000010000000100000001000000010000000100000001000000010000000100000001000000010000000100000001000000010000000100000001;
   0x00000000000000000000000010000000100000001000000018000000080000000400000000000000000000000000000000000000000000000000000000000000;
   0x000000000000038000018FC000038C600006182000041020000410200004202000042040000620400003FFC00001FFE00000002000000020000000C000000000;
   0x00000000020000000200000003FFFFE007FFFFC0000180C0000200600002002000040020000400200004002000060040000300C00001FF800000FE0000000000;
   0x000000000000000000007E000001FF80000381C00002004000060020000400200004002000040020000600200003C0400001C080000003000000000000000000;
   0x000000000000000000007E000001FF80000380C000060060000400200004002000040020020400400202008003FFFFE007FFFFC0000000400000004000000000;
   0x000000000000000000007E000001FF80000311C0000210400004106000041020000410200004102000061020000310400001F0C0000071000000000000000000;
   0x000000000000000000040000000400200004002000040020007FFFE001FFFFE001040020030400200204002002040020020400000200000001C0000001C00000;
   0x00000000000000000000001C0000E33E0003FFC200020CC3000404C1000404C1000404C1000404C100060CC10003F8C30005F0620006007E0006003C00000000;
   0x00000000020000200200002003FFFFE007FFFFE0000100200002002000060000000400000004000000040020000600200003FFE00001FFE00000002000000020;
   0x000000000000000000000000000400200004002000040020000400200387FFE0038FFFE003800020000000200000002000000020000000000000000000000000;
   0x00000000000000000000000000000006000000070000000100000001000400010004000100040003000400060387FFFC038FFFF8038000000000000000000000;
   0x00000000020000200200002003FFFFE007FFFFE00000082000001020000030000000FC0000058E00000707A0000601E0000400E0000400200000002000000000;
   0x0000000000000000000000000200002002000020020000200200002003FFFFE007FFFFE000000020000000200000002000000020000000000000000000000000;
   0x00000000000400200007FFE0000FFFE00002002000040000000400200007FFE00003FFE00002002000040000000400200007FFE00003FFE00000002000000000;
   0x0000000000040020000400200007FFE0000FFFE0000100200002002000020000000400000004000000040020000600200003FFE00001FFE00000002000000020;
   0x000000000000000000007E000000FF80000381C000020040000600200004002000040020000400200006002000020040000381C00001FF8000007E0000000000;
   0x0000000000040001000400010007FFFF000FFFFF000100C1000200410004002000040020000400200004002000060040000301C00001FF8000007E0000000000;
   0x000000000000000000007E000001FF80000380C0000200600004002000040020000400200004002000020041000300C10003FFFF0007FFFF0000000100000001;
   0x0000000000040020000400200004002000040020000FFFE0000FFFE00000C0200001002000020020000600200004000000040000000700000003000000000000;
   0x0000000000000000000003E00001C0E00003E040000630200004302000041820000418200004182000040C2000020C60000307C0000783800000000000000000;
   0x0000000000000000000400000004000000040000000C0000001FFF8000FFFFC00004006000040020000400200004002000040040000001800000000000000000;
   0x0000000000040000000400000007FF80000FFFC0000000600000002000000020000000200000002000040040000400800007FFE0000FFFC00000004000000040;
   0x000000000004000000040000000780000007F0000004FE0000041FC0000003E00000038000001C00000460000007800000060000000400000000000000000000;
   0x00040000000600000007C0000007FC0000043F80000003E000040F800006F0000007F0000007FF8000040FE00000038000043C000007C0000006000000040000;
   0x00000000000000200004002000040060000700E0000783200007E6000004F80000003C0000045E20000587A0000601E000040060000400200000002000000000;
   0x000000000004000000040003000700030007E0010004F80100041F02000007FC000000E000000700000438000007C00000060000000400000004000000000000;
   0x000000000000000000078060000600E0000403E0000407A000040E2000043C20000470200005E0200007802000070060000400E0000003800000000000000000;
   0x0000000000000000000000000000000000000000000000000000000000008000000080000001400007FE3FF80800000410000002100000020000000000000000;
   0x0000000000000000000000000000000000000000000000000000000000000000FFFFFFFF00000000000000000000000000000000000000000000000000000000;
   0x000000000000000010000002100000020800000407FE3FF800014000000080000000800000000000000000000000000000000000000000000000000000000000;
   0x000000001800000030000000400000004000000040000000200000003000000008000000040000000200000002000000020000000C0000001800000000000000].
