(* ===== verification/LcdInit.v ===== *)
(** Initialisation of the LCD: what [lcd_init] of
    baremetal/20_pwm/bsp/lcd/lcd.c leaves, for every panel. *)
From S2P Require Import Prelude Machine FwLogic Regs Gpio Delay Frame Lcd.

(** The parameters of the panels [lcd_init] knows: height, width, vertical sync
    width, back and front porch, then the horizontal ones. *)
Definition panel_params (id : Z) : option (Z * Z * Z * Z * Z * Z * Z * Z) :=
  if id =? ATK4342 then Some (272, 481, 1, 8, 8, 1, 40, 5)
  else if id =? ATK4384 then Some (480, 800, 3, 32, 13, 48, 88, 40)
  else if id =? ATK7084 then Some (480, 800, 1, 23, 22, 1, 46, 210)
  else if id =? ATK7016 then Some (600, 1024, 3, 20, 12, 20, 140, 160)
  else if id =? ATK1018 then Some (800, 1280, 3, 10, 10, 10, 80, 70)
  else if id =? ATKVGA then Some (768, 1366, 3, 24, 3, 143, 213, 70)
  else None.

(** [tft_lcd] after the initialisation of the panel [id]. *)
Definition panel_lcd (id : Z) : tft_lcd_t :=
  with_display id 4 LCD_FRAMEBUF_ADDR LCD_WHITE LCD_WHITE
    match panel_params id with
    | Some (h, w, vs, vb, vf, hs, hb, hf) => with_geometry h w vs vb vf hs hb hf tft_lcd0
    | None => tft_lcd0
    end.

(** The frame the controller is programmed to scan out. *)
Definition scans `{Device} (l : tft_lcd_t) (t : trace) : Prop :=
  let r := regval t in
  Z.testbit (r LCDIF_CTRL) 0 = true /\ Z.testbit (r LCDIF_CTRL) 31 = false /\
  field (r LCDIF_TRANSFER_COUNT) 16 16 = lcd_height l /\
  field (r LCDIF_TRANSFER_COUNT) 0 16 = lcd_width l /\
  field (r LCDIF_VDCTRL0) 0 18 = lcd_vspw l /\
  r LCDIF_VDCTRL1 = lcd_height l + lcd_vspw l + lcd_vbp l + lcd_vfp l /\
  field (r LCDIF_VDCTRL2) 18 14 = lcd_hspw l /\
  field (r LCDIF_VDCTRL2) 0 18 = lcd_width l + lcd_hspw l + lcd_hbp l + lcd_hfp l /\
  field (r LCDIF_VDCTRL3) 16 12 = lcd_hbp l + lcd_hspw l /\
  field (r LCDIF_VDCTRL3) 0 16 = lcd_vbp l + lcd_vspw l /\
  field (r LCDIF_VDCTRL4) 0 18 = lcd_width l /\
  r LCDIF_CUR_BUF = lcd_buf l /\ r LCDIF_NEXT_BUF = lcd_buf l.

(** The values [lcd_read_panel_id] can return. *)
Definition panel_ids : list Z := [ATK4342; ATK4384; ATK7084; ATK7016; ATK1018; ATKVGA; ATKUNKNOWN].

Lemma panel_of_id k : panel_of k ∈ panel_ids.
Proof. unfold panel_of, panel_ids. repeat (destruct (_ =? _); [set_solver|]). set_solver. Qed.

Section Steps.
Context `{Device} (n : nat).

Lemma keeps_id_gpio jm jv : keeps n (lcd_panel_id_gpio_init jm jv).
Proof. unfold lcd_panel_id_gpio_init. keeps_tac. Qed.
Lemma keeps_gpio jm : keeps n (lcd_gpio_init jm).
Proof. unfold lcd_gpio_init. keeps_tac. Qed.
Lemma keeps_reset : keeps n lcd_reset.
Proof. unfold lcd_reset, set32. keeps_tac. Qed.
Lemma keeps_noreset : keeps n lcd_noreset.
Proof. unfold lcd_noreset, clr32. keeps_tac. Qed.
Lemma keeps_clk a b c : keeps n (lcd_clk_init a b c).
Proof. unfold lcd_clk_init, set32, clr32. keeps_tac. Qed.

(** The level of a pin of the third bank if it is read after [t]. *)
Definition pin3 (pin : Z) (t : trace) : Z := (u32 (dev_read t (GPIO_DR GPIO3)) >> pin) .& 1.

(** The board's identification pins are wired for the panel [id]. *)
Definition identifies (id : Z) : Prop := forall t0 t1 t2,
  panel_of (pin3 28 t0 .| (pin3 20 t1 << 1) .| (pin3 12 t2 << 2)) = id.

Lemma runs_panel_id s (Q : Z -> fw -> Prop) :
  (forall id t, id ∈ panel_ids -> (forall id', identifies id' -> id = id') -> Q id (Fw t (gl s))) ->
  runs lcd_read_panel_id n s Q.
Proof.
  intros HQ. unfold lcd_read_panel_id, pin_read. fw_steps. apply HQ; [apply panel_of_id|].
  intros id' Hid'. apply Hid'.
Qed.

(** Setting the parameters of a panel. *)
Lemma runs_geometry h w vs vb vf hs hb hf a b c s (Q : unit -> fw -> Prop) :
  g_tft_lcd (gl s) = tft_lcd0 ->
  (forall t, Q tt (Fw t (upd_tft_lcd (fun _ => with_geometry h w vs vb vf hs hb hf tft_lcd0) (gl s)))) ->
  runs (set_geometry h w vs vb vf hs hb hf ;; lcd_clk_init a b c) n s Q.
Proof.
  intros Hl HQ. unfold set_geometry. apply runs_bind, runs_modify.
  apply (keeps_runs _ _ _ _ (keeps_clk a b c)). intros [] t.
  specialize (HQ t). unfold upd_tft_lcd in *. cbn [gl g_tft_lcd]. by rewrite Hl.
Qed.

Lemma runs_set_panel id s (Q : unit -> fw -> Prop) :
  g_tft_lcd (gl s) = tft_lcd0 ->
  (forall t, Q tt (Fw t (upd_tft_lcd (fun _ =>
     match panel_params id with
     | Some (h, w, vs, vb, vf, hs, hb, hf) => with_geometry h w vs vb vf hs hb hf tft_lcd0
     | None => tft_lcd0
     end) (gl s)))) -> runs (lcd_set_panel id) n s Q.
Proof.
  intros Hl. unfold lcd_set_panel, panel_params.
  repeat (destruct (_ =? _); [by apply runs_geometry|]).
  intros HQ. apply runs_ret. specialize (HQ (tr s)). destruct s as [t g]. cbn [tr gl] in *.
  rewrite <- Hl in HQ. by destruct g.
Qed.
End Steps.
#[export] Hint Resolve keeps_id_gpio keeps_gpio keeps_reset keeps_noreset keeps_clk : keeps.

(** ** The controller *)
Section Controller.
Context `{Device} (n : nat).
Hypothesis Hlcdif : forall a, 0x21C8000 <= a <= 0x21C80B0 -> storage a.

Lemma clear_all v : fits 32 v -> v .\ 0xFFFFFFFF = 0.
Proof.
  intros Hv. change 0xFFFFFFFF with (Z.ones 32). rewrite Z.ldiff_ones_r by lia.
  rewrite Z.shiftr_div_pow2, Z.div_small by (done || lia). done.
Qed.

(** A register cleared and then set to [v]. *)
Lemma runs_assign a v {A} (k : M A) s (Q : A -> fw -> Prop) :
  0x21C8000 <= a <= 0x21C80B0 -> 0 <= v < 2 ^ 32 ->
  (forall t, regval t a = v -> (forall r, r <> a -> regval t r = regval (tr s) r) ->
     runs k n (Fw t (gl s)) Q) ->
  runs (clr32 a 0xFFFFFFFF ;; set32 a v ;; k) n s Q.
Proof.
  intros Ha Hv HQ. pose proof (Hlcdif a Ha) as Hs. fw_steps. rewrite !Hs, !u32_regval.
  apply HQ; cbn [tr].
  - rewrite !regval_wr_eq, clear_all by apply regval_fits.
    change (u32 (u32 0)) with 0. rewrite Z.lor_0_l, ?u32_u32. by apply u32_small.
  - intros r Hr. by rewrite !regval_wr_ne, !regval_rd, regval_wr_ne, regval_rd by done.
Qed.

(** A register of which some bits are cleared and some set. *)
Lemma runs_rmw a v w {A} (k : M A) s (Q : A -> fw -> Prop) :
  (forall t, (forall r, r <> a -> regval t r = regval (tr s) r) -> runs k n (Fw t (gl s)) Q) ->
  runs (clr32 a v ;; set32 a w ;; k) n s Q.
Proof.
  intros HQ. fw_steps. apply HQ. cbn [tr].
  intros r Hr. by rewrite !regval_wr_ne, !regval_rd, regval_wr_ne, regval_rd by done.
Qed.

(** The values programmed for the parameters [l]. *)
Definition lcdif_values (id : Z) (l : tft_lcd_t) : list (Z * Z) :=
  [ (LCDIF_CTRL, (1 << 19) .| (1 << 17) .| (3 << 10) .| (3 << 8) .| (1 << 5));
    (LCDIF_TRANSFER_COUNT, (lcd_height l << 16) .| (lcd_width l << 0));
    (LCDIF_VDCTRL0, if id =? ATKVGA
       then (1 << 28) .| (1 << 25) .| (1 << 21) .| (1 << 20) .| (lcd_vspw l << 0)
       else (1 << 28) .| (1 << 24) .| (1 << 21) .| (1 << 20) .| (lcd_vspw l << 0));
    (LCDIF_VDCTRL1, lcd_height l + lcd_vspw l + lcd_vfp l + lcd_vbp l);
    (LCDIF_VDCTRL2, (lcd_hspw l << 18) .| (lcd_width l + lcd_hspw l + lcd_hfp l + lcd_hbp l));
    (LCDIF_VDCTRL3, ((lcd_hbp l + lcd_hspw l) << 16) .| (lcd_vbp l + lcd_vspw l));
    (LCDIF_VDCTRL4, (1 << 18) .| lcd_width l);
    (LCDIF_CUR_BUF, lcd_buf l);
    (LCDIF_NEXT_BUF, lcd_buf l) ].

Lemma runs_controller id s (Q : unit -> fw -> Prop) :
  let l := g_tft_lcd (gl s) in
  Forall (fun p => 0 <= snd p < 2 ^ 32) (lcdif_values id l) ->
  (forall t, Forall (fun p => regval t (fst p) = snd p) (lcdif_values id l) -> Q tt (Fw t (gl s))) ->
  runs (lcd_controller_init id) n s Q.
Proof.
  intros l Hv HQ. unfold lcd_controller_init.
  assert ((if id =? ATKVGA
     then set32 LCDIF_VDCTRL0 ((1 << 28) .| (1 << 25) .| (1 << 21) .| (1 << 20) .| (lcd_vspw l << 0))
     else set32 LCDIF_VDCTRL0 ((1 << 28) .| (1 << 24) .| (1 << 21) .| (1 << 20) .| (lcd_vspw l << 0)))
    = set32 LCDIF_VDCTRL0 (if id =? ATKVGA
       then (1 << 28) .| (1 << 25) .| (1 << 21) .| (1 << 20) .| (lcd_vspw l << 0)
       else (1 << 28) .| (1 << 24) .| (1 << 21) .| (1 << 20) .| (lcd_vspw l << 0))) as Eif
    by by destruct (id =? ATKVGA).
  unfold lcdif_values in *. rewrite !list.Forall_cons in Hv. cbn [snd] in Hv.
  destruct Hv as (V1 & V2 & V3 & V4 & V5 & V6 & V7 & V8 & V9 & _).
  apply runs_assign; [unfold LCDIF_CTRL; lia|done|]. intros t1 R1 F1.
  apply runs_rmw. cbn [tr gl]. intros t1' F1'.
  apply runs_bind, runs_gets. cbn [gl]. fold l. rewrite Eif.
  apply runs_assign; [unfold LCDIF_TRANSFER_COUNT; lia|done|]. cbn [tr gl]. intros t2 R2 F2.
  apply runs_assign; [unfold LCDIF_VDCTRL0; lia|done|]. cbn [tr gl]. intros t3 R3 F3.
  apply runs_assign; [unfold LCDIF_VDCTRL1; lia|done|]. cbn [tr gl]. intros t4 R4 F4.
  apply runs_assign; [unfold LCDIF_VDCTRL2; lia|done|]. cbn [tr gl]. intros t5 R5 F5.
  apply runs_assign; [unfold LCDIF_VDCTRL3; lia|done|]. cbn [tr gl]. intros t6 R6 F6.
  apply runs_assign; [unfold LCDIF_VDCTRL4; lia|done|]. cbn [tr gl]. intros t7 R7 F7.
  fw_steps. apply HQ. rewrite !list.Forall_cons. cbn [fst snd].
  repeat split; [..|constructor];
    repeat first [ rewrite regval_wr_eq, u32_u32, u32_small by done
                 | rewrite regval_wr_ne by done ];
    repeat first [ done | rewrite F7 by done | rewrite F6 by done | rewrite F5 by done
                 | rewrite F4 by done | rewrite F3 by done | rewrite F2 by done
                 | rewrite F1' by done ].
Qed.
End Controller.

(** ** The whole initialisation *)

Lemma panel_ids_inv (P : Z -> Prop) :
  P ATK4342 -> P ATK4384 -> P ATK7084 -> P ATK7016 -> P ATK1018 -> P ATKVGA -> P ATKUNKNOWN ->
  forall id, id ∈ panel_ids -> P id.
Proof.
  intros H1 H2 H3 H4 H5 H6 H7 id Hid. unfold panel_ids in Hid.
  rewrite !list.elem_of_cons, elem_of_nil in Hid. by destruct_or! Hid; subst.
Qed.

(** Case analysis on the panel. *)
Ltac by_panel id Hid :=
  pattern id; match goal with |- ?P id => refine (panel_ids_inv P _ _ _ _ _ _ _ id Hid) end;
  cbv beta.

Lemma panel_lcd_ok id : id ∈ panel_ids -> id <> ATKUNKNOWN -> screen_ok (panel_lcd id).
Proof.
  intros Hid. by_panel id Hid; intros Hne; try done; unfold screen_ok; cbv; repeat split; discriminate.
Qed.

Lemma lcdif_values_fit id : id ∈ panel_ids ->
  Forall (fun p => 0 <= snd p < 2 ^ 32) (lcdif_values id (panel_lcd id)).
Proof.
  intros Hid.
  assert (forallb (fun p => (0 <=? snd p) && (snd p <? 2 ^ 32)) (lcdif_values id (panel_lcd id)) = true)
    as Hb by (by_panel id Hid; vm_compute; reflexivity).
  apply Forall_forall. intros p Hp. rewrite forallb_forall in Hb.
  specialize (Hb p Hp). lia.
Qed.

(** After the controller was started, the programmed values give the frame. *)
Lemma scans_values `{Device} id t t' :
  id ∈ panel_ids ->
  Forall (fun p => regval t (fst p) = snd p) (lcdif_values id (panel_lcd id)) ->
  (forall r, r <> LCDIF_CTRL -> regval t' r = regval t r) ->
  regval t' LCDIF_CTRL = regval t LCDIF_CTRL .| 1 ->
  scans (panel_lcd id) t'.
Proof.
  intros Hid Hv Hf Hc. unfold lcdif_values in Hv. rewrite !list.Forall_cons in Hv. cbn [fst snd] in Hv.
  destruct Hv as (V1 & V2 & V3 & V4 & V5 & V6 & V7 & V8 & V9 & _).
  unfold scans. rewrite Hc, !Hf, V1, V2, V3, V4, V5, V6, V7, V8, V9 by done.
  clear V1 V2 V3 V4 V5 V6 V7 V8 V9 Hf Hc.
  by_panel id Hid; vm_compute; repeat split; reflexivity.
Qed.

(** The screen is cleared: all white, or nothing to clear on an unknown panel. *)
Lemma runs_clear_panel `{Device} id n s (Q : unit -> fw -> Prop) :
  g_tft_lcd (gl s) = panel_lcd id -> id ∈ panel_ids -> 1049088 < Z.of_nat n ->
  (forall w, (forall x y, on_screen (panel_lcd id) x y ->
       pixel (upd_dram (fun _ => w) (gl s)) x y = LCD_WHITE) ->
     Q tt (Fw (tr s) (upd_dram (fun _ => w) (gl s)))) ->
  runs (lcd_clear LCD_WHITE) n s Q.
Proof.
  intros El Hid Hn HQ. destruct (Z.eq_dec id ATKUNKNOWN) as [->|Hne].
  - unfold lcd_clear. apply runs_bind, runs_gets. rewrite El.
    apply (runs_iter (fun j x s' => x = 0 /\ s' = s) Q _ n 0); [|done|lia].
    intros j x s' [-> ->]. apply runs_ret.
    assert (s = Fw (tr s) (upd_dram (fun _ => g_dram (gl s)) (gl s))) as -> by by destruct s as [t []].
    apply HQ. intros x y [Hx _]. change (lcd_width (panel_lcd ATKUNKNOWN)) with 0 in Hx. lia.
  - apply runs_lcd_clear; rewrite ?El; [by apply panel_lcd_ok|by vm_compute| |].
    { enough (lcd_width (panel_lcd id) * lcd_height (panel_lcd id) <= 1049088) by lia.
      clear El HQ Hne. by_panel id Hid; vm_compute; discriminate. }
    intros [t g] (Ht & [w Hg] & Hp & _). simpl in Ht, Hg. subst t g. rewrite El in Hp.
    apply HQ. exact Hp.
Qed.

(** The assignments to [tft_lcd] together. *)
Lemma panel_assigned id g :
  upd_tft_lcd (with_display id PIXEL_SIZE_ARGB8888 LCD_FRAMEBUF_ADDR LCD_WHITE LCD_WHITE)
    (upd_tft_lcd (fun _ =>
       match panel_params id with
       | Some (h, w, vs, vb, vf, hs, hb, hf) => with_geometry h w vs vb vf hs hb hf tft_lcd0
       | None => tft_lcd0
       end) g) = upd_tft_lcd (fun _ => panel_lcd id) g.
Proof. done. Qed.

Lemma runs_lcd_init `{Ticks} jm jv n s (Q : unit -> fw -> Prop) :
  (forall a, 0x21C8000 <= a <= 0x21C80B0 -> storage a) ->
  g_tft_lcd (gl s) = tft_lcd0 -> 1049088 < Z.of_nat n -> (2001 * S m + m < n)%nat ->
  (forall id t w, id ∈ panel_ids -> (forall id', identifies id' -> id = id') ->
     scans (panel_lcd id) t ->
     let g := upd_dram (fun _ => w) (upd_tft_lcd (fun _ => panel_lcd id) (gl s)) in
     (forall x y, on_screen (panel_lcd id) x y -> pixel g x y = LCD_WHITE) -> Q tt (Fw t g)) ->
  runs (lcd_init jm jv) n s Q.
Proof.
  intros Hst El Hn Hd HQ. unfold lcd_init.
  apply (runs_keeps _ _ _ _ _ (keeps_id_gpio _ jm jv)). intros _ t1.
  apply runs_bind, runs_panel_id. cbn [gl]. intros id t2 Hid Hid'.
  apply (runs_keeps _ _ _ _ _ (keeps_gpio _ jm)). cbn [gl]. intros _ t3.
  apply (runs_keeps _ _ _ _ _ (keeps_reset _)). cbn [gl]. intros _ t4.
  apply (runs_keeps _ _ _ _ _ (keeps_delay_ms 10 n ltac:(lia) Hd)). cbn [gl]. intros _ t5.
  apply (runs_keeps _ _ _ _ _ (keeps_noreset _)). cbn [gl]. intros _ t6.
  apply runs_bind, runs_set_panel; [done|]. cbn [gl]. intros t7. apply runs_bind, runs_modify.
  cbn [tr gl]. rewrite panel_assigned.
  apply runs_bind, (runs_controller n Hst); cbn [gl g_tft_lcd upd_tft_lcd]; [by apply lcdif_values_fit|].
  intros t8 Hv. apply runs_bind. unfold lcd_enable. fw_steps.
  pose proof (Hst LCDIF_CTRL ltac:(unfold LCDIF_CTRL; lia)) as Hc. rewrite Hc, u32_regval.
  apply runs_delay_ms; [lia|done|]. cbn [tr gl]. intros l Hl _.
  apply (runs_clear_panel id); [done|done|done|]. intros w Hw.
  apply (HQ id _ w); [done|done| |done]. cbn [tr].
  apply (scans_values id t8); [done|done| |].
  - intros r Hr. by rewrite regval_app_rd, regval_wr_ne, regval_rd by eauto with fwdb.
  - rewrite regval_app_rd, regval_wr_eq, u32_u32 by eauto with fwdb. apply u32_small.
    apply (lor_fits 32); [lia|apply regval_fits|unfold fits; lia].
Qed.


