(* ===== verification/LcdApi.v ===== *)
(** Drawing and text: baremetal/20_pwm/bsp/lcd/lcdapi.c.  Here are the
    definitions of the file and the theorems on lines and circles; those on text
    are in LcdText.v. *)
From S2P Require Import Prelude Machine FwLogic CMem Regs Gpio Delay Lcd Font.

(** ** Lines *)
Record line_state := LineState {
  ls_t : Z; ls_xerr : Z; ls_yerr : Z; ls_row : Z; ls_col : Z
}.

(** [delta > 0], [delta == 0], otherwise, on a [uint32_t]: the step and the
    increment the branch leaves. *)
Definition line_dir (delta : Z) : Z * Z :=
  if 0 <? delta then (1, delta)
  else if delta =? 0 then (0, delta)
  else (u32 (-1), u32 (- delta)).

(** One axis of the loop's body: the error and the coordinate. *)
Definition line_axis (distance delta inc err pos : Z) : Z * Z :=
  let err := u32 (err + delta) in
  if distance <? err then (u32 (err - distance), u32 (pos + inc)) else (err, pos).

Definition lcd_draw_line (x1 y1 x2 y2 : Z) : M unit :=
  let '(incx, delta_x) := line_dir (u32 (x2 - x1)) in
  let '(incy, delta_y) := line_dir (u32 (y2 - y1)) in
  let distance := if delta_y <? delta_x then delta_x else delta_y in
  iter (fun st =>
    if ls_t st <=? u32 (distance + 1) then
      l <- gets g_tft_lcd ;;
      lcd_draw_point (u16 (ls_row st)) (u16 (ls_col st)) (lcd_forecolor l) ;;
      let '(xerr, row) := line_axis distance delta_x incx (ls_xerr st) (ls_row st) in
      let '(yerr, col) := line_axis distance delta_y incy (ls_yerr st) (ls_col st) in
      ret (inl (LineState (u16 (ls_t st + 1)) xerr yerr row col))
    else ret (inr tt)) (LineState 0 0 0 x1 y1).

Definition lcd_draw_rectangle (x1 y1 x2 y2 : Z) : M unit :=
  lcd_draw_line x1 y1 x2 y1 ;;
  lcd_draw_line x1 y1 x1 y2 ;;
  lcd_draw_line x1 y2 x2 y2 ;;
  lcd_draw_line x2 y1 x2 y2.

(** ** Circles *)

(** Lines 79 to 87: the eight points of one step. *)
Definition circle_points (mx my x y : Z) : list (Z * Z) :=
  [ (x + mx, y + my); (y + mx, x + my); (- x + mx, y + my); (- y + mx, x + my);
    (- x + mx, - y + my); (- y + mx, - x + my); (x + mx, - y + my); (y + mx, - x + my) ].

Definition lcd_draw_circle (x0 y0 r : Z) : M unit :=
  iter (fun '(x, y, d) =>
    if x <? y then
      for_list (circle_points x0 y0 x y) (fun '(u, v) =>
        l <- gets g_tft_lcd ;; lcd_draw_point (u16 u) (u16 v) (lcd_forecolor l)) ;;
      if d <? 0 then ret (inl (x + 1, y, d + 2 * x + 3))
      else ret (inl (x + 1, y - 1, d + 2 * (x - y) + 5))
    else ret (inr tt)) (0, r, 1 - r).

(** ** Characters *)
Definition font_of (size : Z) : option (list (list Z)) :=
  if size =? 12 then Some asc2_1206
  else if size =? 16 then Some asc2_1608
  else if size =? 24 then Some asc2_2412
  else if size =? 32 then Some asc2_3216
  else None.

Definition char_size (size : Z) : Z :=
  u8 ((size / 8 + (if truthy (size mod 8) then 1 else 0)) * (size / 2)).

(** The loop of lines 119 to 139 over the bits of a byte.  [None]: the function
    returns; otherwise the position the next byte starts from. *)
Definition show_bits (y0 size mode temp x y : Z) : M (option (Z * Z)) :=
  iter (fun '(t1, temp, y) =>
    if t1 <? 8 then
      l <- gets g_tft_lcd ;;
      (if truthy (temp .& 0x80) then lcd_draw_point x y (lcd_forecolor l)
       else when mode =? 0 then lcd_draw_point x y (lcd_backcolor l)) ;;
      let temp := u8 (temp << 1) in
      let y := u16 (y + 1) in
      if lcd_height l <=? y then ret (inr None)
      else if y - y0 =? size then
        let x := u16 (x + 1) in
        if lcd_width l <=? x then ret (inr None) else ret (inr (Some (x, y0)))
      else ret (inl (t1 + 1, temp, y))
    else ret (inr (Some (x, y)))) (0, temp, y).

Definition lcd_show_char (x y num size mode : Z) : M unit :=
  let csize := char_size size in
  let num := u8 (num - 32) in
  iter (fun '(t, x, y') =>
    if t <? csize then
      match font_of size with
      | None => ret (inr tt)
      | Some font =>
          match font !! Z.to_nat num ≫= (fun glyph => glyph !! Z.to_nat t) with
          | None => undefined
          | Some temp =>
              r <- show_bits y size mode temp x y' ;;
              match r with
              | None => ret (inr tt)
              | Some (x, y') => ret (inl (t + 1, x, y'))
              end
          end
      end
    else ret (inr tt)) (0, x, y).

(** ** Numbers *)
Definition lcd_pow (m n : Z) : M Z :=
  iter (fun '(n, result) =>
    if truthy n then ret (inl (u8 (n - 1), u32 (result * m))) else ret (inr result)) (n, 1).

(** [(num / lcd_pow(10, len - t - 1)) % 10] *)
Definition digit_at (num len t : Z) : M Z :=
  p <- lcd_pow 10 (u8 (len - t - 1)) ;;
  if p =? 0 then undefined else ret ((num / p) mod 10).

Definition lcd_show_num (x y num len size : Z) : M unit :=
  iter (fun '(t, enshow) =>
    if t <? len then
      temp <- digit_at num len t ;;
      if (enshow =? 0) && (t <? len - 1) && (temp =? 0) then
        lcd_show_char (u16 (x + size / 2 * t)) y 32 size 0 ;; ret (inl (u8 (t + 1), enshow))
      else
        let enshow := if (enshow =? 0) && (t <? len - 1) then 1 else enshow in
        lcd_show_char (u16 (x + size / 2 * t)) y (u8 (temp + 48)) size 0 ;;
        ret (inl (u8 (t + 1), enshow))
    else ret (inr tt)) (0, 0).

Definition lcd_show_xnum (x y num len size mode : Z) : M unit :=
  iter (fun '(t, enshow) =>
    if t <? len then
      temp <- digit_at num len t ;;
      if (enshow =? 0) && (t <? len - 1) && (temp =? 0) then
        (if truthy (mode .& 0x80)
         then lcd_show_char (u16 (x + size / 2 * t)) y 48 size (mode .& 0x01)
         else lcd_show_char (u16 (x + size / 2 * t)) y 32 size (mode .& 0x01)) ;;
        ret (inl (u8 (t + 1), enshow))
      else
        let enshow := if (enshow =? 0) && (t <? len - 1) then 1 else enshow in
        lcd_show_char (u16 (x + size / 2 * t)) y (u8 (temp + 48)) size (mode .& 0x01) ;;
        ret (inl (u8 (t + 1), enshow))
    else ret (inr tt)) (0, 0).

(** ** Strings *)
Definition lcd_show_string (x y width height size p : Z) : M unit :=
  let x0 := u8 x in
  let width := u16 (width + x) in
  let height := u16 (height + y) in
  iter (fun '(x, y, p) =>
    c <- ld8 p ;;
    if (c <=? 126) && (32 <=? c) then
      let '(x, y) := if width <=? x then (x0, u16 (y + size)) else (x, y) in
      if height <=? y then ret (inr tt)
      else
        lcd_show_char x y c size 0 ;;
        ret (inl (u16 (x + size / 2), y, p + 1))
    else ret (inr tt)) (x, y, p).

(** ** Circles are exact *)

(** The points at integer distance [(dx, dy)] from the centre that belong to the
    circle: with [a <= b] the two distances, [b] is the integer nearest to the
    ordinate of the circle at [a]. *)
Definition on_circle (r dx dy : Z) : bool :=
  let a := Z.min (Z.abs dx) (Z.abs dy) in
  let b := Z.max (Z.abs dx) (Z.abs dy) in
  (a <? b) && (b * (b - 1) <? r * r - a * a) && (r * r - a * a <=? b * (b + 1)).

(** Those of them whose smaller distance is below [x]. *)
Definition ring (x0 y0 r c x : Z) (u v : Z) : option Z :=
  if on_circle r (u - x0) (v - y0) && (Z.min (Z.abs (u - x0)) (Z.abs (v - y0)) <? x)
  then Some c else None.

(** [y] is the ordinate nearest to the circle at [x]. *)
Definition nearest (r x y : Z) : Prop := y * (y - 1) < r * r - x * x <= y * (y + 1).

Lemma nearest_unique r x y y' : 0 < y -> 0 < y' -> nearest r x y -> nearest r x y' -> y = y'.
Proof. unfold nearest. intros. nia. Qed.

(** The eight points of a step are those whose distances to the centre are [x]
    and [y]. *)
Ltac pick_case := first [ left; split; lia | right; pick_case ].

Lemma octants_distance x0 y0 x y u v : 0 <= x < y ->
  existsb (fun p => (u =? fst p) && (v =? snd p)) (circle_points x0 y0 x y) =
  (Z.min (Z.abs (u - x0)) (Z.abs (v - y0)) =? x) && (Z.max (Z.abs (u - x0)) (Z.abs (v - y0)) =? y).
Proof.
  intros Hxy. apply Bool.eq_iff_eq_true. unfold circle_points. cbn [existsb fst snd].
  rewrite !orb_true_iff, !andb_true_iff, !Z.eqb_eq. split.
  - intros H. destruct_or! H; try done; destruct H as [-> ->]; split; lia.
  - intros [Hmin Hmax].
    assert (Z.abs (u - x0) = x /\ Z.abs (v - y0) = y \/ Z.abs (u - x0) = y /\ Z.abs (v - y0) = x)
      as [[H1 H2]|[H1 H2]] by lia; clear Hmin Hmax;
      destruct (Z.abs_spec (u - x0)) as [[_ E1]|[_ E1]], (Z.abs_spec (v - y0)) as [[_ E2]|[_ E2]];
      rewrite E1 in H1; rewrite E2 in H2; clear E1 E2; pick_case.
Qed.

(** The points of the circle at [x] are those of one step. *)
Lemma octants x0 y0 r c x y u v : 0 <= x < y -> nearest r x y ->
  ring x0 y0 r c (x + 1) u v =
  if existsb (fun p => (u =? fst p) && (v =? snd p)) (circle_points x0 y0 x y)
  then Some c else ring x0 y0 r c x u v.
Proof.
  intros Hxy Hn. rewrite octants_distance by done. unfold ring.
  set (a := Z.min (Z.abs (u - x0)) (Z.abs (v - y0))). set (b := Z.max (Z.abs (u - x0)) (Z.abs (v - y0))).
  unfold on_circle. fold a b. unfold nearest in Hn.
  destruct (Z.eqb_spec a x) as [->|Hne].
  - destruct (Z.eqb_spec b y) as [->|Hne]; cbn [andb].
    + destruct (Z.ltb_spec x y), (Z.ltb_spec (y * (y - 1)) (r * r - x * x)),
        (Z.leb_spec (r * r - x * x) (y * (y + 1))), (Z.ltb_spec x (x + 1)); try lia. done.
    + destruct (Z.ltb_spec x x); [lia|]. rewrite andb_false_r.
      destruct (Z.ltb_spec x b), (Z.ltb_spec (b * (b - 1)) (r * r - x * x)),
        (Z.leb_spec (r * r - x * x) (b * (b + 1))); cbn [andb]; try done.
      exfalso. apply Hne. apply (nearest_unique r x); unfold nearest; lia.
  - cbn [andb]. destruct (Z.ltb_spec a x), (Z.ltb_spec a (x + 1)); try lia; by rewrite ?andb_false_r.
Qed.

Section Drawing.
Context `{Device}.

(** A list of points of the screen drawn in the foreground colour. *)
Lemma runs_draw_list s0 f pts c n : forall s (Q : unit -> fw -> Prop),
  let l := g_tft_lcd (gl s0) in
  screen_ok l -> lcd_forecolor l = c -> 0 <= c < 2 ^ 32 -> paints s0 s f ->
  Forall (fun p => on_screen l (fst p) (snd p)) pts ->
  (forall s', paints s0 s' (fun u v =>
     if existsb (fun p => (u =? fst p) && (v =? snd p)) pts then Some c else f u v) -> Q tt s') ->
  runs (for_list pts (fun '(u, v) =>
    l <- gets g_tft_lcd ;; lcd_draw_point (u16 u) (u16 v) (lcd_forecolor l))) n s Q.
Proof.
  revert f. induction pts as [|[u v] pts IH]; intros f s Q l Hl Hf Hc Hp Hon HQ; cbn [for_list].
  - apply runs_ret. by apply HQ.
  - inversion Hon as [|? ? Huv Hon']; subst. cbn [fst snd] in Huv. fold l in Huv.
    pose proof Hl as (_ & Hw & Hh & _). pose proof Huv as [Hu Hv].
    pose proof (paints_lcd _ _ _ Hp) as El. fold l in El.
    apply runs_bind, runs_bind, runs_gets. rewrite El, !u16_small by lia.
    apply (runs_draw_over s0 f); [done|done|done|done|]. intros s' Hs'.
    apply (IH _ s' Q Hl eq_refl Hc Hs' Hon'). intros s'' Hs''. apply HQ.
    eapply paints_ext; [|exact Hs'']. intros a b _. cbn [existsb fst snd]. unfold over, dot.
    fold l. by destruct ((a =? u) && (b =? v)), (existsb _ pts).
Qed.

(** *** The circle *)
Definition circle_inv (r x y d : Z) : Prop :=
  0 <= x <= y + 1 /\ y <= r /\ d = (x + 1) * (x + 1) + y * y - y - r * r /\
  r * r - x * x <= y * (y + 1) /\ (x < y -> nearest r x y).

Lemma circle_step_in r x y d : circle_inv r x y d -> x < y -> d < 0 ->
  circle_inv r (x + 1) y (d + 2 * x + 3).
Proof. unfold circle_inv, nearest. intros (H1 & H2 & -> & H4 & H5) Hx Hd. specialize (H5 Hx). nia. Qed.

Lemma circle_step_out r x y d : circle_inv r x y d -> x < y -> 0 <= d ->
  circle_inv r (x + 1) (y - 1) (d + 2 * (x - y) + 5).
Proof. unfold circle_inv, nearest. intros (H1 & H2 & -> & H4 & H5) Hx Hd. specialize (H5 Hx). nia. Qed.

(** When the loop ends, nothing of the circle is left. *)
Lemma circle_complete r x y d dx dy : circle_inv r x y d -> y <= x ->
  on_circle r dx dy = true -> Z.min (Z.abs dx) (Z.abs dy) < x.
Proof.
  unfold circle_inv, on_circle. intros (H1 & H2 & -> & H4 & _) Hx Hc.
  rewrite !andb_true_iff, Z.ltb_lt, Z.ltb_lt, Z.leb_le in Hc.
  set (a := Z.min _ _) in *. set (b := Z.max _ _) in *. assert (0 <= a) by lia. clearbody a b.
  destruct Hc as [[Hab Hb1] Hb2]. destruct (Z.lt_ge_cases a x) as [|Hge]; [done|exfalso].
  assert (b * (b - 1) >= x * (x + 1)) by nia. nia.
Qed.

Lemma runs_circle x0 y0 r c n s (Q : unit -> fw -> Prop) :
  let l := g_tft_lcd (gl s) in
  screen_ok l -> lcd_forecolor l = c -> 0 <= c < 2 ^ 32 -> 0 < r < 256 ->
  r <= x0 -> x0 + r < lcd_width l -> r <= y0 -> y0 + r < lcd_height l -> (256 < n)%nat ->
  (forall s', paints s s' (fun u v => if on_circle r (u - x0) (v - y0) then Some c else None) -> Q tt s') ->
  runs (lcd_draw_circle x0 y0 r) n s Q.
Proof.
  intros l Hl Hf Hc Hr Hx0 Hx0' Hy0 Hy0' Hn HQ. unfold lcd_draw_circle.
  apply (runs_iter (fun j st s' => exists x y d, st = (x, y, d) /\ circle_inv r x y d /\
    j = Z.to_nat (r - x) /\ paints s s' (ring x0 y0 r c x)) Q _ n (Z.to_nat (r - 0))); [| |lia].
  2: { exists 0, r, (1 - r). split; [done|]. split; [unfold circle_inv, nearest; nia|]. split; [done|].
       eapply paints_ext; [|apply paints_refl]. intros u v _. unfold ring.
       destruct (Z.ltb_spec (Z.min (Z.abs (u - x0)) (Z.abs (v - y0))) 0); [lia|]. by rewrite andb_false_r. }
  intros j st s' (x & y & d & -> & Hinv & -> & Hp). destruct (Z.ltb_spec x y) as [Hlt|Hge].
  - pose proof Hinv as (H1 & H2 & _ & _ & Hnear). specialize (Hnear Hlt).
    apply runs_bind, (runs_draw_list s (ring x0 y0 r c x) _ c); [done|done|done|done| |].
    { fold l. unfold circle_points, on_screen. repeat constructor; cbn [fst snd]; lia. }
    intros s'' Hs''.
    assert (paints s s'' (ring x0 y0 r c (x + 1))) as Hp'
      by (eapply paints_ext; [|exact Hs'']; intros u v _; cbv beta; by rewrite (octants x0 y0 r c x y u v) by (done || lia)).
    destruct (Z.ltb_spec d 0); apply runs_ret; (exists (Z.to_nat (r - (x + 1))); split; [lia|]).
    + exists (x + 1), y, (d + 2 * x + 3). split; [done|]. split; [by apply circle_step_in|done].
    + exists (x + 1), (y - 1), (d + 2 * (x - y) + 5). split; [done|]. split; [by apply circle_step_out|done].
  - apply runs_ret. apply HQ. eapply paints_ext; [|exact Hp]. intros u v _. unfold ring.
    destruct (on_circle r (u - x0) (v - y0)) eqn:E; [|done].
    pose proof (circle_complete r x y d _ _ Hinv Hge E) as Hm. cbn [andb].
    destruct (Z.ltb_spec (Z.min (Z.abs (u - x0)) (Z.abs (v - y0))) x); [done|lia].
Qed.
End Drawing.

(** ** Lines that go right and down are exact *)

(** Along the axis with the larger extent [D], [d] being the other one: one point
    for every [a] of the axis, its other coordinate [b] less than one point away
    from the ideal line. *)
Definition on_major (D d a b : Z) : bool :=
  (0 <=? a) && (a <=? D) &&
  (if d =? 0 then b =? 0 else (D * b <? (a + 1) * d) && ((a + 1) * d <=? D * (b + 1))).
Definition on_line (dx dy a b : Z) : bool :=
  if dy <=? dx then on_major dx dy a b else on_major dy dx b a.

(** The advance along an axis before round [t] of the loop. *)
Definition advance (D d t : Z) : Z := if d =? 0 then 0 else Z.max 0 ((t * d - 1) / D).

Lemma advance_range D d t : 0 <= d <= D -> 0 <= t <= D + 1 -> 0 <= advance D d t <= d.
Proof.
  intros Hd Ht. unfold advance. destruct (Z.eqb_spec d 0) as [->|]; [lia|]. split; [lia|].
  apply Z.max_lub; [lia|]. apply Z.lt_succ_r. apply Z.div_lt_upper_bound; [lia|]. nia.
Qed.

Lemma advance_err D d t : 0 <= d <= D -> 0 <= t -> 0 <= t * d - D * advance D d t <= D.
Proof.
  intros Hd Ht. unfold advance. destruct (Z.eqb_spec d 0) as [->|]; [lia|].
  pose proof (Z.div_mod (t * d - 1) D ltac:(lia)). pose proof (Z.mod_pos_bound (t * d - 1) D ltac:(lia)).
  destruct (Z.eq_dec t 0) as [->|]; [|assert (0 <= t * d - 1) by nia].
  - rewrite Z.max_l; [lia|]. apply Z.lt_le_incl, Z.div_lt_upper_bound; lia.
  - rewrite Z.max_r by (apply Z.div_pos; lia). lia.
Qed.

Lemma advance_0 D d : 0 <= D -> advance D d 0 = 0.
Proof.
  intros HD. unfold advance. destruct (Z.eqb_spec d 0); [done|]. apply Z.max_l.
  destruct (Z.eq_dec D 0) as [->|]; [by rewrite Z.div_0_r|].
  apply Z.lt_le_incl, Z.div_lt_upper_bound; lia.
Qed.

(** A round of the loop on one axis. *)
Lemma line_axis_step D d t pos : 0 <= d <= D -> D < 2 ^ 16 -> 0 <= t <= D + 1 -> 0 <= pos < 2 ^ 16 ->
  line_axis D d (if 0 <? d then 1 else 0) (t * d - D * advance D d t) (pos + advance D d t) =
  ((t + 1) * d - D * advance D d (t + 1), pos + advance D d (t + 1)).
Proof.
  intros Hd HD Ht Hpos. pose proof (advance_range D d t Hd Ht) as Hr.
  pose proof (advance_err D d t Hd ltac:(lia)) as He.
  pose proof (advance_err D d (t + 1) Hd ltac:(lia)) as He'.
  unfold line_axis. cbv zeta. rewrite (u32_small (_ + d)) by lia.
  destruct (Z.eq_dec d 0) as [->|Hd0].
  { unfold advance in *. change (0 =? 0) with true in *. cbv iota in *.
    destruct (Z.ltb_spec D (t * 0 - D * 0 + 0)); [lia|]. f_equal; lia. }
  assert (t = 0 \/ 1 <= t * d - D * advance D d t) as Hpos'.
  { unfold advance. destruct (Z.eqb_spec d 0); [lia|]. destruct (Z.eq_dec t 0); [by left|right].
    pose proof (Z.div_mod (t * d - 1) D ltac:(lia)). pose proof (Z.mod_pos_bound (t * d - 1) D ltac:(lia)).
    rewrite Z.max_r by (apply Z.div_pos; nia). lia. }
  assert (1 <= (t + 1) * d - D * advance D d (t + 1)) as Hnext.
  { unfold advance. destruct (Z.eqb_spec d 0); [lia|].
    pose proof (Z.div_mod ((t + 1) * d - 1) D ltac:(lia)).
    pose proof (Z.mod_pos_bound ((t + 1) * d - 1) D ltac:(lia)).
    rewrite Z.max_r by (apply Z.div_pos; nia). lia. }
  destruct (Z.ltb_spec 0 d); [|lia].
  set (A := advance D d t) in *. set (A' := advance D d (t + 1)) in *.
  assert (D * (A' - A) = d + (t * d - D * A) - ((t + 1) * d - D * A')) as Hfac by ring.
  destruct (Z.ltb_spec D (t * d - D * A + d)).
  - assert (0 < D * (A' - A) < D * 2) as HA by lia.
    assert (A' = A + 1) as -> by nia. rewrite !u32_small by lia. f_equal; lia.
  - assert (- D < D * (A' - A) < D) as HA by (destruct Hpos'; [subst t|]; lia).
    assert (A' = A) as -> by nia. f_equal; lia.
Qed.

(** The points of the major axis reached before round [t]. *)
Definition reach (t : Z) : Z := if t =? 0 then 0 else Z.max 1 (t - 1).

Lemma advance_major D t : 0 <= D -> 0 <= t <= D + 1 -> advance D D t = Z.max 0 (t - 1) \/ D = 0.
Proof.
  intros HD Ht. unfold advance. destruct (Z.eqb_spec D 0) as [|Hne]; [by right|left].
  destruct (Z.eq_dec t 0) as [->|].
  - rewrite Z.max_l; [lia|]. apply Z.lt_le_incl, Z.div_lt_upper_bound; lia.
  - replace (t * D - 1) with ((D - 1) + (t - 1) * D) by ring.
    rewrite Z.div_add, Z.div_small by lia. lia.
Qed.

Lemma on_major_range D d a b : on_major D d a b = true -> 0 <= a <= D.
Proof. unfold on_major. rewrite !andb_true_iff, !Z.leb_le. lia. Qed.

Lemma on_major_next D d t a b : 0 <= d <= D -> 0 <= t <= D + 1 ->
  on_major D d a b && (a <? reach (t + 1)) =
  ((a =? advance D D t) && (b =? advance D d t)) || (on_major D d a b && (a <? reach t)).
Proof.
  intros Hd Ht. apply Bool.eq_iff_eq_true.
  rewrite orb_true_iff, !andb_true_iff, !Z.ltb_lt, !Z.eqb_eq.
  assert (advance D D t = Z.max 0 (t - 1)) as ->
    by (destruct (advance_major D t ltac:(lia) Ht) as [|HD]; [done|unfold advance; subst D; simpl; lia]).
  assert (on_major D d (Z.max 0 (t - 1)) b = true <-> b = advance D d t) as Hpt.
  { unfold on_major. rewrite !andb_true_iff, !Z.leb_le. unfold advance.
    destruct (Z.eqb_spec d 0) as [->|]; [rewrite Z.eqb_eq; lia|].
    rewrite andb_true_iff, Z.ltb_lt, Z.leb_le. destruct (Z.eq_dec t 0) as [->|].
    - rewrite (Z.max_l 0 ((0 * d - 1) / D)) by (apply Z.lt_le_incl, Z.div_lt_upper_bound; lia). nia.
    - pose proof (Z.div_mod (t * d - 1) D ltac:(lia)) as Hm. pose proof (Z.mod_pos_bound (t * d - 1) D ltac:(lia)).
      rewrite (Z.max_r 0 ((t * d - 1) / D)) by (apply Z.div_pos; nia).
      replace (Z.max 0 (t - 1) + 1) with t by lia. set (q := (t * d - 1) / D) in *. clearbody q. nia. }
  unfold reach. destruct (Z.eqb_spec (t + 1) 0), (Z.eqb_spec t 0); try lia; split.
  - intros [Ho Ha]. left. assert (a = Z.max 0 (t - 1)) as -> by (apply on_major_range in Ho; lia).
    split; [done|]. by apply Hpt.
  - intros [[-> Hb]|[Ho Ha]]; [|apply on_major_range in Ho; lia]. split; [by apply Hpt|lia].
  - intros [Ho Ha]. destruct (Z.eq_dec a (Z.max 0 (t - 1))) as [->|]; [left; split; [done|by apply Hpt]|right].
    split; [done|lia].
  - intros [[-> Hb]|[Ho Ha]]; [split; [by apply Hpt|lia]|split; [done|lia]].
Qed.

Section Lines.
Context `{Device}.

(** What the loop has drawn before round [t]. *)
Definition stroke (x1 y1 dx dy c t : Z) (u v : Z) : option Z :=
  if (if dy <=? dx then on_major dx dy (u - x1) (v - y1) && (u - x1 <? reach t)
      else on_major dy dx (v - y1) (u - x1) && (v - y1 <? reach t))
  then Some c else None.

Lemma stroke_next x1 y1 dx dy c t u v :
  let D := Z.max dx dy in
  0 <= dx -> 0 <= dy -> 0 <= t <= D + 1 ->
  stroke x1 y1 dx dy c (t + 1) u v =
  over (dot (x1 + advance D dx t) (y1 + advance D dy t) c) (stroke x1 y1 dx dy c t) u v.
Proof.
  intros D Hdx Hdy Ht. unfold stroke, over, dot.
  assert (forall z b a, (z =? b + a) = (z - b =? a)) as Hsh by (intros; bcase; lia || done).
  rewrite !Hsh. destruct (Z.leb_spec dy dx).
  - assert (D = dx) as -> by lia. rewrite on_major_next by lia. by destruct ((_ =? _) && _).
  - assert (D = dy) as -> by lia. rewrite on_major_next by lia.
    rewrite (andb_comm (v - y1 =? _)). by destruct ((_ =? _) && _).
Qed.

Lemma line_dir_pos d : 0 <= d < 2 ^ 31 -> line_dir d = (if 0 <? d then 1 else 0, d).
Proof.
  intros Hd. unfold line_dir. destruct (Z.ltb_spec 0 d); [done|].
  destruct (Z.eqb_spec d 0); [done|lia].
Qed.

Lemma runs_line x1 y1 x2 y2 c n s (Q : unit -> fw -> Prop) :
  let l := g_tft_lcd (gl s) in
  screen_ok l -> lcd_forecolor l = c -> 0 <= c < 2 ^ 32 ->
  0 <= x1 <= x2 -> x2 < lcd_width l -> 0 <= y1 <= y2 -> y2 < lcd_height l -> (2050 < n)%nat ->
  (forall s', paints s s' (fun u v =>
     if on_line (x2 - x1) (y2 - y1) (u - x1) (v - y1) then Some c else None) -> Q tt s') ->
  runs (lcd_draw_line x1 y1 x2 y2) n s Q.
Proof.
  intros l Hl Hf Hc Hx Hx2 Hy Hy2 Hn HQ. pose proof Hl as (_ & Hw & Hh & _). unfold lcd_draw_line.
  set (dx := x2 - x1) in *. set (dy := y2 - y1) in *. set (D := Z.max dx dy).
  rewrite !u32_small, !line_dir_pos by lia.
  replace (if dy <? dx then dx else dy) with D by (destruct (Z.ltb_spec dy dx); lia).
  rewrite (u32_small (D + 1)) by lia.
  apply (runs_iter (fun j st s' => exists t, st = LineState t (t * dx - D * advance D dx t)
      (t * dy - D * advance D dy t) (x1 + advance D dx t) (y1 + advance D dy t) /\
    0 <= t <= D + 2 /\ j = Z.to_nat (D + 2 - t) /\ paints s s' (stroke x1 y1 dx dy c t))
    Q _ n (Z.to_nat (D + 2 - 0))); [| |lia].
  2: { exists 0. rewrite !advance_0 by lia. rewrite !Z.mul_0_l, !Z.mul_0_r, !Z.add_0_r. split; [done|]. split; [lia|].
       split; [done|]. eapply paints_ext; [|apply paints_refl]. intros u v _. unfold stroke, reach. simpl.
       destruct (dy <=? dx), (on_major _ _ _ _) eqn:E; try done; cbn [andb];
         apply on_major_range in E; bcase; done. }
  intros j st s' (t & -> & Ht & -> & Hp). cbn [ls_t ls_xerr ls_yerr ls_row ls_col].
  destruct (Z.leb_spec t (D + 1)).
  - pose proof (advance_range D dx t ltac:(lia) ltac:(lia)).
    pose proof (advance_range D dy t ltac:(lia) ltac:(lia)).
    pose proof (paints_lcd _ _ _ Hp) as El. fold l in El.
    apply runs_bind, runs_gets. rewrite El, Hf, !(u16_small (_ + advance _ _ _)) by lia.
    apply runs_bind, (runs_draw_over s (stroke x1 y1 dx dy c t)); [done|done|fold l; split; lia|done|].
    intros s'' Hs''. rewrite !line_axis_step, u16_small by lia. apply runs_ret.
    exists (Z.to_nat (D + 2 - (t + 1))). split; [lia|]. exists (t + 1). split; [done|]. split; [lia|].
    split; [done|]. eapply paints_ext; [|exact Hs'']. intros u v _. symmetry. apply stroke_next; lia.
  - apply runs_ret. apply HQ. eapply paints_ext; [|exact Hp]. intros u v _. unfold stroke, on_line, reach.
    destruct (Z.eqb_spec t 0); [lia|].
    destruct (Z.leb_spec dy dx), (on_major _ _ _ _) eqn:E; try done; cbn [andb];
      apply on_major_range in E; bcase; done.
Qed.
End Lines.

(** ** A line to the left never ends *)

(** A point anywhere in the range of its arguments can be drawn. *)
Lemma runs_draw_any x y c n s (Q : unit -> fw -> Prop) :
  screen_ok (g_tft_lcd (gl s)) -> 0 <= x < 2 ^ 16 -> 0 <= y < 2 ^ 16 ->
  (forall s', g_tft_lcd (gl s') = g_tft_lcd (gl s) -> Q tt s') -> runs (lcd_draw_point x y c) n s Q.
Proof.
  intros (Hp & Hw & Hh & _) Hx Hy HQ. unfold lcd_draw_point. apply runs_bind, runs_gets.
  unfold position. rewrite Hp. set (w := lcd_width (g_tft_lcd (gl s))) in *.
  assert (w * y <= 2048 * y) by nia.
  destruct (Z.ltb_spec (w * y + x) (2 ^ 31)); [|lia].
  destruct (Z.ltb_spec (4 * (w * y + x)) (2 ^ 31)); [|lia]. unfold st_dram. cbn [andb].
  apply runs_modify. by apply HQ.
Qed.

Lemma u16_range z : 0 <= u16 z < 2 ^ 16.
Proof. apply Z.mod_pos_bound. lia. Qed.

Lemma line_diverges x1 y1 x2 y2 n s :
  screen_ok (g_tft_lcd (gl s)) -> 0 <= x2 -> x2 + 2 <= x1 -> x1 < 2 ^ 16 -> 0 <= y1 <= y2 -> y2 < 2 ^ 16 ->
  lcd_draw_line x1 y1 x2 y2 n s = Fuel.
Proof.
  intros Hl H1 H2 H3 H4 H5. unfold lcd_draw_line.
  assert (u32 (x2 - x1) = 2 ^ 32 - (x1 - x2)) as -> by (unfold u32; dlia).
  rewrite (u32_small (y2 - y1)) by lia. rewrite (line_dir_pos (y2 - y1)) by lia.
  unfold line_dir. destruct (Z.ltb_spec 0 (2 ^ 32 - (x1 - x2))); [|lia].
  destruct (Z.ltb_spec (y2 - y1) (2 ^ 32 - (x1 - x2))); [|lia].
  rewrite (u32_small (_ + 1)) by lia.
  apply (iter_diverges (fun st s' => 0 <= ls_t st < 2 ^ 16 /\ screen_ok (g_tft_lcd (gl s')))); [|done].
  intros st s' [Ht Hl']. destruct (Z.leb_spec (ls_t st) (2 ^ 32 - (x1 - x2) + 1)); [|lia].
  apply runs_bind, runs_gets, runs_bind, runs_draw_any; [done|apply u16_range..|].
  intros s'' El. destruct (line_axis _ _ _ _ _), (line_axis _ _ _ _ _). apply runs_ret.
  split; [apply u16_range|by rewrite El].
Qed.

(** ** Properties *)


(** A screen of 40 by 30 points. *)
Definition test_screen : fw :=
  Fw [] (upd_tft_lcd (fun _ => with_display 0 4 LCD_FRAMEBUF_ADDR 0 7
                        (with_geometry 30 40 0 0 0 0 0 0 tft_lcd0)) globals0).
Lemma test_screen_ok : screen_ok (g_tft_lcd (gl test_screen)).
Proof. unfold screen_ok. simpl. lia. Qed.


(** a line from a point of the screen to one right of and below it (or level
    with it) is drawn exactly: along the axis of the larger extent every
    coordinate between the two ends has one point, less than one unit away from
    the ideal line, and nothing else changes. *)
Theorem lcd_draw_line_exact `{Device} x1 y1 x2 y2 n s :
  let l := g_tft_lcd (gl s) in
  screen_ok l -> 0 <= lcd_forecolor l < 2 ^ 32 ->
  0 <= x1 <= x2 -> x2 < lcd_width l -> 0 <= y1 <= y2 -> y2 < lcd_height l -> (2050 < n)%nat ->
  runs (lcd_draw_line x1 y1 x2 y2) n s (fun _ s' =>
    paints s s' (fun u v =>
      if on_line (x2 - x1) (y2 - y1) (u - x1) (v - y1) then Some (lcd_forecolor l) else None)).
Proof. intros l Hl Hc H1 H2 H3 H4 Hn. by apply (runs_line x1 y1 x2 y2 (lcd_forecolor l)). Qed.

Lemma lcd_draw_line_exact_witness :
  runs (lcd_draw_line 3 4 17 9) 2051 test_screen (fun _ s' =>
    @paints reg_device test_screen s' (fun u v =>
      if on_line (17 - 3) (9 - 4) (u - 3) (v - 4)
      then Some (lcd_forecolor (g_tft_lcd (gl test_screen))) else None)).
Proof.
  apply (@lcd_draw_line_exact reg_device 3 4 17 9 2051 test_screen);
    [apply test_screen_ok|simpl; lia|lia|simpl; lia|lia|simpl; lia|lia].
Defined.

(** the code for a line to the left is unreachable (the difference is
    unsigned and never negative): a line that ends two or more columns left of
    its start does not terminate, for any number of rounds of the loop. *)
Theorem lcd_draw_line_diverges x1 y1 x2 y2 n s :
  screen_ok (g_tft_lcd (gl s)) -> 0 <= x2 -> x2 + 2 <= x1 -> x1 < 2 ^ 16 ->
  0 <= y1 <= y2 -> y2 < 2 ^ 16 ->
  lcd_draw_line x1 y1 x2 y2 n s = Fuel.
Proof. apply line_diverges. Qed.

Lemma lcd_draw_line_diverges_witness : lcd_draw_line 10 0 8 0 1000%nat test_screen = Fuel.
Proof. apply lcd_draw_line_diverges; [apply test_screen_ok|lia|lia|lia|lia|lia]. Defined.
