(* ===== verification/LcdText.v ===== *)
(** Text on the screen: the characters, strings and numbers that
    baremetal/20_pwm/bsp/lcd/lcdapi.c draws are the glyphs of font.h, pixel by
    pixel. *)
From S2P Require Import Prelude Machine FwLogic CMem Regs Gpio Delay Lcd Font LcdApi.
From S2P Require Import Ctype Div64 Vsprintf Format FormatInt.

(** ** Glyphs *)

(** The sizes font.h has a table for. *)
Definition font_size (size : Z) : Prop := size = 12 \/ size = 16 \/ size = 24 \/ size = 32.

Definition printable (c : Z) : Prop := 32 <= c <= 126.

(** Bytes of one column. *)
Definition stride (size : Z) : Z := (size + 7) / 8.

Definition glyph_of (size c : Z) : list Z :=
  match font_of size with Some font => nth (Z.to_nat (c - 32)) font [] | None => [] end.

(** The dot of column [i] and row [j]. *)
Definition glyph_bit (size : Z) (glyph : list Z) (i j : Z) : bool :=
  Z.testbit (nth (Z.to_nat (i * stride size + j / 8)) glyph 0) (7 - j mod 8).

Definition glyph_ok (size : Z) (glyph : list Z) : bool :=
  (char_size size <=? Z.of_nat (length glyph)) &&
  forallb (fun b => (0 <=? b) && (b <? 256)) glyph.

(** Every table has the 95 printable characters, and every glyph the bytes the
    drawing loop reads. *)
Lemma fonts_complete : forallb (fun size =>
  match font_of size with
  | Some font => (Z.of_nat (length font) =? 95) && forallb (glyph_ok size) font
  | None => false
  end) [12; 16; 24; 32] = true.
Proof. vm_compute. reflexivity. Qed.

Lemma font_lookup size c : font_size size -> printable c ->
  exists font, font_of size = Some font /\ font !! Z.to_nat (u8 (c - 32)) = Some (glyph_of size c) /\
    glyph_ok size (glyph_of size c) = true.
Proof.
  intros Hs Hc. unfold printable in Hc. pose proof fonts_complete as H. rewrite forallb_forall in H.
  assert (In size [12; 16; 24; 32]) as Hin by (destruct Hs as [->|[->|[->| ->]]]; simpl; tauto).
  specialize (H _ Hin). unfold glyph_of. destruct (font_of size) as [font|]; [|done].
  apply andb_true_iff in H as [Hl Hg]. apply Z.eqb_eq in Hl.
  exists font. split; [done|]. rewrite u8_small by lia.
  assert (font !! Z.to_nat (c - 32) = Some (nth (Z.to_nat (c - 32)) font [])) as E
    by (destruct (nth_lookup_or_length font (Z.to_nat (c - 32)) []); [done|lia]).
  split; [done|]. rewrite forallb_forall in Hg. apply Hg, list_elem_of_In, list_elem_of_lookup. eauto.
Qed.

Lemma size_facts size : font_size size ->
  0 < stride size /\ 8 * (stride size - 1) < size <= 8 * stride size /\ 12 <= size <= 32 /\
  char_size size = stride size * (size / 2) /\ 6 <= size / 2 <= 16.
Proof. intros [->|[->|[->| ->]]]; vm_compute; repeat split; congruence. Qed.

(** ** One character *)

(** What a character of [size] points at [(x, y)] puts at [(u, v)]: the foreground
    colour on its dots; elsewhere in its cell the background colour, unless
    [mode] says to leave the background as it is. *)
Definition ink (fore back mode size : Z) (glyph : list Z) (x y u v : Z) : option Z :=
  if (x <=? u) && (u <? x + size / 2) && (y <=? v) && (v <? y + size) then
    if glyph_bit size glyph (u - x) (v - y) then Some fore
    else if mode =? 0 then Some back else None
  else None.

(** Columns before [i], and column [i] down to row [j], of a picture. *)
Definition upto (x y i j : Z) (f : Z -> Z -> option Z) (u v : Z) : option Z :=
  if (u - x <? i) || ((u - x =? i) && (v - y <? j)) then f u v else None.

Section Character.
Context `{Device}.
Context (s0 : fw) (f : Z -> Z -> option Z) (size mode x y : Z) (glyph : list Z) (n : nat).
Let l := g_tft_lcd (gl s0).
Let fore := lcd_forecolor l.
Let back := lcd_backcolor l.
Context (Hl : screen_ok l) (Hfore : 0 <= fore < 2 ^ 32) (Hback : 0 <= back < 2 ^ 32).
Context (Hsize : font_size size) (Hx : 0 <= x) (Hxw : x + size / 2 <= lcd_width l).
Context (Hy : 0 <= y) (Hyh : y + size < lcd_height l) (Hn : (64 < n)%nat).
Context (Hglyph : glyph_ok size glyph = true).

Abbreviation picture := (ink fore back mode size glyph x y).

Lemma glyph_byte k : 0 <= k < char_size size ->
  exists b, glyph !! Z.to_nat k = Some b /\ nth (Z.to_nat k) glyph 0 = b /\ 0 <= b < 256.
Proof.
  intros Hk. unfold glyph_ok in Hglyph. apply andb_true_iff in Hglyph as [Hlen Hb].
  apply Z.leb_le in Hlen. destruct (nth_lookup_or_length glyph (Z.to_nat k) 0) as [E|]; [|lia].
  eexists. split; [exact E|]. split; [done|]. rewrite forallb_forall in Hb.
  apply list_elem_of_lookup_2, list_elem_of_In, Hb, andb_true_iff in E as [E1 E2].
  apply Z.leb_le in E1. apply Z.ltb_lt in E2. lia.
Qed.

(** The bit the loop tests after [t1] shifts. *)
Lemma shifted_bit b t1 : 0 <= t1 < 8 ->
  truthy (u8 (b << t1) .& 0x80) = Z.testbit b (7 - t1).
Proof.
  intros Ht. change 0x80 with (1 << 7). rewrite truthy_land_bit by lia. unfold u8.
  rewrite Z.mod_pow2_bits_low by lia. rewrite Z.shiftl_spec by lia. f_equal.
Qed.

(** One dot more. *)
Lemma upto_dot i j u v : 0 <= i < size / 2 -> 0 <= j < size ->
  upto x y i (j + 1) picture u v =
    if (u =? x + i) && (v =? y + j) then
      (if glyph_bit size glyph i j then Some fore else if mode =? 0 then Some back else None)
    else upto x y i j picture u v.
Proof.
  intros Hi Hj. unfold upto. destruct (Z.eqb_spec u (x + i)) as [->|Hu].
  - replace (x + i - x) with i by lia. rewrite Z.ltb_irrefl, Z.eqb_refl. cbn [orb andb].
    destruct (Z.eqb_spec v (y + j)) as [->|Hv].
    + destruct (Z.ltb_spec (y + j - y) (j + 1)); [|lia]. unfold ink.
      replace (x + i - x) with i by lia. replace (y + j - y) with j by lia. bcase; done.
    + bcase; done.
  - destruct (Z.eqb_spec (u - x) i); [lia|]. done.
Qed.

Lemma runs_show_dot i j b s (Q : unit -> fw -> Prop) :
  0 <= i < size / 2 -> 0 <= j < size ->
  b = glyph_bit size glyph i j -> paints s0 s (over (upto x y i j picture) f) ->
  (forall s', paints s0 s' (over (upto x y i (j + 1) picture) f) -> Q tt s') ->
  runs (if b then lcd_draw_point (x + i) (y + j) fore
        else when mode =? 0 then lcd_draw_point (x + i) (y + j) back) n s Q.
Proof.
  intros Hi Hj -> Hp HQ.
  assert (forall u v, over (upto x y i (j + 1) picture) f u v =
    match (if (u =? x + i) && (v =? y + j) then
      (if glyph_bit size glyph i j then Some fore else if mode =? 0 then Some back else None)
      else None) with Some c => Some c | None => over (upto x y i j picture) f u v end) as E.
  { intros u v. unfold over. rewrite upto_dot by done.
    destruct ((u =? x + i) && (v =? y + j)) eqn:Euv; [|done].
    apply andb_true_iff in Euv as [Eu Ev]. apply Z.eqb_eq in Eu, Ev. subst.
    destruct (glyph_bit size glyph i j) eqn:Eb; [done|]. destruct (mode =? 0) eqn:Em; [done|].
    unfold upto. replace (x + i - x) with i by lia. replace (y + j - y) with j by lia.
    rewrite Z.ltb_irrefl, Z.eqb_refl, Z.ltb_irrefl. done. }
  assert (on_screen l (x + i) (y + j)) as Hon by (unfold on_screen; lia).
  destruct (glyph_bit size glyph i j); [|destruct (mode =? 0)].
  - apply (runs_draw_over s0 _ _ _ _ _ _ _ Hl Hp Hon Hfore). intros s' Hs'. apply HQ.
    eapply paints_ext; [|exact Hs']. intros u v _. rewrite E. unfold over, dot. by destruct (_ && _).
  - apply (runs_draw_over s0 _ _ _ _ _ _ _ Hl Hp Hon Hback). intros s' Hs'. apply HQ.
    eapply paints_ext; [|exact Hs']. intros u v _. rewrite E. unfold over, dot. by destruct (_ && _).
  - apply runs_ret, HQ. eapply paints_ext; [|exact Hp]. intros u v _. rewrite E. by destruct (_ && _).
Qed.

Lemma upto_column i u v : upto x y i size picture u v = upto x y (i + 1) 0 picture u v.
Proof. unfold upto, ink. bcase; done. Qed.

Lemma glyph_bit_at i k t1 : 0 <= t1 < 8 ->
  glyph_bit size glyph i (8 * k + t1) =
    Z.testbit (nth (Z.to_nat (i * stride size + k)) glyph 0) (7 - t1).
Proof.
  intros Ht. unfold glyph_bit. rewrite (Z.mul_comm 8 k), Z.div_add_l, Z.div_small, Z.add_0_r by lia.
  by rewrite (Z.add_comm (k * 8)), Z.mod_add, Z.mod_small by lia.
Qed.

Lemma runs_show_bits i k b s (Q : option (Z * Z) -> fw -> Prop) :
  0 <= i < size / 2 -> 0 <= k -> 8 * k < size ->
  nth (Z.to_nat (i * stride size + k)) glyph 0 = b -> 0 <= b < 256 ->
  paints s0 s (over (upto x y i (8 * k) picture) f) ->
  (forall s', 8 * (k + 1) < size -> paints s0 s' (over (upto x y i (8 * (k + 1)) picture) f) ->
     Q (Some (x + i, y + 8 * (k + 1))) s') ->
  (forall s', size <= 8 * (k + 1) -> paints s0 s' (over (upto x y (i + 1) 0 picture) f) ->
     Q (if lcd_width l <=? x + i + 1 then None else Some (x + i + 1, y)) s') ->
  runs (show_bits y size mode b (x + i) (y + 8 * k)) n s Q.
Proof.
  intros Hi Hk Hks Hb Hb8 Hp HQ1 HQ2. destruct (size_facts size Hsize) as (_ & _ & Hs32 & _).
  pose proof Hl as (_ & Hw & Hh & _). unfold show_bits.
  apply (runs_iter (fun j st s' => exists t1, st = (t1, u8 (b << t1), y + 8 * k + t1) /\
    0 <= t1 <= 8 /\ j = Z.to_nat (8 - t1) /\ 8 * k + t1 < size /\
    paints s0 s' (over (upto x y i (8 * k + t1) picture) f)) Q _ n (Z.to_nat (8 - 0))); [| |lia].
  2: { exists 0. rewrite Z.shiftl_0_r, (u8_small b), !Z.add_0_r by done.
       split; [done|]. split; [lia|]. split; [done|]. by split. }
  intros j st s' (t1 & -> & Ht & -> & Hlt & Hp'). destruct (Z.ltb_spec t1 8) as [Ht8|Ht8].
  - pose proof (paints_lcd _ _ _ Hp') as El. fold l in El.
    apply runs_bind, runs_gets. rewrite El. fold fore back. rewrite shifted_bit by lia.
    replace (y + 8 * k + t1) with (y + (8 * k + t1)) by lia.
    apply runs_bind, (runs_show_dot i (8 * k + t1)); [done|lia| |done|].
    { rewrite glyph_bit_at by lia. by rewrite Hb. }
    intros s'' Hs''. cbv zeta. rewrite (u16_small (y + (8 * k + t1) + 1)) by lia.
    destruct (Z.leb_spec (lcd_height l) (y + (8 * k + t1) + 1)); [lia|].
    destruct (Z.eqb_spec (y + (8 * k + t1) + 1 - y) size) as [E|E].
    + rewrite u16_small by lia. specialize (HQ2 s'' ltac:(lia)).
      destruct (Z.leb_spec (lcd_width l) (x + i + 1)); apply runs_ret, HQ2;
        (eapply paints_ext; [|exact Hs'']; intros u v _; unfold over;
         rewrite <- (upto_column i); by replace (8 * k + t1 + 1) with size by lia).
    + apply runs_ret. exists (Z.to_nat (8 - (t1 + 1))). split; [lia|]. exists (t1 + 1).
      replace (8 * k + (t1 + 1)) with (8 * k + t1 + 1) by lia.
      split; [|split; [lia|split; [done|split; [lia|done]]]]. f_equal; [|lia]. f_equal.
      rewrite <- Z.shiftl_shiftl by lia. unfold u8. rewrite !Z.shiftl_mul_pow2 by lia.
      by rewrite Z.mul_mod_idemp_l by lia.
  - assert (t1 = 8) as -> by lia. apply runs_ret.
    replace (y + 8 * k + 8) with (y + 8 * (k + 1)) by lia. apply HQ1; [lia|].
    by replace (8 * (k + 1)) with (8 * k + 8) by lia.
Qed.

Lemma upto_all u v : upto x y (size / 2) 0 picture u v = picture u v.
Proof. unfold upto, ink. bcase; done. Qed.

Lemma upto_none u v : upto x y 0 0 picture u v = None.
Proof. unfold upto, ink. bcase; done. Qed.

Lemma runs_show_char c s (Q : unit -> fw -> Prop) :
  printable c -> glyph = glyph_of size c -> paints s0 s f ->
  (forall s', paints s0 s' (over picture f) -> Q tt s') ->
  runs (lcd_show_char x y c size mode) n s Q.
Proof.
  intros Hc Eg Hp HQ. destruct (size_facts size Hsize) as (Hst & Hbound & Hs32 & Hcs & Hh2).
  destruct (font_lookup size c Hsize Hc) as (font & Hf & Hlook & _). rewrite <- Eg in Hlook.
  assert (forall s', paints s0 s' (over (upto x y (size / 2) 0 picture) f) -> Q tt s') as HQ'.
  { intros s' Hs'. apply HQ. eapply paints_ext; [|exact Hs']. intros u v _. unfold over.
    by rewrite upto_all. }
  assert (stride size <= 4) as Hst4 by lia. assert (char_size size <= 64) as Hc64 by nia.
  unfold lcd_show_char.
  apply (runs_iter (fun j st s' => exists i k, st = (i * stride size + k, x + i, y + 8 * k) /\
    j = Z.to_nat (char_size size - (i * stride size + k)) /\ 0 <= i /\ 0 <= k /\
    (i < size / 2 /\ 8 * k < size \/ i = size / 2 /\ k = 0) /\
    paints s0 s' (over (upto x y i (8 * k) picture) f)) Q _ n (Z.to_nat (char_size size - 0))); [| |lia].
  2: { exists 0, 0. rewrite !Z.add_0_r. split; [done|]. split; [done|]. do 2 (split; [lia|]).
       split; [left; lia|]. eapply paints_ext; [|exact Hp]. intros u v _. unfold over.
       by rewrite upto_none. }
  intros j st s' (i & k & -> & -> & Hi & Hk & Hik & Hp').
  destruct Hik as [[Hi2 Hk8]|[-> ->]].
  - assert (i * stride size + k < char_size size) as Hlt by nia.
    destruct (Z.ltb_spec (i * stride size + k) (char_size size)); [|lia].
    destruct (glyph_byte (i * stride size + k)) as (b & Eb & En & Hb); [nia|].
    rewrite Hf, Hlook. cbn [mbind option_bind]. rewrite Eb.
    apply runs_bind, (runs_show_bits i k b); [lia|done|done|done|done|done|..].
    + intros s'' Hk' Hs''. apply runs_ret. eexists; split; [|exists i, (k + 1); split; [f_equal; f_equal; lia|]].
      2: split; [reflexivity|split; [lia|split; [lia|split; [left; lia|done]]]]. lia.
    + intros s'' Hk' Hs''. assert (k = stride size - 1) as -> by lia.
      destruct (Z.leb_spec (lcd_width l) (x + i + 1)).
      * apply runs_ret, HQ'. by replace (size / 2) with (i + 1) by lia.
      * apply runs_ret. eexists; split; [|exists (i + 1), 0; split; [f_equal; [f_equal|]; lia|]].
        2: split; [reflexivity|split; [lia|split; [lia|split; [lia|done]]]]. lia.
  - destruct (Z.ltb_spec (size / 2 * stride size + 0) (char_size size)); [lia|].
    by apply runs_ret, HQ'.
Qed.
End Character.

(** ** A line of text *)

(** Characters side by side, each in a cell of [size / 2] by [size] points. *)
Definition text_ink (fore back size x y : Z) (cs : list Z) (u v : Z) : option Z :=
  let w := size / 2 in
  if (x <=? u) && (u <? x + w * Z.of_nat (length cs)) && (y <=? v) && (v <? y + size) then
    Some (if glyph_bit size (glyph_of size (nth (Z.to_nat ((u - x) / w)) cs 0))
             ((u - x) mod w) (v - y) then fore else back)
  else None.

Lemma text_ink_snoc fore back size x y cs c u v : font_size size ->
  over (ink fore back 0 size (glyph_of size c) (x + size / 2 * Z.of_nat (length cs)) y)
    (text_ink fore back size x y cs) u v = text_ink fore back size x y (cs ++ [c]) u v.
Proof.
  intros Hs. destruct (size_facts size Hs) as (_ & _ & _ & _ & Hw). unfold over, text_ink, ink.
  rewrite length_app. cbn [length]. set (w := size / 2) in *. set (k := Z.of_nat (length cs)).
  replace (Z.of_nat (length cs + 1)) with (k + 1) by lia. cbv zeta.
  destruct (Z.leb_spec (x + w * k) u) as [H1|H1], (Z.ltb_spec u (x + w * k + w)) as [H2|H2]; cbn [andb].
  - destruct (Z.leb_spec x u), (Z.ltb_spec u (x + w * (k + 1))), (Z.ltb_spec u (x + w * k)); try nia.
    cbn [andb]. destruct ((y <=? v) && (v <? y + size)); [|done].
    replace (u - x) with ((u - (x + w * k)) + k * w) by lia.
    rewrite Z.div_add, Z.div_small, Z.add_0_l, Z.mod_add, Z.mod_small by lia.
    replace (Z.to_nat k) with (length cs) by lia. rewrite nth_middle. cbn [Z.eqb].
    by destruct (glyph_bit _ _ _ _).
  - destruct (Z.ltb_spec u (x + w * k)), (Z.ltb_spec u (x + w * (k + 1))); try nia.
    by rewrite !andb_false_r.
  - destruct (Z.ltb_spec u (x + w * k)), (Z.ltb_spec u (x + w * (k + 1))); try nia.
    destruct (Z.leb_spec x u); [|done]. cbn [andb]. rewrite app_nth1; [done|].
    assert ((u - x) / w < k); [|lia]. apply Z.div_lt_upper_bound; lia.
  - destruct (Z.leb_spec x u); [nia|done].
Qed.

Lemma text_ink_nil fore back size x y u v : text_ink fore back size x y [] u v = None.
Proof. unfold text_ink. cbn [length]. rewrite Z.mul_0_r, Z.add_0_r. bcase; done. Qed.

Section Text.
Context `{Device}.
Context (s0 : fw) (size x y : Z) (n : nat).
Let l := g_tft_lcd (gl s0).
Let fore := lcd_forecolor l.
Let back := lcd_backcolor l.
Context (Hl : screen_ok l) (Hfore : 0 <= fore < 2 ^ 32) (Hback : 0 <= back < 2 ^ 32).
Context (Hsize : font_size size) (Hx : 0 <= x) (Hy : 0 <= y) (Hyh : y + size < lcd_height l).
Context (Hn : (64 < n)%nat).

(** One character after a text. *)
Lemma runs_text_char cs c s (Q : unit -> fw -> Prop) :
  printable c -> x + size / 2 * Z.of_nat (length cs + 1) <= lcd_width l ->
  paints s0 s (text_ink fore back size x y cs) ->
  (forall s', paints s0 s' (text_ink fore back size x y (cs ++ [c])) -> Q tt s') ->
  runs (lcd_show_char (x + size / 2 * Z.of_nat (length cs)) y c size 0) n s Q.
Proof.
  intros Hc Hw Hp HQ. destruct (size_facts size Hsize) as (_ & _ & _ & _ & H2).
  destruct (font_lookup size c Hsize Hc) as (font & _ & _ & Hok).
  apply (runs_show_char s0 (text_ink fore back size x y cs) size 0 _ y (glyph_of size c)); try done;
    [nia|fold l; nia|]. intros s' Hs'. apply HQ. eapply paints_ext; [|exact Hs'].
  intros u v _. by apply text_ink_snoc.
Qed.

Lemma paints_mem s f : paints s0 s f -> g_mem (gl s) = g_mem (gl s0).
Proof. by intros (_ & (m & ->) & _). Qed.

Lemma runs_show_string width height p cs (Q : unit -> fw -> Prop) :
  str_at (g_mem (gl s0)) p cs -> Forall printable cs -> (length cs < n)%nat ->
  x + size / 2 * Z.of_nat (length cs) <= lcd_width l ->
  size / 2 * (Z.of_nat (length cs) - 1) < width -> 0 <= width -> x + width < 2 ^ 16 ->
  0 < height -> y + height < 2 ^ 16 ->
  (forall s', paints s0 s' (text_ink fore back size x y cs) -> Q tt s') ->
  runs (lcd_show_string x y width height size p) n s0 Q.
Proof.
  intros Hstr Hpr Hlen Hw Hwd Hwd0 Hwd16 Hht Hht16 HQ.
  destruct (size_facts size Hsize) as (_ & _ & _ & _ & H2). pose proof Hl as (_ & Hlw & Hlh & _).
  unfold lcd_show_string. rewrite !(Z.add_comm _ x), !(Z.add_comm _ y), !u16_small by lia. cbv zeta.
  apply (runs_iter (fun j st s => exists d rest, cs = d ++ rest /\ j = length rest /\
    st = (x + size / 2 * Z.of_nat (length d), y, p + Z.of_nat (length d)) /\
    paints s0 s (text_ink fore back size x y d)) Q _ n (length cs)); [| |done].
  2: { exists [], cs. cbn [length]. rewrite Z.mul_0_r, !Z.add_0_r. split; [done|]. split; [done|].
       split; [done|]. eapply paints_ext; [|apply paints_refl]. intros u v _. by rewrite text_ink_nil. }
  intros j st s (d & rest & -> & -> & -> & Hp). destruct Hstr as [Hnz Hby].
  rewrite <- app_assoc in Hby. apply bytes_at_app in Hby as [_ Hby].
  rewrite length_app in *. destruct rest as [|c rest]; cbn [app length] in *.
  - apply bytes_at_cons in Hby as [Hb _]. apply runs_bind. eapply runs_ld8; [by rewrite (paints_mem _ _ Hp)|].
    cbn [Z.leb Z.compare andb]. apply runs_ret, HQ. by rewrite app_nil_r.
  - apply bytes_at_cons in Hby as [Hb _]. apply Forall_app in Hpr as [_ Hpr].
    inversion Hpr as [|? ? Hc Hpr']; subst.
    apply runs_bind. eapply runs_ld8; [by rewrite (paints_mem _ _ Hp)|]. pose proof Hc as [Hc1 Hc2].
    destruct (Z.leb_spec c 126), (Z.leb_spec 32 c); try lia. cbn [andb].
    destruct (Z.leb_spec (x + width) (x + size / 2 * Z.of_nat (length d))); [nia|].
    destruct (Z.leb_spec (y + height) y); [lia|].
    apply runs_bind, (runs_text_char d c); [done|nia|done|]. intros s' Hs'.
    apply runs_ret. rewrite u16_small by nia. exists (length rest). split; [lia|].
    exists (d ++ [c]), rest. rewrite length_app. cbn [length].
    split; [by rewrite <- app_assoc|]. split; [done|].
    split; [f_equal; [f_equal|]; lia|done].
Qed.
End Text.

(** ** Numbers *)
Lemma runs_lcd_pow m k n s (Q : Z -> fw -> Prop) :
  0 <= k < 256 -> (256 < n)%nat -> Q (m ^ k mod 2 ^ 32) s -> runs (lcd_pow m k) n s Q.
Proof.
  intros Hk Hn HQ. unfold lcd_pow.
  apply (runs_iter (fun j st s' => s' = s /\ exists i, 0 <= i <= k /\ j = Z.to_nat i /\
    st = (i, m ^ (k - i) mod 2 ^ 32)) Q _ n (Z.to_nat k)); [| |lia].
  2: { split; [done|]. exists k. split; [lia|]. split; [done|]. by rewrite Z.sub_diag. }
  intros j st s' (-> & i & Hi & -> & ->). destruct (truthy i) eqn:E.
  - apply truthy_true in E. apply runs_ret. rewrite u8_small by lia. exists (Z.to_nat (i - 1)).
    split; [lia|]. split; [done|]. exists (i - 1). split; [lia|]. split; [done|]. f_equal.
    unfold u32. rewrite Z.mul_mod_idemp_l by lia. replace (k - (i - 1)) with (Z.succ (k - i)) by lia.
    by rewrite Z.pow_succ_r, Z.mul_comm by lia.
  - apply runs_ret. assert (i = 0) as -> by (unfold truthy in E; by destruct (Z.eqb_spec i 0)).
    by rewrite Z.sub_0_r.
Qed.

(** The character at position [t] of a field of [len]: a blank before the first
    digit that counts, except in the last position. *)
Definition num_char (num len t : Z) : Z :=
  if (t <? len - 1) && (num <? 10 ^ (len - t - 1)) then 32
  else (num / 10 ^ (len - t - 1)) mod 10 + 48.

Definition num_text (num : Z) (len : nat) : list Z :=
  (fun t => num_char num (Z.of_nat len) (Z.of_nat t)) <$> seq 0 len.

Lemma pow10_small k : 0 <= k <= 9 -> 0 < 10 ^ k < 2 ^ 32.
Proof.
  intros Hk. split; [apply Z.pow_pos_nonneg; lia|].
  apply Z.le_lt_trans with (10 ^ 9); [apply Z.pow_le_mono_r; lia|lia].
Qed.

Lemma num_char_printable num len t : 0 <= num -> printable (num_char num len t).
Proof.
  intros Hn. unfold num_char, printable. destruct (_ && _); [lia|].
  pose proof (Z.mod_pos_bound (num / 10 ^ (len - t - 1)) 10 ltac:(lia)). lia.
Qed.

Lemma runs_digit_at num len t n s (Q : Z -> fw -> Prop) :
  0 <= t < len -> len <= 10 -> (256 < n)%nat ->
  Q ((num / 10 ^ (len - t - 1)) mod 10) s -> runs (digit_at num len t) n s Q.
Proof.
  intros Ht Hl Hn HQ. unfold digit_at. pose proof (pow10_small (len - t - 1) ltac:(lia)).
  apply runs_bind. rewrite u8_small by lia. apply runs_lcd_pow; [lia|done|].
  rewrite Z.mod_small by lia. destruct (Z.eqb_spec (10 ^ (len - t - 1)) 0); [lia|]. by apply runs_ret.
Qed.

(** A digit is zero and nothing before it counts exactly when the number is
    below its weight. *)
Lemma leading_zero num k : 0 <= num -> 0 <= k ->
  (num <? 10 ^ (k + 1)) && ((num / 10 ^ k) mod 10 =? 0) = (num <? 10 ^ k).
Proof.
  intros Hn Hk. rewrite Z.pow_add_r, Z.pow_1_r by lia.
  assert (0 < 10 ^ k) as Hp by (apply Z.pow_pos_nonneg; lia).
  pose proof (Z.div_mod num (10 ^ k) ltac:(lia)) as Hd.
  pose proof (Z.mod_pos_bound num (10 ^ k) Hp) as Hm.
  destruct (Z.ltb_spec num (10 ^ k * 10)) as [H1|H1]; cbn [andb].
  - assert (0 <= num / 10 ^ k < 10) as Hq by (split; [apply Z.div_pos; lia|apply Z.div_lt_upper_bound; lia]).
    rewrite Z.mod_small by done. bcase; nia.
  - bcase; done.
Qed.

(** Only the last [len] digits are looked at. *)
Lemma digit_mod num len k : 0 <= k < len ->
  (num mod 10 ^ len / 10 ^ k) mod 10 = (num / 10 ^ k) mod 10.
Proof.
  intros Hk. assert (0 < 10 ^ k) by (apply Z.pow_pos_nonneg; lia).
  assert (0 < 10 ^ (len - k - 1)) by (apply Z.pow_pos_nonneg; lia).
  replace (10 ^ len) with (10 ^ k * (10 * 10 ^ (len - k - 1))).
  2: { rewrite <- Z.pow_succ_r, <- Z.pow_add_r by lia. f_equal. lia. }
  rewrite Z.rem_mul_r by lia. rewrite Z.mul_comm, Z.div_add, Z.div_small, Z.add_0_l by
    (try apply Z.mod_pos_bound; lia).
  rewrite Z.rem_mul_r by lia. rewrite Z.mul_comm, Z.mod_add, Z.mod_mod by lia. done.
Qed.

Section Number.
Context `{Device}.
Context (s0 : fw) (size x y : Z) (n : nat).
Let l := g_tft_lcd (gl s0).
Let fore := lcd_forecolor l.
Let back := lcd_backcolor l.
Context (Hl : screen_ok l) (Hfore : 0 <= fore < 2 ^ 32) (Hback : 0 <= back < 2 ^ 32).
Context (Hsize : font_size size) (Hx : 0 <= x) (Hy : 0 <= y) (Hyh : y + size < lcd_height l).
Context (Hn : (256 < n)%nat).

Lemma runs_show_num num (len : nat) (Q : unit -> fw -> Prop) :
  0 <= num -> (len <= 10)%nat -> x + size / 2 * Z.of_nat len <= lcd_width l ->
  (forall s', paints s0 s' (text_ink fore back size x y (num_text (num mod 10 ^ Z.of_nat len) len)) ->
     Q tt s') ->
  runs (lcd_show_num x y num (Z.of_nat len) size) n s0 Q.
Proof.
  intros Hnum Hlen Hw HQ. destruct (size_facts size Hsize) as (_ & _ & _ & _ & H2).
  pose proof Hl as (_ & Hlw & _). set (L := Z.of_nat len) in *. set (N := num mod 10 ^ L) in *.
  assert (0 < 10 ^ L) as HpL by (apply Z.pow_pos_nonneg; lia).
  pose proof (Z.mod_pos_bound num (10 ^ L) HpL) as HN. fold N in HN.
  set (pre := fun t : nat => (fun t => num_char N L (Z.of_nat t)) <$> seq 0 t).
  unfold lcd_show_num.
  apply (runs_iter (fun j st s => exists (t : nat) en, st = (Z.of_nat t, en) /\ (t <= len)%nat /\
    j = (len - t)%nat /\ ((t < len)%nat -> (en =? 0) = (N <? 10 ^ (L - Z.of_nat t))) /\
    paints s0 s (text_ink fore back size x y (pre t))) Q _ n len); [| |lia].
  2: { exists O, 0. split; [done|]. split; [lia|]. split; [lia|]. split.
       - intros _. rewrite Z.sub_0_r. destruct (Z.ltb_spec N (10 ^ L)); [done|lia].
       - eapply paints_ext; [|apply paints_refl]. intros u v _. by rewrite text_ink_nil. }
  intros j st s (t & en & -> & Ht & -> & Hen & Hp).
  destruct (Z.ltb_spec (Z.of_nat t) L) as [Hlt|Hge].
  2: { apply runs_ret, HQ. assert (t = len) as -> by lia. exact Hp. }
  specialize (Hen ltac:(lia)). set (T := Z.of_nat t) in *. set (k := L - T - 1) in *.
  apply runs_bind, runs_digit_at; [lia|lia|done|]. fold k.
  rewrite <- (digit_mod num L k) by lia. fold N.
  replace (L - T) with (k + 1) in Hen by lia. rewrite Hen.
  rewrite <- andb_assoc, (andb_comm (T <? L - 1)), andb_assoc, leading_zero by lia.
  rewrite !(u16_small (x + size / 2 * T)) by nia. rewrite !(u8_small (T + 1)) by lia.
  assert (Hlenpre : length (pre t) = t) by (unfold pre; by rewrite length_fmap, length_seq).
  assert (Hpre : pre (S t) = pre t ++ [num_char N L T]).
  { unfold pre. rewrite seq_S, fmap_app. done. }
  assert (forall c en' (s' : fw), c = num_char N L T -> (T < L - 1 -> (en' =? 0) = (N <? 10 ^ k)) ->
    paints s0 s' (text_ink fore back size x y (pre t ++ [c])) ->
    exists j', (j' < len - t)%nat /\ exists (t' : nat) en'', (T + 1, en') = (Z.of_nat t', en'') /\
      (t' <= len)%nat /\ j' = (len - t')%nat /\
      ((t' < len)%nat -> (en'' =? 0) = (N <? 10 ^ (L - Z.of_nat t'))) /\
      paints s0 s' (text_ink fore back size x y (pre t'))) as Hnext.
  { intros c en' s' -> He Hs'. exists (len - S t)%nat. split; [lia|]. exists (S t), en'.
    split; [f_equal; lia|]. split; [lia|]. split; [done|]. rewrite Hpre. split; [|done].
    intros Hlt'. replace (L - Z.of_nat (S t)) with k by lia. apply He. lia. }
  pose proof (Z.mod_pos_bound (N / 10 ^ k) 10 ltac:(lia)) as Hdig.
  assert (forall c (Q' : unit -> fw -> Prop), printable c ->
    (forall s', paints s0 s' (text_ink fore back size x y (pre t ++ [c])) -> Q' tt s') ->
    runs (lcd_show_char (x + size / 2 * T) y c size 0) n s Q') as Hchar.
  { intros c Q' Hc HQ'. unfold T. rewrite <- Hlenpre.
    apply (runs_text_char s0); try done; [lia|]. rewrite Hlenpre. fold l. nia. }
  assert (num_char N L T = if (N <? 10 ^ k) && (T <? L - 1) then 32 else (N / 10 ^ k) mod 10 + 48) as Ec.
  { unfold num_char. fold k. by rewrite andb_comm. }
  destruct ((N <? 10 ^ k) && (T <? L - 1)) eqn:Eb.
  - apply andb_true_iff in Eb as [Eb1 Eb2].
    apply runs_bind, Hchar; [unfold printable; lia|]. intros s' Hs'. apply runs_ret.
    apply (Hnext 32); [done| |done]. intros _. rewrite Hen, Eb1. apply Z.ltb_lt in Eb1. apply Z.ltb_lt.
    rewrite Z.pow_add_r by lia. nia.
  - cbv zeta. rewrite (u8_small ((N / 10 ^ k) mod 10 + 48)) by lia.
    apply runs_bind, Hchar; [unfold printable; lia|]. intros s' Hs'. apply runs_ret.
    apply (Hnext ((N / 10 ^ k) mod 10 + 48)); [done| |done].
    intros HT. destruct (Z.ltb_spec T (L - 1)); [|lia]. rewrite andb_true_r in Eb. rewrite andb_true_r, Eb.
    destruct (N <? 10 ^ (k + 1)) eqn:E1; [done|]. by rewrite Hen.
Qed.
End Number.

(** *** The text is the decimal numeral, right aligned *)
Lemma dec_value_bound l : Forall dec_digit l -> dec_value l < 10 ^ Z.of_nat (length l).
Proof.
  induction 1 as [|c l Hc Hl IH]; cbn [dec_value length]; [done|]. unfold dec_digit in Hc.
  rewrite Nat2Z.inj_succ, Z.pow_succ_r by lia. lia.
Qed.

Lemma dec_value_digit l k c : Forall dec_digit l -> l !! k = Some c ->
  (dec_value l / 10 ^ Z.of_nat k) mod 10 + 48 = c.
Proof.
  intros Hl. revert k. induction Hl as [|d l Hd Hl IH]; intros k Hk; [done|]. unfold dec_digit in Hd.
  pose proof (dec_value_nonneg l Hl). cbn [dec_value]. destruct k as [|k]; simpl in Hk.
  - injection Hk as ->. change (10 ^ Z.of_nat 0) with 1. rewrite Z.div_1_r.
    rewrite (Z.mul_comm 10), Z.mod_add, Z.mod_small by lia. lia.
  - rewrite Nat2Z.inj_succ, Z.pow_succ_r by lia. rewrite <- Z.div_div by (try apply Z.pow_pos_nonneg; lia).
    rewrite (Z.mul_comm 10), Z.div_add, (Z.div_small (d - 48)), Z.add_0_l by lia. by apply IH.
Qed.

Lemma canonical_low l k : canonical l -> (0 < k < length l)%nat -> 10 ^ Z.of_nat k <= dec_value l.
Proof.
  intros (Hd & Hne & Hz) Hk. destruct (exists_last Hne) as (l0 & c & ->).
  apply Forall_app in Hd as [Hd0 Hdc]. inversion Hdc as [|? ? Hc _]; subst. unfold dec_digit in Hc.
  rewrite length_app in Hk. simpl in Hk. rewrite dec_value_app. cbn [dec_value].
  assert (c <> 48) by (intros ->; rewrite (Hz l0 eq_refl) in Hk; simpl in Hk; lia).
  pose proof (dec_value_nonneg l0 Hd0).
  assert (10 ^ Z.of_nat k <= 10 ^ Z.of_nat (length l0)) by (apply Z.pow_le_mono_r; lia). nia.
Qed.

Lemma num_text_decimal num len d : (0 < len)%nat -> 0 <= num < 10 ^ Z.of_nat len ->
  decimal_text num d -> num_text num len = replicate (len - length d) 32 ++ d.
Proof.
  intros Hlen Hnum (l & Hcan & Hval & ->). rewrite Z.abs_eq in Hval by lia.
  destruct (Z.ltb_spec num 0); [lia|]. cbn [app]. pose proof Hcan as (Hd & Hne & _).
  assert (length l <= len)%nat as Hll by (apply canonical_length; [done|done|lia]).
  assert (0 < length l)%nat by (destruct l; [done|simpl; lia]). rewrite length_rev.
  apply list_eq. intros i. unfold num_text. rewrite list_lookup_fmap.
  destruct (decide (i < len)%nat) as [Hi|Hi].
  2: { rewrite lookup_seq_ge, lookup_ge_None_2 by (rewrite ?length_app, ?length_replicate, ?length_rev; lia). done. }
  rewrite lookup_seq_lt by done. cbn [fmap option_fmap option_map]. unfold num_char. rewrite Nat.add_0_l.
  set (k := (len - i - 1)%nat). replace (Z.of_nat len - Z.of_nat i - 1) with (Z.of_nat k) by lia.
  destruct (decide (i < len - length l)%nat) as [Hlt|Hge].
  - rewrite lookup_app_l, lookup_replicate_2 by (rewrite ?length_replicate; lia).
    pose proof (dec_value_bound l Hd).
    assert (10 ^ Z.of_nat (length l) <= 10 ^ Z.of_nat k) by (apply Z.pow_le_mono_r; lia).
    destruct (Z.ltb_spec (Z.of_nat i) (Z.of_nat len - 1)); [|lia].
    destruct (Z.ltb_spec num (10 ^ Z.of_nat k)); [done|lia].
  - rewrite lookup_app_r by (rewrite length_replicate; lia). rewrite length_replicate.
    assert (is_Some (l !! k)) as [c Hc] by (apply lookup_lt_is_Some; lia).
    assert (rev l !! (i - (len - length l))%nat = Some c) as ->.
    { rewrite rev_alt. fold (reverse l). rewrite reverse_lookup by lia. rewrite <- Hc. f_equal. lia. }
    assert ((Z.of_nat i <? Z.of_nat len - 1) && (num <? 10 ^ Z.of_nat k) = false) as ->.
    { destruct (Z.ltb_spec (Z.of_nat i) (Z.of_nat len - 1)); [|done]. cbn [andb]. apply Z.ltb_ge.
      rewrite <- Hval. apply canonical_low; [done|lia]. }
    rewrite <- Hval. by rewrite (dec_value_digit l k c).
Qed.

(** ** Properties *)

(** C33: a printable character of one of the four sizes, placed so that its cell
    lies on the screen above its last row, is drawn exactly: the dots of its
    glyph in font.h get the foreground colour, the rest of the cell the
    background colour or, when [mode] is not 0, what it had, and no other point,
    variable or register changes; no table is read outside its bounds. *)
Theorem lcd_show_char_exact `{Device} x y c size mode n s :
  let l := g_tft_lcd (gl s) in
  screen_ok l -> fits 32 (lcd_forecolor l) -> fits 32 (lcd_backcolor l) ->
  font_size size -> printable c ->
  0 <= x -> x + size / 2 <= lcd_width l -> 0 <= y -> y + size < lcd_height l -> (64 < n)%nat ->
  runs (lcd_show_char x y c size mode) n s (fun _ s' =>
    paints s s' (ink (lcd_forecolor l) (lcd_backcolor l) mode size (glyph_of size c) x y)).
Proof.
  intros l Hl Hf Hb Hs Hc Hx Hxw Hy Hyh Hn.
  destruct (font_lookup size c Hs Hc) as (font & _ & _ & Hok).
  apply (runs_show_char s (fun _ _ => None) size mode x y (glyph_of size c)); try done.
  - apply paints_refl.
  - intros s' Hs'. eapply paints_ext; [|exact Hs']. intros u v _. unfold over. fold l.
    by destruct (ink _ _ _ _ _ _ _ u v).
Qed.

Lemma lcd_show_char_exact_witness :
  runs (lcd_show_char 10 10 65 16 0) 65 test_screen (fun _ s' =>
    @paints reg_device test_screen s' (ink (lcd_forecolor (g_tft_lcd (gl test_screen)))
      (lcd_backcolor (g_tft_lcd (gl test_screen))) 0 16 (glyph_of 16 65) 10 10)).
Proof.
  apply (@lcd_show_char_exact reg_device 10 10 65 16 0 65 test_screen);
    [apply test_screen_ok|unfold fits; simpl; lia|unfold fits; simpl; lia|unfold font_size; lia|
     unfold printable; lia|lia|cbv; congruence|lia|simpl; lia|lia].
Defined.

(** a string of printable characters that fits on one line of its area is
    drawn as its glyphs side by side, each cell completely painted, and nothing
    else changes. *)
Theorem lcd_show_string_exact `{Device} x y width height size p cs n s :
  let l := g_tft_lcd (gl s) in
  screen_ok l -> fits 32 (lcd_forecolor l) -> fits 32 (lcd_backcolor l) -> font_size size ->
  str_at (g_mem (gl s)) p cs -> Forall printable cs ->
  0 <= x -> x + size / 2 * Z.of_nat (length cs) <= lcd_width l ->
  0 <= y -> y + size < lcd_height l ->
  size / 2 * (Z.of_nat (length cs) - 1) < width -> 0 <= width -> x + width < 2 ^ 16 ->
  0 < height -> y + height < 2 ^ 16 -> (64 < n)%nat -> (length cs < n)%nat ->
  runs (lcd_show_string x y width height size p) n s (fun _ s' =>
    paints s s' (text_ink (lcd_forecolor l) (lcd_backcolor l) size x y cs)).
Proof. intros l Hl Hf Hb Hs Hstr Hpr Hx Hxw Hy Hyh H1 H2 H3 H4 H5 Hn1 Hn2. by eapply runs_show_string. Qed.

(** A screen of 40 by 30 points with the string "Hi" at address 100. *)
Definition text_screen : fw :=
  Fw [] (upd_mem (fun _ => list_to_map [(100, 72); (101, 105); (102, 0)]) (gl test_screen)).

Lemma lcd_show_string_exact_witness :
  runs (lcd_show_string 3 4 30 16 16 100) 65 text_screen (fun _ s' =>
    @paints reg_device text_screen s' (text_ink (lcd_forecolor (g_tft_lcd (gl text_screen)))
      (lcd_backcolor (g_tft_lcd (gl text_screen))) 16 3 4 [72; 105])).
Proof.
  apply (@lcd_show_string_exact reg_device 3 4 30 16 16 100 [72; 105] 65 text_screen);
    [apply test_screen_ok|unfold fits; simpl; lia|unfold fits; simpl; lia|unfold font_size; lia| |
     repeat constructor; unfold printable; lia|lia|cbv; congruence|lia|simpl; lia|cbv; congruence|lia|lia|
     lia|lia|lia|simpl; lia].
  split; [repeat constructor; lia|]. intros [|[|[|i]]] c Hi; simplify_eq/=; reflexivity.
Defined.

(** [lcd_show_num] shows a number in a field of up to ten characters: the last
    [len] decimal digits, leading zeros blank, painted exactly; a number that fits
    the field appears as its decimal numeral, right aligned. *)
Theorem lcd_show_num_exact `{Device} x y num (len : nat) size n s :
  let l := g_tft_lcd (gl s) in
  screen_ok l -> fits 32 (lcd_forecolor l) -> fits 32 (lcd_backcolor l) -> font_size size ->
  0 <= num -> (0 < len <= 10)%nat ->
  0 <= x -> x + size / 2 * Z.of_nat len <= lcd_width l ->
  0 <= y -> y + size < lcd_height l -> (256 < n)%nat ->
  runs (lcd_show_num x y num (Z.of_nat len) size) n s (fun _ s' =>
    paints s s' (text_ink (lcd_forecolor l) (lcd_backcolor l) size x y
                   (num_text (num mod 10 ^ Z.of_nat len) len)) /\
    forall d, decimal_text (num mod 10 ^ Z.of_nat len) d ->
      paints s s' (text_ink (lcd_forecolor l) (lcd_backcolor l) size x y
                     (replicate (len - length d) 32 ++ d))).
Proof.
  intros l Hl Hf Hb Hs Hnum Hlen Hx Hxw Hy Hyh Hn.
  apply (runs_show_num s size x y n Hl Hf Hb Hs Hx Hy Hyh Hn num len); [done|lia|done|].
  intros s' Hs'. split; [done|]. intros d Hd.
  rewrite <- (num_text_decimal (num mod 10 ^ Z.of_nat len) len d); [done|lia| |done]. apply Z.mod_pos_bound, Z.pow_pos_nonneg; lia.
Qed.

Lemma lcd_show_num_exact_witness :
  runs (lcd_show_num 3 4 70 (Z.of_nat 3) 16) 257 test_screen (fun _ s' =>
    @paints reg_device test_screen s' (text_ink (lcd_forecolor (g_tft_lcd (gl test_screen)))
      (lcd_backcolor (g_tft_lcd (gl test_screen))) 16 3 4 (num_text (70 mod 10 ^ Z.of_nat 3) 3)) /\
    forall d, decimal_text (70 mod 10 ^ Z.of_nat 3) d ->
      @paints reg_device test_screen s' (text_ink (lcd_forecolor (g_tft_lcd (gl test_screen)))
        (lcd_backcolor (g_tft_lcd (gl test_screen))) 16 3 4 (replicate (3 - length d) 32 ++ d))).
Proof.
  apply (@lcd_show_num_exact reg_device 3 4 70 3 16 257 test_screen);
    [apply test_screen_ok|unfold fits; simpl; lia|unfold fits; simpl; lia|unfold font_size; lia|lia|lia|lia|
     cbv; congruence|lia|simpl; lia|lia].
Defined.

(** A character whose cell reaches the last row of the screen loses all its
    columns but the first: on a screen of 30 rows the letter A of 16 points at
    row 14 leaves the dot of its fourth column, set at row 13, untouched. *)
Lemma lcd_show_char_last_row :
  match lcd_show_char 10 13 65 16 0 65%nat test_screen, lcd_show_char 10 14 65 16 0 65%nat test_screen with
  | Ret _ s1, Ret _ s2 =>
      glyph_bit 16 (glyph_of 16 65) 3 4 = true /\
      @pixel reg_device (gl s1) 13 17 = 7 /\ @pixel reg_device (gl s2) 13 18 = 0 /\
      @pixel reg_device (gl test_screen) 13 18 = 0
  | _, _ => False
  end.
Proof. vm_compute. repeat split; reflexivity. Qed.
