(* ===== verification/Main.v ===== *)
(** The program: baremetal/20_pwm/project/main.c, on top of all the drivers, and
    the functions behind the interrupt table. *)
From S2P Require Import Prelude Machine FwLogic Regs Gpio Delay Frame Clk Int Key Uart I2c Pwm.
From S2P Require Import Ctype CMem Div64 Vsprintf Format FormatInt Printf Gt9147 Lcd LcdInit Font LcdApi LcdText.

(** ** Operations *)
Section Operations.
Context `{Device} `{Layout}.

(** [buf] is the address of the local array of 200 bytes; negating the least
    [int32_t] is undefined. *)
Definition integer_display (buf x y size num : Z) : M unit :=
  l <- gets g_tft_lcd ;;
  lcd_fill x y (u16 (x + 50)) (u16 (y + size)) (lcd_backcolor l) ;;
  memset buf 0 200 ;;
  (if num <? 0 then
     (if num =? - 2 ^ 31 then undefined else sprintf buf (literal "-%d") [u32 (- num)])
   else sprintf buf (literal "%d") [u32 num]) ;;
  lcd_show_string x y 50 size size buf.

Definition decimals_display (buf x y size num : Z) : M unit :=
  if num =? - 2 ^ 31 then undefined
  else
    let uncomptemp := if num <? 0 then - num else num in
    let integ := Z.quot uncomptemp 100 in
    let fract := Z.rem uncomptemp 100 in
    memset buf 0 200 ;;
    (if num <? 0 then sprintf buf (literal "-%d.%d") [u32 integ; u32 fract]
     else sprintf buf (literal "%d.%d") [u32 integ; u32 fract]) ;;
    l <- gets g_tft_lcd ;;
    lcd_fill x y (u16 (x + 60)) (u16 (y + size)) (lcd_backcolor l) ;;
    lcd_show_string x y 60 size size buf.

Definition imx6ul_hardfpu_enable : M unit :=
  cpacr <- rd32 CP15_CPACR ;;
  let cpacr := (cpacr .\ ((1 << 31) .| (1 << 30))) .| (3 << 20) .| (3 << 22) in
  wr32 CP15_CPACR cpacr ;;
  fpexc <- rd32 VFP_FPEXC ;;
  let fpexc := fpexc .| 0x40000000 in
  wr32 VFP_FPEXC fpexc.

(** Lines 103 to 128: everything before the loop.  The result is the local
    [duty]; [jm] and [jv] are the uninitialised fields in [lcd_init]. *)
Definition main_init (jm : pin_irq_mode) (jv : Z) : M Z :=
  imx6ul_hardfpu_enable ;;
  int_init ;;
  clock_init ;;
  delay_init ;;
  clock_enable ;;
  led_init ;;
  uart_init ;;
  lcd_init jm jv ;;
  beep_init ;;
  backlight_init ;;
  modify (upd_tft_lcd (with_forecolor LCD_RED)) ;;
  lcd_show_string 30 10 400 24 24 (literal "ALPHA-IMX6UL Back Light TEST") ;;
  lcd_show_string 50 90 400 16 16 (literal "PWM Duty:     ") ;;
  modify (upd_tft_lcd (with_forecolor LCD_BLUE)) ;;
  l <- gets g_tft_lcd ;;
  let duty := if lcd_id l =? ATKVGA then 100 else 10 in
  lcd_show_num (50 + 72) 90 duty 3 16 ;;
  pwm1_set_duty duty ;;
  ret duty.

(** The variables of the loop: [duty], [i] and the static [led_state]. *)
Record main_vars := MainVars { mv_duty : Z; mv_i : Z; mv_led : Z }.

(** The body of the loop, lines 132 to 151. *)
Definition main_round (x : main_vars) : M main_vars :=
  key_val <- key_get_val ;;
  duty <- (if key_val =? KEY0_VAL then
             let duty := u8 (mv_duty x + 10) in
             let duty := if 100 <? duty then 10 else duty in
             lcd_show_num (50 + 72) 90 duty 3 16 ;;
             pwm1_set_duty duty ;;
             ret duty
           else ret (mv_duty x)) ;;
  delay_ms 10 ;;
  let i := u8 (mv_i x + 1) in
  if i =? 50 then
    let led_state := lnot (mv_led x) in
    led_switch LED0 led_state ;;
    ret (MainVars duty 0 led_state)
  else ret (MainVars duty i (mv_led x)).

Definition main (jm : pin_irq_mode) (jv : Z) : M Z :=
  duty <- main_init jm jv ;;
  iter (fun x => x' <- main_round x ;; ret (inl x')) (MainVars duty 0 ACT_OFF).
End Operations.

(** ** The interrupt handlers of the firmware

    The functions the table can hold; [junk] is what the touch driver's local
    array holds on entry. *)
Definition firmware_handlers `{Device} (junk : list Z) : Handlers := fun h irq o =>
  match h with
  | default_irq_handler => default_irq_handler_body
  | gpio1_io18_irq_handler => gpio1_io18_irq_handler_body
  | epit1_irq_handler => epit1_irq_handler_body
  | key_filter_timer_irq_handler => key_filter_timer_irq_handler_body
  | gpio1_16_31_irq_handler => gpio1_16_31_irq_handler_body
  | pwm1_irq_handler => pwm1_irq_handler_body
  | gt9147_irqhandler => gt9147_irqhandler_body junk
  end.

Global Instance firmware_default `{Device} junk : @DefaultHandler (firmware_handlers junk).
Proof. done. Qed.

(** ** What the screen and the backlight show *)

Definition title : String.string := "ALPHA-IMX6UL Back Light TEST"%string.
Definition label : String.string := "PWM Duty:     "%string.

(** Two lines of text, and the duty in the field after the second. *)
Definition home_text (u v : Z) : option Z :=
  over (text_ink LCD_RED LCD_WHITE 16 50 90 (chars label))
       (text_ink LCD_RED LCD_WHITE 24 30 10 (chars title)) u v.
Definition home (duty u v : Z) : option Z :=
  over (text_ink LCD_BLUE LCD_WHITE 16 122 90 (num_text duty 3)) home_text u v.

(** The ten levels of the backlight, in percent. *)
Definition level (k : Z) : Z := 10 * (k mod 10 + 1).

Definition main_lcd (id : Z) : tft_lcd_t := with_forecolor LCD_BLUE (panel_lcd id).

Section Invariant.
Context `{Device} (id : Z).

(** Between two rounds of the loop: [duty] is one of the levels, the PWM runs
    with it (period of 1000 ticks, the last sample written, the value the
    interrupt handler reuses), its handler is installed, and the screen shows
    the two lines and the duty on white. *)
Record main_inv (s : fw) (x : main_vars) : Prop := {
  inv_duty : exists k, mv_duty x = level k;
  inv_i : 0 <= mv_i x < 50;
  inv_lcd : g_tft_lcd (gl s) = main_lcd id;
  inv_table : table_ok (gl s);
  inv_handler : installed (gl s) PWM1_IRQn pwm1_irq_handler 0;
  inv_bl : g_bl_duty (gl s) = mv_duty x;
  inv_period : period_of (tr s) = 1000;
  inv_sample : exists l, outs PWM1_PWMSAR (tr s) = l ++ [10 * mv_duty x];
  inv_screen : forall u v, on_screen (main_lcd id) u v ->
    pixel (gl s) u v = default LCD_WHITE (home (mv_duty x) u v)
}.
End Invariant.

Lemma level_range k : 10 <= level k <= 100.
Proof. unfold level. pose proof (Z.mod_pos_bound k 10 ltac:(lia)). lia. Qed.

(** One press moves to the next level, and from the last to the first. *)
Lemma level_next k :
  (if 100 <? u8 (level k + 10) then 10 else u8 (level k + 10)) = level (k + 1).
Proof.
  pose proof (level_range k). rewrite u8_small by lia. unfold level.
  rewrite <- (Z.add_mod_idemp_l k 1 10) by lia. pose proof (Z.mod_pos_bound k 10 ltac:(lia)).
  destruct (Z.ltb_spec 100 (10 * (k mod 10 + 1) + 10)).
  - assert (k mod 10 = 9) as -> by lia. done.
  - rewrite (Z.mod_small (k mod 10 + 1)) by lia. lia.
Qed.

(** The screens a panel gives are large enough for the texts. *)
Lemma main_screen id : id ∈ panel_ids -> id <> ATKUNKNOWN ->
  screen_ok (main_lcd id) /\ 481 <= lcd_width (main_lcd id) /\ 272 <= lcd_height (main_lcd id).
Proof.
  intros Hid. by_panel id Hid; intros Hne; try done; unfold screen_ok; cbv; repeat split; discriminate.
Qed.

(** A new number covers the old one. *)
Lemma home_repaint d d' u v :
  over (text_ink LCD_BLUE LCD_WHITE 16 122 90 (num_text d' 3)) (home d) u v = home d' u v.
Proof.
  unfold home, over, text_ink. cbn [length fmap list_fmap seq num_text].
  by destruct ((122 <=? u) && _ && _ && _).
Qed.

Section Rounds.
Context `{Ticks} (id : Z) (n : nat).
Context (Hid : id ∈ panel_ids) (Hknown : id <> ATKUNKNOWN).
Context (Hpr : storage PWM1_PWMPR) (Hn : (0x7FF < n)%nat) (Hm : (2001 * S m + m < n)%nat).

Abbreviation inv := (main_inv id).

(** Writes that do not concern the PWM. *)
Lemma inv_trace s x t :
  inv s x -> regval t PWM1_PWMPR = regval (tr s) PWM1_PWMPR ->
  outs PWM1_PWMSAR t = outs PWM1_PWMSAR (tr s) -> inv (Fw t (gl s)) x.
Proof.
  intros [] Hp Ho. constructor; cbn [tr gl]; try done.
  - unfold period_of in *. by rewrite Hp.
  - by rewrite Ho.
Qed.

(** Lines 127 to 128, and 139 to 140: a duty on the screen and in the PWM. *)
Lemma runs_show_duty s d (Q : Z -> fw -> Prop) :
  g_tft_lcd (gl s) = main_lcd id -> period_of (tr s) = 1000 -> 10 <= d <= 100 ->
  (forall t w, outs PWM1_PWMSAR t = outs PWM1_PWMSAR (tr s) ++ [10 * d] ->
     (forall r, r <> PWM1_PWMSAR -> regval t r = regval (tr s) r) ->
     (forall u v, on_screen (main_lcd id) u v -> pixel (upd_dram (fun _ => w) (gl s)) u v =
        default (pixel (gl s) u v) (text_ink LCD_BLUE LCD_WHITE 16 122 90 (num_text d 3) u v)) ->
     Q d (Fw t (upd_bl_duty d (upd_dram (fun _ => w) (gl s))))) ->
  runs (lcd_show_num (50 + 72) 90 d 3 16 ;; pwm1_set_duty d ;; ret d) n s Q.
Proof.
  intros El Hper Hr HQ. destruct (main_screen id Hid Hknown) as (Hok & Hw & Hh).
  apply runs_bind, (runs_show_num s 16 122 90 n) with (num := d) (len := 3%nat);
    rewrite ?El; try done; try (unfold font_size; lia); try (cbn; lia).
  { change (16 / 2) with 8. lia. }
  intros s1 Hp1. pose proof Hp1 as (Ht1 & (w & Hg1) & Hpix & _).
  apply runs_bind, runs_set_duty; [done|lia|rewrite Ht1; lia|].
  intros t Ho Hf. apply runs_ret. rewrite Ht1 in Ho, Hf. rewrite Hg1. apply HQ; [|done|].
  - rewrite Ho, Hper. do 2 f_equal. replace (1000 * d) with (10 * d * 100) by lia. apply Z.div_mul. lia.
  - intros u v Huv. rewrite El in Hpix. specialize (Hpix u v Huv). rewrite Hg1 in Hpix. rewrite Hpix.
    change (10 ^ Z.of_nat 3) with 1000. by rewrite Z.mod_small by lia.
Qed.

(** The branch of line 133. *)
Lemma runs_next_duty s x d (Q : Z -> fw -> Prop) :
  inv s x -> (exists k, d = level k) ->
  (forall s', inv s' (MainVars d (mv_i x) (mv_led x)) -> Q d s') ->
  runs (lcd_show_num (50 + 72) 90 d 3 16 ;; pwm1_set_duty d ;; ret d) n s Q.
Proof.
  intros [] [k Hd] HQ. pose proof (level_range k) as Hr. rewrite <- Hd in Hr.
  apply runs_show_duty; [done|done|done|]. intros t w Ho Hf Hpix. apply HQ.
  constructor; cbn [tr gl mv_duty mv_i mv_led]; try done.
  - by exists k.
  - unfold period_of in *. by rewrite Hf.
  - by exists (outs PWM1_PWMSAR (tr s)).
  - intros u v Huv. specialize (Hpix u v Huv).
    change (pixel (upd_bl_duty d (upd_dram (fun _ => w) (gl s))) u v)
      with (pixel (upd_dram (fun _ => w) (gl s)) u v). rewrite Hpix.
    rewrite <- (home_repaint (mv_duty x) d), inv_screen0 by done. unfold over.
    by destruct (text_ink LCD_BLUE LCD_WHITE 16 122 90 (num_text d 3) u v).
Qed.

Lemma runs_led led a s (Q : unit -> fw -> Prop) :
  (forall t, regval t PWM1_PWMPR = regval (tr s) PWM1_PWMPR ->
     outs PWM1_PWMSAR t = outs PWM1_PWMSAR (tr s) -> Q tt (Fw t (gl s))) ->
  runs (led_switch led a) n s Q.
Proof.
  intros HQ. unfold led_switch. destruct (led =? LED0); [destruct (a =? ACT_ON)|].
  - unfold led_on. fw_steps. apply HQ; [reg_frame|by io_simpl].
  - unfold led_off. fw_steps. apply HQ; [reg_frame|by io_simpl].
  - apply runs_ret. destruct s. by apply HQ.
Qed.

(** The rest of the round, from line 144. *)
Lemma runs_round_end s x (Q : main_vars -> fw -> Prop) :
  inv s x -> (forall s' x', inv s' x' -> mv_duty x' = mv_duty x -> Q x' s') ->
  runs (delay_ms 10 ;;
        let i := u8 (mv_i x + 1) in
        if i =? 50 then
          let led_state := lnot (mv_led x) in
          led_switch LED0 led_state ;;
          ret (MainVars (mv_duty x) 0 led_state)
        else ret (MainVars (mv_duty x) i (mv_led x))) n s Q.
Proof.
  intros Hi HQ. apply runs_bind, runs_delay_ms; [lia|done|]. intros l Hl _. cbv zeta.
  assert (inv (Fw (l ++ tr s) (gl s)) x) as Hi'.
  { apply (inv_trace _ _ _ Hi); [apply regval_app_rd; eauto with fwdb|].
    by rewrite outs_app_rd by eauto with fwdb. }
  pose proof (inv_i _ _ _ Hi) as Hr. rewrite u8_small by lia.
  assert (forall s' i led, inv s' x -> 0 <= i < 50 -> Q (MainVars (mv_duty x) i led) s') as HQ'.
  { intros s' i led [] Hi50. apply HQ; [constructor; done|done]. }
  destruct (Z.eqb_spec (mv_i x + 1) 50).
  - apply runs_bind, runs_led. cbn [tr gl]. intros t Hp Ho. apply runs_ret, HQ'; [|lia].
    by apply (inv_trace _ _ _ Hi').
  - apply runs_ret, HQ'; [done|lia].
Qed.

(** One round keeps the invariant, and the level moves on exactly at a press. *)
Lemma runs_main_round s x k (Q : main_vars -> fw -> Prop) :
  inv s x -> mv_duty x = level k ->
  (forall s' x', inv s' x' -> mv_duty x' = level (if pressed (tr s) then k + 1 else k) -> Q x' s') ->
  runs (main_round x) n s Q.
Proof.
  intros Hi Hk HQ. unfold main_round. apply runs_bind, runs_key_get_val; [done|].
  assert (inv (Fw (button_read (button_read (tr s))) (gl s)) x) as Hi'.
  { apply (inv_trace _ _ _ Hi); [unfold button_read; by rewrite !regval_rd|done]. }
  destruct (pressed (tr s)); cbn [Z.eqb KEY0_VAL KEY_NONE Pos.eqb]; cbv zeta.
  - rewrite Hk, level_next. apply runs_bind, (runs_next_duty _ x); [done|by exists (k + 1)|].
    intros s' Hs'. apply (runs_round_end s' (MainVars (level (k + 1)) (mv_i x) (mv_led x))); [done|].
    intros s'' x' Hx' Hd. by apply HQ.
  - apply runs_bind, runs_ret. apply (runs_round_end _ x); [done|].
    intros s'' x' Hx' Hd. apply HQ; [done|congruence].
Qed.

(** The PWM's interrupt between two rounds refills the FIFO with the same sample. *)
Lemma runs_pwm_irq junk iar s x (Q : unit -> fw -> Prop) :
  inv s x -> 0 <= iar -> iar .& 0x3FF = PWM1_IRQn ->
  (forall s', inv s' x -> Q tt s') ->
  runs (@sys_irq_handler (firmware_handlers junk) iar) n s Q.
Proof.
  intros Hi Hiar Hno HQ. pose proof Hi as [[k Hk] ? ? ? ? ? ? [l0 Hl0] ?].
  apply (@runs_dispatch (firmware_handlers junk) iar pwm1_irq_handler 0);
    rewrite ?Hno; [done|unfold PWM1_IRQn; lia|done|done|].
  cbn [call_handler firmware_handlers]. unfold pwm1_irq_handler_body.
  apply runs_bind, runs_rd32. cbv zeta. cbn [tr gl].
  set (g1 := upd_irq_count _ _). set (v := u32 _).
  assert (forall t, regval t PWM1_PWMPR = regval (tr s) PWM1_PWMPR ->
    (exists l, outs PWM1_PWMSAR t = l ++ [10 * mv_duty x]) ->
    inv (Fw t (upd_irq_count (g_irq_count (gl s)) (upd_bl_duty (mv_duty x) g1))) x) as Hinv.
  { intros t Hp Ho. destruct Hi. constructor; cbn [tr gl]; try done.
    unfold period_of in *. by rewrite Hp. }
  assert (g_bl_duty g1 = mv_duty x) as Hd1 by done.
  destruct (truthy (v .& (1 << 3))).
  - apply runs_bind, runs_gets. cbn [gl]. rewrite Hd1. pose proof (level_range k).
    apply runs_bind, runs_set_duty; [done|lia|unfold period_of in *; cbn [tr]; rewrite regval_rd; lia|].
    cbn [tr gl]. intros t Ho Hf. fw_steps. split; [done|]. apply HQ, Hinv.
    + rewrite regval_wr_ne, regval_rd, Hf, regval_rd by done. done.
    + exists (outs PWM1_PWMSAR (tr s)). io_simpl. rewrite Ho, outs_rd. do 2 f_equal.
      unfold period_of in *. rewrite regval_rd, inv_period0.
      replace (1000 * mv_duty x) with (10 * mv_duty x * 100) by lia. apply Z.div_mul. lia.
  - apply runs_ret. split; [done|]. apply HQ. cbn [tr gl].
    replace g1 with (upd_bl_duty (mv_duty x) g1) by (rewrite <- Hd1; by destruct g1).
    apply Hinv; [by rewrite regval_rd|]. exists l0. by rewrite outs_rd.
Qed.
End Rounds.

(** ** Starting up *)

(** A board the program runs on: the identification pins name a known panel, the
    interrupt controller is where the core expects it, clock switch, timer reset
    and UART reset complete within [k] polls, and the configuration registers of
    UART, PWM and LCD controller hold what is written to them. *)
Class Board `{Device} (id : Z) (k : nat) : Prop := {
  board_panel : identifies id;
  board_known : id <> ATKUNKNOWN;
  board_gic : gic_placed;
  board_clock : responsive k u32 CCM_CDHIPR (fun v => negb (truthy (v .& (1 << 5))));
  board_timer : responsive k u32 GPT1_CR (fun v => negb (truthy (v .& 0x00008000)));
  board_uart : responsive k u32 (UART_UCR2 UART1) (fun v => truthy (v .& 0x00000001));
  board_storage : Forall storage
    [UART_UFCR UART1; UART_UCR1 UART1; UART_UCR3 UART1; PWM1_PWMPR; PWM1_PWMCR];
  board_lcdif : forall a, 0x21C8000 <= a <= 0x21C80B0 -> storage a
}.

Section Start.
Context `{Ticks} `{Layout} (id : Z) (k n : nat) {Hboard : Board id k}.
Context (Hn : 1049088 < Z.of_nat n) (Hm : (2001 * S m + m < n)%nat) (Hk : (k < n)%nat).

Lemma keeps_fpu : keeps n imx6ul_hardfpu_enable.
Proof. unfold imx6ul_hardfpu_enable. keeps_tac. Qed.
Lemma keeps_clock_init : keeps n clock_init.
Proof.
  unfold clock_init, clock_init_arm, clock_init_pfd, clock_init_bus. keeps_tac.
  apply (keeps_poll32 _ _ _ k); [apply board_clock|done].
Qed.
Lemma keeps_delay_init : keeps n delay_init.
Proof.
  unfold delay_init. keeps_tac. apply (keeps_poll32 _ _ _ k); [apply board_timer|done].
Qed.
Lemma keeps_clock_enable : keeps n clock_enable.
Proof. unfold clock_enable. keeps_tac. Qed.
Lemma keeps_led_init : keeps n led_init.
Proof. unfold led_init, led_off. keeps_tac. Qed.
Lemma keeps_beep_init : keeps n beep_init.
Proof. unfold beep_init, beep_off. keeps_tac. Qed.

Lemma board_listed : id ∈ panel_ids.
Proof. rewrite <- (board_panel [] [] []). apply panel_of_id. Qed.

(** A line of text in the colours of the screen. *)
Lemma runs_text_line s text p x y width size (Q : unit -> fw -> Prop) :
  let l := g_tft_lcd (gl s) in
  screen_ok l -> fits 32 (lcd_forecolor l) -> fits 32 (lcd_backcolor l) -> font_size size ->
  str_at (g_mem (gl s)) p text -> forallb (fun c => (32 <=? c) && (c <=? 126)) text = true ->
  0 <= x -> 0 <= y -> x + width < 2 ^ 16 -> y + size < lcd_height l ->
  x + size / 2 * Z.of_nat (length text) <= lcd_width l ->
  size / 2 * Z.of_nat (length text) <= width -> (length text < 100)%nat ->
  (forall s', paints s s' (text_ink (lcd_forecolor l) (lcd_backcolor l) size x y text) -> Q tt s') ->
  runs (lcd_show_string x y width size size p) n s Q.
Proof.
  intros l Hl Hf Hb Hs Hp Hpr Hx Hy Hw16 Hh Hw Hwd Hlen HQ.
  destruct (size_facts size Hs) as (_ & _ & Hsz & _ & H2). pose proof Hl as (_ & _ & Hlh & _).
  apply (runs_show_string s size x y n Hl Hf Hb Hs Hx Hy Hh) with (cs := text); try done; try lia.
  apply Forall_forall. intros c Hc. rewrite forallb_forall in Hpr.
  specialize (Hpr c Hc). unfold printable. lia.
Qed.

(** Lines 116 to 119: the texts of the home screen. *)
Lemma runs_home {A} (rest : M A) s (Q : A -> fw -> Prop) :
  g_tft_lcd (gl s) = panel_lcd id ->
  str_at (g_mem (gl s)) (literal title) (chars title) ->
  str_at (g_mem (gl s)) (literal label) (chars label) ->
  (forall u v, on_screen (main_lcd id) u v -> pixel (gl s) u v = LCD_WHITE) ->
  (forall w, let g := upd_dram (fun _ => w) (upd_tft_lcd (fun _ => main_lcd id) (gl s)) in
     (forall u v, on_screen (main_lcd id) u v -> pixel g u v = default LCD_WHITE (home_text u v)) ->
     runs rest n (Fw (tr s) g) Q) ->
  runs (modify (upd_tft_lcd (with_forecolor LCD_RED)) ;;
        lcd_show_string 30 10 400 24 24 (literal title) ;;
        lcd_show_string 50 90 400 16 16 (literal label) ;;
        modify (upd_tft_lcd (with_forecolor LCD_BLUE)) ;; rest) n s Q.
Proof.
  intros El Ht Hlb Hwhite HQ. destruct (main_screen id board_listed board_known) as (Hok & Hw & Hh).
  assert (forall c, screen_ok (with_forecolor c (panel_lcd id))) as Hok' by (intros c; exact Hok).
  assert (481 <= lcd_width (with_forecolor LCD_RED (panel_lcd id))) as Hw1 by exact Hw.
  assert (272 <= lcd_height (with_forecolor LCD_RED (panel_lcd id))) as Hh1 by exact Hh.
  assert (24 / 2 * Z.of_nat (length (chars title)) = 336) as Hl1 by done.
  assert (16 / 2 * Z.of_nat (length (chars label)) = 112) as Hl2 by done.
  apply runs_bind, runs_modify.
  apply runs_bind, (runs_text_line _ (chars title)); cbn [gl g_tft_lcd upd_tft_lcd g_mem]; rewrite ?El;
    try done; try lia; try (unfold font_size; lia); try (unfold fits; cbn; lia).
  intros s1 (Ht1 & (w1 & Hg1) & Hp1 & _). cbn [tr gl g_tft_lcd upd_tft_lcd] in Ht1, Hg1, Hp1.
  rewrite El in Hp1.
  apply runs_bind, (runs_text_line _ (chars label)); rewrite ?Hg1; cbn [g_tft_lcd upd_tft_lcd upd_dram g_mem];
    rewrite ?El; try done; try lia; try (unfold font_size; lia); try (unfold fits; cbn; lia).
  intros [t2 g2] (Ht2 & (w2 & Hg2) & Hp2 & _). cbn [tr gl] in Ht2, Hg2, Hp2. rewrite Hg1 in Hg2, Hp2.
  cbn [g_tft_lcd upd_tft_lcd upd_dram] in Hp2. rewrite El in Hp2. subst t2 g2.
  apply runs_bind, runs_modify. cbn [tr gl]. rewrite Ht1.
  match goal with |- context [upd_tft_lcd (with_forecolor LCD_BLUE) ?g] =>
    replace (upd_tft_lcd (with_forecolor LCD_BLUE) g)
      with (upd_dram (fun _ => w2) (upd_tft_lcd (fun _ => main_lcd id) (gl s)))
      by (unfold upd_tft_lcd, upd_dram; cbn; by rewrite El) end.
  apply HQ. intros u v Huv. specialize (Hwhite u v Huv). specialize (Hp1 u v Huv). specialize (Hp2 u v Huv).
  unfold pixel in *. rewrite Hg1 in Hp1. cbn [g_tft_lcd upd_tft_lcd upd_dram] in *. rewrite El in *.
  change (dram_word (gl s) (pixel_addr (panel_lcd id) u v)) with
    (dram_word (upd_tft_lcd (with_forecolor LCD_RED) (gl s))
       (pixel_addr (with_forecolor LCD_RED (panel_lcd id)) u v)) in Hwhite.
  rewrite Hwhite in Hp1. rewrite Hp1 in Hp2. etransitivity; [exact Hp2|]. unfold home_text, over.
  change (lcd_forecolor _) with LCD_RED. change (lcd_backcolor _) with LCD_WHITE.
  destruct (text_ink LCD_RED LCD_WHITE 16 50 90 (chars label) u v); [done|].
  by destruct (text_ink LCD_RED LCD_WHITE 24 30 10 (chars title) u v).
Qed.

(** A step of the sequence that only accesses registers. *)
Ltac keep H := apply (runs_keeps _ _ _ _ _ H).

Lemma runs_main_init jm jv s (Q : Z -> fw -> Prop) :
  length (g_irq_table (gl s)) = 160%nat -> g_tft_lcd (gl s) = tft_lcd0 ->
  str_at (g_mem (gl s)) (literal title) (chars title) ->
  str_at (g_mem (gl s)) (literal label) (chars label) ->
  (forall s' duty, duty = (if id =? ATKVGA then 100 else 10) ->
     main_inv id s' (MainVars duty 0 ACT_OFF) -> Q duty s') ->
  runs (main_init jm jv) n s Q.
Proof.
  intros Htab El Ht Hlb HQ. unfold main_init.
  pose proof board_storage as Hst. rewrite !list.Forall_cons in Hst.
  destruct Hst as (Hs1 & Hs2 & Hs3 & Hpr & Hcr & _).
  keep keeps_fpu. intros _ t1.
  apply runs_bind. unfold int_init. apply runs_bind, runs_gic_init. cbn [gl]. intros t2.
  apply runs_bind, runs_irq_table_init; [done|]. cbn [tr gl]. intros g Hok Hc _ Hg. fw_step.
  keep keeps_clock_init. cbn [gl]. intros _ t3.
  keep keeps_delay_init. cbn [gl]. intros _ t4.
  keep keeps_clock_enable. cbn [gl]. intros _ t5.
  keep keeps_led_init. cbn [gl]. intros _ t6.
  apply runs_bind, (runs_uart_init k); [done|done|done|apply board_uart|done|lia|]. cbn [gl]. intros t7 _.
  destruct Hg as (c & table & ->).
  apply runs_bind, runs_lcd_init; [apply board_lcdif|done|done|done|]. cbn [gl].
  intros id' t8 w Hid' Hsame _ Hwhite. pose proof (Hsame id board_panel) as ->.
  keep keeps_beep_init. cbn [gl]. intros _ t9.
  apply runs_bind, runs_backlight_init; [done|done|apply board_gic|done|]. cbn [tr gl].
  intros t10 _ Hper _.
  apply runs_home; cbn [gl tr]; [done|done|done|exact Hwhite|]. cbn [tr gl]. intros w2 Hpix.
  apply runs_bind, runs_gets. cbn [gl g_tft_lcd upd_dram upd_tft_lcd].
  change (lcd_id (main_lcd id)) with id. cbv zeta. set (duty := if id =? ATKVGA then 100 else 10).
  assert (exists k, duty = level k) as [lv Hlv].
  { unfold duty. destruct (id =? ATKVGA); [by exists 9|by exists 0]. }
  assert (10 <= duty <= 100) by (rewrite Hlv; apply level_range).
  apply (runs_show_duty (m := m) id n board_listed board_known Hpr); [lia|done|done|unfold period_of in *; cbn [tr]; by rewrite regval_wr_ne|done|].
  cbn [tr gl]. intros t11 w3 Ho Hf Hp3. apply (HQ _ duty eq_refl).
  constructor; cbn [tr gl mv_duty mv_i mv_led]; try done.
  - by exists lv.
  - by apply (registered_ok PWM1_IRQn pwm1_irq_handler 0).
  - apply (registered_installed PWM1_IRQn pwm1_irq_handler 0); [done|unfold PWM1_IRQn; lia].
  - unfold period_of in *. rewrite Hf, regval_wr_ne by done. done.
  - by eexists.
  - intros u v Huv. specialize (Hp3 u v Huv). etransitivity; [exact Hp3|].
    rewrite Hpix by done. unfold home, over.
    by destruct (text_ink LCD_BLUE LCD_WHITE 16 122 90 (num_text duty 3) u v).
Qed.
End Start.

(** ** Rounds and interrupts *)
Inductive main_event :=
  | Round (press : bool)
  | PwmIrq (iar : Z).

(** The states the loop goes through, with the PWM's interrupt taken between any
    two rounds. *)
Inductive reaches `{Device} (n : nat) (junk : list Z) (s0 : fw) (x0 : main_vars)
    : list main_event -> fw -> main_vars -> Prop :=
  | reaches_start : reaches n junk s0 x0 [] s0 x0
  | reaches_round es s x s' x' :
      reaches n junk s0 x0 es s x -> main_round x n s = Ret x' s' ->
      reaches n junk s0 x0 (es ++ [Round (pressed (tr s))]) s' x'
  | reaches_irq es s x iar s' :
      reaches n junk s0 x0 es s x -> 0 <= iar -> iar .& 0x3FF = PWM1_IRQn ->
      @sys_irq_handler (firmware_handlers junk) iar n s = Ret tt s' ->
      reaches n junk s0 x0 (es ++ [PwmIrq iar]) s' x.

Fixpoint presses (es : list main_event) : Z :=
  match es with
  | [] => 0
  | Round true :: es => 1 + presses es
  | _ :: es => presses es
  end.

Lemma presses_snoc es e :
  presses (es ++ [e]) = presses es + match e with Round true => 1 | _ => 0 end.
Proof. induction es as [|[[]|] es IH]; simpl; try rewrite IH; destruct e as [[]|]; lia. Qed.

Lemma runs_ret_inv {A} (m : M A) n s a s' (Q : A -> fw -> Prop) :
  runs m n s Q -> m n s = Ret a s' -> Q a s'.
Proof. unfold runs. intros Hr E. by rewrite E in Hr. Qed.

(** A board with a 4.3 inch panel of 480 by 272 points, and the button held down. *)
Definition board_device : Device :=
  sim_device (fun _ => 0) (fun a =>
    if a =? GPT1_CNT then Some (fun t => (2 ^ 32 - 2 + 3 * cnt_read_count t) mod 2 ^ 32)
    else if a =? UART_UCR2 UART1 then Some (fun _ => 1)
    else if a =? CP15_CBAR then Some (fun _ => 0xA00000)
    else if (a =? GPIO_DR GPIO1) || (a =? GPIO_DR GPIO3) then Some (fun _ => 0)
    else if a =? GPT1_CR then Some (fun _ => 0)
    else if a =? CCM_CDHIPR then Some (fun _ => 0)
    else None).
Definition board_ticks : @Ticks board_device 1.
Proof. by apply sim_ticks. Defined.
Definition board_4342 : @Board board_device ATK4342 0.
Proof.
  constructor; [done|done|done|..].
  1-3: intros t; by left.
  - repeat (constructor; [by apply storage_sim|]). constructor.
  - intros a Ha. apply storage_sim. unfold GPT1_CNT, UART_UCR2, UART1, CP15_CBAR, GPIO_DR, GPIO1, GPIO3, GPT1_CR, CCM_CDHIPR.
    repeat case_match; try lia; done.
Defined.

(** The two literals at addresses 1000 and 1100. *)
Definition board_layout : Layout :=
  {| g_pcOutBuf := 2000; g_pcInBuf := 3000;
     literal := fun t => if String.eqb t title then 1000 else 1100 |}.
Definition place (a : Z) (text : list Z) : list (Z * Z) :=
  zip (seqZ a (Z.of_nat (length text) + 1)) (text ++ [0]).
Definition board_state : fw :=
  Fw [] (upd_mem (fun _ => list_to_map (place 1000 (chars title) ++ place 1100 (chars label))) globals0).

Lemma board_title : str_at (g_mem (gl board_state)) (@literal board_layout title) (chars title).
Proof. split; [repeat constructor; cbn; lia|]. repeat (apply bytes_at_cons; split; [reflexivity|]). done. Qed.
Lemma board_label : str_at (g_mem (gl board_state)) (@literal board_layout label) (chars label).
Proof. split; [repeat constructor; cbn; lia|]. repeat (apply bytes_at_cons; split; [reflexivity|]). done. Qed.

Lemma board_starts : exists s0, @main_inv board_device ATK4342 s0 (MainVars 10 0 ACT_OFF).
Proof.
  assert (@runs Z (@main_init board_device board_layout IRQ_MODE_NONE 0) (Z.to_nat 1100000) board_state
    (fun d s => d = 10 /\ @main_inv board_device ATK4342 s (MainVars d 0 ACT_OFF))) as Hr.
  { apply (@runs_main_init board_device 1 board_ticks board_layout ATK4342 0 (Z.to_nat 1100000) board_4342);
      try apply board_title; try apply board_label; try done; lia. }
  apply runs_inv in Hr as (d & s & _ & -> & Hi). by exists s.
Qed.

(** [decimals_display] does not pad the fraction: 51.03 appears as 51.3. *)
Definition decimal_layout : Layout :=
  {| g_pcOutBuf := 2000; g_pcInBuf := 3000; literal := fun _ => 1000 |}.
Definition decimal_state : fw :=
  Fw [] (upd_mem (fun _ => list_to_map
             (place 1000 (chars "%d.%d"%string) ++ place 5000 (replicate 199 0)))
           (upd_tft_lcd (fun _ => panel_lcd ATK4342) globals0)).

Lemma decimals_display_unpadded :
  match @decimals_display decimal_layout 5000 10 10 16 5103 300%nat decimal_state with
  | Ret _ s => (fun i => g_mem (gl s) !! (5000 + i)) <$> seqZ 0 5
  | _ => []
  end = Some <$> (chars "51.3"%string ++ [0]).
Proof. vm_compute. reflexivity. Qed.

(** ** Properties *)






