(* ===== verification/Lmb.v ===== *)
(** U-Boot's logical memory blocks: uboot/lib/lmb.c and include/lmb.h, as built
    for this board ([unsigned long], [phys_addr_t] and [phys_size_t] have 32
    bits).

    The boot loader keeps two tables of at most eight regions, the memory and the
    part of it that is reserved, and allocates the memory the kernel, its device
    tree and its ramdisk are moved to.  A table is the C structure: a count and
    an array of nine entries.  The functions return [None] where the C code
    accesses the array outside its bounds. *)
From S2P Require Import Prelude.

(** ** Data *)
Record lmb_property := Region { p_base : Z; p_size : Z }.
Record lmb_region := Table { r_cnt : Z; r_size : Z; r_region : list lmb_property }.
Record lmb := Lmb { l_memory : lmb_region; l_reserved : lmb_region }.

Definition MAX_LMB_REGIONS : Z := 8.
Definition LMB_ALLOC_ANYWHERE : Z := 0.

Definition with_cnt (c : Z) (r : lmb_region) : lmb_region := Table c (r_size r) (r_region r).
Definition with_reserved (r : lmb_region) (l : lmb) : lmb := Lmb (l_memory l) r.

(** [rgn->region[i]] and an assignment to it. *)
Definition entry (r : lmb_region) (i : Z) : option lmb_property :=
  if 0 <=? i then r_region r !! Z.to_nat i else None.
Definition set_entry (r : lmb_region) (i : Z) (p : lmb_property) : option lmb_region :=
  if (0 <=? i) && (i <? Z.of_nat (length (r_region r)))
  then Some (Table (r_cnt r) (r_size r) (<[Z.to_nat i := p]> (r_region r))) else None.

(** ** Operations *)
Definition lmb_addrs_overlap (base1 size1 base2 size2 : Z) : bool :=
  (base1 <? u32 (base2 + size2)) && (base2 <? u32 (base1 + size1)).

Definition lmb_addrs_adjacent (base1 size1 base2 size2 : Z) : Z :=
  if base2 =? u32 (base1 + size1) then 1
  else if base1 =? u32 (base2 + size2) then -1
  else 0.

Definition lmb_regions_adjacent (rgn : lmb_region) (r1 r2 : Z) : option Z :=
  p1 ← entry rgn r1; p2 ← entry rgn r2;
  Some (lmb_addrs_adjacent (p_base p1) (p_size p1) (p_base p2) (p_size p2)).

(** The loops over a table read an entry in every round, so ten rounds are more
    than the array of nine entries allows. *)
Definition rounds : nat := 10.

Fixpoint remove_loop (n : nat) (rgn : lmb_region) (i : Z) : option lmb_region :=
  match n with
  | O => None
  | S n =>
      if i <? u32 (r_cnt rgn - 1) then
        p ← entry rgn (i + 1); rgn ← set_entry rgn i p; remove_loop n rgn (i + 1)
      else Some rgn
  end.
Definition lmb_remove_region (rgn : lmb_region) (r : Z) : option lmb_region :=
  rgn ← remove_loop rounds rgn r; Some (with_cnt (u32 (r_cnt rgn - 1)) rgn).

Definition lmb_coalesce_regions (rgn : lmb_region) (r1 r2 : Z) : option lmb_region :=
  p1 ← entry rgn r1; p2 ← entry rgn r2;
  rgn ← set_entry rgn r1 (Region (p_base p1) (u32 (p_size p1 + p_size p2)));
  lmb_remove_region rgn r2.

Definition init_region (rgn : lmb_region) : option lmb_region :=
  rgn ← set_entry rgn 0 (Region 0 0); Some (Table 1 0 (r_region rgn)).
Definition lmb_init (l : lmb) : option lmb :=
  m ← init_region (l_memory l); r ← init_region (l_reserved l); Some (Lmb m r).

(** The first loop of [lmb_add_region].  [Already]: the region is in the table;
    [Stopped rgn i coalesced]: the loop ended at [i]. *)
Inductive add_stop := Already | Stopped (rgn : lmb_region) (i coalesced : Z).
Fixpoint add_search (n : nat) (rgn : lmb_region) (base size i : Z) : option add_stop :=
  match n with
  | O => None
  | S n =>
      if i <? r_cnt rgn then
        p ← entry rgn i;
        if (p_base p =? base) && (p_size p =? size) then Some Already
        else
          let adjacent := lmb_addrs_adjacent base size (p_base p) (p_size p) in
          if 0 <? adjacent then
            rgn ← set_entry rgn i (Region (u32 (p_base p - size)) (u32 (p_size p + size)));
            Some (Stopped rgn i 1)
          else if adjacent <? 0 then
            rgn ← set_entry rgn i (Region (p_base p) (u32 (p_size p + size)));
            Some (Stopped rgn i 1)
          else add_search n rgn base size (i + 1)
      else Some (Stopped rgn i 0)
  end.

(** The loop that moves the higher regions up. *)
Fixpoint insert_loop (n : nat) (rgn : lmb_region) (base size i : Z) : option lmb_region :=
  match n with
  | O => None
  | S n =>
      if 0 <=? i then
        p ← entry rgn i;
        if base <? p_base p then
          rgn ← set_entry rgn (i + 1) p; insert_loop n rgn base size (i - 1)
        else set_entry rgn (i + 1) (Region base size)
      else Some rgn
  end.

Definition lmb_add_region (rgn : lmb_region) (base size : Z) : option (Z * lmb_region) :=
  p0 ← entry rgn 0;
  if (r_cnt rgn =? 1) && (p_size p0 =? 0) then
    rgn ← set_entry rgn 0 (Region base size); Some (0, rgn)
  else
    stop ← add_search rounds rgn base size 0;
    match stop with
    | Already => Some (0, rgn)
    | Stopped rgn i coalesced =>
        next ← (if i <? u32 (r_cnt rgn - 1) then
                  adjacent ← lmb_regions_adjacent rgn i (i + 1);
                  if truthy adjacent then
                    rgn ← lmb_coalesce_regions rgn i (i + 1); Some (rgn, coalesced + 1)
                  else Some (rgn, coalesced)
                else Some (rgn, coalesced));
        let '(rgn, coalesced) := next : lmb_region * Z in
        if truthy coalesced then Some (coalesced, rgn)
        else if MAX_LMB_REGIONS <=? r_cnt rgn then Some (-1, rgn)
        else
          rgn ← insert_loop rounds rgn base size (s32 (r_cnt rgn - 1));
          p0 ← entry rgn 0;
          rgn ← (if base <? p_base p0 then set_entry rgn 0 (Region base size) else Some rgn);
          Some (0, with_cnt (u32 (r_cnt rgn + 1)) rgn)
    end.

Definition lmb_add (l : lmb) (base size : Z) : option (Z * lmb) :=
  res ← lmb_add_region (l_memory l) base size; Some (res.1, Lmb res.2 (l_reserved l)).
Definition lmb_reserve (l : lmb) (base size : Z) : option (Z * lmb) :=
  res ← lmb_add_region (l_reserved l) base size; Some (res.1, with_reserved res.2 l).

(** The search loop of [lmb_free]: the index it stops at, with the last region
    looked at. *)
Fixpoint free_search (n : nat) (rgn : lmb_region) (base e i rgnbegin rgnend : Z) : option (Z * Z * Z) :=
  match n with
  | O => None
  | S n =>
      if i <? r_cnt rgn then
        p ← entry rgn i;
        let rgnbegin := p_base p in
        let rgnend := u32 (rgnbegin + p_size p) in
        if (rgnbegin <=? base) && (e <=? rgnend) then Some (i, rgnbegin, rgnend)
        else free_search n rgn base e (i + 1) rgnbegin rgnend
      else Some (i, rgnbegin, rgnend)
  end.

Definition lmb_free_region (rgn : lmb_region) (base size : Z) : option (Z * lmb_region) :=
  let e := u32 (base + size) in
  found ← free_search rounds rgn base e 0 0 0;
  let '(i, rgnbegin, rgnend) := found : Z * Z * Z in
  if i =? r_cnt rgn then Some (-1, rgn)
  else if (rgnbegin =? base) && (rgnend =? e) then
    rgn ← lmb_remove_region rgn i; Some (0, rgn)
  else
    p ← entry rgn i;
    if rgnbegin =? base then
      rgn ← set_entry rgn i (Region e (u32 (p_size p - size))); Some (0, rgn)
    else if rgnend =? e then
      rgn ← set_entry rgn i (Region (p_base p) (u32 (p_size p - size))); Some (0, rgn)
    else
      rgn ← set_entry rgn i (Region (p_base p) (u32 (base - p_base p)));
      lmb_add_region rgn e (u32 (rgnend - e)).
Definition lmb_free (l : lmb) (base size : Z) : option (Z * lmb) :=
  res ← lmb_free_region (l_reserved l) base size; Some (res.1, with_reserved res.2 l).

Fixpoint overlap_search (n : nat) (rgn : lmb_region) (base size i : Z) : option Z :=
  match n with
  | O => None
  | S n =>
      if i <? r_cnt rgn then
        p ← entry rgn i;
        if lmb_addrs_overlap base size (p_base p) (p_size p) then Some i
        else overlap_search n rgn base size (i + 1)
      else Some i
  end.
Definition lmb_overlaps_region (rgn : lmb_region) (base size : Z) : option Z :=
  i ← overlap_search rounds rgn base size 0;
  Some (if i <? r_cnt rgn then i else -1).

Definition lmb_align_down (addr size : Z) : Z := addr .\ u32 (size - 1).
Definition lmb_align_up (addr size : Z) : Z := u32 (addr + u32 (size - 1)) .\ u32 (size - 1).

(** The [while] loop of [__lmb_alloc_base], with fuel: [Some None] when the loop
    ends, otherwise what the function returns. *)
Fixpoint alloc_while (n : nat) (l : lmb) (size align lmbbase base : Z) : option (option (Z * lmb)) :=
  match n with
  | O => None
  | S n =>
      if truthy base && (lmbbase <=? base) then
        j ← lmb_overlaps_region (l_reserved l) base size;
        if j <? 0 then
          res ← lmb_add_region (l_reserved l) base (lmb_align_up size align);
          Some (Some (if res.1 <? 0 then 0 else base, with_reserved res.2 l))
        else
          p ← entry (l_reserved l) j;
          if p_base p <? size then Some None
          else alloc_while n l size align lmbbase (lmb_align_down (u32 (p_base p - size)) align)
      else Some None
  end.

(** The address a memory region is searched from; [None] skips the region. *)
Definition alloc_start (p : lmb_property) (size align max_addr : Z) : option Z :=
  if p_size p <? size then None
  else if max_addr =? LMB_ALLOC_ANYWHERE then
    Some (lmb_align_down (u32 (p_base p + p_size p - size)) align)
  else if p_base p <? max_addr then
    let base := u32 (p_base p + p_size p) in
    let base := if base <? p_base p then u32 (-1) else base in
    let base := Z.min base max_addr in
    Some (lmb_align_down (u32 (base - size)) align)
  else None.

(** The [for] loop over the first [k] memory regions, from the last down. *)
Fixpoint alloc_regions (n k : nat) (l : lmb) (size align max_addr : Z) : option (Z * lmb) :=
  match k with
  | O => Some (0, l)
  | S k =>
      p ← entry (l_memory l) (Z.of_nat k);
      match alloc_start p size align max_addr with
      | None => alloc_regions n k l size align max_addr
      | Some base =>
          res ← alloc_while n l size align (p_base p) base;
          match res with
          | Some res => Some res
          | None => alloc_regions n k l size align max_addr
          end
      end
  end.
Definition __lmb_alloc_base (n : nat) (l : lmb) (size align max_addr : Z) : option (Z * lmb) :=
  alloc_regions n (Z.to_nat (r_cnt (l_memory l))) l size align max_addr.

(** The message printed on failure is left out. *)
Definition lmb_alloc_base := __lmb_alloc_base.
Definition lmb_alloc (n : nat) (l : lmb) (size align : Z) : option (Z * lmb) :=
  lmb_alloc_base n l size align LMB_ALLOC_ANYWHERE.

Fixpoint reserved_search (n : nat) (rgn : lmb_region) (addr i : Z) : option Z :=
  match n with
  | O => None
  | S n =>
      if i <? r_cnt rgn then
        p ← entry rgn i;
        let upper := u32 (p_base p + p_size p - 1) in
        if (p_base p <=? addr) && (addr <=? upper) then Some 1
        else reserved_search n rgn addr (i + 1)
      else Some 0
  end.
Definition lmb_is_reserved (l : lmb) (addr : Z) : option Z :=
  reserved_search rounds (l_reserved l) addr 0.

(** ** Abstract view

    A table stands for the set of addresses its regions contain. *)
Definition p_end (p : lmb_property) : Z := p_base p + p_size p.
Definition within (a : Z) (p : lmb_property) : Prop := p_base p <= a < p_end p.
Definition regions (r : lmb_region) : list lmb_property := take (Z.to_nat (r_cnt r)) (r_region r).
Definition covered (r : lmb_region) (a : Z) : Prop := Exists (within a) (regions r).

(** Regions in ascending order above [lo], none empty, none touching the next,
    all ending below the top of the address space. *)
Fixpoint spaced (lo : Z) (l : list lmb_property) : Prop :=
  match l with
  | [] => True
  | p :: l => lo < p_base p /\ 0 < p_size p /\ p_end p < 2 ^ 32 /\ spaced (p_end p) l
  end.

(** A table in use holds the single empty region of [lmb_init], or between one
    and eight regions in this order. *)
Record table_wf (r : lmb_region) : Prop := {
  wf_room : length (r_region r) = 9%nat;
  wf_cnt : 1 <= r_cnt r <= MAX_LMB_REGIONS;
  wf_regions : regions r = [Region 0 0] \/ spaced (-1) (regions r)
}.

(** *** Lists of regions *)
Fixpoint stop (lo : Z) (l : list lmb_property) : Z :=
  match l with [] => lo | p :: l => stop (p_end p) l end.

Lemma stop_app lo A B : stop lo (A ++ B) = stop (stop lo A) B.
Proof. revert lo. induction A; simpl; auto. Qed.
Lemma spaced_app lo A B : spaced lo (A ++ B) <-> spaced lo A /\ spaced (stop lo A) B.
Proof. revert lo. induction A as [|p A IH]; intros lo; simpl; [tauto|]. rewrite IH. tauto. Qed.
Lemma spaced_stop lo l : spaced lo l -> lo <= stop lo l.
Proof.
  revert lo. induction l as [|p l IH]; intros lo; simpl; [lia|].
  intros (? & ? & ? & H). apply IH in H. unfold p_end in *. lia.
Qed.
Lemma spaced_lower lo lo' l : lo' <= lo -> spaced lo l -> spaced lo' l.
Proof. destruct l; simpl; [done|]. intros Hlo (? & ?). split; [lia|done]. Qed.
Lemma spaced_in lo l p : spaced lo l -> p ∈ l ->
  lo < p_base p /\ 0 < p_size p /\ p_end p <= stop lo l /\ p_end p < 2 ^ 32.
Proof.
  revert lo. induction l as [|q l IH]; intros lo; simpl; [by intros _ ?%elem_of_nil|].
  intros (Hq & Hs & He & Hl) [->|Hp]%elem_of_cons.
  - apply spaced_stop in Hl. lia.
  - pose proof (spaced_stop _ _ Hl). specialize (IH _ Hl Hp). unfold p_end in *. lia.
Qed.

(** Addresses of a list of regions. *)
Abbreviation cover l a := (Exists (within a) l).

Lemma cover_above lo l a : spaced lo l -> cover l a -> lo < a < stop lo l.
Proof.
  intros Hl (p & Hp & Ha)%list.Exists_exists. destruct (spaced_in _ _ _ Hl Hp) as (? & ? & ? & ?).
  unfold within in Ha. lia.
Qed.

Lemma cover_first lo p l a : spaced lo (p :: l) -> cover (p :: l) a ->
  p_base p <= a /\ a <> p_end p.
Proof.
  intros (_ & Hs & _ & Hl) [Ha|Ha]%Exists_cons; [unfold within, p_end in *; lia|].
  apply (cover_above _ _ _ Hl) in Ha. unfold p_end in *. lia.
Qed.
Lemma cover_head lo p l a : spaced lo (p :: l) -> p_base p <= a < p_end p -> cover (p :: l) a.
Proof. intros _ Ha. by left. Qed.

(** The order is canonical: the set of addresses determines the regions. *)
Lemma spaced_unique lo l l' : spaced lo l -> spaced lo l' ->
  (forall a, cover l a <-> cover l' a) -> l = l'.
Proof.
  revert lo l'. induction l as [|p l IH]; intros lo [|p' l'] Hl Hl' Hc; [done|..].
  - destruct Hl' as (_ & ? & _). destruct (proj1 (Exists_nil (within (p_base p')))).
    apply Hc. left. unfold within, p_end. lia.
  - destruct Hl as (_ & ? & _). destruct (proj1 (Exists_nil (within (p_base p)))).
    apply Hc. left. unfold within, p_end. lia.
  - assert (forall q k q' k', spaced lo (q :: k) -> spaced lo (q' :: k') ->
      (forall a, cover (q :: k) a -> cover (q' :: k') a) -> p_base q' <= p_base q /\
      (p_base q = p_base q' -> p_end q <= p_end q')) as Hle.
    { intros q k q' k' Hq Hq' Hi. pose proof Hq as (_ & Hs & _). split.
      - apply (cover_first _ _ _ _ Hq'), Hi, (cover_head _ _ _ _ Hq). unfold p_end. lia.
      - intros Hb. pose proof Hq' as (_ & Hs' & _). destruct (Z.le_gt_cases (p_end q) (p_end q')) as [|Hlt]; [done|].
        destruct (cover_first _ _ _ (p_end q') Hq'); [|done]. apply Hi, (cover_head _ _ _ _ Hq).
        unfold p_end in *. lia. }
    destruct (Hle p l p' l' Hl Hl' (fun a => proj1 (Hc a))) as [Hb1 He1].
    destruct (Hle p' l' p l Hl' Hl (fun a => proj2 (Hc a))) as [Hb2 He2].
    assert (p = p') as <-.
    { assert (p_base p = p_base p') by lia. specialize (He1 ltac:(lia)). specialize (He2 ltac:(lia)).
      destruct p, p'. unfold p_end in *. simpl in *. f_equal; lia. }
    f_equal. destruct Hl as (_ & _ & _ & Hl), Hl' as (_ & _ & _ & Hl').
    apply (IH (p_end p)); [done..|]. intros a. specialize (Hc a). rewrite !Exists_cons in Hc.
    assert (forall k, spaced (p_end p) k -> cover k a -> ~ within a p) as Hno.
    { intros k Hk Ha. apply (cover_above _ _ _ Hk) in Ha. unfold within. lia. }
    split; intros Ha.
    + destruct (proj1 Hc (or_intror Ha)) as [Hw|]; [by destruct (Hno _ Hl Ha Hw)|done].
    + destruct (proj2 Hc (or_intror Ha)) as [Hw|]; [by destruct (Hno _ Hl' Ha Hw)|done].
Qed.

(** A gap in the table splits it. *)
Lemma gap_split lo l b e : spaced lo l -> lo <= b < e ->
  (forall a, b <= a < e -> ~ cover l a) ->
  exists A B, l = A ++ B /\ stop lo A <= b /\ spaced (e - 1) B /\ spaced (stop lo A) B.
Proof.
  revert lo. induction l as [|p l IH]; intros lo Hl Hb Hfree; [exists [], []; simpl; split_and!; [done|lia|done|done]|].
  destruct Hl as (H1 & H2 & H3 & H4). destruct (Z.le_gt_cases (p_end p) b) as [Hpe|Hpe].
  - destruct (IH (p_end p) H4) as (A & B & -> & HA & HB & HB'); [lia| |].
    { intros a Ha Hc. apply (Hfree a Ha). by right. }
    by exists (p :: A), B.
  - exists [], (p :: l). simpl. split; [done|]. split; [lia|]. split; [|done].
    split; [|done]. destruct (Z.le_gt_cases e (p_base p)) as [|Hpb]; [lia|].
    exfalso. apply (Hfree (Z.max b (p_base p))); [lia|]. left. unfold within, p_end in *. lia.
Qed.

(** *** The array

    A table whose array is written as the regions before the one of interest,
    that one, and the rest. *)
Abbreviation at_ A := (Z.of_nat (length A)).

(** Arithmetic on the lengths of lists. *)
Ltac len := repeat (rewrite ?length_app in *; cbn [length] in *); lia.

Lemma entry_at c z A p C : entry (Table c z (A ++ p :: C)) (at_ A) = Some p.
Proof.
  unfold entry. destruct (Z.leb_spec 0 (at_ A)); [|lia]. cbn [r_region].
  by rewrite Nat2Z.id, list_lookup_middle.
Qed.
Lemma set_entry_at c z A p q C :
  set_entry (Table c z (A ++ p :: C)) (at_ A) q = Some (Table c z (A ++ q :: C)).
Proof.
  unfold set_entry. cbn [r_region r_cnt r_size]. rewrite length_app. cbn [length].
  destruct (Z.leb_spec 0 (at_ A)), (Z.ltb_spec (at_ A) (Z.of_nat (length A + S (length C)))); try lia.
  cbn [andb]. by rewrite Nat2Z.id, insert_middle.
Qed.
Lemma at_snoc A (p : lmb_property) : at_ (A ++ [p]) = at_ A + 1.
Proof. rewrite length_app. cbn [length]. lia. Qed.
Lemma entry_next c z A p q C : entry (Table c z (A ++ p :: q :: C)) (at_ A + 1) = Some q.
Proof. rewrite <- (at_snoc A p), cons_middle, (app_assoc A [p]). apply entry_at. Qed.
Lemma set_entry_next c z A p q x C :
  set_entry (Table c z (A ++ p :: q :: C)) (at_ A + 1) x = Some (Table c z (A ++ p :: x :: C)).
Proof.
  rewrite <- (at_snoc A p), cons_middle, (app_assoc A [p]), set_entry_at. by rewrite <- app_assoc.
Qed.

Lemma run_remove_loop n c z A p B C :
  c = at_ A + 1 + at_ B -> c < 2 ^ 32 -> (length B < n)%nat ->
  exists C', remove_loop n (Table c z (A ++ p :: B ++ C)) (at_ A) = Some (Table c z (A ++ B ++ C')) /\
    length C' = S (length C).
Proof.
  revert n A p. induction B as [|q B IH]; intros [|n] A p Hc H32 Hn; try (simpl in Hn; lia);
    cbn [remove_loop r_cnt]; cbn [length] in Hc; rewrite u32_small by lia.
  - destruct (Z.ltb_spec (at_ A) (c - 1)); [lia|]. by exists (p :: C).
  - destruct (Z.ltb_spec (at_ A) (c - 1)); [|lia]. rewrite <- app_comm_cons, entry_next. simpl.
    rewrite set_entry_at. simpl. rewrite cons_middle, (app_assoc A [q]), <- (at_snoc A q).
    destruct (IH n (A ++ [q]) q) as (C' & -> & HC'); [rewrite at_snoc; lia|done|simpl in Hn; lia|].
    exists C'. by rewrite <- !app_assoc.
Qed.

(** A table with regions [l]; the entries after them are stale. *)
Definition holds (r : lmb_region) (l : list lmb_property) : Prop :=
  exists C, r_region r = l ++ C /\ r_cnt r = at_ l /\ length (l ++ C) = 9%nat.

Lemma holds_regions r l : holds r l -> regions r = l.
Proof. intros (C & Hr & Hc & _). unfold regions. by rewrite Hr, Hc, Nat2Z.id, take_app_length. Qed.
Lemma wf_holds r : table_wf r -> holds r (regions r).
Proof.
  intros [H9 Hc _]. unfold MAX_LMB_REGIONS in *. exists (drop (Z.to_nat (r_cnt r)) (r_region r)).
  unfold regions. rewrite take_drop, length_take, H9. split; [done|]. split; [|done]. lia.
Qed.
Lemma holds_wf r l : holds r l -> (length l <= 8)%nat -> l <> [] -> spaced (-1) l -> table_wf r.
Proof.
  intros Hh Hl Hne Hs. pose proof (holds_regions _ _ Hh) as Hr. destruct Hh as (C & HC & Hc & H9).
  constructor; [by rewrite HC|unfold MAX_LMB_REGIONS; destruct l; [done|simpl in *; lia]|].
  right. by rewrite Hr.
Qed.

Lemma holds_remove r A p B : holds r (A ++ p :: B) ->
  exists r', lmb_remove_region r (at_ A) = Some r' /\ holds r' (A ++ B).
Proof.
  intros (C & Hr & Hc & H9). destruct r as [c z a]; simpl in *. subst a.
  rewrite <- app_assoc, <- app_comm_cons in *. rewrite !length_app in *. cbn [length] in *.
  rewrite length_app in H9.
  destruct (run_remove_loop rounds c z A p B C) as (C' & Hrun & HC'); [lia|lia|unfold rounds; lia|].
  unfold lmb_remove_region. rewrite Hrun. simpl. rewrite u32_small by lia. eexists. split; [done|].
  exists C'. cbn [with_cnt r_region r_cnt]. rewrite <- app_assoc, !length_app. split; [done|]. lia.
Qed.

Lemma holds_entry r A p B : holds r (A ++ p :: B) -> entry r (at_ A) = Some p.
Proof.
  intros (C & Hr & _). destruct r as [c z a]; simpl in *. subst a.
  rewrite <- app_assoc, <- app_comm_cons. apply entry_at.
Qed.
Lemma holds_entry_next r A p q B : holds r (A ++ p :: q :: B) -> entry r (at_ A + 1) = Some q.
Proof. rewrite <- (at_snoc A p), cons_middle, (app_assoc A [p]). apply holds_entry. Qed.
Lemma holds_set r A p q B : holds r (A ++ p :: B) ->
  exists r', set_entry r (at_ A) q = Some r' /\ holds r' (A ++ q :: B).
Proof.
  intros (C & Hr & Hc & H9). destruct r as [c z a]; simpl in *. subst a.
  rewrite <- app_assoc, <- app_comm_cons, set_entry_at. eexists. split; [done|].
  exists C. cbn [r_region r_cnt]. rewrite <- app_assoc, <- app_comm_cons. split; [done|].
  len.
Qed.

Lemma holds_coalesce r A p q B : holds r (A ++ p :: q :: B) -> 0 <= p_size p + p_size q < 2 ^ 32 ->
  exists r', lmb_coalesce_regions r (at_ A) (at_ A + 1) = Some r' /\
    holds r' (A ++ Region (p_base p) (p_size p + p_size q) :: B).
Proof.
  intros Hr Hs. unfold lmb_coalesce_regions.
  rewrite (holds_entry _ _ _ _ Hr), (holds_entry_next _ _ _ _ _ Hr). simpl. rewrite u32_small by lia.
  destruct (holds_set r A p (Region (p_base p) (p_size p + p_size q)) (q :: B) Hr) as (r1 & -> & H1).
  simpl. rewrite cons_middle, (app_assoc A [_]) in H1. rewrite <- (at_snoc A (Region (p_base p) (p_size p + p_size q))).
  destruct (holds_remove _ _ _ _ H1) as (r2 & -> & H2). exists r2. split; [done|].
  by rewrite <- app_assoc in H2.
Qed.

Lemma run_insert_loop n c z A a B x C b s :
  p_base a <= b -> Forall (fun p => b < p_base p) B -> (length B < n)%nat ->
  insert_loop n (Table c z (A ++ a :: B ++ x :: C)) b s (at_ A + at_ B) =
  Some (Table c z (A ++ a :: Region b s :: B ++ C)).
Proof.
  intros Ha. revert n x C. induction B as [|q B IH] using rev_ind; intros [|n] x C HB Hn; try len;
    cbn [insert_loop].
  - cbn [length app]. rewrite Z.add_0_r. destruct (Z.leb_spec 0 (at_ A)); [|lia].
    rewrite entry_at. cbn [mbind option_bind]. destruct (Z.ltb_spec b (p_base a)); [lia|].
    apply set_entry_next.
  - apply list.Forall_app in HB as [HB Hq]. apply list.Forall_cons in Hq as [Hq _].
    replace (at_ A + at_ (B ++ [q])) with (at_ (A ++ a :: B)) by len.
    destruct (Z.leb_spec 0 (at_ (A ++ a :: B))); [|lia].
    replace (A ++ a :: (B ++ [q]) ++ x :: C) with ((A ++ a :: B) ++ q :: x :: C)
      by (rewrite <- !app_assoc; simpl; by rewrite <- ?app_assoc).
    rewrite entry_at. cbn [mbind option_bind]. destruct (Z.ltb_spec b (p_base q)); [|lia].
    rewrite set_entry_next. cbn [mbind option_bind].
    replace ((A ++ a :: B) ++ q :: q :: C) with (A ++ a :: B ++ q :: q :: C) by (by rewrite <- app_assoc).
    replace (at_ (A ++ a :: B) - 1) with (at_ A + at_ B) by len.
    rewrite IH; [|done|len]. by rewrite <- !app_assoc.
Qed.

(** When every region lies above, the lowest one is left twice. *)
Lemma run_insert_loop_front n c z q B x C b s :
  Forall (fun p => b < p_base p) (q :: B) -> (S (length B) < n)%nat ->
  insert_loop n (Table c z (q :: B ++ x :: C)) b s (at_ B) = Some (Table c z (q :: q :: B ++ C)).
Proof.
  revert n x C. induction B as [|p B IH] using rev_ind; intros [|n] x C HB Hn; try len; cbn [insert_loop].
  - apply list.Forall_cons in HB as [HB _]. destruct n; [len|].
    pose proof (entry_at c z [] q (x :: C)) as E0. pose proof (set_entry_next c z [] q x q C) as E.
    cbn [app length] in *. change (Z.of_nat 0) with 0 in *. change (0 <=? 0) with true. cbv iota.
    rewrite E0. cbn [mbind option_bind]. destruct (Z.ltb_spec b (p_base q)); [|lia].
    by rewrite E.
  - pose proof HB as HB'. apply list.Forall_cons in HB' as [_ HB']. apply list.Forall_app in HB' as [HB' Hp].
    apply list.Forall_cons in Hp as [Hp _].
    replace (at_ (B ++ [p])) with (at_ (q :: B)) by len. destruct (Z.leb_spec 0 (at_ (q :: B))); [|lia].
    replace (q :: (B ++ [p]) ++ x :: C) with ((q :: B) ++ p :: x :: C) by (simpl; by rewrite <- app_assoc).
    rewrite entry_at. cbn [mbind option_bind]. destruct (Z.ltb_spec b (p_base p)); [|lia].
    rewrite set_entry_next. cbn [mbind option_bind].
    change ((q :: B) ++ p :: p :: C) with (q :: B ++ p :: p :: C).
    replace (at_ (q :: B) - 1) with (at_ B) by len.
    rewrite IH; [by rewrite <- app_assoc| |len]. apply list.Forall_cons in HB as [? _]. by apply list.Forall_cons.
Qed.

(** *** Adding a region *)
Section Add.
Context (b s : Z) (Hb : 0 <= b) (Hs : 0 < s) (He : b + s < 2 ^ 32).

Definition proper (p : lmb_property) : Prop := 0 <= p_base p /\ 0 < p_size p /\ p_end p < 2 ^ 32.
Definition away (p : lmb_property) : Prop := p_end p < b \/ b + s < p_base p.

Lemma spaced_proper lo l : -1 <= lo -> spaced lo l -> Forall proper l.
Proof.
  intros Hlo Hl. apply list.Forall_forall. intros p Hp. destruct (spaced_in _ _ _ Hl Hp).
  unfold proper. lia.
Qed.

Lemma adjacent_away p : proper p -> away p ->
  lmb_addrs_adjacent b s (p_base p) (p_size p) = 0 /\ p_base p <> b.
Proof.
  unfold proper, away, p_end, lmb_addrs_adjacent. intros (? & ? & ?) Ha. rewrite !u32_small by lia.
  destruct (Z.eqb_spec (p_base p) (b + s)), (Z.eqb_spec b (p_base p + p_size p)); lia.
Qed.

Lemma search_skip n r P A B : holds r (P ++ A ++ B) -> Forall proper A -> Forall away A ->
  add_search (length A + n) r b s (at_ P) = add_search n r b s (at_ (P ++ A)).
Proof.
  revert P. induction A as [|p A IH]; intros P Hr Hp Ha; [by rewrite app_nil_r|].
  apply list.Forall_cons in Hp as [Hp1 Hp], Ha as [Ha1 Ha].
  destruct (adjacent_away p Hp1 Ha1) as [Hadj Hne].
  cbn [length Nat.add add_search]. pose proof Hr as (C & _ & Hc & _). rewrite Hc.
  destruct (Z.ltb_spec (at_ P) (at_ (P ++ (p :: A) ++ B))); [|len].
  rewrite (holds_entry r P p (A ++ B) Hr). cbn [mbind option_bind].
  destruct (Z.eqb_spec (p_base p) b); [done|]. cbn [andb]. rewrite Hadj. cbn [Z.ltb Z.compare].
  rewrite <- (at_snoc P p). replace (P ++ p :: A) with ((P ++ [p]) ++ A) by (by rewrite <- app_assoc).
  apply IH; [by rewrite <- app_assoc|done..].
Qed.

Lemma search_from_start r A B : holds r (A ++ B) -> Forall proper A -> Forall away A ->
  exists n, add_search rounds r b s 0 = add_search (S n) r b s (at_ A).
Proof.
  intros Hr Hp Ha. pose proof Hr as (C & _ & _ & H9). exists (rounds - S (length A))%nat.
  replace rounds with (length A + S (rounds - S (length A)))%nat at 1 by (unfold rounds; len).
  apply (search_skip _ r [] A B Hr Hp Ha).
Qed.

(** A region that ends where the new one starts grows upwards. *)
Lemma search_below r A p B : holds r (A ++ p :: B) -> Forall proper A -> Forall away A ->
  proper p -> p_end p = b ->
  exists r', add_search rounds r b s 0 = Some (Stopped r' (at_ A) 1) /\
    holds r' (A ++ Region (p_base p) (p_size p + s) :: B).
Proof.
  intros Hr Hp Ha (H1 & H2 & H3) Hpb. destruct (search_from_start r A (p :: B)) as [n ->]; [done..|].
  cbn [add_search]. pose proof Hr as (C & _ & Hc & _). rewrite Hc.
  destruct (Z.ltb_spec (at_ A) (at_ (A ++ p :: B))); [|len].
  rewrite (holds_entry _ _ _ _ Hr). cbn [mbind option_bind]. unfold p_end in *.
  destruct (Z.eqb_spec (p_base p) b); [lia|]. cbn [andb]. unfold lmb_addrs_adjacent.
  rewrite !u32_small by lia. destruct (Z.eqb_spec (p_base p) (b + s)); [lia|].
  destruct (Z.eqb_spec b (p_base p + p_size p)); [|lia]. cbn [Z.ltb Z.compare].
  rewrite ?u32_small by lia. destruct (holds_set r A p (Region (p_base p) (p_size p + s)) B Hr) as (r' & -> & Hr').
  by exists r'.
Qed.

(** A region that starts where the new one ends grows downwards. *)
Lemma search_above r A p B : holds r (A ++ p :: B) -> Forall proper A -> Forall away A ->
  proper p -> p_base p = b + s ->
  exists r', add_search rounds r b s 0 = Some (Stopped r' (at_ A) 1) /\
    holds r' (A ++ Region b (p_size p + s) :: B).
Proof.
  intros Hr Hp Ha (H1 & H2 & H3) Hpb. destruct (search_from_start r A (p :: B)) as [n ->]; [done..|].
  cbn [add_search]. pose proof Hr as (C & _ & Hc & _). rewrite Hc.
  destruct (Z.ltb_spec (at_ A) (at_ (A ++ p :: B))); [|len].
  rewrite (holds_entry _ _ _ _ Hr). cbn [mbind option_bind]. unfold p_end in *.
  destruct (Z.eqb_spec (p_base p) b); [lia|]. cbn [andb]. unfold lmb_addrs_adjacent.
  rewrite !u32_small by lia. destruct (Z.eqb_spec (p_base p) (b + s)); [|lia]. cbn [Z.ltb Z.compare].
  rewrite ?u32_small by lia. destruct (holds_set r A p (Region (p_base p - s) (p_size p + s)) B Hr) as (r' & -> & Hr').
  exists r'. split; [done|]. by replace (p_base p - s) with b in Hr' by lia.
Qed.

Lemma search_apart r l : holds r l -> Forall proper l -> Forall away l ->
  add_search rounds r b s 0 = Some (Stopped r (at_ l) 0).
Proof.
  intros Hr Hp Ha. pose proof Hr as (C & _ & Hc & _). rewrite <- (app_nil_r l) in Hr.
  destruct (search_from_start r l [] Hr Hp Ha) as [n ->]. cbn [add_search]. rewrite Hc.
  by rewrite Z.ltb_irrefl.
Qed.

(** After growing the region at the end of [A], the step that merges it with the
    next. *)
Definition merge_next (rgn : lmb_region) (i coalesced : Z) : option (lmb_region * Z) :=
  if i <? u32 (r_cnt rgn - 1) then
    adjacent ← lmb_regions_adjacent rgn i (i + 1);
    if truthy adjacent then
      rgn ← lmb_coalesce_regions rgn i (i + 1); Some (rgn, coalesced + 1)
    else Some (rgn, coalesced)
  else Some (rgn, coalesced).

Lemma merge_last r A p c : holds r (A ++ [p]) -> merge_next r (at_ A) c = Some (r, c).
Proof.
  intros (C & _ & Hc & H9). unfold merge_next. rewrite Hc, u32_small by len.
  destruct (Z.ltb_spec (at_ A) (at_ (A ++ [p]) - 1)); [len|done].
Qed.
Lemma merge_pair r A p q B c : holds r (A ++ p :: q :: B) -> proper p -> proper q -> p_end p <= p_base q ->
  exists r', merge_next r (at_ A) c = Some (r', if p_end p =? p_base q then c + 1 else c) /\
    holds r' (A ++ if p_end p =? p_base q then Region (p_base p) (p_size p + p_size q) :: B else p :: q :: B).
Proof.
  intros Hr (H1 & H2 & H3) (H4 & H5 & H6) Hpq. unfold merge_next, p_end in *.
  pose proof Hr as (C & _ & Hc & H9). rewrite Hc, u32_small by len.
  destruct (Z.ltb_spec (at_ A) (at_ (A ++ p :: q :: B) - 1)); [|len].
  unfold lmb_regions_adjacent. rewrite (holds_entry _ _ _ _ Hr), (holds_entry_next _ _ _ _ _ Hr).
  cbn [mbind option_bind]. unfold lmb_addrs_adjacent. rewrite !u32_small by lia.
  destruct (Z.eqb_spec (p_base q) (p_base p + p_size p)) as [E|E].
  - rewrite E, Z.eqb_refl. cbn [truthy negb Z.eqb].
    destruct (holds_coalesce r A p q B Hr) as (r' & -> & Hr'); [lia|]. by exists r'.
  - destruct (Z.eqb_spec (p_base p + p_size p) (p_base q)); [lia|].
    destruct (Z.eqb_spec (p_base p) (p_base q + p_size q)); [lia|]. by exists r.
Qed.

(** *** The new table *)
Definition adds (l l' : list lmb_property) : Prop :=
  spaced (-1) l' /\ forall a, cover l' a <-> cover l a \/ b <= a < b + s.

Lemma adds_below A p B : spaced (-1) (A ++ p :: B) -> p_end p = b -> spaced (b + s) B ->
  adds (A ++ p :: B) (A ++ Region (p_base p) (p_size p + s) :: B).
Proof.
  intros Hl Hpb HB. apply spaced_app in Hl as [HA (H1 & H2 & H3 & _)]. split.
  - apply spaced_app. split; [done|]. simpl. unfold p_end in *. simpl. repeat split; try lia.
    replace (p_base p + (p_size p + s)) with (b + s) by lia. done.
  - intros a. rewrite !Exists_app, !Exists_cons. unfold within, p_end in *. simpl.
    assert (p_base p <= a < p_base p + (p_size p + s) <->
      p_base p <= a < p_base p + p_size p \/ b <= a < b + s) as -> by lia. tauto.
Qed.
Lemma adds_between A p q B : spaced (-1) (A ++ p :: q :: B) -> p_end p = b -> p_base q = b + s ->
  adds (A ++ p :: q :: B) (A ++ Region (p_base p) (p_size p + s + p_size q) :: B).
Proof.
  intros Hl Hpb Hq. apply spaced_app in Hl as [HA (H1 & H2 & H3 & H4 & H5 & H6 & H7)]. split.
  - apply spaced_app. split; [done|]. simpl. unfold p_end in *. simpl. repeat split; try lia.
    by replace (p_base p + (p_size p + s + p_size q)) with (p_base q + p_size q) by lia.
  - intros a. rewrite !Exists_app, !Exists_cons. unfold within, p_end in *. simpl.
    assert (p_base p <= a < p_base p + (p_size p + s + p_size q) <->
      (p_base p <= a < p_base p + p_size p \/ b <= a < b + s) \/ p_base q <= a < p_base q + p_size q)
      as -> by lia. tauto.
Qed.
Lemma adds_above A q B : spaced (-1) (A ++ q :: B) -> stop (-1) A < b -> p_base q = b + s ->
  adds (A ++ q :: B) (A ++ Region b (p_size q + s) :: B).
Proof.
  intros Hl HA' Hq. apply spaced_app in Hl as [HA (H1 & H2 & H3 & H4)]. split.
  - apply spaced_app. split; [done|]. simpl. unfold p_end in *. simpl. repeat split; try lia.
    by replace (b + (p_size q + s)) with (p_base q + p_size q) by lia.
  - intros a. rewrite !Exists_app, !Exists_cons. unfold within, p_end in *. simpl.
    assert (b <= a < b + (p_size q + s) <->
      p_base q <= a < p_base q + p_size q \/ b <= a < b + s) as -> by lia. tauto.
Qed.
Lemma adds_apart A B : spaced (-1) (A ++ B) -> stop (-1) A < b -> spaced (b + s) B ->
  adds (A ++ B) (A ++ Region b s :: B).
Proof.
  intros Hl HA' HB. apply spaced_app in Hl as [HA _]. split.
  - apply spaced_app. split; [done|]. simpl. unfold p_end in *. simpl. repeat split; try lia. done.
  - intros a. rewrite !Exists_app, !Exists_cons. unfold within, p_end in *. simpl. tauto.
Qed.

(** The end of [lmb_add_region]: the sorted insertion. *)
Definition insert_region (rgn : lmb_region) : option (Z * lmb_region) :=
  rgn ← insert_loop rounds rgn b s (s32 (r_cnt rgn - 1));
  p0 ← entry rgn 0;
  rgn ← (if b <? p_base p0 then set_entry rgn 0 (Region b s) else Some rgn);
  Some (0, with_cnt (u32 (r_cnt rgn + 1)) rgn).

Lemma run_insert r A B : holds r (A ++ B) -> (0 < length (A ++ B) < 8)%nat ->
  Forall (fun p => p_base p <= b) A -> Forall (fun p => b < p_base p) B ->
  exists r', insert_region r = Some (0, r') /\ holds r' (A ++ Region b s :: B).
Proof.
  intros (C & Hr & Hc & H9) Hlen HA HB. destruct r as [c z l]; cbn [r_cnt r_region] in *. subst l.
  destruct C as [|x C]; [len|]. unfold insert_region. cbn [r_cnt]. rewrite s32_small by len.
  destruct A as [|h A _] using rev_ind.
  - destruct B as [|q B]; [simpl in Hlen; lia|]. cbn [app] in *.
    replace (c - 1) with (at_ B) by len. rewrite run_insert_loop_front; [|done|unfold rounds; len].
    apply list.Forall_cons in HB as [Hq HB]. cbn [mbind option_bind].
    change (q :: q :: B ++ C) with ([] ++ q :: q :: B ++ C). rewrite (entry_at c z []). cbn [mbind option_bind].
    destruct (Z.ltb_spec b (p_base q)); [|lia]. rewrite (set_entry_at c z []). cbn [mbind option_bind r_cnt].
    rewrite u32_small by len. eexists. split; [done|]. exists C. cbn. split; [done|]. len.
  - apply list.Forall_app in HA as [HA Hh]. apply list.Forall_cons in Hh as [Hh _].
    replace (((A ++ [h]) ++ B) ++ x :: C) with (A ++ h :: B ++ x :: C) by (by rewrite <- !app_assoc).
    replace (c - 1) with (at_ A + at_ B) by len.
    rewrite run_insert_loop; [|done|done|unfold rounds; len]. cbn [mbind option_bind].
    assert (exists p0, entry (Table c z (A ++ h :: Region b s :: B ++ C)) 0 = Some p0 /\ p_base p0 <= b)
      as (p0 & -> & Hp0).
    { destruct A as [|p0 A]; [exists h|exists p0]; split; try done.
      apply list.Forall_cons in HA. tauto. }
    cbn [mbind option_bind]. destruct (Z.ltb_spec b (p_base p0)); [lia|]. cbn [mbind option_bind r_cnt].
    rewrite u32_small by len. eexists. split; [done|]. exists C. cbn [with_cnt r_region r_cnt].
    split; [by rewrite <- !app_assoc|]. len.
Qed.

Lemma add_region_unfold r h l : holds r (h :: l) -> 0 < p_size h ->
  lmb_add_region r b s =
  (stop ← add_search rounds r b s 0;
   match stop with
   | Already => Some (0, r)
   | Stopped rgn i coalesced =>
       next ← merge_next rgn i coalesced;
       let '(rgn, coalesced) := next : lmb_region * Z in
       if truthy coalesced then Some (coalesced, rgn)
       else if MAX_LMB_REGIONS <=? r_cnt rgn then Some (-1, rgn) else insert_region rgn
   end).
Proof.
  intros Hr Hh. unfold lmb_add_region. rewrite (holds_entry r [] h l Hr : entry r 0 = _).
  cbn [mbind option_bind]. destruct (Z.eqb_spec (p_size h) 0); [lia|]. by rewrite andb_false_r.
Qed.

(** The three ways a region is added: below [p], above [q], or on its own. *)
Definition added (r : lmb_region) (l : list lmb_property) : Prop :=
  exists c r' l', lmb_add_region r b s = Some (c, r') /\ 0 <= c /\ holds r' l' /\ adds l l' /\
    (length l' <= S (length l))%nat /\ ((length l' <= 8)%nat).

Lemma add_unfold r A p B : holds r (A ++ p :: B) -> spaced (-1) (A ++ p :: B) ->
  lmb_add_region r b s =
  (stop ← add_search rounds r b s 0;
   match stop with
   | Already => Some (0, r)
   | Stopped rgn i coalesced =>
       next ← merge_next rgn i coalesced;
       let '(rgn, coalesced) := next : lmb_region * Z in
       if truthy coalesced then Some (coalesced, rgn)
       else if MAX_LMB_REGIONS <=? r_cnt rgn then Some (-1, rgn) else insert_region rgn
   end).
Proof.
  intros Hr Hl. destruct A as [|h A].
  - apply (add_region_unfold r p B Hr). simpl in Hl. tauto.
  - apply (add_region_unfold r h (A ++ p :: B) Hr). simpl in Hl. tauto.
Qed.

Lemma below_away lo A : spaced lo A -> stop lo A < b -> Forall away A.
Proof.
  intros HA Hb'. apply list.Forall_forall. intros p Hp. destruct (spaced_in _ _ _ HA Hp). left. lia.
Qed.
Lemma above_away B : spaced (b + s) B -> Forall away B.
Proof. intros HB. apply list.Forall_forall. intros p Hp. destruct (spaced_in _ _ _ HB Hp). right. lia. Qed.

Lemma run_add_below r A p B : holds r (A ++ p :: B) -> spaced (-1) (A ++ p :: B) ->
  (length (A ++ p :: B) <= 8)%nat -> p_end p = b -> spaced (b + s - 1) B -> added r (A ++ p :: B).
Proof.
  intros Hr Hl H8 Hpb HB. pose proof Hl as (HA & H1 & H2 & H3 & H4)%spaced_app.
  assert (Forall proper A) as HpA by (by apply (spaced_proper (-1)); [lia|]).
  assert (proper p) as Hpp.
  { pose proof (spaced_stop _ _ HA). unfold proper. lia. }
  unfold added. rewrite (add_unfold r A p B Hr Hl).
  destruct (search_below r A p B Hr HpA) as (r1 & -> & H5); [|done|done|].
  { apply (below_away (-1)); [done|]. unfold p_end in *. lia. }
  cbn [mbind option_bind].
  assert (proper (Region (p_base p) (p_size p + s))) as Hp'.
  { unfold proper, p_end in *. simpl. lia. }
  destruct B as [|q B].
  - rewrite (merge_last r1 A _ 1 H5). cbn [mbind option_bind truthy Z.eqb negb].
    eexists _, _, _. split; [done|]. split; [lia|]. split; [done|]. split; [by apply (adds_below A p [])|]. len.
  - destruct HB as (H6 & H7 & H8' & H9). assert (proper q) as Hq by (unfold proper; lia).
    destruct (merge_pair r1 A _ q B 1 H5 Hp' Hq) as (r2 & -> & H10); [unfold p_end in *; simpl; lia|].
    cbn [mbind option_bind].
    destruct (Z.eqb_spec (p_end (Region (p_base p) (p_size p + s))) (p_base q)) as [E|E];
      unfold p_end in E; cbn [p_base p_size] in *.
    + exists 2, r2, (A ++ Region (p_base p) (p_size p + s + p_size q) :: B).
      split_and!; try done; [|len|len]. unfold p_end in *. apply (adds_between A p q B); [done|done|lia].
    + exists 1, r2, (A ++ Region (p_base p) (p_size p + s) :: q :: B). unfold p_end in *.
      split_and!; try done; [|len|len]. apply (adds_below A p (q :: B)); [done|done|].
      simpl. unfold p_end. repeat split; try lia. done.
Qed.

Lemma run_add_above r A q B : holds r (A ++ q :: B) -> spaced (-1) (A ++ q :: B) ->
  (length (A ++ q :: B) <= 8)%nat -> stop (-1) A < b -> p_base q = b + s -> added r (A ++ q :: B).
Proof.
  intros Hr Hl H8 HAb Hq. pose proof Hl as (HA & H1 & H2 & H3 & H4)%spaced_app.
  assert (Forall proper A) as HpA by (by apply (spaced_proper (-1)); [lia|]).
  assert (proper q) as Hpq by (unfold proper; lia).
  unfold added. rewrite (add_unfold r A q B Hr Hl).
  destruct (search_above r A q B Hr HpA) as (r1 & -> & H5); [by apply (below_away (-1))|done|done|].
  cbn [mbind option_bind].
  assert (proper (Region b (p_size q + s))) as Hp' by (unfold proper, p_end in *; simpl; lia).
  assert (adds (A ++ q :: B) (A ++ Region b (p_size q + s) :: B)) as Hadds by by apply adds_above.
  destruct B as [|q2 B].
  - rewrite (merge_last r1 A _ 1 H5). cbn [mbind option_bind truthy Z.eqb negb].
    eexists _, _, _. split; [done|]. split; [lia|]. split; [done|]. split; [done|]. len.
  - destruct H4 as (H6 & H7 & H8' & H9). assert (proper q2) as Hq2 by (unfold proper, p_end in *; lia).
    destruct (merge_pair r1 A _ q2 B 1 H5 Hp' Hq2) as (r2 & -> & H10); [unfold p_end in *; simpl; lia|].
    cbn [mbind option_bind]. eexists _, _, _. unfold p_end in *; cbn [p_base p_size] in *.
    destruct (Z.eqb_spec (b + (p_size q + s)) (p_base q2)) as [E|E]; [lia|].
    split; [done|]. split; [lia|]. split; [done|]. split; [done|]. len.
Qed.

Lemma run_add_apart r A B : holds r (A ++ B) -> spaced (-1) (A ++ B) -> A ++ B <> [] ->
  (length (A ++ B) <= 8)%nat -> stop (-1) A < b -> spaced (b + s) B ->
  added r (A ++ B) \/ (lmb_add_region r b s = Some (-1, r) /\ length (A ++ B) = 8%nat /\ Forall away (A ++ B)).
Proof.
  intros Hr Hl Hne H8 HAb HB. pose proof Hl as (HA & _)%spaced_app.
  assert (Forall proper (A ++ B)) as Hp by (by apply (spaced_proper (-1)); [lia|]).
  assert (Forall away (A ++ B)) as Hw.
  { apply list.Forall_app; split; [by apply (below_away (-1))|by apply above_away]. }
  assert (exists h l, A ++ B = h :: l) as (h & l & El) by (destruct (A ++ B); [done|eauto]).
  assert (holds r (h :: l)) as Hr' by by rewrite <- El.
  pose proof (add_region_unfold r h l Hr') as Hun.
  assert (0 < p_size h) as Hh by (rewrite El in Hl; simpl in Hl; tauto).
  specialize (Hun Hh). rewrite (search_apart r (A ++ B) Hr Hp Hw) in Hun. cbn [mbind option_bind] in Hun.
  pose proof Hr as (C & _ & Hc & H9). unfold merge_next in Hun. rewrite Hc in Hun.
  rewrite u32_small in Hun by (rewrite El in *; len).
  destruct (Z.ltb_spec (at_ (A ++ B)) (at_ (A ++ B) - 1)); [lia|]. cbn [mbind option_bind truthy Z.eqb negb] in Hun.
  rewrite Hc in Hun. unfold MAX_LMB_REGIONS in Hun. destruct (Z.leb_spec 8 (at_ (A ++ B))).
  - right. rewrite Hun. split; [done|]. split; [lia|done].
  - left. destruct (run_insert r A B Hr) as (r' & Hi & Hr2); [rewrite El in *; len|..].
    { apply list.Forall_forall. intros p Hp'. destruct (spaced_in _ _ _ HA Hp') as (? & ? & ? & ?).
      unfold p_end in *. lia. }
    { apply list.Forall_forall. intros p Hp'. destruct (spaced_in _ _ _ HB Hp'). lia. }
    exists 0, r', (A ++ Region b s :: B). rewrite Hun, Hi. split; [done|]. split; [lia|]. split; [done|].
    split; [by apply adds_apart|]. len.
Qed.

Lemma runs_add r l : holds r l -> l <> [] -> (length l <= 8)%nat -> spaced (-1) l ->
  (forall a, b <= a < b + s -> ~ cover l a) ->
  added r l \/ (lmb_add_region r b s = Some (-1, r) /\ length l = 8%nat /\ Forall away l).
Proof.
  intros Hr Hne H8 Hl Hfree.
  destruct (gap_split (-1) l b (b + s) Hl ltac:(lia) Hfree) as (A & B & -> & HA & HB & HB').
  destruct (decide (stop (-1) A = b)) as [Hab|Hab].
  - left. destruct A as [|p A _] using rev_ind; [simpl in Hab; lia|].
    rewrite stop_app in Hab. simpl in Hab. rewrite <- app_assoc in *. by apply run_add_below.
  - destruct B as [|q B]; [apply run_add_apart; simpl; try done; lia|].
    destruct (decide (p_base q = b + s)); [left; apply run_add_above; try done; lia|].
    apply run_add_apart; try done; [lia|]. destruct HB as (? & ? & ? & ?). simpl. split; [lia|done].
Qed.
End Add.

(** *** Freeing a region *)
Section Free.
Context (b s : Z) (Hb : 0 <= b) (Hs : 0 < s) (He : b + s < 2 ^ 32).

Definition contains (p : lmb_property) : Prop := p_base p <= b /\ b + s <= p_end p.

Definition removes (l l' : list lmb_property) : Prop :=
  spaced (-1) l' /\ forall a, cover l' a <-> cover l a /\ ~ (b <= a < b + s).

(** What is left of the region [p] that contains the block. *)
Lemma removes_part A p B mid : spaced (-1) (A ++ p :: B) -> contains p ->
  spaced (p_base p - 1) mid -> stop (p_base p - 1) mid <= p_end p ->
  (forall a, cover mid a <-> p_base p <= a < p_end p /\ ~ (b <= a < b + s)) ->
  removes (A ++ p :: B) (A ++ mid ++ B).
Proof.
  intros Hl [Hpb Hpe] Hm Hme Hc. apply spaced_app in Hl as (HA & H1 & H2 & H3 & HB). split.
  - apply spaced_app. split; [done|]. apply spaced_app. split.
    + apply (spaced_lower (p_base p - 1)); [lia|done].
    + apply (spaced_lower (p_end p)); [|done]. destruct mid; simpl in *; [unfold p_end in *; lia|done].
  - intros a. rewrite !Exists_app, Exists_cons, Hc. unfold within.
    assert (cover A a -> ~ b <= a < b + s) as HA'.
    { intros Ha. apply (cover_above _ _ _ HA) in Ha. lia. }
    assert (cover B a -> ~ b <= a < b + s) as HB2.
    { intros Ha. apply (cover_above _ _ _ HB) in Ha. lia. }
    tauto.
Qed.

Definition found (p : lmb_property) : bool := (p_base p <=? b) && (u32 (b + s) <=? u32 (p_base p + p_size p)).
Lemma found_contains p : proper p -> found p = true <-> contains p.
Proof.
  unfold proper, found, contains, p_end. intros (? & ? & ?). rewrite !u32_small by lia.
  destruct (Z.leb_spec (p_base p) b), (Z.leb_spec (b + s) (p_base p + p_size p)); simpl; intuition (done || lia).
Qed.

Lemma free_skip n r P A B x y : holds r (P ++ A ++ B) -> Forall (fun p => found p = false) A ->
  exists x' y', free_search (length A + n) r b (u32 (b + s)) (at_ P) x y =
    free_search n r b (u32 (b + s)) (at_ (P ++ A)) x' y'.
Proof.
  revert P x y. induction A as [|p A IH]; intros P x y Hr Ha; [exists x, y; by rewrite app_nil_r|].
  apply list.Forall_cons in Ha as [Ha1 Ha]. cbn [length Nat.add free_search].
  pose proof Hr as (C & _ & Hc & _). rewrite Hc.
  destruct (Z.ltb_spec (at_ P) (at_ (P ++ (p :: A) ++ B))); [|len].
  rewrite (holds_entry r P p (A ++ B) Hr). cbn [mbind option_bind]. cbv zeta.
  unfold found in Ha1. rewrite Ha1. rewrite <- (at_snoc P p).
  replace (P ++ p :: A) with ((P ++ [p]) ++ A) by (by rewrite <- app_assoc).
  apply IH; [by rewrite <- app_assoc|done].
Qed.

Lemma free_search_start r A B : holds r (A ++ B) -> Forall (fun p => found p = false) A ->
  exists n x y, free_search rounds r b (u32 (b + s)) 0 0 0 =
    free_search (S n) r b (u32 (b + s)) (at_ A) x y.
Proof.
  intros Hr Hl. pose proof Hr as (C & _ & _ & H9).
  destruct (free_skip (S (rounds - S (length A))) r [] A B 0 0 Hr Hl) as (x & y & E).
  exists (rounds - S (length A))%nat, x, y. cbn [app] in E. rewrite <- E. f_equal. unfold rounds. len.
Qed.

Lemma free_found r A p B : holds r (A ++ p :: B) -> Forall (fun p => found p = false) A -> found p = true ->
  free_search rounds r b (u32 (b + s)) 0 0 0 = Some (at_ A, p_base p, u32 (p_base p + p_size p)).
Proof.
  intros Hr HA Hp. pose proof Hr as (C & _ & Hc & _).
  destruct (free_search_start r A (p :: B) Hr HA) as (n & x & y & ->). cbn [free_search]. rewrite Hc.
  destruct (Z.ltb_spec (at_ A) (at_ (A ++ p :: B))); [|len].
  rewrite (holds_entry _ _ _ _ Hr). cbn [mbind option_bind]. cbv zeta. unfold found in Hp. by rewrite Hp.
Qed.
Lemma free_missing r l : holds r l -> Forall (fun p => found p = false) l ->
  lmb_free_region r b s = Some (-1, r).
Proof.
  intros Hr Hl. pose proof Hr as (C & _ & Hc & _). rewrite <- (app_nil_r l) in Hr.
  unfold lmb_free_region. cbv zeta.
  destruct (free_search_start r l [] Hr Hl) as (n & x & y & ->). cbn [free_search]. rewrite Hc.
  rewrite Z.ltb_irrefl. cbn [mbind option_bind]. by rewrite Z.eqb_refl.
Qed.

(** The block lies in [p]: what becomes of the table. *)
Lemma run_free r A p B : holds r (A ++ p :: B) -> (length (A ++ p :: B) <= 8)%nat ->
  spaced (-1) (A ++ p :: B) -> contains p ->
  exists c r' l', lmb_free_region r b s = Some (c, r') /\ holds r' l' /\ (length l' <= 8)%nat /\
    ((0 <= c /\ removes (A ++ p :: B) l') \/
     (c = -1 /\ length (A ++ p :: B) = 8%nat /\ b + s < p_end p /\
      l' = A ++ Region (p_base p) (b - p_base p) :: B /\ p_base p < b)).
Proof.
  intros Hr H8 Hl Hcp. pose proof Hl as (HA & H1 & H2 & H3 & HB)%spaced_app.
  pose proof (spaced_stop _ _ HA) as Hlo. assert (proper p) as Hp by (unfold proper; lia).
  pose proof Hcp as [Hpb Hpe].
  assert (Forall (fun p => found p = false) A) as HnA.
  { apply list.Forall_forall. intros q Hq. destruct (spaced_in _ _ _ HA Hq) as (? & ? & ? & ?).
    destruct (found q) eqn:E; [|done]. apply found_contains in E; [|unfold proper; lia].
    destruct E. lia. }
  unfold lmb_free_region. cbv zeta.
  rewrite (free_found r A p B Hr HnA) by (by apply found_contains). cbn [mbind option_bind].
  pose proof Hr as (C & _ & Hc & H9). rewrite Hc. unfold p_end in *.
  destruct (Z.eqb_spec (at_ A) (at_ (A ++ p :: B))); [len|]. rewrite !u32_small by lia.
  assert (forall mid, spaced (p_base p - 1) mid -> stop (p_base p - 1) mid <= p_end p ->
    (forall a, cover mid a <-> p_base p <= a < p_end p /\ ~ (b <= a < b + s)) ->
    removes (A ++ p :: B) (A ++ mid ++ B)) as Hrem.
  { intros mid. by apply removes_part. }
  unfold p_end in *.
  destruct (Z.eqb_spec (p_base p) b) as [E1|E1], (Z.eqb_spec (p_base p + p_size p) (b + s)) as [E2|E2]; cbn [andb].
  - destruct (holds_remove r A p B Hr) as (r' & -> & Hr'). exists 0, r', (A ++ B).
    split_and!; [done|done|len|]. left. split; [lia|]. apply (Hrem []); simpl; [done|lia|].
    intros a. rewrite Exists_nil. lia.
  - rewrite (holds_entry _ _ _ _ Hr). cbn [mbind option_bind]. rewrite ?u32_small by lia.
    destruct (holds_set r A p (Region (b + s) (p_size p - s)) B Hr) as (r' & -> & Hr').
    exists 0, r', (A ++ Region (b + s) (p_size p - s) :: B). split_and!; [done|done|len|]. left. split; [lia|].
    apply (Hrem [Region (b + s) (p_size p - s)]); cbn; [unfold p_end; cbn; lia|unfold p_end; cbn; lia|].
    intros a. rewrite Exists_cons, Exists_nil. unfold within, p_end. cbn. lia.
  - rewrite (holds_entry _ _ _ _ Hr). cbn [mbind option_bind]. rewrite ?u32_small by lia.
    destruct (holds_set r A p (Region (p_base p) (p_size p - s)) B Hr) as (r' & -> & Hr').
    exists 0, r', (A ++ Region (p_base p) (p_size p - s) :: B). split_and!; [done|done|len|]. left. split; [lia|].
    apply (Hrem [Region (p_base p) (p_size p - s)]); cbn; [unfold p_end; cbn; lia|unfold p_end; cbn; lia|].
    intros a. rewrite Exists_cons, Exists_nil. unfold within, p_end. cbn. lia.
  - rewrite (holds_entry _ _ _ _ Hr). cbn [mbind option_bind]. rewrite ?u32_small by lia.
    destruct (holds_set r A p (Region (p_base p) (b - p_base p)) B Hr) as (r1 & -> & H5).
    cbn [mbind option_bind].
    set (q := Region (p_base p) (b - p_base p)) in *. set (m := A ++ q :: B) in *.
    destruct (Hrem [q; Region (b + s) (p_base p + p_size p - (b + s))]) as [_ Hcov];
      [unfold q; cbn; unfold p_end; cbn; lia|unfold q; cbn; unfold p_end; cbn; lia| |].
    { intros a. rewrite !Exists_cons, Exists_nil. unfold within, p_end, q. cbn. lia. }
    assert (forall a, cover (A ++ p :: B) a /\ ~ (b <= a < b + s) <->
      cover m a \/ b + s <= a < b + s + (p_base p + p_size p - (b + s))) as Hcov'.
    { intros a. rewrite <- Hcov. unfold m. rewrite !Exists_app, !Exists_cons, Exists_nil.
      assert (forall e, within a (Region (b + s) e) <-> b + s <= a < b + s + e) as -> by done. tauto. }
    assert (spaced (-1) m) as Hm.
    { apply spaced_app. split; [done|]. unfold q. cbn. unfold p_end. cbn. repeat split; try lia.
      apply (spaced_lower (p_base p + p_size p)); [lia|done]. }
    destruct (runs_add (b + s) (p_base p + p_size p - (b + s)) ltac:(lia) ltac:(lia) ltac:(lia) r1 m H5)
      as [(c & r2 & l' & -> & ? & ? & [? Hadd] & ? & ?)|(-> & Hl8 & _)]; [by destruct A|unfold m in *; len|done| |..].
    { intros a Ha Hm'. unfold m in Hm'. rewrite Exists_app, Exists_cons in Hm'.
      destruct Hm' as [Hc1|[Hw|Hc1]].
      - apply (cover_above _ _ _ HA) in Hc1. lia.
      - unfold within, p_end, q in Hw. cbn in Hw. lia.
      - apply (cover_above _ _ _ HB) in Hc1. unfold p_end in *. lia. }
    + exists c, r2, l'. split_and!; [done..|]. left. split; [done|]. split; [done|].
      intros a. by rewrite Hadd, Hcov'.
    + exists (-1), r1, m. split_and!; [done|done|unfold m in *; len|]. right.
      split_and!; [done|unfold m in *; len|lia|done|lia].
Qed.
End Free.

(** *** Every call stays within the array

    Whatever the regions of a table are, also when they overlap. *)
Definition room (r : lmb_region) : Prop := length (r_region r) = 9%nat.

Lemma entry_total r i : room r -> 0 <= i < 9 -> exists p, entry r i = Some p.
Proof.
  unfold room, entry. intros Hr Hi. destruct (Z.leb_spec 0 i); [|lia].
  apply lookup_lt_is_Some. lia.
Qed.
Lemma set_total r i p : room r -> 0 <= i < 9 ->
  exists r', set_entry r i p = Some r' /\ room r' /\ r_cnt r' = r_cnt r.
Proof.
  unfold room, set_entry. intros Hr Hi.
  destruct (Z.leb_spec 0 i), (Z.ltb_spec i (Z.of_nat (length (r_region r)))); try lia.
  eexists. split; [done|]. cbn [r_region r_cnt]. by rewrite length_insert.
Qed.

Ltac table_step :=
  match goal with
  | H : room ?r |- context [entry ?r ?i] =>
      let p := fresh "p" in let E := fresh "E" in
      destruct (entry_total r i H) as [p E]; [lia|]; rewrite E
  | H : room ?r |- context [set_entry ?r ?i ?q] =>
      let r' := fresh "r" in let E := fresh "E" in let Hr := fresh "Hr" in let Hc := fresh "Hc" in
      destruct (set_total r i q H) as (r' & E & Hr & Hc); [lia|]; rewrite E
  end; cbn [mbind option_bind].

Lemma remove_loop_total n r i : room r -> 0 <= i < r_cnt r -> r_cnt r <= 9 -> r_cnt r - 1 - i < Z.of_nat n ->
  exists r', remove_loop n r i = Some r' /\ room r' /\ r_cnt r' = r_cnt r.
Proof.
  revert r i. induction n as [|n IH]; intros r i Hr Hi Hc Hn; [lia|]. cbn [remove_loop].
  rewrite u32_small by lia. destruct (Z.ltb_spec i (r_cnt r - 1)); [|by exists r]. do 2 table_step.
  rewrite <- Hc0. apply IH; [done|lia..].
Qed.
Lemma remove_total r i : room r -> 0 <= i < r_cnt r -> r_cnt r <= 9 ->
  exists r', lmb_remove_region r i = Some r' /\ room r' /\ r_cnt r' = r_cnt r - 1.
Proof.
  intros Hr Hi Hc. unfold lmb_remove_region.
  destruct (remove_loop_total rounds r i) as (r' & -> & Hr' & Hc'); [done|done|done|unfold rounds; lia|].
  cbn [mbind option_bind]. rewrite Hc', u32_small by lia. by eexists.
Qed.

Lemma search_total n r b s i : room r -> 1 <= r_cnt r <= 9 -> 0 <= i <= r_cnt r ->
  r_cnt r - i < Z.of_nat n ->
  exists st, add_search n r b s i = Some st /\
    match st with
    | Already => True
    | Stopped r' j c => room r' /\ r_cnt r' = r_cnt r /\ 0 <= j <= r_cnt r /\ (c = 1 \/ c = 0 /\ r' = r /\ j = r_cnt r)
    end.
Proof.
  revert i. induction n as [|n IH]; intros i Hr Hc Hi Hn; [lia|]. cbn [add_search].
  destruct (Z.ltb_spec i (r_cnt r)).
  2:{ eexists. split; [done|]. split_and!; try done; try lia. right. split_and!; [done|done|lia]. }
  table_step. destruct (_ && _); [by eexists|]. cbv zeta.
  destruct (0 <? _); [table_step; eexists; split; [done|]; split_and!; try done; try lia; by left|].
  destruct (_ <? 0); [table_step; eexists; split; [done|]; split_and!; try done; try lia; by left|].
  apply IH; [done|done|lia..].
Qed.

Lemma merge_total r i c : room r -> 1 <= r_cnt r <= 9 -> 0 <= i ->
  exists r' c', merge_next r i c = Some (r', c') /\ room r' /\ (c' = c + 1 \/ c' = c /\ r' = r).
Proof.
  intros Hr Hc Hi. unfold merge_next. rewrite u32_small by lia.
  destruct (Z.ltb_spec i (r_cnt r - 1)); [|exists r, c; tauto].
  unfold lmb_regions_adjacent. do 2 table_step.
  destruct (truthy _); [|exists r, c; tauto]. unfold lmb_coalesce_regions. rewrite E, E0.
  cbn [mbind option_bind]. table_step.
  destruct (remove_total r0 (i + 1)) as (r' & -> & ? & ?); [done|lia|lia|]. cbn [mbind option_bind].
  exists r', (c + 1). tauto.
Qed.

Lemma insert_total n r b s i : room r -> -1 <= i <= 7 -> i + 1 < Z.of_nat n ->
  exists r', insert_loop n r b s i = Some r' /\ room r' /\ r_cnt r' = r_cnt r.
Proof.
  revert r i. induction n as [|n IH]; intros r i Hr Hi Hn; [lia|]. cbn [insert_loop].
  destruct (Z.leb_spec 0 i); [|by exists r]. table_step. destruct (b <? p_base p).
  - table_step. rewrite <- Hc. apply IH; [done|lia..].
  - destruct (set_total r (i + 1) (Region b s) Hr) as (r' & -> & ?); [lia|]. by exists r'.
Qed.

(** [lmb_add_region] fails only on a full table, and then leaves it alone. *)
Lemma add_total r b s : room r -> 1 <= r_cnt r <= 8 ->
  exists c r', lmb_add_region r b s = Some (c, r') /\
    (0 <= c \/ c = -1 /\ r' = r /\ r_cnt r = 8).
Proof.
  intros Hr Hc. unfold lmb_add_region. table_step. destruct (_ && _).
  { table_step. exists 0, r0. split; [done|]. by left. }
  destruct (search_total rounds r b s 0) as (st & -> & Hst); [done|lia|lia|unfold rounds; lia|].
  cbn [mbind option_bind]. destruct st as [|r1 j c]; [exists 0, r; split; [done|by left]|].
  destruct Hst as (Hr1 & Hc1 & Hj & Hcj).
  change (exists c0 r', (next ← merge_next r1 j c;
       let '(rgn, coalesced) := next : lmb_region * Z in
       if truthy coalesced then Some (coalesced, rgn)
       else if MAX_LMB_REGIONS <=? r_cnt rgn then Some (-1, rgn) else insert_region b s rgn) = Some (c0, r') /\
    (0 <= c0 \/ c0 = -1 /\ r' = r /\ r_cnt r = 8)).
  destruct (merge_total r1 j c) as (r2 & c2 & -> & Hr2 & Hc2); [done|lia|lia|]. cbn [mbind option_bind].
  destruct (truthy c2) eqn:Et; [exists c2, r2; split; [done|]; left; lia|].
  apply truthy_false in Et. assert (r2 = r) as -> by (destruct Hcj as [|(? & -> & _)], Hc2 as [|[? ->]]; try lia; done).
  unfold MAX_LMB_REGIONS. destruct (Z.leb_spec 8 (r_cnt r)); [exists (-1), r; split; [done|]; right; split_and!; [done|done|lia]|].
  unfold insert_region. rewrite s32_small by lia.
  destruct (insert_total rounds r b s (r_cnt r - 1)) as (r3 & -> & Hr3 & Hc3); [done|lia|unfold rounds; lia|].
  cbn [mbind option_bind]. table_step. destruct (b <? p_base p0).
  - table_step. eexists 0, _. split; [done|by left].
  - eexists 0, _. split; [done|by left].
Qed.

(** *** Searching for a free block *)

(** The regions of a well-formed table, the empty one included. *)
Definition regular (p : lmb_property) : Prop := proper p \/ p = Region 0 0.
Lemma wf_regular r : table_wf r -> Forall regular (regions r).
Proof.
  intros [_ _ [->|Hs]]; [by repeat constructor; right|].
  eapply list.Forall_impl; [by apply (spaced_proper (-1)); [lia|exact Hs]|]. by left.
Qed.

Section Overlap.
Context (b s : Z) (Hb : 0 <= b) (Hs : 0 < s) (He : b + s < 2 ^ 32).

Definition overlaps (p : lmb_property) : bool := lmb_addrs_overlap b s (p_base p) (p_size p).
Lemma overlaps_spec p : regular p ->
  if overlaps p then proper p /\ p_base p < b + s /\ b < p_end p
  else forall a, b <= a < b + s -> ~ within a p.
Proof.
  unfold overlaps, lmb_addrs_overlap, within, p_end. intros [(? & ? & ?)| ->].
  - unfold p_end in *. rewrite !u32_small by lia.
    destruct (Z.ltb_spec b (p_base p + p_size p)), (Z.ltb_spec (p_base p) (b + s)); cbn [andb]; try lia.
    split; [|lia]. unfold proper, p_end. lia.
  - cbn [p_base p_size]. destruct (Z.ltb_spec b (u32 (0 + 0))); cbn [andb]; [|lia].
    change (u32 (0 + 0)) with 0 in *. lia.
Qed.

Lemma overlap_search_spec n r P l : holds r (P ++ l) -> Forall regular l -> (length l < n)%nat ->
  exists A B, l = A ++ B /\ overlap_search n r b s (at_ P) = Some (at_ (P ++ A)) /\
    Forall (fun p => overlaps p = false) A /\ match B with [] => True | p :: _ => overlaps p = true end.
Proof.
  revert P l. induction n as [|n IH]; intros P l Hr Hl Hn; [lia|]. cbn [overlap_search].
  pose proof Hr as (C & _ & Hc & _). rewrite Hc.
  destruct l as [|p l].
  - exists [], []. rewrite !app_nil_r, Z.ltb_irrefl. by repeat constructor.
  - destruct (Z.ltb_spec (at_ P) (at_ (P ++ p :: l))); [|len].
    rewrite (holds_entry _ _ _ _ Hr). cbn [mbind option_bind]. fold (overlaps p).
    destruct (overlaps p) eqn:Ep; [exists [], (p :: l); by rewrite app_nil_r|].
    apply list.Forall_cons in Hl as [_ Hl]. rewrite <- (at_snoc P p).
    destruct (IH (P ++ [p]) l) as (A & B & -> & -> & HA & HB); [by rewrite <- app_assoc|done|len|].
    exists (p :: A), B. rewrite <- app_assoc. split_and!; [done|done|by constructor|done].
Qed.

(** [lmb_overlaps_region]: -1 when the block is free, otherwise the index of the
    first region it touches. *)
Lemma overlaps_region_spec r : table_wf r ->
  exists j, lmb_overlaps_region r b s = Some j /\
   ((j = -1 /\ forall a, b <= a < b + s -> ~ covered r a) \/
    exists A p B, regions r = A ++ p :: B /\ j = at_ A /\ entry r j = Some p /\ proper p /\
      p_base p < b + s /\ b < p_end p /\ Forall (fun p => overlaps p = false) A).
Proof.
  intros Hwf. pose proof (wf_holds r Hwf) as Hr. pose proof (wf_regular r Hwf) as Hreg.
  pose proof Hr as (C & _ & Hc & H9).
  destruct (overlap_search_spec rounds r [] (regions r) Hr Hreg) as (A & B & El & Es & HA & HB);
    [unfold rounds; len|]. unfold lmb_overlaps_region. change 0 with (at_ (@nil lmb_property)).
  rewrite Es. cbn [app mbind option_bind]. eexists. split; [done|]. rewrite Hc, El.
  destruct B as [|p B].
  - left. rewrite app_nil_r, Z.ltb_irrefl. split; [done|]. intros a Ha Hcov. unfold covered in Hcov.
    rewrite El, app_nil_r in Hcov. rewrite El, app_nil_r in Hreg.
    apply list.Exists_exists in Hcov as (p & Hp & Hw).
    rewrite list.Forall_forall in HA, Hreg. pose proof (overlaps_spec p (Hreg p Hp)) as Ho.
    rewrite (HA p Hp) in Ho. by apply (Ho a).
  - right. destruct (Z.ltb_spec (at_ A) (at_ (A ++ p :: B))); [|len].
    rewrite El in Hr, Hreg. exists A, p, B. apply list.Forall_app in Hreg as [_ Hreg].
    apply list.Forall_cons in Hreg as [Hreg _]. pose proof (overlaps_spec p Hreg) as Ho. rewrite HB in Ho.
    split_and!; try tauto. apply (holds_entry _ _ _ _ Hr).
Qed.
End Overlap.

(** *** Alignment *)
Lemma align_down_pow2 x k : 0 <= k < 32 -> lmb_align_down x (2 ^ k) = 2 ^ k * (x / 2 ^ k).
Proof.
  intros Hk. assert (0 < 2 ^ k < 2 ^ 32) by (split; [apply Z.pow_pos_nonneg|apply Z.pow_lt_mono_r]; lia).
  unfold lmb_align_down. rewrite u32_small by lia. replace (2 ^ k - 1) with (Z.ones k) by (rewrite Z.ones_equiv; lia).
  rewrite Z.ldiff_ones_r, Z.shiftl_mul_pow2, Z.shiftr_div_pow2 by lia. lia.
Qed.
(** Rounding down gives the greatest multiple. *)
Lemma align_down_greatest x k : 0 <= k < 32 ->
  (2 ^ k | lmb_align_down x (2 ^ k)) /\ lmb_align_down x (2 ^ k) <= x /\
  forall c, (2 ^ k | c) -> c <= x -> c <= lmb_align_down x (2 ^ k).
Proof.
  intros Hk. rewrite align_down_pow2 by done. assert (0 < 2 ^ k) by (apply Z.pow_pos_nonneg; lia).
  split; [by exists (x / 2 ^ k); lia|]. split; [apply Z.mul_div_le; lia|].
  intros c [q ->] Hc. assert (q <= x / 2 ^ k) by (apply Z.div_le_lower_bound; lia). nia.
Qed.

(** *** The allocator *)
Section Alloc.
Context (l : lmb) (size k : Z) (n : nat).
Context (Hmem : table_wf (l_memory l)) (Hres : table_wf (l_reserved l)).
Context (Hsize : 0 < size < 2 ^ 32) (Hk : 0 <= k < 32) (Hn : (9 < n)%nat).

(** A block of [size] bytes at [c]: at a multiple of the alignment other than
    zero, and nothing in it reserved. *)
Definition vacant (c : Z) : Prop :=
  0 < c /\ (2 ^ k | c) /\ forall a, c <= a < c + size -> ~ covered (l_reserved l) a.

(** What [__lmb_alloc_base] answers when [c] is the block it settles on. *)
Definition settles (c : Z) (res : Z * lmb) : Prop :=
  exists code r', lmb_add_region (l_reserved l) c (lmb_align_up size (2 ^ k)) = Some (code, r') /\
    res = (if code <? 0 then 0 else c, with_reserved r' l).

Lemma alloc_while_spec m lmbbase base A B :
  0 <= lmbbase -> 0 <= base -> base + size < 2 ^ 32 -> (2 ^ k | base) ->
  regions (l_reserved l) = A ++ B -> (length A < m)%nat ->
  Forall (fun p => base + size <= p_base p) B ->
  exists res, alloc_while m l size (2 ^ k) lmbbase base = Some res /\
    match res with
    | None => forall c, lmbbase <= c <= base -> ~ vacant c
    | Some res => exists c, lmbbase <= c <= base /\ vacant c /\ settles c res /\
        forall c', lmbbase <= c' <= base -> vacant c' -> c' <= c
    end.
Proof.
  intros Hlb. revert base A B. induction m as [|m IH]; intros base A B Hb He Hal Hl Hm HB; [lia|].
  cbn [alloc_while]. destruct (Z.leb_spec lmbbase base) as [Hle|Hgt].
  2:{ rewrite andb_false_r. exists None. split; [done|]. intros c Hc. lia. }
  rewrite andb_true_r. destruct (truthy base) eqn:E0.
  2:{ apply truthy_false in E0. exists None. split; [done|]. intros c Hc [Hc0 _]. lia. }
  apply truthy_true in E0.
  destruct (overlaps_region_spec base size Hb ltac:(lia) He (l_reserved l) Hres)
    as (j & -> & [[-> Hfree]|(A' & p & B' & Hreg & -> & Hp & (Hp1 & Hp2 & Hp3) & Hlow & Hhigh & Hfirst)]);
    cbn [mbind option_bind].
  - cbn [Z.ltb Z.compare]. pose proof Hres as [Hroom Hcnt _]. unfold MAX_LMB_REGIONS in Hcnt.
    destruct (add_total (l_reserved l) base (lmb_align_up size (2 ^ k)) Hroom Hcnt) as (c & r' & Hadd & _).
    rewrite Hadd. cbn [mbind option_bind fst snd]. eexists. split; [done|]. exists base.
    split; [lia|]. split; [split_and!; [lia|done|done]|]. split; [by exists c, r'|]. intros c' Hc' _. lia.
  - destruct (Z.ltb_spec (at_ A') 0); [lia|]. rewrite Hp. cbn [mbind option_bind].
    assert (forall c, c <= base -> vacant c -> c + size <= p_base p) as Hbelow.
    { intros c Hc (_ & _ & Hv). destruct (Z.le_gt_cases (c + size) (p_base p)) as [|Hov]; [done|exfalso].
      apply (Hv (Z.max c (p_base p))); [unfold p_end in *; lia|]. unfold covered. rewrite Hreg.
      apply Exists_app. right. apply Exists_cons. left. unfold within. unfold p_end in *. lia. }
    destruct (Z.ltb_spec (p_base p) size).
    { exists None. split; [done|]. intros c Hc Hv. pose proof (Hbelow c ltac:(lia) Hv).
      destruct Hv. lia. }
    rewrite u32_small by (unfold p_end in *; lia).
    destruct (align_down_greatest (p_base p - size) k Hk) as (Hal' & Hdown & Hmax).
    set (base' := lmb_align_down (p_base p - size) (2 ^ k)) in *.
    assert (0 <= base') by (apply Hmax; [by exists 0|lia]).
    assert (forall c, c <= base -> vacant c -> c <= base') as Hto.
    { intros c Hc Hv. pose proof (Hbelow c Hc Hv). destruct Hv as (_ & Hd & _). apply Hmax; [done|lia]. }
    assert (length A' < length A)%nat.
    { destruct (Nat.lt_ge_cases (length A') (length A)) as [|Hge]; [done|exfalso].
      assert (p ∈ B) as HpB.
      { apply (list_elem_of_lookup_2 _ (length A' - length A)).
        rewrite <- (lookup_app_r A B) by done. rewrite <- Hl, Hreg. apply list_lookup_middle. lia. }
      rewrite list.Forall_forall in HB. specialize (HB p HpB). cbn beta in HB. lia. }
    assert (spaced (-1) (regions (l_reserved l))) as Hsp.
    { destruct (wf_regions _ Hres) as [E|]; [|done]. exfalso. rewrite E in Hreg.
      destruct A' as [|? [|]]; simplify_eq/=; lia. }
    rewrite Hreg in Hsp. apply spaced_app in Hsp as (_ & _ & _ & _ & HsB).
    destruct (IH base' A' (p :: B')) as (res & -> & Hr); [done|lia|done|done|lia| |].
    { constructor; [lia|]. apply list.Forall_forall. intros q Hq.
      destruct (spaced_in _ _ _ HsB Hq) as (? & _). unfold p_end in *. lia. }
    exists res. split; [done|]. destruct res as [res|].
    + destruct Hr as (c & Hc & Hv & Hs & Hgreat). exists c. split; [lia|]. split_and!; [done|done|].
      intros c' Hc' Hv'. apply Hgreat; [|done]. split; [lia|]. apply Hto; [lia|done].
    + intros c Hc Hv. apply (Hr c); [|done]. split; [lia|]. apply Hto; [lia|done].
Qed.

(** The block at [c] lies in the region [p], below the limit if there is one. *)
Definition lies_in (max_addr : Z) (p : lmb_property) (c : Z) : Prop :=
  p_base p <= c /\ c + size <= p_end p /\ (max_addr = LMB_ALLOC_ANYWHERE \/ c + size <= max_addr).

Lemma alloc_start_spec max_addr p : regular p ->
  max_addr = LMB_ALLOC_ANYWHERE \/ size <= max_addr < 2 ^ 32 ->
  match alloc_start p size (2 ^ k) max_addr with
  | None => forall c, ~ lies_in max_addr p c
  | Some base => proper p /\ 0 <= base /\ base + size < 2 ^ 32 /\ (2 ^ k | base) /\
      forall c, (2 ^ k | c) -> (lies_in max_addr p c <-> p_base p <= c <= base)
  end.
Proof.
  intros Hp Hmax. unfold alloc_start, lies_in. destruct (Z.ltb_spec (p_size p) size).
  { intros c Hc. unfold p_end in *. lia. }
  destruct Hp as [Hp| ->]; [|cbn in *; lia]. pose proof Hp as (H1 & H2 & H3).
  assert (forall lim, size <= lim <= p_end p ->
    let base := lmb_align_down (u32 (lim - size)) (2 ^ k) in
    0 <= base /\ base + size < 2 ^ 32 /\ (2 ^ k | base) /\
    forall c, (2 ^ k | c) -> (c + size <= lim <-> c <= base)) as Hstart.
  { intros lim Hlim. cbv zeta. rewrite u32_small by (unfold p_end in *; lia).
    destruct (align_down_greatest (lim - size) k Hk) as (Hal & Hdown & Hgreat).
    split; [apply Hgreat; [by exists 0|lia]|]. split; [unfold p_end in *; lia|]. split; [done|].
    intros c Hc. split; [intros; apply Hgreat; [done|lia]|lia]. }
  destruct (Z.eqb_spec max_addr LMB_ALLOC_ANYWHERE) as [Ea|Ea].
  - change (p_base p + p_size p) with (p_end p).
    destruct (Hstart (p_end p)) as (Ha & Hb & Hc & Hd); [unfold p_end in *; lia|].
    split_and!; [done..|]. intros c Hc'. specialize (Hd c Hc'). unfold p_end in *. intuition lia.
  - destruct Hmax as [|Hmax]; [done|]. destruct (Z.ltb_spec (p_base p) max_addr) as [Hlt|Hge].
    2:{ intros c Hc. destruct Hc as (? & ? & [|]); [done|lia]. }
    cbv zeta. rewrite (u32_small (p_base p + p_size p)) by (unfold p_end in *; lia).
    destruct (Z.ltb_spec (p_base p + p_size p) (p_base p)); [lia|].
    destruct (Hstart (Z.min (p_base p + p_size p) max_addr)) as (Ha & Hb & Hc & Hd); [unfold p_end in *; lia|].
    split_and!; [done..|]. intros c Hc'. specialize (Hd c Hc'). unfold p_end in *. intuition lia.
Qed.

Lemma alloc_regions_spec max_addr j L R :
  max_addr = LMB_ALLOC_ANYWHERE \/ size <= max_addr < 2 ^ 32 ->
  regions (l_memory l) = L ++ R -> length L = j ->
  exists res, alloc_regions n j l size (2 ^ k) max_addr = Some res /\
   ((exists c p, p ∈ L /\ lies_in max_addr p c /\ vacant c /\ settles c res /\
       forall p' c', p' ∈ L -> lies_in max_addr p' c' -> vacant c' -> c' <= c) \/
    (res = (0, l) /\ forall p c, p ∈ L -> lies_in max_addr p c -> ~ vacant c)).
Proof.
  intros Hmax. revert L R. induction j as [|j IH]; intros L R HL Hj; cbn [alloc_regions].
  { apply nil_length_inv in Hj as ->. exists (0, l). split; [done|]. right. split; [done|].
    by intros p c ?%elem_of_nil. }
  destruct L as [|p L _] using rev_ind; [done|]. rewrite length_app in Hj. cbn [length] in Hj.
  rewrite <- app_assoc in HL. cbn [app] in HL.
  pose proof (wf_holds _ Hmem) as Hh. pose proof (wf_regular _ Hmem) as Hreg. rewrite HL in Hh, Hreg.
  replace (Z.of_nat j) with (at_ L) by lia. rewrite (holds_entry _ _ _ _ Hh). cbn [mbind option_bind].
  apply list.Forall_app in Hreg as [HregL Hreg]. apply list.Forall_cons in Hreg as [Hregp _].
  destruct (IH L (p :: R) HL ltac:(lia)) as (res0 & E0 & H0).
  pose proof (alloc_start_spec max_addr p Hregp Hmax) as Hstart.
  destruct (alloc_start p size (2 ^ k) max_addr) as [base|].
  2:{ exists res0. split; [done|]. destruct H0 as [(c & q & Hq & H1 & H2 & H3 & H4)|[-> H0]].
    - left. exists c, q. split_and!; [by apply elem_of_app; left|done..|].
      intros p' c' [Hp'| ->%list_elem_of_singleton]%elem_of_app Hl; [by apply (H4 p')|by destruct (Hstart c')].
    - right. split; [done|]. intros q c [Hq| ->%list_elem_of_singleton]%elem_of_app Hl; [by apply (H0 q)|].
      by destruct (Hstart c). }
  destruct Hstart as (Hp & Hb & He & Hal & Hin). pose proof Hp as (Hp1 & Hp2 & Hp3).
  destruct (alloc_while_spec n (p_base p) base (regions (l_reserved l)) []) as (res & -> & Hres1);
    [done|done|done|done|by rewrite app_nil_r| |done|].
  { pose proof (wf_holds _ Hres) as (C & _ & _ & H9). len. }
  cbn [mbind option_bind]. destruct res as [res|].
  - exists res. split; [done|]. left. destruct Hres1 as (c & Hc & Hv & Hs & Hgreat).
    pose proof Hv as (_ & Hd & _). exists c, p. split_and!; [by apply elem_of_app; right; apply list_elem_of_singleton|by apply Hin|done|done|].
    intros p' c' [Hp'| ->%list_elem_of_singleton]%elem_of_app Hl Hv'.
    + destruct (wf_regions _ Hmem) as [E|Hsp]; [|rewrite HL in Hsp; apply spaced_app in Hsp as [HsL (Hgap & _)]].
      { rewrite HL in E. destruct L as [|? [|]]; simplify_eq/=. by apply elem_of_nil in Hp'. }
      destruct (spaced_in _ _ _ HsL Hp') as (_ & _ & Hstop & _). destruct Hl as (_ & Hl & _). lia.
    + pose proof Hv' as (_ & Hd' & _). apply Hgreat; [by apply Hin|done].
  - exists res0. split; [done|]. destruct H0 as [(c & q & Hq & H1 & H2 & H3 & H4)|[-> H0]].
    + left. exists c, q. split_and!; [by apply elem_of_app; left|done..|].
      intros p' c' [Hp'| ->%list_elem_of_singleton]%elem_of_app Hl Hv'; [by apply (H4 p')|].
      pose proof Hv' as (_ & Hd' & _). exfalso. apply (Hres1 c'); [by apply Hin|done].
    + right. split; [done|]. intros q c [Hq| ->%list_elem_of_singleton]%elem_of_app Hl Hv'; [by apply (H0 q c)|].
      pose proof Hv' as (_ & Hd' & _). apply (Hres1 c); [by apply Hin|done].
Qed.
End Alloc.

(** A block of addresses the regions cover lies in one of them. *)
Lemma block_in_region lo l c size : spaced lo l -> 0 < size ->
  (forall a, c <= a < c + size -> cover l a) -> exists p, p ∈ l /\ p_base p <= c /\ c + size <= p_end p.
Proof.
  revert lo. induction l as [|p l IH]; intros lo Hl Hs Hc.
  { exfalso. by apply (Exists_nil (within c)), Hc; lia. }
  destruct (Z.le_gt_cases (p_end p) c) as [Hpc|Hpc].
  - destruct Hl as (_ & _ & _ & Hl). destruct (IH _ Hl Hs) as (q & Hq & ?).
    { intros a Ha. specialize (Hc a Ha). apply Exists_cons in Hc as [Hw|]; [|done]. unfold within in Hw. lia. }
    exists q. split; [by right|done].
  - exists p. split; [by left|]. split; [apply (cover_first lo p l c Hl), Hc; lia|].
    destruct (Z.le_gt_cases (c + size) (p_end p)) as [|Hend]; [done|exfalso].
    destruct (cover_first lo p l (p_end p) Hl); [|done]. apply Hc. lia.
Qed.

(** *** Tables as sets *)
Lemma wf_spaced r : table_wf r -> regions r = [Region 0 0] \/ spaced (-1) (regions r) /\ regions r <> [].
Proof.
  intros Hwf. pose proof (wf_holds r Hwf) as (C & _ & Hc & _). destruct Hwf as [_ Hcnt [E|E]]; [by left|right].
  split; [done|]. intros En. rewrite En in Hc. simpl in Hc. lia.
Qed.
Lemma dummy_uncovered r a : regions r = [Region 0 0] -> ~ covered r a.
Proof. unfold covered. intros ->. rewrite Exists_cons, Exists_nil. unfold within, p_end. cbn. lia. Qed.

Lemma add_wf r b s : table_wf r -> 0 <= b -> 0 < s -> b + s < 2 ^ 32 ->
  (forall a, b <= a < b + s -> ~ covered r a) ->
  exists c r', lmb_add_region r b s = Some (c, r') /\
    ((0 <= c /\ table_wf r' /\ forall a, covered r' a <-> covered r a \/ b <= a < b + s) \/
     (c = -1 /\ r' = r /\ r_cnt r = MAX_LMB_REGIONS /\ ~ covered r (b - 1) /\ ~ covered r (b + s))).
Proof.
  intros Hwf Hb Hs He Hfree. pose proof (wf_holds r Hwf) as Hr. pose proof Hr as (C & _ & Hc & H9).
  unfold MAX_LMB_REGIONS. pose proof (wf_cnt r Hwf) as Hcnt. unfold MAX_LMB_REGIONS in Hcnt.
  destruct (wf_spaced r Hwf) as [E|[Hsp Hne]].
  - rewrite E in *. unfold lmb_add_region. rewrite (holds_entry r [] _ _ Hr : entry r 0 = _), Hc.
    cbn [mbind option_bind length p_size]. change ((Z.of_nat 1 =? 1) && (0 =? 0)) with true. cbv iota.
    destruct (holds_set r [] _ (Region b s) [] Hr) as (r' & Es & Hr'). change (at_ (@nil lmb_property)) with 0 in Es.
    rewrite Es. cbn [mbind option_bind]. exists 0, r'. split; [done|]. left. split; [lia|].
    assert (spaced (-1) [Region b s]) as Hsp by (cbn; unfold p_end; cbn; lia).
    split; [apply (holds_wf _ _ Hr'); [simpl; lia|done|done]|].
    intros a. pose proof (dummy_uncovered r a E). unfold covered at 1. rewrite (holds_regions _ _ Hr').
    cbn [app]. rewrite Exists_cons, Exists_nil. unfold within, p_end. cbn. tauto.
  - destruct (runs_add b s Hb Hs He r (regions r) Hr Hne) as [(c & r' & l' & Ha & Hc0 & Hr' & [Hsp' Hcov] & _ & H8)|(Ha & H8 & Haway)];
      [lia|done|done| |].
    + exists c, r'. split; [done|]. left. split; [done|]. split.
      * apply (holds_wf r' l' Hr' H8); [|done]. intros ->. apply (Exists_nil (within b)), Hcov. right. lia.
      * intros a. unfold covered. by rewrite (holds_regions _ _ Hr').
    + exists (-1), r. split; [done|]. right. split_and!; [done|done|lia|..];
        intros (p & Hp & Hw)%list.Exists_exists; rewrite list.Forall_forall in Haway;
        specialize (Haway p Hp); unfold within, away in *; lia.
Qed.

Lemma align_up_spec size k : 0 <= k < 32 -> 0 < size -> size + 2 ^ k <= 2 ^ 32 ->
  size <= lmb_align_up size (2 ^ k) < size + 2 ^ k /\ (2 ^ k | lmb_align_up size (2 ^ k)).
Proof.
  intros Hk Hs Hup. assert (0 < 2 ^ k) by (apply Z.pow_pos_nonneg; lia).
  unfold lmb_align_up. rewrite (u32_small (2 ^ k - 1)), u32_small by lia.
  pose proof (align_down_pow2 (size + (2 ^ k - 1)) k Hk) as E. unfold lmb_align_down in E.
  rewrite (u32_small (2 ^ k - 1)) in E by lia. rewrite E. split; [|by exists ((size + (2 ^ k - 1)) / 2 ^ k); lia].
  pose proof (Z.div_mod (size + (2 ^ k - 1)) (2 ^ k) ltac:(lia)).
  pose proof (Z.mod_pos_bound (size + (2 ^ k - 1)) (2 ^ k) ltac:(lia)). lia.
Qed.

(** What the allocator is asked for: a block at a non-zero multiple of the
    alignment, below the limit if there is one, in memory and not reserved. *)
Definition free_block (l : lmb) (size align max_addr c : Z) : Prop :=
  0 < c /\ (align | c) /\ (max_addr = LMB_ALLOC_ANYWHERE \/ c + size <= max_addr) /\
  forall a, c <= a < c + size -> covered (l_memory l) a /\ ~ covered (l_reserved l) a.

Lemma free_block_regions l size k max_addr c : table_wf (l_memory l) -> 0 < size ->
  free_block l size (2 ^ k) max_addr c <->
  exists p, p ∈ regions (l_memory l) /\ lies_in size max_addr p c /\ vacant l size k c.
Proof.
  intros Hwf Hs. unfold free_block, lies_in, vacant. split.
  - intros (H1 & H2 & H3 & H4). destruct (wf_spaced _ Hwf) as [E|[Hsp _]].
    { exfalso. apply (dummy_uncovered _ c E), H4. lia. }
    destruct (block_in_region (-1) (regions (l_memory l)) c size Hsp Hs) as (p & Hp & ? & ?).
    { intros a Ha. by apply H4. }
    exists p. split; [done|]. split; [tauto|]. split_and!; [done|done|]. intros a Ha. by apply H4.
  - intros (p & Hp & (Hp1 & Hp2 & Hp3) & H1 & H2 & H4). split_and!; [done..|]. intros a Ha.
    split; [|by apply H4]. apply list.Exists_exists. exists p. split; [done|]. unfold within. lia.
Qed.

(** [lmb_init] makes both tables empty. *)
Lemma lmb_init_wf l : room (l_memory l) -> room (l_reserved l) ->
  exists l', lmb_init l = Some l' /\ table_wf (l_memory l') /\ table_wf (l_reserved l') /\
    forall a, ~ covered (l_memory l') a /\ ~ covered (l_reserved l') a.
Proof.
  assert (forall r, room r -> exists r', init_region r = Some r' /\ table_wf r' /\ regions r' = [Region 0 0]) as Hinit.
  { intros [c z [|p C]] Hr; [done|]. unfold init_region.
    pose proof (set_entry_at c z [] p (Region 0 0) C) as E. cbn [app length] in E. change (Z.of_nat 0) with 0 in E.
    rewrite E. cbn [mbind option_bind r_region]. eexists. split; [done|].
    assert (regions (Table 1 0 (Region 0 0 :: C)) = [Region 0 0]) as Hreg by (by destruct C).
    split; [|done]. constructor; [exact Hr|unfold MAX_LMB_REGIONS; cbn; lia|by left]. }
  intros (m & Em & Hm & Em0)%Hinit (r & Er & Hr & Er0)%Hinit. unfold lmb_init. rewrite Em, Er.
  eexists. split; [done|]. split; [done|]. split; [done|]. intros a. split; by apply dummy_uncovered.
Qed.

(** *** [lmb_is_reserved] *)
Lemma reserved_search_spec n r P l addr : holds r (P ++ l) -> Forall proper l -> (length l < n)%nat ->
  exists v, reserved_search n r addr (at_ P) = Some v /\ (v = 1 /\ cover l addr \/ v = 0 /\ ~ cover l addr).
Proof.
  revert P l. induction n as [|n IH]; intros P l Hr Hl Hn; [lia|]. cbn [reserved_search].
  pose proof Hr as (C & _ & Hc & _). rewrite Hc. destruct l as [|p l].
  - rewrite app_nil_r, Z.ltb_irrefl. exists 0. rewrite Exists_nil. tauto.
  - destruct (Z.ltb_spec (at_ P) (at_ (P ++ p :: l))); [|len].
    rewrite (holds_entry _ _ _ _ Hr). cbn [mbind option_bind]. cbv zeta.
    apply list.Forall_cons in Hl as [(H1 & H2 & H3) Hl]. setoid_rewrite Exists_cons. unfold p_end in *.
    rewrite u32_small by lia.
    assert (within addr p <-> p_base p <= addr < p_base p + p_size p) as Hw by done. setoid_rewrite Hw.
    destruct (Z.leb_spec (p_base p) addr), (Z.leb_spec addr (p_base p + p_size p - 1)); cbn [andb];
      [exists 1; split; [done|]; left; split; [done|left; lia]|..].
    all: rewrite <- (at_snoc P p); destruct (IH (P ++ [p]) l) as (v & -> & Hv);
      [by rewrite <- app_assoc|done|len|]; exists v; split; [done|]; destruct Hv as [[-> ?]|[-> ?]];
      [left; tauto|right; split; [done|]; intros [?|?]; [lia|done]].
Qed.

(** *** A sequence of allocations *)
Record request := Request { q_size : Z; q_align : Z; q_max : Z }.

(** The blocks handed out, in order, the failed requests left out. *)
Fixpoint alloc_all (n : nat) (l : lmb) (reqs : list request) : option (list (Z * Z) * lmb) :=
  match reqs with
  | [] => Some ([], l)
  | q :: reqs =>
      res ← lmb_alloc_base n l (q_size q) (q_align q) (q_max q);
      let '(v, l) := res : Z * lmb in
      rest ← alloc_all n l reqs;
      Some (if v =? 0 then rest.1 else (v, q_size q) :: rest.1, rest.2)
  end.

(** A request for a whole number of aligned units. *)
Definition request_ok (q : request) : Prop :=
  exists k, q_align q = 2 ^ k /\ 0 <= k < 32 /\ (2 ^ k | q_size q) /\ 0 < q_size q /\
    q_size q + 2 ^ k <= 2 ^ 32 /\ (q_max q = LMB_ALLOC_ANYWHERE \/ q_size q <= q_max q < 2 ^ 32).

Definition apart (x y : Z * Z) : Prop := x.1 + x.2 <= y.1 \/ y.1 + y.2 <= x.1.

(** ** Properties *)
Section Highest.
Context (l : lmb) (size k max_addr : Z) (n : nat).
Context (Hmem : table_wf (l_memory l)) (Hres : table_wf (l_reserved l)).
Context (Hk : 0 <= k < 32) (Hs : 0 < size) (Hup : size + 2 ^ k <= 2 ^ 32).
Context (Hmax : max_addr = LMB_ALLOC_ANYWHERE \/ size <= max_addr < 2 ^ 32) (Hn : (9 < n)%nat).

Lemma runs_alloc :
  exists v l', __lmb_alloc_base n l size (2 ^ k) max_addr = Some (v, l') /\ l_memory l' = l_memory l /\
   ((free_block l size (2 ^ k) max_addr v /\
     (forall c, free_block l size (2 ^ k) max_addr c -> c <= v) /\
     let e := v + lmb_align_up size (2 ^ k) in
     e < 2 ^ 32 -> (forall a, v + size <= a < e -> ~ covered (l_reserved l) a) ->
     table_wf (l_reserved l') /\
     forall a, covered (l_reserved l') a <-> covered (l_reserved l) a \/ v <= a < e) \/
    (v = 0 /\ l' = l /\
     ((forall c, ~ free_block l size (2 ^ k) max_addr c) \/ r_cnt (l_reserved l) = MAX_LMB_REGIONS))).
Proof.
  assert (0 < 2 ^ k) by (apply Z.pow_pos_nonneg; lia).
  pose proof (wf_holds _ Hmem) as (C & _ & Hc & _). unfold __lmb_alloc_base. rewrite Hc, Nat2Z.id.
  destruct (alloc_regions_spec l size k n Hmem Hres ltac:(lia) Hk Hn max_addr
    (length (regions (l_memory l))) (regions (l_memory l)) [] Hmax ltac:(by rewrite app_nil_r) eq_refl)
    as ([v l'] & -> & [(c & p & Hp & Hin & Hv & (code & r' & Ha & Er) & Hgreat)|[Er Hnone]]).
  - assert (free_block l size (2 ^ k) max_addr c) as Hfree by (apply free_block_regions; [done|done|eauto]).
    assert (forall c', free_block l size (2 ^ k) max_addr c' -> c' <= c) as Hg.
    { intros c' (p' & Hp' & ? & ?)%free_block_regions; [|done|done]. by apply (Hgreat p'). }
    destruct (add_total (l_reserved l) c (lmb_align_up size (2 ^ k)) (wf_room _ Hres) (wf_cnt _ Hres))
      as (code' & r'' & Ha' & Hcode). rewrite Ha in Ha'. simplify_eq.
    destruct Hcode as [Hcode|(-> & -> & Hfull)].
    + destruct (Z.ltb_spec code' 0); [lia|]. exists c, (with_reserved r'' l). split; [done|]. split; [done|].
      left. split; [done|]. split; [done|]. cbv zeta. intros He Hrest.
      destruct (align_up_spec size k Hk Hs Hup) as [Hau _]. destruct Hfree as (Hc0 & _ & _ & Hcov).
      destruct (add_wf (l_reserved l) c (lmb_align_up size (2 ^ k)) Hres) as (c2 & r2 & Ha2 & [(_ & ? & ?)|(-> & _)]);
        [lia|lia|lia| |..].
      * intros a Hr. destruct (Z.lt_ge_cases a (c + size)); [apply Hcov; lia|apply Hrest; lia].
      * rewrite Ha in Ha2. by simplify_eq.
      * rewrite Ha in Ha2. simplify_eq. lia.
    + exists 0, l. split; [by destruct l|]. split; [done|]. right. tauto.
  - simplify_eq. exists 0, l. split; [done|]. split; [done|]. right. split; [done|]. split; [done|].
    left. intros c (p & Hp & ? & ?)%free_block_regions; [|done|done]. by apply (Hnone p c).
Qed.
End Highest.

Lemma align_up_exact size k : 0 <= k < 32 -> 0 < size -> size + 2 ^ k <= 2 ^ 32 -> (2 ^ k | size) ->
  lmb_align_up size (2 ^ k) = size.
Proof.
  intros Hk Hs Hup [q Hq]. destruct (align_up_spec size k Hk Hs Hup) as [Hau [q' Hq']].
  assert (0 < 2 ^ k) by (apply Z.pow_pos_nonneg; lia). assert (q' = q) by nia. congruence.
Qed.

Lemma run_alloc_all n reqs l : (9 < n)%nat -> table_wf (l_memory l) -> table_wf (l_reserved l) ->
  Forall request_ok reqs ->
  exists blocks l', alloc_all n l reqs = Some (blocks, l') /\ table_wf (l_reserved l') /\
    (forall x, x ∈ blocks -> 0 < x.2 /\ forall a, x.1 <= a < x.1 + x.2 ->
       covered (l_memory l) a /\ ~ covered (l_reserved l) a) /\
    ForallOrdPairs apart blocks /\
    forall a, covered (l_reserved l') a <->
      covered (l_reserved l) a \/ Exists (fun x : Z * Z => x.1 <= a < x.1 + x.2) blocks.
Proof.
  intros Hn. revert l. induction reqs as [|q reqs IH]; intros l Hmem Hres Hreqs; cbn [alloc_all].
  { exists [], l. split_and!; [done|done|by intros x ?%elem_of_nil|constructor|]. intros a. rewrite Exists_nil. tauto. }
  apply list.Forall_cons in Hreqs as [(k & Ek & Hk & Hd & Hs & Hup & Hmax) Hreqs].
  destruct (runs_alloc l (q_size q) k (q_max q) n Hmem Hres Hk Hs Hup Hmax Hn)
    as (v & l1 & Ha & Hm1 & Hcases).
  unfold lmb_alloc_base. rewrite Ek, Ha. cbn [mbind option_bind].
  destruct Hcases as [(Hfree & _ & Hadd)|(-> & -> & _)].
  - cbv zeta in Hadd. rewrite (align_up_exact _ _ Hk Hs Hup Hd) in Hadd.
    pose proof Hfree as (Hv & _ & _ & Hcov).
    destruct Hadd as [Hwf1 Hcov1]; [|intros a Ha'; lia|].
    { apply free_block_regions in Hfree as (p & Hp & (_ & Hpe & _) & _); [|done|done].
      pose proof (wf_regular _ Hmem) as Hreg. rewrite list.Forall_forall in Hreg.
      destruct (Hreg p Hp) as [(_ & _ & ?)| ->]; [lia|]. unfold p_end in Hpe. cbn in Hpe. lia. }
    destruct (IH l1) as (blocks & l' & -> & Hwf' & Hin & Hord & Hall); [by rewrite Hm1|done|done|].
    cbn [mbind option_bind fst snd]. destruct (Z.eqb_spec v 0); [lia|].
    exists ((v, q_size q) :: blocks), l'. split; [done|]. split; [done|]. split_and!.
    + intros x [->|Hx]%list.elem_of_cons; cbn [fst snd]; [split; [done|apply Hcov]|].
      destruct (Hin x Hx) as [? Hx']. split; [done|]. intros a Ha'. rewrite <- Hm1.
      destruct (Hx' a Ha') as [? Hno]. split; [done|]. intros Hc. apply Hno, Hcov1. by left.
    + constructor; [|done]. apply list.Forall_forall. intros x Hx. destruct (Hin x Hx) as [Hx0 Hx'].
      unfold apart. cbn [fst snd]. destruct (Z.le_gt_cases (v + q_size q) x.1); [by left|].
      destruct (Z.le_gt_cases (x.1 + x.2) v); [by right|exfalso].
      destruct (Hx' (Z.max v x.1)) as [_ Hno]; [lia|]. apply Hno, Hcov1. right. lia.
    + intros a. rewrite Hall, Hcov1, Exists_cons. cbn [fst snd]. tauto.
  - destruct (IH l) as (blocks & l' & -> & H'); [done|done|done|]. cbn [mbind option_bind fst snd].
    by exists blocks, l'.
Qed.

(** C3: [__lmb_alloc_base] meets its specification: it returns the highest
    suitably aligned block of memory below the limit that is not reserved, and
    reserves it up to the rounded size; it answers 0 and changes nothing exactly
    when there is no such block or the table of reserved regions is full.  A fuel
    of ten rounds is always enough. *)
Theorem lmb_alloc_highest l size k max_addr n :
  table_wf (l_memory l) -> table_wf (l_reserved l) -> 0 <= k < 32 -> 0 < size -> size + 2 ^ k <= 2 ^ 32 ->
  max_addr = LMB_ALLOC_ANYWHERE \/ size <= max_addr < 2 ^ 32 -> (9 < n)%nat ->
  exists v l', __lmb_alloc_base n l size (2 ^ k) max_addr = Some (v, l') /\ l_memory l' = l_memory l /\
   ((free_block l size (2 ^ k) max_addr v /\
     (forall c, free_block l size (2 ^ k) max_addr c -> c <= v) /\
     let e := v + lmb_align_up size (2 ^ k) in
     e < 2 ^ 32 -> (forall a, v + size <= a < e -> ~ covered (l_reserved l) a) ->
     table_wf (l_reserved l') /\
     forall a, covered (l_reserved l') a <-> covered (l_reserved l) a \/ v <= a < e) \/
    (v = 0 /\ l' = l /\
     ((forall c, ~ free_block l size (2 ^ k) max_addr c) \/ r_cnt (l_reserved l) = MAX_LMB_REGIONS))).
Proof. intros. by apply runs_alloc. Qed.

(** The board's half a gigabyte of memory, nothing reserved. *)
Definition table_of (ps : list lmb_property) : lmb_region :=
  Table (Z.of_nat (length ps)) 0 (ps ++ replicate (9 - length ps) (Region 0 0)).
Definition board_lmb : lmb :=
  Lmb (table_of [Region 0x80000000 0x20000000]) (table_of [Region 0x9ff00000 0x100000]).
Lemma board_lmb_wf : table_wf (l_memory board_lmb) /\ table_wf (l_reserved board_lmb).
Proof.
  split; (constructor; [reflexivity|cbn; unfold MAX_LMB_REGIONS; lia|right; vm_compute; repeat split]).
Qed.

Lemma lmb_alloc_highest_witness :
  exists v l', __lmb_alloc_base 10 board_lmb 0x2800 (2 ^ 12) 0xa0000000 = Some (v, l') /\ v = 0x9fefd000 /\
   free_block board_lmb 0x2800 (2 ^ 12) 0xa0000000 v.
Proof.
  destruct (lmb_alloc_highest board_lmb 0x2800 12 0xa0000000 10) as (v & l' & E & _ & Hv);
    [apply board_lmb_wf|apply board_lmb_wf|lia|lia|lia|right; lia|lia|].
  assert (v = 0x9fefd000) as Ev by (vm_compute in E; congruence).
  exists v, l'. split; [exact E|]. split; [exact Ev|]. destruct Hv as [[Hf _]|[Hv _]]; [exact Hf|].
  rewrite Ev in Hv. discriminate Hv.
Defined.

(** C31: registering a region that meets no other gives the table of the union:
    merged with the regions it touches, in order; only a full table without a
    region to merge with refuses it. *)
Theorem lmb_add_union r b s :
  table_wf r -> 0 <= b -> 0 < s -> b + s < 2 ^ 32 -> (forall a, b <= a < b + s -> ~ covered r a) ->
  exists c r', lmb_add_region r b s = Some (c, r') /\
    ((0 <= c /\ table_wf r' /\ forall a, covered r' a <-> covered r a \/ b <= a < b + s) \/
     (c = -1 /\ r' = r /\ r_cnt r = MAX_LMB_REGIONS /\ ~ covered r (b - 1) /\ ~ covered r (b + s))).
Proof. apply add_wf. Qed.

(** A hole between two regions is filled, and the three become one. *)
Lemma lmb_add_union_witness : exists c r',
  lmb_add_region (table_of [Region 100 50; Region 200 10]) 150 50 = Some (c, r') /\
  c = 2 /\ regions r' = [Region 100 110].
Proof.
  destruct (lmb_add_union (table_of [Region 100 50; Region 200 10]) 150 50) as (c & r' & E & _);
    [|lia|lia|lia| |].
  - constructor; [reflexivity|cbn; unfold MAX_LMB_REGIONS; lia|right; vm_compute; repeat split].
  - intros a Ha Hc. unfold covered in Hc.
    change (regions _) with [Region 100 50; Region 200 10] in Hc. rewrite !Exists_cons, Exists_nil in Hc.
    unfold within, p_end in Hc. cbn in Hc. lia.
  - exists c, r'. split; [exact E|]. vm_compute in E. injection E as <- <-. split; reflexivity.
Defined.

Section FreeTable.
Context (r : lmb_region) (b s : Z).
Context (Hwf : table_wf r) (Hb : 0 <= b) (Hs : 0 < s) (He : b + s < 2 ^ 32).

Lemma free_outside : Forall (fun p => found b s p = false) (regions r) ->
  ~ (forall a, b <= a < b + s -> covered r a).
Proof.
  intros Hno Hall. destruct (wf_spaced r Hwf) as [E|[Hsp _]].
  { apply (dummy_uncovered r b E), Hall. lia. }
  destruct (block_in_region (-1) (regions r) b s Hsp Hs Hall) as (p & Hp & Hc).
  rewrite list.Forall_forall in Hno. specialize (Hno p Hp). cbn beta in Hno.
  destruct (spaced_in _ _ _ Hsp Hp) as (? & ? & ? & ?).
  rewrite (proj2 (found_contains b s Hb Hs He p ltac:(unfold proper; lia))) in Hno; [done|exact Hc].
Qed.

Lemma found_spaced : Exists (fun p => found b s p = true) (regions r) ->
  exists A p B, regions r = A ++ p :: B /\ contains b s p /\ spaced (-1) (A ++ p :: B).
Proof.
  intros (p & Hp & Hf)%list.Exists_exists. destruct (wf_spaced r Hwf) as [E|[Hsp _]].
  { rewrite E in Hp. apply list_elem_of_singleton in Hp as ->. unfold found in Hf. cbn [p_base p_size] in Hf.
    rewrite (u32_small (b + s)) in Hf by lia. change (u32 (0 + 0)) with 0 in Hf. lia. }
  destruct (spaced_in _ _ _ Hsp Hp) as (? & ? & ? & ?).
  apply (list_elem_of_split (regions r)) in Hp as (A & B & Hr). exists A, p, B. rewrite <- Hr.
  split; [done|]. split; [|done]. apply (found_contains b s Hb Hs He); [unfold proper; lia|done].
Qed.

(** The failing split loses the end of the region. *)
Lemma free_lost A p B : spaced (-1) (A ++ p :: B) -> contains b s p -> b + s < p_end p -> p_base p < b ->
  let l' := A ++ Region (p_base p) (b - p_base p) :: B in
  spaced (-1) l' /\ ~ cover (A ++ p :: B) (p_end p) /\
  (forall a, b <= a < p_end p -> cover (A ++ p :: B) a) /\
  forall a, cover l' a <-> cover (A ++ p :: B) a /\ ~ b <= a < p_end p.
Proof.
  intros Hl [Hc1 Hc2] Hlt Hpb. cbv zeta. pose proof Hl as (HA & H1 & H2 & H3 & HB)%spaced_app.
  destruct (removes_part b (p_end p - b) A p B [Region (p_base p) (b - p_base p)] Hl) as [Hsp Hcov].
  - unfold contains. lia.
  - cbn. unfold p_end in *. cbn. lia.
  - cbn. unfold p_end in *. cbn. lia.
  - intros a. rewrite Exists_cons, Exists_nil. unfold within, p_end in *. cbn. lia.
  - split; [done|]. split; [|split].
    + rewrite Exists_app, Exists_cons. intros [Ha|[Ha|Ha]].
      * apply (cover_above _ _ _ HA) in Ha. unfold p_end in *. lia.
      * unfold within in Ha. lia.
      * apply (cover_above _ _ _ HB) in Ha. lia.
    + intros a Ha. apply Exists_app. right. left. unfold within. lia.
    + intros a. cbn [app] in Hcov. rewrite Hcov. by replace (b + (p_end p - b)) with (p_end p) by lia.
Qed.
End FreeTable.

(** C40: freeing a block gives the table of the difference; a block that is not
    reserved in full is refused and changes nothing.  The table that results is
    well-formed again unless nothing is left in it; and when a region has to be
    split in a full table, the call fails but everything from the block to the
    end of its region is no longer reserved. *)
Theorem lmb_free_difference r b s :
  table_wf r -> 0 <= b -> 0 < s -> b + s < 2 ^ 32 ->
  exists c r', lmb_free_region r b s = Some (c, r') /\
   ((c = -1 /\ r' = r /\ ~ (forall a, b <= a < b + s -> covered r a)) \/
    (forall a, b <= a < b + s -> covered r a) /\
    ((0 <= c /\ (table_wf r' \/ r_cnt r' = 0) /\
      forall a, covered r' a <-> covered r a /\ ~ b <= a < b + s) \/
     (c = -1 /\ r_cnt r = MAX_LMB_REGIONS /\ table_wf r' /\
      exists e, b + s < e /\ (forall a, b <= a < e -> covered r a) /\ ~ covered r e /\
        forall a, covered r' a <-> covered r a /\ ~ b <= a < e))).
Proof.
  intros Hwf Hb Hs He. pose proof (wf_holds r Hwf) as Hr. pose proof (wf_cnt r Hwf) as Hcnt.
  pose proof Hr as (C & _ & Hc & _). unfold MAX_LMB_REGIONS in *.
  destruct (decide (Exists (fun p => found b s p = true) (regions r))) as [Hf|Hf].
  - destruct (found_spaced r b s Hwf Hb Hs He Hf) as (A & p & B & El & Hcon & Hsp). rewrite El in Hr, Hc.
    destruct (run_free b s Hb Hs He r A p B Hr) as (c & r' & l' & -> & Hr' & H8 & Hcase); [lia|done|done|].
    exists c, r'. split; [done|]. right. unfold covered. rewrite El, (holds_regions _ _ Hr').
    split. { intros a Ha. apply Exists_app. right. left. destruct Hcon. unfold within. lia. }
    destruct Hcase as [(Hc0 & Hsp' & Hcov)|(-> & Hl8 & Hlt & -> & Hpb)].
    + left. split; [done|]. split; [|done]. destruct l' as [|q l']; [right; by destruct Hr' as (? & _ & -> & _)|].
      left. by apply (holds_wf _ _ Hr').
    + right. destruct (free_lost b s Hs A p B Hsp Hcon Hlt Hpb) as (Hsp' & Hno & Hin & Hcov).
      split; [done|]. split; [lia|]. split; [apply (holds_wf _ _ Hr'); [done|by destruct A|done]|].
      by exists (p_end p).
  - assert (Forall (fun p => found b s p = false) (regions r)) as Hno.
    { apply list.Forall_forall. intros p Hp. destruct (found b s p) eqn:E; [|done]. exfalso. apply Hf, list.Exists_exists. eauto. }
    exists (-1), r. split; [by apply (free_missing b s r (regions r))|]. left. split; [done|]. split; [done|].
    by apply free_outside.
Qed.

(** A hole in the middle of a region splits it. *)
Lemma lmb_free_difference_witness : exists c r',
  lmb_free_region (table_of [Region 100 110]) 150 50 = Some (c, r') /\
  c = 0 /\ regions r' = [Region 100 50; Region 200 10].
Proof.
  destruct (lmb_free_difference (table_of [Region 100 110]) 150 50) as (c & r' & E & _); [|lia|lia|lia|].
  - constructor; [reflexivity|cbn; unfold MAX_LMB_REGIONS; lia|right; vm_compute; repeat split].
  - exists c, r'. split; [exact E|]. vm_compute in E. injection E as <- <-. split; reflexivity.
Defined.

(** blocks allocated one after another, in whole units of their alignment,
    never overlap each other or what was reserved before, lie in memory, and are
    exactly what has become reserved. *)
Theorem lmb_allocs_disjoint n reqs l :
  (9 < n)%nat -> table_wf (l_memory l) -> table_wf (l_reserved l) -> Forall request_ok reqs ->
  exists blocks l', alloc_all n l reqs = Some (blocks, l') /\ table_wf (l_reserved l') /\
    (forall x, x ∈ blocks -> 0 < x.2 /\ forall a, x.1 <= a < x.1 + x.2 ->
       covered (l_memory l) a /\ ~ covered (l_reserved l) a) /\
    ForallOrdPairs apart blocks /\
    forall a, covered (l_reserved l') a <->
      covered (l_reserved l) a \/ Exists (fun x : Z * Z => x.1 <= a < x.1 + x.2) blocks.
Proof. intros. by apply run_alloc_all. Qed.

(** A ramdisk and a device tree below a reserved megabyte. *)
Lemma lmb_allocs_disjoint_witness : exists blocks l',
  alloc_all 10 board_lmb [Request 0x800000 0x1000 0; Request 0x10000 0x1000 0x90000000] = Some (blocks, l') /\
  blocks = [(0x9f700000, 0x800000); (0x8fff0000, 0x10000)] /\ ForallOrdPairs apart blocks.
Proof.
  destruct (lmb_allocs_disjoint 10 [Request 0x800000 0x1000 0; Request 0x10000 0x1000 0x90000000] board_lmb)
    as (blocks & l' & E & _ & _ & Hord & _); [lia|apply board_lmb_wf|apply board_lmb_wf| |].
  - repeat constructor; exists 12; cbn; unfold LMB_ALLOC_ANYWHERE;
      (split; [reflexivity|]); (split; [lia|]); (split; [apply Z.mod_divide; [lia|reflexivity]|]); lia.
  - exists blocks, l'. split; [exact E|]. split; [|exact Hord].
    vm_compute in E. injection E as <- <-. reflexivity.
Defined.

(** once the only reserved region has been freed, the next reservation above
    its base is lost: the call reports success, and the table shows the freed
    region again instead of the new one. *)
Theorem lmb_reserve_after_free b0 s0 b s :
  0 < b0 -> 0 < s0 -> b0 + s0 < 2 ^ 32 -> b0 <= b ->
  exists r1 r2, lmb_free_region (table_of [Region b0 s0]) b0 s0 = Some (0, r1) /\
    lmb_add_region r1 b s = Some (0, r2) /\ regions r2 = [Region b0 s0].
Proof.
  intros Hb0 Hs0 He Hb. exists (Table 0 0 (Region b0 s0 :: replicate 8 (Region 0 0))).
  exists (Table 1 0 (Region b0 s0 :: replicate 8 (Region 0 0))). split; [|split; [|done]].
  - unfold lmb_free_region. rewrite u32_small by lia. cbn [table_of rounds free_search r_cnt].
    unfold table_of. cbn [length app]. change (0 <? Z.of_nat 1) with true. cbv iota.
    change (entry _ 0) with (Some (Region b0 s0)). cbn [mbind option_bind p_base p_size].
    rewrite u32_small, !Z.leb_refl by lia. cbn [andb mbind option_bind].
    change (0 =? Z.of_nat 1) with false. rewrite !Z.eqb_refl. done.
  - unfold lmb_add_region. change (entry (Table 0 0 _) 0) with (Some (Region b0 s0)).
    cbn [mbind option_bind r_cnt Z.eqb andb]. change (add_search _ _ _ _ _) with
      (Some (Stopped (Table 0 0 (Region b0 s0 :: replicate 8 (Region 0 0))) 0 0)).
    cbn [mbind option_bind r_cnt]. change (0 <? u32 (0 - 1)) with true. cbv iota.
    unfold lmb_regions_adjacent. change (entry (Table 0 0 _) 0) with (Some (Region b0 s0)).
    change (entry (Table 0 0 _) (0 + 1)) with (Some (Region 0 0)).
    cbn [mbind option_bind p_base p_size]. unfold lmb_addrs_adjacent. rewrite u32_small by lia.
    change (u32 (0 + 0)) with 0. destruct (Z.eqb_spec 0 (b0 + s0)), (Z.eqb_spec b0 0); try lia.
    cbn [truthy negb Z.eqb mbind option_bind r_cnt].
    change (MAX_LMB_REGIONS <=? 0) with false. cbv iota.
    change (insert_loop _ _ _ _ _) with (Some (Table 0 0 (Region b0 s0 :: replicate 8 (Region 0 0)))).
    cbn [mbind option_bind]. change (entry (Table 0 0 _) 0) with (Some (Region b0 s0)).
    cbn [mbind option_bind p_base]. destruct (Z.ltb_spec b b0); [lia|]. done.
Qed.

Lemma lmb_reserve_after_free_witness : exists r1 r2,
  lmb_free_region (table_of [Region 0x9ff00000 0x100000]) 0x9ff00000 0x100000 = Some (0, r1) /\
  lmb_add_region r1 0x9ff80000 0x1000 = Some (0, r2) /\ regions r2 = [Region 0x9ff00000 0x100000].
Proof. apply lmb_reserve_after_free; lia. Defined.

(** [lmb_is_reserved] answers membership, on tables with a region ... *)
Lemma lmb_is_reserved_spec l addr : table_wf (l_reserved l) -> regions (l_reserved l) <> [Region 0 0] ->
  exists v, lmb_is_reserved l addr = Some v /\
    (v = 1 /\ covered (l_reserved l) addr \/ v = 0 /\ ~ covered (l_reserved l) addr).
Proof.
  intros Hwf Hne. pose proof (wf_holds _ Hwf) as Hr. pose proof Hr as (C & _ & _ & H9).
  destruct (wf_spaced _ Hwf) as [|[Hsp _]]; [done|].
  apply (reserved_search_spec rounds _ [] (regions (l_reserved l)) addr Hr);
    [by apply (spaced_proper (-1)); [lia|]|unfold rounds; len].
Qed.

(** ... but right after [lmb_init] it says that every address is reserved. *)
Lemma lmb_is_reserved_empty m c r addr : length r = 9%nat -> fits 32 addr ->
  (l ← lmb_init (Lmb m (Table c 0 r)); lmb_is_reserved l addr) =
  (m' ← init_region m; Some 1).
Proof.
  intros Hr Ha. unfold lmb_init. cbn [l_memory l_reserved]. destruct (init_region m) as [m'|]; [|done].
  cbn [mbind option_bind]. destruct r as [|p r]; [done|]. unfold init_region.
  pose proof (set_entry_at c 0 [] p (Region 0 0) r) as E. cbn [app length] in E. change (Z.of_nat 0) with 0 in E.
  rewrite E. cbn [mbind option_bind]. unfold lmb_is_reserved. cbn [l_reserved rounds reserved_search r_cnt].
  cbn [Z.ltb Z.compare]. change (entry (Table 1 0 _) 0) with (Some (Region 0 0)).
  cbn [mbind option_bind p_base p_size]. change (u32 (0 + 0 - 1)) with (2 ^ 32 - 1).
  unfold fits in Ha. destruct (Z.leb_spec 0 addr), (Z.leb_spec addr (2 ^ 32 - 1)); try lia. done.
Qed.

(** The rounded size is reserved without being checked: it can run into the next
    reserved region. *)
Lemma lmb_alloc_overlaps : exists l',
  lmb_alloc 10 (Lmb (table_of [Region 0x1000 0x8000]) (table_of [Region 0x8100 0xf00])) 0x100 0x1000 =
    Some (0x8000, l') /\
  regions (l_reserved l') = [Region 0x8000 0x1000; Region 0x8100 0xf00].
Proof. eexists. split; [vm_compute; reflexivity|reflexivity]. Qed.

(** With a limit below the size the start address wraps around, and the block
    lies outside the memory. *)
Lemma lmb_alloc_below_limit_wraps :
  option_map fst (lmb_alloc_base 10 (Lmb (table_of [Region 0x1000 0x10000]) (table_of [Region 0x100 0x10]))
    0x3000 0x1000 0x2000) = Some 0xfffff000.
Proof. vm_compute. reflexivity. Qed.
