(* ===== verification/Htab.v ===== *)
(** U-Boot's environment table: uboot/lib/hashtable.c and include/search.h.

    Every environment variable of the boot loader lives in this hash table: open
    addressing with double hashing over a prime number of buckets, numbered from
    one.  A bucket's [used] is 0 when it was never used, -1 when its entry was
    deleted, and otherwise the hash of its key.

    Strings are lists of bytes.  The permission check and the callbacks of
    variables are functions (their answer, 0 to agree); [strdup] is a parameter
    that may fail; [env_callback_init] and [env_flags_init] (common/env_callback.c,
    common/env_flags.c) are parameters that fill the entry's [callback] and
    [flags].  [None] is undefined behaviour: an index out of the table or a string
    function on a null pointer. *)
From S2P Require Import Prelude.

(** ** Data *)
Abbreviation cstr := (list Z).
(** The character at a pointer into a string: NUL at its end. *)
Definition deref (p : cstr) : Z := match p with [] => 0 | c :: _ => c end.

Inductive env_op := env_op_create | env_op_delete | env_op_overwrite.
Inductive ACTION := FIND | ENTER.

Definition callback_t : Type := cstr -> option cstr -> env_op -> Z -> Z.
Record ENTRY := Entry {
  e_key : option cstr; e_data : option cstr; e_callback : option callback_t; e_flags : Z
}.
Record bucket := Bucket { b_used : Z; b_entry : ENTRY }.
Record hsearch_data := Htab {
  h_table : option (list bucket); h_size : Z; h_filled : Z;
  h_change_ok : option (ENTRY -> option cstr -> env_op -> Z -> Z)
}.

Definition EPERM : Z := 1.
Definition ESRCH : Z := 3.
Definition ENOMEM : Z := 12.
Definition EINVAL : Z := 22.

(** What a call returns: its value, the bucket [retval] points to, the error
    number it sets, and the table. *)
Record answer := Answer { a_ret : Z; a_val : option Z; a_errno : option Z; a_htab : hsearch_data }.

Definition no_entry : ENTRY := Entry None None None 0.
Definition no_bucket : bucket := Bucket 0 no_entry.

Definition set_bucket (h : hsearch_data) (idx : Z) (b : bucket) : option hsearch_data :=
  t ← h_table h;
  if idx <? Z.of_nat (length t)
  then Some (Htab (Some (<[Z.to_nat idx := b]> t)) (h_size h) (h_filled h) (h_change_ok h)) else None.
Definition get_bucket (h : hsearch_data) (idx : Z) : option bucket :=
  t ← h_table h; t !! Z.to_nat idx.
Definition with_filled (n : Z) (h : hsearch_data) : hsearch_data :=
  Htab (h_table h) (h_size h) n (h_change_ok h).

(** ** Operations *)
Section Operations.
Context (strdup : cstr -> option cstr) (env_callback_init env_flags_init : ENTRY -> ENTRY).

Fixpoint isprime_loop (n : nat) (number div : Z) : option Z :=
  match n with
  | O => None
  | S n =>
      if (u32 (div * div) <? number) && negb (number mod div =? 0)
      then isprime_loop n number (u32 (div + 2)) else Some div
  end.
Definition isprime (n : nat) (number : Z) : option bool :=
  div ← isprime_loop n number 3; Some (negb (number mod div =? 0)).

Fixpoint next_prime (n : nat) (nel : Z) : option Z :=
  match n with
  | O => None
  | S m => b ← isprime n nel; if b : bool then Some nel else next_prime m (u32 (nel + 2))
  end.

(** [calloc] is taken to succeed. *)
Definition hcreate_r (n : nat) (nel : Z) (h : hsearch_data) : option (Z * hsearch_data) :=
  match h_table h with
  | Some _ => Some (0, h)
  | None =>
      size ← next_prime n (nel .| 1);
      Some (1, Htab (Some (replicate (S (Z.to_nat size)) no_bucket)) size 0 (h_change_ok h))
  end.

Definition hdestroy_r (h : hsearch_data) : hsearch_data :=
  Htab None (h_size h) (h_filled h) (h_change_ok h).

Fixpoint hmatch_loop (n : nat) (pre : cstr) (h : hsearch_data) (idx : Z) : option Z :=
  match n with
  | O => None
  | S n =>
      if idx <? h_size h then
        b ← get_bucket h idx;
        if b_used b <=? 0 then hmatch_loop n pre h (idx + 1)
        else
          key ← e_key (b_entry b);
          if bool_decide (take (length pre) key = pre) then Some idx else hmatch_loop n pre h (idx + 1)
      else Some 0
  end.
Definition hmatch_r (n : nat) (pre : cstr) (last_idx : Z) (h : hsearch_data) : option answer :=
  idx ← hmatch_loop n pre h (u32 (last_idx + 1));
  Some (if idx =? 0 then Answer 0 None (Some ESRCH) h else Answer idx (Some idx) None h).

(** Whether the table's permission check, and an entry's callback, refuse. *)
Definition denies (h : hsearch_data) (e : ENTRY) (data : option cstr) (op : env_op) (flag : Z) : bool :=
  match h_change_ok h with Some f => truthy (f e data op flag) | None => false end.
Definition objects (e : ENTRY) (key : cstr) (data : option cstr) (op : env_op) (flag : Z) : bool :=
  match e_callback e with Some f => truthy (f key data op flag) | None => false end.

(** [None] inside: keep searching. *)
Definition compare_and_overwrite_entry (key : cstr) (data : option cstr) (action : ACTION)
    (h : hsearch_data) (flag hval idx : Z) : option (option answer) :=
  b ← get_bucket h idx;
  if u32 (b_used b) =? hval then
    k ← e_key (b_entry b);
    if bool_decide (key = k) then
      match action, data with
      | ENTER, Some d =>
          if denies h (b_entry b) data env_op_overwrite flag then Some (Some (Answer 0 None (Some EPERM) h))
          else if objects (b_entry b) key data env_op_overwrite flag
          then Some (Some (Answer 0 None (Some EINVAL) h))
          else
            let e := b_entry b in
            h ← set_bucket h idx (Bucket (b_used b) (Entry (e_key e) (strdup d) (e_callback e) (e_flags e)));
            Some (Some match strdup d with
                       | Some _ => Answer idx (Some idx) None h
                       | None => Answer 0 None (Some ENOMEM) h
                       end)
      | _, _ => Some (Some (Answer idx (Some idx) None h))
      end
    else Some None
  else Some None.

Definition hash (key : cstr) : Z :=
  foldr (fun c hval => u32 (u32 (hval << 4) + c)) (u32 (Z.of_nat (length key))) key.
Definition hash1 (h : hsearch_data) (key : cstr) : Z :=
  let hval := hash key mod h_size h in
  if hval =? 0 then hval + 1 else hval.

(** The [do] loop.  [inl]: the function returns; [inr idx]: an unused bucket, or
    the first one again. *)
Fixpoint probe (n : nat) (key : cstr) (data : option cstr) (action : ACTION) (h : hsearch_data)
    (flag hval hval2 idx : Z) : option (answer + Z) :=
  match n with
  | O => None
  | S n =>
      let idx := if idx <=? hval2 then u32 (u32 (h_size h + idx) - hval2) else idx - hval2 in
      if idx =? hval then Some (inr idx)
      else
        res ← compare_and_overwrite_entry key data action h flag hval idx;
        match res with
        | Some a => Some (inl a)
        | None =>
            b ← get_bucket h idx;
            if truthy (b_used b) then probe n key data action h flag hval hval2 idx
            else Some (inr idx)
        end
  end.

Definition hdelete_entry (h : hsearch_data) (idx : Z) : option hsearch_data :=
  h ← set_bucket h idx (Bucket (-1) no_entry);
  Some (with_filled (u32 (h_filled h - 1)) h).

(** From "An empty bucket has been found" on. *)
Definition enter_new (key : cstr) (data : option cstr) (h : hsearch_data)
    (flag hval idx first_deleted : Z) : option answer :=
  if h_filled h =? h_size h then Some (Answer 0 None (Some ENOMEM) h)
  else
    let idx := if truthy first_deleted then first_deleted else idx in
    b ← get_bucket h idx;
    d ← data;
    let e := Entry (strdup key) (strdup d) (e_callback (b_entry b)) (e_flags (b_entry b)) in
    h ← set_bucket h idx (Bucket hval e);
    match strdup key, strdup d with
    | Some _, Some _ =>
        let h := with_filled (u32 (h_filled h + 1)) h in
        let e := env_flags_init (env_callback_init e) in
        h ← set_bucket h idx (Bucket hval e);
        if denies h e data env_op_create flag then
          h ← hdelete_entry h idx; Some (Answer 0 None (Some EPERM) h)
        else if objects e key data env_op_create flag then
          h ← hdelete_entry h idx; Some (Answer 0 None (Some EINVAL) h)
        else Some (Answer 1 (Some idx) None h)
    | _, _ => Some (Answer 0 None (Some ENOMEM) h)
    end.

Definition hsearch_r (n : nat) (key : cstr) (data : option cstr) (action : ACTION)
    (h : hsearch_data) (flag : Z) : option answer :=
  let hval := hash1 h key in
  let idx := hval in
  b ← get_bucket h idx;
  found ← (if truthy (b_used b) then
             let first_deleted := if b_used b =? -1 then idx else 0 in
             res ← compare_and_overwrite_entry key data action h flag hval idx;
             match res with
             | Some a => Some (inl a)
             | None =>
                 let hval2 := 1 + hval mod (u32 (h_size h - 2)) in
                 res ← probe n key data action h flag hval hval2 idx;
                 Some (match res with inl a => inl a | inr idx => inr (idx, first_deleted) end)
             end
           else Some (inr (idx, 0)));
  match found : answer + Z * Z with
  | inl a => Some a
  | inr (idx, first_deleted) =>
      match action with
      | ENTER => enter_new key data h flag hval idx first_deleted
      | FIND => Some (Answer 0 None (Some ESRCH) h)
      end
  end.

Definition hdelete_r (n : nat) (key : cstr) (h : hsearch_data) (flag : Z) : option (Z * option Z * hsearch_data) :=
  a ← hsearch_r n key None FIND h 0;
  let idx := a_ret a in
  if idx =? 0 then Some (0, Some ESRCH, h)
  else
    b ← get_bucket h idx;
    if denies h (b_entry b) None env_op_delete flag then Some (0, Some EPERM, h)
    else if objects (b_entry b) key None env_op_delete flag then Some (0, Some EINVAL, h)
    else h ← hdelete_entry h idx; Some (1, None, h).

(** [callback] answers for each entry; the walk stops at the first answer other
    than 0. *)
Fixpoint hwalk_loop (n : nat) (h : hsearch_data) (callback : ENTRY -> Z) (i : Z) : option Z :=
  match n with
  | O => None
  | S n =>
      if i <=? h_size h then
        b ← get_bucket h i;
        if 0 <? b_used b then
          if truthy (callback (b_entry b)) then Some (callback (b_entry b)) else hwalk_loop n h callback (i + 1)
        else hwalk_loop n h callback (i + 1)
      else Some 0
  end.
Definition hwalk_r (n : nat) (h : hsearch_data) (callback : ENTRY -> Z) : option Z := hwalk_loop n h callback 1.

(** [hwalk_r] with a callback that changes the entries and answers 0. *)
Definition hwalk_update (f : ENTRY -> ENTRY) (h : hsearch_data) : option hsearch_data :=
  t ← h_table h;
  let update x b := if (1 <=? Z.of_nat x) && (Z.of_nat x <=? h_size h) && (0 <? b_used b)
                    then Bucket (b_used b) (f (b_entry b)) else b in
  if (length t <=? Z.to_nat (h_size h))%nat then None
  else Some (Htab (Some (imap update t)) (h_size h) (h_filled h) (h_change_ok h)).
End Operations.

(** ** The probe sequence *)
Section Probes.
Context (p : Z) (Hp : Z.prime p) (Hp5 : 5 <= p < 2 ^ 31).

(** The bucket tried in round [i] of a search that starts at [h] with stride [s]. *)
Definition nth_probe (h s i : Z) : Z := (h - 1 - i * s) mod p + 1.

Lemma nth_probe_range h s i : 1 <= nth_probe h s i <= p.
Proof. unfold nth_probe. pose proof (Z.mod_pos_bound (h - 1 - i * s) p ltac:(lia)). lia. Qed.
Lemma nth_probe_0 h s : 1 <= h <= p -> nth_probe h s 0 = h.
Proof. intros. unfold nth_probe. rewrite Z.mul_0_l, Z.sub_0_r, Z.mod_small; lia. Qed.
Lemma nth_probe_p h s : 1 <= h <= p -> nth_probe h s p = h.
Proof.
  intros. unfold nth_probe. replace (h - 1 - p * s) with (h - 1 + (- s) * p) by lia.
  rewrite Z.mod_add, Z.mod_small; lia.
Qed.

Lemma nth_probe_next h s i : 1 <= s < p ->
  let x := nth_probe h s i in
  (if x <=? s then u32 (u32 (p + x) - s) else x - s) = nth_probe h s (i + 1).
Proof.
  intros Hs. cbv zeta. pose proof (nth_probe_range h s i) as Hx.
  assert (nth_probe h s (i + 1) = (nth_probe h s i - 1 - s) mod p + 1) as ->.
  { unfold nth_probe. f_equal. replace (h - 1 - (i + 1) * s) with (h - 1 - i * s - s) by lia.
    rewrite <- (Zminus_mod_idemp_l (h - 1 - i * s)). f_equal. lia. }
  destruct (Z.leb_spec (nth_probe h s i) s).
  - rewrite (u32_small (p + _)), u32_small by lia.
    replace (nth_probe h s i - 1 - s) with (p + nth_probe h s i - s - 1 + (-1) * p) by lia.
    rewrite Z.mod_add, Z.mod_small; lia.
  - rewrite Z.mod_small; lia.
Qed.

(** The first [p] probes are different ... *)
Lemma nth_probe_inj h s i j : 1 <= s < p -> 0 <= i -> i < j < p -> nth_probe h s i <> nth_probe h s j.
Proof.
  intros Hs Hi Hj E. unfold nth_probe in E.
  assert ((p | (j - i) * s)) as Hd.
  { apply Z.mod_divide; [lia|]. replace ((j - i) * s) with ((h - 1 - i * s) - (h - 1 - j * s)) by lia.
    rewrite Zminus_mod. replace ((h - 1 - i * s) mod p) with ((h - 1 - j * s) mod p) by lia.
    by rewrite Z.sub_diag. }
  apply (Z.divide_prime_mul _ _ p Hp) in Hd as [Hd|Hd]; apply Z.divide_pos_le in Hd; lia.
Qed.

(** ... and reach every bucket: the size is prime. *)
Lemma nth_probe_surj h s x : 1 <= s < p -> 1 <= h <= p -> 1 <= x <= p ->
  exists i, 0 <= i < p /\ nth_probe h s i = x.
Proof.
  intros Hs Hh Hx. destruct (Z.Bezout_coprime p s) as (v & u & Huv).
  { apply Z.coprime_prime_l; [done|]. intros Hd. apply Z.divide_pos_le in Hd; lia. }
  exists (((h - x) * u) mod p). split; [apply Z.mod_pos_bound; lia|]. unfold nth_probe.
  assert ((h - 1 - ((h - x) * u) mod p * s) mod p = x - 1) as ->; [|lia].
  rewrite Zminus_mod, Zmult_mod_idemp_l, <- Zminus_mod.
  replace (h - 1 - (h - x) * u * s) with (x - 1 + ((h - x) * v) * p) by nia.
  rewrite Z.mod_add, Z.mod_small; lia.
Qed.

Lemma nth_probe_start h s i : 1 <= s < p -> 1 <= h <= p -> 0 < i < p -> nth_probe h s i <> h.
Proof. intros Hs Hh Hi E. apply (nth_probe_inj h s 0 i); [done|lia|lia|]. by rewrite nth_probe_0. Qed.
End Probes.

(** ** What a table stands for *)
Definition used_at (t : list bucket) (x : Z) : Z :=
  match t !! Z.to_nat x with Some b => b_used b | None => 0 end.
Definition live (t : list bucket) (x : Z) (k d : cstr) : Prop :=
  exists b, t !! Z.to_nat x = Some b /\ 0 < b_used b /\
    e_key (b_entry b) = Some k /\ e_data (b_entry b) = Some d.

Definition hkey (p : Z) (k : cstr) : Z :=
  let v := hash k mod p in if v =? 0 then v + 1 else v.
Definition stride (p : Z) (k : cstr) : Z := 1 + hkey p k mod (p - 2).
Definition path (p : Z) (k : cstr) (i : Z) : Z := nth_probe p (hkey p k) (stride p k) i.

(** Bucket [x] is on the path of [k], and no bucket before it was never used. *)
Definition reach (p : Z) (t : list bucket) (k : cstr) (x : Z) : Prop :=
  exists i, 0 <= i < p /\ x = path p k i /\ forall j, 0 <= j < i -> used_at t (path p k j) <> 0.

Record table_ok (p : Z) (t : list bucket) (m : gmap cstr cstr) : Prop := {
  ok_len : length t = S (Z.to_nat p);
  ok_bucket x b : 1 <= x <= p -> t !! Z.to_nat x = Some b ->
    b_used b = 0 \/ b_used b = -1 \/
    exists k d, e_key (b_entry b) = Some k /\ e_data (b_entry b) = Some d /\ b_used b = hkey p k /\
      m !! k = Some d /\ reach p t k x;
  ok_map k d : m !! k = Some d -> exists x, 1 <= x <= p /\ live t x k d;
  ok_unique x y k d d' : 1 <= x <= p -> 1 <= y <= p -> live t x k d -> live t y k d' -> x = y
}.

(** The table is in good order and holds exactly the variables of [m]. *)
Record represents (h : hsearch_data) (t : list bucket) (m : gmap cstr cstr) : Prop := {
  rep_table : h_table h = Some t;
  rep_prime : Z.prime (h_size h);
  rep_size : 5 <= h_size h < 2 ^ 31;
  rep_ok : table_ok (h_size h) t m;
  rep_filled : h_filled h = Z.of_nat (size m)
}.

Lemma hkey_range p k : 2 <= p -> 1 <= hkey p k < p.
Proof.
  intros Hp. unfold hkey. cbv zeta. pose proof (Z.mod_pos_bound (hash k) p ltac:(lia)).
  destruct (Z.eqb_spec (hash k mod p) 0); lia.
Qed.
Lemma stride_range p k : 3 <= p -> 1 <= stride p k < p.
Proof. intros Hp. unfold stride. pose proof (Z.mod_pos_bound (hkey p k) (p - 2) ltac:(lia)). lia. Qed.

Section Search.
Context (strdup : cstr -> option cstr) (env_callback_init env_flags_init : ENTRY -> ENTRY).
Context (h : hsearch_data) (t : list bucket) (m : gmap cstr cstr) (Hrep : represents h t m).
Context (key : cstr) (data : option cstr) (action : ACTION) (flag : Z).

Abbreviation p := (h_size h).
Abbreviation compare_at := (compare_and_overwrite_entry strdup key data action h flag (hkey p key)).

Lemma path_range k i : 1 <= path p k i <= p.
Proof. apply nth_probe_range, Hrep. Qed.
Lemma path_0 : path p key 0 = hkey p key.
Proof.
  pose proof (rep_size _ _ _ Hrep). pose proof (hkey_range p key ltac:(lia)). unfold path.
  apply nth_probe_0. lia.
Qed.

Lemma get_bucket_at x : 1 <= x <= p -> exists b, get_bucket h x = Some b /\ t !! Z.to_nat x = Some b.
Proof.
  intros Hx. unfold get_bucket. rewrite (rep_table _ _ _ Hrep). cbn [mbind option_bind].
  assert (is_Some (t !! Z.to_nat x)) as [b Hb].
  { apply lookup_lt_is_Some. rewrite (ok_len _ _ _ (rep_ok _ _ _ Hrep)). lia. }
  by exists b.
Qed.

(** A bucket that does not hold the key is passed over. *)
Lemma compare_miss x : 1 <= x <= p -> (forall d, ~ live t x key d) -> compare_at x = Some None.
Proof.
  intros Hx Hno. destruct (get_bucket_at x Hx) as (b & Eb & Et). unfold compare_and_overwrite_entry.
  rewrite Eb. cbn [mbind option_bind]. pose proof (rep_size _ _ _ Hrep).
  pose proof (hkey_range p key ltac:(lia)).
  destruct (ok_bucket _ _ _ (rep_ok _ _ _ Hrep) x b Hx Et) as [E|[E|(k & d & Ek & Ed & E & _ & _)]]; rewrite E.
  - destruct (Z.eqb_spec (u32 0) (hkey p key)) as [E0|]; [|done]. change (u32 0) with 0 in E0. lia.
  - destruct (Z.eqb_spec (u32 (-1)) (hkey p key)) as [E0|]; [|done]. change (u32 (-1)) with (2 ^ 32 - 1) in E0. lia.
  - pose proof (hkey_range p k ltac:(lia)). rewrite u32_small by lia.
    destruct (Z.eqb_spec (hkey p k) (hkey p key)); [|done]. rewrite Ek. cbn [mbind option_bind].
    case_bool_decide as Ekk; [|done]. subst k. exfalso. apply (Hno d). exists b. split_and!; [done|lia|done|done].
Qed.

Lemma probe_until n i e r :
  0 <= i < e -> e <= p -> e - i <= Z.of_nat n ->
  (forall j, i < j < e -> used_at t (path p key j) <> 0 /\ compare_at (path p key j) = Some None) ->
  (e = p /\ r = inr (hkey p key) \/
   e < p /\ (exists a, compare_at (path p key e) = Some (Some a) /\ r = inl a) \/
   e < p /\ compare_at (path p key e) = Some None /\ used_at t (path p key e) = 0 /\ r = inr (path p key e)) ->
  probe strdup n key data action h flag (hkey p key) (stride p key) (path p key i) = Some r.
Proof.
  pose proof (rep_size _ _ _ Hrep). pose proof (hkey_range p key ltac:(lia)). pose proof (stride_range p key ltac:(lia)).
  pose proof (rep_prime _ _ _ Hrep) as Hprime.
  revert i. induction n as [|n IH]; intros i Hi He Hn Hmid Hend; [lia|]. cbn [probe]. cbv zeta.
  pose proof (nth_probe_next p ltac:(lia) (hkey p key) (stride p key) i ltac:(lia)) as Hnext. cbv zeta in Hnext.
  fold (path p key i) (path p key (i + 1)) in Hnext. rewrite !Hnext. destruct (decide (i + 1 = p)) as [Ep|Ep].
  { assert (e = p) as -> by lia. destruct Hend as [[_ ->]|[[? _]|[? _]]]; [|lia|lia].
    rewrite Ep. unfold path. rewrite nth_probe_p by lia. by rewrite Z.eqb_refl. }
  destruct (Z.eqb_spec (path p key (i + 1)) (hkey p key)) as [E|E].
  { exfalso. revert E. apply nth_probe_start; [done|lia..]. }
  destruct (get_bucket_at (path p key (i + 1)) (path_range key (i + 1))) as (b & Eb & Et).
  destruct (decide (i + 1 = e)) as [<-|Ee].
  - destruct Hend as [[? _]|[(_ & a & Ha & ->)|(_ & Hc & Hu & ->)]]; [lia|by rewrite Ha|].
    rewrite Hc. cbn [mbind option_bind]. rewrite Eb. cbn [mbind option_bind].
    unfold used_at in Hu. rewrite Et in Hu. by rewrite Hu.
  - destruct (Hmid (i + 1) ltac:(lia)) as [Hu Hc]. rewrite Hc. cbn [mbind option_bind]. rewrite Eb.
    cbn [mbind option_bind]. unfold used_at in Hu. rewrite Et in Hu.
    rewrite (proj2 (truthy_true _) Hu). apply IH; [lia|done|lia| |done]. intros j Hj. apply Hmid. lia.
Qed.

Lemma probe_from_start n e r :
  0 < e <= p -> p <= Z.of_nat n ->
  (forall j, 0 < j < e -> used_at t (path p key j) <> 0 /\ compare_at (path p key j) = Some None) ->
  (e = p /\ r = inr (hkey p key) \/
   e < p /\ (exists a, compare_at (path p key e) = Some (Some a) /\ r = inl a) \/
   e < p /\ compare_at (path p key e) = Some None /\ used_at t (path p key e) = 0 /\ r = inr (path p key e)) ->
  probe strdup n key data action h flag (hkey p key) (stride p key) (hkey p key) = Some r.
Proof.
  intros He Hn Hmid Hend. pose proof (probe_until n 0 e r) as Hr. rewrite path_0 in Hr.
  apply Hr; [lia|lia|lia|done|done].
Qed.

Lemma live_reach x d : 1 <= x <= p -> live t x key d -> m !! key = Some d /\ reach p t key x /\ 0 < used_at t x.
Proof.
  intros Hx (b & Eb & Hu & Ek & Ed).
  destruct (ok_bucket _ _ _ (rep_ok _ _ _ Hrep) x b Hx Eb) as [|[|(k & d' & Ek' & Ed' & _ & Hm & Hr)]]; [lia|lia|].
  simplify_eq. split; [done|]. split; [done|]. unfold used_at. by rewrite Eb.
Qed.
Lemma no_live x : m !! key = None -> 1 <= x <= p -> forall d, ~ live t x key d.
Proof. intros Hn Hx d Hl. apply live_reach in Hl as (? & _); [congruence|done]. Qed.

(** A variable of the table is found where it is. *)
Lemma search_present n x d a : (Z.to_nat p <= n)%nat -> 1 <= x <= p -> live t x key d ->
  compare_at x = Some (Some a) ->
  hsearch_r strdup env_callback_init env_flags_init n key data action h flag = Some a.
Proof.
  intros Hn Hx Hl Hc. destruct (live_reach x d Hx Hl) as (_ & (i & Hi & -> & Hbefore) & Hpos).
  assert (forall j, 0 <= j < p -> j <> i -> compare_at (path p key j) = Some None) as Hmiss.
  { intros j Hj Hne. apply compare_miss; [apply path_range|]. intros d' Hl'.
    pose proof (ok_unique _ _ _ (rep_ok _ _ _ Hrep) _ _ _ _ _ (path_range key j) Hx Hl' Hl) as E.
    pose proof (rep_size _ _ _ Hrep). pose proof (stride_range p key ltac:(lia)).
    destruct (Z.lt_ge_cases j i).
    - revert E. apply (nth_probe_inj p (rep_prime _ _ _ Hrep)); lia.
    - symmetry in E. revert E. apply (nth_probe_inj p (rep_prime _ _ _ Hrep)); lia. }
  unfold hsearch_r. cbv zeta. change (hash1 h key) with (hkey p key).
  pose proof (rep_size _ _ _ Hrep) as Hsize. pose proof (hkey_range p key ltac:(lia)).
  destruct (get_bucket_at (hkey p key) ltac:(lia)) as (b & -> & Eb). cbn [mbind option_bind].
  assert (used_at t (hkey p key) <> 0) as Hu.
  { rewrite <- path_0. destruct (decide (i = 0)) as [->|]; [lia|]. apply Hbefore. lia. }
  unfold used_at in Hu. rewrite Eb in Hu. rewrite (proj2 (truthy_true _) Hu).
  destruct (decide (i = 0)) as [->|Hi0].
  - rewrite path_0 in Hc. by rewrite Hc.
  - pose proof (Hmiss 0 ltac:(lia) ltac:(lia)) as H0. rewrite path_0 in H0. rewrite H0.
    cbn [mbind option_bind]. rewrite u32_small by lia. fold (stride p key).
    rewrite (probe_from_start n i (inl a)); [done|lia|lia| |].
    + intros j Hj. split; [apply Hbefore; lia|apply Hmiss; lia].
    + right. left. split; [lia|]. by exists a.
Qed.

(** The first bucket of the path that was never used. *)
Lemma first_unused : (exists e, 0 <= e < p /\ used_at t (path p key e) = 0 /\
    forall j, 0 <= j < e -> used_at t (path p key j) <> 0) \/
  forall j, 0 <= j < p -> used_at t (path p key j) <> 0.
Proof.
  pose proof (rep_size _ _ _ Hrep). 
  assert (forall n : nat, Z.of_nat n <= p -> (exists e, 0 <= e < Z.of_nat n /\ used_at t (path p key e) = 0 /\
    forall j, 0 <= j < e -> used_at t (path p key j) <> 0) \/
    forall j, 0 <= j < Z.of_nat n -> used_at t (path p key j) <> 0) as Hind.
  { induction n as [|n IH]; intros Hn; [right; intros; lia|].
    destruct IH as [(e & ? & ?)|IH]; [lia|left; exists e; split; [lia|done]|].
    destruct (decide (used_at t (path p key (Z.of_nat n)) = 0)) as [E|E].
    - left. exists (Z.of_nat n). split; [lia|done].
    - right. intros j Hj. destruct (decide (j = Z.of_nat n)) as [->|]; [done|apply IH; lia]. }
  destruct (Hind (Z.to_nat p) ltac:(lia)) as [(e & ? & ?)|Hall].
  - left. exists e. split; [lia|done].
  - right. intros j Hj. apply Hall. lia.
Qed.

(** The bucket a new variable goes to: its first one if that was deleted, else the
    first unused one. *)
Lemma search_absent n : (Z.to_nat p <= n)%nat -> m !! key = None ->
  exists idx fd, hsearch_r strdup env_callback_init env_flags_init n key data action h flag =
    match action with
    | ENTER => enter_new strdup env_callback_init env_flags_init key data h flag (hkey p key) idx fd
    | FIND => Some (Answer 0 None (Some ESRCH) h)
    end /\
    let place := if truthy fd then fd else idx in
    1 <= place <= p /\
    ((reach p t key place /\ (used_at t place = 0 \/ used_at t place = -1)) \/
     (place = hkey p key /\ forall x, 1 <= x <= p -> used_at t x <> 0)).
Proof.
  intros Hn Hno. pose proof (rep_size _ _ _ Hrep) as Hsize. pose proof (hkey_range p key ltac:(lia)) as Hh.
  pose proof (stride_range p key ltac:(lia)).
  assert (forall j, compare_at (path p key j) = Some None) as Hmiss.
  { intros j. apply compare_miss; [apply path_range|]. apply no_live; [done|apply path_range]. }
  unfold hsearch_r. cbv zeta. change (hash1 h key) with (hkey p key).
  destruct (get_bucket_at (hkey p key) ltac:(lia)) as (b & -> & Eb). cbn [mbind option_bind].
  assert (used_at t (hkey p key) = b_used b) as Hub by (unfold used_at; by rewrite Eb).
  destruct (truthy (b_used b)) eqn:Et.
  2:{ apply truthy_false in Et. exists (hkey p key), 0. cbn [mbind option_bind]. split; [by destruct action|].
      change (truthy 0) with false. cbv iota. split; [lia|]. left. split; [|left; congruence].
      exists 0. split; [lia|]. split; [by rewrite path_0|]. intros j Hj. lia. }
  apply truthy_true in Et. pose proof (Hmiss 0) as H0. rewrite path_0 in H0. rewrite H0.
  cbn [mbind option_bind]. rewrite u32_small by lia. fold (stride p key). set (fd := if b_used b =? -1 then hkey p key else 0).
  assert (exists idx, probe strdup n key data action h flag (hkey p key) (stride p key) (hkey p key) = Some (inr idx) /\
    1 <= idx <= p /\
    (reach p t key idx /\ used_at t idx = 0 \/
     idx = hkey p key /\ forall x, 1 <= x <= p -> used_at t x <> 0)) as (idx & -> & Hidx & Hcase).
  { destruct first_unused as [(e & He & Hu & Hbefore)|Hall].
    - exists (path p key e). assert (e <> 0) by (intros ->; rewrite path_0 in Hu; congruence).
      split; [|split; [apply path_range|left; split; [by exists e|done]]].
      apply (probe_from_start n e); [lia|lia| |].
      + intros j Hj. split; [apply Hbefore; lia|done].
      + right. right. split_and!; [lia|done|done|done].
    - exists (hkey p key). split; [|split; [lia|right; split; [done|]]].
      + apply (probe_from_start n p); [lia|lia| |by left]. intros j Hj. split; [apply Hall; lia|done].
      + intros x Hx. destruct (nth_probe_surj p (rep_prime _ _ _ Hrep) Hsize (hkey p key) (stride p key) x) as (i & Hi & <-);
          [lia|lia|lia|]. by apply Hall. }
  cbn [mbind option_bind]. exists idx, fd. split; [by destruct action|]. cbv zeta. unfold fd.
  destruct (Z.eqb_spec (b_used b) (-1)) as [E|E].
  - rewrite (proj2 (truthy_true (hkey p key))) by lia. split; [lia|]. left. split; [|right; congruence].
    exists 0. split; [lia|]. split; [by rewrite path_0|]. intros j Hj. lia.
  - change (truthy 0) with false. cbv iota. split; [done|]. tauto.
Qed.
End Search.

(** ** Changing one bucket *)
Section Change.
Context (p : Z) (t : list bucket) (m : gmap cstr cstr) (Hok : table_ok p t m) (Hp : 2 <= p).
Context (x : Z) (Hx : 1 <= x <= p) (b : bucket).

Abbreviation t' := (<[Z.to_nat x := b]> t).

Lemma lookup_changed y : 0 <= y -> t' !! Z.to_nat y = if decide (y = x) then Some b else t !! Z.to_nat y.
Proof.
  intros Hy. destruct (decide (y = x)) as [->|Hne].
  - apply list_lookup_insert_eq. rewrite (ok_len _ _ _ Hok). lia.
  - apply list_lookup_insert_ne. lia.
Qed.
Lemma used_changed y : 0 <= y -> used_at t' y = if decide (y = x) then b_used b else used_at t y.
Proof. intros Hy. unfold used_at. rewrite lookup_changed by done. by destruct (decide (y = x)). Qed.
Lemma live_changed y k d : 0 <= y -> live t' y k d <->
  if decide (y = x) then 0 < b_used b /\ e_key (b_entry b) = Some k /\ e_data (b_entry b) = Some d
  else live t y k d.
Proof.
  intros Hy. unfold live. rewrite lookup_changed by done. destruct (decide (y = x)); [|done].
  split; [intros (b0 & ? & ?); by simplify_eq|]. intros. by exists b.
Qed.

Lemma reach_changed k y : (used_at t x <> 0 -> b_used b <> 0) -> reach p t k y -> reach p t' k y.
Proof.
  intros Hnz (i & Hi & E & Hb). exists i. split; [done|]. split; [done|]. intros j Hj.
  assert (1 <= path p k j) by (unfold path, nth_probe; pose proof (Z.mod_pos_bound (hkey p k - 1 - j * stride p k) p ltac:(lia)); lia).
  rewrite used_changed by lia. destruct (decide (path p k j = x)) as [Ex|]; [|by apply Hb].
  apply Hnz. rewrite <- Ex. by apply Hb.
Qed.

(** A variable put into a bucket without one. *)
Lemma change_new k d : m !! k = None -> reach p t k x -> used_at t x <= 0 ->
  b_used b = hkey p k -> e_key (b_entry b) = Some k -> e_data (b_entry b) = Some d ->
  table_ok p t' (<[k := d]> m).
Proof.
  intros Hno Hr Hu Eu Ek Ed. pose proof (hkey_range p k Hp) as Hh.
  assert (used_at t x <> 0 -> b_used b <> 0) as Hnz by lia.
  assert (forall y k0 d0, 1 <= y <= p -> live t' y k0 d0 ->
    (y = x /\ k0 = k /\ d0 = d) \/ (y <> x /\ k0 <> k /\ m !! k0 = Some d0 /\ live t y k0 d0)) as Hlive.
  { intros y k0 d0 Hy Hl. apply live_changed in Hl; [|lia]. destruct (decide (y = x));
      [left; destruct Hl as (_ & ? & ?); split_and!; congruence|right].
    split; [done|]. pose proof Hl as (b0 & Eb0 & Hu0 & Ek0 & Ed0).
    destruct (ok_bucket _ _ _ Hok y b0 Hy Eb0) as [|[|(k1 & d1 & Ek1 & Ed1 & _ & Hm & _)]]; [lia|lia|].
    simplify_eq. split; [congruence|done]. }
  constructor.
  - by rewrite length_insert, (ok_len _ _ _ Hok).
  - intros y b0 Hy Eb0. rewrite lookup_changed in Eb0 by lia. destruct (decide (y = x)) as [->|Hne].
    + injection Eb0 as <-. right. right. exists k, d. rewrite lookup_insert_eq. split_and!; try done. by apply reach_changed.
    + destruct (ok_bucket _ _ _ Hok y b0 Hy Eb0) as [|[|(k1 & d1 & ? & ? & ? & Hm & Hr1)]]; [by left|by right; left|].
      right. right. exists k1, d1. rewrite lookup_insert_ne by congruence. split_and!; try done. by apply reach_changed.
  - intros k0 d0 Hm. destruct (decide (k0 = k)) as [->|Hne].
    + rewrite lookup_insert_eq in Hm. simplify_eq. exists x. split; [done|]. apply live_changed; [lia|].
      rewrite decide_True by done. split_and!; [lia|done|done].
    + rewrite lookup_insert_ne in Hm by done. destruct (ok_map _ _ _ Hok k0 d0 Hm) as (y & Hy & Hl).
      exists y. split; [done|]. apply live_changed; [lia|]. destruct (decide (y = x)) as [->|]; [|done].
      destruct Hl as (b0 & Eb0 & Hu0 & _). unfold used_at in Hu. rewrite Eb0 in Hu. lia.
  - intros y z k0 d0 d1 Hy Hz Hl1 Hl2. apply Hlive in Hl1; [|done]. apply Hlive in Hl2; [|done].
    destruct Hl1 as [(-> & -> & _)|(? & ? & _ & Hl1)], Hl2 as [(-> & ? & _)|(? & ? & _ & Hl2)]; try done.
    by apply (ok_unique _ _ _ Hok y z k0 d0 d1).
Qed.

(** The value of the variable in [x] changes. *)
Lemma change_data k d d' : live t x k d -> used_at t x = b_used b ->
  e_key (b_entry b) = Some k -> e_data (b_entry b) = Some d' ->
  table_ok p t' (<[k := d']> m).
Proof.
  intros Hl Eu Ek Ed. pose proof Hl as (bx & Ebx & Hux & Ekx & Edx).
  assert (used_at t x = b_used bx) as Eux by (unfold used_at; by rewrite Ebx).
  assert (used_at t x <> 0 -> b_used b <> 0) as Hnz by congruence.
  assert (forall y k0 d0, 1 <= y <= p -> live t' y k0 d0 ->
    (y = x /\ k0 = k /\ d0 = d') \/ (y <> x /\ k0 <> k /\ live t y k0 d0)) as Hlive.
  { intros y k0 d0 Hy Hl0. apply live_changed in Hl0; [|lia]. destruct (decide (y = x)) as [|Hne];
      [left; destruct Hl0 as (_ & ? & ?); split_and!; congruence|right].
    split; [done|]. split; [|done]. intros ->. apply Hne. by apply (ok_unique _ _ _ Hok y x k d0 d). }
  constructor.
  - by rewrite length_insert, (ok_len _ _ _ Hok).
  - intros y b0 Hy Eb0. rewrite lookup_changed in Eb0 by lia. destruct (decide (y = x)) as [->|Hne].
    + injection Eb0 as <-. destruct (ok_bucket _ _ _ Hok x bx Hy Ebx) as [|[|(k1 & d1 & ? & ? & ? & Hm & Hr1)]]; [lia|lia|].
      assert (k1 = k) as -> by congruence. right. right. exists k, d'. rewrite lookup_insert_eq. split_and!; try done; [congruence|by apply reach_changed].
    + destruct (ok_bucket _ _ _ Hok y b0 Hy Eb0) as [|[|(k1 & d1 & Ek1 & Ed1 & Eu1 & Hm & Hr1)]]; [by left|by right; left|].
      right. right. exists k1, d1. destruct (decide (k1 = k)) as [->|].
      { exfalso. apply Hne. apply (ok_unique _ _ _ Hok y x k d1 d); [done|done| |done].
        exists b0. split_and!; try done. pose proof (hkey_range p k Hp). lia. }
      rewrite lookup_insert_ne by congruence. split_and!; try done. by apply reach_changed.
  - intros k0 d0 Hm. destruct (decide (k0 = k)) as [->|Hne].
    + rewrite lookup_insert_eq in Hm. simplify_eq. exists x. split; [done|]. apply live_changed; [lia|].
      rewrite decide_True by done. split_and!; [congruence|done|done].
    + rewrite lookup_insert_ne in Hm by done. destruct (ok_map _ _ _ Hok k0 d0 Hm) as (y & Hy & Hl0).
      exists y. split; [done|]. apply live_changed; [lia|]. destruct (decide (y = x)) as [->|]; [|done].
      destruct Hl0 as (b0 & ? & ? & ? & ?). simplify_eq.
  - intros y z k0 d0 d1 Hy Hz Hl1 Hl2. apply Hlive in Hl1; [|done]. apply Hlive in Hl2; [|done].
    destruct Hl1 as [(-> & -> & _)|(? & ? & Hl1)], Hl2 as [(-> & ? & _)|(? & ? & Hl2)]; try done.
    by apply (ok_unique _ _ _ Hok y z k0 d0 d1).
Qed.

(** The variable in [x] is deleted; the bucket stays on the paths it is on. *)
Lemma change_deleted k d : live t x k d -> b = Bucket (-1) no_entry -> table_ok p t' (delete k m).
Proof.
  intros Hl Eb. assert (used_at t x <> 0 -> b_used b <> 0) as Hnz by (rewrite Eb; cbn; lia).
  pose proof Hl as (bx & Ebx & Hux & Ekx & Edx).
  assert (forall y k0 d0, 1 <= y <= p -> live t' y k0 d0 -> y <> x /\ live t y k0 d0) as Hlive.
  { intros y k0 d0 Hy Hl0. apply live_changed in Hl0; [|lia]. destruct (decide (y = x)); [|done].
    rewrite Eb in Hl0. cbn in Hl0. lia. }
  constructor.
  - by rewrite length_insert, (ok_len _ _ _ Hok).
  - intros y b0 Hy Eb0. rewrite lookup_changed in Eb0 by lia. destruct (decide (y = x)) as [->|Hne].
    + injection Eb0 as <-. rewrite Eb. by right; left.
    + destruct (ok_bucket _ _ _ Hok y b0 Hy Eb0) as [|[|(k1 & d1 & Ek1 & Ed1 & Eu1 & Hm & Hr1)]]; [by left|by right; left|].
      right. right. exists k1, d1. destruct (decide (k1 = k)) as [->|].
      { exfalso. apply Hne. apply (ok_unique _ _ _ Hok y x k d1 d); [done|done| |done].
        exists b0. split_and!; try done. pose proof (hkey_range p k Hp). lia. }
      rewrite lookup_delete_ne by congruence. split_and!; try done. by apply reach_changed.
  - intros k0 d0 Hm. destruct (decide (k0 = k)) as [->|Hne]; [by rewrite lookup_delete_eq in Hm|].
    rewrite lookup_delete_ne in Hm by done. destruct (ok_map _ _ _ Hok k0 d0 Hm) as (y & Hy & Hl0).
    exists y. split; [done|]. apply live_changed; [lia|]. destruct (decide (y = x)) as [->|]; [|done].
    destruct Hl0 as (b0 & ? & ? & ? & ?). simplify_eq.
  - intros y z k0 d0 d1 Hy Hz Hl1 Hl2. apply Hlive in Hl1; [|done]. apply Hlive in Hl2; [|done].
    apply (ok_unique _ _ _ Hok y z k0 d0 d1); tauto.
Qed.
End Change.

(** ** Counting buckets *)
Definition never_used (b : bucket) : Prop := b_used b = 0.
#[local] Instance never_used_dec b : Decision (never_used b).
Proof. unfold never_used. apply _. Defined.
Definition live_key (b : bucket) : option cstr := if 0 <? b_used b then e_key (b_entry b) else None.
Definition unused (t : list bucket) : nat := length (filter never_used (tail t)).

Lemma filter_insert_length (l : list bucket) i b :
  (length (filter never_used l) <= S (length (filter never_used (<[i := b]> l))))%nat.
Proof.
  revert i. induction l as [|c l IH]; intros i; [simpl; lia|]. destruct i as [|i]; simpl.
  - rewrite !filter_cons. destruct (decide (never_used c)), (decide (never_used b)); simpl; lia.
  - specialize (IH i). rewrite !filter_cons. destruct (decide (never_used c)); simpl; lia.
Qed.
Lemma unused_insert t x b : 1 <= x -> (unused t <= S (unused (<[Z.to_nat x := b]> t)))%nat.
Proof.
  intros Hx. destruct t as [|b0 t]; [simpl; unfold unused; simpl; lia|].
  replace (Z.to_nat x) with (S (Z.to_nat (x - 1))) by lia. unfold unused. cbn [tail insert list_insert].
  apply filter_insert_length.
Qed.

Lemma unused_insert_used t x b : 1 <= x -> used_at t x <> 0 -> (unused t <= unused (<[Z.to_nat x := b]> t))%nat.
Proof.
  intros Hx. destruct t as [|b0 t]; [simpl; unfold unused; simpl; lia|].
  unfold used_at. replace (Z.to_nat x) with (S (Z.to_nat (x - 1))) by lia.
  change ((b0 :: t) !! S (Z.to_nat (x - 1))) with (t !! Z.to_nat (x - 1)). unfold unused.
  cbn [tail insert list_insert]. generalize (Z.to_nat (x - 1)). clear.
  induction t as [|c t IH]; intros i; [done|]. destruct i as [|i]; simpl.
  - intros Hc. rewrite !filter_cons.
    destruct (decide (never_used c)) as [E|], (decide (never_used b)); simpl; try lia; done.
  - intros Hi. specialize (IH i Hi). rewrite !filter_cons.
    destruct (decide (never_used c)); cbn [length]; [apply le_n_S|]; exact IH.
Qed.

Section Counting.
Context (p : Z) (t : list bucket) (m : gmap cstr cstr) (Hok : table_ok p t m) (Hp : 2 <= p).

Lemma unused_exists : (0 < unused t)%nat -> exists x, 1 <= x <= p /\ used_at t x = 0.
Proof.
  unfold unused. intros Hn. pose proof (ok_len _ _ _ Hok) as Hl. destruct t as [|b0 t']; [done|].
  cbn [tail length] in *. destruct (filter _ t') as [|b l] eqn:E; [simpl in Hn; lia|].
  assert (b ∈ filter never_used t') as Hb by (rewrite E; by left).
  apply list_elem_of_filter in Hb as [Hu [i Hi]%list_elem_of_lookup].
  pose proof (lookup_lt_Some _ _ _ Hi). exists (Z.of_nat i + 1). split; [lia|].
  unfold used_at. replace (Z.to_nat (Z.of_nat i + 1)) with (S i) by lia. change ((b0 :: t') !! S i) with (t' !! i). by rewrite Hi.
Qed.

(** Variables and unused buckets share the table. *)
Lemma size_unused : Z.of_nat (size m) + Z.of_nat (unused t) <= p.
Proof.
  pose proof (ok_len _ _ _ Hok) as Hl. set (ks := omap live_key (tail t)).
  assert (forall k, k ∈ elements (dom m) -> k ∈ ks) as Hsub.
  { intros k [d Hd]%elem_of_elements%elem_of_dom. destruct (ok_map _ _ _ Hok k d Hd) as (x & Hx & b & Eb & Hu & Ek & _).
    apply list_elem_of_omap. exists b. split.
    - destruct t as [|b0 t']; [done|]. cbn [tail]. apply (list_elem_of_lookup_2 _ (Z.to_nat (x - 1))).
      replace (Z.to_nat x) with (S (Z.to_nat (x - 1))) in Eb by lia. exact Eb.
    - unfold live_key. destruct (Z.ltb_spec 0 (b_used b)); [done|lia]. }
  assert (size m <= length ks)%nat.
  { rewrite <- size_dom. apply (submseteq_length (elements (dom m)) ks), NoDup_submseteq; [apply NoDup_elements|done]. }
  assert (forall l, length (omap live_key l) +
    length (filter never_used l) <= length l)%nat as Hcount.
  { induction l as [|b l IH]; [simpl; lia|]. cbn [omap list_omap]. rewrite filter_cons.
    unfold live_key at 1. destruct (Z.ltb_spec 0 (b_used b)), (decide (never_used b)) as [Hu|Hu];
      unfold never_used in Hu; try lia; [destruct (e_key (b_entry b))| |]; simpl; lia. }
  specialize (Hcount (tail t)). unfold unused, ks in *. destruct t as [|b0 t']; [done|]. simpl in *. lia.
Qed.
End Counting.

(** An entry without callback, type and access restrictions. *)
Definition plain (e : ENTRY) : Prop := e_callback e = None /\ e_flags e = 0.
(** The permission check, if there is one, has no objection to changes of entries
    without flags. *)
Definition approves (h : hsearch_data) : Prop :=
  forall f, h_change_ok h = Some f -> forall e d op flag, e_flags e = 0 -> f e d op flag = 0.
(** Nobody objects: neither the permission check nor an entry's callback. *)
Definition calm (h : hsearch_data) (t : list bucket) : Prop :=
  approves h /\ Forall (fun b => plain (b_entry b)) t.

Lemma calm_insert h h' t i b : calm h t -> h_change_ok h' = h_change_ok h ->
  plain (b_entry b) -> calm h' (<[i := b]> t).
Proof.
  intros [Hc Hall] Hh Hb. split; [|by apply Forall_insert]. intros f Hf. apply Hc. congruence.
Qed.
Lemma calm_agrees h t e k d op flag : calm h t -> plain e ->
  denies h e d op flag = false /\ objects e k d op flag = false.
Proof.
  intros [Hc _] [Hcb Hfl]. unfold denies, objects. rewrite Hcb. split; [|done].
  destruct (h_change_ok h) as [f|] eqn:Ef; [|done]. by rewrite (Hc f Ef).
Qed.
Lemma calm_lookup h t i b : calm h t -> t !! i = Some b -> plain (b_entry b).
Proof. intros [_ Hall] Hb. by apply (Forall_lookup_1 _ _ i b Hall). Qed.

(** ** The operations on the variables *)
Section Variables.
Context (strdup : cstr -> option cstr) (env_callback_init env_flags_init : ENTRY -> ENTRY).
Context (Hdup : forall s, strdup s = Some s).
Context (Hinit : forall e, e_key (env_flags_init (env_callback_init e)) = e_key e /\
                           e_data (env_flags_init (env_callback_init e)) = e_data e).

Abbreviation search := (hsearch_r strdup env_callback_init env_flags_init).

Section Step.
Context (h : hsearch_data) (t : list bucket) (m : gmap cstr cstr) (Hrep : represents h t m).
Abbreviation p := (h_size h).

Lemma set_at x b : 1 <= x <= p ->
  set_bucket h x b = Some (Htab (Some (<[Z.to_nat x := b]> t)) p (h_filled h) (h_change_ok h)).
Proof.
  intros Hx. unfold set_bucket. rewrite (rep_table _ _ _ Hrep). cbn [mbind option_bind].
  rewrite (ok_len _ _ _ (rep_ok _ _ _ Hrep)). destruct (Z.ltb_spec x (Z.of_nat (S (Z.to_nat p)))); [done|lia].
Qed.

Lemma live_bucket x k d : live t x k d -> exists b, get_bucket h x = Some b /\ t !! Z.to_nat x = Some b /\
  0 < b_used b /\ e_key (b_entry b) = Some k /\ e_data (b_entry b) = Some d.
Proof.
  intros (b & Eb & ? & ? & ?). exists b. unfold get_bucket. rewrite (rep_table _ _ _ Hrep). by rewrite Eb.
Qed.

Lemma live_hash x k d b : 1 <= x <= p -> live t x k d -> t !! Z.to_nat x = Some b -> b_used b = hkey p k.
Proof.
  intros Hx (b' & Eb' & Hu & Ek & Ed) Eb. rewrite Eb in Eb'. injection Eb' as <-.
  destruct (ok_bucket _ _ _ (rep_ok _ _ _ Hrep) x b Hx Eb) as [|[|(k1 & d1 & Ek1 & _ & E & _)]]; [lia|lia|]. congruence.
Qed.

(** [FIND], and [ENTER] of no value. *)
Lemma find_spec n key data action flag : (Z.to_nat p <= n)%nat ->
  action = FIND \/ data = None /\ m !! key <> None ->
  match m !! key with
  | Some d => exists x, 1 <= x <= p /\ live t x key d /\
      search n key data action h flag = Some (Answer x (Some x) None h)
  | None => search n key data action h flag = Some (Answer 0 None (Some ESRCH) h)
  end.
Proof.
  intros Hn Ha. destruct (m !! key) as [d|] eqn:Em.
  - destruct (ok_map _ _ _ (rep_ok _ _ _ Hrep) key d Em) as (x & Hx & Hl). exists x. split; [done|]. split; [done|].
    apply (search_present strdup _ _ h t m Hrep key data action flag n x d); [done|done|done|].
    destruct (live_bucket x key d Hl) as (b & Eg & Eb & Hu & Ek & Ed). unfold compare_and_overwrite_entry.
    pose proof (rep_size _ _ _ Hrep). pose proof (hkey_range p key ltac:(lia)).
    rewrite Eg. cbn [mbind option_bind]. rewrite (live_hash x key d b Hx Hl Eb), u32_small, Z.eqb_refl by lia.
    rewrite Ek. cbn [mbind option_bind]. rewrite bool_decide_true by done.
    destruct Ha as [->|[-> _]]; [done|by destruct action].
  - destruct Ha as [->|[_ ?]]; [|done].
    destruct (search_absent strdup env_callback_init env_flags_init h t m Hrep key data FIND flag n Hn Em)
      as (idx & fd & E & _). done.
Qed.

(** [ENTER] of a value for a variable the table has. *)
Lemma enter_present n key d d0 flag : (Z.to_nat p <= n)%nat -> m !! key = Some d0 ->
  exists x b, 1 <= x <= p /\ t !! Z.to_nat x = Some b /\ (0 < b_used b /\ e_key (b_entry b) = Some key) /\
    if denies h (b_entry b) (Some d) env_op_overwrite flag then
      search n key (Some d) ENTER h flag = Some (Answer 0 None (Some EPERM) h)
    else if objects (b_entry b) key (Some d) env_op_overwrite flag then
      search n key (Some d) ENTER h flag = Some (Answer 0 None (Some EINVAL) h)
    else exists h' t', search n key (Some d) ENTER h flag = Some (Answer x (Some x) None h') /\
      represents h' t' (<[key := d]> m) /\ h_size h' = p /\ (unused t <= unused t')%nat /\ (calm h t -> calm h' t').
Proof.
  intros Hn Em. destruct (ok_map _ _ _ (rep_ok _ _ _ Hrep) key d0 Em) as (x & Hx & Hl).
  destruct (live_bucket x key d0 Hl) as (b & Eg & Eb & Hu & Ek & Ed). exists x, b.
  split; [done|]. split; [done|]. split; [done|]. pose proof (rep_size _ _ _ Hrep). pose proof (hkey_range p key ltac:(lia)).
  pose proof (fun a => search_present strdup env_callback_init env_flags_init h t m Hrep key (Some d) ENTER flag n x d0 a Hn Hx Hl) as Hs.
  unfold compare_and_overwrite_entry in Hs. rewrite Eg in Hs. cbn [mbind option_bind] in Hs.
  rewrite (live_hash x key d0 b Hx Hl Eb), u32_small, Z.eqb_refl in Hs by lia.
  rewrite Ek in Hs. cbn [mbind option_bind] in Hs. rewrite bool_decide_true in Hs by done.
  destruct (denies _ _ _ _ _); [by apply Hs|]. destruct (objects _ _ _ _ _); [by apply Hs|].
  rewrite set_at, Hdup in Hs by done. cbn [mbind option_bind] in Hs.
  eexists _, (<[Z.to_nat x := Bucket (hkey p key)
    (Entry (Some key) (Some d) (e_callback (b_entry b)) (e_flags (b_entry b)))]> t).
  split; [by apply Hs|]. split; [|split; [done|split]].
  2:{ apply unused_insert_used; [lia|]. unfold used_at. rewrite Eb. lia. }
  2:{ intros Hcalm. apply (calm_insert h _ t); [done|done|]. cbn. by apply (calm_lookup h t (Z.to_nat x)). }
  constructor; cbn [h_table h_size h_filled]; [done|apply Hrep|apply Hrep| |].
  - apply (change_data p t m (rep_ok _ _ _ Hrep) ltac:(lia) x Hx _ key d0 d Hl); cbn [b_used b_entry e_key e_data]; try done.
    unfold used_at. rewrite Eb. by apply (live_hash x key d0).
  - rewrite map_size_insert_Some; [apply Hrep|done].
Qed.

(** A new variable written to its place. *)
Lemma enter_at place key d e : 1 <= place <= p -> m !! key = None -> reach p t key place ->
  used_at t place = 0 \/ used_at t place = -1 -> e_key e = Some key -> e_data e = Some d ->
  Z.of_nat (size m) < p ->
  represents (Htab (Some (<[Z.to_nat place := Bucket (hkey p key) e]> t)) p (u32 (h_filled h + 1)) (h_change_ok h))
    (<[Z.to_nat place := Bucket (hkey p key) e]> t) (<[key := d]> m).
Proof.
  intros Hx Hno Hr Hu Ek Ed Hsz. pose proof (rep_size _ _ _ Hrep).
  constructor; cbn [h_table h_size h_filled]; [done|apply Hrep|apply Hrep| |].
  - apply (change_new p t m (rep_ok _ _ _ Hrep) ltac:(lia) place Hx); cbn [b_used b_entry]; try done. lia.
  - rewrite map_size_insert_None by done. rewrite (rep_filled _ _ _ Hrep), u32_small; lia.
Qed.
End Step.

(** Deleting the entry of a bucket. *)
Lemma delete_at h t m x k d : represents h t m -> 1 <= x <= h_size h -> live t x k d ->
  exists h' t', hdelete_entry h x = Some h' /\ represents h' t' (delete k m) /\ h_size h' = h_size h /\
    (unused t <= unused t')%nat /\ (calm h t -> calm h' t').
Proof.
  intros Hrep Hx Hl. unfold hdelete_entry. rewrite (set_at h t m Hrep x _ Hx). cbn [mbind option_bind].
  eexists _, (<[Z.to_nat x := Bucket (-1) no_entry]> t). split; [done|]. split; [|split; [done|split]].
  2:{ apply unused_insert_used; [lia|]. destruct (live_reach h t m Hrep k x d Hx Hl). lia. }
  2:{ intros Hcalm. by apply (calm_insert h _ t). }
  pose proof (rep_size _ _ _ Hrep). destruct (live_reach h t m Hrep k x d Hx Hl) as (Hm & _).
  constructor; cbn [with_filled h_table h_size h_filled]; [done|apply Hrep|apply Hrep| |].
  - by apply (change_deleted _ t m (rep_ok _ _ _ Hrep) ltac:(lia) x Hx _ k d).
  - rewrite (rep_filled _ _ _ Hrep). pose proof (size_unused _ t m (rep_ok _ _ _ Hrep)).
    rewrite map_size_delete_Some by (by exists d).
    assert (size m <> 0%nat) by (intros E%map_size_empty_inv; rewrite E in Hm; by rewrite lookup_empty in Hm).
    rewrite u32_small by lia. lia.
Qed.
(** A new variable: entered, or refused and the bucket given up again. *)
Lemma enter_absent h t m n key d flag : represents h t m -> (Z.to_nat (h_size h) <= n)%nat ->
  m !! key = None -> (0 < unused t)%nat ->
  exists a t', search n key (Some d) ENTER h flag = Some a /\ h_size (a_htab a) = h_size h /\
    (unused t <= S (unused t'))%nat /\
    (calm h t -> (forall e, plain e -> plain (env_flags_init (env_callback_init e))) -> a_ret a = 1 /\ calm (a_htab a) t') /\
    (a_ret a = 1 -> a_val a <> None) /\
    ((a_ret a = 1 /\ represents (a_htab a) t' (<[key := d]> m)) \/
     (a_ret a = 0 /\ (a_errno a = Some EPERM /\ h_change_ok h <> None \/
                      a_errno a = Some EINVAL /\ exists e, e_callback (env_flags_init (env_callback_init e)) <> None) /\
      represents (a_htab a) t' m)).
Proof.
  intros Hrep Hn Hno Hun. pose proof (rep_size _ _ _ Hrep).
  destruct (search_absent strdup env_callback_init env_flags_init h t m Hrep key (Some d) ENTER flag n Hn Hno)
    as (idx & fd & -> & Hplace). cbv zeta in Hplace. unfold enter_new. cbv zeta.
  set (place := if truthy fd then fd else idx) in *. destruct Hplace as [Hx [[Hreach Hu]|[_ Hall]]].
  2:{ destruct (unused_exists _ t m (rep_ok _ _ _ Hrep) ltac:(lia) Hun) as (x & Hx' & Hz). by destruct (Hall x Hx'). }
  pose proof (size_unused _ t m (rep_ok _ _ _ Hrep)) as Hsz.
  destruct (Z.eqb_spec (h_filled h) (h_size h)); [rewrite (rep_filled _ _ _ Hrep) in *; lia|].
  destruct (get_bucket_at h t m Hrep place Hx) as (b & -> & Eb). cbn [mbind option_bind].
  rewrite !Hdup. set (e1 := Entry (Some key) (Some d) (e_callback (b_entry b)) (e_flags (b_entry b))).
  rewrite (set_at h t m Hrep place _ Hx). cbn [mbind option_bind].
  pose proof (fun e => enter_at h t m Hrep place key d e Hx Hno Hreach Hu) as Hent.
  pose proof (Hent e1 eq_refl eq_refl ltac:(lia)) as Hrep1.
  change (with_filled _ _) with (Htab (Some (<[Z.to_nat place := Bucket (hkey (h_size h) key) e1]> t)) (h_size h)
    (u32 (h_filled h + 1)) (h_change_ok h)).
  rewrite (set_at _ _ _ Hrep1 place _ Hx). cbn [mbind option_bind h_size h_filled h_change_ok].
  rewrite list_insert_insert_eq. set (e2 := env_flags_init (env_callback_init e1)).
  destruct (Hinit e1) as [Ek2 Ed2]. pose proof (Hent e2 Ek2 Ed2 ltac:(lia)) as Hrep2.
  clear Hrep1. set (t2 := <[Z.to_nat place := Bucket (hkey (h_size h) key) e2]> t) in *.
  set (h2 := Htab (Some t2) _ _ _) in *.
  assert (live t2 place key d) as Hl2.
  { apply (live_changed _ t m (rep_ok _ _ _ Hrep) ltac:(lia) place Hx); [lia|]. rewrite decide_True by done. cbn.
    pose proof (hkey_range (h_size h) key ltac:(lia)). split_and!; [lia|exact Ek2|exact Ed2]. }
  destruct (delete_at h2 t2 _ place key d Hrep2 Hx Hl2) as (h3 & t3 & E3 & Hrep3 & Hs3 & Hu3 & _).
  rewrite delete_insert_id in Hrep3 by done.
  assert (unused t <= S (unused t2))%nat by (apply unused_insert; lia).
  assert (calm h t -> (forall e, plain e -> plain (env_flags_init (env_callback_init e))) ->
    denies h2 e2 (Some d) env_op_create flag = false /\ objects e2 key (Some d) env_op_create flag = false /\
    calm h2 t2) as Hcalm.
  { intros Hc Hi. assert (plain e2) as He2 by (apply Hi; by apply (calm_lookup h t (Z.to_nat place))).
    assert (calm h2 t2) as Hc2 by by apply (calm_insert h _ t).
    destruct (calm_agrees h2 t2 e2 key (Some d) env_op_create flag Hc2 He2). done. }
  destruct (denies h2 _ _ _ _) eqn:Eden; [|destruct (objects e2 _ _ _ _) eqn:Eobj].
  - rewrite E3. cbn [mbind option_bind]. eexists _, t3. split; [done|]. split; [done|]. split; [lia|].
    split; [intros Hc Hi; by destruct (Hcalm Hc Hi) as [? _]|]. split; [done|]. right.
    split; [done|]. split; [|done]. left. split; [done|]. intros En. unfold denies in Eden. cbn in Eden. by rewrite En in Eden.
  - rewrite E3. cbn [mbind option_bind]. eexists _, t3. split; [done|]. split; [done|]. split; [lia|].
    split; [intros Hc Hi; by destruct (Hcalm Hc Hi) as (_ & ? & _)|]. split; [done|]. right.
    split; [done|]. split; [|done]. right. split; [done|]. exists e1. intros En. unfold objects, e2 in Eobj. by rewrite En in Eobj.
  - eexists _, t2. split; [done|]. split; [done|]. split; [lia|].
    split; [intros Hc Hi; by destruct (Hcalm Hc Hi) as (_ & _ & ?)|]. split; [done|]. by left.
Qed.

(** Deleting a variable. *)
Lemma delete_spec h t m n key flag : represents h t m -> (Z.to_nat (h_size h) <= n)%nat ->
  match m !! key with
  | None => hdelete_r strdup env_callback_init env_flags_init n key h flag = Some (0, Some ESRCH, h)
  | Some _ => exists b, b ∈ t /\ (0 < b_used b /\ e_key (b_entry b) = Some key) /\
      if denies h (b_entry b) None env_op_delete flag then
        hdelete_r strdup env_callback_init env_flags_init n key h flag = Some (0, Some EPERM, h)
      else if objects (b_entry b) key None env_op_delete flag then
        hdelete_r strdup env_callback_init env_flags_init n key h flag = Some (0, Some EINVAL, h)
      else exists h' t', hdelete_r strdup env_callback_init env_flags_init n key h flag = Some (1, None, h') /\
        represents h' t' (delete key m) /\ h_size h' = h_size h /\ (unused t <= unused t')%nat /\
        (calm h t -> calm h' t')
  end.
Proof.
  intros Hrep Hn. pose proof (find_spec h t m Hrep n key None FIND 0 Hn ltac:(by left)) as Hf. unfold hdelete_r.
  destruct (m !! key) as [d|] eqn:Em; [|by rewrite Hf].
  destruct Hf as (x & Hx & Hl & ->). cbn [mbind option_bind a_ret].
  destruct (Z.eqb_spec x 0); [lia|]. destruct (live_bucket h t m Hrep x key d Hl) as (b & Eg & Eb & Hu & Ek & _).
  exists b. split; [by apply (list_elem_of_lookup_2 _ (Z.to_nat x))|]. split; [done|]. rewrite Eg. cbn [mbind option_bind].
  destruct (denies _ _ _ _ _); [done|]. destruct (objects _ _ _ _ _); [done|].
  destruct (delete_at h t m x key d Hrep Hx Hl) as (h' & t' & -> & ? & ? & ? & ?). by exists h', t'.
Qed.

(** *** Sequences of commands *)
Inductive command := Setenv (key value : cstr) | Delenv (key : cstr).

Definition execute (n : nat) (c : command) (h : hsearch_data) (flag : Z) : option (Z * hsearch_data) :=
  match c with
  | Setenv key value => a ← search n key (Some value) ENTER h flag; Some (a_ret a, a_htab a)
  | Delenv key => res ← hdelete_r strdup env_callback_init env_flags_init n key h flag; Some (res.1.1, res.2)
  end.
Fixpoint execute_all (n : nat) (cs : list command) (h : hsearch_data) (flag : Z) : option (list Z * hsearch_data) :=
  match cs with
  | [] => Some ([], h)
  | c :: cs =>
      res ← execute n c h flag; rest ← execute_all n cs res.2 flag; Some (res.1 :: rest.1, rest.2)
  end.

Definition effect (c : command) (m : gmap cstr cstr) : gmap cstr cstr :=
  match c with Setenv key value => <[key := value]> m | Delenv key => delete key m end.
(** The variables after the commands that returned something else than 0. *)
Fixpoint effects (cs : list command) (rets : list Z) (m : gmap cstr cstr) : gmap cstr cstr :=
  match cs, rets with
  | c :: cs, r :: rets => effects cs rets (if r =? 0 then m else effect c m)
  | _, _ => m
  end.
Fixpoint settings (cs : list command) : nat :=
  match cs with [] => 0 | Setenv _ _ :: cs => S (settings cs) | Delenv _ :: cs => settings cs end.

(** One command: it takes effect or returns 0; without objections it always
    takes effect, a deletion if there is something to delete. *)
Lemma execute_spec h t m n c flag : represents h t m -> (Z.to_nat (h_size h) <= n)%nat ->
  (settings [c] <= unused t)%nat ->
  exists r h' t', execute n c h flag = Some (r, h') /\ h_size h' = h_size h /\
    represents h' t' (if r =? 0 then m else effect c m) /\ (unused t <= settings [c] + unused t')%nat /\
    (calm h t -> (forall e, plain e -> plain (env_flags_init (env_callback_init e))) ->
     (if r =? 0 then m else effect c m) = effect c m /\ calm h' t').
Proof.
  intros Hrep Hn Hset. pose proof (rep_size _ _ _ Hrep). destruct c as [key d|key]; cbn [execute settings effect] in *.
  - destruct (m !! key) as [d0|] eqn:Em.
    + destruct (enter_present h t m Hrep n key d d0 flag Hn Em) as (x & b & Hx & Eb & _ & Hcase).
      assert (calm h t -> denies h (b_entry b) (Some d) env_op_overwrite flag = false /\
        objects (b_entry b) key (Some d) env_op_overwrite flag = false) as Hcalm.
      { intros Hc. apply (calm_agrees h t); [done|]. by apply (calm_lookup h t (Z.to_nat x)). }
      destruct (denies _ _ _ _ _); [|destruct (objects _ _ _ _ _)].
      * rewrite Hcase. exists 0, h, t. split_and!; [done|done|done|lia|]. intros Hc. by destruct (Hcalm Hc).
      * rewrite Hcase. exists 0, h, t. split_and!; [done|done|done|lia|]. intros Hc. by destruct (Hcalm Hc).
      * destruct Hcase as (h' & t' & -> & Hrep' & Hs & Hu & Hc). exists x, h', t'. cbn [mbind option_bind a_ret a_htab].
        destruct (Z.eqb_spec x 0); [lia|]. split_and!; [done|done|done|lia|]. intros Hc' _. split; [done|by apply Hc].
    + destruct (enter_absent h t m n key d flag Hrep Hn Em ltac:(lia)) as (a & t' & -> & Hs & Hu & Hc & _ & Hcase).
      exists (a_ret a), (a_htab a), t'. cbn [mbind option_bind]. split; [done|]. split; [done|].
      destruct Hcase as [[E Hrep']|(E & _ & Hrep')]; rewrite E; cbn [Z.eqb].
      * split_and!; [done|lia|]. intros Hc1 Hc2. split; [done|by apply Hc].
      * split_and!; [done|lia|]. intros Hc1 Hc2. destruct (Hc Hc1 Hc2). congruence.
  - pose proof (delete_spec h t m n key flag Hrep Hn) as Hd. destruct (m !! key) as [d|] eqn:Em.
    + destruct Hd as (b & Hb & _ & Hcase). apply list_elem_of_lookup in Hb as [i Hb].
      assert (calm h t -> denies h (b_entry b) None env_op_delete flag = false /\
        objects (b_entry b) key None env_op_delete flag = false) as Hcalm.
      { intros Hc. apply (calm_agrees h t); [done|]. by apply (calm_lookup h t i). }
      destruct (denies _ _ _ _ _); [|destruct (objects _ _ _ _ _)].
      * rewrite Hcase. exists 0, h, t. split_and!; [done|done|done|lia|]. intros Hc. by destruct (Hcalm Hc).
      * rewrite Hcase. exists 0, h, t. split_and!; [done|done|done|lia|]. intros Hc. by destruct (Hcalm Hc).
      * destruct Hcase as (h' & t' & -> & Hrep' & Hs & Hu & Hc). exists 1, h', t'. cbn [mbind option_bind fst snd Z.eqb].
        split_and!; [done|done|done|lia|]. intros Hc' _. split; [done|by apply Hc].
    + rewrite Hd. exists 0, h, t. cbn [Z.eqb]. split_and!; [done|done|done|lia|]. intros Hc _.
      split; [by rewrite delete_id|done].
Qed.

Lemma run_execute_all cs h t m n flag : represents h t m -> (Z.to_nat (h_size h) <= n)%nat ->
  (settings cs <= unused t)%nat ->
  exists rets h' t', execute_all n cs h flag = Some (rets, h') /\ h_size h' = h_size h /\
    length rets = length cs /\ represents h' t' (effects cs rets m) /\
    (calm h t -> (forall e, plain e -> plain (env_flags_init (env_callback_init e))) ->
     effects cs rets m = fold_left (fun m c => effect c m) cs m).
Proof.
  revert h t m. induction cs as [|c cs IH]; intros h t m Hrep Hn Hset; cbn [execute_all].
  { by exists [], h, t. }
  assert (settings (c :: cs) = settings [c] + settings cs)%nat as Es by by destruct c.
  destruct (execute_spec h t m n c flag Hrep Hn ltac:(lia)) as (r & h1 & t1 & -> & Hs1 & Hrep1 & Hu1 & Hc1).
  cbn [mbind option_bind snd fst].
  destruct (IH h1 t1 _ Hrep1 ltac:(by rewrite Hs1) ltac:(lia)) as (rets & h' & t' & -> & Hs & Hl & Hrep' & Hc).
  cbn [mbind option_bind snd fst]. exists (r :: rets), h', t'. cbn [effects length].
  split; [done|]. split; [congruence|]. split; [by rewrite Hl|]. split; [done|].
  intros Hcalm Hi. destruct (Hc1 Hcalm Hi) as [Ee Hcalm1]. cbn [fold_left]. rewrite (Hc Hcalm1 Hi). by rewrite Ee.
Qed.
End Variables.

(** ** The size of a table *)
Section Primes.
Context (number : Z) (Hodd : Z.odd number = true) (Hnum : 5 <= number <= 65535 ^ 2).

(** No odd number from 3 up to [div] divides [number]. *)
Definition no_divisor (div : Z) : Prop := forall e, 3 <= e < div -> Z.odd e = true -> ~ (e | number).

Lemma no_divisor_next div : Z.odd div = true -> number mod div <> 0 -> 3 <= div -> no_divisor div ->
  no_divisor (div + 2).
Proof.
  intros Ho Hm Hd Hno e He Hoe. destruct (Z.lt_trichotomy e div) as [|[->|Hgt]]; [apply Hno; [lia|done]|..].
  - intros Hdv. apply Hm. by apply Z.mod_divide; [lia|].
  - assert (e = div + 1) as -> by lia. rewrite Z.odd_add, Ho in Hoe. done.
Qed.

Lemma run_isprime_loop n div : 3 <= div -> div <= 65535 -> Z.odd div = true -> no_divisor div ->
  (3 < div -> (div - 2) * (div - 2) < number) ->
  number <= (div + 2 * (Z.of_nat n - 1)) * (div + 2 * (Z.of_nat n - 1)) -> (0 < n)%nat ->
  exists D, isprime_loop n number div = Some D /\ 3 <= D /\ no_divisor D /\
    (3 < D -> (D - 2) * (D - 2) < number) /\ (number mod D = 0 \/ number <= D * D).
Proof.
  revert div. induction n as [|n IH]; intros div H3 H65 Ho Hno Hprev Hn Hpos; [lia|]. cbn [isprime_loop].
  rewrite u32_small by nia. destruct (Z.ltb_spec (div * div) number); cbn [andb].
  2:{ exists div. split_and!; try done. by right. }
  destruct (Z.eqb_spec (number mod div) 0); cbn [negb]; [exists div; split_and!; try done; by left|].
  assert (div < 65535) by nia. assert (div <> 65534) by (intros ->; done).
  rewrite u32_small by lia. destruct n as [|n]; [simpl in Hn; nia|].
  apply IH; [lia|lia|by rewrite Z.odd_add, Ho|by apply no_divisor_next| |nia|lia].
  intros _. by replace (div + 2 - 2) with div by lia.
Qed.

Lemma odd_divisor e : (e | number) -> Z.odd e = true.
Proof.
  intros [q Hq]. destruct (Z.odd e) eqn:E; [done|]. rewrite Hq, Z.odd_mul, E, andb_false_r in Hodd. done.
Qed.

Lemma isprime_spec n : (0 < n)%nat -> number <= (1 + 2 * Z.of_nat n) * (1 + 2 * Z.of_nat n) ->
  exists b, isprime n number = Some b /\ (b = true <-> Z.prime number).
Proof.
  intros Hpos Hn. destruct (run_isprime_loop n 3) as (D & E & H3 & Hno & Hprev & Hend);
    [lia|lia|done|intros e He; lia|lia|nia|done|].
  unfold isprime. rewrite E. cbn [mbind option_bind]. eexists. split; [done|].
  destruct (Z.eqb_spec (number mod D) 0) as [E0|E0]; cbn [negb].
  - split; [done|]. intros [_ Hp]. exfalso. apply (Hp D); [|by apply Z.mod_divide; [lia|]].
    split; [lia|]. destruct (decide (D = 3)); [lia|]. specialize (Hprev ltac:(lia)).
    assert (D <> 4) by (intros ->; apply Z.mod_divide in E0; [|lia]; by apply odd_divisor in E0). nia.
  - destruct Hend as [?|Hend]; [done|]. split; [|done]. intros _. split; [lia|].
    intros e He [q Hq]. 
    assert (forall x, 1 < x -> (x | number) -> x < D -> False) as Hsmall.
    { intros x Hx Hdx HxD. pose proof (odd_divisor x Hdx) as Hox.
      assert (x <> 2) by (intros ->; done). apply (Hno x); [lia|done|done]. }
    assert (1 < q) by nia.
    destruct (Z.lt_ge_cases e D); [apply (Hsmall e); [lia|by exists q|done]|].
    destruct (Z.lt_ge_cases q D); [apply (Hsmall q); [lia|exists e; lia|done]|].
    assert (e = D) by nia. subst e. apply E0, Z.mod_divide; [lia|]. by exists q.
Qed.
End Primes.

(** [hcreate_r] for the sizes the boot loader asks for, by evaluation. *)
Lemma next_prime_512 : forallb (fun nel => match next_prime 20 (nel .| 1) with
    | Some q => (nel <=? q) && (q <=? 521) && (5 <=? q) && Z.odd q && bool_decide (isprime 20 q = Some true)
    | None => false end) (seqZ 2 511) = true.
Proof. vm_compute. reflexivity. Qed.

Lemma unused_replicate n : unused (replicate (S n) no_bucket) = n.
Proof.
  unfold unused. cbn [replicate tail]. induction n as [|n IH]; [done|]. cbn [replicate]. rewrite filter_cons.
  rewrite decide_True by done. cbn [length]. by rewrite IH.
Qed.

Lemma empty_table_ok p : 0 <= p -> table_ok p (replicate (S (Z.to_nat p)) no_bucket) ∅.
Proof.
  intros Hp. assert (forall x k d, ~ live (replicate (S (Z.to_nat p)) no_bucket) x k d) as Hno.
  { intros x k d (b & Hb & Hu & _). apply lookup_replicate in Hb as [-> _]. cbn in Hu. lia. }
  constructor.
  - by rewrite length_replicate.
  - intros x b _ Hb. apply lookup_replicate in Hb as [-> _]. by left.
  - intros k d Hm. by rewrite lookup_empty in Hm.
  - intros x y k d d' _ _ Hl. by apply Hno in Hl.
Qed.

Lemma hcreate_spec nel h : 2 <= nel <= 512 -> h_table h = None ->
  exists h' t, hcreate_r 20 nel h = Some (1, h') /\ represents h' t ∅ /\ nel <= h_size h' <= 521 /\
    unused t = Z.to_nat (h_size h') /\ h_change_ok h' = h_change_ok h /\
    Forall (fun b => plain (b_entry b)) t.
Proof.
  intros Hnel Ht. unfold hcreate_r. rewrite Ht. pose proof next_prime_512 as Hall. rewrite forallb_forall in Hall.
  specialize (Hall nel ltac:(apply list_elem_of_In, elem_of_seqZ; lia)).
  destruct (next_prime 20 (nel .| 1)) as [q|]; [|done]. cbn [mbind option_bind].
  rewrite !andb_true_iff in Hall. destruct Hall as ((((H1 & H2) & H3) & H4) & H5).
  apply bool_decide_eq_true in H5.
  destruct (isprime_spec q H4 ltac:(lia) 20 ltac:(lia) ltac:(lia)) as (b & Hb & Hprime).
  rewrite Hb in H5. injection H5 as ->. eexists _, _. split; [done|].
  split; [constructor; cbn [h_table h_size h_filled]; [done|by apply Hprime|lia|apply empty_table_ok; lia|by rewrite map_size_empty]|].
  cbn [h_size h_change_ok]. split; [lia|]. split; [apply unused_replicate|]. split; [done|].
  by apply Forall_replicate.
Qed.

(** ** Properties *)

(** C4: the environment refines a finite map: a table created for up to 512
    variables holds, after any sequence of at most that many settings and any
    number of deletions, exactly the variables of the map the commands that
    succeeded make; and when neither a permission check nor a callback objects,
    that is all of them.  Every call returns, and a fuel of 521 rounds is enough. *)
Theorem env_refines strdup env_callback_init env_flags_init nel h0 cs flag n :
  (forall s, strdup s = Some s) ->
  (forall e, e_key (env_flags_init (env_callback_init e)) = e_key e /\
             e_data (env_flags_init (env_callback_init e)) = e_data e) ->
  2 <= nel <= 512 -> h_table h0 = None -> Z.of_nat (settings cs) <= nel -> 521 <= Z.of_nat n ->
  exists h rets h' t', hcreate_r 20 nel h0 = Some (1, h) /\
    execute_all strdup env_callback_init env_flags_init n cs h flag = Some (rets, h') /\
    length rets = length cs /\ represents h' t' (effects cs rets ∅) /\
    (approves h0 -> (forall e, plain e -> plain (env_flags_init (env_callback_init e))) ->
     effects cs rets ∅ = fold_left (fun m c => effect c m) cs ∅).
Proof.
  intros Hdup Hinit Hnel Ht Hset Hn.
  destruct (hcreate_spec nel h0 Hnel Ht) as (h & t & E & Hrep & Hsz & Hu & Hc & Hcb).
  destruct (run_execute_all strdup env_callback_init env_flags_init Hdup Hinit cs h t ∅ n flag Hrep)
    as (rets & h' & t' & Ee & _ & Hl & Hrep' & Hcalm); [lia|lia|].
  exists h, rets, h', t'. split; [done|]. split; [done|]. split; [done|]. split; [done|].
  intros Hco Hi. apply Hcalm; [|done]. split; [|done]. intros f Hf. apply Hco. congruence.
Qed.

Definition no_htab : hsearch_data := Htab None 0 0 None.
Definition boot_commands : list command :=
  [Setenv [98] [49]; Setenv [99] [50]; Delenv [98]; Setenv [99] [51]].

Lemma env_refines_witness : exists h rets h' t', hcreate_r 20 64 no_htab = Some (1, h) /\
  execute_all Some id id (Z.to_nat 521) boot_commands h 0 = Some (rets, h') /\
  represents h' t' {[ [99] := [51] ]}.
Proof.
  destruct (env_refines Some id id 64 no_htab boot_commands 0 (Z.to_nat 521))
    as (h & rets & h' & t' & E1 & E2 & _ & Hrep & Heff);
    [reflexivity|intros e; split; reflexivity|lia|reflexivity|simpl; lia|lia|].
  exists h, rets, h', t'. split; [exact E1|]. split; [exact E2|].
  assert (effects boot_commands rets ∅ = {[ [99] := [51] ]}) as <-; [|exact Hrep].
  vm_compute in E1. injection E1 as <-. vm_compute in E2. injection E2 as <- <-. reflexivity.
Defined.

(** looking a variable up finds its bucket, with its value, exactly when it is
    set; otherwise the answer is 0 and ESRCH.  The table does not change. *)
Theorem env_lookup strdup env_callback_init env_flags_init h t m n key data flag :
  represents h t m -> (Z.to_nat (h_size h) <= n)%nat ->
  match m !! key with
  | Some d => exists x, 1 <= x <= h_size h /\ live t x key d /\
      hsearch_r strdup env_callback_init env_flags_init n key data FIND h flag = Some (Answer x (Some x) None h)
  | None =>
      hsearch_r strdup env_callback_init env_flags_init n key data FIND h flag = Some (Answer 0 None (Some ESRCH) h)
  end.
Proof. intros Hrep Hn. apply (find_spec strdup _ _ h t m Hrep n key data FIND flag Hn). by left. Qed.

Definition five : hsearch_data :=
  Htab (Some (replicate 6 no_bucket)) 5 0 None.
Lemma prime_5 : Z.prime 5.
Proof.
  split; [lia|]. intros n Hn [q Hq]. assert (n = 2 \/ n = 3 \/ n = 4) as [->|[->| ->]] by lia; lia.
Qed.
Lemma five_empty : represents five (replicate 6 no_bucket) ∅.
Proof.
  constructor; cbn; [reflexivity|exact prime_5|lia|exact (empty_table_ok 5 ltac:(lia))|reflexivity].
Qed.

Lemma env_lookup_witness :
  hsearch_r Some id id 5 [97] None FIND five 0 = Some (Answer 0 None (Some ESRCH) five).
Proof. exact (env_lookup Some id id five (replicate 6 no_bucket) ∅ 5 [97] None 0 five_empty ltac:(simpl; lia)). Defined.

(** the primality test of [hcreate_r] is right for every odd number from 5
    that its arithmetic does not overflow on. *)
Theorem isprime_correct number n :
  Z.odd number = true -> 5 <= number <= 65535 ^ 2 -> (0 < n)%nat ->
  number <= (1 + 2 * Z.of_nat n) * (1 + 2 * Z.of_nat n) ->
  exists b, isprime n number = Some b /\ (b = true <-> Z.prime number).
Proof. intros Ho Hn Hpos Hfuel. by apply isprime_spec. Qed.

Lemma isprime_correct_witness : exists b, isprime 20 521 = Some b /\ (b = true <-> Z.prime 521).
Proof. apply isprime_correct; [reflexivity|lia|lia|lia]. Defined.

(** once no bucket was never used, a new variable can take the bucket of
    another: deleted buckets other than the first one probed are passed over, the
    search comes back to where it started, and the variable there is lost although
    every call succeeded. *)
Theorem env_overwrites :
  option_map (fun res => (forallb truthy res.1,
      option_map a_ret (hsearch_r Some id id 10 [97] None FIND res.2 0)))
    (execute_all Some id id 10
       [Setenv [97] [1]; Setenv [98] [2]; Setenv [99] [3]; Setenv [101] [4]; Setenv [100] [5];
        Delenv [98]; Setenv [102] [6]] five 0) = Some (true, Some 0).
Proof. vm_compute. reflexivity. Qed.

(** [hmatch_r] never looks at the last bucket. *)
Lemma hmatch_misses_last :
  option_map (fun res => (option_map a_ret (hmatch_r 10 [100] 0 res.2),
                          option_map a_ret (hsearch_r Some id id 10 [100] None FIND res.2 0)))
    (execute_all Some id id 10
       [Setenv [97] [1]; Setenv [98] [2]; Setenv [99] [3]; Setenv [101] [4]; Setenv [100] [5]] five 0) =
  Some (Some 0, Some 5).
Proof. vm_compute. reflexivity. Qed.

(** 1 and 3 are on the wrong side of [isprime]; a table asked for one entry gets
    the size 1. *)
Lemma isprime_small : isprime 5 1 = Some true /\ isprime 5 3 = Some false.
Proof. split; reflexivity. Qed.
