(* ===== verification/HtabSafe.v ===== *)
(** Memory safety of the environment table for any contents: uboot/lib/hashtable.c.

    The refinement of Htab.v needs a bucket that was never used.  Here is what
    holds without one, for tables filled by any text: no operation leaves the
    table, dereferences a null pointer or loops for ever, as long as [strdup] gets
    its memory; and a property [Q] that the permission check [co] enforces on the
    entries it lets pass holds of every entry of the table, always. *)
From S2P Require Import Prelude Htab.

Definition check_t : Type := ENTRY -> option cstr -> env_op -> Z -> Z.

Definition with_data (d : cstr) (e : ENTRY) : ENTRY := Entry (e_key e) (Some d) (e_callback e) (e_flags e).
Definition refuses (co : option check_t) (e : ENTRY) (d : option cstr) (op : env_op) (flag : Z) : bool :=
  match co with Some f => truthy (f e d op flag) | None => false end.

(** What the permission check lets pass has the property. *)
Class Enforces (co : option check_t) (Q : ENTRY -> Prop) : Prop := {
  enforce_create e d flag : e_data e = Some d -> refuses co e (Some d) env_op_create flag = false -> Q e;
  enforce_overwrite e d flag : Q e -> refuses co e (Some d) env_op_overwrite flag = false -> Q (with_data d e)
}.
#[export] Instance enforces_nothing co : Enforces co (fun _ => True).
Proof. by constructor. Qed.

(** A bucket is unused, deleted, or holds two strings and has the property. *)
Definition sound (Q : ENTRY -> Prop) (b : bucket) : Prop :=
  b_used b = 0 \/ b_used b = -1 \/
  0 < b_used b /\ e_key (b_entry b) <> None /\ e_data (b_entry b) <> None /\ Q (b_entry b).

Record sized (h : hsearch_data) (t : list bucket) : Prop := {
  sh_table : h_table h = Some t;
  sh_prime : Z.prime (h_size h);
  sh_size : 5 <= h_size h < 2 ^ 31;
  sh_len : length t = S (Z.to_nat (h_size h))
}.
Record shaped (co : option check_t) (Q : ENTRY -> Prop) (h : hsearch_data) (t : list bucket) : Prop := {
  sh_sized : sized h t;
  sh_check : h_change_ok h = co;
  sh_sound x b : 1 <= x <= h_size h -> t !! Z.to_nat x = Some b -> sound Q b
}.

Lemma represents_shaped h t m (Q : ENTRY -> Prop) : represents h t m ->
  (forall x b, 1 <= x <= h_size h -> t !! Z.to_nat x = Some b -> 0 < b_used b -> Q (b_entry b)) ->
  shaped (h_change_ok h) Q h t.
Proof.
  intros Hrep HQ. pose proof (rep_ok _ _ _ Hrep) as Hok. constructor; [|done|].
  - constructor; [apply Hrep|apply Hrep|apply Hrep|apply (ok_len _ _ _ Hok)].
  - intros x b Hx Hb. pose proof (rep_size _ _ _ Hrep). unfold sound.
    destruct (ok_bucket _ _ _ Hok x b Hx Hb) as [|[|(k & d & Ek & Ed & E & _)]]; [by left|by right; left|].
    right. right. pose proof (hkey_range (h_size h) k ltac:(lia)). rewrite Ek, Ed.
    split_and!; [lia|done|done|]. apply (HQ x); [done|done|lia].
Qed.

Lemma sized_set h t x b : sized h t -> 1 <= x <= h_size h ->
  set_bucket h x b = Some (Htab (Some (<[Z.to_nat x := b]> t)) (h_size h) (h_filled h) (h_change_ok h)).
Proof.
  intros Hs Hx. unfold set_bucket. rewrite (sh_table _ _ Hs). cbn [mbind option_bind].
  rewrite (sh_len _ _ Hs). by destruct (Z.ltb_spec x (Z.of_nat (S (Z.to_nat (h_size h))))); [|lia].
Qed.
Lemma sized_insert h t x b n : sized h t ->
  sized (Htab (Some (<[Z.to_nat x := b]> t)) (h_size h) n (h_change_ok h)) (<[Z.to_nat x := b]> t).
Proof. intros Hs. constructor; cbn; [done|apply Hs|apply Hs|rewrite length_insert; apply Hs]. Qed.

Section Safety.
Context (co : option check_t) (Q : ENTRY -> Prop) `{!Enforces co Q}.
Context (strdup : cstr -> option cstr) (env_callback_init env_flags_init : ENTRY -> ENTRY).
Context (Hdup : forall s, strdup s = Some s).
Context (Hinit : forall e, e_key (env_flags_init (env_callback_init e)) = e_key e /\
                           e_data (env_flags_init (env_callback_init e)) = e_data e).

Abbreviation good := (shaped co Q).

Lemma shaped_get h t x : good h t -> 1 <= x <= h_size h ->
  exists b, get_bucket h x = Some b /\ t !! Z.to_nat x = Some b /\ sound Q b.
Proof.
  intros Hs Hx. unfold get_bucket. rewrite (sh_table _ _ (sh_sized _ _ _ _ Hs)). cbn [mbind option_bind].
  destruct (lookup_lt_is_Some_2 t (Z.to_nat x)) as [b Hb]; [rewrite (sh_len _ _ (sh_sized _ _ _ _ Hs)); lia|].
  exists b. split_and!; [done|done|]. by apply (sh_sound _ _ _ _ Hs x).
Qed.

Lemma shaped_insert h t x b n : good h t -> 1 <= x <= h_size h -> sound Q b ->
  good (Htab (Some (<[Z.to_nat x := b]> t)) (h_size h) n (h_change_ok h)) (<[Z.to_nat x := b]> t).
Proof.
  intros Hs Hx Hb. constructor; [apply sized_insert, Hs|apply Hs|]. cbn [h_size]. intros y b' Hy Hb'.
  pose proof (sh_len _ _ (sh_sized _ _ _ _ Hs)). destruct (decide (y = x)) as [->|].
  - rewrite list_lookup_insert_eq in Hb' by lia. by injection Hb' as <-.
  - rewrite list_lookup_insert_ne in Hb' by lia. by apply (sh_sound _ _ _ _ Hs y).
Qed.

Lemma denies_refuses h t e d op flag : good h t -> denies h e d op flag = refuses co e d op flag.
Proof. intros Hs. unfold denies. by rewrite (sh_check _ _ _ _ Hs). Qed.

Section Search.
Context (h : hsearch_data) (t : list bucket) (Hs : good h t).
Context (key d : cstr) (action : ACTION) (flag : Z).
Abbreviation p := (h_size h).

Lemma good_size : 5 <= p < 2 ^ 31.
Proof. apply (sh_size _ t), Hs. Qed.

(** An answer that leaves a sound table, and in it points to a bucket. *)
Definition fine (a : answer) : Prop :=
  0 <= a_ret a <= p /\ exists t', good (a_htab a) t' /\ h_size (a_htab a) = p.

Lemma fine_here r v e : 0 <= r <= p -> fine (Answer r v e h).
Proof. intros Hr. split; [done|]. by exists t. Qed.

Lemma compare_total data x : 1 <= x <= p -> (data = Some d \/ action = FIND) ->
  exists r, compare_and_overwrite_entry strdup key data action h flag (hkey p key) x = Some r /\
    forall a, r = Some a -> fine a.
Proof.
  intros Hx Hdata. destruct (shaped_get h t x Hs Hx) as (b & Eb & Et & Hb).
  unfold compare_and_overwrite_entry. rewrite Eb. cbn [mbind option_bind].
  pose proof good_size. pose proof (hkey_range p key ltac:(lia)).
  destruct (Z.eqb_spec (u32 (b_used b)) (hkey p key)) as [E|]; [|by exists None].
  destruct Hb as [Hz|[Hz|(Hu & Hk & Hd & HQ)]].
  { rewrite Hz in E. change (u32 0) with 0 in E. lia. }
  { rewrite Hz in E. change (u32 (-1)) with (2 ^ 32 - 1) in E. lia. }
  destruct (e_key (b_entry b)) as [k|] eqn:Ek; [|done]. cbn [mbind option_bind].
  case_bool_decide; [|by exists None].
  assert (fine (Answer x (Some x) None h)) as Hx1 by (apply fine_here; lia).
  assert (forall e, fine (Answer 0 None e h)) as Hx2 by (intros e; apply fine_here; lia).
  destruct action; [by eexists; split; [done|intros a [= <-]]|].
  destruct Hdata as [->|?]; [|done].
  destruct (denies _ _ _ _ _) eqn:Eden; [by eexists; split; [done|intros a [= <-]]|].
  destruct (objects _ _ _ _ _); [by eexists; split; [done|intros a [= <-]]|].
  rewrite Hdup, (sized_set h t x) by (done || apply Hs).
  cbn [mbind option_bind]. eexists. split; [done|]. intros a [= <-]. split; [cbn; lia|].
  eexists. split; [|done]. apply shaped_insert; [done|done|]. right. right. cbn [b_used b_entry e_key e_data].
  split_and!; [lia|done|done|]. rewrite (denies_refuses h t) in Eden by done.
  pose proof (enforce_overwrite (b_entry b) d flag HQ Eden) as HQ'. unfold with_data in HQ'. by rewrite Ek in HQ'.
Qed.

Lemma probe_total data n i : (data = Some d \/ action = FIND) -> 0 <= i < p -> p - i <= Z.of_nat n ->
  exists r, probe strdup n key data action h flag (hkey p key) (stride p key) (path p key i) = Some r /\
    match r with inl a => fine a | inr x => 1 <= x <= p end.
Proof.
  intros Hdata. pose proof good_size. pose proof (hkey_range p key ltac:(lia)).
  pose proof (stride_range p key ltac:(lia)).
  revert i. induction n as [|n IH]; intros i Hi Hn; [lia|]. cbn [probe]. cbv zeta.
  pose proof (nth_probe_next p ltac:(lia) (hkey p key) (stride p key) i ltac:(lia)) as Hnext. cbv zeta in Hnext.
  fold (path p key i) (path p key (i + 1)) in Hnext. rewrite !Hnext.
  assert (1 <= path p key (i + 1) <= p) as Hrange by (apply nth_probe_range; lia).
  destruct (Z.eqb_spec (path p key (i + 1)) (hkey p key)); [by eexists|].
  destruct (compare_total data _ Hrange Hdata) as (r & -> & Hr). cbn [mbind option_bind].
  destruct r as [a|]; [eexists; split; [done|by apply Hr]|].
  destruct (shaped_get h t _ Hs Hrange) as (b & -> & _). cbn [mbind option_bind].
  destruct (truthy (b_used b)); [|by eexists].
  destruct (decide (i + 1 = p)) as [E|]; [|apply IH; lia].
  exfalso. rewrite E in *. unfold path in *. rewrite nth_probe_p in * by lia. done.
Qed.

Lemma enter_new_total idx fd : 1 <= (if truthy fd then fd else idx) <= p ->
  exists a, enter_new strdup env_callback_init env_flags_init key (Some d) h flag (hkey p key) idx fd = Some a /\ fine a.
Proof.
  intros Hx. pose proof good_size. pose proof (hkey_range p key ltac:(lia)).
  unfold enter_new. cbv zeta. set (x := if truthy fd then fd else idx) in *.
  destruct (h_filled h =? p); [eexists; split; [done|apply fine_here; lia]|].
  destruct (shaped_get h t x Hs Hx) as (b & -> & _). cbn [mbind option_bind]. rewrite !Hdup.
  set (e := Entry (Some key) (Some d) _ _). rewrite (sized_set h t x) by (done || apply Hs).
  unfold with_filled. cbn [mbind option_bind h_table h_size h_filled h_change_ok].
  set (e' := env_flags_init (env_callback_init e)). set (n := u32 (h_filled h + 1)).
  pose proof (sized_insert h t x (Bucket (hkey p key) e) n (sh_sized _ _ _ _ Hs)) as Hs1.
  rewrite (sized_set _ _ x (Bucket (hkey p key) e') Hs1) by (cbn [h_size]; lia).
  cbn [mbind option_bind h_size h_filled h_change_ok]. rewrite list_insert_insert_eq.
  pose proof (sized_insert h t x (Bucket (hkey p key) e') n (sh_sized _ _ _ _ Hs)) as Hs2.
  unfold hdelete_entry. rewrite (sized_set _ _ x (Bucket (-1) no_entry) Hs2) by (cbn [h_size]; lia).
  unfold with_filled. cbn [mbind option_bind h_table h_size h_filled h_change_ok]. rewrite list_insert_insert_eq.
  assert (forall k, good (Htab (Some (<[Z.to_nat x := Bucket (-1) no_entry]> t)) p k (h_change_ok h))
    (<[Z.to_nat x := Bucket (-1) no_entry]> t)) as Hdel by (intros k; apply shaped_insert; [done|done|by right; left]).
  destruct (denies _ _ _ _ _) eqn:Eden; [eexists; split; [done|]; split; [cbn; lia|eexists; split; [apply Hdel|done]]|].
  destruct (objects _ _ _ _ _); [eexists; split; [done|]; split; [cbn; lia|eexists; split; [apply Hdel|done]]|].
  eexists. split; [done|]. split; [cbn; lia|]. eexists. split; [|done]. cbn [a_htab].
  apply shaped_insert; [done|done|]. destruct (Hinit e) as [Ek Ed]. fold e' in Ek, Ed. right. right.
  cbn [b_used b_entry]. rewrite Ek, Ed. split_and!; [lia|done|done|].
  unfold denies in Eden. cbn [h_change_ok] in Eden. rewrite (sh_check _ _ _ _ Hs) in Eden.
  by apply (enforce_create e' d flag).
Qed.

(** Every search ends with an answer, and every insertion leaves a sound table. *)
Lemma hsearch_total data n : (Z.to_nat p <= n)%nat -> (data = Some d \/ action = FIND) ->
  exists a, hsearch_r strdup env_callback_init env_flags_init n key data action h flag = Some a /\ fine a.
Proof.
  intros Hn Hdata. pose proof good_size. pose proof (hkey_range p key ltac:(lia)) as Hh.
  unfold hsearch_r. cbv zeta. change (hash1 h key) with (hkey p key).
  destruct (shaped_get h t (hkey p key) Hs ltac:(lia)) as (b & -> & _). cbn [mbind option_bind].
  assert (forall idx fd, 1 <= (if truthy fd then fd else idx) <= p -> exists a,
    match action with
    | ENTER => enter_new strdup env_callback_init env_flags_init key data h flag (hkey p key) idx fd
    | FIND => Some (Answer 0 None (Some ESRCH) h)
    end = Some a /\ fine a) as Hend.
  { intros idx fd Hx. pose proof (enter_new_total idx fd Hx) as Hnew.
    destruct action; [eexists; split; [done|apply fine_here; lia]|]. by destruct Hdata as [->|?]. }
  destruct (truthy (b_used b)); [|apply Hend; change (truthy 0) with false; cbv iota; lia].
  destruct (compare_total data _ ltac:(split; [apply Hh|lia]) Hdata) as (r & -> & Hr).
  cbn [mbind option_bind]. destruct r as [a|]; [exists a; split; [done|by apply Hr]|].
  rewrite u32_small by lia. fold (stride p key).
  assert (path p key 0 = hkey p key) as E0 by (unfold path; apply nth_probe_0; lia).
  destruct (probe_total data n 0 Hdata ltac:(lia) ltac:(lia)) as (r & Er & Hr').
  rewrite E0 in Er. rewrite Er. cbn [mbind option_bind]. destruct r as [a|x]; [by exists a|]. apply Hend.
  destruct (b_used b =? -1); [|change (truthy 0) with false; cbv iota; lia].
  rewrite (proj2 (truthy_true _)) by lia. lia.
Qed.
End Search.

Lemma hdelete_total h t n key flag : good h t -> (Z.to_nat (h_size h) <= n)%nat ->
  exists r h' t', hdelete_r strdup env_callback_init env_flags_init n key h flag = Some (r, h') /\
    good h' t' /\ h_size h' = h_size h.
Proof.
  intros Hs Hn. unfold hdelete_r.
  destruct (hsearch_total h t Hs key [] FIND 0 None n Hn ltac:(by right)) as (a & -> & Hr & _).
  cbn [mbind option_bind]. destruct (Z.eqb_spec (a_ret a) 0); [by eexists _, h, t|].
  destruct (shaped_get h t (a_ret a) Hs ltac:(lia)) as (b & -> & _). cbn [mbind option_bind].
  destruct (denies _ _ _ _ _); [by eexists _, h, t|]. destruct (objects _ _ _ _ _); [by eexists _, h, t|].
  unfold hdelete_entry. rewrite (sized_set h t) by (apply Hs || lia). cbn [mbind option_bind].
  eexists _, _, _. split; [done|]. split; [|done].
  apply (shaped_insert h t (a_ret a) (Bucket (-1) no_entry)); [done|lia|by right; left].
Qed.

(** The invariant in use: searches end within [n] rounds. *)
Definition usable (n : nat) (h : hsearch_data) : Prop :=
  (Z.to_nat (h_size h) <= n)%nat /\ exists t, good h t.

Lemma usable_search n h key d flag : usable n h ->
  exists a, hsearch_r strdup env_callback_init env_flags_init n key (Some d) ENTER h flag = Some a /\ usable n (a_htab a).
Proof.
  intros [Hn [t Hs]].
  destruct (hsearch_total h t Hs key d ENTER flag (Some d) n Hn ltac:(by left)) as (a & -> & _ & t' & Hs' & E).
  exists a. split; [done|]. split; [by rewrite E|by exists t'].
Qed.
Lemma usable_delete n h key flag : usable n h ->
  exists r h', hdelete_r strdup env_callback_init env_flags_init n key h flag = Some (r, h') /\ usable n h'.
Proof.
  intros [Hn [t Hs]]. destruct (hdelete_total h t n key flag Hs Hn) as (r & h' & t' & -> & Hs' & E).
  exists r, h'. split; [done|]. split; [by rewrite E|by exists t'].
Qed.
Lemma usable_execute_all n cs h flag : usable n h ->
  exists rets h', execute_all strdup env_callback_init env_flags_init n cs h flag = Some (rets, h') /\ usable n h'.
Proof.
  revert h. induction cs as [|c cs IH]; intros h Hh; cbn [execute_all]; [by exists [], h|].
  assert (exists r h1, execute strdup env_callback_init env_flags_init n c h flag = Some (r, h1) /\ usable n h1)
    as (r & h1 & -> & Hh1).
  { destruct c as [k d|k]; cbn [execute].
    - destruct (usable_search n h k d flag Hh) as (a & -> & Ha). by eexists _, _.
    - destruct (usable_delete n h k flag Hh) as (r & h' & -> & Hh'). by eexists _, _. }
  cbn [mbind option_bind fst snd]. destruct (IH h1 Hh1) as (rets & h' & -> & Hh'). by eexists _, _.
Qed.
End Safety.

(** *** More fuel does not change the size of a new table *)
Lemma isprime_loop_mono n n' number div d : isprime_loop n number div = Some d -> (n <= n')%nat ->
  isprime_loop n' number div = Some d.
Proof.
  revert n' div. induction n as [|n IH]; intros [|n'] div E Hn; [done|done|lia|].
  cbn [isprime_loop] in *. destruct (_ && _); [|done]. apply IH; [done|lia].
Qed.
Lemma isprime_mono n n' number b : isprime n number = Some b -> (n <= n')%nat -> isprime n' number = Some b.
Proof.
  unfold isprime. destruct (isprime_loop n number 3) as [d|] eqn:E; [|done]. intros Hb Hn.
  by rewrite (isprime_loop_mono n n' number 3 d E Hn).
Qed.
Lemma next_prime_mono n n' nel q : next_prime n nel = Some q -> (n <= n')%nat -> next_prime n' nel = Some q.
Proof.
  revert n' nel. induction n as [|n IH]; intros [|n'] nel E Hn; [done|done|lia|].
  cbn [next_prime] in *. destruct (isprime (S n) nel) as [b|] eqn:Eb; [|done].
  rewrite (isprime_mono _ (S n') _ _ Eb Hn). cbn [mbind option_bind] in *. destruct b; [done|]. apply IH; [done|lia].
Qed.
Lemma hcreate_mono n n' nel h r : hcreate_r n nel h = Some r -> (n <= n')%nat -> hcreate_r n' nel h = Some r.
Proof.
  unfold hcreate_r. destruct (h_table h); [done|]. destruct (next_prime n (nel .| 1)) as [q|] eqn:E; [|done].
  intros Hr Hn. by rewrite (next_prime_mono _ _ _ _ E Hn).
Qed.

(** A new table is sound, whatever the property, and the fuel beyond 20 rounds. *)
Lemma hcreate_total co Q n nel h : 2 <= nel <= 512 -> h_table h = None -> h_change_ok h = co -> (20 <= n)%nat ->
  exists h' t, hcreate_r n nel h = Some (1, h') /\ shaped co Q h' t /\ h_size h' <= 521.
Proof.
  intros Hnel Ht Hco Hn. destruct (hcreate_spec nel h Hnel Ht) as (h' & t & E & Hrep & Hsz & _ & Hc & _).
  exists h', t. split; [by apply (hcreate_mono 20)|]. split; [|lia].
  rewrite <- Hco, <- Hc. apply (represents_shaped h' t ∅ Q Hrep). intros x b Hx Hb Hu.
  destruct (ok_bucket _ _ _ (rep_ok _ _ _ Hrep) x b Hx Hb) as [|[|(k & d & _ & _ & _ & Hm & _)]]; [lia|lia|].
  by rewrite lookup_empty in Hm.
Qed.
