(* ===== verification/Qsort.v ===== *)
(** U-Boot's qsort: uboot/lib/qsort.c, a shell sort.

    The array is a list of elements and indices count elements; the C code
    counts bytes, every index being a multiple of [width].  The comparison is a
    function into the integers. *)
From Stdlib Require Import Sorted.
From S2P Require Import Prelude.
Local Open Scope nat_scope.

(** ** Operations *)
Section Operations.
Context {A : Type} (comp : A -> A -> Z).

(** The first loop: the largest gap. *)
Fixpoint first_gap (n : nat) (wgap nel : nat) : option nat :=
  match n with
  | O => None
  | S n =>
      let wgap := 3 * wgap + 1 in
      if wgap <? (nel - 1) / 3 then first_gap n wgap nel else Some wgap
  end.

(** The innermost loop: the element at [j] moves down by swaps. *)
Fixpoint sift (n : nat) (base : list A) (wgap j : nat) : option (list A) :=
  match n with
  | O => None
  | S n =>
      let j := j - wgap in
      a ← base !! j; b ← base !! (j + wgap);
      if (comp a b <=? 0)%Z then Some base
      else
        let base := <[j + wgap := a]> (<[j := b]> base) in
        if wgap <=? j then sift n base wgap j else Some base
  end.

(** One pass over the array with a fixed gap. *)
Fixpoint pass (n : nat) (base : list A) (wgap i : nat) : option (list A) :=
  match n with
  | O => None
  | S n =>
      base ← sift (S i) base wgap i;
      if i + 1 <? length base then pass n base wgap (i + 1) else Some base
  end.

Fixpoint passes (n : nat) (base : list A) (wgap : nat) : option (list A) :=
  match n with
  | O => None
  | S n =>
      base ← pass (length base) base wgap wgap;
      let wgap := (wgap - 1) / 3 in
      if 0 <? wgap then passes n base wgap else Some base
  end.

Definition qsort (base : list A) : option (list A) :=
  if 1 <? length base then
    wgap ← first_gap (length base) 0 (length base); passes (S wgap) base wgap
  else Some base.
End Operations.

(** ** Theory *)

(** The gaps the passes use: 1, 4, 13, ... *)
Inductive gap : nat -> Prop :=
  | gap_1 : gap 1
  | gap_next g : gap g -> gap (3 * g + 1).

Lemma gap_pos g : gap g -> 0 < g.
Proof. destruct 1; lia. Qed.
Lemma gap_prev g : (3 * g + 1 - 1) / 3 = g.
Proof. replace (3 * g + 1 - 1) with (g * 3) by lia. apply Nat.div_mul. lia. Qed.

Lemma run_first_gap n g nel :
  g = 0 \/ gap g -> 3 * g + 1 < nel -> nel <= n + 3 * g + 1 ->
  exists g', first_gap n g nel = Some g' /\ gap g' /\ g' < nel.
Proof.
  revert g. induction n as [|n IH]; intros g Hg Hlt Hn; [lia|]. cbn [first_gap]. cbv zeta.
  assert (gap (3 * g + 1)) as Hg' by (destruct Hg as [->|Hg]; [apply gap_1|by apply gap_next]).
  destruct (Nat.ltb_spec (3 * g + 1) ((nel - 1) / 3)) as [Hlt'|]; [|by eexists].
  assert (3 * ((nel - 1) / 3) <= nel - 1) by apply Nat.Div0.mul_div_le.
  apply IH; [by right|lia|lia].
Qed.

Section Sorting.
Context {A : Type} (comp : A -> A -> Z).

Definition not_after (a b : A) : Prop := (comp a b <= 0)%Z.

Lemma insert_here (P : list A) x R y : <[length P := y]> (P ++ x :: R) = P ++ y :: R.
Proof. induction P as [|z P IH]; simpl; congruence. Qed.

Lemma swap_perm (l : list A) i j a b : i < j -> l !! i = Some a -> l !! j = Some b ->
  <[j := a]> (<[i := b]> l) ≡ₚ l.
Proof.
  intros Hij Ha Hb. destruct (list_elem_of_split_length _ _ _ Ha) as (P & R & -> & ->).
  rewrite lookup_app_r in Hb by lia. replace (j - length P) with (S (j - length P - 1)) in Hb by lia.
  simpl in Hb. destruct (list_elem_of_split_length _ _ _ Hb) as (Q & T & -> & HQ).
  rewrite insert_here. replace j with (length P + S (length Q)) by lia. rewrite insert_app_r.
  cbn [insert list_insert]. rewrite insert_here.
  apply Permutation_app_head. rewrite <- !Permutation_middle. apply perm_swap.
Qed.

(** The element at [j] sinks in steps of [g]; the elements stay the same. *)
Lemma run_sift n l g j : 0 < g -> g <= j -> j < length l -> j < n ->
  exists l', sift comp n l g j = Some l' /\ l' ≡ₚ l.
Proof.
  revert l j. induction n as [|n IH]; intros l j Hg Hj Hl Hn; [lia|]. cbn [sift]. cbv zeta.
  destruct (lookup_lt_is_Some_2 l (j - g)) as [a Ha]; [lia|].
  destruct (lookup_lt_is_Some_2 l (j - g + g)) as [b Hb]; [lia|].
  rewrite Ha, Hb. simpl. destruct (comp a b <=? 0)%Z; [by eexists|].
  pose proof (swap_perm l (j - g) (j - g + g) a b ltac:(lia) Ha Hb) as Hp.
  destruct (Nat.leb_spec g (j - g)); [|by eexists].
  destruct (IH (<[j - g + g := a]> (<[j - g := b]> l)) (j - g)) as (l' & Hl' & Hp');
    [lia..|rewrite !length_insert; lia|lia|]. exists l'. rewrite Hl'. by split; [|rewrite Hp'].
Qed.

Lemma run_pass n l g i : 0 < g -> g <= i -> i < length l -> length l <= n + i ->
  exists l', pass comp n l g i = Some l' /\ l' ≡ₚ l.
Proof.
  revert l i. induction n as [|n IH]; intros l i Hg Hi Hl Hn; [lia|]. cbn [pass].
  destruct (run_sift (S i) l g i Hg Hi Hl ltac:(lia)) as (l1 & -> & Hp). simpl.
  destruct (Nat.ltb_spec (i + 1) (length l1)); [|by eexists].
  assert (length l1 = length l) as E by (by rewrite Hp).
  destruct (IH l1 (i + 1)) as (l' & -> & Hp'); [lia..|]. exists l'. split; [done|by rewrite Hp'].
Qed.

(** *** The pass with gap one is an insertion sort *)

(** Neighbours below index [k] are in order, the pair ending at [j] apart. *)
Definition sorted_but (j k : nat) (l : list A) : Prop :=
  (forall p x y, p + 1 < k -> p + 1 <> j -> l !! p = Some x -> l !! (p + 1) = Some y -> not_after x y) /\
  (forall x y, 0 < j -> j + 1 < k -> l !! (j - 1) = Some x -> l !! (j + 1) = Some y -> not_after x y).

Context (Htotal : forall a b, (0 < comp a b)%Z -> not_after b a).

Lemma sorted_but_step j k l a b : 0 < j -> j < k -> k <= length l -> sorted_but j k l ->
  l !! (j - 1) = Some a -> l !! j = Some b -> (0 < comp a b)%Z ->
  sorted_but (j - 1) k (<[j := a]> (<[j - 1 := b]> l)).
Proof.
  intros Hj Hk Hl [H1 H2] Ha Hb Hab.
  assert (forall p, <[j := a]> (<[j - 1 := b]> l) !! p =
    if decide (p = j) then Some a else if decide (p = j - 1) then Some b else l !! p) as E.
  { intros p. destruct (decide (p = j)) as [->|]; [apply list_lookup_insert_eq; rewrite length_insert; lia|].
    rewrite list_lookup_insert_ne by done.
    destruct (decide (p = j - 1)) as [->|]; [apply list_lookup_insert_eq; lia|].
    by rewrite list_lookup_insert_ne. }
  split.
  - intros p x y Hp Hpj. rewrite !E. repeat case_decide; try lia.
    + (* the element above the swapped pair *)
      intros [= <-] Hy. replace (p + 1) with (j + 1) in Hy by lia. apply (H2 a y); [lia|lia|done|done].
    + intros [= <-] [= <-]. by apply Htotal.
    + intros Hx Hy. by apply (H1 p x y Hp).
  - intros x y Hj' Hk'. rewrite !E. repeat case_decide; try lia.
    intros Hx [= <-]. apply (H1 (j - 1 - 1)); [lia|lia|done|]. by replace (j - 1 - 1 + 1) with (j - 1) by lia.
Qed.

Lemma run_sift_one n l j k l' : 0 < j -> j < k -> k <= length l -> sorted_but j k l ->
  sift comp n l 1 j = Some l' -> sorted_but 0 k l'.
Proof.
  revert l j. induction n as [|n IH]; intros l j Hj Hk Hl Hs; [done|]. cbn [sift]. cbv zeta.
  replace (j - 1 + 1) with j by lia.
  destruct (l !! (j - 1)) as [a|] eqn:Ha; [|done]. destruct (l !! j) as [b|] eqn:Hb; [|done].
  cbn [mbind option_bind].
  destruct (Z.leb_spec (comp a b) 0) as [Hab|Hab].
  - intros [= <-]. destruct Hs as [H1 H2]. split; [|lia]. intros p x y Hp _ Hx Hy.
    destruct (decide (p + 1 = j)) as [<-|]; [|by apply (H1 p)].
    replace (p + 1 - 1) with p in Ha by lia. rewrite Hx in Ha. rewrite Hy in Hb. congruence.
  - pose proof (sorted_but_step j k l a b Hj Hk Hl Hs Ha Hb Hab) as Hs'.
    destruct (Nat.leb_spec 1 (j - 1)).
    + apply IH; [lia|lia|rewrite !length_insert; lia|done].
    + assert (j = 1) as -> by lia. by intros [= <-].
Qed.

Lemma run_pass_one n l i l' : 0 < i -> i < length l -> length l <= n + i ->
  sorted_but 0 i l -> pass comp n l 1 i = Some l' -> sorted_but 0 (length l) l'.
Proof.
  revert l i. induction n as [|n IH]; intros l i Hi Hl Hn Hs; [done|]. cbn [pass].
  destruct (run_sift (S i) l 1 i ltac:(lia) Hi Hl ltac:(lia)) as (l1 & Hl1 & Hp). rewrite Hl1. simpl.
  assert (length l1 = length l) as E by (by rewrite Hp).
  assert (sorted_but 0 (i + 1) l1) as Hs1.
  { apply (run_sift_one (S i) l i (i + 1)); [lia..| |done]. destruct Hs as [H1 _].
    split; [|lia]. intros p x y Hp' Hne. apply H1; lia. }
  destruct (Nat.ltb_spec (i + 1) (length l1)); rewrite <- E.
  - apply IH; [lia..|done].
  - intros [= <-]. by replace (length l1) with (i + 1) by lia.
Qed.

Lemma sorted_but_Sorted l : sorted_but 0 (length l) l -> Sorted not_after l.
Proof.
  induction l as [|x l IH]; intros [H _]; [done|]. constructor.
  - apply IH. split; [|lia]. intros p a b Hp _ Ha Hb. apply (H (S p)); [simpl; lia|lia|done|done].
  - destruct l as [|y l]; constructor. apply (H 0); [simpl; lia|lia|done|done].
Qed.

Lemma run_passes n l g : gap g -> g < n -> g < length l ->
  exists l', passes comp n l g = Some l' /\ l' ≡ₚ l /\ Sorted not_after l'.
Proof.
  revert l g. induction n as [|n IH]; intros l g Hg Hn Hl; [lia|]. cbn [passes].
  pose proof (gap_pos g Hg) as Hpos.
  destruct (run_pass (length l) l g g Hpos ltac:(lia) Hl ltac:(lia)) as (l1 & Hl1 & Hp).
  rewrite Hl1. cbn [mbind option_bind]. cbv zeta.
  assert (length l1 = length l) as E by (by rewrite Hp).
  destruct Hg as [|g Hg].
  - exists l1. split_and!; [done|done|]. apply sorted_but_Sorted. rewrite E.
    apply (run_pass_one (length l) l 1); [lia..| |done]. split; lia.
  - rewrite gap_prev. pose proof (gap_pos g Hg). destruct (Nat.ltb_spec 0 g); [|lia].
    destruct (IH l1 g Hg ltac:(lia) ltac:(lia)) as (l' & -> & Hp' & Hs). exists l'.
    split_and!; [done|by rewrite Hp'|done].
Qed.

Lemma run_qsort (l : list A) :
  exists l', qsort comp l = Some l' /\ l' ≡ₚ l /\ Sorted not_after l'.
Proof.
  unfold qsort. destruct (Nat.ltb_spec 1 (length l)).
  - destruct (run_first_gap (length l) 0 (length l)) as (g & -> & Hg & Hlt); [by left|lia|lia|].
    cbn [mbind option_bind]. apply run_passes; [done|lia|done].
  - exists l. split_and!; [done|done|].
    destruct l as [|x [|y l]]; [constructor|by repeat constructor|simpl in *; lia].
Qed.
(** C39: qsort (uboot/lib/qsort.c) with any comparison under which of two
    elements one may stand before the other: every index the C code
    dereferences is inside the array, all its loops end, and it leaves the same
    elements in an order in which no element compares greater than its
    successor. *)
Theorem qsort_sorts (l : list A) :
  exists l', qsort comp l = Some l' /\ l' ≡ₚ l /\ Sorted not_after l'.
Proof. apply run_qsort. Qed.
End Sorting.

Lemma qsort_sorts_witness :
  exists l', qsort Z.sub [5; 3; 9; 1; 7; 3; 8; 2; 6; 4; 0; 11; 10; 12; 13; 15; 14]%Z = Some l' /\
    l' ≡ₚ [5; 3; 9; 1; 7; 3; 8; 2; 6; 4; 0; 11; 10; 12; 13; 15; 14]%Z /\ Sorted (not_after Z.sub) l'.
Proof. apply (qsort_sorts Z.sub). intros a b Hab. unfold not_after. lia. Defined.
