(* ===== verification/Hexport.v ===== *)
(** The text form of U-Boot's environment: [hexport_r] of uboot/lib/hashtable.c,
    with the string functions of uboot/lib/string.c it calls.

    The result is a buffer of bytes that the function allocates or that the
    caller passes; [None] is undefined behaviour, a write behind the buffer
    included.  Regular expressions (slre.c) are parameters, and so is whether an
    allocation succeeds. *)
From Stdlib Require Import Sorted.
From S2P Require Import Prelude Htab Qsort.

Definition H_NOCLEAR : Z := 1 << 0.
Definition H_FORCE : Z := 1 << 1.
Definition H_INTERACTIVE : Z := 1 << 2.
Definition H_HIDE_DOT : Z := 1 << 3.
Definition H_MATCH_KEY : Z := 1 << 4.
Definition H_MATCH_DATA : Z := 1 << 5.
Definition H_MATCH_IDENT : Z := 1 << 6.
Definition H_MATCH_SUBSTR : Z := 1 << 7.
Definition H_MATCH_REGEX : Z := 1 << 8.
Definition H_MATCH_METHOD : Z := H_MATCH_IDENT .| H_MATCH_SUBSTR .| H_MATCH_REGEX.

(** ** Strings

    A string is the list of its bytes in front of the terminating NUL. *)
Fixpoint strcmp (cs ct : cstr) : Z :=
  match cs, ct with
  | [], [] => 0
  | c :: _, [] => s8 (c - 0)
  | [], t :: _ => s8 (0 - t)
  | c :: cs, t :: ct => let res := s8 (c - t) in if truthy res then res else strcmp cs ct
  end.

(** Whether [strstr] finds [s2]; [l1] is what is left of [s1]. *)
Fixpoint strstr_loop (l1 : nat) (s1 s2 : cstr) : bool :=
  match l1 with
  | O => false
  | S l1' =>
      if (length s2 <=? l1)%nat then
        if bool_decide (take (length s2) s1 = s2) then true else strstr_loop l1' (drop 1 s1) s2
      else false
  end.
Definition strstr (s1 s2 : cstr) : bool :=
  match s2 with [] => true | _ => strstr_loop (length s1) s1 s2 end.

(** ** Operations *)
Section Operations.
Context {slre : Type} (slre_compile : cstr -> option slre) (slre_match : slre -> cstr -> bool).
Context (alloc : Z -> bool).

Definition cmpkey (e1 e2 : ENTRY) : Z :=
  match e_key e1, e_key e2 with Some k1, Some k2 => strcmp k1 k2 | _, _ => 0 end.

Definition match_string (flag : Z) (str pat : cstr) (slrep : slre) : bool :=
  let method := flag .& H_MATCH_METHOD in
  if method =? H_MATCH_IDENT then strcmp str pat =? 0
  else if method =? H_MATCH_SUBSTR then strstr str pat
  else if method =? H_MATCH_REGEX then slre_match slrep str
  else false.

Fixpoint match_entry (ep : ENTRY) (flag : Z) (argv : list cstr) : option bool :=
  match argv with
  | [] => Some false
  | arg :: argv =>
      match slre_compile arg with
      | None => Some false
      | Some slre =>
          k ← (if truthy (flag .& H_MATCH_KEY) then key ← e_key ep; Some (match_string flag key arg slre)
               else Some false);
          if k : bool then Some true
          else
            d ← (if truthy (flag .& H_MATCH_DATA) then data ← e_data ep; Some (match_string flag data arg slre)
                 else Some false);
            if d : bool then Some true else match_entry ep flag argv
      end
  end.

(** What pass 1 counts for a value. *)
Definition value_room (sep : Z) (data : cstr) : Z :=
  if sep =? 0 then Z.of_nat (length data)
  else foldl (fun totlen s => if (s =? sep) || (s =? 92) then totlen + 1 + 1 else totlen + 1) 0 data.

(** Pass 1, from bucket [i] on; [entries] is the array [list]. *)
Fixpoint pass1 (n : nat) (htab : hsearch_data) (sep flag : Z) (argv : list cstr) (i : Z)
    (entries : list ENTRY) (totlen : Z) : option (list ENTRY * Z) :=
  match n with
  | O => None
  | S n =>
      if i <=? h_size htab then
        b ← get_bucket htab i;
        if 0 <? b_used b then
          let ep := b_entry b in
          found ← match_entry ep flag argv;
          if (0 <? Z.of_nat (length argv)) && negb found then pass1 n htab sep flag argv (i + 1) entries totlen
          else
            key ← e_key ep;
            if truthy (flag .& H_HIDE_DOT) && bool_decide (head key = Some 46)
            then pass1 n htab sep flag argv (i + 1) entries totlen
            else
              data ← e_data ep;
              pass1 n htab sep flag argv (i + 1) (entries ++ [ep])
                (u32 (totlen + (Z.of_nat (length key) + 2) + value_room sep data + 2))
        else pass1 n htab sep flag argv (i + 1) entries totlen
      else Some (entries, totlen)
  end.

(** [*p++ = c] *)
Definition put_char (c : Z) (st : list Z * nat) : option (list Z * nat) :=
  let '(res, p) := st in
  if (p <? length res)%nat then Some (<[p := c]> res, S p) else None.

Fixpoint put_key (s : cstr) (st : list Z * nat) : option (list Z * nat) :=
  match s with [] => Some st | c :: s => st ← put_char c st; put_key s st end.
Fixpoint put_value (sep : Z) (s : cstr) (st : list Z * nat) : option (list Z * nat) :=
  match s with
  | [] => Some st
  | c :: s =>
      st ← (if (c =? sep) || (c =? 92) then put_char 92 st else Some st);
      st ← put_char c st; put_value sep s st
  end.
Fixpoint pass2 (sep : Z) (entries : list ENTRY) (st : list Z * nat) : option (list Z * nat) :=
  match entries with
  | [] => Some st
  | ep :: entries =>
      key ← e_key ep; st ← put_key key st; st ← put_char 61 st;
      data ← e_data ep; st ← put_value sep data st; st ← put_char sep st;
      pass2 sep entries st
  end.

(** The outcome: what is returned, the error number, and the buffer [*resp]
    points to afterwards. *)
Record exported := Exported { x_ret : Z; x_errno : option Z; x_res : option (list Z) }.

(** [resp]: no pointer at all, a null pointer, or the caller's buffer. *)
Definition hexport_r (n : nat) (htab : hsearch_data) (sep flag : Z) (resp : option (option (list Z)))
    (size : Z) (argv : list cstr) : option exported :=
  match resp with
  | None => Some (Exported (-1) (Some EINVAL) None)
  | Some buffer =>
      found ← pass1 n htab sep flag argv 1 [] 0;
      let '(entries, totlen) := found in
      entries ← qsort cmpkey entries;
      if truthy size && (size <? u32 (totlen + 1)) then Some (Exported (-1) (Some ENOMEM) buffer)
      else
        let size := if truthy size then size else u32 (totlen + 1) in
        res ← match buffer with
              | Some buffer =>
                  if (Z.to_nat size <=? length buffer)%nat
                  then Some (Some (replicate (Z.to_nat size) 0 ++ drop (Z.to_nat size) buffer)) else None
              | None => Some (if alloc size then Some (replicate (Z.to_nat size) 0) else None)
              end;
        match res with
        | None => Some (Exported (-1) (Some ENOMEM) None)
        | Some res =>
            st ← pass2 sep entries (res, 0%nat);
            st ← put_char 0 st;
            Some (Exported size None (Some st.1))
        end
  end.
End Operations.

(** ** The text *)

(** A value as it is written. *)
Definition escape (sep : Z) (s : cstr) : list Z :=
  s ≫= fun c => if (c =? sep) || (c =? 92) then [92; c] else [c].
Definition entry_text (sep : Z) (kd : cstr * cstr) : list Z := kd.1 ++ [61] ++ escape sep kd.2 ++ [sep].
Definition text (sep : Z) (l : list (cstr * cstr)) : list Z := l ≫= entry_text sep.

Definition pair_of (e : ENTRY) : cstr * cstr := (default [] (e_key e), default [] (e_data e)).
Definition whole (e : ENTRY) : Prop := exists k d, e_key e = Some k /\ e_data e = Some d.

(** What pass 1 reckons with for a variable: two bytes more than it takes. *)
Definition reckoned (sep : Z) (kd : cstr * cstr) : Z :=
  Z.of_nat (length kd.1) + 2 + value_room sep kd.2 + 2.
Definition reckoned_all (sep : Z) (l : list (cstr * cstr)) : Z := foldr (fun kd z => reckoned sep kd + z) 0 l.

(** The order of the text: no key compares greater than the next. *)
Definition in_order (kd kd' : cstr * cstr) : Prop := strcmp kd.1 kd'.1 <= 0.

(** ** Theory *)
Lemma s8_opposite z : 0 < s8 z -> s8 (- z) <= 0.
Proof. unfold s8. dlia. Qed.

(** Of two keys one may stand before the other, even where [strcmp] is not an
    order because it truncates the difference of two bytes. *)
Lemma strcmp_total k k' : 0 < strcmp k k' -> strcmp k' k <= 0.
Proof.
  revert k'. induction k as [|c k IH]; intros [|c' k']; cbn [strcmp]; cbv zeta; [done|..].
  - rewrite Z.sub_0_r. intros H%s8_opposite. revert H. by rewrite Z.opp_sub_distr, Z.opp_0, Z.add_0_l.
  - rewrite Z.sub_0_r. intros H%s8_opposite. by rewrite Z.sub_0_l.
  - assert (s8 (c' - c) = 0 <-> s8 (c - c') = 0) as Hz by (unfold s8; dlia).
    destruct (truthy (s8 (c - c'))) eqn:E; destruct (truthy (s8 (c' - c))) eqn:E';
      rewrite ?truthy_true, ?truthy_false in *; try tauto; [|apply IH].
    intros H%s8_opposite. revert H. by rewrite Z.opp_sub_distr, Z.add_comm, Z.add_opp_r.
Qed.

Lemma cmpkey_total e e' : 0 < cmpkey e e' -> not_after cmpkey e' e.
Proof.
  unfold not_after, cmpkey. destruct (e_key e) as [k|], (e_key e') as [k'|]; try lia. apply strcmp_total.
Qed.

Lemma strcmp_refl k : strcmp k k = 0.
Proof. induction k as [|c k IH]; [done|]. cbn [strcmp]. by rewrite Z.sub_diag. Qed.

(** Strings of bytes are equal when [strcmp] says so. *)
Lemma strcmp_eq k k' : Forall (fun c => 1 <= c <= 255) k -> Forall (fun c => 1 <= c <= 255) k' ->
  strcmp k k' = 0 -> k = k'.
Proof.
  revert k'. induction k as [|c k IH]; intros [|c' k'] Hk Hk'; cbn [strcmp]; cbv zeta; [done|..].
  - apply list.Forall_cons in Hk' as [Hc _]. unfold s8. intros. exfalso. dlia.
  - apply list.Forall_cons in Hk as [Hc _]. unfold s8. intros. exfalso. dlia.
  - apply list.Forall_cons in Hk as [Hc Hk]. apply list.Forall_cons in Hk' as [Hc' Hk'].
    destruct (truthy _) eqn:E; [rewrite truthy_true in E; done|]. apply truthy_false in E.
    assert (c = c') as -> by (unfold s8 in E; dlia). intros. f_equal. by apply IH.
Qed.

Lemma Sorted_pairs (l : list ENTRY) : Forall whole l -> Sorted (not_after cmpkey) l ->
  Sorted in_order (pair_of <$> l).
Proof.
  induction l as [|e l IH]; intros Hw Hs; [constructor|].
  apply list.Forall_cons in Hw as [He Hw]. apply Sorted_inv in Hs as [Hs Hd].
  cbn [fmap list_fmap]. constructor; [by apply IH|]. destruct l as [|e' l]; constructor.
  apply HdRel_inv in Hd. apply list.Forall_cons in Hw as [(k' & d' & Ek' & _) _].
  destruct He as (k & d & Ek & _). unfold not_after, cmpkey in Hd. unfold in_order, pair_of.
  by rewrite Ek, Ek' in *.
Qed.

(** *** The room *)
Lemma value_room_text sep s : sep <> 0 -> value_room sep s = Z.of_nat (length (escape sep s)).
Proof.
  intros Hs. unfold value_room. destruct (Z.eqb_spec sep 0); [done|].
  assert (forall z, foldl (fun totlen s => if (s =? sep) || (s =? 92) then totlen + 1 + 1 else totlen + 1) z s =
    z + Z.of_nat (length (escape sep s))) as E; [|by rewrite E].
  unfold escape. induction s as [|c s IH]; intros z; [simpl; lia|]. cbn [foldl]. rewrite IH.
  rewrite bind_cons, length_app. destruct ((c =? sep) || (c =? 92)); cbn [length]; lia.
Qed.
Lemma value_room_nonneg sep s : 0 <= value_room sep s.
Proof.
  destruct (decide (sep = 0)) as [->|Hs]; [unfold value_room; rewrite Z.eqb_refl; lia|].
  rewrite value_room_text by done. lia.
Qed.
Lemma text_reckoned sep l : sep <> 0 -> Z.of_nat (length (text sep l)) + 2 * Z.of_nat (length l) = reckoned_all sep l.
Proof.
  intros Hs. unfold text. induction l as [|kd l IH]; [done|]. cbn [reckoned_all foldr]. fold (reckoned_all sep l).
  rewrite <- IH, bind_cons, length_app. unfold entry_text, reckoned. rewrite !length_app, value_room_text by done.
  cbn [length]. lia.
Qed.
Lemma reckoned_nonneg sep l : 0 <= reckoned_all sep l.
Proof.
  induction l as [|kd l IH]; [done|]. cbn [reckoned_all foldr]. fold (reckoned_all sep l).
  unfold reckoned. pose proof (value_room_nonneg sep kd.2). lia.
Qed.

#[export] Instance text_length_perm sep : Proper ((≡ₚ) ==> eq) (fun l => length (text sep l)).
Proof. intros l l' Hl. unfold text. by rewrite Hl. Qed.
#[export] Instance reckoned_perm sep : Proper ((≡ₚ) ==> eq) (reckoned_all sep).
Proof.
  intros l l' Hl. unfold reckoned_all. apply (foldr_permutation_proper eq); [apply _|intros; lia|done].
Qed.

(** *** The entries of a table *)
Definition live_entry (b : bucket) : option ENTRY := if 0 <? b_used b then Some (b_entry b) else None.
Definition live_entries (t : list bucket) : list ENTRY := omap live_entry t.

Lemma NoDup_omap {A B : Type} (f : A -> option B) (l : list A) :
  (forall i j x y b, l !! i = Some x -> l !! j = Some y -> f x = Some b -> f y = Some b -> i = j) ->
  NoDup (omap f l).
Proof.
  induction l as [|x l IH]; intros Hf; [constructor|].
  assert (NoDup (omap f l)) as Hl.
  { apply IH. intros i j y z b Hi Hj Hy Hz. assert (S i = S j) by by apply (Hf (S i) (S j) y z b). lia. }
  cbn [omap list_omap]. destruct (f x) as [b|] eqn:Ex; [|done]. constructor; [|done].
  intros (y & Hy & Eb)%list_elem_of_omap. apply list_elem_of_lookup in Hy as [i Hi].
  by pose proof (Hf 0%nat (S i) x y b eq_refl Hi Ex Eb).
Qed.

Section Entries.
Context (p : Z) (t : list bucket) (m : gmap cstr cstr) (Hok : table_ok p t m) (Hp : 2 <= p).

Lemma live_entry_at i b : tail t !! i = Some b -> 0 < b_used b ->
  1 <= Z.of_nat i + 1 <= p /\ exists k d, live t (Z.of_nat i + 1) k d /\
    e_key (b_entry b) = Some k /\ e_data (b_entry b) = Some d /\ m !! k = Some d.
Proof.
  intros Hi Hu. pose proof (ok_len _ _ _ Hok) as Hl.
  assert (t !! Z.to_nat (Z.of_nat i + 1) = Some b) as Hb.
  { destruct t as [|b0 t']; [done|]. by replace (Z.to_nat (Z.of_nat i + 1)) with (S i) by lia. }
  pose proof (lookup_lt_Some _ _ _ Hb). assert (1 <= Z.of_nat i + 1 <= p) as Hx by lia. split; [done|].
  destruct (ok_bucket _ _ _ Hok _ b Hx Hb) as [|[|(k & d & Ek & Ed & _ & Hm & _)]]; [lia|lia|].
  exists k, d. split_and!; try done. by exists b.
Qed.

Lemma live_entries_whole : Forall whole (live_entries (tail t)).
Proof.
  apply list.Forall_forall. intros e (b & Hb & E)%list_elem_of_omap. unfold live_entry in E.
  destruct (Z.ltb_spec 0 (b_used b)); [|done]. injection E as <-.
  apply list_elem_of_lookup in Hb as [i Hi]. destruct (live_entry_at i b Hi) as (_ & k & d & _ & Ek & Ed & _); [done|].
  by exists k, d.
Qed.

Lemma live_entries_map : pair_of <$> live_entries (tail t) ≡ₚ map_to_list m.
Proof.
  unfold live_entries.
  assert (pair_of <$> omap live_entry (tail t) = omap (fun b => pair_of <$> live_entry b) (tail t)) as ->.
  { clear. generalize (tail t). intros l. induction l as [|b l IH]; [done|]. cbn [omap list_omap].
    destruct (live_entry b); cbn [fmap list_fmap option_fmap option_map]; by rewrite IH. }
  assert (forall i b kd, tail t !! i = Some b -> pair_of <$> live_entry b = Some kd ->
    1 <= Z.of_nat i + 1 <= p /\ live t (Z.of_nat i + 1) kd.1 kd.2 /\ m !! kd.1 = Some kd.2) as Hat.
  { intros i b kd Hi E. unfold live_entry in E. destruct (Z.ltb_spec 0 (b_used b)); [|done]. injection E as <-.
    destruct (live_entry_at i b Hi) as (Hx & k & d & Hl & Ek & Ed & Hm); [done|].
    unfold pair_of. rewrite Ek, Ed. split; [exact Hx|split; [exact Hl|exact Hm]]. }
  apply NoDup_Permutation; [|apply NoDup_map_to_list|].
  - apply NoDup_omap. intros i j b b' kd Hi Hj E E'.
    destruct (Hat i b kd Hi E) as (Hxi & Hli & _), (Hat j b' kd Hj E') as (Hxj & Hlj & _).
    pose proof (ok_unique _ _ _ Hok _ _ _ _ _ Hxi Hxj Hli Hlj). lia.
  - intros [k d]. rewrite list_elem_of_omap, elem_of_map_to_list. split.
    + intros (b & Hb & E). apply list_elem_of_lookup in Hb as [i Hi]. by destruct (Hat i b (k, d) Hi E) as (_ & _ & ?).
    + intros Hm. destruct (ok_map _ _ _ Hok k d Hm) as (x & Hx & b & Eb & Hu & Ek & Ed). exists b. split.
      * destruct t as [|b0 t']; [done|]. cbn [tail]. apply (list_elem_of_lookup_2 _ (Z.to_nat (x - 1))).
        replace (Z.to_nat x) with (S (Z.to_nat (x - 1))) in Eb by lia. exact Eb.
      * unfold live_entry. destruct (Z.ltb_spec 0 (b_used b)); [|lia]. cbn [fmap option_fmap option_map].
        unfold pair_of. by rewrite Ek, Ed.
Qed.
End Entries.

Lemma filter_all {A : Type} (P : A -> Prop) `{!forall x, Decision (P x)} (l : list A) :
  (forall x, x ∈ l -> P x) -> filter P l = l.
Proof.
  induction l as [|x l IH]; intros Hl; [done|]. rewrite filter_cons, decide_True by (apply Hl; by left).
  f_equal. apply IH. intros y Hy. apply Hl. by right.
Qed.

(** *** Writing *)

(** [f] writes [cs] at the position it is given, if there is room. *)
Definition writes (f : list Z * nat -> option (list Z * nat)) (cs : list Z) : Prop :=
  forall pre rest, (length cs <= length rest)%nat ->
    f (pre ++ rest, length pre) = Some ((pre ++ cs) ++ drop (length cs) rest, length (pre ++ cs)).

Lemma writes_nil : writes Some [].
Proof. intros pre rest _. by rewrite app_nil_r. Qed.
Lemma writes_app f g cs ds : writes f cs -> writes g ds -> writes (fun st => st ← f st; g st) (cs ++ ds).
Proof.
  intros Hf Hg pre rest Hl. rewrite length_app in Hl. rewrite Hf by lia. cbn [mbind option_bind].
  rewrite Hg by (rewrite length_drop; lia). by rewrite drop_drop, (length_app cs ds), !app_assoc.
Qed.
Lemma writes_putc c : writes (put_char c) [c].
Proof.
  intros pre [|r rest] Hl; [simpl in Hl; lia|]. unfold put_char. rewrite length_app. cbn [length].
  destruct (Nat.ltb_spec (length pre) (length pre + S (length rest))); [|lia].
  rewrite insert_here, <- app_assoc. cbn [app drop]. rewrite length_app, drop_0. cbn [length].
  by rewrite Nat.add_1_r.
Qed.
Lemma writes_key s : writes (put_key s) s.
Proof.
  induction s as [|c s IH]; [apply writes_nil|].
  exact (writes_app (put_char c) (put_key s) [c] s (writes_putc c) IH).
Qed.
Lemma writes_value sep s : writes (put_value sep s) (escape sep s).
Proof.
  induction s as [|c s IH]; [apply writes_nil|]. pose proof (writes_app _ _ _ _ (writes_putc c) IH) as Hc.
  unfold escape. rewrite bind_cons. intros pre rest. cbn [put_value].
  destruct ((c =? sep) || (c =? 92)); [|by apply Hc].
  exact (writes_app _ _ _ _ (writes_putc 92) Hc pre rest).
Qed.
Lemma writes_pass2 sep l : Forall whole l -> writes (pass2 sep l) (text sep (pair_of <$> l)).
Proof.
  induction l as [|e l IH]; intros Hw; [apply writes_nil|].
  apply list.Forall_cons in Hw as [(k & d & Ek & Ed) Hw]. specialize (IH Hw).
  intros pre rest. cbn [fmap list_fmap pass2]. unfold text. rewrite bind_cons. fold (text sep (pair_of <$> l)).
  assert (pair_of e = (k, d)) as -> by (unfold pair_of; by rewrite Ek, Ed).
  unfold entry_text. cbn [fst snd]. rewrite Ek, Ed. change (Some k ≫= ?f) with (f k). cbv beta.
  replace ((k ++ [61] ++ escape sep d ++ [sep]) ++ text sep (pair_of <$> l)) with
    (k ++ [61] ++ escape sep d ++ [sep] ++ text sep (pair_of <$> l)) by by rewrite <- !app_assoc.
  exact (writes_app _ _ _ _ (writes_key k) (writes_app _ _ _ _ (writes_putc 61) (writes_app _ _ _ _ (writes_value sep d)
    (writes_app _ _ _ _ (writes_putc sep) IH))) pre rest).
Qed.

Section Writing.
Context {slre : Type} (slre_compile : cstr -> option slre) (slre_match : slre -> cstr -> bool).
Context (alloc : Z -> bool) (htab : hsearch_data) (t : list bucket) (m : gmap cstr cstr).
Context (Hrep : represents htab t m) (sep flag : Z) (argv : list cstr).

(** The variables asked for: those that match an argument, all when there is
    none, and without the ones hidden by a dot. *)
Definition matches (kd : cstr * cstr) : bool :=
  default false (match_entry slre_compile slre_match (Entry (Some kd.1) (Some kd.2) None 0) flag argv).
Definition wanted (kd : cstr * cstr) : Prop :=
  (argv = [] \/ matches kd = true) /\ ~ (truthy (flag .& H_HIDE_DOT) = true /\ head kd.1 = Some 46).
#[export] Instance wanted_dec kd : Decision (wanted kd).
Proof. unfold wanted. apply _. Defined.

Lemma match_entry_pair e args : whole e ->
  match_entry slre_compile slre_match e flag args =
    match_entry slre_compile slre_match (Entry (Some (pair_of e).1) (Some (pair_of e).2) None 0) flag args /\
  is_Some (match_entry slre_compile slre_match e flag args).
Proof.
  intros (k & d & Ek & Ed). unfold pair_of. rewrite Ek, Ed. cbn [default fst snd].
  induction args as [|a args IH]; [done|]. cbn [match_entry e_key e_data]. rewrite Ek, Ed.
  destruct (slre_compile a) as [r|]; [|done].
  destruct (truthy (flag .& H_MATCH_KEY)), (truthy (flag .& H_MATCH_DATA)); cbn [mbind option_bind];
    repeat (destruct (match_string _ _ _ _ _); cbn [mbind option_bind]); done.
Qed.

Lemma run_pass1 n (i : nat) acc tot : (1 <= i)%nat -> (length t <= n + i - 1)%nat -> (0 < n)%nat -> (i <= length t)%nat ->
  Forall whole (live_entries (drop i t)) ->
  pass1 slre_compile slre_match n htab sep flag argv (Z.of_nat i) acc (u32 tot) =
    let l := filter (fun e => wanted (pair_of e)) (live_entries (drop i t)) in
    Some (acc ++ l, u32 (tot + reckoned_all sep (pair_of <$> l))).
Proof.
  pose proof (ok_len _ _ _ (rep_ok _ _ _ Hrep)) as Hlen. pose proof (rep_size _ _ _ Hrep).
  revert i acc tot. induction n as [|n IH]; intros i acc tot Hi Hn Hpos Hit Hw; [lia|]. cbn [pass1].
  destruct (Z.leb_spec (Z.of_nat i) (h_size htab)) as [Hle|Hgt].
  2:{ rewrite drop_ge by lia. cbn. by rewrite app_nil_r, Z.add_0_r. }
  unfold get_bucket. rewrite (rep_table _ _ _ Hrep). cbn [mbind option_bind]. rewrite Nat2Z.id.
  destruct (lookup_lt_is_Some_2 t i ltac:(lia)) as [b Hb]. rewrite Hb. cbn [mbind option_bind].
  assert (live_entries (drop i t) = match live_entry b with Some e => e :: live_entries (drop (S i) t)
    | None => live_entries (drop (S i) t) end) as El.
  { by rewrite (drop_S t b i Hb). }
  replace (Z.of_nat i + 1) with (Z.of_nat (S i)) by lia. rewrite El in *. unfold live_entry in *.
  destruct (Z.ltb_spec 0 (b_used b)); [|apply IH; [lia|lia|lia|lia|done]].
  apply list.Forall_cons in Hw as [He Hw]. specialize (fun a z => IH (S i) a z ltac:(lia) ltac:(lia) ltac:(lia) ltac:(lia) Hw).
  cbv zeta. destruct (match_entry_pair _ argv He) as [Em [found Ef]]. rewrite Ef. cbn [mbind option_bind].
  destruct He as (k & d & Ek & Ed). rewrite Ek, Ed. cbn [mbind option_bind]. rewrite filter_cons.
  assert (pair_of (b_entry b) = (k, d)) as Epair by (unfold pair_of; by rewrite Ek, Ed).
  assert (wanted (k, d) <-> (0 <? Z.of_nat (length argv)) && negb found = false /\
    truthy (flag .& H_HIDE_DOT) && bool_decide (head k = Some 46) = false) as Hwant.
  { rewrite Epair in Em. cbn [fst snd] in Em. unfold wanted, matches. cbn [fst snd]. rewrite <- Em, Ef. cbn [default].
    destruct argv as [|a args]; cbn [length]; [|destruct (Z.ltb_spec 0 (Z.of_nat (S (length args)))); [|lia]];
      destruct found, (truthy (flag .& H_HIDE_DOT)); case_bool_decide; cbn;
      intuition (try congruence). }
  rewrite Epair. destruct (decide (wanted (k, d))) as [Hyes|Hno].
  - apply Hwant in Hyes as [-> ->]. assert (u32 (u32 tot + (Z.of_nat (length k) + 2) + value_room sep d + 2) = u32 (tot + reckoned sep (k, d))) as ->.
    { unfold u32, reckoned. cbn [fst snd]. rewrite <- !Z.add_assoc, Zplus_mod_idemp_l. do 2 f_equal. }
    rewrite IH. cbv zeta. rewrite <- app_assoc. cbn [app fmap list_fmap reckoned_all foldr]. rewrite Epair.
    do 3 f_equal. unfold reckoned_all. lia.
  - destruct ((0 <? Z.of_nat (length argv)) && negb found); [by rewrite IH|].
    destruct (truthy (flag .& H_HIDE_DOT) && bool_decide (head k = Some 46)); [by rewrite IH|].
    exfalso. by apply Hno, Hwant.
Qed.

Abbreviation chosen := (filter wanted (map_to_list m)).
Abbreviation export := (hexport_r slre_compile slre_match alloc).

(** The sorted entries that go into the text. *)
Lemma run_listing n : (Z.to_nat (h_size htab) < n)%nat ->
  exists es es', pass1 slre_compile slre_match n htab sep flag argv 1 [] 0 =
      Some (es, u32 (reckoned_all sep chosen)) /\
    qsort cmpkey es = Some es' /\ Forall whole es' /\ pair_of <$> es' ≡ₚ chosen /\
    Sorted in_order (pair_of <$> es').
Proof.
  intros Hn. pose proof (rep_size _ _ _ Hrep). pose proof (rep_ok _ _ _ Hrep) as Hok.
  pose proof (ok_len _ _ _ Hok) as Hlen. pose proof (live_entries_whole _ t m Hok ltac:(lia)) as Hwhole.
  pose proof (live_entries_map _ t m Hok ltac:(lia)) as Hmap.
  assert (drop 1 t = tail t) as Edrop by (destruct t; [done|by rewrite skipn_cons, drop_0]).
  pose proof (run_pass1 n 1 [] 0 ltac:(lia) ltac:(lia) ltac:(lia) ltac:(lia)) as Hp.
  rewrite Edrop in Hp. specialize (Hp Hwhole). cbv zeta in Hp.
  set (es := filter (fun e => wanted (pair_of e)) (live_entries (tail t))) in *.
  assert (pair_of <$> es ≡ₚ chosen) as Hes.
  { rewrite <- Hmap. unfold es. clear. induction (live_entries (tail t)) as [|e l IH]; [done|].
    cbn [fmap list_fmap]. rewrite !filter_cons. destruct (decide _); cbn [fmap list_fmap]; by rewrite IH. }
  destruct (run_qsort cmpkey cmpkey_total es) as (es' & Eq & Hperm & Hsort).
  assert (Forall whole es') as Hw'.
  { rewrite Hperm. apply list.Forall_forall. intros e [_ He]%list_elem_of_filter.
    by apply (proj1 (list.Forall_forall _ _) Hwhole). }
  exists es, es'. split.
  { change (Z.of_nat 1) with 1 in Hp. change (u32 0) with 0 in Hp. rewrite Hp. by rewrite Hes. }
  split; [done|]. split; [done|]. split; [by rewrite Hperm|]. by apply Sorted_pairs.
Qed.

Lemma run_hexport n buffer size :
  (Z.to_nat (h_size htab) < n)%nat -> reckoned_all sep chosen + 1 < 2 ^ 32 -> 0 <= size ->
  let sz := if size =? 0 then reckoned_all sep chosen + 1 else size in
  reckoned_all sep chosen < sz -> Z.of_nat (length (text sep chosen)) < sz ->
  match buffer with Some b => sz <= Z.of_nat (length b) | None => alloc sz = true end ->
  exists l, l ≡ₚ chosen /\ Sorted in_order l /\
    export n htab sep flag (Some buffer) size argv =
      Some (Exported sz None (Some (text sep l ++ replicate (Z.to_nat sz - length (text sep l)) 0 ++
                                    drop (Z.to_nat sz) (default [] buffer)))).
Proof.
  intros Hn Hreck Hsize sz Hroom Htext Hbuf. pose proof (reckoned_nonneg sep chosen).
  destruct (run_listing n Hn) as (es & es' & E1 & E2 & Hw & Hperm & Hsort).
  exists (pair_of <$> es'). split; [done|]. split; [done|]. unfold hexport_r. rewrite E1. cbn [mbind option_bind].
  rewrite E2. cbn [mbind option_bind].
  rewrite (u32_small (reckoned_all sep chosen)) by lia. rewrite (u32_small (_ + 1)) by lia.
  assert (truthy size && (size <? reckoned_all sep chosen + 1) = false) as ->.
  { unfold truthy. subst sz. destruct (Z.eqb_spec size 0); [done|]. cbn. apply Z.ltb_ge. lia. }
  assert ((if truthy size then size else reckoned_all sep chosen + 1) = sz) as ->.
  { unfold truthy, sz. by destruct (Z.eqb_spec size 0). }
  cbv zeta. set (tl := drop (Z.to_nat sz) (default [] buffer)).
  assert (match buffer with
    | Some buffer => if (Z.to_nat sz <=? length buffer)%nat
        then Some (Some (replicate (Z.to_nat sz) 0 ++ drop (Z.to_nat sz) buffer)) else None
    | None => Some (if alloc sz then Some (replicate (Z.to_nat sz) 0) else None) end =
    Some (Some (replicate (Z.to_nat sz) 0 ++ tl))) as ->.
  { unfold tl. destruct buffer as [b|]; cbn [default]; [|by rewrite Hbuf, drop_nil, app_nil_r].
    destruct (Nat.leb_spec (Z.to_nat sz) (length b)); [done|lia]. }
  cbn [mbind option_bind].
  pose proof (text_length_perm sep _ _ Hperm) as Hlen. cbv beta in Hlen.
  set (T := text sep (pair_of <$> es')) in *.
  assert (Z.to_nat sz = length T + S (Z.to_nat sz - length T - 1))%nat as Esz by lia.
  pose proof (writes_app _ _ _ _ (writes_pass2 sep es' Hw) (writes_putc 0) [] (replicate (Z.to_nat sz) 0 ++ tl)) as Hwr.
  fold T in Hwr. cbn [app length] in Hwr.
  specialize (Hwr ltac:(rewrite !length_app, length_replicate; cbn [length]; lia)).
  destruct (pass2 sep es' (replicate (Z.to_nat sz) 0 ++ tl, 0%nat)) as [st|]; [|done].
  cbn [mbind option_bind] in Hwr |- *. rewrite Hwr. cbn [mbind option_bind fst]. do 3 f_equal.
  rewrite <- app_assoc. f_equal. rewrite length_app. cbn [length].
  rewrite drop_app_le by (rewrite length_replicate; lia).
  rewrite Esz at 1. rewrite drop_replicate.
  replace (length T + S (Z.to_nat sz - length T - 1) - (length T + 1))%nat with (Z.to_nat sz - length T - 1)%nat by lia.
  replace (Z.to_nat sz - length T)%nat with (S (Z.to_nat sz - length T - 1)) at 2 by lia. done.
Qed.

(** A buffer of the caller that is smaller than what pass 1 reckons with. *)
Lemma run_hexport_small n buffer size :
  (Z.to_nat (h_size htab) < n)%nat -> reckoned_all sep chosen + 1 < 2 ^ 32 -> 0 < size <= reckoned_all sep chosen ->
  export n htab sep flag (Some buffer) size argv = Some (Exported (-1) (Some ENOMEM) buffer).
Proof.
  intros Hn Hreck Hsize. destruct (run_listing n Hn) as (es & es' & E1 & E2 & _).
  unfold hexport_r. rewrite E1. cbn [mbind option_bind]. rewrite E2. cbn [mbind option_bind].
  rewrite (u32_small (reckoned_all sep chosen)) by lia. rewrite (u32_small (_ + 1)) by lia.
  unfold truthy. destruct (Z.eqb_spec size 0); [lia|]. cbn. by destruct (Z.ltb_spec size (reckoned_all sep chosen + 1)); [|lia].
Qed.

(** [hexport_r] writes the variables asked for (by name, value, substring or
    regular expression; those with a dot hidden on request), each once, sorted by
    name, as name, equals sign, value with the separator and backslashes escaped,
    separator; then NULs up to the size, and nothing behind it.  A buffer smaller
    than it reckons with is refused and left alone. *)
Theorem hexport_writes n buffer size :
  (Z.to_nat (h_size htab) < n)%nat -> reckoned_all sep chosen + 1 < 2 ^ 32 -> 0 <= size ->
  let sz := if size =? 0 then reckoned_all sep chosen + 1 else size in
  (sep = 0 -> Z.of_nat (length (text sep chosen)) < sz) ->
  match buffer with Some b => sz <= Z.of_nat (length b) | None => alloc sz = true end ->
  if sz <=? reckoned_all sep chosen then
    export n htab sep flag (Some buffer) size argv = Some (Exported (-1) (Some ENOMEM) buffer)
  else exists l, l ≡ₚ chosen /\ Sorted in_order l /\
    export n htab sep flag (Some buffer) size argv =
      Some (Exported sz None (Some (text sep l ++ replicate (Z.to_nat sz - length (text sep l)) 0 ++
                                    drop (Z.to_nat sz) (default [] buffer)))).
Proof.
  intros Hn Hr Hs sz Htext Hbuf. destruct (Z.leb_spec sz (reckoned_all sep chosen)) as [Hle|Hgt].
  - apply run_hexport_small; [done|done|]. unfold sz in Hle. destruct (Z.eqb_spec size 0); lia.
  - apply run_hexport; try done. destruct (decide (sep = 0)) as [E|E]; [by apply Htext|].
    pose proof (text_reckoned sep chosen E). fold sz. lia.
Qed.
End Writing.

Definition abc : hsearch_data :=
  match execute_all Some id id 5 [Setenv [99] [51]; Setenv [97] [10]; Setenv [98] [92]] five 0 with
  | Some (_, h) => h | None => five end.

Definition abc_vars : gmap cstr cstr := <[ [98] := [92] ]> (<[ [97] := [10] ]> (<[ [99] := [51] ]> ∅)).
Lemma abc_represents : exists t, represents abc t abc_vars.
Proof.
  destruct (run_execute_all Some id id ltac:(done) ltac:(done) [Setenv [99] [51]; Setenv [97] [10]; Setenv [98] [92]]
    five _ ∅ 5 0 five_empty) as (rets & h & t & E & _ & _ & Hrep & _); [simpl; lia|vm_compute; lia|].
  assert (h = abc) as -> by (unfold abc; by rewrite E).
  assert (rets = [1; 1; 1]) as -> by (vm_compute in E; congruence). by exists t.
Qed.

Lemma hexport_writes_witness :
  let chosen := filter (@wanted unit (fun _ => None) (fun _ _ => false) 0 []) (map_to_list abc_vars) in
  exists l, l ≡ₚ chosen /\ Sorted in_order l /\
  hexport_r (fun _ => @None unit) (fun _ _ => false) (fun _ => true) 6 abc 10 0 (Some None) 0 [] =
    Some (Exported 21 None (Some (text 10 l ++ replicate (Z.to_nat 21 - length (text 10 l)) 0 ++ drop (Z.to_nat 21) []))).
Proof.
  destruct abc_represents as [t Hrep].
  assert (reckoned_all 10 (filter (@wanted unit (fun _ => None) (fun _ _ => false) 0 []) (map_to_list abc_vars)) = 20)
    as Er by (vm_compute; reflexivity).
  pose proof (@hexport_writes unit (fun _ => None) (fun _ _ => false) (fun _ => true) abc t abc_vars Hrep 10 0 [] 6 None 0) as H.
  cbv zeta in H. rewrite Er in H. apply H; [vm_compute; lia|lia|lia|discriminate|reflexivity].
Defined.
