(* ===== verification/Himport.v ===== *)
(** Reading the text form of U-Boot's environment: [himport_r] of
    uboot/lib/hashtable.c.

    The text is copied into a buffer with a NUL behind it, and parsed there in
    place: names and values are strings inside the buffer, terminated by writing
    NULs over it.  Positions are indices into the buffer; [None] is undefined
    behaviour, an access outside the buffer included. *)
From S2P Require Import Prelude Htab HtabSafe Qsort Hexport.

Definition CONFIG_ENV_MIN_ENTRIES : Z := 64.
Definition CONFIG_ENV_MAX_ENTRIES : Z := 512.

Definition isblank (c : Z) : bool := (c =? 32) || (c =? 9).

(** ** The buffer *)
Definition rd (data : list Z) (p : nat) : option Z := data !! p.
Definition wr (data : list Z) (p : nat) (c : Z) : option (list Z) :=
  if (p <? length data)%nat then Some (<[p := c]> data) else None.
(** The string at the front of a buffer. *)
Fixpoint cstring (data : list Z) : option cstr :=
  match data with
  | [] => None
  | c :: data => if c =? 0 then Some [] else s ← cstring data; Some (c :: s)
  end.

(** ** Scanning loops

    Each moves forward; as many rounds as the buffer has bytes are enough. *)

(** Remove carriage returns in front of line feeds, up to the first NUL. *)
Fixpoint remove_crs (n : nat) (data : list Z) (size dp ignored_crs : nat) : option (list Z * nat) :=
  match n with
  | O => None
  | S n =>
      if (dp <? size)%nat then
        c ← rd data dp;
        if truthy c then
          cr ← (if (c =? 13) && (dp <? size - 1)%nat then c1 ← rd data (dp + 1); Some (c1 =? 10) else Some false);
          if cr : bool then remove_crs n data size (dp + 1) (ignored_crs + 1)
          else data ← wr data (dp - ignored_crs) c; remove_crs n data size (dp + 1) ignored_crs
        else Some (data, ignored_crs)
      else Some (data, ignored_crs)
  end.

Fixpoint skip_blanks (n : nat) (data : list Z) (dp : nat) : option nat :=
  match n with
  | O => None
  | S n => c ← rd data dp; if isblank c then skip_blanks n data (dp + 1) else Some dp
  end.
Fixpoint skip_comment (n : nat) (data : list Z) (sep : Z) (dp : nat) : option nat :=
  match n with
  | O => None
  | S n =>
      c ← rd data dp;
      if truthy c && negb (c =? sep) then skip_comment n data sep (dp + 1) else Some dp
  end.
Fixpoint parse_name (n : nat) (data : list Z) (sep : Z) (dp : nat) : option nat :=
  match n with
  | O => None
  | S n =>
      c ← rd data dp;
      if negb (c =? 61) && truthy c && negb (c =? sep) then parse_name n data sep (dp + 1) else Some dp
  end.
(** The value moves from [dp] down to [sp], escapes resolved. *)
Fixpoint parse_value (n : nat) (data : list Z) (sep : Z) (sp dp : nat) : option (list Z * nat * nat) :=
  match n with
  | O => None
  | S n =>
      c ← rd data dp;
      if truthy c && negb (c =? sep) then
        dp ← (if c =? 92 then c1 ← rd data (dp + 1); Some (if truthy c1 then (dp + 1)%nat else dp) else Some dp);
        c ← rd data dp;
        data ← wr data sp c;
        parse_value n data sep (sp + 1) (dp + 1)
      else Some (data, sp, dp)
  end.

(** ** Operations *)

(** [vars]: the names still to be found, [None] for one already found. *)
Definition drop_var_from_set (name : cstr) (nvars : nat) (vars : list (option cstr)) : bool * list (option cstr) :=
  if (nvars =? 0)%nat then (true, vars)
  else
    let found v := match v with Some v => strcmp name v =? 0 | None => false end in
    (existsb found vars, (fun v => if found v then None else v) <$> vars).

Section Operations.
Context (strdup : cstr -> option cstr) (env_callback_init env_flags_init : ENTRY -> ENTRY).
Context (alloc : Z -> bool).

(** The variables of the loop. *)
Record importing := Importing {
  i_data : list Z; i_dp : nat; i_vars : list (option cstr); i_htab : hsearch_data
}.

(** One round of the loop; [inr]: the function fails with EINVAL and leaves that
    table. *)
Definition import_entry (n : nat) (sep flag : Z) (nvars : nat) (st : importing) : option (importing + hsearch_data) :=
  let '(Importing data dp vars htab) := st in
  let len := S (length data) in
  dp ← skip_blanks len data dp;
  c ← rd data dp;
  if c =? 35 then dp ← skip_comment len data sep dp; Some (inl (Importing data (dp + 1) vars htab))
  else
    let name := dp in
    dp ← parse_name len data sep dp;
    c ← rd data dp;
    delete ← (if c =? 0 then Some true
              else c1 ← rd data (dp + 1); Some ((c1 =? 0) || (c =? sep) || (c1 =? sep)));
    if delete : bool then
      cut ← (if c =? 61 then data ← wr data dp 0; Some (data, (dp + 1)%nat) else Some (data, dp));
      let '(data, dp) := cut in
      data ← wr data dp 0;
      key ← cstring (drop name data);
      let '(listed, vars) := drop_var_from_set key nvars vars in
      if listed then
        res ← hdelete_r strdup env_callback_init env_flags_init n key htab flag;
        Some (inl (Importing data (dp + 1) vars res.2))
      else Some (inl (Importing data (dp + 1) vars htab))
    else
      data ← wr data dp 0;
      let value := (dp + 1)%nat in
      parsed ← parse_value len data sep value value;
      let '(data, sp, dp) := parsed in
      data ← wr data sp 0;
      key ← cstring (drop name data);
      c ← rd data name;
      if c =? 0 then Some (inr htab)
      else
        let '(listed, vars) := drop_var_from_set key nvars vars in
        if listed then
          val ← cstring (drop value data);
          a ← hsearch_r strdup env_callback_init env_flags_init n key (Some val) ENTER htab flag;
          Some (inl (Importing data (dp + 1) vars (a_htab a)))
        else Some (inl (Importing data (dp + 1) vars htab)).

Fixpoint import_loop (k n : nat) (sep flag : Z) (nvars size : nat) (st : importing) : option (importing + hsearch_data) :=
  match k with
  | O => None
  | S k =>
      next ← import_entry n sep flag nvars st;
      match next with
      | inr htab => Some (inr htab)
      | inl st =>
          if (i_dp st <? size)%nat then
            c ← rd (i_data st) (i_dp st);
            if truthy c then import_loop k n sep flag nvars size st else Some (inl st)
          else Some (inl st)
      end
  end.

(** The variables that were listed and not found are deleted. *)
Fixpoint delete_missing (n : nat) (flag : Z) (vars : list (option cstr)) (htab : hsearch_data) : option hsearch_data :=
  match vars with
  | [] => Some htab
  | None :: vars => delete_missing n flag vars htab
  | Some v :: vars =>
      res ← hdelete_r strdup env_callback_init env_flags_init n v htab flag;
      delete_missing n flag vars res.2
  end.

(** The value returned, the error number and the table. *)
Definition himport_r (n : nat) (htab : hsearch_data) (env : list Z) (size : nat) (sep flag : Z)
    (crlf_is_lf : bool) (vars : list cstr) : option (Z * option Z * hsearch_data) :=
  if negb (alloc (Z.of_nat size + 1)) then Some (0, Some ENOMEM, htab)
  else if (length env <? size)%nat then None
  else
    let data := take size env ++ [0] in
    let nvars := length vars in
    let localvars := Some <$> vars in
    let htab := if (flag .& H_NOCLEAR =? 0) && bool_decide (h_table htab <> None) then hdestroy_r htab else htab in
    htab ← (match h_table htab with
            | Some _ => Some htab
            | None =>
                let nent := CONFIG_ENV_MIN_ENTRIES + Z.of_nat size / 8 in
                let nent := if CONFIG_ENV_MAX_ENTRIES <? nent then CONFIG_ENV_MAX_ENTRIES else nent in
                res ← hcreate_r n nent htab; Some res.2
            end);
    if (size =? 0)%nat then Some (1, None, htab)
    else
      clean ← (if crlf_is_lf then
                 res ← remove_crs (S size) data size 0 0; Some (res.1, (size - res.2)%nat)
               else Some (data, size));
      let '(data, size) := clean in
      done ← import_loop (S (length data)) n sep flag nvars size (Importing data 0 localvars htab);
      match done with
      | inr htab => Some (0, Some EINVAL, htab)
      | inl st => htab ← delete_missing n flag (i_vars st) (i_htab st); Some (1, None, htab)
      end.
End Operations.

(** ** The scans stay in the buffer *)

(** A buffer of [L] bytes and the NUL behind them. *)
Definition terminated (L : nat) (data : list Z) : Prop := length data = S L /\ data !! L = Some 0.

Lemma terminated_rd L data p : terminated L data -> (p <= L)%nat -> exists c, rd data p = Some c /\ (p = L -> c = 0).
Proof.
  intros [Hl H0] Hp. destruct (lookup_lt_is_Some_2 data p ltac:(lia)) as [c Hc]. exists c. split; [done|].
  intros ->. congruence.
Qed.
Lemma terminated_wr L data p c : terminated L data -> (p <= L)%nat -> (p = L -> c = 0) ->
  wr data p c = Some (<[p := c]> data) /\ terminated L (<[p := c]> data).
Proof.
  intros [Hl H0] Hp Hc. unfold wr. destruct (Nat.ltb_spec p (length data)); [|lia]. split; [done|].
  split; [by rewrite length_insert|]. destruct (decide (p = L)) as [->|].
  - rewrite list_lookup_insert_eq by lia. by rewrite Hc.
  - by rewrite list_lookup_insert_ne.
Qed.

Lemma cstring_total L data p : terminated L data -> (p <= L)%nat -> exists s, cstring (drop p data) = Some s.
Proof.
  intros [Hl H0] Hp. assert (drop p data !! (L - p)%nat = Some 0) as Hz.
  { rewrite lookup_drop. by replace (p + (L - p))%nat with L by lia. }
  revert Hz. generalize (drop p data) (L - p)%nat. clear. intros l. induction l as [|c l IH]; intros i Hi; [done|].
  cbn [cstring]. destruct (Z.eqb_spec c 0); [by eexists|]. destruct i as [|i]; [by injection Hi|].
  destruct (IH i Hi) as [s ->]. by eexists.
Qed.

Section Scans.
Context (L : nat).

(** Read the byte at [p] of the buffer. *)
Ltac read_byte p :=
  match goal with
  | H : terminated L ?data |- _ =>
      let c := fresh "c" in let Ec := fresh "Ec" in let H0 := fresh "H0" in
      destruct (terminated_rd L data p H ltac:(lia)) as (c & Ec & H0); rewrite Ec; cbn [mbind option_bind]
  end.

Lemma run_skip_blanks n data dp : terminated L data -> (dp <= L)%nat -> (L - dp < n)%nat ->
  exists dp', skip_blanks n data dp = Some dp' /\ (dp <= dp' <= L)%nat.
Proof.
  intros Ht. revert dp. induction n as [|n IH]; intros dp Hdp Hn; [lia|]. cbn [skip_blanks].
  read_byte dp. destruct (isblank c) eqn:Eb; [|by eexists].
  assert (dp <> L) by (intros E; by rewrite H0 in Eb).
  destruct (IH (dp + 1)%nat) as (dp' & E & ?); [lia|lia|]. exists dp'. split; [done|lia].
Qed.

Lemma run_skip_comment n data sep dp : terminated L data -> (dp <= L)%nat -> (L - dp < n)%nat ->
  exists dp', skip_comment n data sep dp = Some dp' /\ (dp <= dp' <= L)%nat.
Proof.
  intros Ht. revert dp. induction n as [|n IH]; intros dp Hdp Hn; [lia|]. cbn [skip_comment].
  read_byte dp. destruct (truthy c && negb (c =? sep)) eqn:Eb; [|by eexists].
  assert (dp <> L) by (intros E; by rewrite H0 in Eb).
  destruct (IH (dp + 1)%nat) as (dp' & E & ?); [lia|lia|]. exists dp'. split; [done|lia].
Qed.

Lemma run_parse_name n data sep dp : terminated L data -> (dp <= L)%nat -> (L - dp < n)%nat ->
  exists dp' c, parse_name n data sep dp = Some dp' /\ (dp <= dp' <= L)%nat /\ rd data dp' = Some c /\
    (c = 61 \/ c = 0 \/ c = sep) /\ (dp' = L -> c = 0).
Proof.
  intros Ht. revert dp. induction n as [|n IH]; intros dp Hdp Hn; [lia|]. cbn [parse_name].
  read_byte dp. destruct (negb (c =? 61) && truthy c && negb (c =? sep)) eqn:Eb.
  - assert (dp <> L) by (intros E; rewrite H0 in Eb; done).
    destruct (IH (dp + 1)%nat) as (dp' & c' & E & ? & ?); [lia|lia|]. exists dp', c'. split; [done|]. split; [lia|done].
  - exists dp, c. split_and!; try (done || lia).
    destruct (Z.eqb_spec c 61); [by left|]. destruct (Z.eqb_spec c sep); [by right; right|]. right. left.
    cbn in Eb. rewrite andb_true_r in Eb. by apply truthy_false.
Qed.

Lemma run_parse_value n data sep sp dp : terminated L data -> (sp <= dp <= L)%nat -> (L - dp < n)%nat ->
  exists data' sp' dp', parse_value n data sep sp dp = Some (data', sp', dp') /\ terminated L data' /\
    (sp <= sp' <= dp')%nat /\ (dp <= dp' <= L)%nat.
Proof.
  revert data sp dp. induction n as [|n IH]; intros data sp dp Ht Hdp Hn; [lia|]. cbn [parse_value].
  read_byte dp. destruct (truthy c && negb (c =? sep)) eqn:Eb; [|exists data, sp, dp; split_and!; [done|done|lia..]].
  assert (dp <> L) by (intros E; by rewrite H0 in Eb).
  assert (exists q, (if c =? 92 then c1 ← rd data (dp + 1); Some (if truthy c1 then (dp + 1)%nat else dp) else Some dp) =
    Some q /\ (dp <= q < L)%nat) as (q & -> & Hq).
  { destruct (c =? 92); [|exists dp; split; [done|lia]].
    destruct (terminated_rd L data (dp + 1) Ht ltac:(lia)) as (c1 & -> & H1). cbn [mbind option_bind].
    eexists. split; [done|]. destruct (truthy c1) eqn:E1; [|lia].
    assert (dp + 1 <> L)%nat by (intros E; by rewrite H1 in E1). lia. }
  cbn [mbind option_bind]. destruct (terminated_rd L data q Ht ltac:(lia)) as (c2 & -> & _). cbn [mbind option_bind].
  destruct (terminated_wr L data sp c2 Ht ltac:(lia) ltac:(lia)) as [-> Ht']. cbn [mbind option_bind].
  destruct (IH _ (sp + 1)%nat (q + 1)%nat Ht' ltac:(lia) ltac:(lia)) as (data' & sp' & dp' & -> & ? & ? & ?).
  exists data', sp', dp'. split_and!; [done|done|lia..].
Qed.

Lemma run_remove_crs n data size dp ignored : terminated L data -> (size <= L)%nat ->
  (ignored <= dp)%nat -> (dp <= size)%nat -> (size - dp < n)%nat ->
  exists data' ignored', remove_crs n data size dp ignored = Some (data', ignored') /\ terminated L data'.
Proof.
  revert data dp ignored. induction n as [|n IH]; intros data dp ignored Ht Hs Hi Hd Hn; [lia|]. cbn [remove_crs].
  destruct (Nat.ltb_spec dp size); [|by exists data, ignored]. read_byte dp.
  destruct (truthy c); [|by exists data, ignored].
  assert (exists b : bool, (if (c =? 13) && (dp <? size - 1)%nat then c1 ← rd data (dp + 1); Some (c1 =? 10) else Some false) = Some b)
    as [b ->].
  { destruct (c =? 13), (Nat.ltb_spec dp (size - 1)); cbn [andb]; try by eexists.
    destruct (terminated_rd L data (dp + 1) Ht ltac:(lia)) as (c1 & -> & _). by eexists. }
  cbn [mbind option_bind]. destruct b; [apply IH; [done|lia..]|].
  destruct (terminated_wr L data (dp - ignored) c Ht ltac:(lia) ltac:(lia)) as [-> Ht']. cbn [mbind option_bind].
  apply IH; [done|lia..].
Qed.
End Scans.

(** ** Any text is read safely *)
Section Safety.
Context (co : option check_t) (Q : ENTRY -> Prop) `{!Enforces co Q}.
Context (strdup : cstr -> option cstr) (env_callback_init env_flags_init : ENTRY -> ENTRY) (alloc : Z -> bool).
Context (Hdup : forall s, strdup s = Some s).
Context (Hinit : forall e, e_key (env_flags_init (env_callback_init e)) = e_key e /\
                           e_data (env_flags_init (env_callback_init e)) = e_data e).

Abbreviation safe := (usable co Q).
Abbreviation entry := (import_entry strdup env_callback_init env_flags_init).
Abbreviation loop := (import_loop strdup env_callback_init env_flags_init).

(** One entry: the buffer stays terminated, the position moves forward. *)
Lemma import_entry_total L n sep flag nvars data dp vars h : terminated L data -> (dp <= L)%nat -> safe n h ->
  exists r, entry n sep flag nvars (Importing data dp vars h) = Some r /\
    match r with
    | inr h' => safe n h'
    | inl (Importing data' dp' _ h') => terminated L data' /\ (dp < dp')%nat /\ safe n h'
    end.
Proof.
  intros Ht Hdp Hh. pose proof (proj1 Ht) as Hlen. unfold import_entry. rewrite Hlen.
  destruct (run_skip_blanks L (S (S L)) data dp Ht Hdp ltac:(lia)) as (p & -> & Hp). cbn [mbind option_bind].
  destruct (terminated_rd L data p Ht ltac:(lia)) as (c & -> & _). cbn [mbind option_bind].
  destruct (c =? 35).
  { destruct (run_skip_comment L (S (S L)) data sep p Ht ltac:(lia) ltac:(lia)) as (q & -> & Hq).
    cbn [mbind option_bind]. eexists. split; [done|]. split_and!; [done|lia|done]. }
  cbv zeta. destruct (run_parse_name L (S (S L)) data sep p Ht ltac:(lia) ltac:(lia)) as (q & c1 & -> & Hq & Ec1 & Hstop & H1).
  cbn [mbind option_bind]. rewrite Ec1. cbn [mbind option_bind].
  destruct (Z.eqb_spec c1 0) as [->|Hc1]; cbn [mbind option_bind].
  - (* a name at the end *)
    cbn [Z.eqb mbind option_bind]. destruct (terminated_wr L data q 0 Ht ltac:(lia) ltac:(done)) as [-> Ht']. cbn [mbind option_bind].
    destruct (cstring_total L _ p Ht' ltac:(lia)) as [key ->]. cbn [mbind option_bind].
    destruct (drop_var_from_set key nvars vars) as [listed vars']. destruct listed.
    + destruct (usable_delete co Q _ _ _ Hdup Hinit n h key flag Hh) as (r & h' & -> & Hh'). cbn [mbind option_bind].
      eexists. split; [done|]. split_and!; [done|lia|done].
    + eexists. split; [done|]. split_and!; [done|lia|done].
  - assert (q <> L) by auto. destruct (terminated_rd L data (q + 1) Ht ltac:(lia)) as (c2 & -> & H2).
    cbn [mbind option_bind]. destruct ((c2 =? 0) || (c1 =? sep) || (c2 =? sep)) eqn:Edel.
    + assert (exists data' q', (if c1 =? 61 then data ← wr data q 0; Some (data, (q + 1)%nat) else Some (data, q)) =
        Some (data', q') /\ terminated L data' /\ (q <= q' <= L)%nat) as (data' & q' & -> & Ht' & Hq').
      { destruct (c1 =? 61); [|exists data, q; split_and!; [done|done|lia..]].
        destruct (terminated_wr L data q 0 Ht ltac:(lia) ltac:(done)) as [-> Ht']. cbn [mbind option_bind].
        eexists _, _. split_and!; [done|done|lia..]. }
      cbn [mbind option_bind]. destruct (terminated_wr L data' q' 0 Ht' ltac:(lia) ltac:(done)) as [-> Ht2]. cbn [mbind option_bind].
      destruct (cstring_total L _ p Ht2 ltac:(lia)) as [key ->]. cbn [mbind option_bind].
      destruct (drop_var_from_set key nvars vars) as [listed vars']. destruct listed.
      * destruct (usable_delete co Q _ _ _ Hdup Hinit n h key flag Hh) as (r & h' & -> & Hh'). cbn [mbind option_bind].
        eexists. split; [done|]. split_and!; [done|lia|done].
      * eexists. split; [done|]. split_and!; [done|lia|done].
    + destruct (terminated_wr L data q 0 Ht ltac:(lia) ltac:(done)) as [-> Ht']. cbn [mbind option_bind].
      destruct (run_parse_value L (S (S L)) _ sep (q + 1) (q + 1) Ht' ltac:(lia) ltac:(lia))
        as (data2 & sp & dp2 & -> & Ht2 & Hsp & Hdp2). cbn [mbind option_bind].
      destruct (terminated_wr L data2 sp 0 Ht2 ltac:(lia) ltac:(done)) as [-> Ht3]. cbn [mbind option_bind].
      destruct (cstring_total L _ p Ht3 ltac:(lia)) as [key ->]. cbn [mbind option_bind].
      destruct (terminated_rd L _ p Ht3 ltac:(lia)) as (c3 & -> & _). cbn [mbind option_bind].
      destruct (c3 =? 0); [by eexists|].
      destruct (drop_var_from_set key nvars vars) as [listed vars']. destruct listed.
      * destruct (cstring_total L _ (q + 1) Ht3 ltac:(lia)) as [val ->]. cbn [mbind option_bind].
        destruct (usable_search co Q _ _ _ Hdup Hinit n h key val flag Hh) as (a & -> & Ha). cbn [mbind option_bind].
        eexists. split; [done|]. split_and!; [done|lia|done].
      * eexists. split; [done|]. split_and!; [done|lia|done].
Qed.

Lemma loop_total L k n sep flag nvars size data dp vars h :
  terminated L data -> (dp <= L)%nat -> (size <= L)%nat -> (L - dp < k)%nat -> safe n h ->
  exists r, loop k n sep flag nvars size (Importing data dp vars h) = Some r /\
    match r with inr h' => safe n h' | inl st => safe n (i_htab st) end.
Proof.
  revert data dp vars h. induction k as [|k IH]; intros data dp vars h Ht Hdp Hs Hk Hh; [lia|]. cbn [import_loop].
  destruct (import_entry_total L n sep flag nvars data dp vars h Ht Hdp Hh) as (r & -> & Hr). cbn [mbind option_bind].
  destruct r as [[data' dp' vars' h']|h']; [|by eexists]. destruct Hr as (Ht' & Hdp' & Hh'). cbn [i_dp i_data i_htab].
  destruct (Nat.ltb_spec dp' size); [|by eexists].
  destruct (terminated_rd L data' dp' Ht' ltac:(lia)) as (c & -> & _). cbn [mbind option_bind].
  destruct (truthy c); [|by eexists]. apply IH; [done|lia..|done].
Qed.

Lemma delete_missing_total n flag vars h : safe n h ->
  exists h', delete_missing strdup env_callback_init env_flags_init n flag vars h = Some h' /\ safe n h'.
Proof.
  revert h. induction vars as [|[v|] vars IH]; intros h Hh; cbn [delete_missing]; [by exists h| |by apply IH].
  destruct (usable_delete co Q _ _ _ Hdup Hinit n h v flag Hh) as (r & h' & -> & Hh'). cbn [mbind option_bind snd]. by apply IH.
Qed.

(** Reading any text, into no table or a sound one. *)
Lemma run_himport_any n h env size sep flag crlf vars :
  alloc (Z.of_nat size + 1) = true -> (size <= length env)%nat -> 521 <= Z.of_nat n -> h_change_ok h = co ->
  (flag .& H_NOCLEAR = 0 \/ h_table h = None \/ safe n h) ->
  exists ret e h', himport_r strdup env_callback_init env_flags_init alloc n h env size sep flag crlf vars =
      Some (ret, e, h') /\
    (ret = 1 /\ e = None \/ ret = 0 /\ e = Some EINVAL) /\ safe n h'.
Proof.
  intros Halloc Hsize Hn Hco Hh. unfold himport_r. rewrite Halloc. cbn [negb].
  destruct (Nat.ltb_spec (length env) size); [lia|]. cbv zeta.
  set (h0 := if (flag .& H_NOCLEAR =? 0) && _ then hdestroy_r h else h).
  assert ((h_table h0 = None \/ safe n h0) /\ h_change_ok h0 = co) as [Hh0 Hco0].
  { unfold h0. destruct (Z.eqb_spec (flag .& H_NOCLEAR) 0) as [Ef|Ef]; cbn [andb].
    - destruct (h_table h) eqn:Et; [rewrite bool_decide_true by done; split; [by left|done]|].
      rewrite bool_decide_false by auto. split; [by left|done].
    - split; [by destruct Hh|done]. }
  assert (exists h1, match h_table h0 with
    | Some _ => Some h0
    | None => res ← hcreate_r n (if CONFIG_ENV_MAX_ENTRIES <? CONFIG_ENV_MIN_ENTRIES + Z.of_nat size / 8
        then CONFIG_ENV_MAX_ENTRIES else CONFIG_ENV_MIN_ENTRIES + Z.of_nat size / 8) h0; Some res.2 end = Some h1 /\
    safe n h1) as (h1 & -> & Hh1).
  { destruct (h_table h0) as [t0|] eqn:E0; [exists h0; split; [done|by destruct Hh0]|].
    destruct (hcreate_total co Q n (if CONFIG_ENV_MAX_ENTRIES <? CONFIG_ENV_MIN_ENTRIES + Z.of_nat size / 8
        then CONFIG_ENV_MAX_ENTRIES else CONFIG_ENV_MIN_ENTRIES + Z.of_nat size / 8) h0) as (h1 & t1 & -> & Hs & Hle);
      [|done|done|lia|].
    { unfold CONFIG_ENV_MAX_ENTRIES, CONFIG_ENV_MIN_ENTRIES. pose proof (Z.div_pos (Z.of_nat size) 8 ltac:(lia) ltac:(lia)).
      destruct (Z.ltb_spec 512 (64 + Z.of_nat size / 8)); lia. }
    exists h1. split; [done|]. split; [lia|by exists t1]. }
  cbn [mbind option_bind]. destruct (Nat.eqb_spec size 0); [exists 1, None, h1; split_and!; [done|by left|done]|].
  set (data := take size env ++ [0]).
  assert (terminated size data) as Ht.
  { unfold data. split; [rewrite length_app, length_take_le by done; simpl; lia|].
    rewrite lookup_app_r by (rewrite length_take; lia). rewrite length_take_le by done. by rewrite Nat.sub_diag. }
  assert (exists data' size', (if crlf then res ← remove_crs (S size) data size 0 0; Some (res.1, (size - res.2)%nat)
    else Some (data, size)) = Some (data', size') /\ terminated size data' /\ (size' <= size)%nat)
    as (data' & size' & -> & Ht' & Hs').
  { destruct crlf; [|exists data, size; split_and!; [done|done|lia]].
    destruct (run_remove_crs size (S size) data size 0 0 Ht ltac:(lia) ltac:(lia) ltac:(lia) ltac:(lia)) as (d' & i' & -> & Ht').
    cbn [mbind option_bind fst snd]. eexists _, _. split_and!; [done|done|lia]. }
  cbn [mbind option_bind]. rewrite (proj1 Ht').
  destruct (loop_total size (S (S size)) n sep flag (length vars) size' data' 0 (Some <$> vars) h1 Ht' ltac:(lia) Hs'
    ltac:(lia) Hh1) as (r & -> & Hr). cbn [mbind option_bind].
  destruct r as [st|h']; [|exists 0, (Some EINVAL), h'; split_and!; [done|by right|done]].
  destruct (delete_missing_total n flag (i_vars st) (i_htab st) Hr) as (h' & -> & Hh'). cbn [mbind option_bind].
  exists 1, None, h'. split_and!; [done|by left|done].
Qed.
End Safety.

(** C37: reading an environment is safe for every text: whatever the bytes, the
    separator and the options, [himport_r] stays in its buffer and in the table, it
    ends, and it returns 1, or 0 with the error EINVAL, and a table in which no
    entry is half made. *)
Theorem himport_safe strdup env_callback_init env_flags_init alloc n h env size sep flag crlf vars :
  (forall s, strdup s = Some s) ->
  (forall e, e_key (env_flags_init (env_callback_init e)) = e_key e /\
             e_data (env_flags_init (env_callback_init e)) = e_data e) ->
  alloc (Z.of_nat size + 1) = true -> (size <= length env)%nat -> 521 <= Z.of_nat n ->
  (flag .& H_NOCLEAR = 0 \/ h_table h = None \/ usable (h_change_ok h) (fun _ => True) n h) ->
  exists ret e h', himport_r strdup env_callback_init env_flags_init alloc n h env size sep flag crlf vars =
      Some (ret, e, h') /\
    (ret = 1 /\ e = None \/ ret = 0 /\ e = Some EINVAL) /\ usable (h_change_ok h) (fun _ => True) n h'.
Proof. intros Hdup Hinit ? ? ? ?. by apply (run_himport_any _ _ strdup _ _ alloc Hdup Hinit). Qed.

Lemma himport_safe_witness : exists ret e h',
  himport_r Some id id (fun _ => true) (Z.to_nat 521) no_htab [97; 61; 13; 10; 61; 61; 92] 7 10 0 true [[97]] =
    Some (ret, e, h') /\
  (ret = 1 /\ e = None \/ ret = 0 /\ e = Some EINVAL) /\ usable None (fun _ => True) (Z.to_nat 521) h'.
Proof.
  exact (himport_safe Some id id (fun _ => true) (Z.to_nat 521) no_htab
    [97; 61; 13; 10; 61; 61; 92] 7 10 0 true [[97]] ltac:(reflexivity) ltac:(split; reflexivity) ltac:(reflexivity) ltac:(simpl; lia) ltac:(lia) ltac:(by left)).
Defined.
