(* ===== verification/EnvText.v ===== *)
(** Writing the environment and reading it back: [hexport_r] and [himport_r] of
    uboot/lib/hashtable.c together. *)
From S2P Require Import Prelude Htab HtabSafe Qsort Hexport Himport.

(** ** Names and values that survive *)

(** The separator is not a character of the syntax. *)
Definition separates (sep : Z) : Prop := sep <> 61 /\ sep <> 92.
Definition good_name (sep : Z) (k : cstr) : Prop :=
  (exists c, head k = Some c /\ c <> 32 /\ c <> 9 /\ c <> 35) /\
  Forall (fun c => c <> 0 /\ c <> 61 /\ c <> sep) k.
Definition good_value (d : cstr) : Prop := d <> [] /\ Forall (fun c => c <> 0) d.
Definition good_pair (sep : Z) (kd : cstr * cstr) : Prop := good_name sep kd.1 /\ good_value kd.2.

(** ** Parsing what was written *)
Lemma rd_at pre c rest : rd (pre ++ c :: rest) (length pre) = Some c.
Proof. unfold rd. by rewrite list_lookup_middle. Qed.
Lemma rd_next pre c c' rest : rd (pre ++ c :: c' :: rest) (length pre + 1) = Some c'.
Proof. unfold rd. rewrite lookup_app_r by lia. by replace (length pre + 1 - length pre)%nat with 1%nat by lia. Qed.
Lemma wr_at pre c rest x : wr (pre ++ c :: rest) (length pre) x = Some (pre ++ x :: rest).
Proof.
  unfold wr. rewrite length_app. cbn [length].
  destruct (Nat.ltb_spec (length pre) (length pre + S (length rest))); [|lia]. by rewrite insert_here.
Qed.

Lemma cstring_app s rest : Forall (fun c => c <> 0) s -> cstring (s ++ 0 :: rest) = Some s.
Proof.
  induction s as [|c s IH]; intros Hs; [done|]. apply list.Forall_cons in Hs as [Hc Hs]. cbn [app cstring].
  destruct (Z.eqb_spec c 0); [done|]. by rewrite IH.
Qed.

Section Parse.
Context (sep : Z) (Hsep : separates sep).

Lemma parse_name_at n pre k rest : Forall (fun c => c <> 0 /\ c <> 61 /\ c <> sep) k -> (length k < n)%nat ->
  parse_name n (pre ++ k ++ 61 :: rest) sep (length pre) = Some (length pre + length k)%nat.
Proof.
  revert pre k. induction n as [|n IH]; intros pre k Hk Hn; [lia|]. cbn [parse_name].
  destruct k as [|c k]; cbn [app length].
  - rewrite rd_at. cbn [mbind option_bind Z.eqb Pos.eqb negb andb]. by rewrite Nat.add_0_r.
  - rewrite rd_at. cbn [mbind option_bind]. apply list.Forall_cons in Hk as [(H0 & H61 & Hs) Hk].
    destruct (Z.eqb_spec c 61); [done|]. destruct (Z.eqb_spec c sep); [done|]. rewrite (proj2 (truthy_true c) H0).
    cbn [negb andb]. specialize (IH (pre ++ [c]) k Hk). rewrite length_app, <- app_assoc in IH. cbn [app length] in *.
    rewrite IH by lia. f_equal. lia.
Qed.

Lemma escape_cons c d : escape sep (c :: d) = (if (c =? sep) || (c =? 92) then [92; c] else [c]) ++ escape sep d.
Proof. done. Qed.

(** The gap between the two pointers grows with every escape. *)
Lemma parse_value_at n A B d rest : Forall (fun c => c <> 0) d -> (length d < n)%nat ->
  exists B', length B' = (length B + length (escape sep d) - length d)%nat /\
    parse_value n (A ++ B ++ escape sep d ++ sep :: rest) sep (length A) (length A + length B) =
      Some (A ++ d ++ B' ++ sep :: rest, (length A + length d)%nat, (length A + length B + length (escape sep d))%nat).
Proof.
  revert A B d. induction n as [|n IH]; intros A B d Hd Hn; [lia|]. cbn [parse_value].
  rewrite (app_assoc A B), <- (length_app A B). destruct d as [|c d].
  - exists B. cbn [escape mbind list_bind app length]. rewrite rd_at. cbn [mbind option_bind].
    rewrite Z.eqb_refl, andb_false_r. split; [lia|]. by rewrite <- app_assoc, !Nat.add_0_r.
  - apply list.Forall_cons in Hd as [Hc Hd]. rewrite escape_cons. destruct Hsep as [_ H92].
    destruct ((c =? sep) || (c =? 92)) eqn:Eesc; cbn [app length].
    + rewrite rd_at. cbn [mbind option_bind]. change (truthy 92) with true. destruct (Z.eqb_spec 92 sep); [done|].
      cbn [negb andb Z.eqb Pos.eqb]. rewrite rd_next. cbn [mbind option_bind]. rewrite (proj2 (truthy_true c) Hc).
      rewrite rd_next. cbn [mbind option_bind].
      assert (exists x B2, B ++ [92; c] = x :: B2 /\ length B2 = (length B + 1)%nat) as (x & B2 & EB & HB2).
      { destruct B as [|x B2]; [by exists 92, [c]|]. exists x, (B2 ++ [92; c]). split; [done|]. rewrite length_app. simpl. lia. }
      replace ((A ++ B) ++ 92 :: c :: escape sep d ++ sep :: rest) with (A ++ x :: B2 ++ escape sep d ++ sep :: rest).
      2:{ change (x :: B2 ++ ?u) with ((x :: B2) ++ u). rewrite <- EB, <- !app_assoc. done. }
      rewrite wr_at. cbn [mbind option_bind].
      destruct (IH (A ++ [c]) B2 d Hd ltac:(simpl in Hn; lia)) as (B' & HB' & E). exists B'.
      split; [lia|]. rewrite <- !app_assoc in E. cbn [app] in E. rewrite length_app in E. cbn [length] in E.
      replace (length (A ++ B) + 1 + 1)%nat with (length A + 1 + length B2)%nat by (rewrite length_app; lia). rewrite E.
      f_equal. f_equal; [f_equal; lia|]. rewrite length_app. lia.
    + apply orb_false_iff in Eesc as [Es E92]. rewrite rd_at. cbn [mbind option_bind].
      rewrite (proj2 (truthy_true c) Hc), Es, E92. cbn [negb andb mbind option_bind]. rewrite rd_at. cbn [mbind option_bind].
      assert (exists x B2, B ++ [c] = x :: B2 /\ length B2 = length B) as (x & B2 & EB & HB2).
      { destruct B as [|x B2]; [by exists c, []|]. exists x, (B2 ++ [c]). split; [done|]. rewrite length_app. simpl. lia. }
      replace ((A ++ B) ++ c :: escape sep d ++ sep :: rest) with (A ++ x :: B2 ++ escape sep d ++ sep :: rest).
      2:{ change (x :: B2 ++ ?u) with ((x :: B2) ++ u). rewrite <- EB, <- !app_assoc. done. }
      rewrite wr_at. cbn [mbind option_bind].
      destruct (IH (A ++ [c]) B2 d Hd ltac:(simpl in Hn; lia)) as (B' & HB' & E). exists B'.
      split; [lia|]. rewrite <- !app_assoc in E. cbn [app] in E. rewrite length_app in E. cbn [length] in E.
      replace (length (A ++ B) + 1)%nat with (length A + 1 + length B2)%nat by (rewrite length_app; lia). rewrite E.
      f_equal. f_equal; [f_equal; lia|]. rewrite length_app. lia.
Qed.
End Parse.

Section Reading.
Context (strdup : cstr -> option cstr) (env_callback_init env_flags_init : ENTRY -> ENTRY) (alloc : Z -> bool).
Context (sep : Z) (Hsep : separates sep).

Abbreviation entry := (import_entry strdup env_callback_init env_flags_init).
Abbreviation loop := (import_loop strdup env_callback_init env_flags_init).
Abbreviation search := (hsearch_r strdup env_callback_init env_flags_init).

(** The first byte of an escaped value ends neither the name nor the text. *)
Lemma escape_head d : good_value d ->
  exists c es, escape sep d = c :: es /\ c <> 0 /\ c <> sep.
Proof.
  intros [Hne Hd]. destruct d as [|c d]; [done|]. apply list.Forall_cons in Hd as [Hc _].
  destruct Hsep as [_ H92]. rewrite escape_cons. destruct ((c =? sep) || (c =? 92)) eqn:E.
  - exists 92, (c :: escape sep d). split; [done|]. split; [done|congruence].
  - apply orb_false_iff in E as [E _]. exists c, (escape sep d). split; [done|]. split; [done|]. by apply Z.eqb_neq.
Qed.

(** One entry of the text is one insertion. *)
Lemma parse_entry n flag pre kd rest h : good_pair sep kd ->
  exists pre', length pre' = length (pre ++ entry_text sep kd) /\
    entry n sep flag 0 (Importing (pre ++ entry_text sep kd ++ rest) (length pre) [] h) =
      (a ← search n kd.1 (Some kd.2) ENTER h flag;
       Some (inl (Importing (pre' ++ rest) (length pre') [] (a_htab a)))).
Proof.
  destruct kd as [k d]. cbn [fst snd]. intros [[(k0 & Ek & H32 & H9 & H35) Hk] Hd]. cbn [fst snd] in *.
  destruct k as [|k0' k]; [done|]. injection Ek as ->. set (K := k0 :: k) in *.
  destruct (escape_head d Hd) as (e0 & es & Ees & He0 & Hes). destruct Hsep as [H61 H92]. destruct Hd as [_ Hd].
  assert (Forall (fun c => c <> 0) K) as Hk0 by (eapply list.Forall_impl; [exact Hk|]; by intros c (? & _)).
  assert (k0 <> 0) as Hk00 by (by apply list.Forall_cons in Hk0 as [? _]).
  (* the buffer after each step *)
  set (D := pre ++ K ++ 61 :: escape sep d ++ sep :: rest).
  assert (pre ++ entry_text sep (K, d) ++ rest = D) as ->.
  { unfold D, entry_text. cbn [fst snd]. by rewrite <- !app_assoc. }
  unfold import_entry. set (len := S (length D)).
  assert (length D = length pre + length K + S (length (escape sep d) + S (length rest)))%nat as HD.
  { unfold D. rewrite !length_app. cbn [length]. rewrite length_app. cbn [length]. lia. }
  assert (rd D (length pre) = Some k0) as ER by (unfold D, K; cbn [app]; apply rd_at).
  assert (skip_blanks len D (length pre) = Some (length pre)) as ->.
  { unfold len. cbn [skip_blanks]. rewrite ER. cbn [mbind option_bind]. unfold isblank.
    destruct (Z.eqb_spec k0 32); [done|]. by destruct (Z.eqb_spec k0 9). }
  cbn [mbind option_bind]. rewrite ER. cbn [mbind option_bind]. destruct (Z.eqb_spec k0 35); [done|]. cbv zeta.
  pose proof (parse_name_at sep len pre K (escape sep d ++ sep :: rest) Hk ltac:(unfold len; lia)) as EN.
  fold D in EN. rewrite EN. cbn [mbind option_bind].
  assert (D = (pre ++ K) ++ 61 :: escape sep d ++ sep :: rest) as ED by (unfold D; by rewrite <- app_assoc).
  rewrite <- length_app. rewrite ED, rd_at, Ees. cbn [app mbind option_bind]. change (61 =? 0) with false. cbv iota. rewrite rd_next. cbn [mbind option_bind].
  destruct (Z.eqb_spec e0 0); [done|]. destruct (Z.eqb_spec 61 sep); [congruence|]. destruct (Z.eqb_spec e0 sep); [done|].
  cbn [orb mbind option_bind]. rewrite wr_at. cbn [mbind option_bind].
  set (A := pre ++ K ++ [0]). assert (length A = length (pre ++ K) + 1)%nat as HA by (unfold A; rewrite !length_app; simpl; lia).
  assert ((pre ++ K) ++ 0 :: e0 :: es ++ sep :: rest = A ++ [] ++ escape sep d ++ sep :: rest) as ->.
  { unfold A. rewrite Ees, <- !app_assoc. done. }
  assert (length d <= length (escape sep d))%nat as Hesc.
  { clear. induction d as [|c d IH]; [done|]. rewrite escape_cons, length_app. destruct (_ || _); simpl; lia. }
  assert (length d < len)%nat as Hfuel by (unfold len; lia).
  destruct (parse_value_at sep ltac:(done) len A [] d rest Hd Hfuel) as (B' & HB' & Ev). cbn [length] in Ev, HB'.
  rewrite <- HA. rewrite Nat.add_0_r in Ev. rewrite Ev. cbn [mbind option_bind].
  assert (exists x B3, B' ++ [sep] = x :: B3 /\ length B3 = length B') as (x & B3 & EB & HB3).
  { destruct B' as [|x B3]; [by exists sep, []|]. exists x, (B3 ++ [sep]). split; [done|]. rewrite length_app. simpl. lia. }
  assert (A ++ d ++ B' ++ sep :: rest = (A ++ d) ++ x :: B3 ++ rest) as ->.
  { change (x :: B3 ++ rest) with ((x :: B3) ++ rest). rewrite <- EB, <- !app_assoc. done. }
  rewrite <- (length_app A d), wr_at. cbn [mbind option_bind].
  set (pre' := (A ++ d) ++ 0 :: B3).
  assert ((A ++ d) ++ 0 :: B3 ++ rest = pre' ++ rest) as EF by (unfold pre'; by rewrite <- !app_assoc).
  assert (length pre' = length A + length (escape sep d) + 1)%nat as Hpre'.
  { unfold pre'. rewrite !length_app. cbn [length]. lia. }
  exists pre'. split.
  { rewrite Hpre', HA. unfold entry_text. cbn [fst snd]. rewrite !length_app. cbn [length]. lia. }
  assert (drop (length pre) (pre' ++ rest) = K ++ 0 :: (d ++ 0 :: B3) ++ rest) as Ek1.
  { unfold pre', A. rewrite <- !app_assoc. rewrite drop_app_length'; done. }
  assert (drop (length A) (pre' ++ rest) = d ++ 0 :: B3 ++ rest) as Ed1.
  { unfold pre'. rewrite <- !app_assoc. by rewrite drop_app_length'. }
  rewrite EF, Ek1, Ed1, (cstring_app K), (cstring_app d) by done. cbn [mbind option_bind].
  assert (rd (pre' ++ rest) (length pre) = Some k0) as ->.
  { unfold rd. rewrite <- (Nat.add_0_r (length pre)), <- lookup_drop, Ek1. done. }
  cbn [mbind option_bind]. destruct (Z.eqb_spec k0 0); [done|]. cbn [drop_var_from_set Nat.eqb].
  destruct (search n K (Some d) ENTER h flag) as [a|]; [|done]. cbn [mbind option_bind].
  do 3 f_equal. rewrite Hpre'. lia.
Qed.

Definition setenv_of (kd : cstr * cstr) : command := Setenv kd.1 kd.2.

Lemma loop_text l k n flag pre rest h rets h' size : l <> [] -> Forall (good_pair sep) l ->
  (length l <= k)%nat -> (length (pre ++ text sep l) <= size)%nat -> head rest = Some 0 ->
  execute_all strdup env_callback_init env_flags_init n (setenv_of <$> l) h flag = Some (rets, h') ->
  exists data dp, loop k n sep flag 0 size (Importing (pre ++ text sep l ++ rest) (length pre) [] h) =
    Some (inl (Importing data dp [] h')).
Proof.
  revert l pre h rets. induction k as [|k IH]; intros l pre h rets Hne Hl Hk Hsz Hrest Hex.
  { destruct l; [done|]. simpl in Hk. lia. }
  destruct l as [|kd l]; [done|]. apply list.Forall_cons in Hl as [Hkd Hl].
  assert (text sep (kd :: l) = entry_text sep kd ++ text sep l) as Et by done. rewrite Et in *.
  cbn [import_loop]. rewrite <- app_assoc.
  destruct (parse_entry n flag pre kd (text sep l ++ rest) h Hkd) as (pre' & Hpre' & ->).
  cbn [fmap list_fmap execute_all execute setenv_of] in Hex.
  destruct (search n kd.1 (Some kd.2) ENTER h flag) as [a|]; [|done]. cbn [mbind option_bind snd fst] in Hex |- *.
  cbn [i_dp i_data i_htab].
  destruct (execute_all _ _ _ _ _ _ _) as [[rets' h1]|] eqn:Eall; [|done]. cbn [mbind option_bind fst snd] in Hex.
  injection Hex as <- <-. rewrite !length_app in *. destruct l as [|kd' l].
  - cbn [fmap list_fmap execute_all] in Eall. injection Eall as <- <-. cbn [text mbind list_bind app].
    destruct (Nat.ltb_spec (length pre') size); [|by eexists _, _].
    destruct rest as [|r rest]; [done|]. injection Hrest as ->. rewrite rd_at. cbn [mbind option_bind]. by eexists _, _.
  - assert (text sep (kd' :: l) = entry_text sep kd' ++ text sep l) as Et' by done.
    pose proof Hl as [[[(c & Ec & _) Hc] _] _]%list.Forall_cons.
    destruct kd' as [k' d']. cbn [fst] in Ec, Hc. destruct k' as [|c' k']; [done|].
    apply list.Forall_cons in Hc as [(Hc0 & _) _]. injection Ec as ->.
    assert (0 < length (text sep ((c :: k', d') :: l)))%nat as Hpos by (rewrite Et'; simpl; lia).
    destruct (Nat.ltb_spec (length pre') size); [|lia].
    assert (rd (pre' ++ text sep ((c :: k', d') :: l) ++ rest) (length pre') = Some c) as ->.
    { rewrite Et'. unfold entry_text. cbn [fst snd app]. apply rd_at. }
    cbn [mbind option_bind]. rewrite (proj2 (truthy_true c) Hc0).
    destruct (IH ((c :: k', d') :: l) pre' (a_htab a) rets') as (data & dp & E);
      [done|done|simpl in *; lia|rewrite length_app; lia|done|exact Eall|].
    exists data, dp. exact E.
Qed.
End Reading.

(** ** The round trip *)

Lemma length_text sep l : (length l <= length (text sep l))%nat.
Proof.
  induction l as [|kd l IH]; [done|]. assert (text sep (kd :: l) = entry_text sep kd ++ text sep l) as -> by done.
  unfold entry_text. rewrite !length_app. simpl. lia.
Qed.

(** How many variables the table that is created for a text can hold. *)
Definition capacity (size : nat) : Z := Z.min CONFIG_ENV_MAX_ENTRIES (CONFIG_ENV_MIN_ENTRIES + Z.of_nat size / 8).

Lemma fold_setenv l m : NoDup l.*1 ->
  fold_left (fun m c => effect c m) (setenv_of <$> l) m = (list_to_map l : gmap cstr cstr) ∪ m.
Proof.
  revert m. induction l as [|[k d] l IH]; intros m Hnd; cbn [fmap list_fmap fold_left]; [by rewrite list_to_map_nil, (left_id_L ∅ (∪))|].
  apply list.NoDup_cons in Hnd as [Hk Hnd]. rewrite IH by done. cbn [setenv_of effect fst snd].
  rewrite <- insert_union_r by (by apply not_elem_of_list_to_map_1). by rewrite insert_union_l.
Qed.

Lemma settings_setenv l : settings (setenv_of <$> l) = length l.
Proof. induction l as [|kd l IH]; [done|]. cbn. by rewrite <- IH. Qed.

Section Roundtrip.
Context (strdup : cstr -> option cstr) (env_callback_init env_flags_init : ENTRY -> ENTRY) (alloc : Z -> bool).
Context (Hdup : forall s, strdup s = Some s).
Context (Hinit : forall e, e_key (env_flags_init (env_callback_init e)) = e_key e /\
                           e_data (env_flags_init (env_callback_init e)) = e_data e).
Context (Hcb : forall e, plain e -> plain (env_flags_init (env_callback_init e))).
Context (sep : Z) (Hsep : separates sep).

Abbreviation import := (himport_r strdup env_callback_init env_flags_init alloc).

(** An empty buffer asks for the deletion of a variable without a name. *)
Lemma entry_empty n flag rest h :
  import_entry strdup env_callback_init env_flags_init n sep flag 0 (Importing (0 :: rest) 0 [] h) =
    (res ← hdelete_r strdup env_callback_init env_flags_init n [] h flag;
     Some (inl (Importing (0 :: rest) 1 [] res.2))).
Proof. reflexivity. Qed.

(** Reading a text of variables, with any number of NULs behind it, into a new
    table. *)
Lemma run_himport l z n h flag : Forall (good_pair sep) l -> NoDup l.*1 ->
  let env := text sep l ++ replicate z 0 in
  env <> [] -> Z.of_nat (length l) <= capacity (length env) -> 521 <= Z.of_nat n ->
  flag .& H_NOCLEAR = 0 \/ h_table h = None -> approves h -> alloc (Z.of_nat (length env) + 1) = true ->
  exists h' t', import n h env (length env) sep flag false [] = Some (1, None, h') /\
    represents h' t' (list_to_map l).
Proof.
  intros Hl Hnd env Hne Hcap Hn Hflag Happ Halloc. unfold himport_r. rewrite Halloc. cbn [negb].
  rewrite Nat.ltb_irrefl. cbv zeta. cbn [length fmap list_fmap].
  set (h0 := if (flag .& H_NOCLEAR =? 0) && _ then hdestroy_r h else h).
  assert (h_table h0 = None /\ h_change_ok h0 = h_change_ok h) as [E0 Ec0].
  { unfold h0. destruct Hflag as [->|Hnone].
    - cbn [Z.eqb andb]. destruct (h_table h) eqn:Et; [by rewrite bool_decide_true|]. by rewrite bool_decide_false by auto.
    - rewrite Hnone, bool_decide_false, andb_false_r by auto. done. }
  rewrite E0. set (nent := if CONFIG_ENV_MAX_ENTRIES <? _ then _ else _).
  assert (nent = capacity (length env)) as Enent.
  { unfold nent, capacity. destruct (Z.ltb_spec CONFIG_ENV_MAX_ENTRIES (CONFIG_ENV_MIN_ENTRIES + Z.of_nat (length env) / 8)); lia. }
  assert (2 <= nent <= 512) as Hnent.
  { rewrite Enent. unfold capacity, CONFIG_ENV_MAX_ENTRIES, CONFIG_ENV_MIN_ENTRIES.
    pose proof (Z.div_pos (Z.of_nat (length env)) 8 ltac:(lia) ltac:(lia)). lia. }
  destruct (hcreate_spec nent h0 Hnent E0) as (h1 & t1 & Ecr & Hrep1 & Hsz1 & Hun1 & Eco1 & Hnone1).
  rewrite (hcreate_mono 20 n nent h0 _ Ecr) by lia. cbn [mbind option_bind snd].
  destruct (Nat.eqb_spec (length env) 0) as [El|El]; [by apply nil_length_inv in El|].
  rewrite take_ge by done.
  assert (calm h1 t1) as Hcalm1.
  { split; [|done]. intros f Hf. apply Happ. congruence. }
  destruct (run_execute_all strdup env_callback_init env_flags_init Hdup Hinit (setenv_of <$> l) h1 t1 ∅ n flag Hrep1)
    as (rets & h' & t' & Eall & Esz & Elen & Hrep' & Heff); [lia|rewrite settings_setenv; lia|].
  rewrite (Heff Hcalm1 Hcb), fold_setenv, (right_id_L ∅ (∪)) in Hrep' by done.
  exists h', t'. split; [|done]. destruct (decide (l = [])) as [->|Hlne].
  - cbn [fmap list_fmap execute_all] in Eall. injection Eall as _ <-. unfold env in *. cbn [text mbind list_bind app] in *.
    destruct z as [|z]; [done|]. rewrite length_replicate. cbn [replicate app length import_loop]. rewrite entry_empty.
    pose proof (delete_spec strdup env_callback_init env_flags_init h1 t1 ∅ n [] flag Hrep1 ltac:(lia)) as Hdel.
    rewrite lookup_empty in Hdel. rewrite Hdel. cbn [mbind option_bind snd i_dp i_data i_htab].
    assert (rd (0 :: replicate z 0 ++ [0]) 1 = Some 0) as -> by by destruct z.
    cbn [mbind option_bind]. change (truthy 0) with false. cbv iota. by destruct (1 <? S z)%nat.
  - destruct (loop_text strdup env_callback_init env_flags_init sep Hsep l (S (length (env ++ [0]))) n flag []
      (replicate z 0 ++ [0]) h1 rets h' (length env)) as (data & dp & Eloop); try done.
    + unfold env. rewrite !length_app. pose proof (length_text sep l). lia.
    + unfold env. rewrite !length_app. cbn [length]. lia.
    + by destruct z.
    + cbn [app] in Eloop. unfold env in *. rewrite <- !app_assoc in *. cbn [length] in Eloop. rewrite Eloop. done.
Qed.

(** Values without too many backslashes, which pass 1 does not count when the
    separator is NUL. *)
Definition roomy (m : gmap cstr cstr) : Prop :=
  Z.of_nat (length (text sep (map_to_list m))) <= reckoned_all sep (map_to_list m).

Lemma roomy_text m : sep <> 0 -> roomy m.
Proof. intros Hs. unfold roomy. pose proof (text_reckoned sep (map_to_list m) Hs). lia. Qed.

End Roundtrip.

(** A variable whose value holds a line feed and a backslash. *)
Definition two_lines : cstr := [104; 105; 10; 92; 49].
Definition hello_vars : gmap cstr cstr := {[ [97] := two_lines ]}.
Definition hello : hsearch_data :=
  match execute_all Some id id 5 [Setenv [97] two_lines] five 0 with Some (_, h) => h | None => five end.

Lemma hello_represents : exists t, represents hello t hello_vars.
Proof.
  destruct (run_execute_all Some id id ltac:(done) ltac:(done) [Setenv [97] two_lines] five _ ∅ 5 0 five_empty)
    as (rets & h & t & E & _ & _ & Hrep & _); [simpl; lia|vm_compute; lia|].
  exists t. unfold hello. rewrite E. assert (rets = [1]) as -> by (vm_compute in E; congruence).
  exact Hrep.
Qed.
Lemma hello_good sep : sep <> 97 -> map_Forall (fun k d => good_pair sep (k, d)) hello_vars.
Proof.
  intros Hs. apply map_Forall_singleton. split; cbn [fst snd].
  - split; [by exists 97|]. by repeat constructor.
  - split; [done|]. by repeat constructor.
Qed.


(** ** Where the text form falls short *)

Abbreviation export_all := (hexport_r (fun _ => @None unit) (fun _ _ => false) (fun _ => true)).
Abbreviation import_all := (himport_r Some id id (fun _ => true)).

Definition with_backslashes : hsearch_data :=
  match execute_all Some id id 5 [Setenv [97] [92; 92; 92]] five 0 with Some (_, h) => h | None => five end.

(** With NUL as separator, pass 1 does not count the escapes pass 2 writes: a
    value of three backslashes is written behind the end of the buffer the
    function allocated, and into one of the caller's that it takes to be big
    enough.  With another separator all is well. *)
Lemma hexport_overruns :
  export_all 6 with_backslashes 0 0 (Some None) 0 [] = None /\
  export_all 6 with_backslashes 0 0 (Some (Some (replicate 9 255))) 9 [] = None /\
  export_all 6 with_backslashes 10 0 (Some None) 0 [] =
    Some (Exported 12 None (Some [97; 61; 92; 92; 92; 92; 92; 92; 10; 0; 0; 0])).
Proof. split_and!; vm_compute; reflexivity. Qed.

(** Removing carriage returns leaves stale bytes behind the shortened text: from
    "a=1 CR LF b=2" without a final line feed, [b] becomes 22. *)
Lemma himport_crlf_stale :
  option_map (fun r => option_map x_res (export_all 600 r.2 10 0 (Some None) 0 []))
    (import_all 600 no_htab [97; 61; 49; 13; 10; 98; 61; 50] 8 10 0 true []) =
  Some (Some (Some [97; 61; 49; 10; 98; 61; 50; 50; 10; 0; 0; 0; 0; 0])).
Proof. vm_compute. reflexivity. Qed.

(** When [strdup] gets no memory for the name of a new variable, its bucket is
    left in use without a name, and the next search that meets it dereferences a
    null pointer. *)
Lemma hsearch_half_made :
  option_map (fun a => (a_ret a, a_errno a, hsearch_r (fun _ => None) id id 5 [97] None FIND (a_htab a) 0))
    (hsearch_r (fun _ => None) id id 5 [97] (Some [49]) ENTER five 0) = Some (0, Some ENOMEM, None).
Proof. vm_compute. reflexivity. Qed.
