(* ===== verification/Crc32.v ===== *)
(** U-Boot's CRC-32: uboot/lib/crc32.c.

    The buffer is a list of bytes with the address of its first one, which decides
    where the loop over 32-bit words starts; [None] is a read behind the buffer.
    The machine is little-endian, so that [cpu_to_le32] and [tole] are the
    identity. *)
From S2P Require Import Prelude.

(** ** The table *)

(** The function that computes it, for the polynomial's terms [p]. *)
Definition crc_terms : list Z := [0; 1; 2; 4; 5; 7; 8; 10; 11; 12; 16; 22; 23; 26].
Definition crc_poly : Z := foldl (fun poly n => poly .| (1 << (31 - n))) 0 crc_terms.
Definition crc_step (c : Z) : Z := if truthy (c .& 1) then Z.lxor crc_poly (c >> 1) else c >> 1.
Definition make_crc_table : list Z := (fun n => Nat.iter 8 crc_step (u32 n)) <$> seqZ 0 256.

(** The table of the source. *)
Definition crc_table : list Z := [
   0x00000000; 0x77073096; 0xee0e612c; 0x990951ba; 0x076dc419; 0x706af48f; 0xe963a535; 0x9e6495a3;
   0x0edb8832; 0x79dcb8a4; 0xe0d5e91e; 0x97d2d988; 0x09b64c2b; 0x7eb17cbd; 0xe7b82d07; 0x90bf1d91;
   0x1db71064; 0x6ab020f2; 0xf3b97148; 0x84be41de; 0x1adad47d; 0x6ddde4eb; 0xf4d4b551; 0x83d385c7;
   0x136c9856; 0x646ba8c0; 0xfd62f97a; 0x8a65c9ec; 0x14015c4f; 0x63066cd9; 0xfa0f3d63; 0x8d080df5;
   0x3b6e20c8; 0x4c69105e; 0xd56041e4; 0xa2677172; 0x3c03e4d1; 0x4b04d447; 0xd20d85fd; 0xa50ab56b;
   0x35b5a8fa; 0x42b2986c; 0xdbbbc9d6; 0xacbcf940; 0x32d86ce3; 0x45df5c75; 0xdcd60dcf; 0xabd13d59;
   0x26d930ac; 0x51de003a; 0xc8d75180; 0xbfd06116; 0x21b4f4b5; 0x56b3c423; 0xcfba9599; 0xb8bda50f;
   0x2802b89e; 0x5f058808; 0xc60cd9b2; 0xb10be924; 0x2f6f7c87; 0x58684c11; 0xc1611dab; 0xb6662d3d;
   0x76dc4190; 0x01db7106; 0x98d220bc; 0xefd5102a; 0x71b18589; 0x06b6b51f; 0x9fbfe4a5; 0xe8b8d433;
   0x7807c9a2; 0x0f00f934; 0x9609a88e; 0xe10e9818; 0x7f6a0dbb; 0x086d3d2d; 0x91646c97; 0xe6635c01;
   0x6b6b51f4; 0x1c6c6162; 0x856530d8; 0xf262004e; 0x6c0695ed; 0x1b01a57b; 0x8208f4c1; 0xf50fc457;
   0x65b0d9c6; 0x12b7e950; 0x8bbeb8ea; 0xfcb9887c; 0x62dd1ddf; 0x15da2d49; 0x8cd37cf3; 0xfbd44c65;
   0x4db26158; 0x3ab551ce; 0xa3bc0074; 0xd4bb30e2; 0x4adfa541; 0x3dd895d7; 0xa4d1c46d; 0xd3d6f4fb;
   0x4369e96a; 0x346ed9fc; 0xad678846; 0xda60b8d0; 0x44042d73; 0x33031de5; 0xaa0a4c5f; 0xdd0d7cc9;
   0x5005713c; 0x270241aa; 0xbe0b1010; 0xc90c2086; 0x5768b525; 0x206f85b3; 0xb966d409; 0xce61e49f;
   0x5edef90e; 0x29d9c998; 0xb0d09822; 0xc7d7a8b4; 0x59b33d17; 0x2eb40d81; 0xb7bd5c3b; 0xc0ba6cad;
   0xedb88320; 0x9abfb3b6; 0x03b6e20c; 0x74b1d29a; 0xead54739; 0x9dd277af; 0x04db2615; 0x73dc1683;
   0xe3630b12; 0x94643b84; 0x0d6d6a3e; 0x7a6a5aa8; 0xe40ecf0b; 0x9309ff9d; 0x0a00ae27; 0x7d079eb1;
   0xf00f9344; 0x8708a3d2; 0x1e01f268; 0x6906c2fe; 0xf762575d; 0x806567cb; 0x196c3671; 0x6e6b06e7;
   0xfed41b76; 0x89d32be0; 0x10da7a5a; 0x67dd4acc; 0xf9b9df6f; 0x8ebeeff9; 0x17b7be43; 0x60b08ed5;
   0xd6d6a3e8; 0xa1d1937e; 0x38d8c2c4; 0x4fdff252; 0xd1bb67f1; 0xa6bc5767; 0x3fb506dd; 0x48b2364b;
   0xd80d2bda; 0xaf0a1b4c; 0x36034af6; 0x41047a60; 0xdf60efc3; 0xa867df55; 0x316e8eef; 0x4669be79;
   0xcb61b38c; 0xbc66831a; 0x256fd2a0; 0x5268e236; 0xcc0c7795; 0xbb0b4703; 0x220216b9; 0x5505262f;
   0xc5ba3bbe; 0xb2bd0b28; 0x2bb45a92; 0x5cb36a04; 0xc2d7ffa7; 0xb5d0cf31; 0x2cd99e8b; 0x5bdeae1d;
   0x9b64c2b0; 0xec63f226; 0x756aa39c; 0x026d930a; 0x9c0906a9; 0xeb0e363f; 0x72076785; 0x05005713;
   0x95bf4a82; 0xe2b87a14; 0x7bb12bae; 0x0cb61b38; 0x92d28e9b; 0xe5d5be0d; 0x7cdcefb7; 0x0bdbdf21;
   0x86d3d2d4; 0xf1d4e242; 0x68ddb3f8; 0x1fda836e; 0x81be16cd; 0xf6b9265b; 0x6fb077e1; 0x18b74777;
   0x88085ae6; 0xff0f6a70; 0x66063bca; 0x11010b5c; 0x8f659eff; 0xf862ae69; 0x616bffd3; 0x166ccf45;
   0xa00ae278; 0xd70dd2ee; 0x4e048354; 0x3903b3c2; 0xa7672661; 0xd06016f7; 0x4969474d; 0x3e6e77db;
   0xaed16a4a; 0xd9d65adc; 0x40df0b66; 0x37d83bf0; 0xa9bcae53; 0xdebb9ec5; 0x47b2cf7f; 0x30b5ffe9;
   0xbdbdf21c; 0xcabac28a; 0x53b39330; 0x24b4a3a6; 0xbad03605; 0xcdd70693; 0x54de5729; 0x23d967bf;
   0xb3667a2e; 0xc4614ab8; 0x5d681b02; 0x2a6f2b94; 0xb40bbe37; 0xc30c8ea1; 0x5a05df1b; 0x2d02ef8d].

(** ** Operations *)
Definition DO_CRC (crc x : Z) : option Z :=
  t ← crc_table !! Z.to_nat (Z.lxor crc x .& 255); Some (Z.lxor t (crc >> 8)).

(** The bytes up to an address that is a multiple of four. *)
Fixpoint crc_head (n : nat) (crc addr : Z) (buf : list Z) (len : Z) : option (Z * list Z * Z) :=
  match n, buf with
  | S n, x :: buf =>
      crc ← DO_CRC crc x;
      let addr := addr + 1 in let len := len - 1 in
      if truthy len && truthy (addr .& 3) then crc_head n crc addr buf len else Some (crc, buf, len)
  | _, _ => None
  end.

(** One word. *)
Definition crc_word (crc w : Z) : option Z :=
  let crc := Z.lxor crc w in
  crc ← DO_CRC crc 0; crc ← DO_CRC crc 0; crc ← DO_CRC crc 0; DO_CRC crc 0.
(** The loop over the words; each is read least significant byte first. *)
Fixpoint crc_words (len : nat) (crc : Z) (buf : list Z) : option (Z * list Z) :=
  match len with
  | O => Some (crc, buf)
  | S len =>
      match buf with
      | b0 :: b1 :: b2 :: b3 :: buf =>
          crc ← crc_word crc (b0 .| (b1 << 8) .| (b2 << 16) .| (b3 << 24));
          crc_words len crc buf
      | _ => None
      end
  end.

(** The last bytes. *)
Fixpoint crc_tail (len : nat) (crc : Z) (buf : list Z) : option Z :=
  match len with
  | O => Some crc
  | S len => match buf with x :: buf => crc ← DO_CRC crc x; crc_tail len crc buf | [] => None end
  end.

Definition crc32_no_comp (crc addr : Z) (buf : list Z) (len : Z) : option Z :=
  start ← (if truthy (addr .& 3) && truthy len then crc_head 4 crc addr buf len else Some (crc, buf, len));
  let '(crc, buf, len) := start in
  let rem_len := len .& 3 in
  words ← crc_words (Z.to_nat (len >> 2)) crc buf;
  crc_tail (Z.to_nat rem_len) words.1 words.2.

Definition crc32 (crc addr : Z) (buf : list Z) (len : Z) : option Z :=
  c ← crc32_no_comp (Z.lxor crc 0xffffffff) addr buf len; Some (Z.lxor c 0xffffffff).

(** [crc32_wd] of a build with a watchdog, which it feeds after every chunk. *)
Fixpoint crc32_wd (n : nat) (crc curr : Z) (buf : list Z) (len chunk_sz : Z) : option Z :=
  match n with
  | O => None
  | S n =>
      if 0 <? len then
        let chunk := if chunk_sz <? len then chunk_sz else len in
        crc ← crc32 crc curr buf chunk;
        crc32_wd n crc (curr + chunk) (drop (Z.to_nat chunk) buf) (len - chunk) chunk_sz
      else Some crc
  end.

(** The four bytes stored at [output], most significant first. *)
Definition crc32_wd_buf (n : nat) (addr : Z) (input : list Z) (ilen chunk_sz : Z) : option (list Z) :=
  crc ← crc32_wd n 0 addr input ilen chunk_sz;
  Some [crc >> 24; u8 (crc >> 16); u8 (crc >> 8); u8 crc].

(** ** Reference: the CRC bit by bit *)
Definition crc_byte (crc x : Z) : Z := Nat.iter 8 crc_step (Z.lxor crc x).
Definition crc_bits (crc : Z) (buf : list Z) : Z := foldl crc_byte crc buf.
Definition byte (x : Z) : Prop := fits 8 x.

(** ** Theory *)
Lemma crc_table_made : make_crc_table = crc_table.
Proof. vm_compute. reflexivity. Qed.
Lemma crc_poly_value : crc_poly = 0xedb88320.
Proof. vm_compute. reflexivity. Qed.

Lemma lxor_fits w a b : 0 <= w -> fits w a -> fits w b -> fits w (Z.lxor a b).
Proof.
  intros Hw Ha Hb. apply fits_bits; [done| |].
  - apply Z.lxor_nonneg. unfold fits in *. lia.
  - intros i Hi. rewrite Z.lxor_spec, !(testbit_above w) by (done || lia). done.
Qed.

(** One step is linear, keeps 32 bits and loses nothing. *)
Lemma crc_step_lxor a b : crc_step (Z.lxor a b) = Z.lxor (crc_step a) (crc_step b).
Proof.
  unfold crc_step. assert (forall z, truthy (z .& 1) = Z.testbit z 0) as E by (intros z; exact (truthy_land_bit z 0 ltac:(lia))).
  rewrite !E, Z.lxor_spec, Z.shiftr_lxor. generalize crc_poly. intros P.
  destruct (Z.testbit a 0), (Z.testbit b 0); cbn [xorb]; apply Z.bits_inj'; intros i Hi; rewrite !Z.lxor_spec;
    repeat match goal with |- context [Z.testbit ?x i] => destruct (Z.testbit x i) end; done.
Qed.
Lemma crc_step_fits c : fits 32 c -> fits 32 (crc_step c).
Proof.
  intros Hc. unfold crc_step. rewrite crc_poly_value. assert (fits 32 (c >> 1)) by (apply shiftr_fits; [lia|done]).
  destruct (truthy _); [|done]. apply lxor_fits; [lia|unfold fits; lia|done].
Qed.
Lemma crc_step_inj a b : fits 32 a -> fits 32 b -> crc_step a = crc_step b -> a = b.
Proof.
  intros Ha Hb E. assert (crc_step (Z.lxor a b) = 0) as E0 by (rewrite crc_step_lxor, E; apply Z.lxor_nilpotent).
  apply Z.lxor_eq. pose proof (lxor_fits 32 a b ltac:(lia) Ha Hb) as Hx. revert E0 Hx. generalize (Z.lxor a b). clear.
  intros c. unfold crc_step. rewrite crc_poly_value. change 1 with (1 << 0) at 1. rewrite truthy_land_bit by lia. intros E0 Hc.
  destruct (Z.testbit c 0) eqn:E1.
  - apply Z.lxor_eq in E0. unfold fits in Hc. rewrite Z.shiftr_div_pow2 in E0 by lia. dlia.
  - rewrite Z.shiftr_div_pow2 in E0 by lia. rewrite Z.bit0_odd, Zodd_mod in E1. unfold fits in Hc.
    revert E1. bcase; dlia.
Qed.

Lemma crc_iter_lxor n a b : Nat.iter n crc_step (Z.lxor a b) = Z.lxor (Nat.iter n crc_step a) (Nat.iter n crc_step b).
Proof. induction n as [|n IH]; [done|]. cbn [Nat.iter nat_rect]. fold (Nat.iter n crc_step (Z.lxor a b)). by rewrite IH, crc_step_lxor. Qed.
Lemma crc_iter_fits n c : fits 32 c -> fits 32 (Nat.iter n crc_step c).
Proof. intros Hc. induction n as [|n IH]; [done|]. by apply crc_step_fits. Qed.
Lemma crc_iter_inj n a b : fits 32 a -> fits 32 b -> Nat.iter n crc_step a = Nat.iter n crc_step b -> a = b.
Proof.
  intros Ha Hb. induction n as [|n IH]; [done|]. intros E%crc_step_inj; [auto|by apply crc_iter_fits..].
Qed.

(** Bits shifted in from above only move down. *)
Lemma crc_iter_shift n c : 0 <= c -> Nat.iter n crc_step (c << Z.of_nat n) = c.
Proof.
  intros Hc. induction n as [|n IH]; [by rewrite Z.shiftl_0_r|]. rewrite Nat.iter_succ_r.
  assert (crc_step (c << Z.of_nat (S n)) = c << Z.of_nat n) as ->; [|done].
  unfold crc_step. change 1 with (1 << 0) at 1. rewrite truthy_land_bit, Z.shiftl_spec, Z.testbit_neg_r by lia.
  rewrite Z.shiftr_shiftl_l by lia. f_equal. lia.
Qed.

Lemma byte_fits32 x : byte x -> fits 32 x.
Proof. unfold byte, fits. lia. Qed.

Lemma split_low c n : 0 <= n -> c = Z.lxor (c .& Z.ones n) ((c >> n) << n).
Proof.
  intros Hn. apply Z.bits_inj'. intros i Hi. autorewrite with bits.
  destruct (Z.ltb_spec i n).
  - by rewrite andb_true_r, (Z.testbit_neg_r _ (i - n)), xorb_false_r by lia.
  - rewrite andb_false_r, xorb_false_l, (Z.shiftr_spec _ _ (i - n)) by lia. f_equal. lia.
Qed.

Lemma crc_table_at : forallb (fun i => bool_decide (crc_table !! Z.to_nat i = Some (Nat.iter 8 crc_step i))) (seqZ 0 256) = true.
Proof. vm_compute. reflexivity. Qed.

(** One lookup is eight steps. *)
Lemma run_DO_CRC crc x : fits 32 crc -> byte x -> DO_CRC crc x = Some (crc_byte crc x).
Proof.
  intros Hc Hx. unfold DO_CRC, crc_byte. set (c := Z.lxor crc x).
  assert (0 <= c .& 255 < 256) as Hi.
  { change 255 with (Z.ones 8). rewrite Z.land_ones by lia. apply Z.mod_pos_bound. lia. }
  pose proof crc_table_at as Ht. rewrite forallb_forall in Ht. specialize (Ht (c .& 255)).
  rewrite bool_decide_eq_true in Ht. rewrite Ht by (apply list_elem_of_In, elem_of_seqZ; lia). cbn [mbind option_bind].
  f_equal. assert (crc >> 8 = c >> 8) as ->.
  { unfold c. rewrite Z.shiftr_lxor. assert (x >> 8 = 0) as ->; [|by rewrite Z.lxor_0_r].
    unfold byte, fits in Hx. rewrite Z.shiftr_div_pow2 by lia. apply Z.div_small. lia. }
  assert (0 <= c >> 8).
  { apply Z.shiftr_nonneg, Z.lxor_nonneg. unfold byte, fits in *. lia. }
  rewrite (split_low c 8) at 3 by lia. rewrite crc_iter_lxor. change 8 with (Z.of_nat 8) at 4.
  by rewrite crc_iter_shift.
Qed.

Lemma crc_byte_fits crc x : fits 32 crc -> byte x -> fits 32 (crc_byte crc x).
Proof. intros Hc Hx. apply crc_iter_fits, lxor_fits; [lia|done|by apply byte_fits32]. Qed.
Lemma crc_bits_fits crc buf : fits 32 crc -> Forall byte buf -> fits 32 (crc_bits crc buf).
Proof.
  unfold crc_bits. revert crc. induction buf as [|x buf IH]; intros crc Hc Hb; [done|].
  apply list.Forall_cons in Hb as [Hx Hb]. cbn [foldl]. apply IH; [by apply crc_byte_fits|done].
Qed.

Lemma run_crc_tail len crc buf : fits 32 crc -> Forall byte buf -> (len <= length buf)%nat ->
  crc_tail len crc buf = Some (crc_bits crc (take len buf)).
Proof.
  revert crc buf. induction len as [|len IH]; intros crc [|x buf] Hc Hb Hl; try done; [simpl in Hl; lia|].
  apply list.Forall_cons in Hb as [Hx Hb]. cbn [crc_tail]. rewrite run_DO_CRC by done. cbn [mbind option_bind].
  apply IH; [by apply crc_byte_fits|done|simpl in Hl; lia].
Qed.

Ltac byte_list := repeat (apply list.Forall_cons; split; [done|]); by apply list.Forall_nil.

(** The bytes of a word, least significant first. *)
Fixpoint word (bs : list Z) : Z := match bs with [] => 0 | b :: bs => Z.lxor b (word bs << 8) end.

Lemma word_fits bs : Forall byte bs -> fits (8 * Z.of_nat (length bs)) (word bs).
Proof.
  induction bs as [|b bs IH]; intros Hb; [unfold fits; simpl; lia|]. apply list.Forall_cons in Hb as [Hb Hbs].
  cbn [word length]. apply lxor_fits; [lia| |].
  - unfold byte, fits in *. assert (2 ^ 8 <= 2 ^ (8 * Z.of_nat (S (length bs)))) by (apply Z.pow_le_mono_r; lia). lia.
  - apply (shiftl_fits _ _ _ (8 * Z.of_nat (length bs))); [by apply IH|lia..].
Qed.

Lemma word_cons_inj b bs b' bs' : byte b -> byte b' -> Forall byte bs -> Forall byte bs' ->
  word (b :: bs) = word (b' :: bs') -> b = b' /\ word bs = word bs'.
Proof.
  intros Hb Hb' Hbs Hbs' E. cbn [word] in E.
  assert (forall x w, byte x -> Z.lxor x (w << 8) .& Z.ones 8 = x /\ Z.lxor x (w << 8) >> 8 = w) as H.
  { intros x w Hx. split; apply Z.bits_inj'; intros i Hi; autorewrite with bits.
    - destruct (Z.ltb_spec i 8); [by rewrite (Z.testbit_neg_r _ (i - 8)), xorb_false_r, andb_true_r by lia|].
      by rewrite andb_false_r, (testbit_above 8 x i) by (done || lia).
    - rewrite (testbit_above 8 x) by (done || lia). rewrite xorb_false_l. f_equal. lia. }
  destruct (H b (word bs) Hb) as [H1 H2], (H b' (word bs') Hb') as [H3 H4].
  rewrite E in H1, H2. split; congruence.
Qed.

Lemma word_inj bs bs' : length bs = length bs' -> Forall byte bs -> Forall byte bs' -> word bs = word bs' -> bs = bs'.
Proof.
  revert bs'. induction bs as [|b bs IH]; intros [|b' bs'] Hl Hb Hb' E; try done.
  apply list.Forall_cons in Hb as [Hb Hbs]. apply list.Forall_cons in Hb' as [Hb' Hbs'].
  apply word_cons_inj in E as [-> E]; [|done..]. f_equal. apply IH; [by injection Hl|done..].
Qed.

(** Eight steps consume the lowest byte of a word. *)
Lemma crc_byte_word crc b bs : Forall byte bs ->
  Nat.iter 8 crc_step (Z.lxor crc (word (b :: bs))) = Z.lxor (crc_byte crc b) (word bs).
Proof.
  intros Hbs. cbn [word]. rewrite <- Z.lxor_assoc, crc_iter_lxor. unfold crc_byte. f_equal.
  apply (crc_iter_shift 8). destruct (word_fits bs Hbs). done.
Qed.

Lemma crc_bits_word crc bs : Forall byte bs ->
  crc_bits crc bs = Nat.iter (8 * length bs) crc_step (Z.lxor crc (word bs)).
Proof.
  unfold crc_bits. revert crc. induction bs as [|b bs IH]; intros crc Hb; [by rewrite Z.lxor_0_r|].
  apply list.Forall_cons in Hb as [Hb Hbs]. cbn [foldl]. rewrite IH, <- crc_byte_word by done.
  replace (8 * length (b :: bs))%nat with (8 * length bs + 8)%nat by (simpl; lia).
  rewrite !Nat.iter_add. done.
Qed.

Lemma lor_byte b z : byte b -> b .| (z << 8) = Z.lxor b (z << 8).
Proof.
  intros Hb. apply Z.bits_inj'. intros i Hi. autorewrite with bits. destruct (Z.lt_ge_cases i 8).
  - rewrite (Z.testbit_neg_r z) by lia. by rewrite orb_false_r, xorb_false_r.
  - by rewrite (testbit_above 8 b) by (done || lia).
Qed.
Lemma word_4 b0 b1 b2 b3 : Forall byte [b0; b1; b2; b3] ->
  b0 .| (b1 << 8) .| (b2 << 16) .| (b3 << 24) = word [b0; b1; b2; b3].
Proof.
  intros Hb. rewrite !list.Forall_cons in Hb. destruct Hb as (H0 & H1 & H2 & H3 & _). cbn [word].
  rewrite Z.shiftl_0_l, Z.lxor_0_r, <- !lor_byte by done.
  rewrite !Z.shiftl_lor, !Z.shiftl_shiftl by lia. by rewrite !Z.lor_assoc.
Qed.

Lemma crc_bits_cons crc x l : crc_bits crc (x :: l) = crc_bits (crc_byte crc x) l.
Proof. done. Qed.

(** A lookup of the lowest byte of a word. *)
Lemma run_DO_CRC_word crc b bs : fits 32 crc -> byte b -> Forall byte bs -> (length bs < 4)%nat ->
  DO_CRC (Z.lxor crc (word (b :: bs))) 0 = Some (Z.lxor (crc_byte crc b) (word bs)).
Proof.
  intros Hc Hb Hbs Hlen. rewrite run_DO_CRC; [|apply lxor_fits; [lia|done|]|unfold byte, fits; lia].
  - f_equal. rewrite <- crc_byte_word by done. unfold crc_byte. by rewrite Z.lxor_0_r.
  - pose proof (word_fits (b :: bs) ltac:(by constructor)) as Hw. unfold fits in *.
    assert (2 ^ (8 * Z.of_nat (length (b :: bs))) <= 2 ^ 32) by (apply Z.pow_le_mono_r; simpl; lia). lia.
Qed.

Lemma crc_byte_inj crc crc' x : fits 32 crc -> fits 32 crc' -> byte x -> crc_byte crc x = crc_byte crc' x -> crc = crc'.
Proof.
  intros Hc Hc' Hx E. apply crc_iter_inj in E; [|apply lxor_fits; [lia|done|by apply byte_fits32]..].
  rewrite <- (Z.lxor_0_r crc), <- (Z.lxor_0_r crc'), <- (Z.lxor_nilpotent x), <- !Z.lxor_assoc. by rewrite E.
Qed.

(** The kernel must not unfold a lookup into its eight steps. *)
#[local] Opaque crc_byte DO_CRC.

Lemma bind_Some {A B : Type} (x : option A) (y : A) (f : A -> option B) : x = Some y -> x ≫= f = f y.
Proof. by intros ->. Qed.

Lemma run_crc_word crc b0 b1 b2 b3 : fits 32 crc -> Forall byte [b0; b1; b2; b3] ->
  crc_word crc (word [b0; b1; b2; b3]) = Some (crc_bits crc [b0; b1; b2; b3]).
Proof.
  intros Hc Hb. rewrite !list.Forall_cons in Hb. destruct Hb as (H0 & H1 & H2 & H3 & _).
  pose proof (crc_byte_fits crc b0 Hc H0) as Hc0. pose proof (crc_byte_fits _ b1 Hc0 H1) as Hc1.
  pose proof (crc_byte_fits _ b2 Hc1 H2) as Hc2. unfold crc_word.
  erewrite bind_Some by (apply run_DO_CRC_word; [exact Hc|exact H0|byte_list|simpl; lia]).
  erewrite bind_Some by (apply run_DO_CRC_word; [exact Hc0|exact H1|byte_list|simpl; lia]).
  erewrite bind_Some by (apply run_DO_CRC_word; [exact Hc1|exact H2|byte_list|simpl; lia]).
  rewrite run_DO_CRC_word; [|exact Hc2|exact H3|byte_list|simpl; lia].
  rewrite !crc_bits_cons. change (word []) with 0. rewrite Z.lxor_0_r. reflexivity.
Qed.

(** A word and four lookups are its four bytes. *)
Lemma run_crc_words len crc buf : fits 32 crc -> Forall byte buf -> (4 * len <= length buf)%nat ->
  crc_words len crc buf = Some (crc_bits crc (take (4 * len) buf), drop (4 * len) buf).
Proof.
  revert crc buf. induction len as [|len IH]; intros crc buf Hc Hb Hl; [done|].
  destruct buf as [|b0 [|b1 [|b2 [|b3 buf]]]]; try (simpl in Hl; lia).
  assert (Forall byte [b0; b1; b2; b3] /\ Forall byte buf) as [H4 Hbuf].
  { rewrite !list.Forall_cons in Hb. destruct Hb as (? & ? & ? & ? & ?). split; [byte_list|done]. }
  cbn [crc_words]. rewrite word_4 by exact H4. erewrite bind_Some by (apply run_crc_word; [exact Hc|exact H4]).
  rewrite IH; [|by apply crc_bits_fits|done|simpl in Hl; lia].
  replace (4 * S len)%nat with (S (S (S (S (4 * len))))) by lia.
  rewrite !firstn_cons, !skipn_cons, !crc_bits_cons. reflexivity.
Qed.

Lemma crc_bits_app crc a b : crc_bits crc (a ++ b) = crc_bits (crc_bits crc a) b.
Proof. apply foldl_app. Qed.

Lemma run_crc_head n crc addr buf len : fits 32 crc -> Forall byte buf -> 0 < len <= Z.of_nat (length buf) ->
  0 < addr .& 3 -> 4 - (addr .& 3) <= Z.of_nat n ->
  exists k, crc_head n crc addr buf len = Some (crc_bits crc (take k buf), drop k buf, len - Z.of_nat k) /\
    Z.of_nat k <= len.
Proof.
  revert crc addr buf len. induction n as [|n IH]; intros crc addr buf len Hc Hb Hl Ha Hn.
  { change 3 with (Z.ones 2) in *. rewrite Z.land_ones in * by lia. pose proof (Z.mod_pos_bound addr (2 ^ 2) ltac:(lia)). lia. }
  destruct buf as [|x buf]; [simpl in Hl; lia|]. apply list.Forall_cons in Hb as [Hx Hb]. cbn [crc_head].
  rewrite run_DO_CRC by done. cbn [mbind option_bind]. cbv zeta.
  destruct (truthy (len - 1) && truthy ((addr + 1) .& 3)) eqn:E; [|exists 1%nat; split; [done|lia]].
  apply andb_true_iff in E as [El Ea]. rewrite truthy_true in El, Ea. change 3 with (Z.ones 2) in *.
  rewrite Z.land_ones in * by lia.
  destruct (IH (crc_byte crc x) (addr + 1) buf (len - 1)) as (k & -> & Hk);
    [by apply crc_byte_fits|done|simpl in Hl; lia|rewrite Z.land_ones by lia; dlia|rewrite Z.land_ones by lia; dlia|].
  exists (S k). split; [|lia]. f_equal. f_equal. lia.
Qed.

Lemma run_crc32_no_comp crc addr buf len : fits 32 crc -> Forall byte buf -> 0 <= len <= Z.of_nat (length buf) ->
  crc32_no_comp crc addr buf len = Some (crc_bits crc (take (Z.to_nat len) buf)).
Proof.
  intros Hc Hb Hl. unfold crc32_no_comp.
  assert (exists k, (if truthy (addr .& 3) && truthy len then crc_head 4 crc addr buf len else Some (crc, buf, len)) =
    Some (crc_bits crc (take k buf), drop k buf, len - Z.of_nat k) /\ Z.of_nat k <= len) as (k & -> & Hk).
  { destruct (truthy (addr .& 3) && truthy len) eqn:E; [|exists 0%nat; split; [|lia]; by rewrite Z.sub_0_r].
    apply andb_true_iff in E as [Ea El]. rewrite truthy_true in Ea, El.
    assert (0 <= addr .& 3 < 4) by (change 3 with (Z.ones 2); rewrite Z.land_ones by lia; apply Z.mod_pos_bound; lia).
    apply run_crc_head; [done|done|lia|lia|lia]. }
  cbn [mbind option_bind]. set (l := len - Z.of_nat k).
  assert (Forall byte (drop k buf)) as Hd by by apply Forall_drop.
  assert (fits 32 (crc_bits crc (take k buf))) as Hc1 by (apply crc_bits_fits; [done|by apply Forall_take]).
  assert (l >> 2 = l / 4) as E4 by (rewrite Z.shiftr_div_pow2 by lia; done).
  assert (l .& 3 = l mod 4) as Em by (change 3 with (Z.ones 2); by rewrite Z.land_ones by lia).
  rewrite E4, Em. assert (0 <= l) by (unfold l; lia).
  pose proof (Z.div_mod l 4 ltac:(lia)). pose proof (Z.mod_pos_bound l 4 ltac:(lia)). pose proof (Z.div_pos l 4 ltac:(lia) ltac:(lia)).
  rewrite run_crc_words; [|done|done|rewrite length_drop; unfold l in *; lia]. cbn [mbind option_bind fst snd].
  rewrite run_crc_tail; [|apply crc_bits_fits; [done|by apply Forall_take]|by apply Forall_drop|
    rewrite !length_drop; unfold l in *; lia].
  rewrite <- !crc_bits_app. do 2 f_equal.
  rewrite !take_take_drop. f_equal. unfold l in *. lia.
Qed.

Lemma fits_ffffffff : fits 32 0xffffffff.
Proof. unfold fits. lia. Qed.

Lemma run_crc32 crc addr buf len : fits 32 crc -> Forall byte buf -> 0 <= len <= Z.of_nat (length buf) ->
  crc32 crc addr buf len = Some (Z.lxor (crc_bits (Z.lxor crc 0xffffffff) (take (Z.to_nat len) buf)) 0xffffffff).
Proof.
  intros Hc Hb Hl. unfold crc32. rewrite run_crc32_no_comp; [done| |done|done].
  apply lxor_fits; [lia|done|apply fits_ffffffff].
Qed.

Lemma lxor_ff_twice x : Z.lxor (Z.lxor x 0xffffffff) 0xffffffff = x.
Proof. by rewrite Z.lxor_assoc, Z.lxor_nilpotent, Z.lxor_0_r. Qed.

(** ** Properties *)

(** C38: the table-driven [crc32], which takes 32 bits at a time from the first
    aligned address on, is the CRC-32 computed bit by bit with the polynomial
    0xedb88320, wherever the buffer lies; it reads nothing behind it. *)
Theorem crc32_correct crc addr buf len : fits 32 crc -> Forall byte buf -> 0 <= len <= Z.of_nat (length buf) ->
  crc32 crc addr buf len = Some (Z.lxor (crc_bits (Z.lxor crc 0xffffffff) (take (Z.to_nat len) buf)) 0xffffffff).
Proof. apply run_crc32. Qed.

Lemma crc32_correct_witness :
  crc32 0 2 [49; 50; 51; 52; 53; 54; 55; 56; 57] 9 = Some (Z.lxor (crc_bits 0xffffffff [49; 50; 51; 52; 53; 54; 55; 56; 57]) 0xffffffff) /\
  crc32 0 2 [49; 50; 51; 52; 53; 54; 55; 56; 57] 9 = Some 0xcbf43926.
Proof.
  split; [|vm_compute; reflexivity].
  apply (crc32_correct 0 2 [49; 50; 51; 52; 53; 54; 55; 56; 57] 9); [split; lia| |simpl; lia].
  repeat (apply list.Forall_cons; split; [split; lia|]). by apply list.Forall_nil.
Defined.

Lemma crc_bits_inj crc crc' buf : fits 32 crc -> fits 32 crc' -> Forall byte buf ->
  crc_bits crc buf = crc_bits crc' buf -> crc = crc'.
Proof.
  revert crc crc'. induction buf as [|x buf IH]; intros crc crc' Hc Hc' Hb; [done|].
  apply list.Forall_cons in Hb as [Hx Hb]. rewrite !crc_bits_cons. intros E%IH; [|by apply crc_byte_fits..|done].
  by apply crc_byte_inj in E.
Qed.

Lemma crc_bits_burst crc u v : fits 32 crc -> Forall byte u -> Forall byte v -> length u = length v -> (length u <= 4)%nat ->
  crc_bits crc u = crc_bits crc v -> u = v.
Proof.
  intros Hc Hu Hv Hl H4. rewrite !crc_bits_word, <- Hl by done.
  assert (forall w, Forall byte w -> (length w <= 4)%nat -> fits 32 (Z.lxor crc (word w))) as Hfits.
  { intros w Hw Hlw. apply lxor_fits; [lia|done|]. pose proof (word_fits w Hw) as Hb. unfold fits in *.
    assert (2 ^ (8 * Z.of_nat (length w)) <= 2 ^ 32) by (apply Z.pow_le_mono_r; lia). lia. }
  intros E%crc_iter_inj; [|apply Hfits; [done|lia]..].
  apply word_inj; [done..|]. rewrite <- (Z.lxor_0_l (word u)), <- (Z.lxor_0_l (word v)), <- (Z.lxor_nilpotent crc), !Z.lxor_assoc.
  by rewrite E.
Qed.

(** Damage to at most four consecutive bytes changes the checksum. *)
Lemma run_crc32_detects crc addr addr' p u v s c c' :
  fits 32 crc -> Forall byte (p ++ u ++ s) -> Forall byte v -> length u = length v -> (length u <= 4)%nat -> u <> v ->
  crc32 crc addr (p ++ u ++ s) (Z.of_nat (length (p ++ u ++ s))) = Some c ->
  crc32 crc addr' (p ++ v ++ s) (Z.of_nat (length (p ++ v ++ s))) = Some c' ->
  c <> c'.
Proof.
  intros Hc Hb Hv Hl H4 Hne E E' <-. apply Forall_app in Hb as [Hp Hb]. apply Forall_app in Hb as [Hu Hs].
  rewrite run_crc32, Nat2Z.id, firstn_all in E by (done || lia || by rewrite !Forall_app).
  rewrite run_crc32, Nat2Z.id, firstn_all in E' by (done || lia || by rewrite !Forall_app).
  assert (fits 32 (Z.lxor crc 0xffffffff)) as Hc0 by (apply lxor_fits; [lia|done|apply fits_ffffffff]).
  rewrite <- E' in E. injection E as E. apply (f_equal (fun x => Z.lxor x 0xffffffff)) in E. rewrite !lxor_ff_twice in E.
  rewrite !crc_bits_app in E. pose proof (crc_bits_fits _ p Hc0 Hp) as Hc1.
  apply crc_bits_inj in E; [|by apply crc_bits_fits..|done]. by apply crc_bits_burst in E.
Qed.

(** damage to at most four consecutive bytes is always noticed: two buffers
    that differ there and nowhere else have different checksums. *)
Theorem crc32_detects crc addr addr' p u v s c c' :
  fits 32 crc -> Forall byte (p ++ u ++ s) -> Forall byte v -> length u = length v -> (length u <= 4)%nat -> u <> v ->
  crc32 crc addr (p ++ u ++ s) (Z.of_nat (length (p ++ u ++ s))) = Some c ->
  crc32 crc addr' (p ++ v ++ s) (Z.of_nat (length (p ++ v ++ s))) = Some c' ->
  c <> c'.
Proof. apply run_crc32_detects. Qed.

Lemma crc32_detects_witness : exists c c',
  crc32 0 0 ([1] ++ [2; 3] ++ [4]) 4 = Some c /\ crc32 0 3 ([1] ++ [2; 7] ++ [4]) 4 = Some c' /\ c <> c'.
Proof.
  eexists _, _. split; [vm_compute; reflexivity|]. split; [vm_compute; reflexivity|].
  apply (crc32_detects 0 0 3 [1] [2; 3] [2; 7] [4]); [split; lia| | |reflexivity|simpl; lia|discriminate| |].
  - repeat (apply list.Forall_cons; split; [split; lia|]). by apply list.Forall_nil.
  - repeat (apply list.Forall_cons; split; [split; lia|]). by apply list.Forall_nil.
  - vm_compute. reflexivity.
  - vm_compute. reflexivity.
Defined.

Lemma crc_split crc a b : crc_bits (Z.lxor (Z.lxor (crc_bits crc a) 0xffffffff) 0xffffffff) b = crc_bits crc (a ++ b).
Proof. by rewrite lxor_ff_twice, crc_bits_app. Qed.

Lemma run_crc32_wd n crc curr buf len chunk_sz : fits 32 crc -> Forall byte buf -> 0 <= len <= Z.of_nat (length buf) ->
  0 < chunk_sz -> len < Z.of_nat n ->
  crc32_wd n crc curr buf len chunk_sz =
    Some (Z.lxor (crc_bits (Z.lxor crc 0xffffffff) (take (Z.to_nat len) buf)) 0xffffffff).
Proof.
  revert crc curr buf len. induction n as [|n IH]; intros crc curr buf len Hc Hb Hl Hsz Hn; [lia|]. cbn [crc32_wd].
  destruct (Z.ltb_spec 0 len).
  2:{ replace len with 0 by lia. change (take (Z.to_nat 0) buf) with (@nil Z). cbn [crc_bits foldl]. by rewrite lxor_ff_twice. }
  set (chunk := if chunk_sz <? len then chunk_sz else len).
  assert (0 < chunk <= len) as Hch by (unfold chunk; destruct (Z.ltb_spec chunk_sz len); lia).
  rewrite run_crc32 by (done || lia). cbn [mbind option_bind].
  assert (fits 32 (Z.lxor crc 0xffffffff)) as Hc0 by (apply lxor_fits; [lia|done|apply fits_ffffffff]).
  rewrite IH; [|apply lxor_fits; [lia|apply crc_bits_fits; [done|by apply Forall_take]|apply fits_ffffffff]
    |by apply Forall_drop|rewrite length_drop; lia|done|lia].
  rewrite crc_split, take_take_drop. do 4 f_equal. lia.
Qed.

(** feeding the watchdog between chunks does not change the checksum. *)
Theorem crc32_wd_chunks n crc curr buf len chunk_sz : fits 32 crc -> Forall byte buf ->
  0 <= len <= Z.of_nat (length buf) -> 0 < chunk_sz -> len < Z.of_nat n ->
  crc32_wd n crc curr buf len chunk_sz = crc32 crc curr buf len.
Proof. intros. by rewrite run_crc32_wd, run_crc32. Qed.

Lemma crc32_wd_chunks_witness : crc32_wd 10 0 1 [1; 2; 3; 4; 5] 5 2 = crc32 0 1 [1; 2; 3; 4; 5] 5.
Proof.
  apply crc32_wd_chunks; [split; lia| |simpl; lia|lia|lia].
  repeat (apply list.Forall_cons; split; [split; lia|]). by apply list.Forall_nil.
Defined.

(** A chunk size of 0 makes the loop of [crc32_wd] endless. *)
Lemma crc32_wd_zero_chunk n : crc32_wd n 0 0 [1] 1 0 = None.
Proof. induction n as [|n IH]; [done|]. exact IH. Qed.
