(* ===== verification/EnvAttr.v ===== *)
(** Lists of attributes of environment variables: uboot/common/env_attr.c, built
    with CONFIG_REGEX, and the trimming functions of lib/linux_string.c.

    A list is "name:attributes,name:attributes,..."; names are regular expressions
    of slre.c, which are parameters.  Allocations are taken to succeed. *)
From S2P Require Import Prelude Ctype Htab Hexport.

Definition ENV_ATTR_LIST_DELIM : Z := 44.
Definition ENV_ATTR_SEP : Z := 58.
Definition ENOENT : Z := 2.

(** ** Strings *)
Fixpoint skip_spaces (str : cstr) : cstr :=
  match str with [] => [] | c :: rest => if isspace c then skip_spaces rest else str end.
(** White space is removed from the end as it is from the front. *)
Definition strim (s : cstr) : cstr := rev (skip_spaces (rev (skip_spaces s))).

(** What is in front of the first [c] and what is behind it, as [strchr] finds it. *)
Fixpoint cut (c : Z) (s : cstr) : option (cstr * cstr) :=
  match s with
  | [] => None
  | x :: s => if x =? c then Some ([], s) else r ← cut c s; Some (x :: r.1, r.2)
  end.

(** ** Walking a list *)
Section Walk.
Context {state : Type} (callback : cstr -> option cstr -> state -> option (Z * state)).

(** One entry, from the copy made of it on. *)
Definition walk_entry (entry_cpy : cstr) (priv : state) : option (Z * state) :=
  match entry_cpy with
  | [] => Some (0, priv)
  | _ =>
      let '(name, attributes) :=
        match cut ENV_ATTR_SEP entry_cpy with
        | Some (name, attributes) => (strim name, Some (strim attributes))
        | None => (strim entry_cpy, None)
        end in
      match name with [] => Some (0, priv) | _ => callback name attributes priv end
  end.

Fixpoint walk_loop (n : nat) (entry : cstr) (priv : state) : option (Z * state) :=
  match n with
  | O => None
  | S n =>
      match cut ENV_ATTR_LIST_DELIM entry with
      | None => walk_entry entry priv
      | Some (entry_cpy, next) =>
          res ← walk_entry entry_cpy priv;
          if truthy res.1 then Some res else walk_loop n next res.2
      end
  end.
Definition env_attr_walk (attr_list : option cstr) (priv : state) : option (Z * state) :=
  match attr_list with None => Some (1, priv) | Some l => walk_loop (S (length l)) l priv end.
End Walk.

(** ** Looking a name up *)
Section Lookup.
Context {slre : Type} (slre_compile : cstr -> option slre) (slre_match : slre -> cstr -> bool).

Record regex_callback_priv := Priv { searched_for : cstr; regex : option cstr; found_attributes : option cstr }.

(** [None]: the length of a null pointer's string is taken. *)
Definition regex_callback (name : cstr) (attributes : option cstr) (cbp : regex_callback_priv) :
    option (Z * regex_callback_priv) :=
  let re := 94 :: name ++ [36] in
  match slre_compile re with
  | Some slre =>
      if slre_match slre (searched_for cbp) then
        attributes ← attributes;
        Some (0, Priv (searched_for cbp) (Some re) (Some attributes))
      else Some (0, cbp)
  | None => Some (EINVAL, cbp)
  end.

(** The value returned and the string written to [attributes], a buffer of [room]
    bytes. *)
Definition env_attr_lookup (attr_list : option cstr) (name : cstr) (room : nat) : option (Z * option cstr) :=
  match attr_list with
  | None => Some (- EINVAL, None)
  | Some _ =>
      res ← env_attr_walk regex_callback attr_list (Priv name None None);
      if truthy res.1 then Some (res.1, None)
      else
        match regex res.2 with
        | Some _ =>
            a ← found_attributes res.2;
            if (length a <? room)%nat then Some (0, Some a) else None
        | None => Some (- ENOENT, None)
        end
  end.
End Lookup.

(** ** Theory *)
Lemma cut_length c s a b : cut c s = Some (a, b) -> (length a + length b < length s)%nat.
Proof.
  revert a. induction s as [|x s IH]; intros a; [done|]. cbn [cut].
  destruct (x =? c); [intros [= <- <-]; simpl; lia|]. destruct (cut c s) as [[a' b']|]; [|done].
  cbn [mbind option_bind fst snd]. intros [= <- <-]. specialize (IH a' eq_refl). simpl. lia.
Qed.
Lemma cut_app c a b : c ∉ a -> cut c (a ++ c :: b) = Some (a, b).
Proof.
  induction a as [|x a IH]; intros Hc; cbn [app cut]; [by rewrite Z.eqb_refl|].
  apply not_elem_of_cons in Hc as [Hx Hc]. destruct (Z.eqb_spec x c); [congruence|]. by rewrite IH.
Qed.
Lemma cut_none c s : c ∉ s -> cut c s = None.
Proof.
  induction s as [|x s IH]; intros Hc; [done|]. apply not_elem_of_cons in Hc as [Hx Hc]. cbn [cut].
  destruct (Z.eqb_spec x c); [congruence|]. by rewrite IH.
Qed.

Fixpoint intercalate (sep : Z) (l : list cstr) : cstr :=
  match l with [] => [] | [x] => x | x :: l => x ++ sep :: intercalate sep l end.

Section WalkTheory.
Context {state : Type} (callback : cstr -> option cstr -> state -> option (Z * state)).

(** The callbacks of a list, in order, until one answers something else than 0. *)
Fixpoint walk_all (l : list cstr) (priv : state) : option (Z * state) :=
  match l with
  | [] => Some (0, priv)
  | e :: l => res ← walk_entry callback e priv; if truthy res.1 then Some res else walk_all l res.2
  end.

Lemma walk_all_one e priv : walk_all [e] priv = walk_entry callback e priv.
Proof.
  cbn [walk_all]. destruct (walk_entry callback e priv) as [[r s]|]; [|done]. cbn [mbind option_bind fst snd].
  destruct (truthy r) eqn:E; [done|]. by apply truthy_false in E as ->.
Qed.

Lemma run_env_attr_walk (l : list cstr) priv : l <> [] -> Forall (fun e => ENV_ATTR_LIST_DELIM ∉ e) l ->
  env_attr_walk callback (Some (intercalate ENV_ATTR_LIST_DELIM l)) priv = walk_all l priv.
Proof.
  unfold env_attr_walk. assert (length l <= S (length (intercalate ENV_ATTR_LIST_DELIM l)))%nat as Hn.
  { induction l as [|e [|e' l] IH]; cbn [intercalate length] in *; [lia|lia|]. rewrite length_app. simpl in *. lia. }
  revert Hn. generalize (S (length (intercalate ENV_ATTR_LIST_DELIM l))). intros n. revert l priv.
  induction n as [|n IH]; intros l priv Hn Hne Hl; [destruct l; simpl in *; [done|lia]|].
  destruct l as [|e l]; [done|]. apply list.Forall_cons in Hl as [He Hl]. cbn [walk_loop].
  destruct l as [|e' l].
  - cbn [intercalate]. by rewrite cut_none, walk_all_one.
  - cbn [intercalate]. rewrite cut_app by done. cbn [walk_all].
    destruct (walk_entry callback e priv) as [[r s]|]; [|done]. cbn [mbind option_bind fst snd].
    destruct (truthy r); [done|].
    change (walk_loop callback n (intercalate ENV_ATTR_LIST_DELIM (e' :: l)) s = walk_all (e' :: l) s).
    apply IH; [simpl in *; lia|done|done].
Qed.
End WalkTheory.
