(* ===== verification/EnvFlags.v ===== *)
(** Types and access rights of environment variables: uboot/common/env_flags.c
    and include/env_flags.h, built with CONFIG_CMD_NET.

    A pointer into a string is the rest of the string, the terminating NUL being
    its end.  The character classes are those of Ctype.v: U-Boot's lib/ctype.c has
    the same table.  Messages on the console are left out. *)
From S2P Require Import Prelude Ctype Htab HtabSafe Hexport Himport EnvAttr.

(** ** Data *)
Definition env_flags_vartype_string : Z := 0.
Definition env_flags_vartype_decimal : Z := 1.
Definition env_flags_vartype_hex : Z := 2.
Definition env_flags_vartype_bool : Z := 3.
Definition env_flags_vartype_ipaddr : Z := 4.
Definition env_flags_vartype_macaddr : Z := 5.
Definition env_flags_vartype_end : Z := 6.

Definition env_flags_varaccess_any : Z := 0.
Definition env_flags_varaccess_readonly : Z := 1.
Definition env_flags_varaccess_writeonce : Z := 2.
Definition env_flags_varaccess_changedefault : Z := 3.

Definition ENV_FLAGS_ATTR_MAX_LEN : nat := 2.
Definition ENV_FLAGS_VARTYPE_LOC : nat := 0.
Definition ENV_FLAGS_VARACCESS_LOC : nat := 1.
Definition ENV_FLAGS_VARTYPE_BIN_MASK : Z := 0x7.
Definition ENV_FLAGS_VARACCESS_PREVENT_DELETE : Z := 0x8.
Definition ENV_FLAGS_VARACCESS_PREVENT_CREATE : Z := 0x10.
Definition ENV_FLAGS_VARACCESS_PREVENT_OVERWR : Z := 0x20.
Definition ENV_FLAGS_VARACCESS_PREVENT_NONDEF_OVERWR : Z := 0x40.
Definition ENV_FLAGS_VARACCESS_BIN_MASK : Z := 0x78.

(** "sdxbim" and "aroc" *)
Definition env_flags_vartype_rep : cstr := [115; 100; 120; 98; 105; 109].
Definition env_flags_varaccess_rep : cstr := [97; 114; 111; 99].
Definition env_flags_varaccess_mask : list Z := [
  0;
  ENV_FLAGS_VARACCESS_PREVENT_DELETE .| ENV_FLAGS_VARACCESS_PREVENT_CREATE .| ENV_FLAGS_VARACCESS_PREVENT_OVERWR;
  ENV_FLAGS_VARACCESS_PREVENT_DELETE .| ENV_FLAGS_VARACCESS_PREVENT_OVERWR;
  ENV_FLAGS_VARACCESS_PREVENT_DELETE .| ENV_FLAGS_VARACCESS_PREVENT_NONDEF_OVERWR].

(** ** Parsing flags *)

(** The position of the first [c]; U-Boot's strchr, for a [c] other than NUL. *)
Fixpoint index_of (c : Z) (s : cstr) : option Z :=
  match s with [] => None | x :: s => if x =? c then Some 0 else i ← index_of c s; Some (i + 1) end.

Definition env_flags_parse_vartype (flags : cstr) : Z :=
  match flags !! ENV_FLAGS_VARTYPE_LOC with
  | None => env_flags_vartype_string
  | Some c => default env_flags_vartype_string (index_of c env_flags_vartype_rep)
  end.
Definition env_flags_parse_varaccess (flags : cstr) : Z :=
  match flags !! ENV_FLAGS_VARACCESS_LOC with
  | None => env_flags_varaccess_any
  | Some c => default env_flags_varaccess_any (index_of c env_flags_varaccess_rep)
  end.
Fixpoint parse_mask (masks : list Z) (i : Z) (binflags : Z) : Z :=
  match masks with
  | [] => env_flags_varaccess_any
  | mask :: masks => if mask =? binflags .& ENV_FLAGS_VARACCESS_BIN_MASK then i else parse_mask masks (i + 1) binflags
  end.
Definition env_flags_parse_varaccess_from_binflags (binflags : Z) : Z := parse_mask env_flags_varaccess_mask 0 binflags.

Definition env_parse_flags_to_bin (flags : cstr) : Z :=
  (env_flags_parse_vartype flags .& ENV_FLAGS_VARTYPE_BIN_MASK) .|
  nth (Z.to_nat (env_flags_parse_varaccess flags)) env_flags_varaccess_mask 0.

(** ** Checking values *)
Definition is_hex_prefix (value : cstr) : bool :=
  (deref value =? 48) && ((deref (drop 1 value) =? 120) || (deref (drop 1 value) =? 88)).

Fixpoint skip_digits (hex : bool) (value : cstr) (i : Z) : cstr :=
  if i =? 0 then value
  else match value with
       | [] => value
       | c :: rest => if (if hex then isxdigit c else isdigit c) then skip_digits hex rest (i - 1) else value
       end.
Definition skip_num (hex : bool) (value : cstr) (max_digits : Z) : cstr :=
  skip_digits hex (if hex && is_hex_prefix value then drop 2 value else value) max_digits.

(** Pointers into one string are compared by what is left. *)
Definition same_ptr (p q : cstr) : bool := (length p =? length q)%nat.

Fixpoint ethaddr_loop (n : nat) (i : Z) (cur : cstr) : Z :=
  match n with
  | O => 0
  | S n =>
      let end_ := skip_num true cur 2 in
      if same_ptr cur end_ then -1
      else if same_ptr (drop 2 cur) end_ && is_hex_prefix cur then -1
      else if negb (i =? 5) && negb (deref end_ =? 58) then -1
      else if (i =? 5) && negb (deref end_ =? 0) then -1
      else ethaddr_loop n (i + 1) (drop 1 end_)
  end.
Definition eth_validate_ethaddr_str (addr : cstr) : Z := ethaddr_loop 6 0 addr.

Fixpoint ipaddr_loop (n : nat) (i : Z) (cur : cstr) : Z :=
  match n with
  | O => 0
  | S n =>
      let end_ := skip_num false cur 3 in
      if same_ptr cur end_ then -1
      else if negb (i =? 3) && negb (deref end_ =? 46) then -1
      else if (i =? 3) && negb (deref end_ =? 0) then -1
      else ipaddr_loop n (i + 1) (drop 1 end_)
  end.

(** 1ytYT0nfNF *)
Definition bool_chars : list Z := [49; 121; 116; 89; 84; 48; 110; 102; 78; 70].

Definition _env_flags_validate_type (value : cstr) (type : Z) : Z :=
  if type =? env_flags_vartype_string then 0
  else if type =? env_flags_vartype_decimal then
    let end_ := skip_num false value (-1) in if negb (deref end_ =? 0) then -1 else 0
  else if type =? env_flags_vartype_hex then
    let end_ := skip_num true value (-1) in
    if negb (deref end_ =? 0) then -1
    else if same_ptr (drop 2 value) end_ && is_hex_prefix value then -1 else 0
  else if type =? env_flags_vartype_bool then
    if negb (existsb (Z.eqb (deref value)) bool_chars) then -1
    else if negb (deref (drop 1 value) =? 0) then -1 else 0
  else if type =? env_flags_vartype_ipaddr then ipaddr_loop 4 0 value
  else if type =? env_flags_vartype_macaddr then if truthy (eth_validate_ethaddr_str value) then -1 else 0
  else if type =? env_flags_vartype_end then -1
  else 0.

(** ** The permission check

    [getenv_default]: the variable's value in the default environment. *)
Section Validate.
Context (getenv_default : cstr -> option cstr).

(** [None]: a null pointer is used as a string. *)
Definition env_flags_validate (item : ENTRY) (newval : option cstr) (op : env_op) (flag : Z) : option Z :=
  let name := e_key item in
  let oldval := match op with env_op_create => None | _ => e_data item end in
  let newval := default [] newval in
  let type := ENV_FLAGS_VARTYPE_BIN_MASK .& e_flags item in
  if match op with env_op_delete => false | _ => _env_flags_validate_type newval type <? 0 end then Some (-1)
  else if truthy (flag .& H_FORCE) then Some 0
  else
    match op with
    | env_op_delete => Some (if truthy (e_flags item .& ENV_FLAGS_VARACCESS_PREVENT_DELETE) then 1 else 0)
    | env_op_overwrite =>
        if truthy (e_flags item .& ENV_FLAGS_VARACCESS_PREVENT_OVERWR) then Some 1
        else if truthy (e_flags item .& ENV_FLAGS_VARACCESS_PREVENT_NONDEF_OVERWR) then
          name ← name;
          let defval := default [] (getenv_default name) in
          oldval ← oldval;
          Some (if truthy (strcmp oldval defval) then 1 else 0)
        else Some 0
    | env_op_create => Some (if truthy (e_flags item .& ENV_FLAGS_VARACCESS_PREVENT_CREATE) then 1 else 0)
    end.

(** As the table's [change_ok]: the entries it is called with have a name and,
    unless they are new, a value. *)
Definition change_ok_flags : check_t := fun item newval op flag => default (-1) (env_flags_validate item newval op flag).
End Validate.

(** ** Flags of the variables of a table

    [flags_list] is what the first call found in the variable ".flags";
    [ENV_FLAGS_LIST_STATIC] is the list of the configuration. *)
Section Lists.
Context {slre : Type} (slre_compile : cstr -> option slre) (slre_match : slre -> cstr -> bool).
Context (ENV_FLAGS_LIST_STATIC : cstr).

Definition env_flags_lookup (flags_list : option cstr) (name : cstr) (room : nat) : option (Z * option cstr) :=
  res ← (match flags_list with
         | Some _ => env_attr_lookup slre_compile slre_match flags_list name room
         | None => Some (1, None)
         end);
  if truthy res.1 then env_attr_lookup slre_compile slre_match (Some ENV_FLAGS_LIST_STATIC) name room else Some res.

Definition env_flags_init (flags_list : option cstr) (var_entry : ENTRY) : option ENTRY :=
  var_name ← e_key var_entry;
  res ← env_flags_lookup flags_list var_name (ENV_FLAGS_ATTR_MAX_LEN + 1);
  let flags := default [] res.2 in
  if (res.1 =? 0) && (0 <? Z.of_nat (length flags))
  then Some (Entry (e_key var_entry) (e_data var_entry) (e_callback var_entry) (env_parse_flags_to_bin flags))
  else Some var_entry.

Definition set_entry_flags (f : Z) (e : ENTRY) : ENTRY := Entry (e_key e) (e_data e) (e_callback e) f.
Definition clear_flags (e : ENTRY) : ENTRY := set_entry_flags 0 e.

Section Table.
Context (strdup : cstr -> option cstr) (env_callback_init env_flags_init : ENTRY -> ENTRY) (n : nat).

Definition set_flags (name : cstr) (value : option cstr) (h : hsearch_data) : option (Z * hsearch_data) :=
  a ← hsearch_r strdup env_callback_init env_flags_init n name None FIND h 0;
  match a_val a with
  | None => Some (0, h)
  | Some idx =>
      b ← get_bucket h idx;
      let f := match value with None | Some [] => 0 | Some v => env_parse_flags_to_bin v end in
      h ← set_bucket h idx (Bucket (b_used b) (set_entry_flags f (b_entry b)));
      Some (0, h)
  end.

Definition on_flags (value : option cstr) (h : hsearch_data) : option hsearch_data :=
  h ← hwalk_update clear_flags h;
  res ← env_attr_walk set_flags (Some ENV_FLAGS_LIST_STATIC) h;
  res ← env_attr_walk set_flags value res.2;
  Some res.2.
End Table.
End Lists.

(** ** The values of a type *)
Definition digit (hex : bool) (c : Z) : bool := if hex then isxdigit c else isdigit c.
Definition digits (hex : bool) (s : cstr) : Prop := Forall (fun c => digit hex c = true) s.

(** [digits] in base 16, or "0x" and at least one of them. *)
Definition hex_prefixed (s : cstr) (P : cstr -> Prop) : Prop :=
  exists x ds, s = 48 :: x :: ds /\ (x = 120 \/ x = 88) /\ ds <> [] /\ P ds.
Definition hex_number (s : cstr) : Prop := digits true s \/ hex_prefixed s (digits true).

(** A part of an IP address: one to three digits; of a MAC address: one or two
    hexadecimal digits, with or without "0x". *)
Definition ip_part (s : cstr) : Prop := s <> [] /\ digits false s /\ (length s <= 3)%nat.
Definition mac_digits (s : cstr) : Prop := digits true s /\ (length s <= 2)%nat.
Definition mac_part (s : cstr) : Prop := s <> [] /\ mac_digits s \/ hex_prefixed s mac_digits.

Definition conforms (type : Z) (s : cstr) : Prop :=
  if type =? env_flags_vartype_decimal then digits false s
  else if type =? env_flags_vartype_hex then hex_number s
  else if type =? env_flags_vartype_bool then exists c, c ∈ bool_chars /\ s = [c]
  else if type =? env_flags_vartype_ipaddr then
    exists ps, length ps = 4%nat /\ Forall ip_part ps /\ s = intercalate 46 ps
  else if type =? env_flags_vartype_macaddr then
    exists ps, length ps = 6%nat /\ Forall mac_part ps /\ s = intercalate 58 ps
  else type <> env_flags_vartype_end.

(** No NUL inside. *)
Definition string (s : cstr) : Prop := Forall (fun c => c <> 0) s.

(** *** Scanning digits *)
Definition ends_with (rest : cstr) (hex : bool) : Prop := match rest with [] => True | c :: _ => digit hex c = false end.

Lemma skip_digits_app hex ds rest i : digits hex ds -> i < 0 \/ Z.of_nat (length ds) <= i ->
  ends_with rest hex -> skip_digits hex (ds ++ rest) i = rest.
Proof.
  revert i. induction ds as [|d ds IH]; intros i Hds Hi Hr; cbn [app].
  - destruct rest as [|c rest]; cbn [skip_digits]; [by destruct (i =? 0)|]. cbn in Hr. unfold digit in Hr. rewrite Hr.
    by destruct (i =? 0).
  - apply list.Forall_cons in Hds as [Hd Hds]. cbn [skip_digits length] in *. destruct (Z.eqb_spec i 0); [lia|].
    unfold digit in Hd. rewrite Hd. apply IH; [done|lia|done].
Qed.

Lemma skip_digits_split hex value i : exists ds,
  value = ds ++ skip_digits hex value i /\ digits hex ds /\ (0 <= i -> Z.of_nat (length ds) <= i).
Proof.
  revert i. induction value as [|c value IH]; intros i; cbn [skip_digits].
  - exists []. destruct (i =? 0); (split; [done|]; split; [by apply list.Forall_nil|simpl; lia]).
  - destruct (Z.eqb_spec i 0); [exists []; split; [done|]; split; [by apply list.Forall_nil|simpl; lia]|].
    destruct (if hex then isxdigit c else isdigit c) eqn:E;
      [|exists []; split; [done|]; split; [by apply list.Forall_nil|simpl; lia]].
    destruct (IH (i - 1)) as (ds & Ev & Hds & Hl). exists (c :: ds). split; [by rewrite Ev at 1|].
    split; [by apply list.Forall_cons|]. intros Hi. simpl. lia.
Qed.

Lemma x_not_digit x : x = 120 \/ x = 88 -> digit true x = false.
Proof. by intros [->| ->]. Qed.

(** What [skip_num] leaves and what it takes, for hexadecimal numbers. *)
Lemma is_hex_prefix_true s : is_hex_prefix s = true <-> exists x ds, s = 48 :: x :: ds /\ (x = 120 \/ x = 88).
Proof.
  unfold is_hex_prefix. rewrite andb_true_iff, orb_true_iff, !Z.eqb_eq. split.
  - intros [H0 Hx]. destruct s as [|c [|x ds]]; cbn in *; [lia|lia|]. subst c. by exists x, ds.
  - by intros (x & ds & -> & Hx).
Qed.

Lemma same_ptr_app a b : same_ptr (a ++ b) b = bool_decide (a = []).
Proof.
  unfold same_ptr. rewrite length_app. case_bool_decide as E; [subst a; apply Nat.eqb_refl|].
  apply Nat.eqb_neq. destruct a; [done|]. simpl. lia.
Qed.

Lemma deref_0 s : string s -> (deref s =? 0) = bool_decide (s = []).
Proof.
  intros Hs. destruct s as [|c s]; [done|]. apply list.Forall_cons in Hs as [Hc _]. cbn.
  by destruct (Z.eqb_spec c 0).
Qed.
Lemma deref_sep c s : c <> 0 -> deref s = c <-> exists r, s = c :: r.
Proof. intros Hc. destruct s as [|x s]; cbn; split; [congruence|by intros [? ?]|by intros ->; exists s|by intros [r [= -> _]]]. Qed.

(** *** A sequence of parts with a separator *)
Section Parts.
Context (part : cstr -> Prop) (scan : cstr -> cstr) (bad : cstr -> bool) (sep : Z) (Hsep : sep <> 0).
Context (scan_complete : forall g rest, part g -> rest = [] \/ (exists r, rest = sep :: r) ->
  scan (g ++ rest) = rest /\ bad (g ++ rest) = false).
Context (scan_sound : forall cur, bad cur = false -> exists g, part g /\ cur = g ++ scan cur).

Fixpoint parts_loop (n : nat) (last i : Z) (cur : cstr) : Z :=
  match n with
  | O => 0
  | S n =>
      let end_ := scan cur in
      if bad cur then -1
      else if negb (i =? last) && negb (deref end_ =? sep) then -1
      else if (i =? last) && negb (deref end_ =? 0) then -1
      else parts_loop n last (i + 1) (drop 1 end_)
  end.

Lemma parts_loop_range n last i cur : parts_loop n last i cur = 0 \/ parts_loop n last i cur = -1.
Proof.
  revert i cur. induction n as [|n IH]; intros i cur; [by left|]. cbn [parts_loop]. cbv zeta.
  repeat case_match; auto.
Qed.

Lemma run_parts_loop n last i cur : (0 < n)%nat -> Z.of_nat n + i = last + 1 -> string cur ->
  parts_loop n last i cur = 0 <-> exists ps, length ps = n /\ Forall part ps /\ cur = intercalate sep ps.
Proof.
  revert i cur. induction n as [|n IH]; intros i cur Hn Hi Hcur; [lia|]. cbn [parts_loop]. cbv zeta. clear Hn.
  destruct (bad cur) eqn:Ebad.
  { split; [done|]. intros (ps & Hl & Hps & ->). destruct ps as [|g ps]; [done|].
    apply list.Forall_cons in Hps as [Hg _]. destruct ps as [|g' ps]; cbn [intercalate] in Ebad.
    - destruct (scan_complete g [] Hg ltac:(by left)) as [_ Hb]. rewrite app_nil_r in Hb. congruence.
    - destruct (scan_complete g (sep :: intercalate sep (g' :: ps)) Hg ltac:(right; by eexists)) as [_ Hb].
      cbn [intercalate] in Hb. congruence. }
  destruct (scan_sound cur Ebad) as (g & Hg & Ecur).
  assert (string (scan cur)) as Hend by (rewrite Ecur in Hcur; by apply Forall_app in Hcur as [_ ?]).
  destruct (Z.eqb_spec i last) as [->|Hne]; cbn [negb andb].
  - assert (n = 0%nat) as -> by lia. rewrite deref_0 by done. case_bool_decide as Enil; cbn [negb andb parts_loop].
    + rewrite Enil, app_nil_r in Ecur. split; [intros _|done]. exists [g]. rewrite Ecur.
      split; [done|]. split; [by apply list.Forall_cons|done].
    + split; [done|]. intros (ps & Hl & Hps & E). destruct ps as [|g' [|? ?]]; [done| |done].
      apply list.Forall_cons in Hps as [Hg' _]. cbn [intercalate] in E. exfalso. apply Enil.
      destruct (scan_complete g' [] Hg' ltac:(by left)) as [Es _]. rewrite app_nil_r in Es. by rewrite E.
  - destruct (Z.eqb_spec (deref (scan cur)) sep) as [Es|Es]; cbn [negb].
    + apply deref_sep in Es as [r Er]; [|done]. rewrite Er in *. cbn [drop].
      assert (string r) as Hr by by apply list.Forall_cons in Hend as [_ ?].
      rewrite drop_0, (IH (i + 1) r) by (done || lia). split; intros (ps & Hl & Hps & E).
      * exists (g :: ps). split; [simpl; lia|]. split; [by apply list.Forall_cons|]. rewrite Ecur, E.
        destruct ps as [|g' ps]; [simpl in Hl; lia|]. done.
      * destruct ps as [|g' [|g2 ps]]; [done|simpl in Hl; lia|]. apply list.Forall_cons in Hps as [Hg' Hps].
        exists (g2 :: ps). split; [simpl in *; lia|]. split; [done|].
        change (cur = g' ++ sep :: intercalate sep (g2 :: ps)) in E.
        destruct (scan_complete g' (sep :: intercalate sep (g2 :: ps)) Hg' ltac:(right; by eexists)) as [Es _].
        rewrite <- E, Er in Es. by injection Es.
    + split; [done|]. intros (ps & Hl & Hps & E). exfalso. apply Es. destruct ps as [|g' [|g2 ps]]; [done|simpl in Hl; lia|].
      apply list.Forall_cons in Hps as [Hg' Hps]. change (cur = g' ++ sep :: intercalate sep (g2 :: ps)) in E.
      destruct (scan_complete g' (sep :: intercalate sep (g2 :: ps)) Hg' ltac:(right; by eexists)) as [Es' _].
      rewrite <- E in Es'. by rewrite Es'.
Qed.
End Parts.

(** *** The loops over addresses *)
Lemma skip_num_decimal s i : skip_num false s i = skip_digits false s i.
Proof. done. Qed.
Lemma skip_num_hex s i : is_hex_prefix s = false -> skip_num true s i = skip_digits true s i.
Proof. unfold skip_num. by intros ->. Qed.
Lemma skip_num_prefixed x ds i : x = 120 \/ x = 88 -> skip_num true (48 :: x :: ds) i = skip_digits true ds i.
Proof. by intros [->| ->]. Qed.

(** "0x" is no pair of digits. *)
Lemma digits_no_prefix ds rest : ds <> [] -> digits true ds -> ends_with rest true ->
  match rest with [] => True | c :: _ => c <> 120 /\ c <> 88 end -> is_hex_prefix (ds ++ rest) = false.
Proof.
  intros Hne Hds Hr Hrest. apply not_true_iff_false. rewrite is_hex_prefix_true. intros (x & r & E & Hx).
  destruct ds as [|d [|d2 ds]]; [done| |].
  - cbn [app] in E. injection E as -> ->. destruct Hx; lia.
  - injection E as -> -> _. apply list.Forall_cons in Hds as [_ [Hd2 _]%list.Forall_cons].
    by rewrite x_not_digit in Hd2.
Qed.

Lemma ip_scan_complete g rest : ip_part g -> rest = [] \/ (exists r, rest = 46 :: r) ->
  skip_num false (g ++ rest) 3 = rest /\ same_ptr (g ++ rest) (skip_num false (g ++ rest) 3) = false.
Proof.
  intros (Hne & Hg & Hl) Hrest. rewrite skip_num_decimal.
  rewrite skip_digits_app; [|done|right; lia|by destruct Hrest as [->|[r ->]]].
  split; [done|]. rewrite same_ptr_app. by apply bool_decide_eq_false.
Qed.
Lemma ip_scan_sound cur : same_ptr cur (skip_num false cur 3) = false ->
  exists g, ip_part g /\ cur = g ++ skip_num false cur 3.
Proof.
  rewrite skip_num_decimal. destruct (skip_digits_split false cur 3) as (ds & E & Hds & Hl). intros Hs.
  exists ds. split; [|done]. rewrite E in Hs at 1. rewrite same_ptr_app, bool_decide_eq_false in Hs.
  specialize (Hl ltac:(lia)). split; [done|]. split; [done|lia].
Qed.

Definition mac_bad (cur : cstr) : bool :=
  same_ptr cur (skip_num true cur 2) || (same_ptr (drop 2 cur) (skip_num true cur 2) && is_hex_prefix cur).

Lemma mac_scan_complete g rest : mac_part g -> rest = [] \/ (exists r, rest = 58 :: r) ->
  skip_num true (g ++ rest) 2 = rest /\ mac_bad (g ++ rest) = false.
Proof.
  intros Hg Hrest. assert (ends_with rest true) as He by by destruct Hrest as [->|[r ->]].
  assert (skip_num true (g ++ rest) 2 = rest) as Es.
  { destruct Hg as [(Hne & Hds & Hl)|(x & ds & -> & Hx & Hne & Hds & Hl)].
    - rewrite skip_num_hex; [|apply digits_no_prefix; try done; by destruct Hrest as [->|[r ->]]].
      apply skip_digits_app; [done|right; lia|done].
    - cbn [app]. rewrite skip_num_prefixed by done. apply skip_digits_app; [done|right; lia|done]. }
  split; [done|]. unfold mac_bad. rewrite Es, same_ptr_app.
  destruct Hg as [(Hne & Hds & Hl)|(x & ds & -> & Hx & Hne & Hds & Hl)].
  - rewrite bool_decide_eq_false_2 by done. rewrite digits_no_prefix; try done; [by rewrite andb_false_r|].
    by destruct Hrest as [->|[r ->]].
  - rewrite bool_decide_eq_false_2 by done. cbn [app drop]. rewrite drop_0, same_ptr_app. by rewrite bool_decide_eq_false_2.
Qed.

Lemma mac_scan_sound cur : mac_bad cur = false -> exists g, mac_part g /\ cur = g ++ skip_num true cur 2.
Proof.
  unfold mac_bad. rewrite orb_false_iff. intros [H1 H2]. destruct (is_hex_prefix cur) eqn:Ep.
  - apply is_hex_prefix_true in Ep as (x & r & -> & Hx). rewrite andb_true_r in H2. cbn [drop] in H2.
    rewrite skip_num_prefixed in * by done. rewrite drop_0 in H2.
    destruct (skip_digits_split true r 2) as (ds & E & Hds & Hl). rewrite E in H2 at 1.
    rewrite same_ptr_app, bool_decide_eq_false in H2. exists (48 :: x :: ds). split; [|cbn [app]; by rewrite E at 1].
    right. exists x, ds. specialize (Hl ltac:(lia)). do 3 (split; [done|]). split; [done|lia].
  - rewrite skip_num_hex in * by done. destruct (skip_digits_split true cur 2) as (ds & E & Hds & Hl).
    rewrite E in H1 at 1. rewrite same_ptr_app, bool_decide_eq_false in H1. exists ds. split; [|done].
    left. specialize (Hl ltac:(lia)). split; [done|]. split; [done|lia].
Qed.

Lemma ipaddr_loop_parts n i cur :
  ipaddr_loop n i cur = parts_loop (fun c => skip_num false c 3) (fun c => same_ptr c (skip_num false c 3)) 46 n 3 i cur.
Proof.
  revert i cur. induction n as [|n IH]; intros i cur; [done|]. cbn [ipaddr_loop parts_loop]. cbv zeta. by rewrite IH.
Qed.
Lemma ethaddr_loop_parts n i cur :
  ethaddr_loop n i cur = parts_loop (fun c => skip_num true c 2) mac_bad 58 n 5 i cur.
Proof.
  revert i cur. induction n as [|n IH]; intros i cur; [done|]. cbn [ethaddr_loop parts_loop]. cbv zeta.
  unfold mac_bad at 1. rewrite IH. by destruct (same_ptr cur _).
Qed.

Lemma run_ipaddr value : string value ->
  ipaddr_loop 4 0 value = 0 <-> exists ps, length ps = 4%nat /\ Forall ip_part ps /\ value = intercalate 46 ps.
Proof.
  intros Hs. rewrite ipaddr_loop_parts.
  apply run_parts_loop; [done|apply ip_scan_complete|apply ip_scan_sound|lia|lia|done].
Qed.
Lemma run_ethaddr value : string value ->
  eth_validate_ethaddr_str value = 0 <->
  exists ps, length ps = 6%nat /\ Forall mac_part ps /\ value = intercalate 58 ps.
Proof.
  intros Hs. unfold eth_validate_ethaddr_str. rewrite ethaddr_loop_parts.
  apply run_parts_loop; [done|apply mac_scan_complete|apply mac_scan_sound|lia|lia|done].
Qed.

(** *** Numbers of any length *)
Lemma skip_all hex s : string s -> deref (skip_digits hex s (-1)) = 0 <-> digits hex s.
Proof.
  intros Hs. destruct (skip_digits_split hex s (-1)) as (ds & E & Hds & _).
  assert (string (skip_digits hex s (-1))) as Hr by (rewrite E in Hs; by apply Forall_app in Hs as [_ ?]).
  rewrite <- Z.eqb_eq, deref_0, bool_decide_eq_true by done. split.
  - intros En. by rewrite E, En, app_nil_r.
  - intros Hd. pose proof (skip_digits_app hex s [] (-1) Hd ltac:(lia) I) as En. by rewrite app_nil_r in En.
Qed.

Lemma run_hex s : string s ->
  (if negb (deref (skip_num true s (-1)) =? 0) then -1
   else if same_ptr (drop 2 s) (skip_num true s (-1)) && is_hex_prefix s then -1 else 0) = 0 <-> hex_number s.
Proof.
  intros Hs. unfold hex_number. destruct (is_hex_prefix s) eqn:Ep.
  - pose proof Ep as (x & ds & -> & Hx)%is_hex_prefix_true. rewrite skip_num_prefixed by done. cbn [drop]. rewrite drop_0.
    assert (string ds) as Hds by by apply list.Forall_cons in Hs as [_ [_ ?]%list.Forall_cons].
    rewrite andb_true_r. destruct (Z.eqb_spec (deref (skip_digits true ds (-1))) 0) as [E|E]; cbn [negb].
    + apply skip_all in E as Hd; [|done].
      pose proof (skip_digits_app true ds [] (-1) Hd ltac:(lia) I) as En. rewrite app_nil_r in En. rewrite En.
      pose proof (same_ptr_app ds []) as Esame. rewrite app_nil_r in Esame. rewrite Esame. case_bool_decide as Enil.
      * split; [done|]. subst ds. intros [H|(y & ds & [= _ <-] & _ & ? & _)]; [|done].
        apply list.Forall_cons in H as [_ [H _]%list.Forall_cons]. by rewrite x_not_digit in H.
      * split; [|done]. intros _. right. by exists x, ds.
    + split; [done|]. rewrite skip_all in E by done. intros [H|(y & ds' & [= -> ->] & _ & _ & H)]; [|done].
      by apply list.Forall_cons in H as [_ [_ ?]%list.Forall_cons].
  - rewrite skip_num_hex, andb_false_r by done.
    transitivity (digits true s).
    + rewrite <- skip_all by done. by destruct (Z.eqb_spec (deref (skip_digits true s (-1))) 0).
    + split; [by left|]. intros [?|(x & ds & -> & Hx & _)]; [done|]. exfalso. apply not_true_iff_false in Ep.
      apply Ep. rewrite is_hex_prefix_true. by exists x, ds.
Qed.

Lemma run_bool s : string s ->
  (if negb (existsb (Z.eqb (deref s)) bool_chars) then -1
   else if negb (deref (drop 1 s) =? 0) then -1 else 0) = 0 <-> exists c, c ∈ bool_chars /\ s = [c].
Proof.
  intros Hs. destruct (existsb (Z.eqb (deref s)) bool_chars) eqn:E; cbn [negb].
  - apply existsb_exists in E as (c & Hc & Ec%Z.eqb_eq). destruct s as [|x s].
    { cbn [deref] in Ec. subst c. by repeat (destruct Hc as [Hc|Hc]; [done|]). }
    cbn [deref drop] in *. subst x. rewrite drop_0. apply list.Forall_cons in Hs as [_ Hs]. rewrite deref_0 by done.
    case_bool_decide as En; cbn [negb].
    + split; [|done]. intros _. exists c. subst s. split; [by apply list_elem_of_In|done].
    + split; [done|]. by intros (c' & _ & [= _ ->]).
  - split; [done|]. intros (c & Hc & ->). apply not_true_iff_false in E. exfalso. apply E, existsb_exists.
    exists c. split; [by apply list_elem_of_In|apply Z.eqb_refl].
Qed.

Lemma validate_type_range value type : _env_flags_validate_type value type = 0 \/ _env_flags_validate_type value type = -1.
Proof.
  unfold _env_flags_validate_type. cbv zeta. rewrite ipaddr_loop_parts.
  pose proof (parts_loop_range (fun c => skip_num false c 3) (fun c => same_ptr c (skip_num false c 3)) 46 4 3 0 value).
  repeat case_match; auto.
Qed.

Lemma run_validate_type value type : string value -> _env_flags_validate_type value type = 0 <-> conforms type value.
Proof.
  intros Hs. unfold _env_flags_validate_type, conforms. cbv zeta.
  destruct (Z.eqb_spec type env_flags_vartype_string) as [->|]; [by cbn|].
  destruct (type =? env_flags_vartype_decimal).
  { rewrite skip_num_decimal, <- skip_all by done. by destruct (Z.eqb_spec (deref (skip_digits false value (-1))) 0). }
  destruct (type =? env_flags_vartype_hex); [by apply run_hex|].
  destruct (type =? env_flags_vartype_bool); [by apply run_bool|].
  destruct (type =? env_flags_vartype_ipaddr); [by apply run_ipaddr|].
  destruct (type =? env_flags_vartype_macaddr).
  { rewrite <- run_ethaddr by done. destruct (truthy _) eqn:E; [apply truthy_true in E|apply truthy_false in E]; done. }
  by destruct (Z.eqb_spec type env_flags_vartype_end).
Qed.

(** *** The permission check *)

(** The value has the type that the entry's flags say. *)
Definition well_typed (e : ENTRY) : Prop :=
  exists d, e_data e = Some d /\ _env_flags_validate_type d (ENV_FLAGS_VARTYPE_BIN_MASK .& e_flags e) = 0.

(** What each kind of access allows without force; [default_value]: the variable
    has the value of the default environment. *)
Definition allows (access : Z) (op : env_op) (default_value : bool) : bool :=
  match op with
  | env_op_create => negb (access =? env_flags_varaccess_readonly)
  | env_op_delete => access =? env_flags_varaccess_any
  | env_op_overwrite =>
      (access =? env_flags_varaccess_any) || ((access =? env_flags_varaccess_changedefault) && default_value)
  end.

Section Access.
Context (getenv_default : cstr -> option cstr).

#[export] Instance enforces_types : Enforces (Some (change_ok_flags getenv_default)) well_typed.
Proof.
  assert (forall e d op flag, op <> env_op_delete ->
    refuses (Some (change_ok_flags getenv_default)) e (Some d) op flag = false ->
    _env_flags_validate_type d (ENV_FLAGS_VARTYPE_BIN_MASK .& e_flags e) = 0) as H.
  { intros e d op flag Hop Hr%truthy_false. unfold change_ok_flags, env_flags_validate in Hr.
    cbv zeta in Hr.
    destruct (validate_type_range d (ENV_FLAGS_VARTYPE_BIN_MASK .& e_flags e)) as [?|E]; [done|].
    change (default [] (Some d)) with d in Hr. rewrite E in Hr. by destruct op. }
  constructor.
  - intros e d flag Ed Hr. exists d. split; [done|]. by apply (H e d env_op_create flag).
  - intros e d flag _ Hr. exists d. split; [done|]. by apply (H e d env_op_overwrite flag).
Qed.

Lemma refuses_denies h e d op flag : h_change_ok h = Some (change_ok_flags getenv_default) ->
  denies h e d op flag = negb (default (-1) (env_flags_validate getenv_default e d op flag) =? 0).
Proof. intros E. unfold denies. rewrite E. done. Qed.

(** Entries without flags may be changed in every way. *)
Lemma approves_flags h : h_change_ok h = Some (change_ok_flags getenv_default) -> approves h.
Proof.
  intros E f Hf e d op flag Hfl. rewrite E in Hf. injection Hf as <-. unfold change_ok_flags, env_flags_validate.
  rewrite Hfl. by destruct op, (truthy (flag .& H_FORCE)).
Qed.

(** A read-only entry: no value may be written and it may not be deleted. *)
Definition readonly (e : ENTRY) : Prop :=
  (e_flags e .& ENV_FLAGS_VARACCESS_PREVENT_OVERWR) <> 0 /\ (e_flags e .& ENV_FLAGS_VARACCESS_PREVENT_DELETE) <> 0.

Lemma readonly_refused h e k d op flag : h_change_ok h = Some (change_ok_flags getenv_default) ->
  e_key e = Some k -> readonly e -> flag .& H_FORCE = 0 -> op <> env_op_create -> denies h e d op flag = true.
Proof.
  intros Hc Ek [Ho Hd] Hf Hop. rewrite refuses_denies by done. unfold env_flags_validate. rewrite Ek, Hf.
  cbn [mbind option_bind]. change (truthy 0) with false. cbv iota.
  rewrite (proj2 (truthy_true (e_flags e .& ENV_FLAGS_VARACCESS_PREVENT_OVERWR)) Ho),
    (proj2 (truthy_true (e_flags e .& ENV_FLAGS_VARACCESS_PREVENT_DELETE)) Hd). destruct op; [done|done|by case_match].
Qed.
End Access.

(** The letters of the six types and of the four kinds of access. *)
Definition flags_of (type access : Z) : Z :=
  env_parse_flags_to_bin [nth (Z.to_nat type) env_flags_vartype_rep 0; nth (Z.to_nat access) env_flags_varaccess_rep 0].

Definition access_bits (access : Z) : Z * Z * Z * Z :=
  let f := nth (Z.to_nat access) env_flags_varaccess_mask 0 in
  (f .& ENV_FLAGS_VARACCESS_PREVENT_DELETE, f .& ENV_FLAGS_VARACCESS_PREVENT_CREATE,
   f .& ENV_FLAGS_VARACCESS_PREVENT_OVERWR, f .& ENV_FLAGS_VARACCESS_PREVENT_NONDEF_OVERWR).

(** The type and the access bits are what the flags say, for all letters. *)
Lemma flags_of_parts : forallb (fun type => forallb (fun access =>
  let f := flags_of type access in
  (ENV_FLAGS_VARTYPE_BIN_MASK .& f =? type) && (env_flags_parse_varaccess_from_binflags f =? access) &&
  bool_decide ((f .& ENV_FLAGS_VARACCESS_PREVENT_DELETE, f .& ENV_FLAGS_VARACCESS_PREVENT_CREATE,
    f .& ENV_FLAGS_VARACCESS_PREVENT_OVERWR, f .& ENV_FLAGS_VARACCESS_PREVENT_NONDEF_OVERWR) = access_bits access))
  (seqZ 0 4)) (seqZ 0 6) = true.
Proof. vm_compute. reflexivity. Qed.

Lemma flags_of_spec type access : 0 <= type < 6 -> 0 <= access < 4 ->
  let f := flags_of type access in
  ENV_FLAGS_VARTYPE_BIN_MASK .& f = type /\ env_flags_parse_varaccess_from_binflags f = access /\
  (f .& ENV_FLAGS_VARACCESS_PREVENT_DELETE, f .& ENV_FLAGS_VARACCESS_PREVENT_CREATE,
   f .& ENV_FLAGS_VARACCESS_PREVENT_OVERWR, f .& ENV_FLAGS_VARACCESS_PREVENT_NONDEF_OVERWR) = access_bits access.
Proof.
  intros Ht Ha f. pose proof flags_of_parts as H. rewrite forallb_forall in H.
  specialize (H type ltac:(apply list_elem_of_In, elem_of_seqZ; lia)). rewrite forallb_forall in H.
  specialize (H access ltac:(apply list_elem_of_In, elem_of_seqZ; lia)). fold f in H.
  rewrite !andb_true_iff, !Z.eqb_eq, bool_decide_eq_true in H. by destruct H as [[? ?] ?].
Qed.

Lemma truthy_strcmp a b : Forall (fun c => 1 <= c <= 255) a -> Forall (fun c => 1 <= c <= 255) b ->
  truthy (strcmp a b) = negb (bool_decide (a = b)).
Proof.
  intros Ha Hb. case_bool_decide as E; [subst b; by rewrite strcmp_refl|]. apply truthy_true. intros H.
  by apply E, strcmp_eq.
Qed.

(** C19: the values accepted for a variable are exactly the texts of its type: any
    string; decimal digits; hexadecimal digits, also after "0x" if there is at least
    one; one character of "1ytYT0nfNF"; four groups of one to three digits separated
    by dots; six groups of one or two hexadecimal digits separated by colons.  Every
    other string is refused with -1. *)
Theorem env_types_exact value type : string value ->
  (_env_flags_validate_type value type = 0 <-> conforms type value) /\
  (_env_flags_validate_type value type = 0 \/ _env_flags_validate_type value type = -1).
Proof. intros Hs. split; [by apply run_validate_type|apply validate_type_range]. Qed.

(** "10.0.0.300" *)
Lemma env_types_exact_witness :
  let value := [49; 48; 46; 48; 46; 48; 46; 51; 48; 48] in
  (_env_flags_validate_type value 4 = 0 <-> conforms 4 value) /\
  (_env_flags_validate_type value 4 = 0 \/ _env_flags_validate_type value 4 = -1).
Proof. exact (env_types_exact [49; 48; 46; 48; 46; 48; 46; 51; 48; 48] 4 ltac:(by repeat constructor)). Defined.

Lemma op_dec (a b : env_op) : {a = b} + {a <> b}.
Proof. decide equality. Defined.

Lemma access_check (getenv_default : cstr -> option cstr) type access k d op : 0 <= type < 6 -> 0 <= access < 4 ->
  Forall (fun c => 1 <= c <= 255) d -> Forall (fun c => 1 <= c <= 255) (default [] (getenv_default k)) ->
  match op with
  | env_op_create => Some (if truthy (flags_of type access .& ENV_FLAGS_VARACCESS_PREVENT_CREATE) then 1 else 0)
  | env_op_delete => Some (if truthy (flags_of type access .& ENV_FLAGS_VARACCESS_PREVENT_DELETE) then 1 else 0)
  | env_op_overwrite =>
      if truthy (flags_of type access .& ENV_FLAGS_VARACCESS_PREVENT_OVERWR) then Some 1
      else if truthy (flags_of type access .& ENV_FLAGS_VARACCESS_PREVENT_NONDEF_OVERWR) then
        oldval ← match op with env_op_create => None | _ => Some d end;
        Some (if truthy (strcmp oldval (default [] (getenv_default k))) then 1 else 0)
      else Some 0
  end = Some 0 <-> allows access op (bool_decide (d = default [] (getenv_default k))) = true.
Proof.
  intros Ht Ha Hd Hdef. destruct (flags_of_spec type access Ht Ha) as (_ & _ & Ebits). injection Ebits as -> -> -> ->.
  assert (access = 0 \/ access = 1 \/ access = 2 \/ access = 3) as [->|[->|[->| ->]]] by lia; destruct op; try done.
  change (match env_op_overwrite with env_op_create => None | _ => Some d end) with (Some d). cbn [mbind option_bind].
  rewrite truthy_strcmp by done. by case_bool_decide.
Qed.

(** a change of a variable is allowed exactly when the new value has the
    variable's type and, unless it is forced, the variable's access allows it: "a"
    everything; "r" neither creating, overwriting nor deleting; "o" only creating;
    "c" creating, and overwriting as long as it has its default value. *)
Theorem env_access getenv_default type access k d callback v op flag :
  0 <= type < 6 -> 0 <= access < 4 -> string v ->
  Forall (fun c => 1 <= c <= 255) d -> Forall (fun c => 1 <= c <= 255) (default [] (getenv_default k)) ->
  env_flags_validate getenv_default (Entry (Some k) (Some d) callback (flags_of type access)) (Some v) op flag = Some 0 <->
  (op = env_op_delete \/ conforms type v) /\
  (flag .& H_FORCE <> 0 \/ allows access op (bool_decide (d = default [] (getenv_default k))) = true).
Proof.
  intros Ht Ha Hv Hd Hdef. unfold env_flags_validate. cbn [e_key e_data e_flags mbind option_bind].
  pose proof (access_check getenv_default type access k d op Ht Ha Hd Hdef) as Hacc.
  destruct (flags_of_spec type access Ht Ha) as (-> & _ & _). change (default [] (Some v)) with v.
  rewrite <- run_validate_type by done. pose proof (validate_type_range v type) as Hr.
  destruct (op_dec op env_op_delete) as [->|Hop].
  - destruct (truthy (flag .& H_FORCE)) eqn:Ef; [apply truthy_true in Ef|apply truthy_false in Ef; rewrite Ef, Hacc]; tauto.
  - destruct (Z.ltb_spec (_env_flags_validate_type v type) 0) as [Hlt|Hge].
    + destruct op; [|done|]; (split; [done|]); intros [[?|?] _]; done || lia.
    + assert (_env_flags_validate_type v type = 0) as Ev by lia. replace (match op with env_op_delete => false | _ => false end) with false by by destruct op.
      destruct (truthy (flag .& H_FORCE)) eqn:Ef; [apply truthy_true in Ef|apply truthy_false in Ef; rewrite Ef, Hacc]; tauto.
Qed.

Lemma env_access_witness :
  let e := Entry (Some [107]) (Some [49]) None (flags_of 1 3) in
  (env_flags_validate (fun _ => Some [49]) e (Some [50]) env_op_overwrite 0 = Some 0 <->
   (env_op_overwrite = env_op_delete \/ conforms 1 [50]) /\
   (0 .& H_FORCE <> 0 \/ allows 3 env_op_overwrite (bool_decide ([49] = default [] (Some [49]))) = true)).
Proof.
  exact (env_access (fun _ => Some [49]) 1 3 [107] [49] None [50] env_op_overwrite 0 ltac:(lia) ltac:(lia)
    ltac:(by repeat constructor) ltac:(by repeat constructor) ltac:(by repeat constructor)).
Defined.


(** a variable whose flags make it read-only keeps its value: setting it and
    deleting it without force answer 0, set [EPERM] and leave the table as it is. *)
Theorem env_readonly_kept getenv_default strdup env_callback_init env_flags_init h t m n k d d' flag :
  (forall s, strdup s = Some s) ->
  represents h t m -> (Z.to_nat (h_size h) <= n)%nat -> h_change_ok h = Some (change_ok_flags getenv_default) ->
  m !! k = Some d -> (forall b, b ∈ t -> 0 < b_used b -> e_key (b_entry b) = Some k -> readonly (b_entry b)) ->
  flag .& H_FORCE = 0 ->
  hsearch_r strdup env_callback_init env_flags_init n k (Some d') ENTER h flag = Some (Answer 0 None (Some EPERM) h) /\
  hdelete_r strdup env_callback_init env_flags_init n k h flag = Some (0, Some EPERM, h).
Proof.
  intros Hdup Hrep Hn Hc Em Hro Hf. split.
  - destruct (enter_present strdup env_callback_init env_flags_init Hdup h t m Hrep n k d' d flag Hn Em)
      as (x & b & Hx & Eb & [Hu Ek] & H).
    rewrite (readonly_refused getenv_default _ _ k) in H; try done.
    apply Hro; [by apply (list_elem_of_lookup_2 _ (Z.to_nat x))|done|done].
  - pose proof (delete_spec strdup env_callback_init env_flags_init h t m n k flag Hrep Hn) as H.
    rewrite Em in H. destruct H as (b & Hb & [Hu Ek] & H).
    rewrite (readonly_refused getenv_default _ _ k) in H; try done. by apply Hro.
Qed.

(** A checked table in which every variable is write-once text. *)
Definition checked_five : hsearch_data :=
  Htab (h_table five) (h_size five) (h_filled five) (Some (change_ok_flags (fun _ => None))).
Definition locked : hsearch_data :=
  match execute_all Some id (set_entry_flags (flags_of 0 2)) 5 [Setenv [97] [49]] checked_five 0 with
  | Some (_, h) => h
  | None => checked_five
  end.
Definition locked_table : list bucket := default [] (h_table locked).

Lemma checked_five_empty : represents checked_five (replicate 6 no_bucket) ∅.
Proof. constructor; cbn; [reflexivity|exact prime_5|lia|exact (empty_table_ok 5 ltac:(lia))|reflexivity]. Qed.

Lemma locked_run : exists h, execute_all Some id (set_entry_flags (flags_of 0 2)) 5 [Setenv [97] [49]] checked_five 0 = Some ([1], h) /\
  represents h (default [] (h_table h)) {[ [97] := [49] ]} /\ h_change_ok h = Some (change_ok_flags (fun _ => None)) /\
  h_size h = 5.
Proof.
  destruct (run_execute_all Some id (set_entry_flags (flags_of 0 2)) ltac:(done) ltac:(done) [Setenv [97] [49]] checked_five _ ∅ 5 0
    checked_five_empty) as (rets & h & t & E & Esz & _ & Hrep & _); [simpl; lia|vm_compute; lia|].
  assert (fst <$> execute_all Some id (set_entry_flags (flags_of 0 2)) 5 [Setenv [97] [49]] checked_five 0 = Some [1])
    as E1 by (vm_compute; reflexivity).
  rewrite E in E1. injection E1 as ->. exists h. rewrite (rep_table _ _ _ Hrep). split; [done|]. split; [exact Hrep|].
  split; [|exact Esz].
  destruct (usable_execute_all (Some (change_ok_flags (fun _ => None))) (fun _ => True) Some id (set_entry_flags (flags_of 0 2))
    ltac:(done) ltac:(done) 5 [Setenv [97] [49]] checked_five 0) as (rets & h' & E' & _ & t' & Hs).
  - split; [simpl; lia|]. exists (replicate 6 no_bucket).
    by apply (represents_shaped checked_five _ ∅ (fun _ => True) checked_five_empty).
  - rewrite E in E'. injection E' as _ <-. apply Hs.
Qed.
Lemma locked_spec : represents locked locked_table {[ [97] := [49] ]} /\
  h_change_ok locked = Some (change_ok_flags (fun _ => None)) /\ h_size locked = 5.
Proof. destruct locked_run as (h & E & H). unfold locked_table, locked. rewrite E. exact H. Qed.

Lemma locked_readonly b : b ∈ locked_table -> 0 < b_used b -> e_key (b_entry b) = Some [97] -> readonly (b_entry b).
Proof.
  intros Hb Hu _. assert (Forall (fun b => b_used b <= 0 \/ e_flags (b_entry b) = flags_of 0 2) locked_table) as H.
  { vm_compute. repeat (apply list.Forall_cons_2; [first [by left|by right]|]). apply list.Forall_nil_2. }
  rewrite list.Forall_forall in H. destruct (H b Hb) as [|Ef]; [lia|]. unfold readonly. rewrite Ef. done.
Qed.

Lemma env_readonly_kept_witness :
  hsearch_r Some id id 5 [97] (Some [50]) ENTER locked 0 = Some (Answer 0 None (Some EPERM) locked) /\
  hdelete_r Some id id 5 [97] locked 0 = Some (0, Some EPERM, locked).
Proof.
  apply (env_readonly_kept (fun _ => None) Some id id locked locked_table {[ [97] := [49] ]} 5 [97] [49] [50] 0).
  - reflexivity.
  - exact (proj1 locked_spec).
  - rewrite (proj2 (proj2 locked_spec)). lia.
  - exact (proj1 (proj2 locked_spec)).
  - vm_compute. reflexivity.
  - exact locked_readonly.
  - reflexivity.
Defined.

(** Every variable hexadecimal: "a=0x1f" is taken, "b=no" refused. *)
Definition typed_text : cstr := [97; 61; 48; 120; 49; 102; 10; 98; 61; 110; 111].

(** The entry initialisation of this file leaves name and value alone. *)
Lemma env_flags_init_keeps {slre : Type} (compile : cstr -> option slre) matches static flags_list e e' :
  env_flags_init compile matches static flags_list e = Some e' ->
  e_key e' = e_key e /\ e_data e' = e_data e /\ e_callback e' = e_callback e.
Proof.
  unfold env_flags_init. destruct (e_key e) as [k|] eqn:Ek; [|done]. cbn [mbind option_bind].
  destruct (env_flags_lookup _ _ _ _ _ _); [|done]. cbn [mbind option_bind].
  destruct (_ && _); by intros [= <-].
Qed.

(** ** Shortcomings *)

(** An address part may exceed 255, and no digits at all are a number. *)
Lemma types_lax :
  _env_flags_validate_type [57; 57; 57; 46; 48; 46; 48; 46; 48] env_flags_vartype_ipaddr = 0 /\
  _env_flags_validate_type [] env_flags_vartype_decimal = 0 /\ _env_flags_validate_type [] env_flags_vartype_hex = 0.
Proof. vm_compute. done. Qed.

(** With patterns that only match themselves: attributes longer than two bytes
    do not fit the buffer of [env_flags_init]; an entry without attributes that
    matches makes the length of a null pointer's string be taken. *)
Definition literal (re s : cstr) : bool := bool_decide (re = 94 :: s ++ [36]).
Lemma flags_overrun :
  let static := [97; 58; 115; 97; 120] in
  env_flags_init (@Some cstr) literal static None (Entry (Some [97]) (Some [49]) None 0) = None.
Proof. vm_compute. reflexivity. Qed.
Lemma flags_null :
  env_flags_init (@Some cstr) literal [97] None (Entry (Some [97]) (Some [49]) None 0) = None.
Proof. vm_compute. reflexivity. Qed.
(** The static list gives "vlan" the type of an IP address: "100" is refused. *)
Lemma vlan_refused : _env_flags_validate_type [49; 48; 48] (env_flags_parse_vartype [105]) = -1.
Proof. vm_compute. reflexivity. Qed.
