(* ===== verification/EnvCallback.v ===== *)
(** Callbacks of environment variables: uboot/common/env_callback.c and
    include/env_callback.h, built with CONFIG_REGEX.

    [env_clbk] is the linker list of the program's callbacks; [callback_list] is what
    the first call found in the variable ".callbacks". *)
From S2P Require Import Prelude Htab Hexport EnvAttr EnvFlags.

Section Callbacks.
Context (env_clbk : list (cstr * callback_t)).

(** The first callback of that name. *)
Definition find_env_callback (name : option cstr) : option (cstr * callback_t) :=
  match name with
  | None => None
  | Some name => List.find (fun clbkp => strcmp name clbkp.1 =? 0) env_clbk
  end.

Section Init.
Context {slre : Type} (slre_compile : cstr -> option slre) (slre_match : slre -> cstr -> bool).
Context (ENV_CALLBACK_LIST_STATIC : cstr).

Definition set_entry_callback (c : option callback_t) (e : ENTRY) : ENTRY :=
  Entry (e_key e) (e_data e) c (e_flags e).

Definition env_callback_init (callback_list : option cstr) (var_entry : ENTRY) : option ENTRY :=
  var_name ← e_key var_entry;
  res ← (match callback_list with
         | Some _ => env_attr_lookup slre_compile slre_match callback_list var_name 256
         | None => Some (1, None)
         end);
  res ← (if truthy res.1
         then env_attr_lookup slre_compile slre_match (Some ENV_CALLBACK_LIST_STATIC) var_name 256 else Some res);
  let callback_name := default [] res.2 in
  Some (if (res.1 =? 0) && (0 <? Z.of_nat (length callback_name)) then
          match find_env_callback (Some callback_name) with
          | Some clbkp => set_entry_callback (Some clbkp.2) var_entry
          | None => var_entry
          end
        else var_entry).

Definition clear_callback (e : ENTRY) : ENTRY := set_entry_callback None e.

Section Table.
Context (strdup : cstr -> option cstr) (env_callback_init env_flags_init : ENTRY -> ENTRY) (n : nat).

Definition set_callback (name : cstr) (value : option cstr) (h : hsearch_data) : option (Z * hsearch_data) :=
  a ← hsearch_r strdup env_callback_init env_flags_init n name None FIND h 0;
  match a_val a with
  | None => Some (0, h)
  | Some idx =>
      b ← get_bucket h idx;
      let e := b_entry b in
      let e := match value with
               | None | Some [] => set_entry_callback None e
               | Some v => match find_env_callback (Some v) with
                           | Some clbkp => set_entry_callback (Some clbkp.2) e
                           | None => e
                           end
               end in
      h ← set_bucket h idx (Bucket (b_used b) e);
      Some (0, h)
  end.

Definition on_callbacks (value : option cstr) (h : hsearch_data) : option hsearch_data :=
  h ← hwalk_update clear_callback h;
  res ← env_attr_walk set_callback (Some ENV_CALLBACK_LIST_STATIC) h;
  res ← env_attr_walk set_callback value res.2;
  Some res.2.
End Table.
End Init.

(** The initialisation of an entry leaves its name, value and flags alone. *)
Lemma env_callback_init_keeps {slre : Type} (compile : cstr -> option slre) matches static callback_list e e' :
  env_callback_init compile matches static callback_list e = Some e' ->
  e_key e' = e_key e /\ e_data e' = e_data e /\ e_flags e' = e_flags e.
Proof.
  unfold env_callback_init. destruct (e_key e) as [k|] eqn:Ek; [|done]. cbn [mbind option_bind].
  destruct callback_list as [l|]; [destruct (env_attr_lookup _ _ (Some l) _ _) as [r|]; [|done]|]; cbn [mbind option_bind].
  all: (destruct (if truthy _ then _ else _) as [r'|]; [|done]); cbn [mbind option_bind]; intros [= <-].
  all: repeat case_match; done.
Qed.
End Callbacks.

(** ** Where names are patterns and where they are not

    The static list names ".callbacks" by the regular expression "\.callbacks".  A
    new variable is looked up by matching, but [set_callback] takes the pattern for
    the variable's name: after the first change of ".callbacks" the variable has
    lost its callback, so that further changes of it have no effect. *)
Definition dot_callbacks : cstr := [46; 99; 97; 108; 108; 98; 97; 99; 107; 115].
Definition static_callbacks : cstr := 92 :: dot_callbacks ++ [58; 99; 97; 108; 108; 98; 97; 99; 107; 115; 44].
Definition agrees : callback_t := fun _ _ _ _ => 0.
Definition with_callbacks : hsearch_data :=
  match execute_all Some (set_entry_callback (Some agrees)) id 5 [Setenv dot_callbacks [97]] five 0 with
  | Some (_, h) => h
  | None => five
  end.
Definition callbacks_left (h : hsearch_data) : nat :=
  length (List.filter (fun b => match e_callback (b_entry b) with Some _ => true | None => false end) (default [] (h_table h))).

Lemma on_callbacks_forgets :
  callbacks_left with_callbacks = 1%nat /\
  callbacks_left <$> on_callbacks [(drop 1 dot_callbacks, agrees)] static_callbacks Some id id 5 (Some []) with_callbacks = Some 0%nat /\
  (forall e, e_key e = Some dot_callbacks -> e_callback e = None ->
    e_callback <$> env_callback_init [(drop 1 dot_callbacks, agrees)] (@Some cstr)
      (fun re s => bool_decide (re = 94 :: 92 :: s ++ [36])) static_callbacks None e = Some (Some agrees)).
Proof.
  split; [vm_compute; reflexivity|]. split; [vm_compute; reflexivity|].
  intros e Ek Ec. unfold env_callback_init. rewrite Ek. vm_compute. reflexivity.
Qed.
