(* ===== verification/EnvCommon.v ===== *)
(** The environment as a whole: uboot/common/env_common.c, with getenv, getenv_f and
    envmatch of uboot/cmd/nvedit.c, for the board's configuration (include/configs/
    mx6ullevk.h: 8 KiB, not redundant, not encrypted).

    Before the import variables are read from the linear form in memory; after it
    from the table.  The default environment, regular expressions, allocations and
    the initialisation of entries are parameters; messages are left out.  [None] is
    undefined behaviour. *)
From S2P Require Import Prelude Htab HtabSafe Qsort Hexport Himport EnvText Crc32.

Definition CONFIG_ENV_SIZE : Z := 8192.
Definition ENV_HEADER_SIZE : Z := 4.
Definition ENV_SIZE : Z := CONFIG_ENV_SIZE - ENV_HEADER_SIZE.
Definition H_PROGRAMMATIC : Z := 1 << 9.

(** The parts of the global data that the environment uses: the flags
    GD_FLG_ENV_READY and GD_FLG_RELOC, [env_valid], what [env_addr] points to; and
    the table [env_htab]. *)
Record env := Env {
  env_ready : bool; relocated : bool; env_valid : Z; env_mem : list Z; env_htab : hsearch_data
}.
Definition with_htab (h : hsearch_data) (gd : env) : env := Env (env_ready gd) (relocated gd) (env_valid gd) (env_mem gd) h.
Definition set_ready (gd : env) : env := Env true (relocated gd) (env_valid gd) (env_mem gd) (env_htab gd).

(** ** Reading the linear form *)
Section Linear.
Context (default_environment : list Z).

(** [env_get_addr]: the memory from that address on. *)
Definition env_get_addr (gd : env) (index : Z) : list Z :=
  drop (Z.to_nat index) (if truthy (env_valid gd) then env_mem gd else default_environment).
Definition env_get_char_spec (gd : env) (index : Z) : option Z := env_mem gd !! Z.to_nat index.
Definition env_get_char_init (gd : env) (index : Z) : option Z :=
  if truthy (env_valid gd) then env_get_char_spec gd index else default_environment !! Z.to_nat index.
Definition env_get_char_memory (gd : env) (index : Z) : option Z := head (env_get_addr gd index).
Definition env_get_char (gd : env) (index : Z) : option Z :=
  if relocated gd then env_get_char_memory gd index else env_get_char_init gd index.

Section Get.
Context (get_char : Z -> option Z).

(** [s1] is a string without NULs, and the environment index where it ends. *)
Fixpoint envmatch (s1 : cstr) (i2 : Z) : option Z :=
  c ← get_char i2;
  match s1 with
  | [] => if c =? 0 then None else if c =? 61 then Some (i2 + 1) else Some (-1)
  | x :: s1 => if x =? c then (if x =? 61 then Some (i2 + 1) else envmatch s1 (i2 + 1)) else Some (-1)
  end.

(** [Some None]: the environment is longer than it may be. *)
Fixpoint entry_end (k : nat) (nxt : Z) : option (option Z) :=
  match k with
  | O => None
  | S k =>
      c ← get_char nxt;
      if c =? 0 then Some (Some nxt)
      else if CONFIG_ENV_SIZE <=? nxt then Some None else entry_end k (nxt + 1)
  end.

(** The bytes copied and whether they are the whole value. *)
Fixpoint copy_out (len : nat) (val : Z) : option (cstr * bool) :=
  match len with
  | O => Some ([], false)
  | S len =>
      c ← get_char val;
      if c =? 0 then Some ([], true) else r ← copy_out len (val + 1); Some (c :: r.1, r.2)
  end.

(** What is returned, and the string left in the buffer of [len] bytes when it was
    written to. *)
Fixpoint getenv_f_loop (k : nat) (name : cstr) (len : nat) (i : Z) : option (Z * option cstr) :=
  match k with
  | O => None
  | S k =>
      c ← get_char i;
      if c =? 0 then Some (-1, None)
      else
        nxt ← entry_end (S (Z.to_nat CONFIG_ENV_SIZE)) i;
        match nxt with
        | None => Some (-1, None)
        | Some nxt =>
            val ← envmatch name i;
            if val <? 0 then getenv_f_loop k name len (nxt + 1)
            else
              '(buf, complete) ← copy_out len val;
              let n := Z.of_nat (length buf) in
              Some (n, if complete : bool then Some buf else if truthy n then Some (removelast buf) else None)
        end
  end.
End Get.

Definition getenv_f (gd : env) (name : cstr) (len : nat) : option (Z * option cstr) :=
  getenv_f_loop (env_get_char gd) (S (S (Z.to_nat CONFIG_ENV_SIZE))) name len 0.
End Linear.

(** sizeof(gd->env_buf) *)
Definition ENV_BUF : nat := 32.

Section Env.
Context {slre : Type} (slre_compile : cstr -> option slre) (slre_match : slre -> cstr -> bool).
Context (alloc : Z -> bool) (strdup : cstr -> option cstr) (env_callback_init env_flags_init : ENTRY -> ENTRY).
Context (default_environment : list Z) (n : nat).

(** The string pointed to; before the import it is in [env_buf], until the next
    call. *)
Definition getenv (gd : env) (name : cstr) : option (option cstr) :=
  if env_ready gd then
    a ← hsearch_r strdup env_callback_init env_flags_init n name None FIND (env_htab gd) 0;
    match a_val a with
    | Some idx => b ← get_bucket (a_htab a) idx; Some (e_data (b_entry b))
    | None => Some None
    end
  else
    r ← getenv_f default_environment gd name ENV_BUF;
    Some (if 0 <? r.1 then r.2 else None).

(** The flags and [env_valid] are restored. *)
Definition getenv_default (gd : env) (name : cstr) : option (option cstr) :=
  getenv (Env false (relocated gd) 0 (env_mem gd) (env_htab gd)) name.

(** 1yYtT *)
Definition getenv_yesno (gd : env) (var : cstr) : option Z :=
  s ← getenv gd var;
  match s with
  | None => Some (-1)
  | Some s => Some (if existsb (Z.eqb (default 0 (head s))) [49; 121; 89; 116; 84] then 1 else 0)
  end.

Abbreviation import_r := (himport_r strdup env_callback_init env_flags_init alloc n).
Abbreviation export_r := (hexport_r slre_compile slre_match alloc n).

Definition set_default_env (s : option cstr) (gd : env) : option env :=
  let size := length default_environment in
  if ENV_SIZE <? Z.of_nat size then Some gd
  else
    let flags := match s with Some s => if bool_decide (head s = Some 33) then 0 else H_INTERACTIVE | None => 0 end in
    res ← import_r (env_htab gd) default_environment size 0 flags false [];
    Some (set_ready (with_htab res.2 gd)).

Definition set_default_vars (vars : list cstr) (gd : env) : option (Z * env) :=
  res ← import_r (env_htab gd) default_environment (length default_environment) 0 (H_NOCLEAR .| H_INTERACTIVE) false vars;
  Some (res.1.1, with_htab res.2 gd).

(** Without CONFIG_ENV_AES. *)
Definition env_aes_cbc_crypt (data : list Z) : Z * list Z := (0, data).

(** [env_t]: a little-endian word and the data; [addr] is where the data lies. *)
Definition env_crc (buf : list Z) : Z := word (take 4 buf).
Definition env_data (buf : list Z) : list Z := drop 4 buf.
Definition crc_bytes (crc : Z) : list Z := [u8 crc; u8 (crc >> 8); u8 (crc >> 16); u8 (crc >> 24)].

Definition env_import (addr : Z) (buf : list Z) (check : bool) (gd : env) : option (Z * env) :=
  bad ← (if check then crc ← crc32 0 addr (env_data buf) ENV_SIZE; Some (negb (crc =? env_crc buf)) else Some false);
  if bad : bool then gd ← set_default_env (Some [33; 98; 97; 100; 32; 67; 82; 67]) gd; Some (0, gd)
  else
    let '(ret, data) := env_aes_cbc_crypt (env_data buf) in
    if truthy ret then gd ← set_default_env (Some [33]) gd; Some (ret, gd)
    else
      res ← import_r (env_htab gd) data (Z.to_nat ENV_SIZE) 0 0 false [];
      if truthy res.1.1 then Some (1, set_ready (with_htab res.2 gd))
      else gd ← set_default_env (Some [33]) (with_htab res.2 gd); Some (0, gd).

Definition env_export (addr : Z) (env_out : list Z) (gd : env) : option (Z * list Z) :=
  x ← export_r (env_htab gd) 0 0 (Some (Some (env_data env_out))) ENV_SIZE [];
  if x_ret x <? 0 then Some (1, take 4 env_out ++ default (env_data env_out) (x_res x))
  else
    data ← x_res x;
    let '(ret, data) := env_aes_cbc_crypt data in
    if truthy ret then Some (ret, take 4 env_out ++ data)
    else crc ← crc32 0 addr data ENV_SIZE; Some (0, crc_bytes crc ++ data).

Definition env_relocate (env_relocate_spec : env -> option env) (gd : env) : option env :=
  if env_valid gd =? 0 then set_default_env (Some [33; 98; 97; 100; 32; 67; 82; 67]) gd else env_relocate_spec gd.

(** *** Completion of names: the matching names, in order, and "..." when there is
    no room for all. *)
Fixpoint complete_loop (k : nat) (var : cstr) (maxv bufsz idx : Z) (cmdv : list cstr) (h : hsearch_data) :
    option (Z * list cstr) :=
  match k with
  | O => None
  | S k =>
      a ← hmatch_r k var idx h;
      match a_val a with
      | None => Some (0, cmdv)
      | Some idx =>
          b ← get_bucket h idx;
          key ← e_key (b_entry b);
          let vallen := Z.of_nat (length key) + 1 in
          if (maxv - 2 <=? Z.of_nat (length cmdv)) || (bufsz <? vallen) then Some (idx, cmdv)
          else complete_loop k var maxv (bufsz - vallen) idx (cmdv ++ [key]) h
      end
  end.
Definition env_complete (k : nat) (var : cstr) (maxv bufsz : Z) (gd : env) : option (list cstr) :=
  res ← complete_loop k var maxv bufsz 0 [] (env_htab gd);
  cmdv ← qsort strcmp res.2;
  let cmdv := if truthy res.1 then cmdv ++ [[46; 46; 46]] else cmdv in
  if Z.of_nat (length cmdv) <? maxv then Some cmdv else None.
End Env.

(** ** Reading the linear form *)

(** What is read of a value before the import: all of it if it fits [env_buf]. *)
Definition cut_to_buf (len : nat) (d : cstr) : cstr := if (length d <? len)%nat then d else take (len - 1) d.

Section LinearTheory.
Context (mem : list Z) (get_char : Z -> option Z) (Hget : forall i : nat, get_char (Z.of_nat i) = mem !! i).

Lemma get_at pre c rest : mem = pre ++ c :: rest -> get_char (Z.of_nat (length pre)) = Some c.
Proof. intros E. by rewrite Hget, E, list_lookup_middle. Qed.

Lemma run_envmatch name pre k rest : mem = pre ++ k ++ 61 :: rest ->
  Forall (fun c => c <> 0 /\ c <> 61) name -> Forall (fun c => c <> 0 /\ c <> 61) k ->
  envmatch get_char name (Z.of_nat (length pre)) =
    Some (if bool_decide (name = k) then Z.of_nat (length pre) + Z.of_nat (length k) + 1 else -1).
Proof.
  revert pre k. induction name as [|x name IH]; intros pre k E Hn Hk; cbn [envmatch].
  - destruct k as [|c k]; cbn [app] in E; rewrite (get_at _ _ _ E); cbn [mbind option_bind];
      [rewrite bool_decide_true by done; cbn [length Z.eqb Pos.eqb]; f_equal; lia|].
    apply list.Forall_cons in Hk as [[H0 H61] _]. destruct (Z.eqb_spec c 0); [done|]. by destruct (Z.eqb_spec c 61).
  - apply list.Forall_cons in Hn as [[H0 H61] Hn]. destruct k as [|c k]; cbn [app] in E; rewrite (get_at _ _ _ E);
      cbn [mbind option_bind]; [by destruct (Z.eqb_spec x 61)|].
    apply list.Forall_cons in Hk as [_ Hk]. destruct (Z.eqb_spec x c) as [->|Hne].
    + destruct (Z.eqb_spec c 61); [done|]. specialize (IH (pre ++ [c]) k).
      rewrite length_app, <- app_assoc in IH. cbn [app length] in IH. rewrite Nat2Z.inj_add in IH. change (Z.of_nat 1) with 1 in IH.
      rewrite IH by done. cbn [length]. f_equal. case_bool_decide as En.
      * rewrite bool_decide_true by congruence. lia.
      * rewrite bool_decide_false by congruence. done.
    + rewrite bool_decide_false by congruence. done.
Qed.

Lemma run_entry_end k pre e rest : mem = pre ++ e ++ 0 :: rest -> Forall (fun c => c <> 0) e -> (length e < k)%nat ->
  Z.of_nat (length pre) + Z.of_nat (length e) <= CONFIG_ENV_SIZE ->
  entry_end get_char k (Z.of_nat (length pre)) = Some (Some (Z.of_nat (length pre) + Z.of_nat (length e))).
Proof.
  revert pre e. induction k as [|k IH]; intros pre e E He Hk Hsize; [lia|]. cbn [entry_end].
  destruct e as [|c e]; cbn [app] in E; rewrite (get_at _ _ _ E); cbn [mbind option_bind length];
    [cbn [Z.eqb]; do 2 f_equal; lia|].
  apply list.Forall_cons in He as [H0 He]. destruct (Z.eqb_spec c 0); [done|]. cbn [length] in *.
  destruct (Z.leb_spec CONFIG_ENV_SIZE (Z.of_nat (length pre))); [lia|].
  specialize (IH (pre ++ [c]) e). rewrite length_app, <- app_assoc in IH. cbn [app length] in IH.
  rewrite Nat2Z.inj_add in IH. change (Z.of_nat 1) with 1 in IH. rewrite IH by (done || lia). do 2 f_equal. lia.
Qed.

Lemma run_copy_out len pre d rest : mem = pre ++ d ++ 0 :: rest -> Forall (fun c => c <> 0) d ->
  copy_out get_char len (Z.of_nat (length pre)) = Some (take len d, (length d <? len)%nat).
Proof.
  revert pre d. induction len as [|len IH]; intros pre d E Hd; cbn [copy_out]; [by rewrite take_0|].
  destruct d as [|c d]; cbn [app] in E; rewrite (get_at _ _ _ E); cbn [mbind option_bind]; [done|].
  apply list.Forall_cons in Hd as [H0 Hd]. destruct (Z.eqb_spec c 0); [done|].
  specialize (IH (pre ++ [c]) d). rewrite length_app, <- app_assoc in IH. cbn [app length] in IH.
  rewrite Nat2Z.inj_add in IH. change (Z.of_nat 1) with 1 in IH. rewrite IH by done. done.
Qed.

(** The first variable of that name is found. *)
Lemma run_getenv_f_loop name len l k pre rest : (0 < len)%nat ->
  Forall (fun c => c <> 0 /\ c <> 61) name ->
  Forall (good_pair 0) l -> Forall (fun kd => escape 0 kd.2 = kd.2) l -> (length l < k)%nat ->
  mem = pre ++ text 0 l ++ 0 :: rest -> Z.of_nat (length pre) + Z.of_nat (length (text 0 l)) <= CONFIG_ENV_SIZE ->
  getenv_f_loop get_char k name len (Z.of_nat (length pre)) =
    Some (match list_find (fun kd => kd.1 = name) l with
          | Some (_, kd) => (Z.of_nat (Nat.min len (length kd.2)), Some (cut_to_buf len kd.2))
          | None => (-1, None)
          end).
Proof.
  intros Hlen Hname. revert k pre. induction l as [|[key d] l IH]; intros k pre Hl Hesc Hk E Hsize;
    (destruct k as [|k]; [simpl in Hk; lia|]); cbn [getenv_f_loop].
  - cbn [app] in E. by rewrite (get_at _ _ _ E).
  - apply list.Forall_cons in Hl as [[Hgk Hgd] Hl]. apply list.Forall_cons in Hesc as [Hed Hesc]. cbn [fst snd length] in *.
    destruct Hgk as [(c0 & Hc0 & _) Hkey], Hgd as [Hdne Hd].
    unfold text in E, Hsize. rewrite bind_cons in E, Hsize. fold (text 0 l) in E, Hsize. unfold entry_text in E, Hsize.
    cbn [fst snd] in E, Hsize. rewrite Hed in E, Hsize.
    assert (Forall (fun c => c <> 0 /\ c <> 61) key) as Hk61 by (apply (list.Forall_impl _ _ _ Hkey); by intros c (? & ? & _)).
    assert (mem = pre ++ (key ++ 61 :: d) ++ 0 :: text 0 l ++ 0 :: rest) as E1 by (rewrite E, <- !app_assoc; done).
    assert (Forall (fun c => c <> 0) (key ++ 61 :: d)) as Hne.
    { apply Forall_app. split; [apply (list.Forall_impl _ _ _ Hk61); by intros c [? _]|by apply list.Forall_cons]. }
    destruct key as [|c key]; [done|]. injection Hc0 as ->.
    rewrite (get_at pre c0 (key ++ 61 :: d ++ 0 :: text 0 l ++ 0 :: rest)) by (rewrite E1; cbn [app]; by rewrite <- app_assoc).
    cbn [mbind option_bind]. pose proof (proj1 (proj1 (list.Forall_cons _ _ _) Hk61)) as [Hc0 _].
    destruct (Z.eqb_spec c0 0); [done|]. set (key1 := c0 :: key) in *.
    rewrite !length_app in Hsize. cbn [length] in Hsize.
    rewrite (run_entry_end _ pre (key1 ++ 61 :: d) _ E1 Hne);
      [|rewrite length_app; cbn [length]; unfold CONFIG_ENV_SIZE in *; lia|rewrite length_app; cbn [length]; lia].
    cbn [mbind option_bind].
    rewrite (run_envmatch name pre key1 (d ++ 0 :: text 0 l ++ 0 :: rest)) by (done || by rewrite E1, <- !app_assoc).
    cbn [mbind option_bind list_find fst].
    case_bool_decide as En; [rewrite decide_True by done|rewrite decide_False by congruence].
    + destruct (Z.ltb_spec (Z.of_nat (length pre) + Z.of_nat (length key1) + 1) 0); [lia|].
      pose proof (run_copy_out len (pre ++ key1 ++ [61]) d (text 0 l ++ 0 :: rest)) as Hcopy.
      rewrite !length_app in Hcopy. cbn [length] in Hcopy.
      replace (Z.of_nat (length pre + (length key1 + 1))) with (Z.of_nat (length pre) + Z.of_nat (length key1) + 1) in Hcopy by lia.
      rewrite Hcopy by (done || by rewrite E1, <- !app_assoc). cbn [mbind option_bind fst snd]. rewrite length_take.
      unfold cut_to_buf. destruct (Nat.ltb_spec (length d) len) as [Hlt|Hge]; [by rewrite take_ge by lia|].
      rewrite (proj2 (truthy_true _)) by lia. do 3 f_equal.
      rewrite removelast_firstn_len, take_take, length_take. f_equal. lia.
    + specialize (IH k (pre ++ key1 ++ 61 :: d ++ [0]) Hl Hesc ltac:(lia)). rewrite !length_app in IH. cbn [length] in IH.
      rewrite length_app in IH. cbn [length] in IH.
      change (-1 <? 0) with true. cbv iota. rewrite length_app. cbn [length].
      replace (Z.of_nat (length pre) + Z.of_nat (length key1 + S (length d)) + 1) with
        (Z.of_nat (length pre + (length key1 + S (length d + 1)))) by lia.
      rewrite IH by (first [lia|rewrite E1, <- !app_assoc; cbn [app]; by rewrite <- !app_assoc]).
      by destruct (list_find _ l) as [[j kd]|].
Qed.
End LinearTheory.

(** ** The environment and its variables *)

(** Names and values of bytes that survive the linear form. *)
Definition good_var (kd : cstr * cstr) : Prop := good_pair 0 kd /\ Forall byte kd.1 /\ Forall byte kd.2.

(** A linear form that holds the variables [l]. *)
Definition linear (l : list (cstr * cstr)) (buf : list Z) : Prop :=
  Forall (good_pair 0) l /\ NoDup l.*1 /\ Z.of_nat (length l) <= capacity (length buf) /\ exists z, buf = text 0 l ++ replicate (S z) 0.

Section Theory.
Context {slre : Type} (slre_compile : cstr -> option slre) (slre_match : slre -> cstr -> bool).
Context (alloc : Z -> bool) (strdup : cstr -> option cstr) (env_callback_init env_flags_init : ENTRY -> ENTRY).
Context (default_environment : list Z) (n : nat) (Hn : 521 <= Z.of_nat n).
Context (Halloc : forall x, alloc x = true) (Hdup : forall s, strdup s = Some s).
Context (Hinit : forall e, e_key (env_flags_init (env_callback_init e)) = e_key e /\
                           e_data (env_flags_init (env_callback_init e)) = e_data e).
Context (Hcb : forall e, plain e -> plain (env_flags_init (env_callback_init e))).

Abbreviation get := (getenv strdup env_callback_init env_flags_init default_environment n).
Abbreviation import := (env_import alloc strdup env_callback_init env_flags_init default_environment n).
Abbreviation set_default := (set_default_env alloc strdup env_callback_init env_flags_init default_environment n).
Abbreviation export := (env_export slre_compile slre_match alloc n).

(** The variables of the environment: those of its table. *)
Definition holds (gd : env) (m : gmap cstr cstr) : Prop := exists t, represents (env_htab gd) t m.

Lemma getenv_table gd m name : env_ready gd = true -> holds gd m -> (Z.to_nat (h_size (env_htab gd)) <= n)%nat ->
  get gd name = Some (m !! name).
Proof.
  intros Hr [t Hrep] Hsz. unfold getenv. rewrite Hr.
  pose proof (find_spec strdup env_callback_init env_flags_init (env_htab gd) t m Hrep n name None FIND 0 Hsz ltac:(by left)) as Hf.
  destruct (m !! name) as [d|]; [|by rewrite Hf].
  destruct Hf as (x & Hx & Hl & ->). cbn [mbind option_bind a_val a_htab].
  destruct (live_bucket _ t m Hrep x name d Hl) as (b & -> & _ & _ & _ & Ed). cbn [mbind option_bind]. by rewrite Ed.
Qed.

Lemma list_find_map (l : list (cstr * cstr)) name : NoDup l.*1 ->
  snd <$> (snd <$> list_find (fun kd => kd.1 = name) l) = (list_to_map l : gmap cstr cstr) !! name.
Proof.
  induction l as [|[k d] l IH]; intros Hnd; [done|]. apply list.NoDup_cons in Hnd as [_ Hnd]. cbn [list_find list_to_map foldr fst].
  case_decide as E; [subst k; cbn; by rewrite lookup_insert_eq|]. cbn [fst snd uncurry].
  rewrite lookup_insert_ne by done. rewrite <- IH by done. by destruct (list_find _ l) as [[i kd]|].
Qed.

Lemma env_get_char_linear gd (i : nat) : truthy (env_valid gd) = true ->
  env_get_char default_environment gd (Z.of_nat i) = env_mem gd !! i.
Proof.
  intros Hv. unfold env_get_char, env_get_char_memory, env_get_addr, env_get_char_init, env_get_char_spec.
  rewrite Hv, Nat2Z.id, head_lookup, lookup_drop, Nat.add_0_r. by destruct (relocated gd).
Qed.

(** Before the import: the same variables, cut to what fits the buffer. *)
Lemma getenv_linear gd l rest name : env_ready gd = false -> truthy (env_valid gd) = true ->
  Forall (good_pair 0) l -> NoDup l.*1 -> Forall (fun kd => escape 0 kd.2 = kd.2) l ->
  env_mem gd = text 0 l ++ 0 :: rest -> Z.of_nat (length (text 0 l)) <= ENV_SIZE ->
  Forall (fun c => c <> 0 /\ c <> 61) name ->
  get gd name = Some (cut_to_buf ENV_BUF <$> (list_to_map l : gmap cstr cstr) !! name).
Proof.
  intros Hr Hv Hl Hnd Hesc Hmem Hsize Hname. unfold getenv. rewrite Hr. unfold getenv_f.
  assert (length l <= length (text 0 l))%nat by apply length_text.
  pose proof (run_getenv_f_loop (env_mem gd) (env_get_char default_environment gd)
    (fun i => env_get_char_linear gd i Hv) name ENV_BUF l (S (S (Z.to_nat CONFIG_ENV_SIZE))) [] rest
    ltac:(unfold ENV_BUF; lia) Hname Hl Hesc) as E. change (Z.of_nat (length [])) with 0 in E. rewrite E; clear E;
    [|unfold ENV_SIZE, ENV_HEADER_SIZE in *; lia|done|unfold ENV_SIZE, ENV_HEADER_SIZE in *; lia].
  cbn [mbind option_bind fst snd]. f_equal. rewrite <- list_find_map by done.
  destruct (list_find _ l) as [[i [k d]]|] eqn:Ef; [|done]. cbn [fmap option_fmap option_map fst snd].
  apply list_find_Some in Ef as (Hi & _). rewrite list.Forall_forall in Hl.
  destruct (Hl (k, d)) as [_ [Hne _]]; [by apply (list_elem_of_lookup_2 _ i)|]. cbn [snd] in Hne.
  destruct d as [|c d]; [done|]. destruct (Z.ltb_spec 0 (Z.of_nat (Nat.min ENV_BUF (length (c :: d))))); [done|].
  unfold ENV_BUF in *. cbn [length] in *. lia.
Qed.

(** *** Importing *)
Lemma sep_0 : separates 0.
Proof. split; lia. Qed.

Lemma import_linear h l buf flag : linear l buf -> flag .& H_NOCLEAR = 0 -> approves h ->
  exists h', himport_r strdup env_callback_init env_flags_init alloc n h buf (length buf) 0 flag false [] = Some (1, None, h') /\
    (exists t', represents h' t' (list_to_map l)) /\ usable (h_change_ok h) (fun _ => True) n h'.
Proof.
  intros (Hl & Hnd & Hcap & z & ->) Hflag Happ.
  destruct (run_himport strdup env_callback_init env_flags_init alloc Hdup Hinit Hcb 0 sep_0 l (S z) n h flag Hl Hnd)
    as (h' & t' & E & Hrep); try done; [by destruct (text 0 l)|by left|].
  exists h'. split; [done|]. split; [by exists t'|].
  destruct (run_himport_any (h_change_ok h) (fun _ => True) strdup env_callback_init env_flags_init alloc Hdup Hinit n h
    (text 0 l ++ replicate (S z) 0) (length (text 0 l ++ replicate (S z) 0)) 0 flag false [])
    as (ret & e & h2 & E2 & _ & Hsafe); [done|lia|done|done|by left|].
  rewrite E in E2. by injection E2 as _ _ <-.
Qed.

(** The default environment, after the import of it: its variables. *)
Lemma run_set_default msg gd l : linear l default_environment -> Z.of_nat (length default_environment) <= ENV_SIZE ->
  approves (env_htab gd) ->
  exists gd', set_default msg gd = Some gd' /\ env_ready gd' = true /\ holds gd' (list_to_map l) /\
    usable (h_change_ok (env_htab gd)) (fun _ => True) n (env_htab gd').
Proof.
  intros Hl Hsize Happ. unfold set_default_env. cbv zeta. destruct (Z.ltb_spec ENV_SIZE (Z.of_nat (length default_environment))); [lia|].
  set (flags := match msg with None => 0 | Some s => _ end).
  assert (flags .& H_NOCLEAR = 0) as Hf by (unfold flags; by repeat case_match).
  destruct (import_linear (env_htab gd) l default_environment flags Hl Hf Happ) as (h' & -> & Hh & Hu).
  cbn [mbind option_bind]. eexists. split; [done|]. done.
Qed.

(** *** The exported form *)
Lemma text_bytes l : Forall good_var l -> Forall byte (text 0 l).
Proof.
  assert (byte 0 /\ byte 61 /\ byte 92) as (H0 & H61 & H92) by (unfold byte, fits; lia).
  induction l as [|[k d] l IH]; intros Hl; [by apply list.Forall_nil|]. apply list.Forall_cons in Hl as [(_ & Hk & Hd) Hl].
  unfold text. rewrite bind_cons. apply Forall_app. split; [|by apply IH]. cbn [fst snd] in *. unfold entry_text. cbn [fst snd].
  rewrite !Forall_app, !list.Forall_cons. split_and!; try done. unfold escape. clear -Hd H92.
  induction d as [|c d IH]; [by apply list.Forall_nil|]. apply list.Forall_cons in Hd as [Hc Hd]. rewrite bind_cons.
  apply Forall_app. split; [|by apply IH]. destruct ((c =? 0) || (c =? 92)); rewrite ?list.Forall_cons; done.
Qed.

Lemma word_crc_bytes crc : fits 32 crc -> word (crc_bytes crc) = crc.
Proof.
  intros Hc. unfold crc_bytes. cbn [word]. rewrite Z.shiftl_0_l, Z.lxor_0_r.
  assert (forall z, u8 z = z .& Z.ones 8) as Eu by (intros z; unfold u8; by rewrite Z.land_ones by lia). rewrite !Eu.
  assert (crc >> 24 .& Z.ones 8 = crc >> 24) as ->.
  { rewrite <- Eu. apply u8_small. unfold fits in Hc. rewrite Z.shiftr_div_pow2 by lia.
    split; [apply Z.div_pos; lia|apply Z.div_lt_upper_bound; lia]. }
  replace (crc >> 24) with ((crc >> 16) >> 8) by (rewrite Z.shiftr_shiftr by lia; done).
  rewrite <- (split_low (crc >> 16) 8) by lia.
  replace (crc >> 16) with ((crc >> 8) >> 8) by (rewrite Z.shiftr_shiftr by lia; done).
  rewrite <- (split_low (crc >> 8) 8) by lia. by rewrite <- (split_low crc 8) by lia.
Qed.

Lemma crc_fits data : Forall byte data -> length data = Z.to_nat ENV_SIZE ->
  exists c, fits 32 c /\ forall addr, crc32 0 addr data ENV_SIZE = Some c.
Proof.
  intros Hb Hl. assert (fits 32 0xffffffff) as Hf by apply fits_ffffffff. eexists. split; [|intros addr; apply run_crc32].
  - apply lxor_fits; [lia|apply crc_bits_fits; [|by apply Forall_take]|done]. by apply lxor_fits; [lia|unfold fits; lia|].
  - unfold fits; lia.
  - done.
  - unfold ENV_SIZE, CONFIG_ENV_SIZE, ENV_HEADER_SIZE in *. lia.
Qed.

(** What is exported: the checksum and the linear form of all variables. *)
Lemma run_env_export addr out gd m : holds gd m -> map_Forall (fun k d => good_var (k, d)) m ->
  reckoned_all 0 (map_to_list m) < ENV_SIZE -> roomy 0 m -> length out = Z.to_nat CONFIG_ENV_SIZE ->
  (Z.to_nat (h_size (env_htab gd)) < n)%nat -> Z.of_nat (size m) <= 512 ->
  exists l c data, l ≡ₚ map_to_list m /\ linear l data /\ Forall byte data /\ length data = Z.to_nat ENV_SIZE /\ fits 32 c /\
    (forall addr, crc32 0 addr data ENV_SIZE = Some c) /\ export addr out gd = Some (0, crc_bytes c ++ data).
Proof.
  intros [t Hrep] Hgood Hreck Hroom Hout Hsz Hsize.
  assert (filter (wanted slre_compile slre_match 0 []) (map_to_list m) = map_to_list m) as Eall.
  { apply filter_all. intros kd _. split; [by left|]. by intros [? _]. }
  assert (length (env_data out) = Z.to_nat ENV_SIZE) as Hdata.
  { unfold env_data. rewrite length_drop, Hout. done. }
  assert (ENV_SIZE = 8188) as E8 by done. unfold roomy in Hroom.
  destruct (run_hexport slre_compile slre_match alloc (env_htab gd) t m Hrep 0 0 [] n (Some (env_data out)) ENV_SIZE)
    as (l & Hl & _ & Eex); rewrite ?Eall; try done; try (rewrite E8 in *; cbn [Z.eqb]; lia).
  rewrite Eall in Hl. change (ENV_SIZE =? 0) with false in Eex. cbv iota in Eex. cbn [default] in Eex.
  rewrite (drop_ge (env_data out)) in Eex by lia. rewrite app_nil_r in Eex.
  pose proof (text_length_perm 0 _ _ Hl) as Elen. cbv beta in Elen.
  set (z := (Z.to_nat ENV_SIZE - length (text 0 l) - 1)%nat).
  replace (Z.to_nat ENV_SIZE - length (text 0 l))%nat with (S z) in Eex by (unfold z; lia).
  set (data := text 0 l ++ replicate (S z) 0) in *.
  assert (Forall good_var l) as Hgl.
  { rewrite Hl. apply list.Forall_forall. intros [k d] Hkd%elem_of_map_to_list. by apply (Hgood k d). }
  assert (length data = Z.to_nat ENV_SIZE) as Hld by (unfold data; rewrite length_app, length_replicate; unfold z; lia).
  assert (Forall byte data) as Hb.
  { apply Forall_app. split; [by apply text_bytes|]. apply Forall_replicate. unfold byte, fits. lia. }
  destruct (crc_fits data Hb Hld) as (c & Hc & Hcrc). exists l, c, data.
  split; [done|]. split; [|split; [done|split; [done|split; [done|split; [done|]]]]].
  - split; [by apply (list.Forall_impl _ _ _ Hgl); intros ? [? _]|]. split; [rewrite Hl; apply NoDup_fst_map_to_list|].
    split; [|by exists z]. rewrite Hld, Hl, length_map_to_list. unfold capacity. rewrite E8. done.
  - unfold env_export. rewrite Eex. cbn [mbind option_bind x_ret x_res]. destruct (Z.ltb_spec ENV_SIZE 0); [lia|].
    unfold env_aes_cbc_crypt. change (truthy 0) with false. cbv iota. by rewrite Hcrc.
Qed.

(** Reading such a form, whose checksum is right. *)
Lemma run_env_import addr c data l gd : linear l data -> Forall byte data -> length data = Z.to_nat ENV_SIZE -> fits 32 c ->
  crc32 0 addr data ENV_SIZE = Some c -> approves (env_htab gd) ->
  exists gd', import addr (crc_bytes c ++ data) true gd = Some (1, gd') /\ env_ready gd' = true /\
    holds gd' (list_to_map l) /\ usable (h_change_ok (env_htab gd)) (fun _ => True) n (env_htab gd').
Proof.
  intros Hl Hb Hlen Hc Hcrc Happ. unfold env_import, env_crc, env_data.
  change (drop 4 (crc_bytes c ++ data)) with (drop 0 data). change (take 4 (crc_bytes c ++ data)) with (crc_bytes c).
  rewrite drop_0, Hcrc, word_crc_bytes by done. cbn [mbind option_bind]. rewrite Z.eqb_refl. cbn [negb]. unfold env_aes_cbc_crypt.
  change (truthy 0) with false. cbv iota. rewrite <- Hlen.
  destruct (import_linear (env_htab gd) l data 0 Hl eq_refl Happ) as (h' & -> & Hh & Hu). cbn [mbind option_bind fst snd].
  eexists. split; [done|]. done.
Qed.

(** A form with a wrong checksum is replaced by the default environment. *)
Lemma run_env_import_bad addr c c' data gd : fits 32 c -> crc32 0 addr data ENV_SIZE = Some c' -> c' <> c ->
  import addr (crc_bytes c ++ data) true gd = (gd' ← set_default (Some [33; 98; 97; 100; 32; 67; 82; 67]) gd; Some (0, gd')).
Proof.
  intros Hc Hcrc Hne. unfold env_import, env_crc, env_data.
  change (drop 4 (crc_bytes c ++ data)) with (drop 0 data). change (take 4 (crc_bytes c ++ data)) with (crc_bytes c).
  rewrite drop_0, Hcrc, word_crc_bytes by done. cbn [mbind option_bind]. by destruct (Z.eqb_spec c' c).
Qed.

Lemma holds_perm gd m l : l ≡ₚ map_to_list m -> NoDup l.*1 -> holds gd (list_to_map l) -> holds gd m.
Proof. intros Hl Hnd H. rewrite <- (list_to_map_to_list m). by rewrite <- (list_to_map_proper _ _ Hnd Hl). Qed.

Lemma usable_size co gd : usable co (fun _ => True) n (env_htab gd) -> (Z.to_nat (h_size (env_htab gd)) <= n)%nat.
Proof. by intros [? _]. Qed.



End Theory.

(** *** Examples *)
Definition gd_hello : env := Env true true 1 [] hello.
Definition gd_boot : env := Env false false 1 [] no_htab.
Definition blank : list Z := replicate (Z.to_nat CONFIG_ENV_SIZE) 0.
(** b=3 *)
Definition small_vars : list (cstr * cstr) := [([98], [51])].
Definition small_env (z : nat) : list Z := text 0 small_vars ++ replicate (S z) 0.

Lemma gd_hello_holds : holds gd_hello hello_vars.
Proof. destruct hello_represents as [t H]. by exists t. Qed.
Lemma hello_good_vars : map_Forall (fun k d => good_var (k, d)) hello_vars.
Proof.
  intros k d H. pose proof (hello_good 0 ltac:(lia) k d H) as Hg. split; [done|].
  unfold hello_vars in H. apply lookup_singleton_Some in H as [<- <-]. cbn [fst snd]. unfold two_lines, byte, fits. 
  split; repeat (apply list.Forall_cons; split; [lia|]); apply list.Forall_nil_2.
Qed.
Lemma small_linear z : linear small_vars (small_env z).
Proof.
  split; [|split; [|split; [|by exists z]]].
  - apply list.Forall_cons. split; [|by apply list.Forall_nil]. split; [split; [by exists 98|by repeat constructor]|split; [done|by repeat constructor]].
  - apply NoDup_singleton.
  - unfold capacity, CONFIG_ENV_MAX_ENTRIES, CONFIG_ENV_MIN_ENTRIES. cbn [length small_vars].
    pose proof (Z.div_pos (Z.of_nat (length (small_env z))) 8 ltac:(lia) ltac:(lia)). lia.
Qed.
Lemma hello_fits : reckoned_all 0 (map_to_list hello_vars) < ENV_SIZE /\ roomy 0 hello_vars /\
  (Z.to_nat (h_size hello) < Z.to_nat 521)%nat /\ Z.of_nat (size hello_vars) <= 512.
Proof. unfold roomy. vm_compute. repeat split; (lia || discriminate). Qed.
Lemma no_htab_approves : approves no_htab.
Proof. by intros f [=]. Qed.



Lemma small_env_mem z : small_env z = text 0 small_vars ++ 0 :: replicate z 0.
Proof. reflexivity. Qed.
Lemma small_env_length z : length (small_env z) = (5 + z)%nat.
Proof. rewrite small_env_mem, length_app. cbn [length]. by rewrite length_replicate. Qed.

Definition gd_early : env := Env false false 1 (small_env (Z.to_nat 8183)) no_htab.

(** ** Where the two forms differ *)

(** "b=\\x": the backslash is an escape to [himport_r] only. *)
Definition gd_escaped : env := Env false false 1 ([98; 61; 92; 92; 120; 0] ++ replicate (Z.to_nat (ENV_SIZE - 6)) 0) no_htab.
Lemma getenv_backslash :
  getenv Some id id [] (Z.to_nat 521) gd_escaped [98] = Some (Some [92; 92; 120]) /\
  (res ← env_import (fun _ => true) Some id id [] (Z.to_nat 521) 4 ([0; 0; 0; 0] ++ env_mem gd_escaped) false gd_escaped;
   getenv Some id id [] (Z.to_nat 521) res.2 [98]) = Some (Some [92; 120]).
Proof. vm_compute. done. Qed.

(** The scan for the end of an entry is bounded by the size with the header: data
    without a NUL is read beyond its end. *)
Lemma getenv_f_overread :
  getenv_f [] (Env false false 1 (replicate (Z.to_nat ENV_SIZE) 97) no_htab) [98] 32 = None.
Proof. vm_compute. reflexivity. Qed.
