(* ===== verification/Strto.v ===== *)
(** Numbers of U-Boot's commands and variables: uboot/lib/strto.c and [simple_itoa]
    of uboot/lib/vsprintf.c, on a machine whose long has 32 bits.

    A pointer into a string is the rest of the string; [endp] is returned next to
    the value. *)
From S2P Require Import Prelude Ctype Htab.

Definition digit_value (c : Z) : Z := if isdigit c then c - 48 else (if islower c then toupper c else c) - 65 + 10.

Section Width.
Context (wrap : Z -> Z).

Fixpoint strto_loop (base : Z) (cp : cstr) (result : Z) : Z * cstr :=
  match cp with
  | [] => (result, cp)
  | c :: rest =>
      if isxdigit c && (digit_value c <? base) then strto_loop base rest (wrap (result * base + digit_value c))
      else (result, cp)
  end.

Definition strto (cp : cstr) (base : Z) : Z * cstr :=
  let '(cp, base) :=
    if deref cp =? 48 then
      let cp := drop 1 cp in
      let '(cp, base) := if (deref cp =? 120) && isxdigit (deref (drop 1 cp)) then (drop 1 cp, 16) else (cp, base) in
      (cp, if base =? 0 then 8 else base)
    else (cp, base) in
  let base := if base =? 0 then 10 else base in
  strto_loop base cp 0.

(** A suffix K, M or G multiplies; "i" or "iB" after it is taken too. *)
Definition ustrto (cp : cstr) (base : Z) : Z * cstr :=
  let '(result, endp) := strto cp base in
  let skip e := if deref (drop 1 e) =? 105 then (if deref (drop 2 e) =? 66 then drop 3 e else drop 2 e) else e in
  let c := deref endp in
  if c =? 71 then (wrap (wrap (wrap (result * 1024) * 1024) * 1024), skip endp)
  else if c =? 77 then (wrap (wrap (result * 1024) * 1024), skip endp)
  else if (c =? 75) || (c =? 107) then (wrap (result * 1024), skip endp)
  else (result, endp).
End Width.

Definition simple_strtoul : cstr -> Z -> Z * cstr := strto u32.
Definition simple_strtoull : cstr -> Z -> Z * cstr := strto u64.
Definition ustrtoul : cstr -> Z -> Z * cstr := ustrto u32.
Definition ustrtoull : cstr -> Z -> Z * cstr := ustrto u64.

(** What is returned, and [*res]. *)
Definition strict_strtoul (cp : cstr) (base : Z) : Z * Z :=
  let len := length cp in
  if (len =? 0)%nat then (- EINVAL, 0)
  else
    let '(val, tail) := simple_strtoul cp base in
    if (length tail =? length cp)%nat then (- EINVAL, 0)
    else if (deref tail =? 0) || ((length tail =? 1)%nat && (deref tail =? 10)) then (0, val)
    else (- EINVAL, 0).

Definition simple_strtol (cp : cstr) (base : Z) : Z * cstr :=
  if deref cp =? 45 then let r := simple_strtoul (drop 1 cp) base in (s32 (u32 (- r.1)), r.2)
  else let r := simple_strtoul cp base in (s32 r.1, r.2).

(** [p]: the offset looked at. *)
Fixpoint trailing_loop (str : cstr) (p : nat) : Z :=
  match p with
  | O => -1
  | S q => if negb (isdigit (deref (drop p str))) then s32 (simple_strtoul (drop (p + 1) str) 10).1 else trailing_loop str q
  end.
Definition trailing_strtoln (str : cstr) (end_ : option nat) : Z :=
  trailing_loop str (default (length str) end_ - 1).
Definition trailing_strtol (str : cstr) : Z := trailing_strtoln str None.

(** The digits, written from the end of a buffer of 22 characters. *)
Fixpoint itoa_loop (n : nat) (i : Z) (p : cstr) : option cstr :=
  match n with
  | O => None
  | S n =>
      let p := (48 + i mod 10) :: p in
      let i := i / 10 in
      if 0 <? i then itoa_loop n i p else Some p
  end.
Definition simple_itoa (i : Z) : option cstr := itoa_loop 21 i [].

(** ** Theory *)

(** A digit of the base. *)
Definition is_digit_of (base c : Z) : Prop := isxdigit c = true /\ 0 <= digit_value c < base.
Definition value_of (base : Z) (ds : cstr) : Z := foldl (fun v c => v * base + digit_value c) 0 ds.

Lemma run_strto_loop w base ds rest result : 0 <= w ->
  Forall (is_digit_of base) ds -> match rest with [] => True | c :: _ => ~ (isxdigit c = true /\ digit_value c < base) end ->
  strto_loop (fun z => z mod 2 ^ w) base (ds ++ rest) (result mod 2 ^ w) =
    (foldl (fun v c => v * base + digit_value c) result ds mod 2 ^ w, rest).
Proof.
  intros Hw Hds Hrest. revert result. induction ds as [|c ds IH]; intros result; cbn [app].
  - destruct rest as [|c rest]; [done|]. cbn [strto_loop foldl].
    destruct (isxdigit c) eqn:Ex; [|done]. destruct (Z.ltb_spec (digit_value c) base); [|done]. by destruct Hrest.
  - apply list.Forall_cons in Hds as [[Hx Hd] Hds]. cbn [strto_loop foldl]. rewrite Hx.
    destruct (Z.ltb_spec (digit_value c) base); [|lia]. cbn [andb].
    rewrite <- Zplus_mod_idemp_l, Zmult_mod_idemp_l, Zplus_mod_idemp_l. by apply IH.
Qed.

Lemma decimal_digit d : 0 <= d < 10 -> is_digit_of 10 (48 + d) /\ digit_value (48 + d) = d /\ (48 + d <> 48 <-> d <> 0).
Proof.
  intros Hd. assert (d = 0 \/ d = 1 \/ d = 2 \/ d = 3 \/ d = 4 \/ d = 5 \/ d = 6 \/ d = 7 \/ d = 8 \/ d = 9) as H by lia.
  by destruct H as [->|[->|[->|[->|[->|[->|[->|[->|[->| ->]]]]]]]]].
Qed.

Lemma foldl_value base v ds : 0 < base ->
  foldl (fun v c => v * base + digit_value c) v ds = v * base ^ Z.of_nat (length ds) + value_of base ds.
Proof.
  intros Hb. unfold value_of. revert v. induction ds as [|c ds IH]; intros v; cbn [foldl length]; [by rewrite Z.mul_1_r, Z.add_0_r|].
  rewrite (IH (v * base + digit_value c)), (IH (0 * base + digit_value c)).
  rewrite Nat2Z.inj_succ, Z.pow_succ_r by lia. ring.
Qed.

(** The digits of a number, the first of them not a zero unless it is the only one. *)
Lemma run_itoa_loop n i p : 0 <= i -> i < 10 ^ Z.of_nat n -> (0 < n)%nat ->
  exists ds, itoa_loop n i p = Some (ds ++ p) /\ Forall (is_digit_of 10) ds /\ ds <> [] /\ value_of 10 ds = i /\
    (0 < i -> deref ds <> 48).
Proof.
  revert i p. induction n as [|n IH]; intros i p Hi Hlt Hn; [lia|]. cbn [itoa_loop]. cbv zeta.
  pose proof (Z.div_mod i 10 ltac:(lia)). pose proof (Z.mod_pos_bound i 10 ltac:(lia)).
  destruct (decimal_digit (i mod 10) ltac:(lia)) as (Hdig & Hval & Hz). destruct (Z.ltb_spec 0 (i / 10)) as [Hpos|Hneg].
  - assert (i / 10 < 10 ^ Z.of_nat n) as Hlt' by (apply Z.div_lt_upper_bound; [lia|]; rewrite Nat2Z.inj_succ, Z.pow_succ_r in Hlt by lia; lia).
    destruct n as [|n]; [change (10 ^ Z.of_nat 0) with 1 in Hlt'; lia|].
    destruct (IH (i / 10) ((48 + i mod 10) :: p) ltac:(lia) Hlt' ltac:(lia)) as (ds & -> & Hds & Hne & Hv & Hfirst).
    exists (ds ++ [48 + i mod 10]). split; [by rewrite <- app_assoc|]. split; [apply Forall_app; split; [done|by apply list.Forall_cons]|].
    split; [by destruct ds|]. split.
    + unfold value_of in *. rewrite foldl_app, Hv. cbn [foldl]. lia.
    + intros _. specialize (Hfirst Hpos). by destruct ds.
  - exists [48 + i mod 10]. assert (i / 10 = 0) by (pose proof (Z.div_pos i 10); lia).
    split; [done|]. split; [by apply list.Forall_cons|]. split; [done|]. split; [unfold value_of; cbn [foldl]; lia|].
    intros Hp. cbn [deref]. lia.
Qed.

(** A number in decimal digits, as [simple_itoa] writes it, is read back. *)
Lemma strtoul_itoa i rest : 0 <= i < 2 ^ 32 -> match rest with [] => True | c :: _ => isxdigit c = false /\ c <> 120 end ->
  exists s, simple_itoa i = Some s /\ simple_strtoul (s ++ rest) 10 = (i, rest) /\ s <> [] /\ Forall (is_digit_of 10) s.
Proof.
  intros Hi Hrest. unfold simple_strtoul, strto.
  assert (match rest with [] => True | c :: _ => ~ (isxdigit c = true /\ digit_value c < 10) end) as Hstop.
  { destruct rest as [|c rest]; [done|]. destruct Hrest as [-> _]. by intros [? _]. }
  destruct (Z.eq_dec i 0) as [->|Hnz].
  - exists [48]. split; [done|]. split; [|split; [done|]].
    2:{ apply list.Forall_cons. split; [exact (proj1 (decimal_digit 0 ltac:(lia)))|apply list.Forall_nil_2]. }
    cbn [app deref drop Z.eqb Pos.eqb]. rewrite drop_0.
    assert ((deref rest =? 120) = false) as -> by (destruct rest as [|c rest]; [done|]; apply Z.eqb_neq, Hrest).
    exact (run_strto_loop 32 10 [] rest 0 ltac:(lia) (list.Forall_nil_2 _) Hstop).
  - unfold simple_itoa. destruct (run_itoa_loop 21 i [] ltac:(lia) ltac:(simpl; lia) ltac:(lia)) as (ds & -> & Hds & Hne & Hv & Hfirst).
    rewrite app_nil_r. exists ds. split; [done|]. split; [|done]. specialize (Hfirst ltac:(lia)).
    destruct ds as [|c ds]; [done|]. cbn [app deref] in *. destruct (Z.eqb_spec c 48); [done|].
    pose proof (run_strto_loop 32 10 (c :: ds) rest 0 ltac:(lia) Hds Hstop) as E. fold (value_of 10 (c :: ds)) in E.
    rewrite Hv, (Z.mod_small i) in E by lia. exact E.
Qed.

(** what [simple_itoa] writes for a number of 32 bits, [simple_strtoul] and
    [strict_strtoul] read back. *)
Theorem itoa_strtoul i : 0 <= i < 2 ^ 32 ->
  exists s, simple_itoa i = Some s /\ simple_strtoul s 10 = (i, []) /\ strict_strtoul s 10 = (0, i).
Proof.
  intros Hi. destruct (strtoul_itoa i [] Hi I) as (s & Es & Er & Hne & _). rewrite app_nil_r in Er. exists s.
  split; [done|]. split; [done|]. unfold strict_strtoul. rewrite Er. by destruct s.
Qed.
Lemma itoa_strtoul_witness : exists s, simple_itoa 65536 = Some s /\ simple_strtoul s 10 = (65536, []) /\ strict_strtoul s 10 = (0, 65536).
Proof. exact (itoa_strtoul 65536 ltac:(lia)). Defined.

(** ** Quirks *)

(** In base 10 a prefix "0x" is taken for base 16; 4G is 0; a suffix without "i"
    is left behind. *)
Lemma strtoul_quirks :
  simple_strtoul [48; 120; 49; 48] 10 = (16, []) /\ ustrtoul [52; 71] 0 = (0, [71]) /\ ustrtoul [49; 75; 105; 66] 0 = (1024, []).
Proof. vm_compute. done. Qed.
