(* ===== verification/Membuff.v ===== *)
(** The ring buffer of the console: uboot/lib/membuff.c.

    The pointers of the structure are addresses; [mb_data] is the memory from
    [mb_start] on, as long as the buffer.  A null buffer has the address 0 and no
    memory.  Differences of two of its pointers fit an int, as a buffer is shorter
    than 2^31 bytes ([ring]).  [None] is undefined behaviour: an access outside the
    buffer or outside the caller's array.  memcpy is U-Boot's, which copies upwards
    (lib/string.c). *)
From S2P Require Import Prelude.

Record membuff := Membuff { mb_start : Z; mb_end : Z; mb_head : Z; mb_tail : Z; mb_data : list Z }.

Definition set_head (p : Z) (mb : membuff) : membuff := Membuff (mb_start mb) (mb_end mb) p (mb_tail mb) (mb_data mb).
Definition set_tail (p : Z) (mb : membuff) : membuff := Membuff (mb_start mb) (mb_end mb) (mb_head mb) p (mb_data mb).
Definition set_data (d : list Z) (mb : membuff) : membuff := Membuff (mb_start mb) (mb_end mb) (mb_head mb) (mb_tail mb) d.

(** [n] bytes of an array from the index [i] on, and bytes stored there. *)
Definition read_bytes (i n : Z) (l : list Z) : option (list Z) :=
  if (0 <=? i) && (0 <=? n) && (i + n <=? Z.of_nat (length l)) then Some (take (Z.to_nat n) (drop (Z.to_nat i) l)) else None.
Definition write_bytes (i : Z) (bs l : list Z) : option (list Z) :=
  if (0 <=? i) && (i + Z.of_nat (length bs) <=? Z.of_nat (length l))
  then Some (take (Z.to_nat i) l ++ bs ++ drop (Z.to_nat i + length bs) l) else None.

(** memcpy from and to the buffer; copying nothing touches nothing. *)
Definition load_ring (p n : Z) (mb : membuff) : option (list Z) :=
  if n =? 0 then Some [] else read_bytes (p - mb_start mb) n (mb_data mb).
Definition store_ring (p : Z) (bs : list Z) (mb : membuff) : option membuff :=
  match bs with
  | [] => Some mb
  | _ => d ← write_bytes (p - mb_start mb) bs (mb_data mb); Some (set_data d mb)
  end.

Definition membuff_purge (mb : membuff) : membuff := set_tail (mb_start mb) (set_head (mb_start mb) mb).

(** The number of bytes, and the offset to write them at. *)
Definition membuff_putrawflex (mb : membuff) (maxlen : Z) (update : bool) : Z * Z * membuff :=
  let offset := mb_head mb - mb_start mb in
  let cap len := if (0 <=? maxlen) && (maxlen <? len) then maxlen else len in
  if mb_start mb =? 0 then (0, offset, mb)
  else if mb_tail mb <=? mb_head mb then
    let len := cap (mb_end mb - mb_head mb - 1) in
    let mb := if update then set_head (mb_head mb + len) mb else mb in
    if ((maxlen <? 0) || (len <? maxlen)) && negb (mb_tail mb =? mb_start mb) then
      (len + 1, offset, if update then set_head (mb_start mb) mb else mb)
    else (len, offset, mb)
  else
    let len := cap (mb_tail mb - mb_head mb - 1) in
    (len, offset, if update then set_head (mb_head mb + len) mb else mb).

Definition membuff_putraw (mb : membuff) (maxlen : Z) (update : bool) : Z * Z * membuff :=
  let '(size, offset, mb) := membuff_putrawflex mb maxlen update in
  (size, mb_start mb + offset, mb).

Definition membuff_putbyte (mb : membuff) (ch : Z) : option (bool * membuff) :=
  let '(size, data, mb) := membuff_putraw mb 1 true in
  if negb (size =? 1) then Some (false, mb)
  else mb ← store_ring data [u8 ch] mb; Some (true, mb).

(** [data] is the address the caller's pointer has afterwards. *)
Definition membuff_getraw (mb : membuff) (maxlen : Z) (update : bool) (data : Z) : Z * Z * membuff :=
  let cap len := if (0 <=? maxlen) && (maxlen <? len) then maxlen else len in
  if mb_tail mb <? mb_head mb then
    let len := cap (mb_head mb - mb_tail mb) in
    (len, mb_tail mb, if update then set_tail (mb_tail mb + len) mb else mb)
  else if mb_head mb <? mb_tail mb then
    let len := cap (mb_end mb - mb_tail mb) in
    let data := mb_tail mb in
    (len, data,
     if update then
       let mb := set_tail (mb_tail mb + len) mb in
       if mb_tail mb =? mb_end mb then set_tail (mb_start mb) mb else mb
     else mb)
  else (0, data, mb).

Definition byte_at (p : Z) (mb : membuff) : option Z := bs ← load_ring p 1 mb; head bs.

Definition membuff_getbyte (mb : membuff) : option (Z * membuff) :=
  let '(len, data, mb) := membuff_getraw mb 1 true 0 in
  if negb (len =? 1) then Some (-1, mb) else c ← byte_at data mb; Some (c, mb).

Definition membuff_peekbyte (mb : membuff) : option (Z * membuff) :=
  let '(len, data, mb) := membuff_getraw mb 1 false 0 in
  if negb (len =? 1) then Some (-1, mb) else c ← byte_at data mb; Some (c, mb).

(** The rounds left, the bytes copied so far, and [len] of the last round.  [buff]
    is the caller's array. *)
Fixpoint get_rounds (n : nat) (mb : membuff) (buff : list Z) (got maxlen data len : Z) : option (Z * list Z * membuff) :=
  match n with
  | O => Some (got, buff, mb)
  | S n =>
      if truthy len then
        let '(len, data, mb) := membuff_getraw mb maxlen true data in
        bs ← load_ring data len mb;
        buff ← write_bytes got bs buff;
        get_rounds n mb buff (got + len) (maxlen - len) data len
      else Some (got, buff, mb)
  end.
Definition membuff_get (mb : membuff) (buff : list Z) (maxlen : Z) : option (Z * list Z * membuff) :=
  get_rounds 2 mb buff 0 maxlen 0 1.

Fixpoint put_rounds (n : nat) (mb : membuff) (buff : list Z) (length_ written : Z) : option (Z * membuff) :=
  match n with
  | O => Some (written, mb)
  | S n =>
      let '(towrite, data, mb) := membuff_putraw mb length_ true in
      bs ← read_bytes 0 towrite buff;
      mb ← store_ring data bs mb;
      put_rounds n mb (drop (Z.to_nat towrite) buff) (length_ - towrite) (written + towrite)
  end.
Definition membuff_put (mb : membuff) (buff : list Z) (length_ : Z) : option (Z * membuff) :=
  put_rounds 2 mb buff length_ 0.

Definition membuff_isempty (mb : membuff) : bool := mb_head mb =? mb_tail mb.

Definition membuff_avail (mb : membuff) : Z :=
  let '(len1, data, copy) := membuff_getraw mb (-1) true 0 in
  let '(len2, _, _) := membuff_getraw copy (-1) true data in
  0 + len1 + len2.

Definition membuff_size (mb : membuff) : Z := mb_end mb - mb_start mb.

Definition membuff_free (mb : membuff) : Z :=
  if mb_end mb =? mb_start mb then 0 else (mb_end mb - mb_start mb) - 1 - membuff_avail mb.

(** memmove inside the buffer, and memcpy, which copies upwards. *)
Definition move_ring (dst src n : Z) (mb : membuff) : option membuff :=
  bs ← load_ring src n mb; store_ring dst bs mb.
Definition copy_ring (dst src n : Z) (mb : membuff) : option membuff :=
  if (dst <=? src) || (src + n <=? dst) then move_ring dst src n mb else None.

Definition membuff_makecontig (mb : membuff) : option (bool * membuff) :=
  let finish topsize botsize mb :=
    mb ← copy_ring (mb_start mb) (mb_tail mb) topsize mb;
    let mb := set_tail (mb_start mb) mb in
    Some (true, set_head (mb_start mb + topsize + botsize) mb) in
  if mb_head mb <? mb_tail mb then
    let topsize := mb_end mb - mb_tail mb in
    let botsize := mb_head mb - mb_start mb in
    if mb_tail mb <=? mb_head mb + topsize then Some (false, mb)
    else
      mb ← move_ring (mb_start mb + topsize) (mb_start mb) botsize mb;
      finish topsize botsize mb
  else finish (mb_head mb - mb_tail mb) 0 mb.

(** The loop of membuff_readline at [s], with the end of the part read, the bytes
    read and the caller's array.  The result is [ok] with [s], [len] and the array. *)
Fixpoint read_loop (n : nat) (mb : membuff) (maxlen minch s end_ len : Z) (str : list Z) : option (bool * Z * Z * list Z) :=
  match n with
  | O => None
  | S n =>
      if (s <? end_) && (len <? maxlen - 1) then
        c ← byte_at s mb;
        str ← write_bytes len [c] str;
        let s := s + 1 in
        let len := len + 1 in
        if (c =? 10) || (c <? minch) then Some (true, s, len, str)
        else if (s =? end_) && (mb_head mb <? mb_tail mb) then read_loop n mb maxlen minch (mb_start mb) (mb_head mb) len str
        else read_loop n mb maxlen minch s end_ len str
      else Some (false, s, len, str)
  end.

Definition membuff_readline (mb : membuff) (str : list Z) (maxlen minch : Z) : option (Z * list Z * membuff) :=
  let end_ := if mb_tail mb <=? mb_head mb then mb_head mb else mb_end mb in
  '(ok, s, len, str) ← read_loop (S (Z.to_nat maxlen)) mb maxlen minch (mb_tail mb) end_ 0 str;
  if negb ok then
    str ← (if truthy maxlen then write_bytes 0 [0] str else Some str); Some (0, str, mb)
  else
    str ← write_bytes (len - 1) [0] str;
    Some (len, str, set_tail (if s =? mb_end mb then mb_start mb else s) mb).

Definition ENOMEM : Z := 12.
Definition E2BIG : Z := 7.

(** [size] doubled until it reaches [bound]; [None] when it overflows or when the
    loop does not end. *)
Fixpoint double_loop (n : nat) (size bound : Z) : option Z :=
  match n with
  | O => None
  | S n => if size <? bound then (if size * 2 <? 2 ^ 31 then double_loop n (size * 2) bound else None) else Some size
  end.

Section Allocation.
(** The address of a block of a size, with the bytes behind those it keeps. *)
Context (malloc : Z -> option (Z * list Z)) (realloc : Z -> Z -> option (Z * list Z)).

Definition membuff_extend_by (mb : membuff) (by_ max : Z) : option (Z * membuff) :=
  let orig := mb_end mb - mb_start mb in
  size ← double_loop 32 orig (orig + by_);
  let size := if negb (max =? -1) then Z.min size max else size in
  let by_ := size - orig in
  if by_ <=? 0 then Some (- E2BIG, mb)
  else
    let oldhead := mb_head mb - mb_start mb in
    let oldtail := mb_tail mb - mb_start mb in
    match realloc (mb_start mb) size with
    | None => Some (- ENOMEM, mb)
    | Some (ptr, fill) =>
        let mb := Membuff ptr (mb_end mb) (ptr + oldhead) (ptr + oldtail) (mb_data mb ++ fill) in
        mb ← (if mb_head mb <? mb_tail mb then
                mb ← move_ring (mb_tail mb + by_) (mb_tail mb) (orig - oldtail) mb; Some (set_tail (mb_tail mb + by_) mb)
              else Some mb);
        Some (0, Membuff (mb_start mb) (mb_start mb + size) (mb_head mb) (mb_tail mb) (mb_data mb))
    end.

(** [buff] is the address and [data] the memory there. *)
Definition membuff_init (buff : Z) (data : list Z) (size : Z) : membuff :=
  membuff_purge (Membuff buff (buff + size) buff buff data).

Definition membuff_new (mb : membuff) (size : Z) : Z * membuff :=
  match malloc size with
  | None => (- ENOMEM, Membuff 0 (mb_end mb) (mb_head mb) (mb_tail mb) [])
  | Some (p, data) => (0, membuff_init p data size)
  end.
End Allocation.

Definition membuff_uninit (mb : membuff) : membuff := membuff_purge (Membuff 0 0 (mb_head mb) (mb_tail mb) []).

(** free is given the address of the member [start], which is that of the
    structure, and not the address of the buffer.  [heap_block p]: [p] is the
    beginning of a block of the heap. *)
Definition membuff_dispose (heap_block : Z -> bool) (self : Z) (mb : membuff) : option membuff :=
  if heap_block self then Some (membuff_uninit mb) else None.

(** ** A list with a capacity

    [ring cap mb l]: the buffer is a list [l] of at most [cap] bytes, from the tail
    to the head, in one piece or in two; one byte of the memory is never used. *)
Abbreviation len l := (Z.of_nat (length l)).

Inductive ring (cap : Z) : membuff -> list Z -> Prop :=
| straight s e h t d pre l post : s <> 0 -> post <> [] -> d = pre ++ l ++ post -> e = s + len d ->
    t = s + len pre -> h = t + len l -> cap = len d - 1 -> cap < 2 ^ 31 - 1 -> ring cap (Membuff s e h t d) l
| wrapped s e h t d l2 gap l1 : s <> 0 -> gap <> [] -> l1 <> [] -> d = l2 ++ gap ++ l1 -> e = s + len d ->
    h = s + len l2 -> t = h + len gap -> cap = len d - 1 -> cap < 2 ^ 31 - 1 -> ring cap (Membuff s e h t d) (l1 ++ l2).

Lemma nonempty_length (l : list Z) : l <> [] -> (0 < length l)%nat.
Proof. destruct l; [done|]. cbn. lia. Qed.
Lemma length_nonempty (l : list Z) : (0 < length l)%nat -> l <> [].
Proof. intros H ->. cbn in H. lia. Qed.

Ltac lens := cbn [mb_start mb_end mb_head mb_tail mb_data set_head set_tail set_data] in *;
  rewrite ?length_app, ?length_take, ?length_drop in *; cbn [length] in *.
Ltac nonempty := repeat match goal with H : ?l <> [] |- _ => apply nonempty_length in H end.

Lemma ring_room cap mb l : ring cap mb l -> 0 <= len l <= cap.
Proof. intros H; destruct H; subst; nonempty; lens; lia. Qed.

Lemma read_middle i n (pre bs post : list Z) : i = len pre -> n = len bs -> read_bytes i n (pre ++ bs ++ post) = Some bs.
Proof.
  intros -> ->. unfold read_bytes. lens. rewrite !Nat2Z.id, drop_app_length, take_app_length.
  by rewrite !(proj2 (Z.leb_le _ _)) by lia.
Qed.
Lemma write_middle i (pre old post bs : list Z) : i = len pre -> length bs = length old ->
  write_bytes i bs (pre ++ old ++ post) = Some (pre ++ bs ++ post).
Proof.
  intros -> H. unfold write_bytes. lens. rewrite Nat2Z.id, take_app_length, H.
  rewrite !(proj2 (Z.leb_le _ _)) by lia. cbn [andb].
  by rewrite <- drop_drop, drop_app_length, drop_app_length.
Qed.
Lemma load_middle p n mb pre bs post : mb_data mb = pre ++ bs ++ post -> p = mb_start mb + len pre -> n = len bs ->
  load_ring p n mb = Some bs.
Proof.
  intros Hd -> ->. unfold load_ring. destruct (Z.eqb_spec (len bs) 0); [by destruct bs|].
  rewrite Hd. apply read_middle; lia.
Qed.
Lemma store_middle p mb pre old post bs : mb_data mb = pre ++ old ++ post -> p = mb_start mb + len pre ->
  length bs = length old -> store_ring p bs mb = Some (set_data (pre ++ bs ++ post) mb).
Proof.
  intros Hd -> H. destruct bs as [|c bs].
  - destruct old; [|done]. cbn [store_ring]. rewrite <- Hd. by destruct mb.
  - cbn [store_ring]. rewrite Hd, (write_middle _ pre old post) by (done || lia). done.
Qed.

Lemma split_list n (l : list Z) : 0 <= n <= len l -> exists a b, l = a ++ b /\ n = len a.
Proof. intros H. exists (take (Z.to_nat n) l), (drop (Z.to_nat n) l). rewrite take_drop. split; [done|]. lens. lia. Qed.

(** ** Writing *)

Definition is_wrapped (mb : membuff) : Prop := mb_head mb < mb_tail mb.

Ltac fold_arith := repeat first [rewrite (proj2 (Z.ltb_lt _ _)) by lia | rewrite (proj2 (Z.ltb_ge _ _)) by lia
  | rewrite (proj2 (Z.leb_le _ _)) by lia | rewrite (proj2 (Z.leb_gt _ _)) by lia
  | rewrite (proj2 (Z.eqb_eq _ _)) by lia | rewrite (proj2 (Z.eqb_neq _ _)) by lia]; cbn [andb orb negb].

(** Bytes stored behind the list, when the end of the buffer is farther away. *)
Lemma store_behind cap s e h h' t d pre l post bs : s <> 0 -> d = pre ++ l ++ post -> e = s + len d ->
  t = s + len pre -> h = t + len l -> cap = len d - 1 -> cap < 2 ^ 31 - 1 -> (length bs < length post)%nat -> h' = h + len bs ->
  exists mb, store_ring h bs (Membuff s e h' t d) = Some mb /\ ring cap mb (l ++ bs).
Proof.
  intros Hs Hd He Ht Hh Hcap Hsmall Hbs ->. assert (Hlen := f_equal (fun x => len x) Hd). cbn beta in Hlen.
  destruct (split_list (len bs) post) as (old & post' & -> & Hold); [lia|]. lens.
  erewrite (store_middle _ _ (pre ++ l) old post'); [|cbn; by rewrite Hd, <- !app_assoc|cbn; lens; lia|lia].
  eexists. split; [done|]. cbn. apply (straight cap s e _ t _ pre (l ++ bs) post'); lens; try lia; [apply length_nonempty; lia|by rewrite <- !app_assoc].
Qed.

(** The rest of the buffer filled to its last byte: the head goes to the start. *)
Lemma store_to_end cap s e h t d pre l post bs : s <> 0 -> pre <> [] -> post <> [] -> d = pre ++ l ++ post -> e = s + len d ->
  t = s + len pre -> h = t + len l -> cap = len d - 1 -> cap < 2 ^ 31 - 1 -> length bs = length post ->
  exists mb, store_ring h bs (Membuff s e s t d) = Some mb /\ ring cap mb (l ++ bs) /\ is_wrapped mb.
Proof.
  intros Hs Hpre Hpost Hd He Ht Hh Hcap Hsmall Hbs. assert (Hlen := f_equal (fun x => len x) Hd). cbn beta in Hlen. nonempty. lens.
  erewrite (store_middle _ _ (pre ++ l) post []); [|cbn; by rewrite Hd, <- !app_assoc, app_nil_r|cbn; lens; lia|lia].
  eexists. split; [done|]. split; [|unfold is_wrapped; cbn; lia]. cbn. rewrite <- (app_nil_r (l ++ bs)).
  apply (wrapped cap s e s t _ [] pre (l ++ bs)); cbn; lens; try lia; [apply length_nonempty; lia|apply length_nonempty; lens; lia|].
  by rewrite <- !app_assoc, app_nil_r.
Qed.

Lemma store_gap cap s e h h' t d l2 gap l1 bs : s <> 0 -> l1 <> [] -> d = l2 ++ gap ++ l1 -> e = s + len d ->
  h = s + len l2 -> t = h + len gap -> cap = len d - 1 -> cap < 2 ^ 31 - 1 -> (length bs < length gap)%nat -> h' = h + len bs ->
  exists mb, store_ring h bs (Membuff s e h' t d) = Some mb /\ ring cap mb ((l1 ++ l2) ++ bs).
Proof.
  intros Hs Hl1 Hd He Hh Ht Hcap Hsmall Hbs ->. assert (Hlen := f_equal (fun x => len x) Hd). cbn beta in Hlen.
  destruct (split_list (len bs) gap) as (old & gap' & -> & Hold); [lia|]. lens.
  erewrite (store_middle _ _ l2 old (gap' ++ l1)); [|cbn; by rewrite Hd, <- !app_assoc|cbn; lens; lia|lia].
  eexists. split; [done|]. rewrite <- app_assoc.
  apply (wrapped cap s e _ t _ (l2 ++ bs) gap' l1); cbn; lens; try done; try lia; [apply length_nonempty; lia|by rewrite <- !app_assoc].
Qed.

(** One turn of putraw and memcpy. *)
Lemma run_putraw cap mb l m : ring cap mb l -> 0 <= m ->
  exists size data mb1, membuff_putraw mb m true = (size, data, mb1) /\ 0 <= size <= Z.min m (cap - len l) /\
    (0 < Z.min m (cap - len l) -> 0 < size) /\
    (forall bs, len bs = size -> exists mb2, store_ring data bs mb1 = Some mb2 /\ ring cap mb2 (l ++ bs) /\
      (size < Z.min m (cap - len l) -> is_wrapped mb2)) /\
    (is_wrapped mb -> size = Z.min m (cap - len l)).
Proof.
  intros H Hm. unfold membuff_putraw, membuff_putrawflex.
  destruct H as [s e h t d pre l post Hs Hpost Hd He Ht Hh Hcap Hsmall|s e h t d l2 gap l1 Hs Hgap Hl1 Hd He Hh Ht Hcap Hsmall];
    cbn [mb_start mb_end mb_head mb_tail mb_data]; assert (Hlen := f_equal (fun x => len x) Hd); cbn beta in Hlen;
    rewrite !length_app in Hlen.
  - pose proof (nonempty_length _ Hpost). fold_arith.
    set (k := if m <? e - h - 1 then m else e - h - 1).
    assert (k = Z.min m (e - h - 1)) as Hk by (unfold k; destruct (Z.ltb_spec m (e - h - 1)); lia).
    cbn [set_head mb_start mb_tail mb_end mb_head mb_data]. destruct ((k <? m) && negb (t =? s)) eqn:E; cbn [set_head mb_start].
    + apply andb_true_iff in E as [E1 E2]. apply negb_true_iff, Z.eqb_neq in E2.
      apply Z.ltb_lt in E1.
      eexists _, _, _. split; [done|]. split; [lia|]. split; [lia|]. split; [|unfold is_wrapped; cbn; lia].
      intros bs Hbs. replace (s + (h - s)) with h by lia. destruct (store_to_end cap s e h t d pre l post bs) as (mb & ? & ? & ?); try done; try lia; [|exists mb; split; [done|]; by split].
      apply length_nonempty. lia.
    + assert (k = m \/ t = s) as Hk'.
      { apply andb_false_iff in E as [E|E]; [apply Z.ltb_ge in E; lia|apply negb_false_iff, Z.eqb_eq in E; lia]. }
      eexists _, _, _. split; [done|]. split; [lia|]. split; [lia|]. split; [|unfold is_wrapped; cbn; lia].
      intros bs Hbs. replace (s + (h - s)) with h by lia. destruct (store_behind cap s e h (h + k) t d pre l post bs) as (mb & ? & ?); try done; try lia.
      exists mb. split; [done|]. split; [done|]. lia.
  - apply nonempty_length in Hgap. fold_arith.
    set (k := if m <? t - h - 1 then m else t - h - 1).
    assert (k = Z.min m (t - h - 1)) as Hk by (unfold k; destruct (Z.ltb_spec m (t - h - 1)); lia).
    cbn [set_head mb_start mb_tail mb_end mb_head mb_data]. eexists _, _, _. split; [done|]. rewrite length_app. split; [lia|]. split; [lia|]. split; [|lia].
    intros bs Hbs. replace (s + (h - s)) with h by lia. destruct (store_gap cap s e h (h + k) t d l2 gap l1 bs) as (mb & ? & ?); try done; try lia.
    exists mb. split; [done|]. split; [done|]. lia.
Qed.

Lemma run_putbyte cap mb l ch : ring cap mb l ->
  exists mb', membuff_putbyte mb ch = Some (bool_decide (len l < cap), mb') /\
    ring cap mb' (if bool_decide (len l < cap) then l ++ [u8 ch] else l).
Proof.
  intros H. pose proof (ring_room _ _ _ H). unfold membuff_putbyte.
  destruct (run_putraw cap mb l 1 H ltac:(lia)) as (size & data & mb1 & -> & Hsize & Hpos & Hstore & _).
  case_bool_decide.
  - assert (size = 1) as -> by lia. destruct (Hstore [u8 ch]) as (mb2 & E & Hr & _); [done|]. cbn [negb Z.eqb Pos.eqb].
    rewrite E. by exists mb2.
  - assert (size = 0) as -> by lia. destruct (Hstore []) as (mb2 & E & Hr & _); [done|]. injection E as <-.
    exists mb1. by rewrite app_nil_r in Hr.
Qed.

Lemma read_front n (l : list Z) : 0 <= n <= len l -> read_bytes 0 n l = Some (take (Z.to_nat n) l).
Proof. intros H. unfold read_bytes. by rewrite !(proj2 (Z.leb_le _ _)) by lia. Qed.

Lemma put_round cap mb l buff m n w : ring cap mb l -> 0 <= m <= len buff ->
  exists size mb2, put_rounds (S n) mb buff m w = put_rounds n mb2 (drop (Z.to_nat size) buff) (m - size) (w + size) /\
    ring cap mb2 (l ++ take (Z.to_nat size) buff) /\ 0 <= size <= Z.min m (cap - len l) /\
    (size < Z.min m (cap - len l) -> is_wrapped mb2) /\ (is_wrapped mb -> size = Z.min m (cap - len l)).
Proof.
  intros H Hm. cbn [put_rounds]. destruct (run_putraw cap mb l m H ltac:(lia)) as (size & data & mb1 & -> & Hsize & _ & Hstore & Hw).
  destruct (Hstore (take (Z.to_nat size) buff)) as (mb2 & E & Hr & Hw2); [lens; lia|].
  rewrite read_front by lia. cbn [mbind option_bind]. rewrite E. by exists size, mb2.
Qed.

(** Both turns together write all that fits. *)
Lemma run_put cap mb l buff m : ring cap mb l -> 0 <= m <= len buff ->
  exists mb', let w := Z.min m (cap - len l) in membuff_put mb buff m = Some (w, mb') /\ ring cap mb' (l ++ take (Z.to_nat w) buff).
Proof.
  intros H Hm. pose proof (ring_room _ _ _ H). unfold membuff_put.
  destruct (put_round cap mb l buff m 1 0 H Hm) as (k1 & mb1 & -> & H1 & Hk1 & Hw1 & _).
  destruct (put_round cap mb1 _ (drop (Z.to_nat k1) buff) (m - k1) 0 (0 + k1) H1) as (k2 & mb2 & -> & H2 & Hk2 & _ & Hw2); [lens; lia|].
  lens. assert (k1 + k2 = Z.min m (cap - len l)) as <-.
  { destruct (decide (k1 < Z.min m (cap - len l))); [specialize (Hw2 (Hw1 ltac:(lia)))|]; lia. }
  exists mb2. cbn [put_rounds]. split; [done|]. rewrite <- app_assoc in H2.
  rewrite Z2Nat.inj_add, <- take_take_drop by lia. done.
Qed.

(** ** Reading *)

(** One turn of getraw: the bytes it points to, and the buffer without them. *)
Definition wanted (m : Z) (l : list Z) : Z := if m <? 0 then len l else Z.min m (len l).

(** What a turn with the limit [m] has found: [k] bytes at [p], and the buffer [mb1]
    after it. *)
Record found cap mb l m k p mb1 : Prop := {
  found_bounds : 0 <= k <= wanted m l;
  found_some : 0 < wanted m l -> 0 < k;
  found_before : load_ring p k mb = Some (take (Z.to_nat k) l);
  found_after : load_ring p k mb1 = Some (take (Z.to_nat k) l);
  found_ring : ring cap mb1 (drop (Z.to_nat k) l);
  found_turn : k < wanted m l -> ~ is_wrapped mb1;
  found_all : ~ is_wrapped mb -> k = wanted m l
}.

(** The limit of a turn that has [n] bytes in one piece. *)
Lemma limit m n : 0 <= n ->
  let k := if (0 <=? m) && (m <? n) then m else n in
  k = (if m <? 0 then n else Z.min m n) /\ 0 <= k <= n /\ (0 <= m -> k <= m) /\ (m < 0 -> k = n) /\ (k < n -> k = m).
Proof. intros Hn. destruct (Z.leb_spec 0 m), (Z.ltb_spec m n), (Z.ltb_spec m 0); cbn [andb]; lia. Qed.

Ltac loads pre bs post := apply (load_middle _ _ _ pre bs post); cbn; rewrite ?length_app; [by subst; rewrite ?app_nil_r, <- ?app_assoc|lia|lia].

Lemma straight_found cap s e h t d pre l1 l2 post m : let mb := Membuff s e h t d in
  s <> 0 -> post <> [] -> d = pre ++ (l1 ++ l2) ++ post -> e = s + len d -> t = s + len pre -> h = t + len (l1 ++ l2) ->
  cap = len d - 1 -> cap < 2 ^ 31 - 1 -> len l1 = wanted m (l1 ++ l2) ->
  found cap mb (l1 ++ l2) m (len l1) t (set_tail (t + len l1) mb).
Proof.
  intros mb Hs Hpost Hd He Ht Hh Hcap Hsmall Hk. unfold mb, is_wrapped.
  split; cbn; rewrite ?Nat2Z.id, ?take_app_length, ?drop_app_length; try lia; [loads pre l1 (l2 ++ post)|loads pre l1 (l2 ++ post)|].
  apply (straight cap s e h _ d (pre ++ l1) l2 post); lens; try done; try lia. by rewrite Hd, <- !app_assoc.
Qed.

Lemma wrapped_found cap s e h t d l2 gap a b m : let mb := Membuff s e h t d in
  s <> 0 -> gap <> [] -> a ++ b <> [] -> d = l2 ++ gap ++ a ++ b -> e = s + len d -> h = s + len l2 -> t = h + len gap ->
  cap = len d - 1 -> cap < 2 ^ 31 - 1 -> len a = wanted m (a ++ b) ->
  found cap mb ((a ++ b) ++ l2) m (len a) t
    (if t + len a =? e then set_tail s (set_tail (t + len a) mb) else set_tail (t + len a) mb).
Proof.
  intros mb Hs Hgap Hab Hd He Hh Ht Hcap Hsmall Hk. apply nonempty_length in Hgap, Hab.
  assert (Hlen := f_equal (fun x => len x) Hd). cbn beta in Hlen. lens. unfold wanted in Hk. lens.
  rewrite <- app_assoc. unfold mb. destruct (Z.eqb_spec (t + len a) e).
  - assert (b = []) as -> by (destruct b; [done|cbn [length] in *; lia]). cbn [app] in *. rewrite app_nil_r in *.
    split; unfold wanted, is_wrapped; lens; rewrite ?Nat2Z.id, ?take_app_length, ?drop_app_length; try (destruct (Z.ltb_spec m 0); lia);
      [loads (l2 ++ gap) a (@nil Z)|loads (l2 ++ gap) a (@nil Z)|].
    apply (straight cap s e h s d [] l2 (gap ++ a)); lens; try done; try lia. apply length_nonempty. lens. lia.
  - split; unfold wanted, is_wrapped; lens; rewrite ?Nat2Z.id, ?take_app_length, ?drop_app_length; try (destruct (Z.ltb_spec m 0); lia);
      [loads (l2 ++ gap) a b|loads (l2 ++ gap) a b|].
    apply (wrapped cap s e h _ d l2 (gap ++ a) b); lens; try done; try lia; [apply length_nonempty; lens; lia|apply length_nonempty; lia|].
    by rewrite Hd, <- !app_assoc.
Qed.

Lemma run_getraw cap mb l m data : ring cap mb l ->
  exists k p mb1, membuff_getraw mb m true data = (k, p, mb1) /\ membuff_getraw mb m false data = (k, p, mb) /\
    found cap mb l m k p mb1.
Proof.
  intros H. unfold membuff_getraw.
  destruct H as [s e h t d pre l post Hs Hpost Hd He Ht Hh Hcap Hsmall|s e h t d l2 gap l1 Hs Hgap Hl1 Hd He Hh Ht Hcap Hsmall];
    cbn [mb_start mb_end mb_head mb_tail mb_data set_tail].
  - rewrite (proj2 (Z.ltb_ge h t)) by lia. destruct (Z.ltb_spec t h).
    + destruct (limit m (h - t) ltac:(lia)) as (Hk & Hkn & _). cbv zeta in *. set (k := if _ && _ then _ else _) in *. clearbody k.
      destruct (split_list k l) as (a & b & -> & ->); [lia|].
      eexists _, _, _. split; [done|]. split; [done|]. apply (straight_found cap s e h t d pre a b post); try done.
      rewrite Hk. unfold wanted. by replace (h - t) with (len (a ++ b)) by lia.
    + assert (l = []) as -> by (destruct l; [done|cbn [length] in *; lia]).
      eexists _, _, _. split; [done|]. split; [done|].
      assert (wanted m [] = 0) as Hw by (unfold wanted; cbn [length]; destruct (Z.ltb_spec m 0); lia).
      split; rewrite ?Hw; try done. cbn [length] in *. by apply (straight cap s e h t d pre [] post).
  - pose proof (nonempty_length _ Hgap). assert (Hlen := f_equal (fun x => len x) Hd). cbn beta in Hlen. rewrite !length_app in Hlen.
    rewrite (proj2 (Z.ltb_ge t h)), (proj2 (Z.ltb_lt h t)) by lia.
    destruct (limit m (e - t) ltac:(lia)) as (Hk & Hkn & _). cbv zeta in *. set (k := if _ && _ then _ else _) in *. clearbody k.
    destruct (split_list k l1) as (a & b & -> & ->); [lia|].
    eexists _, _, _. split; [done|]. split; [done|]. apply (wrapped_found cap s e h t d l2 gap a b); try done.
    rewrite Hk. unfold wanted. by replace (e - t) with (len (a ++ b)) by lia.
Qed.

(** One round of membuff_get: the bytes stored behind those the caller has. *)
Lemma get_round cap mb l done_ rest m data x n : ring cap mb l -> x <> 0 -> wanted m l <= len rest ->
  exists k p mb1, let bs := take (Z.to_nat k) l in
    get_rounds (S n) mb (done_ ++ rest) (len done_) m data x =
      get_rounds n mb1 ((done_ ++ bs) ++ drop (Z.to_nat k) rest) (len (done_ ++ bs)) (m - k) p k /\
    found cap mb l m k p mb1.
Proof.
  intros H Hx Hroom. destruct (run_getraw cap mb l m data H) as (k & p & mb1 & E & _ & F). exists k, p, mb1. split; [|done].
  assert (wanted m l <= len l) as Hwl by (unfold wanted; destruct (Z.ltb_spec m 0); lia).
  pose proof (found_bounds _ _ _ _ _ _ _ F). cbn [get_rounds]. rewrite (proj2 (truthy_true x)), E, (found_after _ _ _ _ _ _ _ F) by done.
  cbn [mbind option_bind]. destruct (split_list k rest) as (old & rest' & -> & ->); [lia|].
  rewrite (write_middle _ done_ old rest') by (lens; lia). cbn [mbind option_bind].
  rewrite Nat2Z.id, drop_app_length, <- app_assoc. lens. by replace (len done_ + len old) with (Z.of_nat (length done_ + length old `min` length l)) by lia.
Qed.

(** Both turns together read all that is wanted. *)
Lemma run_get cap mb l m buff : ring cap mb l -> wanted m l <= len buff ->
  exists mb', let w := wanted m l in
    membuff_get mb buff m = Some (w, take (Z.to_nat w) l ++ drop (Z.to_nat w) buff, mb') /\ ring cap mb' (drop (Z.to_nat w) l).
Proof.
  intros H Hroom. unfold membuff_get.
  destruct (get_round cap mb l [] buff m 0 1 1 H) as (k & p & mb1 & E & [B S _ _ R T _]); [done|done|]. cbn [app length] in E. change (Z.of_nat 0) with 0 in E. rewrite E. clear E.
  assert (wanted m l <= len l) as Hwl by (unfold wanted; destruct (Z.ltb_spec m 0); lia).
  destruct (decide (k = 0)) as [->|Hk].
  - assert (wanted m l = 0) as -> by lia. exists mb1. done.
  - assert (wanted (m - k) (drop (Z.to_nat k) l) = wanted m l - k) as Hw.
    { unfold wanted in *. lens. destruct (Z.ltb_spec m 0), (Z.ltb_spec (m - k) 0); lia. }
    destruct (get_round cap mb1 _ (take (Z.to_nat k) l) (drop (Z.to_nat k) buff) (m - k) p k 0 R Hk) as (k2 & p2 & mb2 & E & [B2 S2 _ _ R2 T2 A2]); [lens; lia|].
    rewrite E. cbn [get_rounds]. exists mb2. rewrite Hw in *.
    assert (wanted m l = k + k2) as ->.
    { destruct (decide (k < wanted m l)) as [Hlt|]; [specialize (A2 (T Hlt))|]; lia. }
    rewrite Z2Nat.inj_add by lia. rewrite !drop_drop in *. rewrite <- take_take_drop. split; [|done]. lens. do 3 f_equal. lia.
Qed.

(** ** Single bytes and sizes *)

Lemma found_one cap mb l p mb1 k : found cap mb l 1 k p mb1 -> k = Z.min 1 (len l).
Proof. intros [B S]. unfold wanted in *. rewrite (proj2 (Z.ltb_ge 1 0)) in * by lia. lia. Qed.

Definition byte_of_list (l : list Z) : Z := default (-1) (head l).

Lemma run_getbyte cap mb l : ring cap mb l ->
  exists mb', membuff_getbyte mb = Some (byte_of_list l, mb') /\ ring cap mb' (tail l).
Proof.
  intros H. unfold membuff_getbyte. destruct (run_getraw cap mb l 1 0 H) as (k & p & mb1 & -> & _ & F).
  pose proof (found_one _ _ _ _ _ _ F) as ->. exists mb1. pose proof (found_ring _ _ _ _ _ _ _ F) as R. pose proof (found_after _ _ _ _ _ _ _ F) as L.
  destruct l as [|c l]; [by split; [|exact R]|]. replace (Z.min 1 (len (c :: l))) with 1 in * by (cbn [length]; lia). cbn [Z.eqb Pos.eqb negb].
  unfold byte_at. rewrite L. split; [done|exact R].
Qed.

Lemma run_peekbyte cap mb l : ring cap mb l -> membuff_peekbyte mb = Some (byte_of_list l, mb).
Proof.
  intros H. unfold membuff_peekbyte. destruct (run_getraw cap mb l 1 0 H) as (k & p & mb1 & _ & -> & F).
  pose proof (found_one _ _ _ _ _ _ F) as ->. pose proof (found_before _ _ _ _ _ _ _ F) as L.
  destruct l as [|c l]; [done|]. replace (Z.min 1 (len (c :: l))) with 1 in * by (cbn [length]; lia). cbn [Z.eqb Pos.eqb negb].
  unfold byte_at. by rewrite L.
Qed.

Lemma run_avail cap mb l : ring cap mb l -> membuff_avail mb = len l.
Proof.
  intros H. unfold membuff_avail.
  destruct (run_getraw cap mb l (-1) 0 H) as (k & p & mb1 & -> & _ & [B _ _ _ R T _]).
  destruct (run_getraw cap mb1 _ (-1) p R) as (k2 & p2 & mb2 & -> & _ & [B2 _ _ _ _ _ A2]).
  unfold wanted in *. cbn [Z.ltb Z.compare] in *. lens.
  destruct (decide (k < len l)) as [Hlt|]; [specialize (A2 (T Hlt))|]; lia.
Qed.

Lemma ring_shape cap s e h t d l : ring cap (Membuff s e h t d) l ->
  s <= h < e /\ s <= t < e /\ (t <= h -> len l = h - t) /\ (h < t -> 0 < len l).
Proof. intros H. inversion H as [? ? ? ? ? ? ? ? ? ? Hd|? ? ? ? ? ? ? ? ? ? ? Hd]; subst; nonempty; lens; lia. Qed.

Lemma ring_start cap mb l : ring cap mb l -> is_wrapped mb ->
  exists l1 l2, l = l1 ++ l2 /\ ring cap (set_tail (mb_start mb) mb) l2 /\ mb_start mb <= mb_head mb.
Proof.
  intros H Hw. unfold is_wrapped in Hw.
  destruct H as [|s e h t d l2 gap l1 Hs Hgap Hl1 Hd He Hh Ht Hcap Hsmall]; cbn in Hw; [lia|]. exists l1, l2. split; [done|].
  split; cbn; [|lia]. apply (straight cap s e h s d [] l2 (gap ++ l1)); lens; try done; try lia.
  nonempty. apply length_nonempty. lens. lia.
Qed.

Lemma ring_size cap mb l : ring cap mb l -> membuff_size mb = cap + 1 /\ mb_start mb <> 0 /\ 0 <= cap.
Proof.
  intros H. pose proof (ring_room _ _ _ H). unfold membuff_size. destruct H; cbn; lia.
Qed.

Lemma run_free_room cap mb l : ring cap mb l -> membuff_free mb = cap - len l.
Proof.
  intros H. pose proof (ring_size _ _ _ H). unfold membuff_free, membuff_size in *. rewrite (run_avail _ _ _ H).
  destruct (Z.eqb_spec (mb_end mb) (mb_start mb)); lia.
Qed.

Lemma run_isempty cap mb l : ring cap mb l -> membuff_isempty mb = bool_decide (l = []).
Proof.
  intros H. unfold membuff_isempty. destruct H; cbn [mb_head mb_tail].
  - destruct l; cbn [length] in *; [by rewrite bool_decide_true, (proj2 (Z.eqb_eq _ _)) by (done || lia)|].
    by rewrite bool_decide_false, (proj2 (Z.eqb_neq _ _)) by (done || lia).
  - nonempty. rewrite (proj2 (Z.eqb_neq _ _)) by lia. symmetry. apply bool_decide_eq_false. intros E%(f_equal length). lens. lia.
Qed.

Lemma run_init cap p data : p <> 0 -> cap = len data - 1 -> 0 <= cap < 2 ^ 31 - 1 -> ring cap (membuff_init p data (len data)) [].
Proof.
  intros Hp Hc H. apply (straight cap p (p + len data) p p data [] [] data); cbn [length app]; try done; try lia. apply length_nonempty. lia.
Qed.

Lemma run_purge cap mb l : ring cap mb l -> ring cap (membuff_purge mb) [].
Proof.
  intros H. pose proof (ring_room _ _ _ H).
  destruct H as [s e h t d|s e h t d]; cbn; apply (straight cap s e s s d [] [] d); cbn [length app]; try done; try lia; apply length_nonempty; lia.
Qed.

(** ** Lines *)

Section Lines.
Context (maxlen minch : Z).

Definition ends (c : Z) : bool := (c =? 10) || (c <? minch).

(** The length of the first line, with the byte that ends it. *)
Fixpoint line_length (l : list Z) : option Z :=
  match l with
  | [] => None
  | c :: l => if ends c then Some 1 else (n ← line_length l; Some (n + 1))
  end.

Lemma line_length_split l : match line_length l with
  | Some n => exists a c b, l = a ++ c :: b /\ Forall (fun c => ends c = false) a /\ ends c = true /\ n = len a + 1
  | None => Forall (fun c => ends c = false) l
  end.
Proof.
  induction l as [|c l IH]; [by constructor|]. cbn [line_length]. destruct (ends c) eqn:E; [by exists [], c, l|].
  destruct (line_length l) as [n|]; cbn [mbind option_bind]; [|by constructor].
  destruct IH as (a & c' & b & -> & Ha & Hc & ->). exists (c :: a), c', b. split; [done|]. split; [by constructor|]. split; [done|]. cbn [length]. lia.
Qed.

Context (cap : Z) (mb : membuff).
Definition part_end (s : Z) : Z := if s <=? mb_head mb then mb_head mb else mb_end mb.
Definition next (s : Z) : Z := if s + 1 =? mb_end mb then mb_start mb else s + 1.
(** Reading at [s]: what is left is [l]. *)
Definition reading (s : Z) (l : list Z) : Prop := ring cap (set_tail s mb) l /\ (mb_head mb < s -> is_wrapped mb).

Lemma reading_byte s c l : reading s (c :: l) ->
  byte_at s mb = Some c /\ reading (next s) l /\ mb_start mb <= s < part_end s /\ mb_start mb <= mb_head mb < mb_end mb /\
  (s + 1 = part_end s -> if mb_head mb <? s then next s = mb_start mb else l = []) /\
  (s + 1 <> part_end s -> next s = s + 1 /\ part_end (s + 1) = part_end s).
Proof.
  intros [R W]. destruct (run_getraw cap _ _ 1 0 R) as (k & p & mb1 & E & _ & F).
  pose proof (found_one _ _ _ _ _ _ F) as Hk. replace (Z.min 1 (len (c :: l))) with 1 in Hk by (cbn [length]; lia). subst k.
  pose proof (found_before _ _ _ _ _ _ _ F) as L. pose proof (found_ring _ _ _ _ _ _ _ F) as R1. cbn [Z.to_nat Pos.to_nat Pos.iter_op take drop] in L, R1.
  clear F. unfold reading, part_end, next, byte_at. destruct mb as [s0 e h t d]. unfold is_wrapped in *. cbn [set_tail mb_start mb_end mb_head mb_tail mb_data] in *.
  destruct (ring_shape _ _ _ _ _ _ _ R) as (Hh & Ht & Hl & _). unfold membuff_getraw in E.
  cbn [length set_tail mb_start mb_end mb_head mb_tail mb_data] in Hh, Ht, Hl.
  cbn [set_tail mb_start mb_end mb_head mb_tail mb_data] in E.
  destruct (Z.ltb_spec s h) as [Hsh|Hsh].
  - assert ((if 1 <? h - s then 1 else h - s) = 1) as Ek by (destruct (Z.ltb_spec 1 (h - s)); lia). cbn [andb Z.leb Z.compare] in E.
    rewrite Ek in E. injection E as <- <-. rewrite (proj2 (Z.leb_le s h)), (proj2 (Z.eqb_neq (s + 1) e)), (proj2 (Z.ltb_ge h s)) by lia.
    split; [unfold load_ring in *; cbn in L |- *; by rewrite L|]. split; [split; [exact R1|lia]|]. split; [lia|]. split; [lia|].
    split; [|intros ?; by rewrite (proj2 (Z.leb_le (s + 1) h)) by lia].
    intros ?. destruct l; [done|]. cbn [length] in Hl. lia.
  - destruct (Z.ltb_spec h s) as [Hhs|Hhs]; [|exfalso; lia].
    assert ((if 1 <? e - s then 1 else e - s) = 1) as Ek by (destruct (Z.ltb_spec 1 (e - s)); lia). cbn [andb Z.leb Z.compare] in E.
    rewrite Ek in E. injection E as <- <-. rewrite (proj2 (Z.leb_gt s h)), (proj2 (Z.leb_gt (s + 1) h)) by lia.
    split; [unfold load_ring in *; cbn in L |- *; by rewrite L|].
    split; [|destruct (Z.eqb_spec (s + 1) e); lia]. split; [|destruct (Z.eqb_spec (s + 1) e); lia].
    by destruct (Z.eqb_spec (s + 1) e).
Qed.

Abbreviation quiet a := (Forall (fun c => ends c = false) a).

(** Bytes that do not end the line, as long as others follow. *)
Lemma scan a b n s done_ old rest : reading s (a ++ b) -> b <> [] -> quiet a -> length old = length a ->
  len done_ + len a <= maxlen - 1 ->
  exists s', reading s' b /\
    read_loop (length a + n) mb maxlen minch s (part_end s) (len done_) (done_ ++ old ++ rest) =
    read_loop n mb maxlen minch s' (part_end s') (len (done_ ++ a)) ((done_ ++ a) ++ rest).
Proof.
  revert s done_ old. induction a as [|c a IH]; intros s done_ old R Hb Ha Hold Hlen.
  - destruct old; [|done]. exists s. split; [done|]. by rewrite app_nil_r.
  - destruct old as [|o old]; [done|]. inversion Ha as [|? ? Hc Ha']; subst. cbn [app] in R.
    destruct (reading_byte s c (a ++ b) R) as (Eb & R' & Hs & Hh & Hend & Hmid).
    destruct (IH (next s) (done_ ++ [c]) old R' Hb Ha') as (s' & R'' & E); [cbn [length] in Hold; lia|lens; lia|].
    exists s'. split; [done|]. rewrite <- !app_assoc in E. cbn [app] in E. rewrite <- app_assoc. cbn [app]. rewrite <- E.
    cbn [length Nat.add read_loop]. lens. rewrite (proj2 (Z.ltb_lt s (part_end s))), (proj2 (Z.ltb_lt (len done_) (maxlen - 1))), Eb by lia.
    cbn [andb mbind option_bind app]. pose proof (write_middle (len done_) done_ [o] (old ++ rest) [c] eq_refl eq_refl) as E1. cbn [app] in E1. rewrite E1.
    cbn [mbind option_bind]. unfold ends in Hc. rewrite Hc. replace (Z.of_nat (length done_ + 1)) with (len done_ + 1) by lia.
    destruct (Z.eqb_spec (s + 1) (part_end s)) as [He|He]; cbn [andb].
    + specialize (Hend He). destruct (Z.ltb_spec (mb_head mb) s).
      * destruct R as [_ W]. specialize (W ltac:(lia)). unfold is_wrapped in W. rewrite (proj2 (Z.ltb_lt _ _)) by done.
        rewrite Hend.
        assert (part_end (mb_start mb) = mb_head mb) as -> by (unfold part_end; by rewrite (proj2 (Z.leb_le _ _)) by lia). done.
      * by destruct a, b.
    + destruct (Hmid He) as [-> ->]. done.
Qed.

(** No end of line anywhere: the loop ends without success, though in a wrapped
    buffer it reads the part at the start again. *)
Lemma scan_fails n : forall s l len_ str, reading s l -> quiet l ->
  (is_wrapped mb -> exists l2, reading (mb_start mb) l2 /\ quiet l2) ->
  0 <= len_ -> maxlen <= len str -> maxlen - 1 - len_ < Z.of_nat n -> (0 < n)%nat ->
  exists s' len' str', read_loop n mb maxlen minch s (part_end s) len_ str = Some (false, s', len', str') /\ length str' = length str.
Proof.
  induction n as [|n IH]; intros s l len_ str R Hl W H0 Hstr Hn Hpos; [lia|]. cbn [read_loop].
  destruct l as [|c l].
  - assert (s = part_end s) as Es.
    { unfold part_end. destruct R as [R _]. destruct mb as [s0 e h t d]. apply ring_shape in R.
      cbn [mb_start mb_end mb_head mb_tail mb_data length] in *. destruct (Z.leb_spec s h); lia. }
    rewrite (proj2 (Z.ltb_ge s (part_end s))) by lia. by exists s, len_, str.
  - inversion Hl as [|? ? Hc Hl']; subst. destruct (reading_byte s c l R) as (Eb & R' & Hs & Hh & Hend & Hmid).
    rewrite (proj2 (Z.ltb_lt s (part_end s))) by lia. destruct (Z.ltb_spec len_ (maxlen - 1)); cbn [andb]; [|by exists s, len_, str].
    rewrite Eb. cbn [mbind option_bind]. destruct (split_list len_ str) as (d1 & d2 & -> & ->); [lia|]. lens.
    destruct d2 as [|o d2]; [cbn [length] in *; lia|].
    pose proof (write_middle (len d1) d1 [o] d2 [c] eq_refl eq_refl) as E1. cbn [app] in E1. rewrite E1. clear E1.
    cbn [mbind option_bind]. unfold ends in Hc. rewrite Hc.
    replace (length d1 + length (o :: d2))%nat with (length (d1 ++ c :: d2)) by (lens; lia).
    destruct (Z.eqb_spec (s + 1) (part_end s)) as [He|He]; cbn [andb].
    + specialize (Hend He). destruct (Z.ltb_spec (mb_head mb) (mb_tail mb)) as [Hw|Hw].
      * destruct (W Hw) as (l2 & R2 & Q2). replace (mb_head mb) with (part_end (mb_start mb)) by (unfold part_end; rewrite (proj2 (Z.leb_le _ _)) by lia; done).
        apply (IH _ l2); try done; lens; lia.
      * destruct (Z.ltb_spec (mb_head mb) s) as [Hs'|Hs']; [destruct R as [_ W']; specialize (W' Hs'); unfold is_wrapped in W'; lia|].
        subst l. assert (part_end s = mb_head mb) as Ep by (unfold part_end; by rewrite (proj2 (Z.leb_le _ _)) by lia).
        assert (next s = s + 1) as En by (unfold next; rewrite (proj2 (Z.eqb_neq _ _)) by lia; done). rewrite En in R'.
        replace (part_end s) with (part_end (s + 1)) by (unfold part_end; rewrite !(proj2 (Z.leb_le _ _)) by lia; done).
        apply (IH _ []); try done; lens; lia.
    + destruct (Hmid He) as [En Ep]. rewrite En in R'. rewrite <- Ep. apply (IH _ l); try done; lens; lia.
Qed.

Lemma reading_tail l : ring cap mb l -> reading (mb_tail mb) l.
Proof. intros H. split; [by destruct mb|done]. Qed.

Lemma reading_start l : ring cap mb l -> is_wrapped mb -> exists l1 l2, l = l1 ++ l2 /\ reading (mb_start mb) l2.
Proof.
  intros H Hw. destruct (ring_start cap mb l H Hw) as (l1 & l2 & -> & R & Hs). exists l1, l2. split; [done|]. split; [done|lia].
Qed.

Definition first_end : Z := if mb_tail mb <=? mb_head mb then mb_head mb else mb_end mb.

Lemma line_found a c b str : ring cap mb (a ++ c :: b) -> quiet a -> ends c = true -> len a + 1 < maxlen -> maxlen <= len str ->
  exists mb', membuff_readline mb str maxlen minch = Some (len a + 1, a ++ [0] ++ drop (S (length a)) str, mb') /\ ring cap mb' b.
Proof.
  intros H Ha Hc Hlen Hstr. unfold membuff_readline. fold first_end. change first_end with (part_end (mb_tail mb)).
  destruct (split_list (len a) str) as (old & r & -> & Hold); [lia|]. lens. destruct r as [|o r]; [cbn [length] in *; lia|].
  destruct (scan a (c :: b) (S (Z.to_nat maxlen) - length a) (mb_tail mb) [] old (o :: r)) as (s & R & E);
    [by apply reading_tail|done|done|lia|lens; lia|].
  cbn [app length] in E. change (Z.of_nat 0) with 0 in E.
  replace (length a + (S (Z.to_nat maxlen) - length a))%nat with (S (Z.to_nat maxlen)) in E by lia. rewrite E. clear E.
  replace (S (Z.to_nat maxlen) - length a)%nat with (S (Z.to_nat maxlen - length a)) by lia. cbn [read_loop].
  destruct (reading_byte s c b R) as (Eb & [R' _] & Hs & Hh & _).
  rewrite (proj2 (Z.ltb_lt s (part_end s))), (proj2 (Z.ltb_lt (len a) (maxlen - 1))) by lia. cbn [andb]. rewrite Eb. cbn [mbind option_bind].
  pose proof (write_middle (len a) a [o] r [c] eq_refl eq_refl) as E1. cbn [app] in E1. rewrite E1. clear E1. cbn [mbind option_bind].
  unfold ends in Hc. rewrite Hc. cbn [mbind option_bind negb].
  pose proof (write_middle (len a + 1 - 1) a [c] r [0] ltac:(lia) eq_refl) as E1. cbn [app] in E1. rewrite E1. cbn [mbind option_bind].
  eexists. split; [|exact R']. replace (old ++ o :: r) with ((old ++ [o]) ++ r) by by rewrite <- app_assoc.
  replace (S (length a)) with (length (old ++ [o])) by (lens; lia). by rewrite drop_app_length.
Qed.

Lemma line_missing l str : ring cap mb l -> 0 <= maxlen <= len str ->
  (match line_length l with Some k => maxlen <= k | None => True end) ->
  exists str', membuff_readline mb str maxlen minch = Some (0, str', mb) /\ length str' = length str.
Proof.
  intros H Hmax Hk. unfold membuff_readline. fold first_end. change first_end with (part_end (mb_tail mb)).
  assert (exists s' len' str', read_loop (S (Z.to_nat maxlen)) mb maxlen minch (mb_tail mb) (part_end (mb_tail mb)) 0 str = Some (false, s', len', str') /\
    length str' = length str) as (s' & len' & str' & -> & Hs').
  { pose proof (line_length_split l) as Hsplit. destruct (line_length l) as [k|].
    - destruct Hsplit as (a & c & b & -> & Ha & _ & ->).
      destruct (decide (maxlen = 0)) as [->|Hne].
      { exists (mb_tail mb), 0, str. cbn [read_loop]. by rewrite andb_false_r. }
      destruct (split_list (maxlen - 1) a) as (a1 & a2 & -> & Ha1); [lia|]. apply Forall_app in Ha as [Ha _]. rewrite <- app_assoc in H.
      destruct (split_list (maxlen - 1) str) as (old & r & -> & Hold); [lia|].
      destruct (scan a1 (a2 ++ c :: b) 2 (mb_tail mb) [] old r) as (s & R & E); [by apply reading_tail|by destruct a2|done|lia|lens; lia|].
      cbn [app length] in E. change (Z.of_nat 0) with 0 in E. replace (S (Z.to_nat maxlen)) with (length a1 + 2)%nat by lia. rewrite E.
      cbn [read_loop]. rewrite (proj2 (Z.ltb_ge (len a1) (maxlen - 1))), andb_false_r by lia. do 3 eexists. split; [done|]. lens. lia.
    - apply (scan_fails _ _ l); try lia; [by apply reading_tail|done|]. intros Hw. destruct (reading_start l H Hw) as (l1 & l2 & -> & R).
      exists l2. split; [done|]. by apply Forall_app in Hsplit as []. }
  cbn [mbind option_bind negb]. destruct (truthy maxlen) eqn:E; [|by exists str'].
  apply truthy_true in E. destruct str' as [|c str']; [cbn [length] in *; lia|].
  pose proof (write_middle 0 [] [c] str' [0] eq_refl eq_refl) as E1. cbn [app] in E1. rewrite E1. by eexists.
Qed.
End Lines.

(** ** Moving and growing *)

Lemma run_makecontig cap mb l : ring cap mb l ->
  exists b mb', membuff_makecontig mb = Some (b, mb') /\ ring cap mb' l /\
    (b = true -> mb_tail mb' = mb_start mb') /\ (b = false -> mb' = mb).
Proof.
  intros H. unfold membuff_makecontig, copy_ring, move_ring.
  destruct H as [s e h t d pre l post Hs Hpost Hd He Ht Hh Hcap Hsmall|s e h t d l2 gap l1 Hs Hgap Hl1 Hd He Hh Ht Hcap Hsmall];
    cbn [mb_start mb_end mb_head mb_tail mb_data]; nonempty; assert (Hlen := f_equal (fun x => len x) Hd); cbn beta in Hlen; lens.
  - rewrite (proj2 (Z.ltb_ge h t)), (proj2 (Z.leb_le s t)) by lia. cbn [orb].
    erewrite (load_middle t (h - t) _ pre l post); [|done|cbn; lia|lia]. cbn [mbind option_bind].
    destruct (split_list (len l) d) as (old & rest & Hd' & Hold); [lia|]. assert (Hlen' := f_equal (fun x => len x) Hd'). cbn beta in Hlen'. lens.
    rewrite (store_middle s _ [] old rest) by (cbn; done || lia). cbn [mbind option_bind app]. do 2 eexists. split; [done|]. cbn.
    split; [|done]. apply (straight cap s e _ s _ [] l rest); cbn [app length]; lens; try done; try lia. apply length_nonempty. lia.
  - rewrite (proj2 (Z.ltb_lt h t)) by lia. destruct (Z.leb_spec t (h + (e - t))) as [Hle|Hlt].
    { do 2 eexists. split; [done|]. split; [|done]. by apply (wrapped cap s e h t d l2 gap l1); try apply length_nonempty; try lia. }
    erewrite (load_middle s (h - s) _ [] l2 (gap ++ l1)); [|done|cbn; lia|lia]. cbn [mbind option_bind].
    destruct (split_list (len l1) (l2 ++ gap)) as (p & qr & Ep & Hp); [lens; lia|].
    assert (Hlp := f_equal (fun x => len x) Ep). cbn beta in Hlp. lens.
    destruct (split_list (len l2) qr) as (q & r & -> & Hq); [lia|]. lens.
    assert (d = p ++ q ++ r ++ l1) as Hd' by (rewrite Hd, app_assoc, Ep, <- !app_assoc; done).
    rewrite (store_middle _ _ p q (r ++ l1)) by (cbn; done || lia). cbn [mbind option_bind set_data mb_start mb_end mb_head mb_tail mb_data].
    rewrite (proj2 (Z.leb_le s t)) by lia. cbn [orb].
    erewrite (load_middle t (e - t) _ (p ++ l2 ++ r) l1 []); [|cbn; by rewrite app_nil_r, <- !app_assoc|cbn; lens; lia|lia]. cbn [mbind option_bind].
    rewrite (store_middle s _ [] p (l2 ++ r ++ l1)) by (cbn; done || lia). cbn [mbind option_bind app]. do 2 eexists. split; [done|]. cbn.
    split; [|done]. apply (straight cap s e _ s _ [] (l1 ++ l2) (r ++ l1)); cbn [app length]; lens; try done; try lia;
      [apply length_nonempty; lens; lia|by rewrite <- !app_assoc].
Qed.

Lemma double_loop_spec n : forall size bound r, 0 < size -> double_loop n size bound = Some r ->
  size <= r /\ bound <= r /\ (r = size \/ r < 2 ^ 31).
Proof.
  induction n as [|n IH]; intros size bound r Hs; [done|]. cbn [double_loop]. destruct (Z.ltb_spec size bound); [|intros [= <-]; lia].
  destruct (Z.ltb_spec (size * 2) (2 ^ 31)); [|done]. intros E. apply IH in E; lia.
Qed.

Lemma double_loop_ends n size bound : 0 < size -> bound <= 2 ^ 30 -> bound <= size * 2 ^ (Z.of_nat n - 1) -> (0 < n)%nat ->
  exists r, double_loop n size bound = Some r.
Proof.
  revert size. induction n as [|n IH]; intros size Hs Hb Hn Hpos; [lia|]. cbn [double_loop].
  destruct (Z.ltb_spec size bound) as [Hlt|]; [|by eexists]. rewrite (proj2 (Z.ltb_lt _ _)) by lia.
  destruct n as [|n]; [change (Z.of_nat 1 - 1) with 0 in Hn; lia|]. apply IH; try lia.
  replace (Z.of_nat (S (S n)) - 1) with (1 + (Z.of_nat (S n) - 1)) in Hn by lia. rewrite Z.pow_add_r in Hn by lia. lia.
Qed.

Lemma run_extend realloc cap mb l by_ max size : ring cap mb l ->
  double_loop 32 (cap + 1) (cap + 1 + by_) = Some size ->
  let size := if negb (max =? -1) then Z.min size max else size in size < 2 ^ 31 ->
  (forall p ptr fill, realloc p size = Some (ptr, fill) -> ptr <> 0 /\ len fill = size - (cap + 1)) ->
  exists r mb', membuff_extend_by realloc mb by_ max = Some (r, mb') /\
    if r =? 0 then ring (size - 1) mb' l else mb' = mb /\ (r = - E2BIG \/ r = - ENOMEM).
Proof.
  intros H Hd size' Hsize Hre. unfold membuff_extend_by. destruct (ring_size _ _ _ H) as (Hsz & _ & Hc). unfold membuff_size in Hsz.
  rewrite Hsz, Hd. cbn [mbind option_bind]. fold size'. destruct (Z.leb_spec (size' - (cap + 1)) 0).
  { exists (- E2BIG), mb. by split; [|split; [|left]]. }
  destruct (realloc (mb_start mb) size') as [[ptr fill]|] eqn:Er; [|exists (- ENOMEM), mb; by split; [|split; [|right]]].
  destruct (Hre _ _ _ Er) as (Hp & Hfill). clear Hre Er Hd.
  destruct H as [s e h t d pre l post Hs Hpost Hd He Ht Hh Hcap Hsmall|s e h t d l2 gap l1 Hs Hgap Hl1 Hd He Hh Ht Hcap Hsmall];
    cbn [mb_start mb_end mb_head mb_tail mb_data] in *; nonempty; assert (Hlen := f_equal (fun x => len x) Hd); cbn beta in Hlen; lens.
  - rewrite (proj2 (Z.ltb_ge (ptr + (h - s)) (ptr + (t - s)))) by lia. do 2 eexists. split; [done|]. cbn.
    apply (straight _ ptr _ _ _ _ pre l (post ++ fill)); lens; try lia; [apply length_nonempty; lens; lia|by rewrite Hd, <- !app_assoc].
  - rewrite (proj2 (Z.ltb_lt (ptr + (h - s)) (ptr + (t - s)))) by lia. unfold move_ring.
    erewrite (load_middle (ptr + (t - s)) _ _ (l2 ++ gap) l1 fill); [|cbn; by rewrite Hd, <- !app_assoc|cbn; lens; lia|lia].
    cbn [mbind option_bind]. destruct (split_list (len fill) (l1 ++ fill)) as (x & y & Exy & Hx); [lens; lia|].
    assert (Hxy := f_equal (fun x => len x) Exy). cbn beta in Hxy. lens.
    rewrite (store_middle _ _ (l2 ++ gap ++ x) y []); [|cbn; by rewrite app_nil_r, Hd, <- !app_assoc, Exy|cbn; lens; lia|lia].
    do 2 eexists. split; [done|]. cbn. rewrite app_nil_r.
    apply (wrapped _ ptr _ _ _ _ l2 (gap ++ x) l1); lens; try lia; [apply length_nonempty; lens; lia|apply length_nonempty; lia|by rewrite <- !app_assoc].
Qed.

(** ** Sequences of operations *)

Inductive op := Put (bs : list Z) | PutByte (c : Z) | Get (m : Z) | GetByte | PeekByte | ReadLine (maxlen minch : Z)
  | Avail | Free | Size | IsEmpty | MakeContig | Purge.

(** The number an operation returns, and the bytes it stores for the caller, whose
    array is as long as it says.  The bytes of a line are those before its end. *)
Definition do_op (o : op) (mb : membuff) : option (Z * list Z * membuff) :=
  match o with
  | Put bs => '(n, mb) ← membuff_put mb bs (len bs); Some (n, [], mb)
  | PutByte c => '(b, mb) ← membuff_putbyte mb c; Some (Z.b2z b, [], mb)
  | Get m => '(n, buff, mb) ← membuff_get mb (replicate (Z.to_nat m) 0) m; Some (n, take (Z.to_nat n) buff, mb)
  | GetByte => '(c, mb) ← membuff_getbyte mb; Some (c, [], mb)
  | PeekByte => '(c, mb) ← membuff_peekbyte mb; Some (c, [], mb)
  | ReadLine maxlen minch =>
      '(n, str, mb) ← membuff_readline mb (replicate (Z.to_nat maxlen) 0) maxlen minch;
      Some (n, take (Z.to_nat (n - 1)) str, mb)
  | Avail => Some (membuff_avail mb, [], mb)
  | Free => Some (membuff_free mb, [], mb)
  | Size => Some (membuff_size mb, [], mb)
  | IsEmpty => Some (Z.b2z (membuff_isempty mb), [], mb)
  | MakeContig => '(_, mb) ← membuff_makecontig mb; Some (0, [], mb)
  | Purge => Some (0, [], membuff_purge mb)
  end.

Fixpoint do_ops (os : list op) (mb : membuff) : option (list (Z * list Z) * membuff) :=
  match os with
  | [] => Some ([], mb)
  | o :: os => '(r, mb) ← do_op o mb; '(rs, mb) ← do_ops os mb; Some (r :: rs, mb)
  end.

(** The same operations of a list with the capacity [cap]. *)
Definition queue_op (cap : Z) (o : op) (l : list Z) : Z * list Z * list Z :=
  match o with
  | Put bs => let n := Z.min (len bs) (cap - len l) in (n, [], l ++ take (Z.to_nat n) bs)
  | PutByte c => if len l <? cap then (1, [], l ++ [u8 c]) else (0, [], l)
  | Get m => let n := Z.min m (len l) in (n, take (Z.to_nat n) l, drop (Z.to_nat n) l)
  | GetByte => (byte_of_list l, [], tail l)
  | PeekByte => (byte_of_list l, [], l)
  | ReadLine maxlen minch =>
      match line_length minch l with
      | Some n => if n <? maxlen then (n, take (Z.to_nat (n - 1)) l, drop (Z.to_nat n) l) else (0, [], l)
      | None => (0, [], l)
      end
  | Avail => (len l, [], l)
  | Free => (cap - len l, [], l)
  | Size => (cap + 1, [], l)
  | IsEmpty => (Z.b2z (bool_decide (l = [])), [], l)
  | MakeContig => (0, [], l)
  | Purge => (0, [], [])
  end.

Fixpoint queue_ops (cap : Z) (os : list op) (l : list Z) : list (Z * list Z) * list Z :=
  match os with
  | [] => ([], l)
  | o :: os => let '(r, l) := queue_op cap o l in let '(rs, l) := queue_ops cap os l in (r :: rs, l)
  end.

(** Limits are not negative, as a negative one means none. *)
Definition valid_op (o : op) : Prop := match o with Get m | ReadLine m _ => 0 <= m | _ => True end.

Lemma run_readline cap mb l maxlen minch : ring cap mb l -> 0 <= maxlen ->
  let '(n, line, l') := queue_op cap (ReadLine maxlen minch) l in
  exists mb', do_op (ReadLine maxlen minch) mb = Some (n, line, mb') /\ ring cap mb' l'.
Proof.
  intros H Hm. cbn [queue_op do_op]. pose proof (line_length_split minch l) as Hs.
  pose proof (line_missing maxlen minch cap mb l (replicate (Z.to_nat maxlen) 0) H) as Hmiss. rewrite length_replicate in Hmiss.
  destruct (line_length minch l) as [n|].
  - destruct Hs as (a & c & b & -> & Ha & Hc & ->). destruct (Z.ltb_spec (len a + 1) maxlen).
    + destruct (line_found maxlen minch cap mb a c b (replicate (Z.to_nat maxlen) 0) H Ha Hc) as (mb' & -> & R); [lia|rewrite length_replicate; lia|].
      exists mb'. cbn [mbind option_bind]. replace (len a + 1 - 1) with (len a) by lia. rewrite Nat2Z.id, !take_app_length. split; [done|].
      replace (Z.to_nat (len a + 1)) with (length (a ++ [c])) by (lens; lia). change (c :: b) with ([c] ++ b). by rewrite app_assoc, drop_app_length.
    + destruct Hmiss as (str' & -> & _); [lia|done|]. by exists mb.
  - destruct Hmiss as (str' & -> & _); [lia|done|]. by exists mb.
Qed.

Lemma run_op cap mb l o : ring cap mb l -> valid_op o ->
  let '(n, out, l') := queue_op cap o l in exists mb', do_op o mb = Some (n, out, mb') /\ ring cap mb' l'.
Proof.
  intros H Hv. pose proof (ring_size _ _ _ H). destruct o; [..|exists (membuff_purge mb); split; [done|by apply (run_purge cap mb l)]].
  - cbn [queue_op do_op]. destruct (run_put cap mb l bs (len bs) H ltac:(lia)) as (mb' & -> & R). by exists mb'.
  - cbn [queue_op do_op]. destruct (run_putbyte cap mb l c H) as (mb' & -> & R). destruct (Z.ltb_spec (len l) cap);
      [rewrite bool_decide_true in * by lia|rewrite bool_decide_false in * by lia]; by exists mb'.
  - cbn [queue_op do_op valid_op] in *. assert (wanted m l = Z.min m (len l)) as Hw by (unfold wanted; destruct (Z.ltb_spec m 0); lia).
    destruct (run_get cap mb l m (replicate (Z.to_nat m) 0) H) as (mb' & E & R); [rewrite length_replicate, Hw; lia|]. rewrite Hw in *.
    exists mb'. rewrite E. cbn [mbind option_bind]. rewrite take_app_le by (lens; lia). by rewrite take_take, Nat.min_id.
  - cbn [queue_op do_op]. destruct (run_getbyte cap mb l H) as (mb' & -> & R). by exists mb'.
  - cbn [queue_op do_op]. rewrite (run_peekbyte cap mb l H). by exists mb.
  - by apply run_readline.
  - cbn [queue_op do_op]. rewrite (run_avail cap mb l H). by exists mb.
  - cbn [queue_op do_op]. rewrite (run_free_room cap mb l H). by exists mb.
  - cbn [queue_op do_op]. rewrite (proj1 H0). by exists mb.
  - cbn [queue_op do_op]. rewrite (run_isempty cap mb l H). by exists mb.
  - cbn [queue_op do_op]. destruct (run_makecontig cap mb l H) as (b & mb' & -> & R & _). by exists mb'.
Qed.

Lemma run_ops cap os : forall mb l, ring cap mb l -> Forall valid_op os ->
  exists mb', do_ops os mb = Some ((queue_ops cap os l).1, mb') /\ ring cap mb' (queue_ops cap os l).2.
Proof.
  induction os as [|o os IH]; intros mb l H Hv; [by exists mb|]. inversion Hv as [|? ? Ho Hos]; subst.
  cbn [do_ops queue_ops]. pose proof (run_op cap mb l o H Ho) as Hop. destruct (queue_op cap o l) as [[n out] l'].
  destruct Hop as (mb1 & -> & H1). destruct (IH mb1 l' H1 Hos) as (mb2 & E & H2). exists mb2. cbn [mbind option_bind]. rewrite E.
  cbn [mbind option_bind]. by destruct (queue_ops cap os l').
Qed.



(** ** Defects *)

(** A buffer without memory, as membuff_uninit leaves it, cannot grow: doubling zero
    does not end. *)
Lemma extend_empty_stuck n by_ : 0 < by_ -> double_loop n 0 (0 + by_) = None.
Proof. intros H. induction n as [|n IH]; [done|]. cbn [double_loop]. by rewrite (proj2 (Z.ltb_lt _ _)) by lia. Qed.

(** A line that fits into the array exactly, with a NUL in the place of its end, is
    not read: the array needs one byte more. *)
Example line_needs_room :
  (fst <$> do_ops [Put [104; 105; 10]; ReadLine 3 0; ReadLine 4 0] (membuff_init 4096 [0; 0; 0; 0; 0] 5)) =
    Some [(3, []); (0, []); (3, [104; 105])].
Proof. reflexivity. Qed.

(** Freeing a buffer whose structure is not a block of the heap itself. *)
Lemma dispose_frees_structure heap_block self mb : heap_block self = false -> membuff_dispose heap_block self mb = None.
Proof. intros H. unfold membuff_dispose. by rewrite H. Qed.
