(* ===== verification/UDiv64.v ===== *)
(** 64-bit division of the boot loader: uboot/lib/div64.c, and the macros of
    include/div64.h.  A loop that does not end in its fuel, and a division by zero,
    are [None]. *)
From S2P Require Import Prelude.

(** The multiple of the divisor to start from. *)
Fixpoint scale_loop (n : nat) (rem b d : Z) : option (Z * Z) :=
  match n with
  | O => None
  | S n => if (0 <? s64 b) && (b <? rem) then scale_loop n rem (u64 (b + b)) (u64 (d + d)) else Some (b, d)
  end.

(** The quotient and the remainder. *)
Fixpoint subtract_loop (n : nat) (rem res b d : Z) : option (Z * Z) :=
  match n with
  | O => None
  | S n =>
      let '(rem, res) := if b <=? rem then (u64 (rem - b), u64 (res + d)) else (rem, res) in
      let b := b >> 1 in
      let d := d >> 1 in
      if truthy d then subtract_loop n rem res b d else Some (res, rem)
  end.

(** [*n] after the call, and the result. *)
Definition __div64_32 (n base : Z) : option (Z * Z) :=
  let rem := n in
  let high := u32 (rem >> 32) in
  '(rem, res) ←
    (if base <=? high then
       if base =? 0 then None
       else
         let high := high / base in
         Some (u64 (rem - u64 (u32 (high * base) << 32)), u64 (high << 32))
     else Some (rem, 0));
  '(b, d) ← scale_loop 64 rem base 1;
  '(res, rem) ← subtract_loop 64 rem res b d;
  Some (res, u32 rem).

Definition do_div (n base : Z) : option (Z * Z) :=
  if n >> 32 =? 0 then if base =? 0 then None else Some (u32 n / base, u32 n mod base)
  else __div64_32 n base.

Definition lldiv (dividend divisor : Z) : option Z := fst <$> do_div dividend divisor.

(** ** The result is the quotient and the remainder *)
Section Division.
Context (base N : Z) (Hbase : 0 < base < 2 ^ 32) (HN : 0 <= N < 2 ^ 64).

Lemma s64_of b : 0 <= b < 2 ^ 64 -> s64 b = if b <? 2 ^ 63 then b else b - 2 ^ 64.
Proof. intros Hb. unfold s64. destruct (Z.ltb_spec b (2 ^ 63)); dlia. Qed.

Lemma scale_loop_spec rem n k :
  0 <= rem < 2 ^ 64 -> 0 <= k <= 63 -> base * 2 ^ k < 2 ^ 64 -> (63 - Z.to_nat k < n)%nat ->
  exists k', 0 <= k' <= 63 /\ base * 2 ^ k' < 2 ^ 64 /\ rem < 2 * (base * 2 ^ k') /\
    scale_loop n rem (base * 2 ^ k) (2 ^ k) = Some (base * 2 ^ k', 2 ^ k').
Proof.
  intros Hr. revert k. induction n as [|n IH]; intros k Hk Hb Hn; [lia|]. cbn [scale_loop].
  assert (0 < 2 ^ k) as Hp by (apply Z.pow_pos_nonneg; lia).
  rewrite s64_of by nia. destruct (Z.ltb_spec (base * 2 ^ k) (2 ^ 63)) as [Hs|Hs].
  - destruct (Z.ltb_spec 0 (base * 2 ^ k)); [|nia]. cbn [andb].
    destruct (Z.ltb_spec (base * 2 ^ k) rem) as [Hlt|Hge]; [|exists k; split_and!; try done; lia].
    assert (2 ^ (k + 1) = 2 * 2 ^ k) as Hpow by (rewrite Z.pow_add_r by lia; lia).
    assert (k < 63) by (destruct (Z.eq_dec k 63) as [->|]; [nia|lia]).
    replace (u64 (base * 2 ^ k + base * 2 ^ k)) with (base * 2 ^ (k + 1)) by (rewrite u64_small; nia).
    replace (u64 (2 ^ k + 2 ^ k)) with (2 ^ (k + 1)) by (rewrite u64_small; nia).
    apply IH; [lia|nia|lia].
  - destruct (Z.ltb_spec 0 (base * 2 ^ k - 2 ^ 64)); [lia|]. exists k. split_and!; try done; lia.
Qed.

Lemma subtract_loop_spec n rem res k :
  0 <= k <= 63 -> (Z.to_nat k < n)%nat -> 0 <= res -> 0 <= rem < 2 * (base * 2 ^ k) -> res * base + rem = N ->
  subtract_loop n rem res (base * 2 ^ k) (2 ^ k) = Some (N / base, N mod base).
Proof.
  revert rem res k. induction n as [|n IH]; intros rem res k Hk Hn Hres Hrem Hval; [lia|]. cbn [subtract_loop].
  assert (0 < 2 ^ k) by (apply Z.pow_pos_nonneg; lia).
  assert (exists rem' res', (if base * 2 ^ k <=? rem then (u64 (rem - base * 2 ^ k), u64 (res + 2 ^ k)) else (rem, res)) =
    (rem', res') /\ 0 <= res' /\ 0 <= rem' < base * 2 ^ k /\ res' * base + rem' = N)
    as (rem' & res' & -> & Hres' & Hrem' & Hval').
  { destruct (Z.leb_spec (base * 2 ^ k) rem).
    - exists (rem - base * 2 ^ k), (res + 2 ^ k). rewrite !u64_small by nia. split_and!; try done; nia.
    - exists rem, res. split_and!; try done; lia. }
  cbv zeta. destruct (Z.eq_dec k 0) as [->|Hk0].
  - change (2 ^ 0 >> 1) with 0. cbn [truthy Z.eqb negb]. change (truthy 0) with false. cbv iota.
    f_equal. rewrite (Z.div_unique N base res' rem') by lia. by rewrite (Z.mod_unique N base res' rem') by lia.
  - assert (2 ^ k = 2 * 2 ^ (k - 1)) as Hpow by (rewrite <- Z.pow_succ_r by lia; f_equal; lia).
    assert (0 < 2 ^ (k - 1)) by (apply Z.pow_pos_nonneg; lia).
    replace (2 ^ k >> 1) with (2 ^ (k - 1)) by (rewrite Z.shiftr_div_pow2, Hpow by lia; dlia).
    replace ((base * 2 ^ k) >> 1) with (base * 2 ^ (k - 1)).
    2:{ rewrite Z.shiftr_div_pow2, Hpow by lia. change (2 ^ 1) with 2.
        apply Z.div_unique_exact; lia. }
    assert (truthy (2 ^ (k - 1)) = true) as -> by (apply truthy_true; lia).
    apply IH; [lia|lia|lia|nia|lia].
Qed.

(** The part before the loops takes a multiple of the divisor off. *)
Lemma reduce_spec : let h := N / 2 ^ 32 in
  exists rem res, (if base <=? h then if base =? 0 then None
      else Some (u64 (N - u64 (u32 (h / base * base) << 32)), u64 ((h / base) << 32)) else Some (N, 0)) = Some (rem, res) /\
    0 <= rem < 2 ^ 64 /\ 0 <= res /\ res * base + rem = N.
Proof.
  intros h. assert (0 <= h < 2 ^ 32) as Hh by (subst h; dlia).
  pose proof (Z.div_mod N (2 ^ 32) ltac:(lia)) as Hdm. fold h in Hdm.
  pose proof (Z.mod_pos_bound N (2 ^ 32) ltac:(lia)) as Hlow.
  destruct (Z.leb_spec base h) as [Hle|Hgt]; [|exists N, 0; split_and!; try done; lia].
  destruct (Z.eqb_spec base 0); [lia|].
  pose proof (Z.div_mod h base ltac:(lia)). pose proof (Z.mod_pos_bound h base ltac:(lia)).
  assert (0 <= h / base <= h) by (split; [apply Z.div_pos; lia|apply Z.div_le_upper_bound; nia]).
  set (q := h / base) in *. rewrite (u32_small (q * base)) by nia.
  rewrite !Z.shiftl_mul_pow2 by lia. rewrite (u64_small (q * 2 ^ 32)) by lia.
  rewrite (u64_small (q * base * 2 ^ 32)) by nia. rewrite u64_small by nia.
  exists (N - q * base * 2 ^ 32), (q * 2 ^ 32). split_and!; [done|nia..].
Qed.

Lemma some_bind {A B} (a : A) (f : A -> option B) : (Some a ≫= f) = f a.
Proof. done. Qed.

(** Dividing gives the quotient and the remainder, and the two loops end. *)
Lemma div64_32_spec : __div64_32 N base = Some (N / base, N mod base).
Proof.
  destruct reduce_spec as (rem & res & Er & Hrem & Hres & Hval).
  unfold __div64_32. cbv zeta. assert (u32 (N >> 32) = N / 2 ^ 32) as ->.
  { rewrite Z.shiftr_div_pow2 by lia. apply u32_small. dlia. }
  rewrite Er. rewrite some_bind. cbv iota beta.
  destruct (scale_loop_spec rem 64 0 Hrem ltac:(lia) ltac:(lia) ltac:(lia)) as (k & Hk & Hb & Hr & E).
  rewrite Z.pow_0_r, Z.mul_1_r in E. rewrite E. rewrite some_bind. cbv iota beta.
  rewrite subtract_loop_spec by (done || lia). rewrite some_bind. cbv iota beta.
  pose proof (Z.mod_pos_bound N base ltac:(lia)) as Hmod. by rewrite u32_small by lia.
Qed.

Lemma do_div_spec : do_div N base = Some (N / base, N mod base).
Proof.
  unfold do_div. destruct (Z.eqb_spec (N >> 32) 0) as [E|E]; [|exact div64_32_spec].
  destruct (Z.eqb_spec base 0); [lia|]. rewrite Z.shiftr_div_pow2 in E by lia.
  apply Z.div_small_iff in E; [|lia]. by rewrite u32_small by lia.
Qed.

Lemma lldiv_spec : lldiv N base = Some (N / base).
Proof. unfold lldiv. by rewrite do_div_spec. Qed.
End Division.
