(* ===== verification/UFormat.v ===== *)
(** Formatted output of the boot loader: uboot/lib/vsprintf.c, with [strnlen] of
    lib/string.c.

    A function that writes is a computation of the monad [F] on the state [pf]: the
    offset of [str] from the buffer, what the buffer holds, what "%n" stored, and
    the arguments that [va_arg] has not given yet.  Undefined behaviour is [None]: a
    write outside the buffer, a pointer past the end of the address space, an
    overflow of int, an argument of another type.  [limit] is [end - buf].  A format
    string is the list of its characters; the objects that arguments point to do not
    overlap the buffer. *)
From Stdlib Require Import String Ascii.
From S2P Require Import Prelude Ctype Htab Strto UDiv64.

Definition ZEROPAD : Z := 1.
Definition SIGN : Z := 2.
Definition PLUS : Z := 4.
Definition SPACE : Z := 8.
Definition LEFT : Z := 16.
Definition SMALL : Z := 32.
Definition SPECIAL : Z := 64.
Definition INT_MAX : Z := 2 ^ 31 - 1.

(** A word (int, long, size_t, ptrdiff_t), a long long, or a pointer with the bytes
    that start at it. *)
Inductive arg := Int (v : Z) | Quad (v : Z) | Ptr (a : Z) (obj : list Z).

Record pf := Pf { str : Z; out : list Z; counts : list (Z * Z); args : list arg }.

Definition F (A : Type) : Type := pf -> option (A * pf).
#[export] Instance F_ret : MRet F := fun _ a s => Some (a, s).
#[export] Instance F_bind : MBind F := fun _ _ f m s =>
  match m s with Some (a, s) => f a s | None => None end.
Definition undefined {A} : F A := fun _ => None.
Definition lift {A} (m : option A) : F A := fun s => match m with Some a => Some (a, s) | None => None end.

(** A value of type int. *)
Definition int (z : Z) : F Z := if (- 2 ^ 31 <=? z) && (z <? 2 ^ 31) then mret z else undefined.

(** [va_arg] *)
Definition next_arg : F arg := fun s =>
  match args s with [] => None | x :: rest => Some (x, Pf (str s) (out s) (counts s) rest) end.
Definition va_word : F Z := x ← next_arg; match x with Int v => mret (u32 v) | _ => undefined end.
Definition va_quad : F Z := x ← next_arg; match x with Quad v => mret (u64 v) | _ => undefined end.
Definition va_ptr : F (Z * list Z) := x ← next_arg; match x with Ptr a obj => mret (a, obj) | _ => undefined end.

(** The characters of a literal. *)
Definition chars (s : string) : cstr := (fun a => Z.of_nat (nat_of_ascii a)) <$> list_ascii_of_string s.

(** ** Digits *)
Definition is_digit (c : Z) : bool := (48 <=? c) && (c <=? 57).

(** [*s] afterwards, and the number. *)
Fixpoint skip_atoi (s : cstr) (i : Z) : option (cstr * Z) :=
  match s with
  | [] => Some (s, i)
  | c :: rest => if is_digit c then if i * 10 + c <? 2 ^ 31 then skip_atoi rest (i * 10 + c - 48) else None else Some (s, i)
  end.

(** The characters stored so far are the list [buf]. *)
Definition put_dec_trunc (buf : list Z) (q : Z) : list Z :=
  let d1 := (q >> 4) .& 0xf in
  let d2 := (q >> 8) .& 0xf in
  let d3 := q >> 12 in
  let d0 := u32 (6 * (d3 + d2 + d1) + (q .& 0xf)) in
  let q := u32 (d0 * 0xcd) >> 11 in
  let d0 := u32 (d0 - 10 * q) in
  let buf := buf ++ [u8 (d0 + 48)] in
  let d1 := u32 (q + 9 * d3 + 5 * d2 + d1) in
  if negb (d1 =? 0) then
    let q := u32 (d1 * 0xcd) >> 11 in
    let d1 := u32 (d1 - 10 * q) in
    let buf := buf ++ [u8 (d1 + 48)] in
    let d2 := u32 (q + 2 * d2) in
    if negb (d2 =? 0) || negb (d3 =? 0) then
      let q := u32 (d2 * 0xd) >> 7 in
      let d2 := u32 (d2 - 10 * q) in
      let buf := buf ++ [u8 (d2 + 48)] in
      let d3 := u32 (q + 4 * d3) in
      if negb (d3 =? 0) then
        let q := u32 (d3 * 0xcd) >> 11 in
        let d3 := u32 (d3 - 10 * q) in
        let buf := buf ++ [u8 (d3 + 48)] in
        if negb (q =? 0) then buf ++ [u8 (q + 48)] else buf
      else buf
    else buf
  else buf.

Definition put_dec_full (buf : list Z) (q : Z) : list Z :=
  let d1 := (q >> 4) .& 0xf in
  let d2 := (q >> 8) .& 0xf in
  let d3 := q >> 12 in
  let d0 := u32 (6 * (d3 + d2 + d1) + (q .& 0xf)) in
  let q := u32 (d0 * 0xcd) >> 11 in
  let d0 := u32 (d0 - 10 * q) in
  let buf := buf ++ [u8 (d0 + 48)] in
  let d1 := u32 (q + 9 * d3 + 5 * d2 + d1) in
  let q := u32 (d1 * 0xcd) >> 11 in
  let d1 := u32 (d1 - 10 * q) in
  let buf := buf ++ [u8 (d1 + 48)] in
  let d2 := u32 (q + 2 * d2) in
  let q := u32 (d2 * 0xd) >> 7 in
  let d2 := u32 (d2 - 10 * q) in
  let buf := buf ++ [u8 (d2 + 48)] in
  let d3 := u32 (q + 4 * d3) in
  let q := u32 (d3 * 0xcd) >> 11 in
  let d3 := u32 (d3 - 10 * q) in
  let buf := buf ++ [u8 (d3 + 48)] in
  buf ++ [u8 (q + 48)].

(** Five digits at a time; four rounds are enough for 64 bits. *)
Fixpoint put_dec_loop (n : nat) (buf : list Z) (num : Z) : option (list Z) :=
  match n with
  | O => None
  | S n =>
      if num <? 100000 then Some (put_dec_trunc buf (u32 num))
      else '(num, rem) ← do_div num 100000; put_dec_loop n (put_dec_full buf rem) num
  end.
Definition put_dec (buf : list Z) (num : Z) : option (list Z) := put_dec_loop 5 buf num.

Definition digits : list Z := chars "0123456789ABCDEF".

(** The digits for the bases 8 and 16; [tmp] has room for 66. *)
Fixpoint bits_loop (n : nat) (num mask shift locase : Z) (tmp : list Z) : option (list Z) :=
  match n with
  | O => None
  | S n =>
      let tmp := tmp ++ [u8 (nth (Z.to_nat (u8 num .& mask)) digits 0 .| locase)] in
      let num := num >> shift in
      if truthy num then bits_loop n num mask shift locase tmp else Some tmp
  end.

(** The digits of [num] in reverse order, lines 191 to 214. *)
Definition number_digits (num base locase : Z) : option (list Z) :=
  if num =? 0 then Some [48]
  else if negb (base =? 10) then bits_loop 66 num (base - 1) (if base =? 16 then 4 else 3) locase []
  else put_dec [] num.

(** The length of a string that has at most [count] characters. *)
Fixpoint strnlen (s : list Z) (count : Z) : option Z :=
  if count =? 0 then Some 0
  else
    match s with
    | [] => None
    | c :: s => if c =? 0 then Some 0 else Z.succ <$> strnlen s (count - 1)
    end.

(** ** Output *)
Section Output.
Context (buf limit : Z).

Definition addch (ch : Z) : F unit := fun s =>
  if buf + str s + 1 <? 2 ^ 32 then
    if str s <? limit then
      if str s <? Z.of_nat (length (out s))
      then Some (tt, Pf (str s + 1) (<[Z.to_nat (str s) := ch]> (out s)) (counts s) (args s)) else None
    else Some (tt, Pf (str s + 1) (out s) (counts s) (args s))
  else None.

Definition has_room : F bool := fun s => Some (str s <? limit, s).
(** What "%n" stores at [a]. *)
Definition count_to (a : Z) : F unit :=
  fun s => Some (tt, Pf (str s) (out s) (counts s ++ [(a, s32 (str s))]) (args s)).

Fixpoint addchs (l : list Z) : F unit :=
  match l with
  | [] => mret tt
  | c :: l => addch c;; addchs l
  end.

(** [while (--size >= low) ADDCH(str, ch)], and [size] after it. *)
Fixpoint pad_loop (n : nat) (low size ch : Z) : F Z :=
  match n with
  | O => undefined
  | S n => size ← int (size - 1); if low <=? size then addch ch;; pad_loop n low size ch else mret size
  end.
Definition pad (low size ch : Z) : F Z := pad_loop (S (Z.to_nat (size - low))) low size ch.

(** Lines 171 to 185: the sign to write, the number without it, and the width left. *)
Definition number_sign (num size type : Z) : F (Z * Z * Z) :=
  if truthy (type .& SIGN) then
    if s64 num <? 0 then
      if s64 num =? - 2 ^ 63 then undefined else size ← int (size - 1); mret (45, u64 (- s64 num), size)
    else if truthy (type .& PLUS) then size ← int (size - 1); mret (43, num, size)
    else if truthy (type .& SPACE) then size ← int (size - 1); mret (32, num, size)
    else mret (0, num, size)
  else mret (0, num, size).

Definition number (num base size precision type : Z) : F unit :=
  let need_pfx := truthy (type .& SPECIAL) && negb (base =? 10) in
  let locase := type .& SMALL in
  let type := if truthy (type .& LEFT) then type .& Z.lnot ZEROPAD else type in
  '(sign, num, size) ← number_sign num size type;
  size ← (if need_pfx then size ← int (size - 1); if base =? 16 then int (size - 1) else mret size else mret size);
  tmp ← lift (number_digits num base locase);
  let i := Z.of_nat (length tmp) in
  let precision := if precision <? i then i else precision in
  size ← int (size - precision);
  size ← (if negb (truthy (type .& (ZEROPAD + LEFT))) then pad 0 size 32 else mret size);
  (if truthy sign then addch sign else mret tt);;
  (if need_pfx then addch 48;; (if base =? 16 then addch (88 .| locase) else mret tt) else mret tt);;
  size ← (if negb (truthy (type .& LEFT)) then pad 0 size (if truthy (type .& ZEROPAD) then 48 else 32) else mret size);
  pad i precision 48;;
  addchs (rev tmp);;
  pad 0 size 32;;
  mret tt.

(** [while (len < field_width--) ADDCH(buf, ' ')] *)
Fixpoint pad_string (n : nat) (len field_width : Z) : F Z :=
  match n with
  | O => undefined
  | S n =>
      let wide := len <? field_width in
      field_width ← int (field_width - 1);
      if wide then addch 32;; pad_string n len field_width else mret field_width
  end.

Definition string_at (obj : list Z) (field_width precision flags : Z) : F unit :=
  len ← lift (strnlen obj (u32 precision));
  let len := s32 len in
  field_width ← (if negb (truthy (flags .& LEFT)) then pad_string (S (Z.to_nat (field_width - len))) len field_width
                 else mret field_width);
  addchs (take (Z.to_nat len) obj);;
  pad_string (S (Z.to_nat (field_width - len))) len field_width;;
  mret tt.
Definition string_ (s : Z * list Z) (field_width precision flags : Z) : F unit :=
  string_at (if s.1 =? 0 then chars "<NULL>" ++ [0] else s.2) field_width precision flags.
End Output.

(** ** Addresses *)
Definition hex_asc : list Z := chars "0123456789abcdef".
Definition pack_hex_byte (byte : Z) : list Z :=
  [nth (Z.to_nat ((byte .& 0xf0) >> 4)) hex_asc 0; nth (Z.to_nat (byte .& 0x0f)) hex_asc 0].

(** The strings of a MAC, an IPv6 and an IPv4 address, of the rounds that [rounds] lists. *)
Fixpoint mac_chars (addr : list Z) (flags : Z) (rounds : list nat) : option cstr :=
  match rounds with
  | [] => Some []
  | i :: rounds =>
      b ← addr !! i;
      rest ← mac_chars addr flags rounds;
      Some (pack_hex_byte b ++ (if negb (truthy (flags .& SPECIAL)) && negb (i =? 5)%nat then [58] else []) ++ rest)
  end.
Fixpoint ip6_chars (addr : list Z) (flags : Z) (rounds : list nat) : option cstr :=
  match rounds with
  | [] => Some []
  | i :: rounds =>
      b ← addr !! (2 * i)%nat;
      b' ← addr !! (2 * i + 1)%nat;
      rest ← ip6_chars addr flags rounds;
      Some (pack_hex_byte b ++ pack_hex_byte b' ++
            (if negb (truthy (flags .& SPECIAL)) && negb (i =? 7)%nat then [58] else []) ++ rest)
  end.
Fixpoint ip4_chars (addr : list Z) (rounds : list nat) : option cstr :=
  match rounds with
  | [] => Some []
  | i :: rounds =>
      b ← addr !! i;
      let temp := put_dec_trunc [] b in
      if (3 <? length temp)%nat then None
      else rest ← ip4_chars addr rounds; Some (rev temp ++ (if negb (i =? 3)%nat then [46] else []) ++ rest)
  end.

Section Conversions.
Context (buf limit : Z).

(** A local array that holds a string, written with [string]. *)
Definition local_string (s : option cstr) (field_width precision flags : Z) : F unit :=
  s ← lift s; string_at buf limit (s ++ [0]) field_width precision (flags .& Z.lnot SPECIAL).

Definition mac_address_string (addr : list Z) (field_width precision flags : Z) : F unit :=
  local_string (mac_chars addr flags (seq 0 6)) field_width precision flags.
Definition ip6_addr_string (addr : list Z) (field_width precision flags : Z) : F unit :=
  local_string (ip6_chars addr flags (seq 0 8)) field_width precision flags.
Definition ip4_addr_string (addr : list Z) (field_width precision flags : Z) : F unit :=
  local_string (ip4_chars addr (seq 0 4)) field_width precision flags.

Definition pointer_number (num field_width precision flags : Z) : F unit :=
  let flags := flags .| SMALL in
  if field_width =? -1 then number buf limit num 16 8 precision (flags .| ZEROPAD)
  else number buf limit num 16 field_width precision flags.

Definition pointer (fmt : cstr) (ptr : Z * list Z) (field_width precision flags : Z) : F unit :=
  let num := u32 ptr.1 in
  let c := deref fmt in
  if c =? 97 then
    match ptr.2 with
    | b0 :: b1 :: b2 :: b3 :: _ =>
        pointer_number (b0 .| (b1 << 8) .| (b2 << 16) .| (b3 << 24)) 10 precision (flags .| (SPECIAL .| ZEROPAD))
    | _ => undefined
    end
  else if c =? 109 then mac_address_string ptr.2 field_width precision (flags .| SPECIAL)
  else if c =? 77 then mac_address_string ptr.2 field_width precision flags
  else if (c =? 105) || (c =? 73) then
    let flags := if c =? 105 then flags .| SPECIAL else flags in
    if deref (drop 1 fmt) =? 54 then ip6_addr_string ptr.2 field_width precision flags
    else if deref (drop 1 fmt) =? 52 then ip4_addr_string ptr.2 field_width precision flags
    else pointer_number num field_width precision (flags .& Z.lnot SPECIAL)
  else pointer_number num field_width precision flags.

(** ** The format string *)

Fixpoint flags_loop (fmt : cstr) (flags : Z) : cstr * Z :=
  match fmt with
  | [] => (fmt, flags)
  | c :: rest =>
      if c =? 45 then flags_loop rest (flags .| LEFT)
      else if c =? 43 then flags_loop rest (flags .| PLUS)
      else if c =? 32 then flags_loop rest (flags .| SPACE)
      else if c =? 35 then flags_loop rest (flags .| SPECIAL)
      else if c =? 48 then flags_loop rest (flags .| ZEROPAD)
      else (fmt, flags)
  end.

(** Lines 475 to 487: the format after it, the width and the flags. *)
Definition get_width (fmt : cstr) (flags : Z) : F (cstr * Z * Z) :=
  if is_digit (deref fmt) then '(fmt, w) ← lift (skip_atoi fmt 0); mret (fmt, w, flags)
  else if deref fmt =? 42 then
    w ← va_word;
    let w := s32 w in
    if w <? 0 then w ← int (- w); mret (drop 1 fmt, w, flags .| LEFT) else mret (drop 1 fmt, w, flags)
  else mret (fmt, -1, flags).

(** Lines 489 to 502. *)
Definition get_precision (fmt : cstr) : F (cstr * Z) :=
  if deref fmt =? 46 then
    let fmt := drop 1 fmt in
    '(fmt, p) ← (if is_digit (deref fmt) then lift (skip_atoi fmt 0)
                 else if deref fmt =? 42 then p ← va_word; mret (drop 1 fmt, s32 p)
                 else mret (fmt, -1));
    mret (fmt, if p <? 0 then 0 else p)
  else mret (fmt, -1).

(** Lines 504 to 514. *)
Definition get_qualifier (fmt : cstr) : cstr * Z :=
  let c := deref fmt in
  if (c =? 104) || (c =? 108) || (c =? 76) || (c =? 90) || (c =? 122) || (c =? 116) then
    let fmt := drop 1 fmt in
    if (c =? 108) && (deref fmt =? 108) then (drop 1 fmt, 76) else (fmt, c)
  else (fmt, -1).

(** Lines 583 to 601: the number of an integer conversion. *)
Definition get_num (qualifier flags : Z) : F Z :=
  let sign := truthy (flags .& SIGN) in
  if qualifier =? 76 then va_quad
  else
    v ← va_word;
    if qualifier =? 108 then mret (if sign then u64 (s32 v) else v)
    else if (qualifier =? 90) || (qualifier =? 122) then mret v
    else if qualifier =? 116 then mret (u64 (s32 v))
    else if qualifier =? 104 then mret (if sign then u64 (s16 v) else u16 v)
    else mret (if sign then u64 (s32 v) else v).

Fixpoint skip_alnum (fmt : cstr) : cstr :=
  match fmt with
  | [] => []
  | c :: rest => if truthy (__ismask c .& (CT_U .| CT_L .| CT_D)) then skip_alnum rest else fmt
  end.

(** From behind a percent sign to behind the conversion.  The macro ADDCH evaluates
    its argument only when there is room: then "%c" takes its argument, else not. *)
Definition conversion (fmt : cstr) : F cstr :=
  let '(fmt, flags) := flags_loop fmt 0 in
  '(fmt, field_width, flags) ← get_width fmt flags;
  '(fmt, precision) ← get_precision fmt;
  let '(fmt, qualifier) := get_qualifier fmt in
  let c := deref fmt in
  let rest := drop 1 fmt in
  let integer base flags :=
    num ← get_num qualifier flags; number buf limit num base field_width precision flags;; mret rest in
  if c =? 99 then
    field_width ← (if negb (truthy (flags .& LEFT)) then pad buf limit 1 field_width 32 else mret field_width);
    fits ← has_room limit;
    (if fits : bool then v ← va_word; addch buf limit (u8 v) else addch buf limit 0);;
    pad buf limit 1 field_width 32;;
    mret rest
  else if c =? 115 then s ← va_ptr; string_ buf limit s field_width precision flags;; mret rest
  else if c =? 112 then p ← va_ptr; pointer rest p field_width precision flags;; mret (skip_alnum rest)
  else if c =? 110 then
    p ← va_ptr; count_to p.1;; mret rest
  else if c =? 37 then addch buf limit 37;; mret rest
  else if c =? 111 then integer 8 flags
  else if c =? 120 then integer 16 (flags .| SMALL)
  else if c =? 88 then integer 16 flags
  else if (c =? 100) || (c =? 105) then integer 10 (flags .| SIGN)
  else if c =? 117 then integer 10 flags
  else addch buf limit 37;; (if truthy c then addch buf limit c else mret tt);; mret rest.

(** A round takes at least one character of the format. *)
Fixpoint format_loop (n : nat) (fmt : cstr) : F unit :=
  match n with
  | O => undefined
  | S n =>
      match fmt with
      | [] => mret tt
      | c :: fmt =>
          if negb (c =? 37) then addch buf limit c;; format_loop n fmt
          else fmt ← conversion fmt; format_loop n fmt
      end
  end.
End Conversions.

(** ** The functions

    The length, what the buffer at [buf] holds (before: [mem]), and what "%n"
    stored. *)
Definition vsnprintf_internal (buf size : Z) (fmt : cstr) (args : list arg) (mem : list Z) :
    option (Z * list Z * list (Z * Z)) :=
  let size := if u32 (buf + size) <? buf then 2 ^ 32 - 1 - buf else size in
  '(_, s) ← format_loop buf size (S (length fmt)) fmt (Pf 0 mem [] args);
  if 0 <? size then
    '(_, s) ← addch buf size 0 s;
    mem ← (if size <? str s then
             if size <=? Z.of_nat (length (out s)) then Some (<[Z.to_nat (size - 1) := 0]> (out s)) else None
           else Some (out s));
    Some (s32 (str s - 1), mem, counts s)
  else Some (s32 (str s), out s, counts s).

Definition vsnprintf := vsnprintf_internal.

Definition vscnprintf (buf size : Z) (fmt : cstr) (args : list arg) (mem : list Z) :
    option (Z * list Z * list (Z * Z)) :=
  '(i, mem, ns) ← vsnprintf buf size fmt args mem;
  Some (if u32 i <? size then i else if negb (size =? 0) then s32 (size - 1) else 0, mem, ns).

Definition snprintf := vsnprintf.
Definition scnprintf := vscnprintf.

Definition vsprintf (buf : Z) (fmt : cstr) (args : list arg) (mem : list Z) : option (Z * list Z * list (Z * Z)) :=
  vsnprintf_internal buf INT_MAX fmt args mem.
Definition sprintf := vsprintf.

(** What is written to the console is returned next to the length; [printbuffer] is
    at [buf] and holds [junk]. *)
Fixpoint c_string (mem : list Z) : option cstr :=
  match mem with
  | [] => None
  | c :: mem => if c =? 0 then Some [] else cons c <$> c_string mem
  end.
Definition printf (buf : Z) (junk : list Z) (fmt : cstr) (args : list arg) : option (Z * cstr) :=
  '(i, mem, _) ← vscnprintf buf (Z.of_nat (length junk)) fmt args junk;
  s ← c_string mem;
  Some (i, s).
Definition vprintf := printf.

(** The result, and [*num]. *)
Definition str2long (p : cstr) : bool * Z :=
  let '(num, endptr) := simple_strtoul p 16 in (negb (deref p =? 0) && (deref endptr =? 0), num).
Definition str2off (p : cstr) : bool * Z :=
  let '(num, endptr) := simple_strtoull p 16 in (negb (deref p =? 0) && (deref endptr =? 0), s64 num).
