(* ===== verification/UFormatText.v ===== *)
(** What the formatted output of UFormat.v writes: whatever the size of the buffer,
    the beginning of one and the same text; and the text of numbers and strings. *)
From Stdlib Require Import String.
From S2P Require Import Prelude Ctype Htab Strto UDiv64 UFormat.

(** The object that held [o] when the text [T] was written to its first [lim]
    characters. *)
Definition shown (lim : Z) (o T : list Z) : list Z :=
  let k := Nat.min (Z.to_nat lim) (length T) in take k T ++ drop k o.
Definition wrote (lim : Z) (o T : list Z) (s : pf) : Prop :=
  str s = Z.of_nat (length T) /\ out s = shown lim o T.

Lemma shown_length lim o T : Z.min lim (Z.of_nat (length T)) <= Z.of_nat (length o) -> length (shown lim o T) = length o.
Proof. intros H. unfold shown. rewrite length_app, length_take, length_drop. lia. Qed.

Lemma shown_more lim o T c : Z.of_nat (length T) < lim -> Z.of_nat (length T) < Z.of_nat (length o) ->
  <[length T := c]> (shown lim o T) = shown lim o (T ++ [c]).
Proof.
  intros Hl Ho. unfold shown. rewrite length_app. cbn [length].
  replace (Nat.min (Z.to_nat lim) (length T)) with (length T) by lia.
  replace (Nat.min (Z.to_nat lim) (length T + 1)) with (length T + 1)%nat by lia.
  rewrite firstn_all, take_ge by (rewrite length_app; cbn [length]; lia).
  destruct (drop (length T) o) as [|x rest] eqn:E.
  { apply (f_equal length) in E. rewrite length_drop in E. cbn in E. lia. }
  rewrite insert_app_r_alt, Nat.sub_diag by lia. cbn [list_insert insert].
  by rewrite <- drop_drop, E, <- app_assoc.
Qed.

Lemma shown_full lim o T c : lim <= Z.of_nat (length T) -> shown lim o (T ++ [c]) = shown lim o T.
Proof.
  intros Hl. unfold shown. rewrite length_app. cbn [length].
  replace (Nat.min (Z.to_nat lim) (length T + 1)) with (Z.to_nat lim) by lia.
  replace (Nat.min (Z.to_nat lim) (length T)) with (Z.to_nat lim) by lia.
  by rewrite take_app_le by lia.
Qed.

(** One more character. *)
Lemma wrote_addch buf lim o T c s :
  wrote lim o T s -> Z.min lim (Z.of_nat (length T) + 1) <= Z.of_nat (length o) -> buf + Z.of_nat (length T) + 1 < 2 ^ 32 ->
  exists s', addch buf lim c s = Some (tt, s') /\ wrote lim o (T ++ [c]) s' /\ counts s' = counts s /\ args s' = args s.
Proof.
  intros [Es Eo] Hroom Haddr. unfold addch. rewrite Es.
  destruct (Z.ltb_spec (buf + Z.of_nat (length T) + 1) (2 ^ 32)); [|lia].
  destruct (Z.ltb_spec (Z.of_nat (length T)) lim).
  - rewrite Eo, shown_length by lia. destruct (Z.ltb_spec (Z.of_nat (length T)) (Z.of_nat (length o))); [|lia].
    eexists. split; [done|]. split_and!; [split|done|done]; cbn [str out].
    + rewrite length_app. cbn [length]. lia.
    + rewrite Nat2Z.id. by apply shown_more.
  - eexists. split; [done|]. split_and!; [split|done|done]; cbn [str out].
    + rewrite length_app. cbn [length]. lia.
    + by rewrite shown_full by lia.
Qed.

(** ** Where the conversions of a format are *)
Fixpoint drop_digits (fmt : cstr) : cstr :=
  match fmt with
  | [] => []
  | c :: rest => if is_digit c then drop_digits rest else fmt
  end.
Definition past_number (fmt : cstr) : cstr :=
  if is_digit (deref fmt) then drop_digits fmt else if deref fmt =? 42 then drop 1 fmt else fmt.
Definition past_precision (fmt : cstr) : cstr := if deref fmt =? 46 then past_number (drop 1 fmt) else fmt.

(** From a percent sign to the letter of its conversion. *)
Definition at_conversion (fmt : cstr) : cstr :=
  (get_qualifier (past_precision (past_number (flags_loop fmt 0).1))).1.

(** No conversion of the format is "%c". *)
Fixpoint no_char (fmt : cstr) : bool :=
  match fmt with
  | [] => true
  | c :: rest => negb ((c =? 37) && (deref (at_conversion rest) =? 99)) && no_char rest
  end.

Lemma skip_atoi_rest fmt : forall i r, skip_atoi fmt i = Some r -> r.1 = drop_digits fmt.
Proof.
  induction fmt as [|c fmt IH]; intros i r; cbn [skip_atoi drop_digits]; [by intros [= <-]|].
  destruct (is_digit c); [|by intros [= <-]]. destruct (_ <? _); [apply IH|done].
Qed.

Lemma run_get_width fmt flags s r s' : get_width fmt flags s = Some (r, s') -> r.1.1 = past_number fmt.
Proof.
  unfold get_width, past_number. destruct (is_digit (deref fmt)).
  - unfold mbind, F_bind, lift. destruct (skip_atoi fmt 0) as [[f w]|] eqn:E; [|done].
    intros [= <- <-]. exact (skip_atoi_rest _ _ _ E).
  - destruct (deref fmt =? 42); [|by intros [= <- <-]]. unfold mbind, F_bind.
    destruct (va_word s) as [[w s1]|]; [|done]. cbv zeta. destruct (s32 w <? 0); [|by intros [= <- <-]].
    destruct (int (- s32 w) s1) as [[w' s2]|]; [|done]. by intros [= <- <-].
Qed.

Lemma run_get_precision fmt s r s' : get_precision fmt s = Some (r, s') -> r.1 = past_precision fmt.
Proof.
  unfold get_precision, past_precision. destruct (deref fmt =? 46); [|by intros [= <- <-]]. cbv zeta. unfold past_number.
  destruct (is_digit (deref (drop 1 fmt))).
  - unfold mbind, F_bind, lift. destruct (skip_atoi (drop 1 fmt) 0) as [[f w]|] eqn:E; [|done].
    intros [= <- <-]. exact (skip_atoi_rest _ _ _ E).
  - unfold mbind, F_bind. destruct (deref (drop 1 fmt) =? 42); [|by intros [= <- <-]].
    destruct (va_word s) as [[w s1]|]; [|done]. by intros [= <- <-].
Qed.

(** *** What is left is an end of the format *)
Lemma suffix_drop1 (l : cstr) : suffix (drop 1 l) l.
Proof. destruct l as [|c l]; [done|]. cbn [drop]. rewrite drop_0. by exists [c]. Qed.
Lemma suffix_drop_digits l : suffix (drop_digits l) l.
Proof. induction l as [|c l IH]; [done|]. cbn [drop_digits]. destruct (is_digit c); [|done]. by apply suffix_cons_r. Qed.
Lemma suffix_skip_alnum l : suffix (skip_alnum l) l.
Proof. induction l as [|c l IH]; [done|]. cbn [skip_alnum]. destruct (truthy _); [|done]. by apply suffix_cons_r. Qed.
Lemma suffix_flags l : forall f, suffix (flags_loop l f).1 l.
Proof.
  induction l as [|c l IH]; intros f; [done|]. cbn [flags_loop].
  repeat (destruct (_ =? _); [apply suffix_cons_r, IH|]). done.
Qed.
Lemma suffix_past_number l : suffix (past_number l) l.
Proof. unfold past_number. destruct (is_digit _); [apply suffix_drop_digits|]. destruct (_ =? _); [apply suffix_drop1|done]. Qed.
Lemma suffix_past_precision l : suffix (past_precision l) l.
Proof. unfold past_precision. destruct (_ =? _); [|done]. etrans; [apply suffix_past_number|apply suffix_drop1]. Qed.
Lemma suffix_qualifier l : suffix (get_qualifier l).1 l.
Proof.
  unfold get_qualifier. destruct (_ || _); [|done]. cbv zeta. destruct (_ && _); cbn [fst]; [|apply suffix_drop1].
  etrans; apply suffix_drop1.
Qed.
Lemma suffix_at_conversion l : suffix (at_conversion l) l.
Proof.
  unfold at_conversion. etrans; [apply suffix_qualifier|]. etrans; [apply suffix_past_precision|].
  etrans; [apply suffix_past_number|apply suffix_flags].
Qed.

Lemma no_char_suffix l1 l2 : suffix l1 l2 -> no_char l2 = true -> no_char l1 = true.
Proof.
  intros [pre ->]. induction pre as [|c pre IH]; cbn [app no_char]; [done|].
  intros [_ H]%andb_prop. by apply IH.
Qed.

Lemma run_conversion buf limit fmt s f s' : conversion buf limit fmt s = Some (f, s') -> suffix f fmt.
Proof.
  unfold conversion. pose proof (suffix_at_conversion fmt) as Hs. unfold at_conversion in Hs.
  destruct (flags_loop fmt 0) as [f0 flags]. cbn [fst] in Hs. unfold mbind, F_bind.
  destruct (get_width f0 flags s) as [[[[f1 w] flags1] s1]|] eqn:E1; [|done].
  apply run_get_width in E1. cbn [fst] in E1. rewrite <- E1 in Hs.
  destruct (get_precision f1 s1) as [[[f2 p] s2]|] eqn:E2; [|done].
  apply run_get_precision in E2. cbn [fst] in E2. rewrite <- E2 in Hs.
  destruct (get_qualifier f2) as [f3 q]. cbn [fst] in Hs. cbv zeta.
  assert (suffix (drop 1 f3) fmt) as Hd by (etrans; [apply suffix_drop1|exact Hs]).
  assert (suffix (skip_alnum (drop 1 f3)) fmt) as Ha by (etrans; [apply suffix_skip_alnum|exact Hd]).
  repeat match goal with
  | |- (if ?b then _ else _) _ = _ -> _ => destruct b
  | |- match ?x with _ => _ end = _ -> _ => destruct x as [[? ?]|]; [|done]
  | |- mret _ _ = _ -> _ => by intros [= <- _]
  end.
Qed.

(** ** Two buffers *)
Section Agree.
Context (buf l1 l2 : Z) (o1 o2 : list Z).
Context (H1 : 0 <= l1 <= Z.of_nat (length o1)) (H2 : 0 <= l2 <= Z.of_nat (length o2)).

(** The same text so far, and the same of all else. *)
Definition same (T : list Z) (s1 s2 : pf) : Prop :=
  wrote l1 o1 T s1 /\ wrote l2 o2 T s2 /\ counts s1 = counts s2 /\ args s1 = args s2.

Definition agree {A} (m1 m2 : F A) : Prop := forall T s1 s2, same T s1 s2 ->
  match m1 s1, m2 s2 with
  | Some (a1, s1'), Some (a2, s2') => a1 = a2 /\ exists T', same T' s1' s2'
  | None, None => True
  | _, _ => False
  end.

Lemma agree_bind {A B} (m1 m2 : F A) (f1 f2 : A -> F B) :
  agree m1 m2 -> (forall a, agree (f1 a) (f2 a)) -> agree (m1 ≫= f1) (m2 ≫= f2).
Proof.
  intros Hm Hf T s1 s2 Hs. unfold mbind, F_bind. specialize (Hm T s1 s2 Hs).
  destruct (m1 s1) as [[a1 s1']|], (m2 s2) as [[a2 s2']|]; try done.
  destruct Hm as (-> & T' & Hs'). exact (Hf a2 T' s1' s2' Hs').
Qed.

Lemma agree_ret {A} (a : A) : agree (mret a) (mret a).
Proof. intros T s1 s2 Hs. split; [done|by exists T]. Qed.
Lemma agree_undefined {A} : agree (undefined (A := A)) undefined.
Proof. done. Qed.
Lemma agree_lift {A} (m : option A) : agree (lift m) (lift m).
Proof. intros T s1 s2 Hs. unfold lift. destruct m; [|done]. split; [done|by exists T]. Qed.
Lemma agree_next_arg : agree next_arg next_arg.
Proof.
  intros T s1 s2 (W1 & W2 & Ec & Ea). unfold next_arg. rewrite Ea. destruct (args s2); [done|].
  split; [done|]. exists T. by split_and!.
Qed.
Lemma agree_addch c : agree (addch buf l1 c) (addch buf l2 c).
Proof.
  intros T s1 s2 (W1 & W2 & Ec & Ea).
  destruct (Z.ltb_spec (buf + Z.of_nat (length T) + 1) (2 ^ 32)) as [Hlt|Hge].
  - destruct (wrote_addch buf l1 o1 T c s1 W1 ltac:(lia) Hlt) as (s1' & -> & W1' & Ec1 & Ea1).
    destruct (wrote_addch buf l2 o2 T c s2 W2 ltac:(lia) Hlt) as (s2' & -> & W2' & Ec2 & Ea2).
    split; [done|]. exists (T ++ [c]). split_and!; [done..|congruence|congruence].
  - unfold addch. rewrite (proj1 W1), (proj1 W2). by destruct (Z.ltb_spec (buf + Z.of_nat (length T) + 1) (2 ^ 32)); [lia|].
Qed.
Lemma agree_count a : agree (count_to a) (count_to a).
Proof.
  intros T s1 s2 (W1 & W2 & Ec & Ea). split; [done|]. exists T. split_and!; try done. cbn [count_to counts].
  by rewrite Ec, (proj1 W1), (proj1 W2).
Qed.

Lemma agree_int z : agree (int z) (int z).
Proof. unfold int. destruct (_ && _); [apply agree_ret|apply agree_undefined]. Qed.
Lemma agree_va_word : agree va_word va_word.
Proof. apply agree_bind; [apply agree_next_arg|]. intros [v|v|a obj]; (apply agree_ret || apply agree_undefined). Qed.
Lemma agree_va_quad : agree va_quad va_quad.
Proof. apply agree_bind; [apply agree_next_arg|]. intros [v|v|a obj]; (apply agree_ret || apply agree_undefined). Qed.
Lemma agree_va_ptr : agree va_ptr va_ptr.
Proof. apply agree_bind; [apply agree_next_arg|]. intros [v|v|a obj]; (apply agree_ret || apply agree_undefined). Qed.

Create HintDb agree.
Hint Resolve agree_ret agree_undefined agree_lift agree_next_arg agree_addch agree_count agree_int
  agree_va_word agree_va_quad agree_va_ptr : agree.

(** Through a program, statement by statement. *)
Ltac agree :=
  repeat first
    [ solve [eauto 2 with agree]
    | match goal with
      | |- agree (mbind _ _) _ => apply agree_bind; [|intros ?]
      | |- agree (if ?b then _ else _) (if ?b then _ else _) => destruct b
      | |- agree (let '(_, _) := ?x in _) _ => destruct x
      | |- agree (match ?x with _ => _ end) _ => destruct x
      end ].

Lemma agree_addchs l : agree (addchs buf l1 l) (addchs buf l2 l).
Proof. induction l; cbn [addchs]; agree. Qed.
Lemma agree_pad_loop n low size c : agree (pad_loop buf l1 n low size c) (pad_loop buf l2 n low size c).
Proof. revert size. induction n; intros size; cbn [pad_loop]; agree. Qed.
Lemma agree_pad low size c : agree (pad buf l1 low size c) (pad buf l2 low size c).
Proof. apply agree_pad_loop. Qed.
Lemma agree_pad_string n len w : agree (pad_string buf l1 n len w) (pad_string buf l2 n len w).
Proof. revert w. induction n; intros w; cbn [pad_string]; cbv zeta; agree. Qed.
Hint Resolve agree_addchs agree_pad agree_pad_string : agree.

Lemma agree_number num base size precision type :
  agree (number buf l1 num base size precision type) (number buf l2 num base size precision type).
Proof. unfold number, number_sign. cbv zeta. agree. Qed.
Lemma agree_string_at obj w p flags : agree (string_at buf l1 obj w p flags) (string_at buf l2 obj w p flags).
Proof. unfold string_at. cbv zeta. agree. Qed.
Hint Resolve agree_number agree_string_at : agree.

Lemma agree_pointer fmt ptr w p flags : agree (pointer buf l1 fmt ptr w p flags) (pointer buf l2 fmt ptr w p flags).
Proof.
  unfold pointer, pointer_number, mac_address_string, ip6_addr_string, ip4_addr_string, local_string. cbv zeta. agree.
Qed.
Hint Resolve agree_pointer : agree.

(** Only the letter c takes a different number of arguments when there is no room. *)
Lemma agree_bind_run {A B} (m1 m2 : F A) (f1 f2 : A -> F B) :
  agree m1 m2 -> (forall a, (exists s s', m1 s = Some (a, s')) -> agree (f1 a) (f2 a)) -> agree (m1 ≫= f1) (m2 ≫= f2).
Proof.
  intros Hm Hf T s1 s2 Hs. unfold mbind, F_bind. specialize (Hm T s1 s2 Hs).
  destruct (m1 s1) as [[a1 s1']|] eqn:E, (m2 s2) as [[a2 s2']|]; try done.
  destruct Hm as (-> & T' & Hs'). exact (Hf a2 ltac:(by exists s1, s1') T' s1' s2' Hs').
Qed.

Lemma agree_get_width fmt flags : agree (get_width fmt flags) (get_width fmt flags).
Proof. unfold get_width. cbv zeta. agree. Qed.
Lemma agree_get_precision fmt : agree (get_precision fmt) (get_precision fmt).
Proof. unfold get_precision. cbv zeta. agree. Qed.
Lemma agree_get_num q flags : agree (get_num q flags) (get_num q flags).
Proof. unfold get_num. cbv zeta. agree. Qed.
Hint Resolve agree_get_width agree_get_precision agree_get_num : agree.

Lemma agree_conversion fmt : deref (at_conversion fmt) <> 99 ->
  agree (conversion buf l1 fmt) (conversion buf l2 fmt).
Proof.
  unfold at_conversion, conversion. intros Hc. destruct (flags_loop fmt 0) as [f flags]. cbn [fst] in Hc.
  apply agree_bind_run; [agree|]. intros [[f1 w] flags1] (s & s' & E%run_get_width). cbn [fst] in E. rewrite <- E in Hc.
  apply agree_bind_run; [agree|]. intros [f2 p] (s2 & s2' & E2%run_get_precision). cbn [fst] in E2. rewrite <- E2 in Hc.
  destruct (get_qualifier f2) as [f3 q]. cbn [fst] in Hc. cbv zeta.
  rewrite (proj2 (Z.eqb_neq _ _) Hc). agree.
Qed.

(** Text that does not depend on the room for it. *)
Lemma agree_format_loop n fmt : no_char fmt = true -> agree (format_loop buf l1 n fmt) (format_loop buf l2 n fmt).
Proof.
  revert fmt. induction n as [|n IH]; intros fmt Hc; cbn [format_loop]; [agree|].
  destruct fmt as [|c fmt]; [agree|]. cbn [no_char] in Hc. apply andb_prop in Hc as [Hc Hrest].
  destruct (Z.eqb_spec c 37) as [->|Hn]; cbn [negb].
  - apply agree_bind_run.
    + apply agree_conversion. cbn [andb] in Hc. by apply negb_true_iff, Z.eqb_neq in Hc.
    + intros f (s & s' & E). apply IH. exact (no_char_suffix _ _ (run_conversion _ _ _ _ _ _ E) Hrest).
  - apply agree_bind; [agree|]. intros _. by apply IH.
Qed.
End Agree.

(** ** Truncation *)

(** The text and what "%n" stored, read off a run with room for everything. *)
Definition full_run (buf room : Z) (o : list Z) (fmt : cstr) (l : list arg) : option (list Z * list (Z * Z)) :=
  match format_loop buf room (S (length fmt)) fmt (Pf 0 o [] l) with
  | Some (_, s) =>
      if buf + str s + 1 <? 2 ^ 32 then Some (take (Z.to_nat (str s)) (out s), counts s) else None
  | None => None
  end.

(** What a buffer that held [mem] holds when [T] was written to its [size] bytes. *)
Definition cut (size : Z) (mem T : list Z) : list Z :=
  let k := Nat.min (length T) (Z.to_nat size - 1) in take k T ++ [0] ++ drop (S k) mem.

Lemma shown_cut size mem T s : 0 < size <= Z.of_nat (length mem) -> wrote size mem (T ++ [0]) s ->
  (if size <? str s then if size <=? Z.of_nat (length (out s)) then Some (<[Z.to_nat (size - 1) := 0]> (out s)) else None
   else Some (out s)) = Some (cut size mem T).
Proof.
  intros Hs [Es Eo]. rewrite Es, Eo, length_app. cbn [length]. unfold cut.
  destruct (Z.ltb_spec size (Z.of_nat (length T + 1))).
  - rewrite shown_length by lia. destruct (Z.leb_spec size (Z.of_nat (length mem))); [|lia]. f_equal.
    unfold shown. rewrite length_app. cbn [length].
    replace (Nat.min (Z.to_nat size) (length T + 1)) with (Z.to_nat size) by lia.
    replace (Nat.min (length T) (Z.to_nat size - 1)) with (Z.to_nat size - 1)%nat by lia.
    rewrite take_app_le by lia. replace (Z.to_nat size) with (S (Z.to_nat (size - 1))) by lia.
    replace (S (Z.to_nat (size - 1)) - 1)%nat with (Z.to_nat (size - 1)) by lia.
    destruct (lookup_lt_is_Some_2 T (Z.to_nat (size - 1))) as [x E]; [lia|].
    rewrite (take_S_r _ _ _ E), <- app_assoc.
    assert (length (take (Z.to_nat (size - 1)) T) = Z.to_nat (size - 1)) as El by (rewrite length_take; lia).
    by rewrite insert_app_r_alt, El, Nat.sub_diag by lia.
  - f_equal. unfold shown. rewrite length_app. cbn [length].
    replace (Nat.min (Z.to_nat size) (length T + 1)) with (length T + 1)%nat by lia.
    replace (Nat.min (length T) (Z.to_nat size - 1)) with (length T) by lia.
    rewrite firstn_all, take_ge by (rewrite length_app; cbn [length]; lia).
    rewrite <- app_assoc. do 3 f_equal. lia.
Qed.

(** Every run is the run with room for everything, cut. *)
Lemma run_vsnprintf buf room o fmt l size mem :
  0 <= buf -> no_char fmt = true -> 2 ^ 32 <= room <= Z.of_nat (length o) ->
  0 < size -> buf + size < 2 ^ 32 -> size <= Z.of_nat (length mem) ->
  vsnprintf buf size fmt l mem =
    '(T, ns) ← full_run buf room o fmt l; Some (s32 (Z.of_nat (length T)), cut size mem T, ns).
Proof.
  intros Hb Hc Ho Hs Haddr Hmem. unfold vsnprintf, vsnprintf_internal, full_run.
  rewrite (u32_small (buf + size)) by lia. destruct (Z.ltb_spec (buf + size) buf); [lia|]. cbv zeta.
  assert (same room size o mem [] (Pf 0 o [] l) (Pf 0 mem [] l)) as H0 by (split_and!; split; done || (unfold shown; cbn; by rewrite ?Nat.min_0_r, ?drop_0)).
  pose proof (agree_format_loop buf room size o mem ltac:(lia) ltac:(lia) (S (length fmt)) fmt Hc [] _ _ H0) as Ha.
  destruct (format_loop buf room _ fmt _) as [[[] s1]|], (format_loop buf size _ fmt _) as [[[] s2]|]; try done.
  destruct Ha as (_ & T & [E1 Eo1] & W2 & Ec & Ea). cbn [mbind option_bind].
  destruct (Z.ltb_spec 0 size); [|lia]. rewrite E1.
  destruct (Z.ltb_spec (buf + Z.of_nat (length T) + 1) (2 ^ 32)) as [Hlt|Hge].
  - destruct (wrote_addch buf size mem T 0 s2 W2 ltac:(lia) Hlt) as (s2' & -> & W2' & Ec2 & _). cbn [mbind option_bind].
    rewrite (shown_cut size mem T) by (done || lia). cbn [mbind option_bind].
    rewrite (proj1 W2'), length_app, Ec2, <- Ec, Nat2Z.id, Eo1. cbn [length].
    assert (take (length T) (shown room o T) = T) as ->.
    { unfold shown. replace (Nat.min (Z.to_nat room) (length T)) with (length T) by lia.
      rewrite firstn_all. by rewrite take_app_le, firstn_all by lia. }
    do 3 f_equal. f_equal. lia.
  - unfold addch. rewrite (proj1 W2). destruct (Z.ltb_spec (buf + Z.of_nat (length T) + 1) (2 ^ 32)); [lia|done].
Qed.

(** An object as large as the address space. *)
Lemma long_object : exists o : list Z, 2 ^ 32 <= Z.of_nat (length o).
Proof. exists (replicate (Z.to_nat (2 ^ 32)) 0). rewrite length_replicate. lia. Qed.

(** C14: for a format without "%c", vsnprintf writes the beginning of a text that does
    not depend on the size of the buffer, terminated and inside the buffer, and nothing
    else; it returns the length of the whole text, and "%n" stores what it stores
    without truncation. *)
Theorem vsnprintf_truncates buf fmt l :
  0 <= buf -> no_char fmt = true ->
  exists r : option (list Z * list (Z * Z)), forall size mem,
    0 < size -> buf + size < 2 ^ 32 -> size <= Z.of_nat (length mem) ->
    vsnprintf buf size fmt l mem =
      match r with
      | None => None
      | Some (T, ns) =>
          let k := Nat.min (length T) (Z.to_nat size - 1) in
          Some (s32 (Z.of_nat (length T)), take k T ++ [0] ++ drop (S k) mem, ns)
      end.
Proof.
  intros Hb Hc. destruct long_object as (o & Ho). exists (full_run buf (Z.of_nat (length o)) o fmt l).
  intros size mem Hs Ha Hm. rewrite (run_vsnprintf buf (Z.of_nat (length o)) o) by (done || lia).
  by destruct (full_run _ _ _ _ _) as [[T ns]|].
Qed.

Lemma vsnprintf_truncates_witness :
  exists r : option (list Z * list (Z * Z)), forall size mem,
    0 < size -> 4096 + size < 2 ^ 32 -> size <= Z.of_nat (length mem) ->
    vsnprintf 4096 size (chars "%s=%08x%n") [Ptr 1 (chars "filesize" ++ [0]); Int 0x12ab; Ptr 2 []] mem =
      match r with
      | None => None
      | Some (T, ns) =>
          let k := Nat.min (length T) (Z.to_nat size - 1) in
          Some (s32 (Z.of_nat (length T)), take k T ++ [0] ++ drop (S k) mem, ns)
      end.
Proof. apply (vsnprintf_truncates 4096 (chars "%s=%08x%n")); [lia|reflexivity]. Defined.

Example vsnprintf_cut :
  vsnprintf 4096 12 (chars "%s=%08x%n") [Ptr 1 (chars "filesize" ++ [0]); Int 0x12ab; Ptr 2 []] (replicate 20 7) =
    Some (17, chars "filesize=00" ++ [0] ++ replicate 8 7, [(2, 17)]).
Proof. vm_compute. reflexivity. Qed.

(** Without room "%c" leaves its argument, which the next conversion then takes: here
    the character for the number. *)
Lemma char_keeps_argument :
  vsnprintf 4096 8 (chars " %c%d") [Int 65; Int 1] (replicate 8 7) = Some (3, chars " A1" ++ [0] ++ replicate 4 7, []) /\
  vsnprintf 4096 1 (chars " %c%d") [Int 65; Int 1] (replicate 1 7) = Some (4, [0], []).
Proof. vm_compute. done. Qed.
