(* ===== verification/UFormatNum.v ===== *)
(** The digits that [number] of UFormat.v computes: those of the positional
    representation, in the bases 8, 10 and 16, for every 64-bit number.  The decimal
    routines are those of Vsprintf.v, whose theory is in Format.v. *)
From S2P Require Import Prelude Machine FwLogic Vsprintf Format Ctype Htab Strto UDiv64 UFormat.

(** The digits of [num], the lowest first; [n] is a bound of their number. *)
Fixpoint radix (n : nat) (base num : Z) : list Z :=
  match n with
  | O => []
  | S n => num mod base :: (if num <? base then [] else radix n base (num / base))
  end.
Definition digit_char (locase d : Z) : Z := nth (Z.to_nat d) UFormat.digits 0 .| locase.
(** The text of [num], the highest digit first. *)
Definition radix_text (base locase num : Z) : list Z := rev (digit_char locase <$> radix 64 base num).

Lemma radix_range n base num : 0 < base -> 0 <= num -> Forall (fun d => 0 <= d < base) (radix n base num).
Proof.
  intros Hb. revert num. induction n as [|n IH]; intros num Hn; cbn [radix]; [constructor|].
  constructor; [apply Z.mod_pos_bound; lia|]. destruct (num <? base); [constructor|]. apply IH, Z.div_pos; lia.
Qed.

(** *** Octal and hexadecimal *)
Lemma low_radix_digit sh r : sh = 3 \/ sh = 4 -> u8 r .& (2 ^ sh - 1) = r mod 2 ^ sh.
Proof.
  intros Hs. replace (2 ^ sh - 1) with (Z.ones sh) by (rewrite Z.ones_equiv; lia).
  rewrite Z.land_ones by lia. unfold u8. destruct Hs as [-> | ->]; dlia.
Qed.

Lemma digit_char_byte locase d : locase = 0 \/ locase = 32 -> 0 <= d < 16 -> u8 (digit_char locase d) = digit_char locase d.
Proof.
  intros Hl Hd. assert (d ∈ seqZ 0 16) as Hs by (apply elem_of_seqZ; lia).
  assert (forallb (fun d => (u8 (digit_char 0 d) =? digit_char 0 d) && (u8 (digit_char 32 d) =? digit_char 32 d)) (seqZ 0 16) = true)
    as H by (vm_compute; reflexivity).
  rewrite forallb_forall in H. apply list_elem_of_In, H, andb_prop in Hs as [H0%Z.eqb_eq H1%Z.eqb_eq].
  by destruct Hl as [-> | ->].
Qed.

Lemma bits_loop_spec sh locase n num tmp :
  sh = 3 \/ sh = 4 -> locase = 0 \/ locase = 32 -> 0 <= num -> num < (2 ^ sh) ^ Z.of_nat n -> (0 < n)%nat ->
  bits_loop n num (2 ^ sh - 1) sh locase tmp = Some (tmp ++ (digit_char locase <$> radix n (2 ^ sh) num)).
Proof.
  intros Hsh Hl. assert (8 <= 2 ^ sh <= 16) as Hb by (destruct Hsh as [-> | ->]; lia).
  revert num tmp. induction n as [|n IH]; intros num tmp H0 Hn Hpos; [lia|]. cbn [bits_loop radix]. cbv zeta.
  rewrite low_radix_digit by done. fold (digit_char locase (num mod 2 ^ sh)).
  pose proof (Z.mod_pos_bound num (2 ^ sh) ltac:(lia)) as Hm. rewrite digit_char_byte by (done || lia).
  rewrite Z.shiftr_div_pow2 by lia. destruct (Z.ltb_spec num (2 ^ sh)) as [Hlt|Hge].
  - rewrite (Z.div_small num) by lia. done.
  - assert (0 < num / 2 ^ sh) as Hq by (apply Z.div_str_pos; lia).
    assert (truthy (num / 2 ^ sh) = true) as -> by (apply truthy_true; lia).
    rewrite Nat2Z.inj_succ, Z.pow_succ_r in Hn by lia.
    assert (num / 2 ^ sh < (2 ^ sh) ^ Z.of_nat n) as Hq' by (apply Z.div_lt_upper_bound; lia).
    rewrite IH; [by rewrite fmap_cons, <- app_assoc|lia|done|].
    destruct n; [rewrite Z.pow_0_r in Hq'; lia|lia].
Qed.

(** More room than digits does not matter. *)
Lemma radix_room n base num : 1 < base -> 0 <= num < base ^ Z.of_nat n -> (0 < n)%nat -> forall m, (n <= m)%nat -> radix m base num = radix n base num.
Proof.
  intros Hb. revert num. induction n as [|n IH]; intros num Hn Hpos m Hm; [lia|].
  destruct m as [|m]; [lia|]. cbn [radix]. f_equal. destruct (Z.ltb_spec num base) as [Hlt|Hge]; [done|].
  rewrite Nat2Z.inj_succ, Z.pow_succ_r in Hn by lia.
  assert (0 < num / base) by (apply Z.div_str_pos; lia).
  assert (num / base < base ^ Z.of_nat n) as Hq by (apply Z.div_lt_upper_bound; lia).
  apply IH; [lia| |lia]. destruct n; [rewrite Z.pow_0_r in Hq; lia|lia].
Qed.

Lemma radix_same k n m base num : 1 < base -> 0 <= num < base ^ Z.of_nat k -> (0 < k <= n)%nat -> (k <= m)%nat ->
  radix n base num = radix m base num.
Proof. intros Hb Hn Hk Hm. transitivity (radix k base num); [|symmetry]; apply radix_room; lia || done. Qed.

(** *** Decimal *)
Lemma digits_value_nonneg l : Forall dec_digit l -> 0 <= dec_value l.
Proof. intros H. induction H as [|c l Hc Hl IH]; cbn [dec_value]; [lia|]. unfold dec_digit in Hc. lia. Qed.

Lemma digit_char_dec locase d : locase = 0 \/ locase = 32 -> 0 <= d < 10 -> digit_char locase d = d + 48.
Proof.
  intros Hl Hd. assert (d ∈ seqZ 0 10) as Hs by (apply elem_of_seqZ; lia).
  assert (forallb (fun d => (digit_char 0 d =? d + 48) && (digit_char 32 d =? d + 48)) (seqZ 0 10) = true)
    as H by (vm_compute; reflexivity).
  rewrite forallb_forall in H. apply list_elem_of_In, H, andb_prop in Hs as [H0%Z.eqb_eq H1%Z.eqb_eq].
  by destruct Hl as [-> | ->].
Qed.

(** There is one canonical list of digits of a number. *)
Lemma canonical_radix locase l n : locase = 0 \/ locase = 32 -> canonical l -> (length l <= n)%nat ->
  l = digit_char locase <$> radix n 10 (dec_value l).
Proof.
  intros Hl. revert n. induction l as [|c l IH]; intros n (Hd & Hne & Hz) Hn; [done|].
  destruct n as [|n]; [cbn in Hn; lia|]. cbn [radix dec_value]. apply Forall_cons_1 in Hd as [Hc Hd].
  unfold dec_digit in Hc. pose proof (digits_value_nonneg l Hd) as Hv.
  rewrite fmap_cons. f_equal.
  - rewrite digit_char_dec by (done || dlia). dlia.
  - replace ((c - 48 + 10 * dec_value l) / 10) with (dec_value l) by dlia.
    destruct l as [|c' l].
    { cbn [dec_value]. by destruct (Z.ltb_spec (c - 48 + 10 * 0) 10); [|lia]. }
    assert (canonical (c' :: l)) as Hcan.
    { split; [done|]. split; [done|]. intros l' E. destruct l' as [|x l']; [done|].
      specialize (Hz (c :: x :: l')). cbn [app] in Hz, E. rewrite E in Hz. by specialize (Hz eq_refl). }
    assert (0 < dec_value (c' :: l)) as Hpos.
    { destruct (exists_last (l := c' :: l) ltac:(done)) as (l0 & x & E). rewrite E in Hd, Hcan, Hz |- *.
      apply Forall_app in Hd as [Hd0 Hx]. apply Forall_cons_1 in Hx as [Hx _]. unfold dec_digit in Hx.
      rewrite dec_value_app. cbn [dec_value]. pose proof (digits_value_nonneg l0 Hd0).
      assert (x <> 48). { intros ->. specialize (Hz (c :: l0)). cbn [app] in Hz. by specialize (Hz eq_refl). }
      assert (0 < 10 ^ Z.of_nat (length l0)) by (apply Z.pow_pos_nonneg; lia). nia. }
    destruct (Z.ltb_spec (c - 48 + 10 * dec_value (c' :: l)) 10); [lia|]. apply IH; [done|]. cbn [length] in *. lia.
Qed.

(** The routines are the ones of the firmware. *)
Lemma put_dec_same : UFormat.put_dec_trunc = Vsprintf.put_dec_trunc /\ UFormat.put_dec_full = Vsprintf.put_dec_full.
Proof. done. Qed.

Lemma put_dec_loop_canonical n buf k :
  0 <= k < 100000 ^ Z.of_nat n -> k < 2 ^ 64 -> (0 < n)%nat -> Forall dec_digit buf -> (buf <> [] -> 0 < k) ->
  exists l, put_dec_loop n buf k = Some (buf ++ l) /\ canonical (buf ++ l) /\ (length l <= 5 * n)%nat /\ dec_value l = k.
Proof.
  destruct put_dec_same as [Et Ef]. revert buf k. induction n as [|n IH]; intros buf k Hk H64 Hn Hbuf Hpos; [lia|].
  cbn [put_dec_loop]. destruct (Z.ltb_spec k 100000) as [Hlt|Hge].
  - rewrite u32_small, Et by lia.
    destruct (put_dec_trunc_spec buf k ltac:(lia)) as (l & -> & Hl & (Hd & Hne & Hz) & Hv).
    exists l. split; [done|]. split; [|split; [lia|done]]. split; [by apply Forall_app|]. split; [by destruct buf, l|].
    intros l' E. destruct (exists_last Hne) as (l0 & c & ->). rewrite app_assoc in E.
    apply app_inj_2 in E as [E1 E2]; [|done]. injection E2 as ->.
    specialize (Hz l0 eq_refl). subst l0. destruct buf as [|b buf]; [by rewrite <- E1|].
    simpl in Hv. specialize (Hpos ltac:(done)). lia.
  - rewrite do_div_spec by lia. cbn [mbind option_bind]. rewrite Ef.
    pose proof (Z.mod_pos_bound k 100000 ltac:(lia)) as Hm. pose proof (Z.div_mod k 100000 ltac:(lia)) as Hdm.
    destruct (put_dec_full_spec buf (k mod 100000) Hm) as (l & -> & Hl & Hd & Hv).
    assert (0 < k / 100000) by (apply Z.div_str_pos; lia).
    rewrite Nat2Z.inj_succ, Z.pow_succ_r in Hk by lia.
    assert (k / 100000 < 100000 ^ Z.of_nat n) as Hq by (apply Z.div_lt_upper_bound; lia).
    destruct (IH (buf ++ l) (k / 100000)) as (l' & -> & Hcan & Hl' & Hv').
    { lia. } { dlia. } { destruct n; [rewrite Z.pow_0_r in Hq; lia|lia]. } { by apply Forall_app. } { lia. }
    exists (l ++ l'). rewrite <- app_assoc in Hcan |- *. split; [done|]. split; [done|]. split; [rewrite length_app; lia|].
    rewrite dec_value_app, Hl, Hv, Hv'. change (10 ^ Z.of_nat 5) with 100000. lia.
Qed.

Lemma put_dec_spec locase num : locase = 0 \/ locase = 32 -> 0 <= num < 2 ^ 64 ->
  UFormat.put_dec [] num = Some (digit_char locase <$> radix 64 10 num).
Proof.
  intros Hl Hn. destruct (put_dec_loop_canonical 5 [] num) as (l & E & Hcan & Hlen & Hv); [|lia|lia|done|done|].
  { change (100000 ^ Z.of_nat 5) with 10000000000000000000000000. lia. }
  unfold UFormat.put_dec. rewrite E. cbn [app] in *. f_equal. rewrite <- Hv.
  apply canonical_radix; [done|done|lia].
Qed.

(** The digits [number] writes, the lowest first. *)
Lemma number_digits_spec num base locase :
  locase = 0 \/ locase = 32 -> 0 <= num < 2 ^ 64 -> base = 8 \/ base = 10 \/ base = 16 ->
  number_digits num base locase = Some (digit_char locase <$> radix 64 base num).
Proof.
  intros Hl Hn Hb. unfold number_digits. destruct (Z.eqb_spec num 0) as [->|Hnz].
  { by destruct Hl as [-> | ->], Hb as [-> | [-> | ->]]. }
  destruct Hb as [-> | [-> | ->]]; cbn [Z.eqb Pos.eqb negb].
  - pose proof (bits_loop_spec 3 locase 66 num [] ltac:(lia) Hl) as H. cbn [app] in H.
    change (2 ^ 3) with 8 in H. change (8 - 1) with 7 in *. rewrite H by (change (8 ^ Z.of_nat 66) with (2 ^ 198); lia).
    rewrite (radix_same 22 66 64 8 num); [done|lia| |lia|lia]. change (8 ^ Z.of_nat 22) with (2 ^ 66). lia.
  - by apply put_dec_spec.
  - pose proof (bits_loop_spec 4 locase 66 num [] ltac:(lia) Hl) as H. cbn [app] in H.
    change (2 ^ 4) with 16 in H. change (16 - 1) with 15 in *. rewrite H by (change (16 ^ Z.of_nat 66) with (2 ^ 264); lia).
    rewrite (radix_same 16 66 64 16 num); [done|lia| |lia|lia]. change (16 ^ Z.of_nat 16) with (2 ^ 64). lia.
Qed.
