(* ===== verification/UFormatSpec.v ===== *)
(** What formatted output should write, without buffers and loops, and that the code
    of UFormat.v writes it: numbers padded to a width, strings cut to a precision,
    and whole formats. *)
From Stdlib Require Import String.
From S2P Require Import Prelude Ctype Htab Strto UDiv64 UFormat UFormatText UFormatNum.

(** ** The specification *)

(** A number in [base] between the padding that the flags ask for. *)
Definition number_text (num base w p type : Z) : list Z :=
  let signed := truthy (type .& SIGN) in
  let negative := signed && (s64 num <? 0) in
  let locase := type .& SMALL in
  let head :=
    (if negative then [45] else if signed then
       if truthy (type .& PLUS) then [43] else if truthy (type .& SPACE) then [32] else [] else []) ++
    (if truthy (type .& SPECIAL) && negb (base =? 10) then 48 :: (if base =? 16 then [88 .| locase] else []) else []) in
  let ds := radix_text base locase (if negative then - s64 num else num) in
  let body := replicate (Z.to_nat (p - Z.of_nat (length ds))) 48 ++ ds in
  let n := Z.to_nat (w - Z.of_nat (length head) - Z.of_nat (length body)) in
  if truthy (type .& LEFT) then head ++ body ++ replicate n 32
  else if truthy (type .& ZEROPAD) then head ++ replicate n 48 ++ body
  else replicate n 32 ++ head ++ body.

(** At most [p] characters of a string, in a field of [w]. *)
Definition string_text (obj : list Z) (w p flags : Z) : option (list Z) :=
  len ← strnlen obj (u32 p);
  let n := Z.to_nat (w - len) in
  let s := take (Z.to_nat len) obj in
  if 2 ^ 30 <=? len then None
  else Some (if truthy (flags .& LEFT) then s ++ replicate n 32 else replicate n 32 ++ s).

(** The value and the arguments that are left, of a function that only reads them. *)
Definition on_args {A} (m : F A) (l : list arg) : option (A * list arg) :=
  match m (Pf 0 [] [] l) with Some (a, s) => Some (a, args s) | None => None end.

Definition is_width (z : Z) : bool := (- 2 ^ 29 <? z) && (z <? 2 ^ 29).

(** The format behind a conversion, its text, and the arguments that are left.
    Pointers and "%n" are left out. *)
Definition conversion_text (fmt : cstr) (l : list arg) : option (cstr * list Z * list arg) :=
  let '(fmt, flags) := flags_loop fmt 0 in
  '(fmt, w, flags, l) ← on_args (get_width fmt flags) l;
  '(fmt, p, l) ← on_args (get_precision fmt) l;
  let '(fmt, qualifier) := get_qualifier fmt in
  let c := deref fmt in
  let rest := drop 1 fmt in
  let integer base flags :=
    '(num, l) ← on_args (get_num qualifier flags) l;
    if truthy (flags .& SIGN) && (s64 num =? - 2 ^ 63) then None
    else Some (rest, number_text num base w p flags, l) in
  if negb (is_width w && is_width p) then None
  else if c =? 99 then
    '(v, l) ← on_args va_word l;
    let n := Z.to_nat (w - 1) in
    Some (rest, if truthy (flags .& LEFT) then u8 v :: replicate n 32 else replicate n 32 ++ [u8 v], l)
  else if c =? 115 then
    '(s, l) ← on_args va_ptr l;
    t ← string_text (if s.1 =? 0 then chars "<NULL>" ++ [0] else s.2) w p flags; Some (rest, t, l)
  else if (c =? 112) || (c =? 110) then None
  else if c =? 37 then Some (rest, [37], l)
  else if c =? 111 then integer 8 flags
  else if c =? 120 then integer 16 (flags .| SMALL)
  else if c =? 88 then integer 16 flags
  else if (c =? 100) || (c =? 105) then integer 10 (flags .| SIGN)
  else if c =? 117 then integer 10 flags
  else Some (rest, 37 :: (if truthy c then [c] else []), l).

Fixpoint format_text_loop (n : nat) (fmt : cstr) (l : list arg) : option (list Z) :=
  match n, fmt with
  | O, _ => None
  | _, [] => Some []
  | S n, c :: fmt =>
      if negb (c =? 37) then cons c <$> format_text_loop n fmt l
      else '(fmt, t, l) ← conversion_text fmt l; app t <$> format_text_loop n fmt l
  end.
(** The text of a format with its arguments. *)
Definition format_text (fmt : cstr) (l : list arg) : option (list Z) := format_text_loop (S (length fmt)) fmt l.

Lemma strnlen_nonneg s : forall n len, strnlen s n = Some len -> 0 <= len.
Proof.
  induction s as [|c s IH]; intros n len; cbn [strnlen]; (destruct (n =? 0); [by intros [= <-]|]); [done|].
  destruct (c =? 0); [by intros [= <-]|]. destruct (strnlen s (n - 1)) as [k|] eqn:E; [|done]. intros [= <-].
  specialize (IH _ _ E). lia.
Qed.

(** ** Writing where there is room *)
Section Prints.
Context (buf lim : Z) (o : list Z).

Definition within (T : list Z) : Prop :=
  Z.of_nat (length T) <= lim /\ Z.of_nat (length T) <= Z.of_nat (length o) /\ buf + Z.of_nat (length T) < 2 ^ 32.

(** [m] writes [t], takes the arguments [l] to [l'], and returns [a]. *)
Definition prints {A} (m : F A) (t : list Z) (l : list arg) (a : A) (l' : list arg) : Prop :=
  forall T s, wrote lim o T s -> args s = l -> within (T ++ t) ->
    exists s', m s = Some (a, s') /\ wrote lim o (T ++ t) s' /\ args s' = l' /\ counts s' = counts s.

Lemma within_le T t1 t2 : within (T ++ t1 ++ t2) -> within (T ++ t1).
Proof. unfold within. rewrite !length_app. lia. Qed.

Lemma prints_bind {A B} (m : F A) (f : A -> F B) t1 t2 l1 l2 l3 a b :
  prints m t1 l1 a l2 -> prints (f a) t2 l2 b l3 -> prints (m ≫= f) (t1 ++ t2) l1 b l3.
Proof.
  intros Hm Hf T s Hw Ha Hfit. destruct (Hm T s Hw Ha (within_le _ _ _ Hfit)) as (s1 & E1 & W1 & A1 & C1).
  rewrite app_assoc in Hfit. destruct (Hf (T ++ t1) s1 W1 A1 Hfit) as (s2 & E2 & W2 & A2 & C2).
  exists s2. unfold mbind, F_bind. rewrite E1. split; [done|]. rewrite app_assoc. split; [done|]. split; [done|congruence].
Qed.

Lemma prints_ret {A} (a : A) l : prints (mret a) [] l a l.
Proof. intros T s Hw Ha _. exists s. rewrite app_nil_r. by split_and!. Qed.
Lemma prints_lift {A} (m : option A) a l : m = Some a -> prints (lift m) [] l a l.
Proof. intros -> T s Hw Ha _. exists s. rewrite app_nil_r. by split_and!. Qed.
Lemma prints_int z l : - 2 ^ 31 <= z < 2 ^ 31 -> prints (int z) [] l z l.
Proof.
  intros Hz. unfold int. destruct (Z.leb_spec (- 2 ^ 31) z); [|lia]. destruct (Z.ltb_spec z (2 ^ 31)); [|lia].
  apply prints_ret.
Qed.
Lemma prints_addch c l : prints (addch buf lim c) [c] l tt l.
Proof.
  intros T s Hw Ha (H1 & H2 & H3). rewrite length_app in H1, H2, H3. cbn [length] in *.
  destruct (wrote_addch buf lim o T c s Hw ltac:(lia) ltac:(lia)) as (s' & E & W & C & A).
  exists s'. split; [done|]. split; [done|]. split; congruence.
Qed.
Lemma prints_addchs t l : prints (addchs buf lim t) t l tt l.
Proof.
  induction t as [|c t IH]; cbn [addchs]; [apply prints_ret|].
  exact (prints_bind _ _ [c] t _ _ _ _ _ (prints_addch c l) IH).
Qed.

Lemma prints_bind0 {A B} (m : F A) (f : A -> F B) t l1 l2 l3 a b :
  prints m [] l1 a l2 -> prints (f a) t l2 b l3 -> prints (m ≫= f) t l1 b l3.
Proof. apply (prints_bind m f [] t). Qed.
Lemma prints_eq {A} (m : F A) t t' l a a' l' : t = t' -> a = a' -> prints m t l a l' -> prints m t' l a' l'.
Proof. by intros -> ->. Qed.
Lemma prints_text {A} (m : F A) t t' l a l' : t = t' -> prints m t l a l' -> prints m t' l a l'.
Proof. by intros ->. Qed.

Lemma prints_pad_loop n low size c l : (Z.to_nat (size - low) < n)%nat -> - 2 ^ 31 < Z.min size low -> size <= 2 ^ 31 ->
  prints (pad_loop buf lim n low size c) (replicate (Z.to_nat (size - low)) c) l (Z.min size low - 1) l.
Proof.
  revert size. induction n as [|n IH]; intros size Hn Hlo Hhi; [lia|]. cbn [pad_loop].
  eapply prints_bind0; [apply prints_int; lia|]. destruct (Z.leb_spec low (size - 1)) as [Hle|Hgt].
  - replace (Z.to_nat (size - low)) with (S (Z.to_nat (size - 1 - low))) by lia. cbn [replicate].
    eapply (prints_bind _ _ [c]); [apply prints_addch|]. eapply prints_eq; [done| |apply IH; lia]. lia.
  - replace (Z.to_nat (size - low)) with 0%nat by lia. cbn [replicate].
    eapply prints_eq; [done| |apply prints_ret]. lia.
Qed.
Lemma prints_pad low size c l : - 2 ^ 31 < Z.min size low -> size <= 2 ^ 31 ->
  prints (pad buf lim low size c) (replicate (Z.to_nat (size - low)) c) l (Z.min size low - 1) l.
Proof. intros Hlo Hhi. apply prints_pad_loop; lia. Qed.

Lemma prints_pad_string_loop n len w l : (Z.to_nat (w - len) < n)%nat -> - 2 ^ 31 < Z.min w len -> w <= 2 ^ 31 ->
  prints (pad_string buf lim n len w) (replicate (Z.to_nat (w - len)) 32) l (Z.min w len - 1) l.
Proof.
  revert w. induction n as [|n IH]; intros w Hn Hlo Hhi; [lia|]. cbn [pad_string]. cbv zeta.
  eapply prints_bind0; [apply prints_int; lia|]. destruct (Z.ltb_spec len w) as [Hlt|Hge].
  - replace (Z.to_nat (w - len)) with (S (Z.to_nat (w - 1 - len))) by lia. cbn [replicate].
    eapply (prints_bind _ _ [32]); [apply prints_addch|]. eapply prints_eq; [done| |apply IH; lia]. lia.
  - replace (Z.to_nat (w - len)) with 0%nat by lia. cbn [replicate].
    eapply prints_eq; [done| |apply prints_ret]. lia.
Qed.

(** *** Numbers *)
Definition sign_text (num type : Z) : list Z :=
  if truthy (type .& SIGN) && (s64 num <? 0) then [45] else if truthy (type .& SIGN) then
    if truthy (type .& PLUS) then [43] else if truthy (type .& SPACE) then [32] else [] else [].
Definition prefix_text (base type : Z) : list Z :=
  if truthy (type .& SPECIAL) && negb (base =? 10) then 48 :: (if base =? 16 then [88 .| (type .& SMALL)] else []) else [].
Definition magnitude (num type : Z) : Z := if truthy (type .& SIGN) && (s64 num <? 0) then - s64 num else num.
Definition no_zeropad (type : Z) : Z := if truthy (type .& LEFT) then type .& Z.lnot ZEROPAD else type.

Lemma truthy_bit z n b : 0 <= n -> b = 1 << n -> truthy (z .& b) = Z.testbit z n.
Proof. intros Hn ->. by apply truthy_land_bit. Qed.

(** Flag by flag: the padding flags after the left one cancels the other. *)
Lemma no_zeropad_bit type b : b ∈ [SIGN; PLUS; SPACE; LEFT; SMALL; SPECIAL] -> truthy (no_zeropad type .& b) = truthy (type .& b).
Proof.
  intros Hb. unfold no_zeropad. destruct (truthy (type .& LEFT)); [|done].
  rewrite <- Z.land_assoc. f_equal. f_equal. by repeat (apply elem_of_cons in Hb as [->|Hb]; [reflexivity|]); apply elem_of_nil in Hb.
Qed.
Ltac flag := rewrite !elem_of_cons; tauto.
Lemma no_zeropad_zero type : truthy (no_zeropad type .& ZEROPAD) = truthy (type .& ZEROPAD) && negb (truthy (type .& LEFT)).
Proof.
  unfold no_zeropad. destruct (truthy (type .& LEFT)); cbn [negb]; [|by rewrite andb_true_r].
  rewrite andb_false_r, <- Z.land_assoc. change (Z.lnot ZEROPAD .& ZEROPAD) with 0. by rewrite Z.land_0_r.
Qed.
Lemma truthy_either z : truthy (z .& (ZEROPAD + LEFT)) = truthy (z .& ZEROPAD) || truthy (z .& LEFT).
Proof.
  change (ZEROPAD + LEFT) with (ZEROPAD .| LEFT). rewrite Z.land_lor_distr_r. unfold truthy.
  destruct (Z.eqb_spec (z .& ZEROPAD) 0) as [->|H]; [by rewrite Z.lor_0_l|]. cbn [negb orb].
  destruct (Z.eqb_spec ((z .& ZEROPAD) .| (z .& LEFT)) 0) as [E|]; [|done]. by apply Z.lor_eq_0_iff in E as [E _].
Qed.

Lemma prints_number_sign num w type l :
  0 <= num < 2 ^ 64 -> - 2 ^ 30 < w < 2 ^ 31 -> (truthy (type .& SIGN) = true -> s64 num <> - 2 ^ 63) ->
  prints (number_sign num w type) [] l
    (match sign_text num type with [] => 0 | c :: _ => c end, magnitude num type, w - Z.of_nat (length (sign_text num type))) l.
Proof.
  intros Hn Hw Hmin. unfold number_sign, sign_text, magnitude.
  destruct (truthy (type .& SIGN)); cbn [andb]; [|cbn [length]; rewrite Z.sub_0_r; apply prints_ret].
  destruct (Z.ltb_spec (s64 num) 0) as [Hneg|Hpos].
  - rewrite (proj2 (Z.eqb_neq _ _) (Hmin eq_refl)). eapply prints_bind0; [apply prints_int; lia|].
    rewrite u64_small; [apply prints_ret|]. unfold s64 in *. dlia.
  - destruct (truthy (type .& PLUS)); [eapply prints_bind0; [apply prints_int; lia|apply prints_ret]|].
    destruct (truthy (type .& SPACE)); [eapply prints_bind0; [apply prints_int; lia|apply prints_ret]|].
    cbn [length]. rewrite Z.sub_0_r. apply prints_ret.
Qed.

Lemma radix_length n base num : 1 < base -> (length (radix n base num) <= n)%nat.
Proof.
  intros Hb. revert num. induction n as [|n IH]; intros num; cbn [radix length]; [lia|].
  destruct (num <? base); cbn [length]; [lia|]. specialize (IH (num / base)). lia.
Qed.

Lemma number_text_parts num base w p type :
  let ds := rev (digit_char (type .& SMALL) <$> radix 64 base (magnitude num type)) in
  let n := Z.to_nat (w - Z.of_nat (length (sign_text num type)) - Z.of_nat (length (prefix_text base type)) -
                     Z.max p (Z.of_nat (length ds))) in
  let zeros := replicate (Z.to_nat (p - Z.of_nat (length ds))) 48 in
  number_text num base w p type =
    if truthy (type .& LEFT) then sign_text num type ++ prefix_text base type ++ zeros ++ ds ++ replicate n 32
    else if truthy (type .& ZEROPAD) then sign_text num type ++ prefix_text base type ++ replicate n 48 ++ zeros ++ ds
    else replicate n 32 ++ sign_text num type ++ prefix_text base type ++ zeros ++ ds.
Proof.
  intros ds n zeros. unfold number_text. cbv zeta. fold (magnitude num type). fold (prefix_text base type).
  fold (sign_text num type). unfold radix_text. fold ds. fold zeros.
  assert (Z.to_nat (w - Z.of_nat (length (sign_text num type ++ prefix_text base type)) - Z.of_nat (length (zeros ++ ds))) = n) as ->.
  { subst n zeros. rewrite !length_app, length_replicate. lia. }
  by rewrite <- !app_assoc.
Qed.

(** Sign, prefix and digits with the padding in one of three places. *)
Lemma prints_padded (left zero pfx hex : bool) (sign : list Z) (x sz p prec i : Z) (ds : list Z) l : i = Z.of_nat (length ds) ->
  - 2 ^ 31 + 4 < sz < 2 ^ 31 -> - 2 ^ 29 < prec < 2 ^ 30 -> prec = Z.max p (Z.of_nat (length ds)) ->
  sign ∈ [[]; [45]; [43]; [32]] ->
  let c := match sign with [] => 0 | c :: _ => c end in
  let prefix := if pfx then 48 :: (if hex then [x] else []) else [] in
  let zeros := replicate (Z.to_nat (p - i)) 48 in
  let n := Z.to_nat sz in
  prints
    (size ← (if negb (zero && negb left || left) then pad buf lim 0 sz 32 else mret sz);
     (if truthy c then addch buf lim c else mret tt);;
     (if pfx then addch buf lim 48;; (if hex then addch buf lim x else mret tt) else mret tt);;
     size ← (if negb left then pad buf lim 0 size (if zero && negb left then 48 else 32) else mret size);
     pad buf lim i prec 48;;
     addchs buf lim ds;;
     pad buf lim 0 size 32;;
     mret tt)
    (if left then sign ++ prefix ++ zeros ++ ds ++ replicate n 32
     else if zero then sign ++ prefix ++ replicate n 48 ++ zeros ++ ds
     else replicate n 32 ++ sign ++ prefix ++ zeros ++ ds) l tt l.
Proof.
  intros Ei Hsz Hprec Ep Hsign c prefix zeros n.
  assert (prints (if truthy c then addch buf lim c else mret tt) sign l tt l) as Psign.
  { subst c. repeat (apply elem_of_cons in Hsign as [->|Hsign]; [apply prints_ret || apply prints_addch|]).
    by apply elem_of_nil in Hsign. }
  assert (prints (if pfx then addch buf lim 48;; (if hex then addch buf lim x else mret tt) else mret tt) prefix l tt l) as Ppfx.
  { subst prefix. destruct pfx; [|apply prints_ret]. eapply (prints_bind _ _ [48]); [apply prints_addch|].
    destruct hex; [apply prints_addch|apply prints_ret]. }
  assert (forall sz', - 2 ^ 31 < Z.min sz' 0 -> sz' < 2 ^ 31 ->
    prints (pad buf lim i prec 48;; addchs buf lim ds;; pad buf lim 0 sz' 32;; mret tt)
      (zeros ++ ds ++ replicate (Z.to_nat sz') 32) l tt l) as Ptail.
  { intros sz' H1 H2. eapply prints_bind.
    { eapply prints_text; [|apply (prints_pad i prec 48); lia]. subst zeros. f_equal. lia. }
    eapply prints_bind; [apply prints_addchs|]. eapply prints_text; [apply app_nil_r|].
    eapply prints_bind; [|apply prints_ret]. eapply prints_text; [|apply (prints_pad 0 sz' 32); lia]. f_equal. lia. }
  destruct left; cbn [negb andb orb]; [|destruct zero; cbn [negb andb orb]].
  - rewrite andb_false_r. cbn [orb negb]. eapply prints_bind0; [apply prints_ret|]. eapply prints_bind; [exact Psign|].
    eapply prints_bind; [exact Ppfx|]. eapply prints_bind0; [apply prints_ret|]. apply Ptail; lia.
  - eapply prints_bind0; [apply prints_ret|]. eapply prints_bind; [exact Psign|]. eapply prints_bind; [exact Ppfx|].
    eapply prints_bind; [eapply prints_text; [|apply prints_pad; lia]; f_equal; lia|].
    eapply prints_text; [|apply Ptail; lia]. replace (Z.to_nat (Z.min sz 0 - 1)) with 0%nat by lia. by rewrite app_nil_r.
  - eapply prints_bind; [eapply prints_text; [|apply prints_pad; lia]; f_equal; lia|].
    eapply prints_bind; [exact Psign|]. eapply prints_bind; [exact Ppfx|].
    eapply (prints_bind0 (pad buf lim 0 (Z.min sz 0 - 1) 32)).
    { eapply prints_text; [|apply prints_pad; lia]. by replace (Z.to_nat (Z.min sz 0 - 1 - 0)) with 0%nat by lia. }
    eapply prints_text; [|apply Ptail; lia].
    replace (Z.to_nat (Z.min (Z.min sz 0 - 1) 0 - 1)) with 0%nat by lia. by rewrite app_nil_r.
Qed.

Lemma sign_text_zeropad num type : sign_text num (no_zeropad type) = sign_text num type.
Proof. unfold sign_text. by rewrite !no_zeropad_bit by flag. Qed.
Lemma magnitude_zeropad num type : magnitude num (no_zeropad type) = magnitude num type.
Proof. unfold magnitude. by rewrite !no_zeropad_bit by flag. Qed.
Lemma magnitude_range num type : 0 <= num < 2 ^ 64 -> 0 <= magnitude num type < 2 ^ 64.
Proof.
  intros Hn. unfold magnitude. destruct (truthy _ && (s64 num <? 0)) eqn:E; [|done].
  apply andb_prop in E as [_ E%Z.ltb_lt]. unfold s64 in *. dlia.
Qed.
Lemma small_case type : type .& SMALL = 0 \/ type .& SMALL = 32.
Proof.
  assert (truthy (type .& SMALL) = Z.testbit type 5) as H by (by apply truthy_bit).
  destruct (Z.testbit type 5) eqn:E; [right|left; by apply truthy_false].
  apply Z.bits_inj'. intros i Hi. rewrite Z.land_spec. change SMALL with (2 ^ 5). change 32 with (2 ^ 5).
  rewrite Z.pow2_bits_eqb by lia. destruct (Z.eqb_spec 5 i) as [<-|]; [by rewrite E|by rewrite andb_false_r].
Qed.
Lemma sign_text_one num type : sign_text num type ∈ [[]; [45]; [43]; [32]].
Proof. unfold sign_text. rewrite !elem_of_cons. repeat case_match; tauto. Qed.
Lemma sign_text_length num type : (length (sign_text num type) <= 1)%nat.
Proof. unfold sign_text. by repeat case_match; cbn [length]; lia. Qed.
Lemma prefix_text_length base type : (length (prefix_text base type) <= 2)%nat.
Proof. unfold prefix_text. by repeat case_match; cbn [length]; lia. Qed.

Lemma prints_prefix_size base size type l : - 2 ^ 30 - 3 < size < 2 ^ 31 ->
  prints (if truthy (type .& SPECIAL) && negb (base =? 10)
          then size ← int (size - 1); if base =? 16 then int (size - 1) else mret size else mret size)
    [] l (size - Z.of_nat (length (prefix_text base type))) l.
Proof.
  intros Hs. unfold prefix_text. destruct (truthy _ && _); [|cbn [length]; rewrite Z.sub_0_r; apply prints_ret].
  eapply prints_bind0; [apply prints_int; lia|]. destruct (base =? 16); cbn [length].
  - eapply prints_eq; [done| |apply prints_int; lia]. lia.
  - apply prints_ret.
Qed.

Lemma prints_number num base w p type l :
  0 <= num < 2 ^ 64 -> base = 8 \/ base = 10 \/ base = 16 -> - 2 ^ 29 < w < 2 ^ 29 -> - 2 ^ 29 < p < 2 ^ 29 ->
  (truthy (type .& SIGN) = true -> s64 num <> - 2 ^ 63) ->
  prints (number buf lim num base w p type) (number_text num base w p type) l tt l.
Proof.
  intros Hn Hbase Hw Hp Hmin. unfold number. cbv zeta. fold (no_zeropad type).
  eapply prints_bind0; [apply prints_number_sign; [done|lia|rewrite no_zeropad_bit by flag; done]|].
  rewrite sign_text_zeropad, magnitude_zeropad. cbv iota beta.
  eapply prints_bind0; [apply (prints_prefix_size base (w - Z.of_nat (length (sign_text num type))) type);
    pose proof (sign_text_length num type); lia|].
  eapply prints_bind0; [apply prints_lift, number_digits_spec; [apply small_case|by apply magnitude_range|lia]|].
  set (ds := digit_char (type .& SMALL) <$> radix 64 base (magnitude num type)).
  assert (length ds <= 64)%nat as Hds by (subst ds; rewrite length_fmap; apply radix_length; lia).
  pose proof (sign_text_length num type) as Hsl. pose proof (prefix_text_length base type) as Hpl.
  set (prec := if p <? Z.of_nat (length ds) then Z.of_nat (length ds) else p).
  assert (prec = Z.max p (Z.of_nat (length ds))) as Hprec by (subst prec; destruct (Z.ltb_spec p (Z.of_nat (length ds))); lia).
  eapply prints_bind0; [apply prints_int; lia|].
  set (sz := w - Z.of_nat (length (sign_text num type)) - Z.of_nat (length (prefix_text base type)) - prec).
  assert (- 2 ^ 31 + 4 < sz < 2 ^ 31) as Hsz by (subst sz; lia).
  eapply prints_eq; [symmetry; apply (number_text_parts num base w p type)|done|]. cbv zeta. fold ds.
  replace (Z.to_nat (w - _ - _ - _)) with (Z.to_nat sz) by (subst sz; f_equal; rewrite Hprec, length_rev; lia).
  rewrite length_rev. clearbody sz ds. rewrite truthy_either, no_zeropad_zero, no_zeropad_bit by flag.
  apply (prints_padded _ _ (truthy (type .& SPECIAL) && negb (base =? 10)) (base =? 16) _ (88 .| (type .& SMALL)) sz p prec
    (Z.of_nat (length ds)) (rev ds)); [by rewrite length_rev|done|lia|by rewrite length_rev|apply sign_text_one].
Qed.

(** *** Strings *)
Lemma prints_string_at obj w p flags t l : - 2 ^ 29 < w < 2 ^ 29 -> string_text obj w p flags = Some t ->
  prints (string_at buf lim obj w p flags) t l tt l.
Proof.
  intros Hw. unfold string_text, string_at. cbv zeta. destruct (strnlen obj (u32 p)) as [len|] eqn:El; [|done].
  cbn [mbind option_bind]. destruct (Z.leb_spec (2 ^ 30) len) as [|Hlen]; [done|]. intros [= <-].
  pose proof (strnlen_nonneg _ _ _ El) as H0.
  eapply prints_bind0; [by apply prints_lift|]. rewrite s32_small by lia.
  destruct (truthy (flags .& LEFT)); cbn [negb].
  - eapply prints_bind0; [apply prints_ret|]. eapply prints_bind; [apply prints_addchs|].
    eapply prints_text; [apply app_nil_r|]. eapply prints_bind; [|apply prints_ret].
    apply (prints_pad_string_loop _ len w); lia.
  - eapply prints_bind; [apply prints_pad_string_loop; lia|].
    eapply prints_text; [apply app_nil_r|]. eapply prints_bind; [apply prints_addchs|].
    eapply (prints_bind0 (pad_string buf lim _ len _)); [|apply prints_ret].
    eapply prints_text; [|apply (prints_pad_string_loop _ len (Z.min w len - 1)); lia].
    by replace (Z.to_nat (Z.min w len - 1 - len)) with 0%nat by lia.
Qed.

(** *** Reading the format and the arguments *)
Definition reads {A} (m : F A) : Prop := forall s,
  m s = match on_args m (args s) with Some (a, l) => Some (a, Pf (str s) (out s) (counts s) l) | None => None end.

Lemma reads_ret {A} (a : A) : reads (mret a).
Proof. by intros []. Qed.
Lemma reads_undefined {A} : reads (undefined (A := A)).
Proof. done. Qed.
Lemma reads_lift {A} (m : option A) : reads (lift m).
Proof. intros []. unfold on_args, lift. by destruct m. Qed.
Lemma reads_next_arg : reads next_arg.
Proof. intros s. unfold on_args, next_arg. cbn [args]. by destruct (args s). Qed.
Lemma reads_bind {A B} (m : F A) (f : A -> F B) : reads m -> (forall a, reads (f a)) -> reads (m ≫= f).
Proof.
  intros Hm Hf s. unfold mbind, F_bind, on_args. rewrite (Hm s), (Hm (Pf 0 [] [] (args s))). cbn [args].
  destruct (on_args m (args s)) as [[a l]|]; [|done]. cbn [str out counts].
  rewrite (Hf a (Pf (str s) _ _ _)), (Hf a (Pf 0 [] [] l)). cbn [args str out counts].
  by destruct (on_args (f a) l) as [[b l']|].
Qed.

(** A reader, statement by statement. *)
Ltac reads :=
  repeat first
    [ apply reads_ret | apply reads_undefined | apply reads_lift | apply reads_next_arg
    | match goal with
      | |- reads (mbind _ _) => apply reads_bind; [|intros ?]
      | |- reads (if ?b then _ else _) => destruct b
      | |- reads (match ?x with _ => _ end) => destruct x
      end
    | progress unfold int, va_word, va_quad, va_ptr ].
Lemma reads_get_width fmt flags : reads (get_width fmt flags).
Proof. unfold get_width. cbv zeta. reads. Qed.
Lemma reads_get_precision fmt : reads (get_precision fmt).
Proof. unfold get_precision. cbv zeta. reads. Qed.
Lemma reads_get_num q flags : reads (get_num q flags).
Proof. unfold get_num. cbv zeta. reads. Qed.
Lemma reads_va_word : reads va_word.
Proof. reads. Qed.
Lemma reads_va_ptr : reads va_ptr.
Proof. reads. Qed.

Lemma prints_reads {A} (m : F A) l a l' : reads m -> on_args m l = Some (a, l') -> prints m [] l a l'.
Proof.
  intros Hm E T s Hw Ha _. exists (Pf (str s) (out s) (counts s) l'). rewrite Hm, Ha, E, app_nil_r. by split_and!.
Qed.

(** A number read is a 64-bit number. *)
Lemma get_num_range q flags l num l' : on_args (get_num q flags) l = Some (num, l') -> 0 <= num < 2 ^ 64.
Proof.
  assert (forall z, 0 <= u64 z < 2 ^ 64) as H64 by (intros z; apply u64_fits).
  assert (forall z, 0 <= u32 z < 2 ^ 64) as H32 by (intros z; pose proof (u32_fits z) as H; unfold fits in H; lia).
  assert (forall z, 0 <= u16 z < 2 ^ 64) as H16 by (intros z; pose proof (u16_fits z) as H; unfold fits in H; lia).
  unfold on_args, get_num. cbv zeta. destruct (q =? 76);
    destruct l as [|[v|v|a obj] l]; cbv [mbind F_bind va_quad va_word next_arg args undefined mret F_ret]; try done.
  - by intros [= <- <-].
  - destruct (q =? 108), ((q =? 90) || (q =? 122)), (q =? 116), (q =? 104), (truthy (flags .& SIGN));
      intros [= <- <-]; auto.

Qed.

(** *** Conversions *)
Lemma prints_char v l l' : on_args va_word l = Some (v, l') ->
  prints (fits ← has_room lim; (if fits : bool then v ← va_word; addch buf lim (u8 v) else addch buf lim 0)) [u8 v] l tt l'.
Proof.
  intros E T s Hw Ha Hin. pose proof Hin as (H1 & _ & _). rewrite length_app in H1. cbn [length] in H1.
  unfold has_room. unfold mbind at 1, F_bind at 1. rewrite (proj1 Hw).
  destruct (Z.ltb_spec (Z.of_nat (length T)) lim); [|lia].
  apply (prints_bind0 va_word (fun v => addch buf lim (u8 v)) [u8 v] l l' l' v tt); try done.
  - by apply prints_reads; [apply reads_va_word|].
  - apply prints_addch.
Qed.

Lemma prints_assoc {A B C} (m : F A) (f : A -> F B) (g : B -> F C) t l c l' :
  prints ((m ≫= f) ≫= g) t l c l' -> prints (m ≫= fun a => f a ≫= g) t l c l'.
Proof.
  intros P T s Hw Ha Hin. destruct (P T s Hw Ha Hin) as (s' & E & H). exists s'. split; [|done]. revert E.
  unfold mbind, F_bind. by destruct (m s) as [[a s1]|].
Qed.

Lemma prints_c flags w v l l' (rest : cstr) : - 2 ^ 29 < w < 2 ^ 29 -> on_args va_word l = Some (v, l') ->
  prints
    (w ← (if negb (truthy (flags .& LEFT)) then pad buf lim 1 w 32 else mret w);
     fits ← has_room lim;
     (if fits : bool then v ← va_word; addch buf lim (u8 v) else addch buf lim 0);;
     pad buf lim 1 w 32;;
     mret rest)
    (if truthy (flags .& LEFT) then u8 v :: replicate (Z.to_nat (w - 1)) 32 else replicate (Z.to_nat (w - 1)) 32 ++ [u8 v])
    l rest l'.
Proof.
  intros Hw Ev.
  assert (forall w', - 2 ^ 30 < w' < 2 ^ 29 -> prints
    (fits ← has_room lim;
     (if fits : bool then v ← va_word; addch buf lim (u8 v) else addch buf lim 0);;
     pad buf lim 1 w' 32;; mret rest) (u8 v :: replicate (Z.to_nat (w' - 1)) 32) l rest l') as P.
  { intros w' Hw'. apply prints_assoc. eapply (prints_bind _ _ [u8 v]); [by apply prints_char|].
    eapply prints_text; [apply app_nil_r|]. eapply prints_bind; [apply prints_pad; lia|apply prints_ret]. }
  destruct (truthy (flags .& LEFT)); cbn [negb].
  - eapply prints_bind0; [apply prints_ret|]. apply P. lia.
  - eapply prints_bind; [apply prints_pad; lia|]. eapply prints_text; [|apply P; lia].
    by replace (Z.to_nat (Z.min w 1 - 1 - 1)) with 0%nat by lia.
Qed.

(** The code writes what the specification says. *)
Lemma prints_conversion fmt l rest t l' : conversion_text fmt l = Some (rest, t, l') ->
  prints (conversion buf lim fmt) t l rest l'.
Proof.
  unfold conversion_text, conversion. destruct (flags_loop fmt 0) as [f0 flags0].
  destruct (on_args (get_width f0 flags0) l) as [[[[f1 w] flags] l1]|] eqn:E1; [|done]. cbn [mbind option_bind].
  destruct (on_args (get_precision f1) l1) as [[[f2 p] l2]|] eqn:E2; [|done]. cbn [mbind option_bind].
  intros E. eapply prints_bind0; [apply prints_reads; [apply reads_get_width|exact E1]|]. cbv iota beta.
  eapply prints_bind0; [apply prints_reads; [apply reads_get_precision|exact E2]|]. cbv iota beta. revert E.
  destruct (get_qualifier f2) as [f3 q]. cbv zeta.
  destruct (is_width w && is_width p) eqn:Ew; cbn [negb]; [|done].
  apply andb_prop in Ew as [Ew Ep]. unfold is_width in Ew, Ep.
  apply andb_prop in Ew as [Ew1%Z.ltb_lt Ew2%Z.ltb_lt]. apply andb_prop in Ep as [Ep1%Z.ltb_lt Ep2%Z.ltb_lt].
  assert (forall base flags, base = 8 \/ base = 10 \/ base = 16 ->
    ('(num, l) ← on_args (get_num q flags) l2;
     if truthy (flags .& SIGN) && (s64 num =? - 2 ^ 63) then None
     else Some (drop 1 f3, number_text num base w p flags, l)) = Some (rest, t, l') ->
    prints (num ← get_num q flags; number buf lim num base w p flags;; mret (drop 1 f3)) t l2 rest l') as Pint.
  { intros base fl Hb. destruct (on_args (get_num q fl) l2) as [[num l3]|] eqn:En; [|done]. cbn [mbind option_bind].
    destruct (_ && _) eqn:Em; [done|]. intros [= <- <- <-].
    eapply prints_bind0; [apply prints_reads; [apply reads_get_num|exact En]|].
    eapply prints_text; [apply app_nil_r|]. eapply prints_bind; [|apply prints_ret].
    apply prints_number; [by eapply get_num_range|done|lia|lia|].
    intros Hs. rewrite Hs in Em. by apply Z.eqb_neq in Em. }
  clear E1 E2. destruct (deref f3 =? 99).
  { destruct (on_args va_word l2) as [[v l3]|] eqn:Ev; [|done]. cbn [mbind option_bind]. intros [= <- <- <-].
    exact (prints_c flags w v l2 l3 (drop 1 f3) ltac:(lia) Ev). }
  destruct (deref f3 =? 115).
  { destruct (on_args va_ptr l2) as [[s l3]|] eqn:Es; [|done]. cbn [mbind option_bind].
    destruct (string_text _ w p flags) as [t'|] eqn:Et; [|done]. cbn [mbind option_bind]. intros [= <- <- <-].
    eapply prints_bind0; [apply prints_reads; [apply reads_va_ptr|exact Es]|].
    eapply prints_text; [apply app_nil_r|]. eapply prints_bind; [|apply prints_ret].
    by apply prints_string_at. }
  destruct (deref f3 =? 112); [done|]. destruct (deref f3 =? 110); [done|]. cbn [orb].
  destruct (deref f3 =? 37).
  { intros [= <- <- <-]. eapply (prints_bind _ _ [37] []); [apply prints_addch|apply prints_ret]. }
  destruct (deref f3 =? 111); [apply Pint; lia|]. destruct (deref f3 =? 120); [apply Pint; lia|].
  destruct (deref f3 =? 88); [apply Pint; lia|].
  destruct ((deref f3 =? 100) || (deref f3 =? 105)); [apply Pint; lia|].
  destruct (deref f3 =? 117); [apply Pint; lia|]. intros [= <- <- <-].
  eapply (prints_bind _ _ [37]); [apply prints_addch|]. eapply prints_text; [apply app_nil_r|].
  eapply prints_bind; [|apply prints_ret]. destruct (truthy _); [apply prints_addch|apply prints_ret].
Qed.

Lemma prints_format_loop n fmt : forall l t, format_text_loop n fmt l = Some t ->
  exists l', prints (format_loop buf lim n fmt) t l tt l'.
Proof.
  revert fmt. induction n as [|n IH]; intros fmt l t; cbn [format_text_loop format_loop]; [done|].
  destruct fmt as [|c fmt]; [intros [= <-]; exists l; apply prints_ret|].
  destruct (negb (c =? 37)).
  - destruct (format_text_loop n fmt l) as [t'|] eqn:E; [|done]. intros [= <-].
    destruct (IH _ _ _ E) as (l' & P). exists l'. exact (prints_bind _ _ [c] t' _ _ _ _ _ (prints_addch c l) P).
  - destruct (conversion_text fmt l) as [[[f t1] l1]|] eqn:Ec; [|done]. cbn [mbind option_bind].
    destruct (format_text_loop n f l1) as [t2|] eqn:E; [|done]. intros [= <-].
    destruct (IH _ _ _ E) as (l' & P). exists l'. exact (prints_bind _ _ _ _ _ _ _ _ _ (prints_conversion _ _ _ _ _ Ec) P).
Qed.
End Prints.

(** ** Formatting *)
Lemma run_vsnprintf_internal buf size fmt l mem T :
  0 <= buf -> format_text fmt l = Some T -> Z.of_nat (length T) < size -> 0 <= size < 2 ^ 32 -> Z.of_nat (length T) < Z.of_nat (length mem) ->
  buf + Z.of_nat (length T) + 1 < 2 ^ 32 -> Z.of_nat (length T) < 2 ^ 31 ->
  vsnprintf_internal buf size fmt l mem = Some (Z.of_nat (length T), T ++ [0] ++ drop (S (length T)) mem, []).
Proof.
  intros Hb HT Hs H32 Hmem Haddr H31. unfold vsnprintf_internal. cbv zeta.
  set (size' := if u32 (buf + size) <? buf then 2 ^ 32 - 1 - buf else size).
  assert (Z.of_nat (length T) < size') as Hs' by (subst size'; destruct (_ <? _); lia). clearbody size'.
  unfold format_text in HT. destruct (prints_format_loop buf size' mem _ _ _ _ HT) as (l' & P).
  assert (wrote size' mem [] (Pf 0 mem [] l)) as H0 by (split; [done|unfold shown; cbn [length out]; by rewrite Nat.min_0_r]).
  destruct (P [] _ H0 eq_refl ltac:(unfold within; cbn [app]; lia)) as (s & -> & W & _ & C). cbn [app mbind option_bind] in *.
  destruct (Z.ltb_spec 0 size'); [|lia].
  destruct (wrote_addch buf size' mem T 0 s W ltac:(lia) ltac:(lia)) as (s' & -> & W' & C' & _). cbn [mbind option_bind].
  destruct W' as [Es Eo]. rewrite Es, Eo, C', C, length_app. cbn [length counts].
  destruct (Z.ltb_spec size' (Z.of_nat (length T + 1))); [lia|]. cbn [mbind option_bind].
  replace (Z.of_nat (length T + 1) - 1) with (Z.of_nat (length T)) by lia. rewrite s32_small by lia.
  f_equal. f_equal. f_equal. unfold shown. rewrite length_app. cbn [length].
  replace (Nat.min (Z.to_nat size') (length T + 1)) with (length T + 1)%nat by lia.
  rewrite take_ge by (rewrite length_app; cbn [length]; lia). rewrite <- app_assoc. do 3 f_equal. lia.
Qed.

Lemma full_run_length buf room o fmt l T ns : 0 <= buf -> full_run buf room o fmt l = Some (T, ns) -> Z.of_nat (length T) < 2 ^ 32.
Proof.
  unfold full_run. intros Hb. destruct (format_loop _ _ _ _ _) as [[[] s]|]; [|done].
  destruct (Z.ltb_spec (buf + str s + 1) (2 ^ 32)); [|done]. intros [= <- _]. rewrite length_take. lia.
Qed.

(** The text of a run with room for everything is the specified one. *)
Lemma full_run_text buf room o fmt l T :
  0 <= buf -> no_char fmt = true -> 2 ^ 32 <= room <= Z.of_nat (length o) -> format_text fmt l = Some T ->
  Z.of_nat (length T) < 2 ^ 31 -> buf + Z.of_nat (length T) + 1 < 2 ^ 32 ->
  full_run buf room o fmt l = Some (T, []).
Proof.
  intros Hb Hc Hr HT H31 Ha. set (mem := replicate (length T + 1) 0).
  assert (Z.of_nat (length mem) = Z.of_nat (length T) + 1) as Hm by (subst mem; rewrite length_replicate; lia).
  pose proof (run_vsnprintf buf room o fmt l (Z.of_nat (length T) + 1) mem Hb Hc Hr ltac:(lia) ltac:(lia) ltac:(lia)) as E.
  pose proof (run_vsnprintf_internal buf (Z.of_nat (length T) + 1) fmt l mem T Hb HT ltac:(lia) ltac:(lia) ltac:(lia) Ha H31) as E'.
  unfold vsnprintf in E. rewrite E' in E. destruct (full_run buf room o fmt l) as [[T' ns]|] eqn:EF; [|done].
  pose proof (full_run_length _ _ _ _ _ _ _ Hb EF) as Hl. cbn [mbind option_bind] in E. injection E as El Em <-.
  assert (length T' = length T) as Hlen by (unfold s32 in El; dlia).
  unfold cut in Em. rewrite Hlen in Em. replace (Nat.min (length T) (Z.to_nat (Z.of_nat (length T) + 1) - 1)) with (length T) in Em by lia.
  apply app_inj_1 in Em as [Et _]; [|rewrite length_take; lia]. rewrite <- Hlen, firstn_all in Et. by rewrite Et.
Qed.



(** sprintf into a buffer with room for the text. *)
Lemma run_sprintf buf fmt l mem T :
  0 <= buf -> format_text fmt l = Some T -> Z.of_nat (length T) < INT_MAX -> buf + Z.of_nat (length T) + 1 < 2 ^ 32 ->
  (length T < length mem)%nat ->
  sprintf buf fmt l mem = Some (Z.of_nat (length T), T ++ [0] ++ drop (S (length T)) mem, []).
Proof. intros Hb HT Hl Ha Hm. unfold INT_MAX in *. apply run_vsnprintf_internal; unfold INT_MAX; done || lia. Qed.
