(* ===== verification/UFormatCalls.v ===== *)
(** The conversions that the callers of sprintf use, and the way back: a number
    written in decimal or hexadecimal is the number simple_strtoul reads. *)
From Stdlib Require Import String.
From S2P Require Import Prelude Ctype Htab Strto UDiv64 UFormat UFormatText UFormatNum UFormatSpec.

(** ** Digits and their value *)
Lemma digit_char_value locase d : locase = 0 \/ locase = 32 -> 0 <= d < 16 ->
  isxdigit (digit_char locase d) = true /\ digit_value (digit_char locase d) = d /\ (digit_char locase d = 48 <-> d = 0).
Proof.
  intros Hl Hd. assert (d ∈ seqZ 0 16) as Hs by (apply elem_of_seqZ; lia).
  assert (forallb (fun d => forallb (fun lc => isxdigit (digit_char lc d) && (digit_value (digit_char lc d) =? d) &&
    Bool.eqb (digit_char lc d =? 48) (d =? 0)) [0; 32]) (seqZ 0 16) = true) as H by (vm_compute; reflexivity).
  rewrite forallb_forall in H. apply list_elem_of_In, H in Hs. rewrite forallb_forall in Hs.
  assert (In locase [0; 32]) as Hin by (destruct Hl as [-> | ->]; simpl; auto). apply Hs in Hin.
  apply andb_prop in Hin as [[H1 H2%Z.eqb_eq]%andb_prop H3%Bool.eqb_prop]. split; [done|]. split; [done|].
  rewrite <- (Z.eqb_eq (digit_char locase d)), H3. apply Z.eqb_eq.
Qed.

Lemma radix_digits base locase n num : locase = 0 \/ locase = 32 -> 1 < base <= 16 -> 0 <= num ->
  Forall (is_digit_of base) (digit_char locase <$> radix n base num).
Proof.
  intros Hl Hb Hn. apply Forall_fmap. apply (list.Forall_impl (fun d => 0 <= d < base)); [apply radix_range; lia|].
  intros d Hd. destruct (digit_char_value locase d Hl ltac:(lia)) as (Hx & Hv & _). unfold compose, is_digit_of. by rewrite Hv.
Qed.

Lemma radix_text_value base locase n num : locase = 0 \/ locase = 32 -> 1 < base <= 16 -> 0 <= num < base ^ Z.of_nat n ->
  value_of base (rev (digit_char locase <$> radix n base num)) = num.
Proof.
  intros Hl Hb. revert num. induction n as [|n IH]; intros num Hn; [rewrite Z.pow_0_r in Hn; cbn; lia|].
  cbn [radix]. rewrite fmap_cons. cbn [rev]. unfold value_of. rewrite foldl_app. cbn [foldl].
  pose proof (Z.mod_pos_bound num base ltac:(lia)) as Hm. pose proof (Z.div_mod num base ltac:(lia)) as Hdm.
  destruct (digit_char_value locase (num mod base) Hl ltac:(lia)) as (_ & -> & _).
  destruct (Z.ltb_spec num base) as [Hlt|Hge].
  - cbn. rewrite Z.mod_small; lia.
  - rewrite Nat2Z.inj_succ, Z.pow_succ_r in Hn by lia.
    fold (value_of base (rev (digit_char locase <$> radix n base (num / base)))). rewrite IH; [lia|].
    split; [apply Z.div_pos; lia|apply Z.div_lt_upper_bound; lia].
Qed.

(** No leading zero. *)
Lemma radix_first base locase n num : locase = 0 \/ locase = 32 -> 1 < base <= 16 -> 0 < num -> num < base ^ Z.of_nat n ->
  deref (rev (digit_char locase <$> radix n base num)) <> 48 /\ rev (digit_char locase <$> radix n base num) <> [].
Proof.
  intros Hl Hb. revert num. induction n as [|n IH]; intros num H0 Hn; [rewrite Z.pow_0_r in Hn; lia|].
  cbn [radix]. rewrite fmap_cons. cbn [rev].
  pose proof (Z.mod_pos_bound num base ltac:(lia)) as Hm.
  destruct (digit_char_value locase (num mod base) Hl ltac:(lia)) as (_ & _ & H48).
  destruct (Z.ltb_spec num base) as [Hlt|Hge].
  - cbn. rewrite (Z.mod_small num) in * by lia. split; [|done]. intros E. apply H48 in E. lia.
  - rewrite Nat2Z.inj_succ, Z.pow_succ_r in Hn by lia.
    destruct (IH (num / base)) as [Hf Hne]; [apply Z.div_str_pos; lia|apply Z.div_lt_upper_bound; lia|].
    destruct (rev (digit_char locase <$> radix n base (num / base))) as [|c l]; [done|]. by split.
Qed.

(** What is written is read back. *)
Lemma strtoul_radix base locase num rest :
  locase = 0 \/ locase = 32 -> 10 <= base <= 16 -> 0 <= num < 2 ^ 32 ->
  match rest with [] => True | c :: _ => isxdigit c = false /\ c <> 120 end ->
  simple_strtoul (radix_text base locase num ++ rest) base = (num, rest) /\ radix_text base locase num <> [] /\
  Forall (is_digit_of base) (radix_text base locase num).
Proof.
  intros Hl Hb Hn Hrest. unfold radix_text.
  assert (2 ^ 32 <= base ^ Z.of_nat 64) as Hp.
  { transitivity (10 ^ Z.of_nat 64); [change (10 ^ Z.of_nat 64) with (10 ^ 64); lia|apply Z.pow_le_mono_l; lia]. }
  pose proof (radix_digits base locase 64 num Hl ltac:(lia) ltac:(lia)) as Hd.
  pose proof (radix_text_value base locase 64 num Hl ltac:(lia) ltac:(lia)) as Hv.
  set (ds := rev (digit_char locase <$> radix 64 base num)) in *.
  assert (Forall (is_digit_of base) ds) as Hds by (subst ds; by apply List.Forall_rev).
  assert (match rest with [] => True | c :: _ => ~ (isxdigit c = true /\ digit_value c < base) end) as Hstop.
  { destruct rest as [|c rest]; [done|]. destruct Hrest as [-> _]. by intros [? _]. }
  unfold simple_strtoul, strto. destruct (Z.eq_dec num 0) as [->|Hnz].
  - assert (radix 64 base 0 = [0]) as Er by (cbn [radix]; rewrite (proj2 (Z.ltb_lt 0 base)) by lia; by rewrite Zmod_0_l).
    assert (ds = [48]) as -> by (subst ds; rewrite Er; by destruct Hl as [-> | ->]).
    split; [|split; [done|exact Hds]]. cbn [app deref drop Z.eqb Pos.eqb]. rewrite drop_0.
    assert ((deref rest =? 120) = false) as -> by (destruct rest as [|c rest]; [done|]; apply Z.eqb_neq, Hrest). cbn [andb].
    destruct (Z.eqb_spec base 0); [lia|]. destruct (Z.eqb_spec base 0); [lia|].
    exact (run_strto_loop 32 base [] rest 0 ltac:(lia) (list.Forall_nil_2 _) Hstop).
  - destruct (radix_first base locase 64 num Hl ltac:(lia) ltac:(lia) ltac:(lia)) as [Hf Hne]. fold ds in Hf, Hne.
    split; [|done]. destruct ds as [|c ds]; [done|]. cbn [app deref] in *. destruct (Z.eqb_spec c 48); [done|].
    destruct (Z.eqb_spec base 0); [lia|].
    pose proof (run_strto_loop 32 base (c :: ds) rest 0 ltac:(lia) Hds Hstop) as E. cbn [app] in E.
    change (0 mod 2 ^ 32) with 0 in E. unfold u32. rewrite E. fold (value_of base (c :: ds)). rewrite Hv.
    by rewrite Z.mod_small by lia.
Qed.

(** ** The text of "%d", "%lx", "%zX" and "%02X" *)
Definition decimal (v : Z) : cstr := (if v <? 0 then [45] else []) ++ radix_text 10 0 (Z.abs v).
Definition two_hex (v : Z) : cstr :=
  replicate (2 - length (radix_text 16 0 v)) 48 ++ radix_text 16 0 v.

Lemma no_padding (c : Z) k z : z < 0 -> replicate (Z.to_nat (z - Z.of_nat k)) c = [].
Proof. intros Hz. by replace (Z.to_nat (z - Z.of_nat k)) with 0%nat by lia. Qed.

Lemma number_text_signed num : number_text num 10 (-1) (-1) SIGN =
  (if s64 num <? 0 then [45] else []) ++ radix_text 10 0 (if s64 num <? 0 then - s64 num else num).
Proof.
  unfold number_text. cbv zeta. change (truthy (SIGN .& SIGN)) with true. change (truthy (SIGN .& PLUS)) with false.
  change (truthy (SIGN .& SPACE)) with false. change (truthy (SIGN .& SPECIAL)) with false. change (SIGN .& SMALL) with 0.
  change (truthy (SIGN .& LEFT)) with false. change (truthy (SIGN .& ZEROPAD)) with false. cbn [andb].
  rewrite (no_padding 48) by lia. cbn [app]. destruct (s64 num <? 0); cbn [app];
    rewrite (no_padding 32) by (cbn [length]; lia); done.
Qed.

Lemma number_text_bare num base type : type = 0 \/ type = SMALL ->
  number_text num base (-1) (-1) type = radix_text base (type .& SMALL) num.
Proof.
  intros Ht. unfold number_text. cbv zeta.
  assert (truthy (type .& SIGN) = false /\ truthy (type .& SPECIAL) = false /\ truthy (type .& LEFT) = false /\
    truthy (type .& ZEROPAD) = false) as (-> & -> & -> & ->) by (destruct Ht as [-> | ->]; by split_and!).
  cbn [andb app length]. rewrite (no_padding 48) by lia. cbn [app]. by rewrite (no_padding 32) by lia.
Qed.

(** What is behind the percent sign of a conversion without digits or arguments before its letter. *)
Lemma conversion_d rest v l : - 2 ^ 31 <= v < 2 ^ 31 ->
  conversion_text (chars "d" ++ rest) (Int v :: l) = Some (rest, decimal v, l).
Proof.
  intros Hv. change (chars "d" ++ rest) with (100 :: rest).
  change (conversion_text (100 :: rest) (Int v :: l)) with
    (let num := u64 (s32 (u32 v)) in
     if truthy (SIGN .& SIGN) && (s64 num =? - 2 ^ 63) then None
     else Some (drop 0 rest, number_text num 10 (-1) (-1) SIGN, l)).
  cbv zeta. assert (s64 (u64 (s32 (u32 v))) = v) as E by (unfold s64, u64, s32, u32; dlia).
  rewrite E. change (truthy (SIGN .& SIGN)) with true. destruct (Z.eqb_spec v (- 2 ^ 63)); [lia|]. cbn [andb].
  rewrite drop_0, number_text_signed, E. unfold decimal. do 3 f_equal.
  destruct (Z.ltb_spec v 0); [by rewrite Z.abs_neq by lia|]. rewrite Z.abs_eq by lia. f_equal. unfold u64, s32, u32. f_equal. dlia.
Qed.

Lemma conversion_lx rest v l : 0 <= v < 2 ^ 32 ->
  conversion_text (chars "lx" ++ rest) (Int v :: l) = Some (rest, radix_text 16 32 v, l).
Proof.
  intros Hv. change (conversion_text (chars "lx" ++ rest) (Int v :: l)) with
    (Some (drop 0 rest, number_text (u32 v) 16 (-1) (-1) SMALL, l)).
  rewrite drop_0, number_text_bare by auto. change (SMALL .& SMALL) with 32. by rewrite u32_small by lia.
Qed.

Lemma conversion_zX rest v l : 0 <= v < 2 ^ 32 ->
  conversion_text (chars "zX" ++ rest) (Int v :: l) = Some (rest, radix_text 16 0 v, l).
Proof.
  intros Hv. change (conversion_text (chars "zX" ++ rest) (Int v :: l)) with
    (Some (drop 0 rest, number_text (u32 v) 16 (-1) (-1) 0, l)).
  rewrite drop_0, number_text_bare by auto. change (0 .& SMALL) with 0. by rewrite u32_small by lia.
Qed.

Lemma conversion_02X rest v l : 0 <= v < 2 ^ 32 ->
  conversion_text (chars "02X" ++ rest) (Int v :: l) = Some (rest, two_hex v, l).
Proof.
  intros Hv. change (conversion_text (chars "02X" ++ rest) (Int v :: l)) with
    (Some (drop 0 rest, number_text (u32 v) 16 2 (-1) ZEROPAD, l)).
  rewrite drop_0, u32_small by lia. do 3 f_equal. unfold number_text, two_hex. cbv zeta.
  change (truthy (ZEROPAD .& SIGN)) with false. change (truthy (ZEROPAD .& SPECIAL)) with false.
  change (truthy (ZEROPAD .& LEFT)) with false. change (truthy (ZEROPAD .& ZEROPAD)) with true. change (ZEROPAD .& SMALL) with 0.
  cbn [andb app length]. rewrite (no_padding 48 (length (radix_text 16 0 v)) (-1)) by lia. cbn [app]. do 2 f_equal. lia.
Qed.

(** *** Whole formats, piece by piece *)
Definition formats (fmt : cstr) (l : list arg) (t : list Z) : Prop :=
  forall n, (length fmt < n)%nat -> format_text_loop n fmt l = Some t.

Lemma formats_text fmt l t : formats fmt l t -> format_text fmt l = Some t.
Proof. intros H. apply H. lia. Qed.
Lemma formats_nil l : formats [] l [].
Proof. intros [|n] Hn; [cbn [length] in Hn; lia|done]. Qed.
Lemma formats_char c fmt l t : c <> 37 -> formats fmt l t -> formats (c :: fmt) l (c :: t).
Proof.
  intros Hc H [|n] Hn; [cbn [length] in Hn; lia|]. cbn [format_text_loop]. rewrite (proj2 (Z.eqb_neq _ _) Hc). cbn [negb].
  by rewrite H by (cbn [length] in Hn; lia).
Qed.
Lemma formats_conversion pre rest l l' t t' :
  conversion_text (pre ++ rest) l = Some (rest, t, l') -> formats rest l' t' -> formats (37 :: pre ++ rest) l (t ++ t').
Proof.
  intros Hc H [|n] Hn; [cbn [length] in Hn; lia|]. cbn [format_text_loop Z.eqb Pos.eqb negb]. rewrite Hc. cbn [mbind option_bind].
  cbn [length] in Hn. rewrite length_app in Hn. by rewrite H by lia.
Qed.

Lemma formats_d rest v l t : - 2 ^ 31 <= v < 2 ^ 31 -> formats rest l t -> formats (chars "%d" ++ rest) (Int v :: l) (decimal v ++ t).
Proof. intros Hv. apply (formats_conversion (chars "d")). by apply conversion_d. Qed.
Lemma formats_lx rest v l t : 0 <= v < 2 ^ 32 -> formats rest l t -> formats (chars "%lx" ++ rest) (Int v :: l) (radix_text 16 32 v ++ t).
Proof. intros Hv. apply (formats_conversion (chars "lx")). by apply conversion_lx. Qed.
Lemma formats_zX rest v l t : 0 <= v < 2 ^ 32 -> formats rest l t -> formats (chars "%zX" ++ rest) (Int v :: l) (radix_text 16 0 v ++ t).
Proof. intros Hv. apply (formats_conversion (chars "zX")). by apply conversion_zX. Qed.
Lemma formats_02X rest v l t : 0 <= v < 2 ^ 32 -> formats rest l t -> formats (chars "%02X" ++ rest) (Int v :: l) (two_hex v ++ t).
Proof. intros Hv. apply (formats_conversion (chars "02X")). by apply conversion_02X. Qed.
