(* ===== verification/Nvedit.v ===== *)
(** The commands and functions that change and read variables:
    uboot/cmd/nvedit.c, for the board's configuration.

    An argument vector is the list of its strings.  Console messages other than
    the variables printed are left out; the interactive commands are not modelled,
    and the export command is in EnvExport.v.  [None] is undefined behaviour. *)
From S2P Require Import Prelude Htab HtabSafe Hexport Himport EnvText EnvFlags Crc32 EnvCommon Strto.

Definition CMD_RET_USAGE : Z := -1.
Definition MAX_ENV_SIZE : Z := 1 << 20.

(** The environment and the counter of its changes. *)
Record session := Session { gd : env; env_id : Z }.
Definition get_env_id (s : session) : Z := env_id s.

Section Commands.
Context {slre : Type} (slre_compile : cstr -> option slre) (slre_match : slre -> cstr -> bool).
Context (alloc : Z -> bool) (strdup : cstr -> option cstr) (env_callback_init env_flags_init : ENTRY -> ENTRY).
Context (default_environment : list Z) (n : nat).

Abbreviation search := (hsearch_r strdup env_callback_init env_flags_init n).
Abbreviation get := (getenv strdup env_callback_init env_flags_init default_environment n).
Abbreviation htab s := (env_htab (gd s)).

(** ** Options *)

(** The letters of an option; [None]: an unknown one. *)
Fixpoint force_option (arg : cstr) (env_flag : Z) : option Z :=
  match arg with
  | [] => Some env_flag
  | c :: arg => if c =? 102 then force_option arg (env_flag .| H_FORCE) else None
  end.
(** [args]: what is behind the command's name. *)
Fixpoint force_options (args : list cstr) (env_flag : Z) : option (list cstr * Z) :=
  match args with
  | arg :: rest =>
      if deref arg =? 45 then env_flag ← force_option (drop 1 arg) env_flag; force_options rest env_flag
      else Some (args, env_flag)
  | [] => Some (args, env_flag)
  end.

(** ** Setting *)

(** The values, separated by blanks: each is copied with its NUL, which becomes a
    blank, and the last blank a NUL. *)
Definition join_values (values : list cstr) : cstr := removelast (values ≫= fun v => v ++ [32]).

Definition _do_env_set (argv : list cstr) (env_flag : Z) (s : session) : option (Z * session) :=
  match force_options (drop 1 argv) env_flag with
  | None => Some (CMD_RET_USAGE, s)
  | Some (args, env_flag) =>
      name ← head args;
      if existsb (Z.eqb 61) name then Some (1, s)
      else
        let s := Session (gd s) (env_id s + 1) in
        match drop 1 args with
        | [] =>
            res ← hdelete_r strdup env_callback_init env_flags_init n name (htab s) env_flag;
            Some (if truthy res.1.1 then 0 else 1, Session (with_htab res.2 (gd s)) (env_id s))
        | values =>
            let len := foldl (fun len v => len + (Z.of_nat (length v) + 1)) 0 values in
            if negb (alloc len) then Some (1, s)
            else
              a ← search name (Some (join_values values)) ENTER (htab s) env_flag;
              Some (match a_val a with None => 1 | Some _ => 0 end, Session (with_htab (a_htab a) (gd s)) (env_id s))
        end
  end.

(** setenv *)
Definition word_setenv : cstr := [115; 101; 116; 101; 110; 118].

Definition setenv (varname : cstr) (varvalue : option cstr) (s : session) : option (Z * session) :=
  if negb (env_ready (gd s)) then Some (1, s)
  else
    match varvalue with
    | None | Some [] => _do_env_set [word_setenv; varname] H_PROGRAMMATIC s
    | Some v => _do_env_set [word_setenv; varname; v] H_PROGRAMMATIC s
    end.

Definition setenv_ulong (varname : cstr) (value : Z) (s : session) : option (Z * session) :=
  str ← simple_itoa value; setenv varname (Some str) s.

Definition do_env_set (argv : list cstr) (s : session) : option (Z * session) :=
  if (length argv <? 2)%nat then Some (CMD_RET_USAGE, s) else _do_env_set argv H_INTERACTIVE s.

(** ** Reading *)
Definition getenv_ulong (name : cstr) (base default_val : Z) (s : session) : option Z :=
  str ← get (gd s) name;
  Some (match str with Some str => (simple_strtoul str base).1 | None => default_val end).

Definition getenv_hex (varname : cstr) (default_val : Z) (s : session) : option Z :=
  str ← get (gd s) varname;
  match str with
  | None => Some default_val
  | Some str =>
      let '(value, endp) := simple_strtoul str 16 in
      Some (if (length endp =? length str)%nat then default_val else value)
  end.

(** ** Deleting and restoring *)
Fixpoint delete_all (names : list cstr) (env_flag ret : Z) (s : session) : option (Z * session) :=
  match names with
  | [] => Some (ret, s)
  | name :: names =>
      res ← hdelete_r strdup env_callback_init env_flags_init n name (htab s) env_flag;
      delete_all names env_flag (if truthy res.1.1 then ret else 1) (Session (with_htab res.2 (gd s)) (env_id s))
  end.
Definition do_env_delete (argv : list cstr) (s : session) : option (Z * session) :=
  match force_options (drop 1 argv) H_INTERACTIVE with
  | None => Some (CMD_RET_USAGE, s)
  | Some (names, env_flag) => delete_all names env_flag 0 (Session (gd s) (env_id s + 1))
  end.

(** The options "-a" and "-f"; [None]: the usage is printed. *)
Fixpoint default_option (arg : cstr) (all : bool) (flag : Z) : option (bool * Z) :=
  match arg with
  | [] => Some (all, flag)
  | c :: arg =>
      if c =? 97 then default_option arg true flag
      else if c =? 102 then default_option arg all (flag .| H_FORCE) else None
  end.
Fixpoint default_options (args : list cstr) (all : bool) (flag : Z) : option (list cstr * bool * Z) :=
  match args with
  | arg :: rest =>
      if deref arg =? 45 then opt ← default_option (drop 1 arg) all flag; default_options rest opt.1 opt.2
      else Some (args, all, flag)
  | [] => Some (args, all, flag)
  end.
(** The message begins with a number sign. *)
Definition do_env_default (argv : list cstr) (s : session) : option (Z * session) :=
  match default_options (drop 1 argv) false 0 with
  | None => Some (1, s)
  | Some (vars, all, _) =>
      match all, vars with
      | true, [] =>
          gd ← set_default_env alloc strdup env_callback_init env_flags_init default_environment n (Some [35]) (gd s);
          Some (0, Session gd (env_id s))
      | false, _ :: _ =>
          res ← set_default_vars alloc strdup env_callback_init env_flags_init default_environment n vars (gd s);
          Some (0, Session res.2 (env_id s))
      | _, _ => Some (1, s)
      end
  end.

Definition do_env_exists (argv : list cstr) (s : session) : option Z :=
  match argv with
  | _ :: name :: _ => a ← search name None FIND (htab s) 0; Some (match a_val a with None => 1 | Some _ => 0 end)
  | _ => Some CMD_RET_USAGE
  end.

(** ** Printing: the value returned and the text *)
Definition env_print (name : option cstr) (flag : Z) (s : session) : option (Z * list Z) :=
  match name with
  | Some name =>
      a ← search name None FIND (htab s) flag;
      match a_val a with
      | None => Some (0, [])
      | Some idx =>
          b ← get_bucket (a_htab a) idx;
          key ← e_key (b_entry b); data ← e_data (b_entry b);
          let line := key ++ [61] ++ data ++ [10] in
          Some (Z.of_nat (length line), line)
      end
  | None =>
      x ← hexport_r slre_compile slre_match alloc n (htab s) 10 flag (Some None) 0 [];
      if 0 <? x_ret x then res ← x_res x; text ← cstring res; Some (x_ret x, text) else Some (0, [])
  end.

Fixpoint print_all (names : list cstr) (env_flag rcode : Z) (out : list Z) (s : session) : option (Z * list Z) :=
  match names with
  | [] => Some (rcode, out)
  | name :: names =>
      res ← env_print (Some name) env_flag s;
      print_all names env_flag (if truthy res.1 then rcode else rcode + 1) (out ++ res.2) s
  end.
Definition do_env_print (argv : list cstr) (s : session) : option (Z * list Z) :=
  let args := drop 1 argv in
  let '(args, env_flag) :=
    match args with
    | arg :: rest => if (deref arg =? 45) && (deref (drop 1 arg) =? 97) then (rest, 0) else (args, H_HIDE_DOT)
    | [] => (args, H_HIDE_DOT)
    end in
  match args with
  | [] => res ← env_print None env_flag s; Some (if truthy res.1 then (0, res.2) else (1, res.2))
  | _ => print_all args 0 0 [] s
  end.

(** How to match, what to match, and whether the options end here. *)
Fixpoint grep_option (arg : cstr) (how what : Z) : option (Z * Z * bool) :=
  match arg with
  | [] => Some (how, what, false)
  | c :: arg =>
      if c =? 101 then grep_option arg H_MATCH_REGEX what
      else if c =? 110 then grep_option arg how H_MATCH_KEY
      else if c =? 118 then grep_option arg how H_MATCH_DATA
      else if c =? 98 then grep_option arg how (H_MATCH_KEY .| H_MATCH_DATA)
      else if c =? 45 then Some (how, what, true) else None
  end.
(** After "--" the options end in front of it. *)
Fixpoint grep_options (args : list cstr) (how what : Z) : option (list cstr * Z * Z) :=
  match args with
  | arg :: rest =>
      if deref arg =? 45 then
        '(how, what, ends) ← grep_option (drop 1 arg) how what;
        if ends : bool then Some (args, how, what) else grep_options rest how what
      else Some (args, how, what)
  | [] => Some (args, how, what)
  end.
Definition do_env_grep (flag : Z) (argv : list cstr) (s : session) : option (Z * list Z) :=
  if (length argv <? 2)%nat then Some (CMD_RET_USAGE, [])
  else
    match grep_options (drop 1 argv) H_MATCH_SUBSTR (H_MATCH_KEY .| H_MATCH_DATA) with
    | None => Some (CMD_RET_USAGE, [])
    | Some (args, how, what) =>
        x ← hexport_r slre_compile slre_match alloc n (htab s) 10 (flag .| what .| how) (Some None) 0 args;
        out ← (if 0 <? x_ret x then res ← x_res x; cstring res else Some []);
        Some (if x_ret x <? 2 then 1 else 0, out)
    end.

(** ** Importing from memory

    [mem]: the bytes from the address on that [map_sysmem] gives. *)
Record import_options := Options { o_sep : Z; o_chk : bool; o_fmt : Z; o_del : bool; o_crlf : bool }.
Inductive parsed (A : Type) := Parsed (a : A) | Usage | Twice.
Arguments Parsed {A}. Arguments Usage {A}. Arguments Twice {A}.

Fixpoint import_option (arg : cstr) (o : import_options) : parsed import_options :=
  match arg with
  | [] => Parsed o
  | c :: arg =>
      let format sep chk :=
        if truthy (o_fmt o) then Twice else import_option arg (Options sep chk (o_fmt o + 1) (o_del o) (o_crlf o)) in
      if c =? 98 then format 0 (o_chk o)
      else if c =? 99 then format 0 true
      else if c =? 116 then format 10 (o_chk o)
      else if c =? 114 then import_option arg (Options (o_sep o) (o_chk o) (o_fmt o) (o_del o) true)
      else if c =? 100 then import_option arg (Options (o_sep o) (o_chk o) (o_fmt o) true (o_crlf o))
      else Usage
  end.
Fixpoint import_options_of (args : list cstr) (o : import_options) : parsed (list cstr * import_options) :=
  match args with
  | arg :: rest =>
      if deref arg =? 45 then
        match import_option (drop 1 arg) o with
        | Parsed o => import_options_of rest o
        | Usage => Usage
        | Twice => Twice
        end
      else Parsed (args, o)
  | [] => Parsed (args, o)
  end.

(** The size of data that ends with the separator and a NUL. *)
Fixpoint data_size (k : nat) (s : list Z) (sep size : Z) : option Z :=
  match k with
  | O => Some size
  | S k =>
      c ← s !! 0%nat;
      found ← (if c =? sep then d ← s !! 1%nat; Some (d =? 0) else Some false);
      if found : bool then Some size else data_size k (drop 1 s) sep (size + 1)
  end.

Definition do_env_import (mem : Z -> list Z) (argv : list cstr) (s : session) : option (Z * session) :=
  match import_options_of (drop 1 argv) (Options 10 false 0 false false) with
  | Usage => Some (CMD_RET_USAGE, s)
  | Twice => Some (1, s)
  | Parsed ([], _) => Some (CMD_RET_USAGE, s)
  | Parsed (arg :: rest, o) =>
      let crlf_is_lf := if negb (o_sep o =? 10) && o_crlf o then false else o_crlf o in
      let addr := (simple_strtoul arg 16).1 in
      let ptr := mem addr in
      size ← (match rest with
              | [arg] => Some (Some (simple_strtoul arg 16).1)
              | [] => if o_chk o then Some None else
                        size ← data_size (Z.to_nat MAX_ENV_SIZE) ptr (o_sep o) 0; Some (Some (u32 (size + 2)))
              | _ => size ← data_size (Z.to_nat MAX_ENV_SIZE) ptr (o_sep o) 0; Some (Some (u32 (size + 2)))
              end);
      match size with
      | None => Some (1, s)
      | Some size =>
          good ← (if o_chk o then
                    let size := u32 (size - 4) in
                    crc ← crc32 0 (u32 (addr + 4)) (env_data ptr) size;
                    Some (if negb (crc =? env_crc ptr) then None else Some (env_data ptr, size))
                  else Some (Some (ptr, size)));
          match good with
          | None => Some (1, s)
          | Some (ptr, size) =>
              res ← himport_r strdup env_callback_init env_flags_init alloc n (htab s) ptr (Z.to_nat size) (o_sep o)
                      (if o_del o then 0 else H_NOCLEAR) crlf_is_lf [];
              let gd := with_htab res.2 (gd s) in
              if res.1.1 =? 0 then Some (1, Session gd (env_id s)) else Some (0, Session (set_ready gd) (env_id s))
          end
      end
  end.
End Commands.

(** ** What [setenv] promises: a finite map *)

(** The value returned and the variables afterwards. *)
Definition spec_setenv (k : cstr) (v : option cstr) (m : gmap cstr cstr) : Z * gmap cstr cstr :=
  match v with
  | None | Some [] => (match m !! k with Some _ => 0 | None => 1 end, delete k m)
  | Some v => (0, <[k := v]> m)
  end.
Fixpoint spec_all (calls : list (cstr * option cstr)) (m : gmap cstr cstr) : list Z * gmap cstr cstr :=
  match calls with
  | [] => ([], m)
  | (k, v) :: calls => let r := spec_setenv k v m in let rest := spec_all calls r.2 in (r.1 :: rest.1, rest.2)
  end.
(** A name that is neither taken for an option nor refused. *)
Definition settable (k : cstr) : Prop := deref k <> 45 /\ Forall (fun c => c <> 61) k.

Section Refinement.
Context (alloc : Z -> bool) (strdup : cstr -> option cstr) (env_callback_init env_flags_init : ENTRY -> ENTRY).
Context (default_environment : list Z) (n : nat).
Context (Halloc : forall x, alloc x = true) (Hdup : forall s, strdup s = Some s).
Context (Hinit : forall e, e_key (env_flags_init (env_callback_init e)) = e_key e /\
                           e_data (env_flags_init (env_callback_init e)) = e_data e).
Context (Hcb : forall e, plain e -> plain (env_flags_init (env_callback_init e))).

Abbreviation set := (setenv alloc strdup env_callback_init env_flags_init n).
Abbreviation get := (getenv strdup env_callback_init env_flags_init default_environment n).

Fixpoint setenv_all (calls : list (cstr * option cstr)) (s : session) : option (list Z * session) :=
  match calls with
  | [] => Some ([], s)
  | (k, v) :: calls => res ← set k v s; rest ← setenv_all calls res.2; Some (res.1 :: rest.1, rest.2)
  end.

(** The environment holds the variables [m], nothing restricts them, and there is
    room for [room] more. *)
Record runs (room : nat) (s : session) (m : gmap cstr cstr) : Prop := {
  runs_ready : env_ready (gd s) = true;
  runs_size : (Z.to_nat (h_size (env_htab (gd s))) <= n)%nat;
  runs_table : exists t, represents (env_htab (gd s)) t m /\ calm (env_htab (gd s)) t /\ (room <= unused t)%nat
}.

Lemma name_checked k : settable k -> force_options [k] H_PROGRAMMATIC = Some ([k], H_PROGRAMMATIC) /\
  (forall v, force_options [k; v] H_PROGRAMMATIC = Some ([k; v], H_PROGRAMMATIC)) /\ existsb (Z.eqb 61) k = false.
Proof.
  intros [Hd Hk]. cbn [force_options]. destruct (Z.eqb_spec (deref k) 45); [done|]. split; [done|]. split; [done|].
  apply not_true_iff_false. rewrite existsb_exists. intros (c & Hc%list_elem_of_In & E%Z.eqb_eq).
  rewrite list.Forall_forall in Hk. by apply (Hk c).
Qed.

(** Deleting. *)
Lemma run_delete room s m k flag : runs room s m ->
  exists r e h', hdelete_r strdup env_callback_init env_flags_init n k (env_htab (gd s)) flag = Some (r, e, h') /\
    (if truthy r then 0 else 1) = (spec_setenv k None m).1 /\
    forall id, runs room (Session (with_htab h' (gd s)) id) (delete k m).
Proof.
  intros [Hr Hsz (t & Hrep & Hcalm & Hroom)]. cbn [spec_setenv fst].
  pose proof (delete_spec strdup env_callback_init env_flags_init _ t m n k flag Hrep Hsz) as H.
  destruct (m !! k) as [d|] eqn:Em.
  - destruct H as (b & Hb & _ & H). apply list_elem_of_lookup in Hb as [i Hb].
    destruct (calm_agrees _ t (b_entry b) k None env_op_delete flag Hcalm (calm_lookup _ t i b Hcalm Hb)) as [Hden Hobj].
    rewrite Hden, Hobj in H. destruct H as (h' & t' & -> & Hrep' & Esz & Hu & Hc).
    eexists _, _, h'. split; [done|]. split; [done|]. intros id. constructor; cbn; [done|by rewrite Esz|].
    exists t'. split; [done|]. split; [by apply Hc|lia].
  - rewrite H. eexists _, _, _. split; [done|]. split; [done|]. intros id. constructor; cbn; [done|done|].
    exists t. rewrite delete_id by done. done.
Qed.

(** Setting. *)
Lemma run_enter room s m k v flag : runs (S room) s m ->
  exists a, hsearch_r strdup env_callback_init env_flags_init n k (Some v) ENTER (env_htab (gd s)) flag = Some a /\
    a_val a <> None /\ forall id, runs room (Session (with_htab (a_htab a) (gd s)) id) (<[k := v]> m).
Proof.
  intros [Hr Hsz (t & Hrep & Hcalm & Hroom)]. destruct (m !! k) as [d0|] eqn:Em.
  - destruct (enter_present strdup env_callback_init env_flags_init Hdup _ t m Hrep n k v d0 flag Hsz Em)
      as (x & b & Hx & Eb & _ & H).
    destruct (calm_agrees _ t (b_entry b) k (Some v) env_op_overwrite flag Hcalm (calm_lookup _ t _ b Hcalm Eb)) as [Hden Hobj].
    rewrite Hden, Hobj in H. destruct H as (h' & t' & -> & Hrep' & Esz & Hu & Hc). eexists. split; [done|]. split; [done|].
    intros id. constructor; cbn; [done|by rewrite Esz|]. exists t'. split; [done|]. split; [by apply Hc|lia].
  - destruct (enter_absent strdup env_callback_init env_flags_init Hdup Hinit _ t m n k v flag Hrep Hsz Em ltac:(lia))
      as (a & t' & -> & Esz & Hu & Hc & Hval & Hcase). destruct (Hc Hcalm Hcb) as [Ea Hcalm'].
    exists a. split; [done|]. split; [by apply Hval|]. destruct Hcase as [[_ Hrep']|[E0 _]]; [|congruence].
    intros id. constructor; cbn; [done|by rewrite Esz|]. exists t'. split; [done|]. split; [done|lia].
Qed.

Lemma run_setenv room s m k v : settable k -> runs (S room) s m ->
  exists s', set k v s = Some ((spec_setenv k v m).1, s') /\ runs room s' (spec_setenv k v m).2 /\ env_id s' = env_id s + 1.
Proof.
  intros Hk Hs. destruct (name_checked k Hk) as (E1 & E2 & E61). unfold setenv. rewrite (runs_ready _ _ _ Hs). cbn [negb].
  assert (runs room s m) as Hs'.
  { destruct Hs as [? ? (t & ? & ? & ?)]. constructor; [done|done|]. exists t. split; [done|]. split; [done|lia]. }
  assert (forall v, v = None \/ v = Some [] -> exists s',
    _do_env_set alloc strdup env_callback_init env_flags_init n [word_setenv; k] H_PROGRAMMATIC s =
      Some ((spec_setenv k v m).1, s') /\ runs room s' (spec_setenv k v m).2 /\ env_id s' = env_id s + 1) as Hdel.
  { intros v' Hv. unfold _do_env_set. cbn [drop]. rewrite E1. cbn [head mbind option_bind]. rewrite E61. cbn [drop gd].
    destruct (run_delete room s m k H_PROGRAMMATIC Hs') as (r & e & h' & -> & Er & Hruns). cbn [mbind option_bind fst snd env_id].
    rewrite Er. eexists. by destruct Hv as [->| ->]. }
  destruct v as [[|c v]|]; [by apply Hdel; right| |by apply Hdel; left].
  unfold _do_env_set. cbn [drop]. rewrite E2. cbn [head mbind option_bind]. rewrite E61. cbn [drop gd env_id]. cbv zeta.
  rewrite Halloc. cbn [negb].
  assert (join_values [c :: v] = c :: v) as ->.
  { unfold join_values. rewrite bind_cons. cbn [mbind list_bind]. rewrite app_nil_r. apply removelast_last. }
  destruct (run_enter room s m k (c :: v) H_PROGRAMMATIC Hs) as (a & -> & Hval & Hruns). cbn [mbind option_bind].
  destruct (a_val a); [|done]. eexists. split; [done|]. split; [apply Hruns|done].
Qed.

Lemma run_setenv_all calls room s m : Forall (fun kv => settable kv.1) calls -> runs (length calls + room) s m ->
  exists s', setenv_all calls s = Some ((spec_all calls m).1, s') /\ runs room s' (spec_all calls m).2 /\
    env_id s' = env_id s + Z.of_nat (length calls).
Proof.
  revert s m. induction calls as [|[k v] calls IH]; intros s m Hk Hs; cbn [setenv_all spec_all].
  - exists s. split; [done|]. split; [done|]. cbn [length]. lia.
  - apply list.Forall_cons in Hk as [Hk Hks]. cbn [fst] in Hk. cbn [length] in Hs.
    destruct (run_setenv (length calls + room) s m k v Hk Hs) as (s1 & -> & Hs1 & Eid). cbn [mbind option_bind fst snd].
    destruct (IH s1 _ Hks Hs1) as (s' & -> & Hs' & Eid'). cbn [mbind option_bind fst snd].
    exists s'. split; [done|]. split; [done|]. cbn [length]. lia.
Qed.


(** a number stored with [setenv_ulong] is read back by [getenv_ulong], whatever
    the default. *)
Theorem setenv_ulong_getenv room s m k i dflt : settable k -> runs (S room) s m -> 0 <= i < 2 ^ 32 ->
  exists s', setenv_ulong alloc strdup env_callback_init env_flags_init n k i s = Some (0, s') /\
    getenv_ulong strdup env_callback_init env_flags_init default_environment n k 10 dflt s' = Some i.
Proof.
  intros Hk Hs Hi. destruct (strtoul_itoa i [] Hi I) as (str & Estr & Eval & Hne & _). rewrite app_nil_r in Eval.
  unfold setenv_ulong. rewrite Estr. cbn [mbind option_bind].
  destruct (run_setenv room s m k (Some str) Hk Hs) as (s' & Es & [Hr Hsz (t & Hrep & _)] & _).
  destruct str as [|c str]; [done|]. cbn [spec_setenv fst snd] in *. exists s'. split; [done|]. unfold getenv_ulong.
  rewrite (getenv_table strdup env_callback_init env_flags_init default_environment n (gd s') (<[k := c :: str]> m) k Hr);
    [|by exists t|done].
  rewrite lookup_insert_eq. cbn [mbind option_bind]. by rewrite Eval.
Qed.
End Refinement.

(** *** Examples *)
Definition fresh : session := Session (Env true true 1 [] checked_five) 1.
Lemma fresh_runs : runs (Z.to_nat 521) 5 fresh ∅.
Proof.
  constructor; [done|vm_compute; lia|]. exists (replicate 6 no_bucket). split; [exact checked_five_empty|].
  split; [|vm_compute; lia]. split; [by apply (approves_flags (fun _ => None))|].
  by repeat (apply list.Forall_cons_2; [done|]).
Qed.

Definition calls_ab : list (cstr * option cstr) := [([97], Some [49]); ([98], Some [50]); ([97], None); ([99], None)].

Lemma setenv_ulong_getenv_witness : exists s',
  setenv_ulong (fun _ => true) Some id id (Z.to_nat 521) [97] 4294967295 fresh = Some (0, s') /\
  getenv_ulong Some id id [] (Z.to_nat 521) [97] 10 7 s' = Some 4294967295.
Proof.
  exact (setenv_ulong_getenv (fun _ => true) Some id id [] (Z.to_nat 521) ltac:(reflexivity) ltac:(reflexivity)
    ltac:(split; reflexivity) ltac:(intros e He; exact He) 4 fresh ∅ [97] 4294967295 7
    ltac:(split; [discriminate|by repeat constructor]) fresh_runs ltac:(lia)).
Defined.

(** ** Shortcomings *)
Abbreviation run_set := (setenv (fun _ => true) Some id id (Z.to_nat 521)).

(** A name that begins with a dash is taken for options: setting "-f" to "a"
    deletes "a".  Options without a name make a null pointer be used. *)
Lemma setenv_dash :
  (s ← run_set [97] (Some [49]) fresh; s' ← run_set [45; 102] (Some [97]) s.2;
   v ← getenv Some id id [] (Z.to_nat 521) (gd s'.2) [97]; Some (s'.1, v)) = Some (0, None).
Proof. vm_compute. reflexivity. Qed.
Lemma setenv_no_name : do_env_set (fun _ => true) Some id id (Z.to_nat 521) [word_setenv; [45; 102]] fresh = None.
Proof. reflexivity. Qed.

(** "env grep -- a": the dashes are searched for as well. *)
Lemma grep_dashes : grep_options [[45; 45]; [97]] H_MATCH_SUBSTR H_MATCH_KEY = Some ([[45; 45]; [97]], H_MATCH_SUBSTR, H_MATCH_KEY).
Proof. reflexivity. Qed.

(** "env default -f" is "env default": the flag is parsed and not used. *)
Lemma default_option_flag arg all flag flag' :
  (fun r => r.1) <$> default_option arg all flag = (fun r => r.1) <$> default_option arg all flag'.
Proof.
  revert all flag flag'. induction arg as [|c arg IH]; intros all flag flag'; [done|]. cbn [default_option].
  destruct (c =? 97); [apply IH|]. destruct (c =? 102); [apply IH|done].
Qed.
Lemma default_options_flag args all flag flag' :
  (fun r => r.1) <$> default_options args all flag = (fun r => r.1) <$> default_options args all flag'.
Proof.
  revert all flag flag'. induction args as [|a args IH]; intros all flag flag'; [done|]. cbn [default_options].
  destruct (deref a =? 45); [|done]. pose proof (default_option_flag (drop 1 a) all flag flag') as H.
  destruct (default_option (drop 1 a) all flag) as [[b g]|], (default_option (drop 1 a) all flag') as [[b' g']|]; try done.
  injection H as <-. apply IH.
Qed.
Lemma default_force_ignored alloc strdup init init' env n cmd args s :
  do_env_default alloc strdup init init' env n (cmd :: [45; 102] :: args) s = do_env_default alloc strdup init init' env n (cmd :: args) s.
Proof.
  unfold do_env_default. cbn [drop]. rewrite drop_0.
  change (default_options ([45; 102] :: args) false 0) with (default_options args false (0 .| H_FORCE)).
  pose proof (default_options_flag args false (0 .| H_FORCE) 0) as H.
  destruct (default_options args false (0 .| H_FORCE)) as [[[v b] f]|], (default_options args false 0) as [[[v' b'] f']|]; try done.
  by injection H as <- <-.
Qed.

(** A default value of more than 31 characters is cut by [getenv_default]: a
    variable that may change from its default value may not when it is that long. *)
Definition long_value : cstr := replicate 40 97.
Definition gd_long : env := Env true true 1 [] checked_five.
Lemma long_default_stuck :
  let defaults := text 0 [([98], long_value)] ++ [0] in
  let get_default name := default None (getenv_default Some id id defaults (Z.to_nat 521) gd_long name) in
  get_default [98] = Some (take 31 long_value) /\
  env_flags_validate get_default (Entry (Some [98]) (Some long_value) None (flags_of 0 3)) (Some [49]) env_op_overwrite 0 = Some 1.
Proof. vm_compute. done. Qed.
