(* ===== verification/EnvExport.v ===== *)
(** The functions of uboot/cmd/nvedit.c that format numbers: setenv_hex, and the
    command that exports the environment to memory.

    [stack] is the address of the local array that sprintf writes to; what it holds
    before does not matter.  [mem addr] is the memory from the address [addr] on. *)
From Stdlib Require Import String.
From S2P Require Import Prelude Htab HtabSafe Hexport Himport EnvText EnvFlags Crc32 EnvCommon Strto Nvedit.
From S2P Require Import UDiv64 UFormat UFormatText UFormatNum UFormatSpec UFormatCalls.

Arguments Parsed {A} a.
Arguments Usage {A}.
Arguments Twice {A}.

Definition word_file_size : cstr := chars "filesize".

Record export_options := ExportOptions { x_sep : Z; x_chk : bool; x_fmt : Z; x_size : Z }.

(** The letters of an option, and the arguments behind it: "s" takes the next.
    [Twice] is a message and the result 1. *)
Fixpoint export_option (arg : cstr) (rest : list cstr) (o : export_options) : parsed (list cstr * export_options) :=
  match arg with
  | [] => Parsed (rest, o)
  | c :: arg =>
      let format sep chk :=
        if truthy (x_fmt o) then Twice else export_option arg rest (ExportOptions sep chk (x_fmt o + 1) (x_size o)) in
      if c =? 98 then format 0 (x_chk o)
      else if c =? 99 then format 0 true
      else if c =? 115 then
        match rest with
        | [] => Twice
        | size :: rest => Parsed (rest, ExportOptions (x_sep o) (x_chk o) (x_fmt o) (simple_strtoul size 16).1)
        end
      else if c =? 116 then format 10 (x_chk o)
      else Usage
  end.
(** A round for each argument. *)
Fixpoint export_options_of (k : nat) (args : list cstr) (o : export_options) : parsed (list cstr * export_options) :=
  match k, args with
  | S k, arg :: rest =>
      if deref arg =? 45 then
        match export_option (drop 1 arg) rest o with
        | Parsed (rest, o) => export_options_of k rest o
        | Usage => Usage
        | Twice => Twice
        end
      else Parsed (args, o)
  | _, _ => Parsed (args, o)
  end.

Section Commands.
Context {slre : Type} (slre_compile : cstr -> option slre) (slre_match : slre -> cstr -> bool).
Context (alloc : Z -> bool) (strdup : cstr -> option cstr) (env_callback_init env_flags_init : ENTRY -> ENTRY).
Context (stack : Z) (n : nat).

Abbreviation set := (setenv alloc strdup env_callback_init env_flags_init n).
Abbreviation export := (hexport_r slre_compile slre_match alloc n).

Definition setenv_hex (varname : cstr) (value : Z) (s : session) : option (Z * session) :=
  '(_, str, _) ← sprintf stack (chars "%lx") [Int value] (replicate 17 0);
  str ← c_string str;
  set varname (Some str) s.

(** The result, the address written to with the memory from there on, and the
    session. *)
Definition export_to (addr : Z) (ptr : list Z) (o : export_options) (names : list cstr) (s : session) :
    option (Z * list Z * session) :=
  let flag := H_MATCH_KEY .| H_MATCH_IDENT in
  if truthy (x_sep o) then
    x ← export (env_htab (gd s)) (x_sep o) flag (Some (Some ptr)) (x_size o) names;
    let ptr := default ptr (x_res x) in
    let len := s32 (x_ret x) in
    if len <? 0 then Some (1, ptr, s)
    else
      '(_, buf, _) ← sprintf stack (chars "%zX") [Int len] (replicate 32 0);
      buf ← c_string buf;
      '(_, s) ← set word_file_size (Some buf) s;
      Some (0, ptr, s)
  else
    let res := if x_chk o then env_data ptr else ptr in
    x ← export (env_htab (gd s)) 0 flag (Some (Some res)) ENV_SIZE names;
    let res := default res (x_res x) in
    let len := s32 (x_ret x) in
    if len <? 0 then Some (1, if x_chk o then take 4 ptr ++ res else res, s)
    else
      ptr ← (if x_chk o then crc ← crc32 0 (u32 (addr + 4)) res ENV_SIZE; Some (crc_bytes crc ++ res) else Some res);
      '(_, s) ← setenv_hex word_file_size (u32 (len + ENV_HEADER_SIZE)) s;
      Some (0, ptr, s).

Definition do_env_export (mem : Z -> list Z) (argv : list cstr) (s : session) :
    option (Z * option (Z * list Z) * session) :=
  match export_options_of (length argv) (drop 1 argv) (ExportOptions 10 false 0 0) with
  | Usage => Some (CMD_RET_USAGE, None, s)
  | Twice => Some (1, None, s)
  | Parsed ([], _) => Some (CMD_RET_USAGE, None, s)
  | Parsed (arg :: names, o) =>
      let addr := (simple_strtoul arg 16).1 in
      let ptr := mem addr in
      ptr ← (if truthy (x_size o) then
               if (Z.to_nat (x_size o) <=? length ptr)%nat
               then Some (replicate (Z.to_nat (x_size o)) 0 ++ drop (Z.to_nat (x_size o)) ptr) else None
             else Some ptr);
      '(ret, ptr, s) ← export_to addr ptr o names s;
      Some (ret, Some (addr, ptr), s)
  end.
End Commands.

(** ** Numbers *)
Lemma c_string_text T rest : Forall (fun c => c <> 0) T -> c_string (T ++ 0 :: rest) = Some T.
Proof.
  intros H. induction H as [|c T Hc H IH]; [done|]. cbn [app c_string]. rewrite (proj2 (Z.eqb_neq _ _) Hc). by rewrite IH.
Qed.

Lemma hex_text_chars locase v : locase = 0 \/ locase = 32 -> 0 <= v < 2 ^ 32 ->
  Forall (fun c => c <> 0) (radix_text 16 locase v) /\ radix_text 16 locase v <> [] /\ (length (radix_text 16 locase v) <= 8)%nat /\
  simple_strtoul (radix_text 16 locase v) 16 = (v, []).
Proof.
  intros Hl Hv. destruct (strtoul_radix 16 locase v [] Hl ltac:(lia) Hv I) as (E & Hne & Hd). rewrite app_nil_r in E.
  split_and!; try done.
  - eapply list.Forall_impl; [exact Hd|]. by intros c [Hx _] ->.
  - unfold radix_text. rewrite length_rev, length_fmap.
    rewrite (radix_same 8 64 8 16 v) by (change (16 ^ Z.of_nat 8) with (2 ^ 32); lia). apply radix_length. lia.
Qed.

(** A number formatted into a local array. *)
Lemma run_hex_string stack fmt v room locase : 0 <= stack -> stack + 64 < 2 ^ 32 -> (16 < room <= 64)%nat ->
  locase = 0 \/ locase = 32 -> 0 <= v < 2 ^ 32 -> format_text fmt [Int v] = Some (radix_text 16 locase v) ->
  ('(_, str, _) ← sprintf stack fmt [Int v] (replicate room 0); c_string str) = Some (radix_text 16 locase v).
Proof.
  intros Hs Hs' Hr Hl Hv HT. destruct (hex_text_chars locase v Hl Hv) as (H0 & _ & Hlen & _).
  rewrite (run_sprintf stack _ _ _ _ Hs HT) by (rewrite ?length_replicate; unfold INT_MAX; lia).
  cbn [mbind option_bind app]. by apply c_string_text.
Qed.
Lemma text_lx v : 0 <= v < 2 ^ 32 -> format_text (chars "%lx") [Int v] = Some (radix_text 16 32 v).
Proof.
  intros Hv. apply formats_text. rewrite <- (app_nil_r (radix_text _ _ _)). apply (formats_lx []); [lia|apply formats_nil].
Qed.
Lemma text_zX v : 0 <= v < 2 ^ 32 -> format_text (chars "%zX") [Int v] = Some (radix_text 16 0 v).
Proof.
  intros Hv. apply formats_text. rewrite <- (app_nil_r (radix_text _ _ _)). apply (formats_zX []); [lia|apply formats_nil].
Qed.

(** ** What they promise *)
Section Theory.
Context {slre : Type} (slre_compile : cstr -> option slre) (slre_match : slre -> cstr -> bool).
Context (alloc : Z -> bool) (strdup : cstr -> option cstr) (env_callback_init env_flags_init : ENTRY -> ENTRY).
Context (default_environment : list Z) (stack : Z) (n : nat).
Context (Hstack : 0 <= stack /\ stack + 64 < 2 ^ 32).
Context (Halloc : forall x, alloc x = true) (Hdup : forall s, strdup s = Some s).
Context (Hinit : forall e, e_key (env_flags_init (env_callback_init e)) = e_key e /\
                           e_data (env_flags_init (env_callback_init e)) = e_data e).
Context (Hcb : forall e, plain e -> plain (env_flags_init (env_callback_init e))).

Abbreviation get := (getenv strdup env_callback_init env_flags_init default_environment n).

(** A text that is not empty becomes the value. *)
Lemma run_setenv_text room s m k v : settable k -> Nvedit.runs n (S room) s m -> v <> [] ->
  exists s', setenv alloc strdup env_callback_init env_flags_init n k (Some v) s = Some (0, s') /\
    Nvedit.runs n room s' (<[k := v]> m) /\ get (gd s') k = Some (Some v).
Proof.
  intros Hk Hs Hv. destruct (run_setenv alloc strdup env_callback_init env_flags_init n Halloc Hdup Hinit Hcb room s m k (Some v) Hk Hs)
    as (s' & Es & Hr & _). destruct v as [|c v]; [done|]. cbn [spec_setenv fst snd] in *. exists s'. split; [done|]. split; [done|].
  destruct Hr as [Hready Hsz (t & Hrep & _)].
  rewrite (getenv_table strdup env_callback_init env_flags_init default_environment n (gd s') (<[k := c :: v]> m) k Hready);
    [|by exists t|done].
  by rewrite lookup_insert_eq.
Qed.

Lemma run_setenv_hex room s m k v : settable k -> Nvedit.runs n (S room) s m -> 0 <= v < 2 ^ 32 ->
  exists s', setenv_hex alloc strdup env_callback_init env_flags_init stack n k v s = Some (0, s') /\
    Nvedit.runs n room s' (<[k := radix_text 16 32 v]> m) /\ get (gd s') k = Some (Some (radix_text 16 32 v)).
Proof.
  intros Hk Hs Hv. destruct (hex_text_chars 32 v ltac:(by right) Hv) as (_ & Hne & _).
  destruct (run_setenv_text room s m k (radix_text 16 32 v) Hk Hs Hne) as (s' & Es & Hr & Hg). exists s'. split; [|done].
  unfold setenv_hex. pose proof (run_hex_string stack (chars "%lx") v 17 32 ltac:(lia) ltac:(lia) ltac:(lia) ltac:(by right) Hv (text_lx v Hv)) as E.
  destruct (sprintf stack _ _ _) as [[[r str] ns]|]; [|done]. cbn [mbind option_bind] in *. rewrite E. exact Es.
Qed.

(** a number stored with setenv_hex is read back by getenv_hex, whatever the
    default, and no other variable changes. *)
Theorem setenv_hex_getenv room s m k v dflt : settable k -> Nvedit.runs n (S room) s m -> 0 <= v < 2 ^ 32 ->
  exists s', setenv_hex alloc strdup env_callback_init env_flags_init stack n k v s = Some (0, s') /\
    getenv_hex strdup env_callback_init env_flags_init default_environment n k dflt s' = Some v /\
    forall k', k' <> k -> get (gd s') k' = Some (m !! k').
Proof.
  intros Hk Hs Hv. destruct (run_setenv_hex room s m k v Hk Hs Hv) as (s' & Es & Hr & Hg). exists s'. split; [done|].
  destruct (hex_text_chars 32 v ltac:(by right) Hv) as (_ & Hne & _ & Hread). split.
  - unfold getenv_hex. rewrite Hg. cbn [mbind option_bind]. rewrite Hread. cbn [length].
    by destruct (radix_text 16 32 v).
  - intros k' Hk'. destruct Hr as [Hready Hsz (t & Hrep & _)].
    rewrite (getenv_table strdup env_callback_init env_flags_init default_environment n (gd s') (<[k := radix_text 16 32 v]> m) k' Hready);
      [|by exists t|done].
    by rewrite lookup_insert_ne.
Qed.

(** The import takes what is behind the size it is given for something else. *)
Lemma himport_prefix h env rest sep flag :
  himport_r strdup env_callback_init env_flags_init alloc n h (env ++ rest) (length env) sep flag false [] =
  himport_r strdup env_callback_init env_flags_init alloc n h env (length env) sep flag false [].
Proof.
  unfold himport_r. rewrite take_app_length, firstn_all.
  assert ((length (env ++ rest) <? length env)%nat = false) as -> by (rewrite length_app; apply Nat.ltb_ge; lia).
  by rewrite Nat.ltb_irrefl.
Qed.

(** The command with the option for text. *)
Lemma run_export_text c0 a mem s : deref a <> 45 ->
  do_env_export slre_compile slre_match alloc strdup env_callback_init env_flags_init stack n mem [c0; chars "-t"; a] s =
    '(ret, ptr, s) ← export_to slre_compile slre_match alloc strdup env_callback_init env_flags_init stack n
      (simple_strtoul a 16).1 (mem (simple_strtoul a 16).1) (ExportOptions 10 false 1 0) [] s;
    Some (ret, Some ((simple_strtoul a 16).1, ptr), s).
Proof.
  intros Ha. unfold do_env_export.
  assert (export_options_of (length [c0; chars "-t"; a]) (drop 1 [c0; chars "-t"; a]) (ExportOptions 10 false 0 0) =
    Parsed ([a], ExportOptions 10 false 1 0)) as ->; [|done].
  cbn [length drop export_options_of]. change (deref (chars "-t") =? 45) with true. cbv iota.
  change (export_option (drop 1 (chars "-t")) [a] (ExportOptions 10 false 0 0)) with (Parsed ([a], ExportOptions 10 false 1 0)).
  cbv iota beta. by rewrite (proj2 (Z.eqb_neq _ _) Ha).
Qed.

Lemma run_import_text c0 a fs size mem s : deref a <> 45 -> simple_strtoul fs 16 = (size, []) ->
  do_env_import alloc strdup env_callback_init env_flags_init n mem [c0; chars "-d"; chars "-t"; a; fs] s =
    (res ← himport_r strdup env_callback_init env_flags_init alloc n (env_htab (gd s)) (mem (simple_strtoul a 16).1)
       (Z.to_nat size) 10 0 false [];
     let gd := with_htab res.2 (gd s) in
     if res.1.1 =? 0 then Some (1, Session gd (env_id s)) else Some (0, Session (set_ready gd) (env_id s))).
Proof.
  intros Ha Hfs. unfold do_env_import.
  assert (import_options_of (drop 1 [c0; chars "-d"; chars "-t"; a; fs]) (Options 10 false 0 false false) =
    Parsed ([a; fs], Options 10 false 1 true false)) as ->.
  { change (import_options_of [a; fs] (Options 10 false 1 true false) = Parsed ([a; fs], Options 10 false 1 true false)).
    cbn [import_options_of]. by rewrite (proj2 (Z.eqb_neq _ _) Ha). }
  cbn [o_sep o_chk o_del o_crlf]. rewrite Hfs. done.
Qed.

End Theory.

Lemma runs_more n n' room s m : (n <= n')%nat -> Nvedit.runs n room s m -> Nvedit.runs n' room s m.
Proof. intros Hn [Hr Hs Ht]. constructor; [done|lia|done]. Qed.

Lemma setenv_hex_getenv_witness : exists s',
  setenv_hex (fun _ => true) Some id id 4096 (Z.to_nat 521) [97] 0xDEADBEEF fresh = Some (0, s') /\
  getenv_hex Some id id [] (Z.to_nat 521) [97] 7 s' = Some 0xDEADBEEF /\
  forall k', k' <> [97] -> getenv Some id id [] (Z.to_nat 521) (gd s') k' = Some ((∅ : gmap cstr cstr) !! k').
Proof.
  apply (setenv_hex_getenv (fun _ => true) Some id id [] 4096 (Z.to_nat 521) ltac:(lia) ltac:(reflexivity) ltac:(reflexivity)
    ltac:(split; reflexivity) ltac:(intros e He; exact He) 4 fresh ∅); [|exact fresh_runs|lia].
  split; [discriminate|by repeat constructor].
Defined.

(** One variable, "a" with the value "1=\", to a memory of 64 bytes. *)
Definition odd_value : cstr := chars "1=\".

(** A raw binary export sets filesize to four bytes more than it wrote: the offset of
    the data in a block with a checksum, which it does not write. *)
Lemma binary_export_filesize :
  match do_env_export (fun _ => Some tt) (fun _ _ => false) (fun _ => true) Some id id 4096 (Z.to_nat 521)
      (fun _ => replicate (Z.to_nat 8192) 7) [chars "export"; chars "-b"; chars "80800000"] fresh with
  | Some (ret, Some (addr, ptr), s') =>
      Some (ret, addr, drop (Z.to_nat 8187) ptr, getenv Some id id [] (Z.to_nat 521) (gd s') word_file_size)
  | _ => None
  end = Some (0, 0x80800000, [0; 7; 7; 7; 7], Some (Some (chars "2000"))).
Proof. vm_compute. reflexivity. Qed.
