(* ===== verification/EnvMmc.v ===== *)
(** The environment on the memory card: uboot/common/env_mmc.c, without a redundant
    copy (include/configs/mx6ullevk.h).

    The card's driver (uboot/drivers/mmc) is an interface: the class [Mmc] of its
    operations, and the class [MmcLaws] of what they promise.  Messages are left
    out but for the sign that the default environment is set without asking. *)
From S2P Require Import Prelude Htab HtabSafe Hexport Himport EnvText Crc32 EnvCommon.

Definition CONFIG_ENV_OFFSET : Z := 12 * 64 * 1024.
Definition CONFIG_SYS_MMC_ENV_PART : Z := 0.
Definition ALIGN (x a : Z) : Z := Z.land (u32 (x + (a - 1))) (Z.lnot (a - 1)).

(** Before relocation the default environment is read in place. *)
Definition env_init (default_environment : list Z) (gd : env) : env :=
  Env (env_ready gd) (relocated gd) 1 default_environment (env_htab gd).

(** The operations return an error number or the number of blocks. *)
Class Mmc (disk : Type) := {
  mmc_get_env_dev : Z;
  find_mmc_device : Z -> disk -> bool;
  mmc_init : disk -> Z * disk;
  mmc_select_hwpart : Z -> Z -> disk -> Z * disk;
  hwpart : disk -> Z;
  read_bl_len : disk -> Z;
  write_bl_len : disk -> Z;
  block_read : Z -> Z -> disk -> Z * list Z * disk;
  block_write : Z -> Z -> list Z -> disk -> Z * disk
}.

Section Mmc.
Context {disk : Type} `{!Mmc disk}.

(** The message when something fails, [env_mmc_orig_hwpart] and the card. *)
Definition init_mmc_for_env (d : disk) : option cstr * Z * disk :=
  if negb (find_mmc_device mmc_get_env_dev d) then (Some [33], 0, d)
  else
    let '(r, d) := mmc_init d in
    if truthy r then (Some [33], 0, d)
    else
      let orig := hwpart d in
      let '(r, d) := mmc_select_hwpart mmc_get_env_dev CONFIG_SYS_MMC_ENV_PART d in
      (if truthy r then Some [33] else None, orig, d).
Definition fini_mmc_for_env (orig : Z) (d : disk) : disk := (mmc_select_hwpart mmc_get_env_dev orig d).2.

Definition write_env (size offset : Z) (buffer : list Z) (d : disk) : Z * disk :=
  let blk_start := ALIGN offset (write_bl_len d) / write_bl_len d in
  let blk_cnt := ALIGN size (write_bl_len d) / write_bl_len d in
  let '(n, d) := block_write blk_start blk_cnt buffer d in
  (if n =? blk_cnt then 0 else -1, d).
(** The buffer keeps what it had when nothing was read. *)
Definition read_env (size offset : Z) (d : disk) : Z * list Z * disk :=
  let blk_start := ALIGN offset (read_bl_len d) / read_bl_len d in
  let blk_cnt := ALIGN size (read_bl_len d) / read_bl_len d in
  let '(n, buf, d) := block_read blk_start blk_cnt d in
  (if n =? blk_cnt then 0 else -1, buf, d).

Context {slre : Type} (slre_compile : cstr -> option slre) (slre_match : slre -> cstr -> bool).
Context (alloc : Z -> bool) (strdup : cstr -> option cstr) (env_callback_init env_flags_init : ENTRY -> ENTRY).
Context (default_environment : list Z) (n : nat).

(** [env_new]: what the buffer on the stack holds; [addr]: where its data lies. *)
Definition saveenv (addr : Z) (env_new : list Z) (gd : env) (d : disk) : option (Z * disk) :=
  let '(errmsg, orig, d) := init_mmc_for_env d in
  match errmsg with
  | Some _ => Some (1, d)
  | None =>
      res ← env_export slre_compile slre_match alloc n addr env_new gd;
      if truthy res.1 then Some (res.1, fini_mmc_for_env orig d)
      else
        let '(r, d) := write_env CONFIG_ENV_SIZE CONFIG_ENV_OFFSET res.2 d in
        Some (if truthy r then 1 else 0, fini_mmc_for_env orig d)
  end.

Definition do_env_save (addr : Z) (env_new : list Z) (gd : env) (d : disk) : option (Z * disk) :=
  res ← saveenv addr env_new gd d; Some (if truthy res.1 then 1 else 0, res.2).

Abbreviation set_default := (set_default_env alloc strdup env_callback_init env_flags_init default_environment n).

Definition env_relocate_spec (addr : Z) (gd : env) (d : disk) : option (env * disk) :=
  let '(errmsg, orig, d) := init_mmc_for_env d in
  match errmsg with
  | Some _ => gd ← set_default errmsg gd; Some (gd, d)
  | None =>
      let '(r, buf, d) := read_env CONFIG_ENV_SIZE CONFIG_ENV_OFFSET d in
      if truthy r then gd ← set_default (Some [33]) gd; Some (gd, fini_mmc_for_env orig d)
      else
        res ← env_import alloc strdup env_callback_init env_flags_init default_environment n addr buf true gd;
        Some (res.2, fini_mmc_for_env orig d)
  end.
End Mmc.

(** ** What the card promises *)

(** [contents d p]: the bytes of partition [p].  Blocks have 512 bytes; initialising
    and selecting keep all bytes; blocks that were all written are what is read. *)
Class MmcLaws (disk : Type) `{!Mmc disk} (contents : disk -> Z -> list Z) : Prop := {
  bl_len d : read_bl_len d = 512 /\ write_bl_len d = 512;
  init_keeps d : contents (mmc_init d).2 = contents d;
  select_keeps dev p d : contents (mmc_select_hwpart dev p d).2 = contents d;
  select_selects dev p d : (mmc_select_hwpart dev p d).1 = 0 -> hwpart (mmc_select_hwpart dev p d).2 = p;
  read_contents start cnt d d' buf : 0 <= start -> 0 <= cnt -> block_read start cnt d = (cnt, buf, d') ->
    buf = take (Z.to_nat (cnt * 512)) (drop (Z.to_nat (start * 512)) (contents d (hwpart d)));
  read_keeps start cnt d : contents (block_read start cnt d).2 = contents d;
  write_contents start cnt d d' buf : 0 <= start -> 0 <= cnt -> Z.of_nat (length buf) = cnt * 512 ->
    block_write start cnt buf d = (cnt, d') ->
    take (Z.to_nat (cnt * 512)) (drop (Z.to_nat (start * 512)) (contents d' (hwpart d))) = buf
}.

(** The blocks of the environment. *)
Definition stored {disk : Type} (contents : disk -> Z -> list Z) (d : disk) : list Z :=
  take (Z.to_nat (16 * 512)) (drop (Z.to_nat (1536 * 512)) (contents d CONFIG_SYS_MMC_ENV_PART)).

Section Laws.
Context {disk : Type} `{!Mmc disk} (contents : disk -> Z -> list Z) `{!MmcLaws disk contents}.

Lemma init_mmc_ok d errmsg orig d' : init_mmc_for_env d = (errmsg, orig, d') ->
  contents d' = contents d /\ (errmsg = None -> hwpart d' = CONFIG_SYS_MMC_ENV_PART).
Proof.
  unfold init_mmc_for_env. destruct (find_mmc_device _ _); cbn [negb]; [|by intros [= <- <- <-]].
  pose proof (init_keeps d) as Hinit. destruct (mmc_init d) as [r d1]. cbn [snd] in Hinit.
  destruct (truthy r); [by intros [= <- <- <-]|].
  pose proof (select_keeps mmc_get_env_dev CONFIG_SYS_MMC_ENV_PART d1) as Hsel.
  pose proof (select_selects mmc_get_env_dev CONFIG_SYS_MMC_ENV_PART d1) as Hpart.
  destruct (mmc_select_hwpart _ _ d1) as [r2 d2]. cbn [fst snd] in *. intros [= <- _ <-]. split; [congruence|].
  destruct (truthy r2) eqn:E; [done|]. intros _. apply Hpart. by apply truthy_false.
Qed.

Lemma fini_keeps orig d : contents (fini_mmc_for_env orig d) = contents d.
Proof. apply select_keeps. Qed.

Lemma stored_fini orig d : stored contents (fini_mmc_for_env orig d) = stored contents d.
Proof. unfold stored. rewrite fini_keeps. reflexivity. Qed.

Lemma env_blocks : ALIGN CONFIG_ENV_OFFSET 512 / 512 = 1536 /\ ALIGN CONFIG_ENV_SIZE 512 / 512 = 16.
Proof. vm_compute. done. Qed.

Lemma run_write_env buf d d' : hwpart d = CONFIG_SYS_MMC_ENV_PART -> length buf = Z.to_nat CONFIG_ENV_SIZE ->
  write_env CONFIG_ENV_SIZE CONFIG_ENV_OFFSET buf d = (0, d') -> stored contents d' = buf.
Proof.
  intros Hp Hl. unfold write_env. destruct (bl_len d) as [_ ->]. destruct env_blocks as [-> ->].
  destruct (block_write 1536 16 buf d) as [k d1] eqn:E. destruct (Z.eqb_spec k 16) as [->|]; [|done]. intros [= <-].
  unfold stored. rewrite <- Hp. apply (write_contents 1536 16 d d1 buf); [lia|lia| |done].
  rewrite Hl, Z2Nat.id by (vm_compute; discriminate). reflexivity.
Qed.
Lemma run_read_env d r buf d' : hwpart d = CONFIG_SYS_MMC_ENV_PART ->
  read_env CONFIG_ENV_SIZE CONFIG_ENV_OFFSET d = (r, buf, d') ->
  contents d' = contents d /\ (r = 0 -> buf = stored contents d).
Proof.
  intros Hp. unfold read_env. destruct (bl_len d) as [-> _]. destruct env_blocks as [-> ->].
  pose proof (read_keeps 1536 16 d) as Hk. destruct (block_read 1536 16 d) as [[k b] d1] eqn:E. cbn [snd] in Hk.
  destruct (Z.eqb_spec k 16) as [->|]; intros [= <- <- <-]; (split; [done|]); [intros _|done].
  unfold stored. rewrite <- Hp. by apply read_contents in E; [|lia..].
Qed.

Section Boot.
Context {slre : Type} (slre_compile : cstr -> option slre) (slre_match : slre -> cstr -> bool).
Context (alloc : Z -> bool) (strdup : cstr -> option cstr) (env_callback_init env_flags_init : ENTRY -> ENTRY).
Context (default_environment : list Z) (n : nat) (Hn : 521 <= Z.of_nat n).
Context (Halloc : forall x, alloc x = true) (Hdup : forall s, strdup s = Some s).
Context (Hinit : forall e, e_key (env_flags_init (env_callback_init e)) = e_key e /\
                           e_data (env_flags_init (env_callback_init e)) = e_data e).
Context (Hcb : forall e, plain e -> plain (env_flags_init (env_callback_init e))).

Abbreviation get := (getenv strdup env_callback_init env_flags_init default_environment n).
Abbreviation save := (saveenv slre_compile slre_match alloc n).
Abbreviation set_default := (set_default_env alloc strdup env_callback_init env_flags_init default_environment n).
Abbreviation load := (env_relocate_spec alloc strdup env_callback_init env_flags_init default_environment n).

(** The card is there, and the environment's blocks can be read. *)
Definition card_usable (d : disk) : Prop :=
  (init_mmc_for_env d).1.1 = None /\ (read_env CONFIG_ENV_SIZE CONFIG_ENV_OFFSET (init_mmc_for_env d).2).1.1 = 0.

(** What a boot does with the card: it reads the stored environment, or sets the
    default one when the card cannot be used. *)
Lemma run_load addr gd0 d : exists d', contents d' = contents d /\
  (card_usable d /\ load addr gd0 d =
     (res ← env_import alloc strdup env_callback_init env_flags_init default_environment n addr (stored contents d) true gd0;
      Some (res.2, d')) \/
   ~ card_usable d /\ exists msg, load addr gd0 d = (gd ← set_default msg gd0; Some (gd, d'))).
Proof.
  unfold env_relocate_spec, card_usable. destruct (init_mmc_for_env d) as [[errmsg orig] d1] eqn:Ei. cbn [fst snd].
  destruct (init_mmc_ok d errmsg orig d1 Ei) as [Hc Hp].
  assert (stored contents d1 = stored contents d) as Est by (unfold stored; by rewrite Hc).
  destruct errmsg as [msg|]; [exists d1; split; [done|]; right; split; [by intros [? _]|by exists (Some msg)]|].
  destruct (read_env CONFIG_ENV_SIZE CONFIG_ENV_OFFSET d1) as [[r buf] d2] eqn:Er. cbn [fst snd].
  destruct (run_read_env d1 r buf d2 (Hp eq_refl) Er) as [Hc2 Hbuf]. rewrite Est in Hbuf. clear Est Er.
  exists (fini_mmc_for_env orig d2). split; [by rewrite fini_keeps, Hc2|].
  generalize dependent (stored contents d). intros sd Hbuf.
  destruct (truthy r) eqn:Et; [apply truthy_true in Et|apply truthy_false in Et; rewrite (Hbuf Et)].
  - right. split; [by intros [_ ?]|]. by exists (Some [33]).
  - by left.
Qed.

(** What a successful [saveenv] leaves on the card. *)
Lemma run_save addr out gd d d' : save addr out gd d = Some (0, d') ->
  exists buf, env_export slre_compile slre_match alloc n addr out gd = Some (0, buf) /\
    (length buf = Z.to_nat CONFIG_ENV_SIZE -> stored contents d' = buf).
Proof.
  unfold saveenv. destruct (init_mmc_for_env d) as [[errmsg orig] d1] eqn:Ei.
  destruct (init_mmc_ok d errmsg orig d1 Ei) as [Hc Hp]. destruct errmsg; [discriminate|].
  destruct (env_export _ _ _ _ _ _ _) as [[r buf]|] eqn:Ee; cbn [mbind option_bind fst snd]; [|discriminate].
  destruct (truthy r) eqn:Et; [apply truthy_true in Et; intros [= ? _]; lia|]. apply truthy_false in Et as ->.
  destruct (write_env CONFIG_ENV_SIZE CONFIG_ENV_OFFSET buf d1) as [r d2] eqn:Ew.
  destruct (truthy r) eqn:Et; [discriminate|]. apply truthy_false in Et as ->. intros [= <-]. exists buf. split; [reflexivity|]. intros Hl.
  rewrite stored_fini. apply (run_write_env buf d1 d2 (Hp eq_refl) Hl Ew).
Qed.

End Boot.
End Laws.

(** *** Example: a card with one partition *)
Definition card : Type := list Z.
Definition fits_card (start cnt : Z) (d : card) : bool := (start + cnt) * 512 <=? Z.of_nat (length d).
#[export] Instance card_mmc : Mmc card := {
  mmc_get_env_dev := 1;
  find_mmc_device _ _ := true;
  mmc_init d := (0, d);
  mmc_select_hwpart _ p d := (if p =? 0 then 0 else 1, d);
  hwpart _ := 0;
  read_bl_len _ := 512;
  write_bl_len _ := 512;
  block_read start cnt d :=
    if fits_card start cnt d then (cnt, take (Z.to_nat (cnt * 512)) (drop (Z.to_nat (start * 512)) d), d) else (0, [], d);
  block_write start cnt buf d :=
    if fits_card start cnt d
    then (cnt, take (Z.to_nat (start * 512)) d ++ take (Z.to_nat (cnt * 512)) buf ++ drop (Z.to_nat ((start + cnt) * 512)) d)
    else (0, d)
}.
#[export] Instance card_laws : MmcLaws card (fun d _ => d).
Proof.
  constructor; cbn; [done|done|done| | | |].
  - intros _ p _. destruct (Z.eqb_spec p 0); congruence.
  - intros start cnt d d' buf Hs Hc. destruct (fits_card start cnt d); [by intros [= <- _]|]. by intros [= <- <- _].
  - intros start cnt d. by destruct (fits_card start cnt d).
  - intros start cnt d d' buf Hs Hc Hl. destruct (fits_card start cnt d) eqn:E.
    + unfold fits_card in E. apply Z.leb_le in E. intros [= <-].
      rewrite (take_ge buf) by lia. rewrite drop_app_length' by (rewrite length_take; lia).
      by rewrite take_app_length' by lia.
    + intros [= <- _]. by destruct buf.
Qed.

Lemma card_save (d : card) {slre : Type} (compile : cstr -> option slre) matches alloc n addr out gd buf :
  fits_card 1536 16 d = true -> env_export compile matches alloc n addr out gd = Some (0, buf) ->
  exists d', saveenv compile matches alloc n addr out gd d = Some (0, d').
Proof.
  intros Hd Eex. unfold saveenv, init_mmc_for_env. cbn [find_mmc_device card_mmc negb mmc_init mmc_select_hwpart].
  change (CONFIG_SYS_MMC_ENV_PART =? 0) with true. change (truthy 0) with false. cbv iota. rewrite Eex. cbn [mbind option_bind fst snd].
  change (truthy 0) with false. cbv iota. unfold write_env. cbn [write_bl_len card_mmc]. destruct env_blocks as [-> ->].
  cbn [block_write card_mmc]. rewrite Hd. rewrite Z.eqb_refl. eexists. reflexivity.
Qed.

