(* ===== verification/NetSum.v ===== *)
(** The Internet checksum: uboot/net/checksum.c.

    A buffer is the list of its bytes; the processor is little-endian.  [None] is
    undefined behaviour: a read past the buffer, or an overflow of the [int] the
    sum is kept in. *)
From S2P Require Import Prelude Crc32.

(** [nbytes] bytes from [ptr] on are added to [sum], two at a time. *)
Fixpoint sum_words (nbytes : nat) (ptr : list Z) (sum : Z) : option Z :=
  match nbytes with
  | S (S nbytes) =>
      lo ← ptr !! 0%nat; hi ← ptr !! 1%nat;
      let sum := sum + (lo .| (hi << 8)) in
      if sum <? 2 ^ 31 then sum_words nbytes (drop 2 ptr) sum else None
  | 1%nat =>
      oddbyte ← ptr !! 0%nat;
      let sum := sum + oddbyte in
      if sum <? 2 ^ 31 then Some sum else None
  | O => Some sum
  end.

Definition compute_ip_checksum (vptr : list Z) (nbytes : nat) : option Z :=
  sum ← sum_words nbytes vptr 0;
  let sum := (sum >> 16) + (sum .& 0xffff) in
  let sum := sum + (sum >> 16) in
  Some (Z.lnot sum .& 0xffff).

Definition add_ip_checksums (offset sum new : Z) : Z :=
  let sum := Z.lnot sum .& 0xffff in
  let new := Z.lnot new .& 0xffff in
  let new := if truthy (offset .& 1) then ((new >> 8) .& 0xff) .| ((new << 8) .& 0xff00) else new in
  let checksum := sum + new in
  let checksum := if 0xffff <? checksum then checksum - 0xffff else checksum in
  Z.lnot checksum .& 0xffff.

Definition ip_checksum_ok (addr : list Z) (nbytes : nat) : option Z :=
  sum ← compute_ip_checksum addr nbytes; Some (Z.b2z (negb (truthy (sum .& 0xfffe)))).

(** ** What it computes: the bytes as one number, modulo 65535 *)
Fixpoint number_of (bs : list Z) : Z := match bs with [] => 0 | b :: bs => b + 256 * number_of bs end.

Definition congruent (a b : Z) : Prop := exists k, a = b + k * 65535.

(** [r] stands for [z]: the one's complement sum of words that add up to [z]. *)
Definition ones_sum (z r : Z) : Prop := congruent r z /\ 0 <= r <= 65535 /\ (r = 0 <-> z = 0).

Lemma number_of_app a b : number_of (a ++ b) = number_of a + 256 ^ Z.of_nat (length a) * number_of b.
Proof.
  induction a as [|x a IH]; [simpl; lia|]. simpl app. cbn [number_of length]. rewrite IH.
  rewrite Nat2Z.inj_succ, Z.pow_succ_r by lia. lia.
Qed.
Lemma number_of_nonneg bs : Forall byte bs -> 0 <= number_of bs.
Proof. induction 1 as [|b bs Hb _ IH]; [done|]. cbn [number_of]. unfold byte, fits in Hb. lia. Qed.
Lemma number_of_zero bs : Forall byte bs -> number_of bs = 0 <-> Forall (fun b => b = 0) bs.
Proof.
  induction 1 as [|b bs Hb Hbs IH]; [done|]. cbn [number_of]. pose proof (number_of_nonneg bs Hbs).
  unfold byte, fits in Hb. rewrite list.Forall_cons. split; [intros E; split; [lia|apply IH; lia]|].
  intros [-> E%IH]. lia.
Qed.

(** The representative is determined. *)
Lemma ones_sum_unique z z' r r' : 0 <= z -> 0 <= z' -> congruent z z' -> (z = 0 <-> z' = 0) ->
  ones_sum z r -> ones_sum z' r' -> r = r'.
Proof.
  intros Hz Hz' [k Hk] H0 ([a Ha] & Hr & Hr0) ([b Hb] & Hr' & Hr0').
  assert (r - r' = (k + a - b) * 65535) by lia.
  destruct (Z.eq_dec r 0) as [Er|Er], (Z.eq_dec r' 0) as [Er'|Er']; [lia| | |].
  - apply Hr0, H0, Hr0' in Er. lia.
  - apply Hr0', H0, Hr0 in Er'. lia.
  - assert (k + a - b = 0) by lia. lia.
Qed.

Lemma lor_bytes lo hi : byte lo -> byte hi -> lo .| (hi << 8) = lo + 256 * hi.
Proof.
  intros Hlo Hhi. rewrite lor_byte by done. rewrite <- Z.add_nocarry_lxor; [rewrite Z.shiftl_mul_pow2 by lia; lia|].
  apply Z.bits_inj'. intros i Hi. autorewrite with bits. rewrite Z.bits_0.
  destruct (Z.lt_ge_cases i 8).
  - rewrite (Z.testbit_neg_r hi) by lia. apply andb_false_r.
  - by rewrite (testbit_above 8 lo) by (done || lia).
Qed.

Lemma run_sum_words k : forall nbytes ptr sum, (nbytes <= k)%nat -> Forall byte ptr -> (nbytes <= length ptr)%nat ->
  0 <= sum -> sum + 65535 * Z.of_nat ((nbytes + 1) / 2) < 2 ^ 31 ->
  exists s, sum_words nbytes ptr sum = Some s /\ sum <= s < 2 ^ 31 /\
    congruent s (sum + number_of (take nbytes ptr)) /\ (s = 0 <-> sum + number_of (take nbytes ptr) = 0).
Proof.
  induction k as [|k IH]; intros [|[|nbytes]] ptr sum Hk Hp Hl Hs Hb; try lia; cbn [sum_words];
    try (exists sum; split; [done|split; [lia|split; [exists 0; simpl; lia|simpl; lia]]]).
  - destruct ptr as [|b ptr]; [simpl in Hl; lia|]. apply list.Forall_cons in Hp as [Hp _]. cbn [lookup list_lookup mbind option_bind].
    simpl in Hb. unfold byte, fits in Hp. destruct (Z.ltb_spec (sum + b) (2 ^ 31)) as [_|]; [|lia].
    exists (sum + b). split; [done|]. split; [lia|]. simpl. split; [exists 0; lia|lia].
  - destruct ptr as [|lo [|hi ptr]]; [simpl in Hl; lia..|].
    apply list.Forall_cons in Hp as [Hlo [Hhi Hp]%list.Forall_cons]. cbn [lookup list_lookup mbind option_bind skipn]. rewrite ?drop_0.
    rewrite lor_bytes by done. unfold byte, fits in Hlo, Hhi.
    replace ((S (S nbytes) + 1) / 2)%nat with (S ((nbytes + 1) / 2)) in Hb
      by (replace (S (S nbytes) + 1)%nat with (nbytes + 1 + 1 * 2)%nat by lia; rewrite Nat.div_add by lia; lia).
    destruct (Z.ltb_spec (sum + (lo + 256 * hi)) (2 ^ 31)) as [_|]; [|lia].
    destruct (IH nbytes ptr (sum + (lo + 256 * hi))) as (s & -> & Hle & [c Hc] & Hz); [lia|done|simpl in Hl; lia|lia|lia|].
    pose proof (number_of_nonneg (take nbytes ptr) (Forall_take _ _ _ Hp)).
    exists s. split; [done|]. split; [lia|]. cbn [take number_of].
    split; [exists (c - number_of (take nbytes ptr)); lia|]. rewrite Hz. lia.
Qed.

Lemma fold_sum s : 0 <= s < 2 ^ 31 ->
  let s1 := (s >> 16) + (s .& 0xffff) in
  exists r, Z.lnot (s1 + (s1 >> 16)) .& 0xffff = 65535 - r /\ ones_sum s r.
Proof.
  intros Hs s1. unfold s1. change 0xffff with (Z.ones 16). rewrite !Z.land_ones, !Z.shiftr_div_pow2 by lia.
  change (2 ^ 16) with 65536. set (a := s / 65536 + s mod 65536). assert (0 <= a < 98304) as Ha by (unfold a; dlia).
  assert (congruent a s) as [k Hk] by (exists (- (s / 65536)); unfold a; dlia).
  assert (a = 0 <-> s = 0) as H0 by (unfold a; dlia).
  assert (forall x, Z.lnot x mod 65536 = 65535 - x mod 65536) as Hnot by (intros x; unfold Z.lnot; dlia).
  rewrite Hnot. exists ((a + a / 65536) mod 65536). split; [done|].
  destruct (Z.lt_ge_cases a 65536).
  - assert ((a + a / 65536) mod 65536 = a) as -> by dlia. split; [by exists k|]. split; [lia|done].
  - assert ((a + a / 65536) mod 65536 = a - 65535) as -> by dlia. split; [exists (k - 1); lia|]. split; [lia|lia].
Qed.

(** What [compute_ip_checksum] returns, in one's complement. *)
Lemma run_checksum l : Forall byte l -> Z.of_nat (length l) <= 65535 ->
  exists r, compute_ip_checksum l (length l) = Some (65535 - r) /\ ones_sum (number_of l) r.
Proof.
  intros Hl Hn. unfold compute_ip_checksum.
  destruct (run_sum_words (length l) (length l) l 0) as (s & -> & Hs & [c Hc] & H0); [done|done|done|lia| |].
  { rewrite Nat2Z.inj_div, Nat2Z.inj_add. dlia. }
  rewrite firstn_all in *. cbn [mbind option_bind].
  destruct (fold_sum s) as (r & -> & [d Hd] & Hr & Hr0); [lia|]. exists r. split; [done|].
  split; [exists (c + d); lia|]. split; [done|]. rewrite Hr0, H0. lia.
Qed.

Lemma ones_sum_range z r : ones_sum z r -> 0 <= r <= 65535.
Proof. by intros (_ & ? & _). Qed.

Lemma pow256 k : congruent (256 ^ Z.of_nat k) (if Nat.even k then 1 else 256).
Proof.
  induction k as [|k [c Hc]]; [by exists 0|]. rewrite Nat2Z.inj_succ, Z.pow_succ_r, Hc by lia.
  rewrite Nat.even_succ, <- Nat.negb_even. destruct (Nat.even k); cbn [negb]; [exists (256 * c)|exists (256 * c + 1)]; lia.
Qed.
Lemma odd_of_nat k : Z.odd (Z.of_nat k) = negb (Nat.even k).
Proof.
  induction k as [|k IH]; [done|]. rewrite Nat2Z.inj_succ, Z.odd_succ, Nat.even_succ, <- Z.negb_odd, IH.
  by rewrite <- Nat.negb_even.
Qed.

(** A 16-bit number with its bytes swapped. *)
Lemma swap_bytes x : 0 <= x <= 65535 ->
  exists y, ((x >> 8) .& 0xff) .| ((x << 8) .& 0xff00) = y /\ congruent y (256 * x) /\ 0 <= y <= 65535 /\ (y = 0 <-> x = 0).
Proof.
  intros Hx. set (hi := x / 256). set (lo := x mod 256).
  assert (byte hi /\ byte lo) as [Hhi Hlo] by (unfold byte, fits, hi, lo; dlia).
  assert ((x >> 8) .& 0xff = hi) as ->.
  { change 0xff with (Z.ones 8). rewrite Z.land_ones, Z.shiftr_div_pow2 by lia. change (2 ^ 8) with 256.
    fold hi. apply Z.mod_small. exact Hhi. }
  assert ((x << 8) .& 0xff00 = lo << 8) as ->.
  { change 0xff00 with (Z.ones 8 << 8). rewrite <- Z.shiftl_land. f_equal. rewrite Z.land_ones by lia. done. }
  eexists. split; [apply lor_bytes; done|]. unfold byte, fits in *. unfold hi, lo in *.
  split; [exists (- (x / 256)); dlia|]. split; [dlia|]. dlia.
Qed.

Lemma run_add_checksums offset z z' r r' : 0 <= z -> 0 <= z' -> 0 <= offset -> ones_sum z r -> ones_sum z' r' ->
  exists q, add_ip_checksums offset (65535 - r) (65535 - r') = 65535 - q /\
    ones_sum (z + 256 ^ offset * z') q.
Proof.
  intros Hz Hz' Ho ([a Ha] & Hr & Hr0) ([b Hb] & Hr' & Hr0'). unfold add_ip_checksums.
  assert (forall x, 0 <= x <= 65535 -> Z.lnot x .& 0xffff = 65535 - x) as Hnot.
  { intros x Hx. change (Z.lnot x .& Z.ones 16 = 65535 - x). rewrite Z.land_ones by lia. change (2 ^ 16) with 65536. unfold Z.lnot. dlia. }
  rewrite (Hnot (65535 - r)), (Hnot (65535 - r')) by lia. replace (65535 - (65535 - r)) with r by lia. replace (65535 - (65535 - r')) with r' by lia.
  assert (exists y, (if truthy (offset .& 1) then ((r' >> 8) .& 0xff) .| ((r' << 8) .& 0xff00) else r') = y /\
    congruent y (256 ^ offset * z') /\ 0 <= y <= 65535 /\ (y = 0 <-> z' = 0)) as (y & -> & [c Hc] & Hy & Hy0).
  { change (offset .& 1) with (offset .& (1 << 0)). rewrite (truthy_land_bit offset 0), Z.bit0_odd by lia. destruct (pow256 (Z.to_nat offset)) as [k Hk].
    pose proof (odd_of_nat (Z.to_nat offset)) as Hodd. rewrite Z2Nat.id in Hk, Hodd by lia. rewrite Hodd.
    destruct (Nat.even (Z.to_nat offset)); cbn [negb].
    - exists r'. split; [done|]. split; [exists (b - k * z'); lia|]. split; [lia|done].
    - destruct (swap_bytes r') as (y & -> & [d Hd] & Hy & Hy0); [lia|]. exists y. split; [done|].
      split; [exists (d + 256 * b - k * z'); lia|]. split; [lia|]. by rewrite Hy0. }
  assert (0 < 256 ^ offset) by (apply Z.pow_pos_nonneg; lia).
  assert (z + 256 ^ offset * z' = 0 <-> z = 0 /\ z' = 0) as Hsum by nia.
  set (q := if 0xffff <? r + y then r + y - 0xffff else r + y).
  assert (0 <= q <= 65535 /\ (q = 0 <-> r = 0 /\ y = 0) /\ congruent q (r + y)) as (Hq & Hq0 & [d Hd]).
  { unfold q. destruct (Z.ltb_spec 0xffff (r + y)).
    - split; [lia|]. split; [lia|]. exists (-1). lia.
    - split; [lia|]. split; [lia|]. exists 0. lia. }
  exists q. split; [by apply Hnot|]. split; [exists (d + a + c); lia|]. split; [done|].
  rewrite Hq0, Hsum, Hr0, Hy0. done.
Qed.

(** C10: the checksum of a buffer is the sum of the checksums of its parts: adding
    the checksum of the second part with add_ip_checksums, at the length of the first
    part, gives the checksum of the whole, for odd lengths too. *)
Theorem checksum_of_parts a b : Forall byte a -> Forall byte b -> Z.of_nat (length a + length b) <= 65535 ->
  exists ca cb, compute_ip_checksum a (length a) = Some ca /\ compute_ip_checksum b (length b) = Some cb /\
    compute_ip_checksum (a ++ b) (length (a ++ b)) = Some (add_ip_checksums (Z.of_nat (length a)) ca cb).
Proof.
  intros Ha Hb Hl. destruct (run_checksum a) as (r & -> & Hr); [done|lia|]. destruct (run_checksum b) as (r' & -> & Hr'); [done|lia|].
  destruct (run_checksum (a ++ b)) as (q & -> & Hq); [by apply Forall_app|rewrite length_app; lia|].
  exists (65535 - r), (65535 - r'). split; [done|]. split; [done|]. rewrite number_of_app in Hq.
  destruct (run_add_checksums (Z.of_nat (length a)) _ _ r r' (number_of_nonneg a Ha) (number_of_nonneg b Hb)) as (q' & -> & Hq');
    [lia|done|done|].
  pose proof (number_of_nonneg a Ha). pose proof (number_of_nonneg b Hb).
  assert (0 < 256 ^ Z.of_nat (length a)) by (apply Z.pow_pos_nonneg; lia).
  do 2 f_equal. refine (ones_sum_unique _ _ q q' _ _ _ _ Hq Hq'); [nia|nia|exists 0; lia|done].
Qed.
Lemma checksum_of_parts_witness : exists ca cb,
  compute_ip_checksum [1; 2; 3] 3 = Some ca /\ compute_ip_checksum [4; 5] 2 = Some cb /\
  compute_ip_checksum [1; 2; 3; 4; 5] 5 = Some (add_ip_checksums 3 ca cb).
Proof.
  apply (checksum_of_parts [1; 2; 3] [4; 5]); [by repeat constructor; unfold byte, fits; lia..|simpl; lia].
Defined.

(** The checksum put into a field that was zero makes the sum a multiple of 65535. *)
Lemma run_checksum_put a b c : Forall byte a -> Forall byte b -> Nat.even (length a) = true -> Z.of_nat (length a + length b) <= 65533 ->
  compute_ip_checksum (a ++ [0; 0] ++ b) (length a + (2 + length b)) = Some c ->
  0 <= c <= 65535 /\
  compute_ip_checksum (a ++ [u8 c; u8 (c >> 8)] ++ b) (length a + (2 + length b)) = Some 0.
Proof.
  intros Ha Hb He Hl Hc. assert (byte 0) as Hby by (unfold byte, fits; lia).
  destruct (run_checksum (a ++ [0; 0] ++ b)) as (r & Hr & ([k Hk] & Hr1 & Hr2)); [rewrite !Forall_app; by repeat constructor|
    rewrite !length_app; simpl; lia|].
  rewrite !length_app in Hr. cbn [length] in Hr. simpl Nat.add in Hr, Hc. rewrite Hr in Hc. injection Hc as <-. split; [lia|].
  set (c := 65535 - r). assert (Forall byte [u8 c; u8 (c >> 8)]) as Hcb by (repeat constructor; apply u8_fits).
  destruct (run_checksum (a ++ [u8 c; u8 (c >> 8)] ++ b)) as (q & Hq & ([d Hd] & Hq1 & Hq2)); [by rewrite !Forall_app|
    rewrite !length_app; simpl; lia|].
  rewrite !length_app in Hq. cbn [length] in Hq. simpl Nat.add in Hq |- *. rewrite Hq. f_equal.
  rewrite !(number_of_app a) in *. cbn [app number_of] in *.
  pose proof (number_of_nonneg a Ha). pose proof (number_of_nonneg b Hb).
  destruct (pow256 (length a)) as [j Hj]. rewrite He in Hj.
  assert (u8 c + 256 * u8 (c >> 8) = c) as Hcc.
  { unfold u8. rewrite Z.shiftr_div_pow2 by lia. unfold c. dlia. }
  assert (0 < 256 ^ Z.of_nat (length a)) as Hp by (apply Z.pow_pos_nonneg; lia).
  set (p := 256 ^ Z.of_nat (length a)) in *. clearbody p.
  set (old := number_of a + p * (0 + 256 * (0 + 256 * number_of b))) in *.
  assert (0 <= old) by (unfold old; lia).
  assert (number_of a + p * (u8 c + 256 * (u8 (c >> 8) + 256 * number_of b)) = old + p * c) as Hnew
    by (replace (p * c) with (p * (u8 c + 256 * u8 (c >> 8))) by (f_equal; lia); unfold old; ring).
  rewrite Hnew in Hd, Hq2. clearbody old.
  assert (q = 65535 * (1 + d - k + j * c)) by (rewrite Hd, Hj; replace old with (r - k * 65535) by lia; unfold c; ring).
  assert (0 <= p * c) by (apply Z.mul_nonneg_nonneg; unfold c; lia).
  assert (q <> 0).
  { intros E. apply Hq2 in E. assert (old = 0) as E0 by lia. apply Hr2 in E0.
    assert (c = 65535) as Ec by (unfold c; lia). rewrite Ec in *. lia. }
  lia.
Qed.

(** a header whose checksum was computed over it with the checksum field zero,
    and then stored in that field, is accepted by ip_checksum_ok. *)
Theorem checksum_accepted a b c : Forall byte a -> Forall byte b -> Nat.even (length a) = true ->
  Z.of_nat (length a + length b) <= 65533 ->
  compute_ip_checksum (a ++ [0; 0] ++ b) (length a + (2 + length b)) = Some c ->
  ip_checksum_ok (a ++ [u8 c; u8 (c >> 8)] ++ b) (length a + (2 + length b)) = Some 1.
Proof.
  intros Ha Hb He Hl Hc. unfold ip_checksum_ok.
  by destruct (run_checksum_put a b c Ha Hb He Hl Hc) as [_ ->].
Qed.
Lemma checksum_accepted_witness :
  ip_checksum_ok ([0x45; 0] ++ [u8 0xFFAB; u8 (0xFFAB >> 8)] ++ [0x0F; 0]) 6 = Some 1.
Proof.
  apply (checksum_accepted [0x45; 0] [0x0F; 0] 0xFFAB); [by repeat constructor; unfold byte, fits; lia..|done|simpl; lia|done].
Defined.

(** The lowest bit of the sum is not looked at: a header that is off by one is
    accepted, too. *)
Lemma checksum_off_by_one :
  ip_checksum_ok [0x45; 0; 0xAB; 0xFF; 0x0F; 0] 6 = Some 1 /\ ip_checksum_ok [0x44; 0; 0xAB; 0xFF; 0x0F; 0] 6 = Some 1.
Proof. done. Qed.
