(* ===== verification/NetState.v ===== *)
(** The state of the boot loader's network code (uboot/net) and the monad its
    functions are written in.

    The variables of net.c, arp.c, ping.c and tftp.c are one record; each field has
    the C name ([tftp_time_start] is tftp.c's [time_start]).  A function is a
    computation of the monad [N]: from a state to its result and the state
    afterwards, or to [None], undefined behaviour (an access outside a buffer).
    Packet buffers are lists of bytes.  The timer is a parameter: the [k]th read of
    it in a run gives [ticks k]; so are the Ethernet devices, the class
    [Ethernet]. *)
From S2P Require Import Prelude Htab.

(** [enum net_loop_state] and [enum proto_t] *)
Inductive net_loop_state := NETLOOP_CONTINUE | NETLOOP_RESTART | NETLOOP_SUCCESS | NETLOOP_FAIL.
Inductive proto_t :=
  | BOOTP | RARP | ARP | TFTPGET | DHCP | PING | DNS | NFS | CDP | NETCONS | SNTP | TFTPSRV | TFTPPUT | LINKLOCAL.

(** The functions installed as handlers of packets and timeouts; [other]: those of
    protocols that are not modelled. *)
Inductive rxhand := dummy_handler | tftp_handler | other_handler.
Inductive thand := start_again_timeout_handler | ping_timeout_handler | tftp_timeout_handler | other_timeout_handler.
(** What [arp_wait_packet_ethaddr] points to. *)
Inductive ether_ptr := net_server_ethaddr_ptr | net_bcast_ethaddr_ptr.

#[export] Instance net_loop_state_eq_dec : EqDecision net_loop_state.
Proof. solve_decision. Defined.
#[export] Instance proto_t_eq_dec : EqDecision proto_t.
Proof. solve_decision. Defined.

Record net := Net {
  (** net.c: addresses, as the processor reads them from network order *)
  net_ip : Z;
  net_netmask : Z;
  net_gateway : Z;
  net_server_ip : Z;
  net_ethaddr : list Z;
  net_server_ethaddr : list Z;
  net_our_vlan : Z;
  net_native_vlan : Z;
  (** net.c: the loop *)
  net_state : net_loop_state;
  net_restart_wrap : bool;
  net_restarted : bool;
  net_dev_exists : bool;
  net_try_count : Z;
  udp_packet_handler : rxhand;
  arp_packet_handler : rxhand;
  time_handler : option thand;
  time_start : Z;
  time_delta : Z;
  (** net.c: packets and the boot file *)
  net_rx_packet : list Z;
  net_rx_packet_len : Z;
  net_tx_packet : list Z;
  net_ip_id : Z;
  net_boot_file_name : cstr;
  net_boot_file_size : Z;
  (** arp.c *)
  net_arp_wait_packet_ip : Z;
  net_arp_wait_reply_ip : Z;
  arp_wait_packet_ethaddr : option ether_ptr;
  arp_wait_tx_packet_size : Z;
  arp_wait_timer_start : Z;
  arp_wait_try : Z;
  arp_tx_packet : list Z;
  (** ping.c *)
  ping_seq_number : Z;
  net_ping_ip : Z;
  (** tftp.c *)
  timeout_ms : Z;
  timeout_count_max : Z;
  tftp_time_start : Z;
  tftp_timeout_count_max : Z;
  tftp_remote_ip : Z;
  tftp_remote_port : Z;
  tftp_our_port : Z;
  timeout_count : Z;
  tftp_cur_block : Z;
  tftp_prev_block : Z;
  tftp_block_wrap : Z;
  tftp_block_wrap_offset : Z;
  tftp_state : Z;
  tftp_filename : cstr;
  tftp_block_size : Z;
  tftp_block_size_option : Z;
  (** eth_legacy.c, eth_common.c: the current device and [first_failed], as places in the ring; the number of [init] calls *)
  eth_current : nat;
  first_failed : option nat;
  eth_inits : nat;
  (** outside: the memory, the load address, the timer reads so far, the frames sent, and the numbers put in the environment *)
  mem : Z -> Z;
  load_addr : Z;
  timer_reads : nat;
  sent : list (list Z);
  env_hex : list (cstr * Z)
}.

(** ** Updating one field: [s <| f := v |>] *)
Class Setter {R T : Type} (p : R -> T) := put : T -> R -> R.
Arguments put {R T} p {_} _ _ /.
Notation "s <| p := v |>" := (put p v s) (at level 1, left associativity, format "s  <|  p  :=  v  |>").

(** The record rebuilt from its fields. *)
Definition rebuild (s : net) : net := {|
  net_ip := net_ip s; net_netmask := net_netmask s; net_gateway := net_gateway s;
  net_server_ip := net_server_ip s; net_ethaddr := net_ethaddr s; net_server_ethaddr := net_server_ethaddr s;
  net_our_vlan := net_our_vlan s; net_native_vlan := net_native_vlan s; net_state := net_state s;
  net_restart_wrap := net_restart_wrap s; net_restarted := net_restarted s;
  net_dev_exists := net_dev_exists s; net_try_count := net_try_count s;
  udp_packet_handler := udp_packet_handler s; arp_packet_handler := arp_packet_handler s;
  time_handler := time_handler s; time_start := time_start s; time_delta := time_delta s;
  net_rx_packet := net_rx_packet s; net_rx_packet_len := net_rx_packet_len s;
  net_tx_packet := net_tx_packet s; net_ip_id := net_ip_id s; net_boot_file_name := net_boot_file_name s;
  net_boot_file_size := net_boot_file_size s; net_arp_wait_packet_ip := net_arp_wait_packet_ip s;
  net_arp_wait_reply_ip := net_arp_wait_reply_ip s; arp_wait_packet_ethaddr := arp_wait_packet_ethaddr s;
  arp_wait_tx_packet_size := arp_wait_tx_packet_size s; arp_wait_timer_start := arp_wait_timer_start s;
  arp_wait_try := arp_wait_try s; arp_tx_packet := arp_tx_packet s; ping_seq_number := ping_seq_number s;
  net_ping_ip := net_ping_ip s; timeout_ms := timeout_ms s; timeout_count_max := timeout_count_max s;
  tftp_time_start := tftp_time_start s; tftp_timeout_count_max := tftp_timeout_count_max s;
  tftp_remote_ip := tftp_remote_ip s; tftp_remote_port := tftp_remote_port s;
  tftp_our_port := tftp_our_port s; timeout_count := timeout_count s; tftp_cur_block := tftp_cur_block s;
  tftp_prev_block := tftp_prev_block s; tftp_block_wrap := tftp_block_wrap s;
  tftp_block_wrap_offset := tftp_block_wrap_offset s; tftp_state := tftp_state s;
  tftp_filename := tftp_filename s; tftp_block_size := tftp_block_size s;
  tftp_block_size_option := tftp_block_size_option s; eth_current := eth_current s;
  first_failed := first_failed s; eth_inits := eth_inits s; mem := mem s; load_addr := load_addr s;
  timer_reads := timer_reads s; sent := sent s; env_hex := env_hex s |}.

(** The setter of a field puts the new value where [rebuild] reads the field. *)
Ltac make_setter p :=
  match type of p with
  | ?R -> ?T =>
      exact (fun (v : T) (s : R) =>
        ltac:(let e := eval unfold rebuild in (rebuild s) in
              let e := eval pattern (p s) in e in
              match e with ?g _ => let t := eval cbv beta in (g v) in exact t end))
  end.

#[export] Instance set_net_ip : Setter net_ip := ltac:(make_setter net_ip).
#[export] Instance set_net_netmask : Setter net_netmask := ltac:(make_setter net_netmask).
#[export] Instance set_net_gateway : Setter net_gateway := ltac:(make_setter net_gateway).
#[export] Instance set_net_server_ip : Setter net_server_ip := ltac:(make_setter net_server_ip).
#[export] Instance set_net_ethaddr : Setter net_ethaddr := ltac:(make_setter net_ethaddr).
#[export] Instance set_net_server_ethaddr : Setter net_server_ethaddr := ltac:(make_setter net_server_ethaddr).
#[export] Instance set_net_our_vlan : Setter net_our_vlan := ltac:(make_setter net_our_vlan).
#[export] Instance set_net_native_vlan : Setter net_native_vlan := ltac:(make_setter net_native_vlan).
#[export] Instance set_net_state : Setter net_state := ltac:(make_setter net_state).
#[export] Instance set_net_restart_wrap : Setter net_restart_wrap := ltac:(make_setter net_restart_wrap).
#[export] Instance set_net_restarted : Setter net_restarted := ltac:(make_setter net_restarted).
#[export] Instance set_net_dev_exists : Setter net_dev_exists := ltac:(make_setter net_dev_exists).
#[export] Instance set_net_try_count : Setter net_try_count := ltac:(make_setter net_try_count).
#[export] Instance set_udp_packet_handler : Setter udp_packet_handler := ltac:(make_setter udp_packet_handler).
#[export] Instance set_arp_packet_handler : Setter arp_packet_handler := ltac:(make_setter arp_packet_handler).
#[export] Instance set_time_handler : Setter time_handler := ltac:(make_setter time_handler).
#[export] Instance set_time_start : Setter time_start := ltac:(make_setter time_start).
#[export] Instance set_time_delta : Setter time_delta := ltac:(make_setter time_delta).
#[export] Instance set_net_rx_packet : Setter net_rx_packet := ltac:(make_setter net_rx_packet).
#[export] Instance set_net_rx_packet_len : Setter net_rx_packet_len := ltac:(make_setter net_rx_packet_len).
#[export] Instance set_net_tx_packet : Setter net_tx_packet := ltac:(make_setter net_tx_packet).
#[export] Instance set_net_ip_id : Setter net_ip_id := ltac:(make_setter net_ip_id).
#[export] Instance set_net_boot_file_name : Setter net_boot_file_name := ltac:(make_setter net_boot_file_name).
#[export] Instance set_net_boot_file_size : Setter net_boot_file_size := ltac:(make_setter net_boot_file_size).
#[export] Instance set_net_arp_wait_packet_ip : Setter net_arp_wait_packet_ip := ltac:(make_setter net_arp_wait_packet_ip).
#[export] Instance set_net_arp_wait_reply_ip : Setter net_arp_wait_reply_ip := ltac:(make_setter net_arp_wait_reply_ip).
#[export] Instance set_arp_wait_packet_ethaddr : Setter arp_wait_packet_ethaddr := ltac:(make_setter arp_wait_packet_ethaddr).
#[export] Instance set_arp_wait_tx_packet_size : Setter arp_wait_tx_packet_size := ltac:(make_setter arp_wait_tx_packet_size).
#[export] Instance set_arp_wait_timer_start : Setter arp_wait_timer_start := ltac:(make_setter arp_wait_timer_start).
#[export] Instance set_arp_wait_try : Setter arp_wait_try := ltac:(make_setter arp_wait_try).
#[export] Instance set_arp_tx_packet : Setter arp_tx_packet := ltac:(make_setter arp_tx_packet).
#[export] Instance set_ping_seq_number : Setter ping_seq_number := ltac:(make_setter ping_seq_number).
#[export] Instance set_net_ping_ip : Setter net_ping_ip := ltac:(make_setter net_ping_ip).
#[export] Instance set_timeout_ms : Setter timeout_ms := ltac:(make_setter timeout_ms).
#[export] Instance set_timeout_count_max : Setter timeout_count_max := ltac:(make_setter timeout_count_max).
#[export] Instance set_tftp_time_start : Setter tftp_time_start := ltac:(make_setter tftp_time_start).
#[export] Instance set_tftp_timeout_count_max : Setter tftp_timeout_count_max := ltac:(make_setter tftp_timeout_count_max).
#[export] Instance set_tftp_remote_ip : Setter tftp_remote_ip := ltac:(make_setter tftp_remote_ip).
#[export] Instance set_tftp_remote_port : Setter tftp_remote_port := ltac:(make_setter tftp_remote_port).
#[export] Instance set_tftp_our_port : Setter tftp_our_port := ltac:(make_setter tftp_our_port).
#[export] Instance set_timeout_count : Setter timeout_count := ltac:(make_setter timeout_count).
#[export] Instance set_tftp_cur_block : Setter tftp_cur_block := ltac:(make_setter tftp_cur_block).
#[export] Instance set_tftp_prev_block : Setter tftp_prev_block := ltac:(make_setter tftp_prev_block).
#[export] Instance set_tftp_block_wrap : Setter tftp_block_wrap := ltac:(make_setter tftp_block_wrap).
#[export] Instance set_tftp_block_wrap_offset : Setter tftp_block_wrap_offset := ltac:(make_setter tftp_block_wrap_offset).
#[export] Instance set_tftp_state : Setter tftp_state := ltac:(make_setter tftp_state).
#[export] Instance set_tftp_filename : Setter tftp_filename := ltac:(make_setter tftp_filename).
#[export] Instance set_tftp_block_size : Setter tftp_block_size := ltac:(make_setter tftp_block_size).
#[export] Instance set_tftp_block_size_option : Setter tftp_block_size_option := ltac:(make_setter tftp_block_size_option).
#[export] Instance set_eth_current : Setter eth_current := ltac:(make_setter eth_current).
#[export] Instance set_first_failed : Setter first_failed := ltac:(make_setter first_failed).
#[export] Instance set_eth_inits : Setter eth_inits := ltac:(make_setter eth_inits).
#[export] Instance set_mem : Setter mem := ltac:(make_setter mem).
#[export] Instance set_load_addr : Setter load_addr := ltac:(make_setter load_addr).
#[export] Instance set_timer_reads : Setter timer_reads := ltac:(make_setter timer_reads).
#[export] Instance set_sent : Setter sent := ltac:(make_setter sent).
#[export] Instance set_env_hex : Setter env_hex := ltac:(make_setter env_hex).

(** ** The monad *)
Definition N (A : Type) : Type := net -> option (A * net).
#[export] Instance N_ret : MRet N := fun _ a s => Some (a, s).
#[export] Instance N_bind : MBind N := fun _ _ f m s =>
  match m s with Some (a, s) => f a s | None => None end.
Definition undefined {A} : N A := fun _ => None.
Definition lift {A} (m : option A) : N A := fun s => match m with Some a => Some (a, s) | None => None end.
Definition read {A} (p : net -> A) : N A := fun s => Some (p s, s).
Definition assign {A} (p : net -> A) `{!Setter p} (a : A) : N unit := fun s => Some (tt, s <| p := a |>).
Notation "p ::= a" := (assign p a) (at level 75).

(** *** Steps *)
Section Steps.
Context {A B : Type} (s : net).
Lemma bind_some (m : N A) (f : A -> N B) a s' : m s = Some (a, s') -> (m ≫= f) s = f a s'.
Proof. unfold mbind, N_bind. by intros ->. Qed.
Lemma bind_read (p : net -> A) (f : A -> N B) : (read p ≫= f) s = f (p s) s.
Proof. done. Qed.
Lemma bind_assign (p : net -> A) `{!Setter p} (a : A) (f : unit -> N B) : ((p ::= a) ≫= f) s = f tt (s <| p := a |>).
Proof. done. Qed.
Lemma bind_lift (m : option A) (f : A -> N B) a : m = Some a -> (lift m ≫= f) s = f a s.
Proof. by intros ->. Qed.
Lemma bind_ret (a : A) (f : A -> N B) : (mret a ≫= f) s = f a s.
Proof. done. Qed.
Lemma bind_bind {C} (m : N C) (g : C -> N A) (f : A -> N B) : ((m ≫= g) ≫= f) s = (m ≫= fun c => g c ≫= f) s.
Proof. unfold mbind, N_bind. by destruct (m s) as [[c s']|]. Qed.
End Steps.
(** The next statement is a read, an assignment, or a part put in front. *)
Ltac nstep := (rewrite bind_read || rewrite bind_assign || rewrite bind_ret || rewrite bind_bind); cbv beta.
Ltac nstep_in E := (rewrite bind_read in E || rewrite bind_assign in E || rewrite bind_ret in E || rewrite bind_bind in E); cbv beta in E.

(** ** Buffers *)

(** [n] bytes from [off] on; [bs] written from [off] on. *)
Definition load (off n : nat) (buf : list Z) : option (list Z) :=
  if (off + n <=? length buf)%nat then Some (take n (drop off buf)) else None.
Definition store (off : nat) (bs buf : list Z) : option (list Z) :=
  if (off + length bs <=? length buf)%nat then Some (take off buf ++ bs ++ drop (off + length bs) buf) else None.

(** The bytes of a 16-bit number in network order ([htons], [ntohs] as the bytes
    they leave and read), and of numbers in the processor's order. *)
Definition be16 (v : Z) : list Z := [u8 (v >> 8); u8 v].
Definition le16 (v : Z) : list Z := [u8 v; u8 (v >> 8)].
Definition le32 (v : Z) : list Z := [u8 v; u8 (v >> 8); u8 (v >> 16); u8 (v >> 24)].
Definition of_be16 (bs : list Z) : option Z :=
  match bs with [hi; lo] => Some (hi << 8 .| lo) | _ => None end.
Definition of_le32 (bs : list Z) : option Z :=
  match bs with [a; b; c; d] => Some (a .| (b << 8) .| (c << 16) .| (d << 24)) | _ => None end.

Definition load8 (off : nat) (buf : list Z) : option Z := buf !! off.
Definition load16 (off : nat) (buf : list Z) : option Z := bs ← load off 2 buf; of_be16 bs.
(** [net_read_ip], [net_write_ip], [net_copy_ip] *)
Definition net_read_ip (off : nat) (buf : list Z) : option Z := bs ← load off 4 buf; of_le32 bs.
Definition net_write_ip (off : nat) (ip : Z) (buf : list Z) : option (list Z) := store off (le32 ip) buf.
Definition net_copy_ip (to from : nat) (buf : list Z) : option (list Z) := bs ← load from 4 buf; store to bs buf.

(** The bytes of a 16-bit value exchanged. *)
Definition ntohs (v : Z) : Z := ((v .& 0xff) << 8) .| (v >> 8).

(** [bs] copied to the memory at [dst]. *)
Definition memcpy_to (dst : Z) (bs : list Z) (m : Z -> Z) : Z -> Z :=
  fun a => if (dst <=? a) && (a <? dst + Z.of_nat (length bs)) then nth (Z.to_nat (a - dst)) bs 0 else m a.

(** ** Timer, devices, and the setters of net.c and net.h *)
Class Ethernet := {
  eth_devices : nat;                (** how many there are *)
  dev_init : nat -> nat -> Z;       (** the result of a device's [init], the [k]th call *)
  dev_enetaddr : nat -> list Z      (** its address *)
}.

Section Basics.
Context (ticks : nat -> Z) (getenv : cstr -> option cstr).

Definition get_timer (base : Z) : N Z :=
  k ← read timer_reads; timer_reads ::= S k;; mret (u32 (ticks k - base)).

Definition net_set_state (state : net_loop_state) : N unit := net_state ::= state.
Definition net_set_udp_handler (f : option rxhand) : N unit :=
  udp_packet_handler ::= match f with None => dummy_handler | Some f => f end.
Definition net_set_arp_handler (f : option rxhand) : N unit :=
  arp_packet_handler ::= match f with None => dummy_handler | Some f => f end.
Definition net_set_timeout_handler (iv : Z) (f : option thand) : N unit :=
  if iv =? 0 then time_handler ::= None
  else
    time_handler ::= f;;
    t ← get_timer 0; time_start ::= t;;
    time_delta ::= u32 (iv * 1000) / 1000.
Definition net_clear_handlers : N unit :=
  net_set_udp_handler None;; net_set_arp_handler None;; net_set_timeout_handler 0 None.

Definition net_send_packet (pkt : list Z) (len : Z) : N unit :=
  if (0 <=? len) && (len <=? Z.of_nat (length pkt))
  then out ← read sent; sent ::= out ++ [take (Z.to_nat len) pkt] else undefined.

(** *** Devices *)
Context `{Ethernet}.

Definition eth_set_current_to_next : N unit :=
  cur ← read eth_current; eth_current ::= ((cur + 1) mod eth_devices)%nat.

(** no *)
Definition word_no : cstr := [110; 111].
Definition ethrotate : cstr := [101; 116; 104; 114; 111; 116; 97; 116; 101].
Definition eth_try_another (first_restart : bool) : N unit :=
  if (match getenv ethrotate with Some v => bool_decide (v = word_no) | None => false end) then mret tt
  else if (eth_devices =? 0)%nat then mret tt
  else
    (cur ← read eth_current; if first_restart then first_failed ::= Some cur else mret tt);;
    eth_set_current_to_next;;
    first ← read first_failed; cur ← read eth_current;
    if bool_decide (first = Some cur) then net_restart_wrap ::= true else mret tt.

(** The loop over the ring of devices, with [k] of them left to try. *)
Fixpoint eth_init_loop (k : nat) (old_current : nat) : N Z :=
  match k with
  | O => undefined
  | S k =>
      cur ← read eth_current; tries ← read eth_inits; eth_inits ::= S tries;;
      if 0 <=? dev_init cur tries then mret 0
      else
        eth_try_another false;;
        cur ← read eth_current;
        if bool_decide (old_current = cur) then mret (-110) else eth_init_loop k old_current
  end.
Definition eth_init : N Z :=
  if (eth_devices =? 0)%nat then mret (-19) else cur ← read eth_current; eth_init_loop eth_devices cur.
End Basics.

(** The variables as they are at the start, with the handlers and buffers that
    [net_init] sets up (a buffer has PKTSIZE_ALIGN bytes). *)
Definition net0 : net := {|
  net_ip := 0; net_netmask := 0; net_gateway := 0; net_server_ip := 0; net_ethaddr := replicate 6 0;
  net_server_ethaddr := replicate 6 0; net_our_vlan := 0xFFFF; net_native_vlan := 0xFFFF;
  net_state := NETLOOP_CONTINUE; net_restart_wrap := false; net_restarted := false; net_dev_exists := false;
  net_try_count := 0; udp_packet_handler := dummy_handler; arp_packet_handler := dummy_handler;
  time_handler := None; time_start := 0; time_delta := 0; net_rx_packet := []; net_rx_packet_len := 0;
  net_tx_packet := replicate 1536 0; net_ip_id := 0; net_boot_file_name := []; net_boot_file_size := 0;
  net_arp_wait_packet_ip := 0; net_arp_wait_reply_ip := 0; arp_wait_packet_ethaddr := None;
  arp_wait_tx_packet_size := 0; arp_wait_timer_start := 0; arp_wait_try := 0;
  arp_tx_packet := replicate 1536 0; ping_seq_number := 0; net_ping_ip := 0; timeout_ms := 5000;
  timeout_count_max := 10; tftp_time_start := 0; tftp_timeout_count_max := 10; tftp_remote_ip := 0;
  tftp_remote_port := 0; tftp_our_port := 0; timeout_count := 0; tftp_cur_block := 0; tftp_prev_block := 0;
  tftp_block_wrap := 0; tftp_block_wrap_offset := 0; tftp_state := 0; tftp_filename := [];
  tftp_block_size := 512; tftp_block_size_option := 1468; eth_current := 0%nat; first_failed := None;
  eth_inits := 0%nat; mem := fun _ => 0; load_addr := 0; timer_reads := 0%nat; sent := []; env_hex := [] |}.
