(* ===== verification/Net.v ===== *)
(** Packets: uboot/net/net.c, arp.c and ping.c, for the board's configuration (no
    defragmentation, no UDP checksum, no link-local addresses, no CDP).

    Headers are built and read at their offsets in the buffers, byte by byte.  The
    handlers that protocols install are called through [call_rxhand]; what they get
    is the rest of the receive buffer from the payload on.  Messages are left out. *)
From S2P Require Import Prelude Htab Strto NetSum NetState.

Definition PROT_IP : Z := 0x0800.
Definition PROT_ARP : Z := 0x0806.
Definition PROT_VLAN : Z := 0x8100.
Definition IPPROTO_ICMP : Z := 1.
Definition IPPROTO_UDP : Z := 17.
Definition IP_OFFS : Z := 0x1fff.
Definition IP_FLAGS_DFRAG : Z := 0x4000.
Definition IP_FLAGS_MFRAG : Z := 0x2000.
Definition VLAN_NONE : Z := 4095.
Definition VLAN_IDMASK : Z := 0x0fff.
Definition ARP_ETHER : Z := 1.
Definition ARP_HLEN : Z := 6.
Definition ARP_PLEN : Z := 4.
Definition ARPOP_REQUEST : Z := 1.
Definition ARPOP_REPLY : Z := 2.
Definition ICMP_ECHO_REPLY : Z := 0.
Definition ICMP_REDIRECT : Z := 5.
Definition ICMP_ECHO_REQUEST : Z := 8.
Definition ETHER_HDR_SIZE : nat := 14.
Definition VLAN_ETHER_HDR_SIZE : nat := 18.
Definition E802_HDR_SIZE : nat := 22.
Definition IP_HDR_SIZE : nat := 20.
Definition IP_UDP_HDR_SIZE : nat := 28.
Definition UDP_HDR_SIZE : nat := IP_UDP_HDR_SIZE - IP_HDR_SIZE.
Definition ICMP_HDR_SIZE : nat := 8.
Definition IP_ICMP_HDR_SIZE : nat := IP_HDR_SIZE + ICMP_HDR_SIZE.
Definition ARP_HDR_SIZE : nat := 8 + 20.
Definition ARP_TIMEOUT : Z := 5000.
Definition ARP_TIMEOUT_COUNT : Z := 5.
Definition net_bcast_ethaddr : list Z := replicate 6 0xff.
Definition net_null_ethaddr : list Z := replicate 6 0.

(** ** Building headers *)

(** The VLAN a stored tag stands for. *)
Definition vlan_of (tag : Z) : Z := let id := ntohs tag in if id =? 0xffff then VLAN_NONE else id.

Definition net_eth_hdr_size (s : net) : nat :=
  if vlan_of (net_our_vlan s) .& VLAN_IDMASK =? VLAN_NONE then ETHER_HDR_SIZE else VLAN_ETHER_HDR_SIZE.

(** The size of the header and the buffer. *)
Definition net_set_ether (s : net) (xet dest_ethaddr : list Z) (prot : Z) : option (nat * list Z) :=
  let myvlanid := vlan_of (net_our_vlan s) in
  xet ← store 0 dest_ethaddr xet;
  xet ← store 6 (net_ethaddr s) xet;
  if myvlanid .& VLAN_IDMASK =? VLAN_NONE then
    xet ← store 12 (be16 prot) xet; Some (ETHER_HDR_SIZE, xet)
  else
    xet ← store 12 (be16 PROT_VLAN) xet;
    xet ← store 14 (be16 ((0 << 5) .| (myvlanid .& VLAN_IDMASK))) xet;
    xet ← store 16 (be16 prot) xet; Some (VLAN_ETHER_HDR_SIZE, xet).

Definition net_update_ether (s : net) (et addr : list Z) (prot : Z) : option (nat * list Z) :=
  et ← store 0 addr et;
  et ← store 6 (net_ethaddr s) et;
  protlen ← load16 12 et;
  if protlen =? PROT_VLAN then et ← store 16 (be16 prot) et; Some (VLAN_ETHER_HDR_SIZE, et)
  else if 1514 <? protlen then et ← store 12 (be16 prot) et; Some (ETHER_HDR_SIZE, et)
  else et ← store 20 (be16 prot) et; Some (E802_HDR_SIZE, et).

(** [net_ip_id] is counted by the caller. *)
Definition set_ip_header (id : Z) (pkt : nat) (dest source : Z) (buf : list Z) : option (list Z) :=
  buf ← store pkt [0x45] buf;
  buf ← store (pkt + 1) [0] buf;
  buf ← store (pkt + 2) (be16 (Z.of_nat IP_HDR_SIZE)) buf;
  buf ← store (pkt + 4) (be16 id) buf;
  buf ← store (pkt + 6) (be16 IP_FLAGS_DFRAG) buf;
  buf ← store (pkt + 8) [255] buf;
  buf ← store (pkt + 10) (le16 0) buf;
  buf ← net_write_ip (pkt + 12) source buf;
  net_write_ip (pkt + 16) dest buf.
Definition net_set_ip_header (pkt : nat) (dest source : Z) (buf : list Z) : N (list Z) :=
  id ← read net_ip_id; net_ip_id ::= u32 (id + 1);; lift (set_ip_header id pkt dest source buf).

(** The fields written after the IP header proper; the checksum is over its 20
    bytes. *)
Definition finish_udp_header (pkt : nat) (dport sport len : Z) (buf : list Z) : option (list Z) :=
  buf ← store (pkt + 2) (be16 (Z.of_nat IP_UDP_HDR_SIZE + len)) buf;
  buf ← store (pkt + 9) [IPPROTO_UDP] buf;
  sum ← compute_ip_checksum (drop pkt buf) IP_HDR_SIZE;
  buf ← store (pkt + 10) (le16 sum) buf;
  buf ← store (pkt + 20) (be16 sport) buf;
  buf ← store (pkt + 22) (be16 dport) buf;
  buf ← store (pkt + 24) (be16 (Z.of_nat UDP_HDR_SIZE + len)) buf;
  store (pkt + 26) (be16 0) buf.
Definition net_set_udp_header (pkt : nat) (dest dport sport len : Z) (buf : list Z) : N (list Z) :=
  buf ← (if truthy (len .& 1) then lift (store (pkt + IP_UDP_HDR_SIZE + Z.to_nat len) [0] buf) else mret buf);
  source ← read net_ip;
  buf ← net_set_ip_header pkt dest source buf;
  lift (finish_udp_header pkt dport sport len buf).

Section Packets.
Context (ticks : nat -> Z) (getenv : cstr -> option cstr) `{Ethernet}.
Abbreviation get_timer := (get_timer ticks).
Abbreviation net_set_timeout_handler := (net_set_timeout_handler ticks).

(** ** arp.c: asking for an address *)
Definition arp_raw_request (source_ip : Z) (target_ethaddr : list Z) (target_ip : Z) : N unit :=
  s ← read id; pkt ← read arp_tx_packet;
  '(eth_hdr_size, pkt) ← lift (net_set_ether s pkt net_bcast_ethaddr PROT_ARP);
  pkt ← lift (
    pkt ← store eth_hdr_size (be16 ARP_ETHER) pkt;
    pkt ← store (eth_hdr_size + 2) (be16 PROT_IP) pkt;
    pkt ← store (eth_hdr_size + 4) [ARP_HLEN] pkt;
    pkt ← store (eth_hdr_size + 5) [ARP_PLEN] pkt;
    pkt ← store (eth_hdr_size + 6) (be16 ARPOP_REQUEST) pkt;
    pkt ← store (eth_hdr_size + 8) (net_ethaddr s) pkt;
    pkt ← net_write_ip (eth_hdr_size + 14) source_ip pkt;
    pkt ← store (eth_hdr_size + 18) target_ethaddr pkt;
    net_write_ip (eth_hdr_size + 24) target_ip pkt);
  arp_tx_packet ::= pkt;;
  net_send_packet pkt (Z.of_nat (eth_hdr_size + ARP_HDR_SIZE)).

Definition arp_request : N unit :=
  wait ← read net_arp_wait_packet_ip; mask ← read net_netmask; ip ← read net_ip; gateway ← read net_gateway;
  net_arp_wait_reply_ip ::=
    (if negb (wait .& mask =? ip .& mask) then (if gateway =? 0 then wait else gateway) else wait);;
  reply ← read net_arp_wait_reply_ip;
  arp_raw_request ip net_null_ethaddr reply.

(** ** net.c: sending *)

(** The address a pointer leads to, and what is written through it. *)
Definition read_ether (p : ether_ptr) : N (list Z) :=
  match p with net_server_ethaddr_ptr => read net_server_ethaddr | net_bcast_ethaddr_ptr => mret net_bcast_ethaddr end.
Definition write_ether (p : ether_ptr) (a : list Z) : N unit :=
  match p with net_server_ethaddr_ptr => net_server_ethaddr ::= a | net_bcast_ethaddr_ptr => undefined end.

(** The payload is in [net_tx_packet] already. *)
Definition net_send_udp_packet (ether : ether_ptr) (dest dport sport payload_len : Z) : N Z :=
  let dest := if dest =? 0 then 0xFFFFFFFF else dest in
  let ether := if dest =? 0xFFFFFFFF then net_bcast_ethaddr_ptr else ether in
  s ← read id; pkt ← read net_tx_packet; mac ← read_ether ether;
  '(eth_hdr_size, pkt) ← lift (net_set_ether s pkt mac PROT_IP);
  pkt ← net_set_udp_header eth_hdr_size dest dport sport payload_len pkt;
  net_tx_packet ::= pkt;;
  let size := Z.of_nat (eth_hdr_size + IP_UDP_HDR_SIZE) + payload_len in
  if bool_decide (mac = net_null_ethaddr) then
    net_arp_wait_packet_ip ::= dest;;
    arp_wait_packet_ethaddr ::= Some ether;;
    arp_wait_tx_packet_size ::= size;;
    arp_wait_try ::= 1;;
    t ← get_timer 0; arp_wait_timer_start ::= t;;
    arp_request;;
    mret 1
  else net_send_packet pkt size;; mret 0.

(** ** Starting again *)

(** netretry, yes, once *)
Definition netretry : cstr := [110; 101; 116; 114; 101; 116; 114; 121].
Definition word_yes : cstr := [121; 101; 115].
Definition word_once : cstr := [111; 110; 99; 101].

Definition net_start_again : N Z :=
  let '(retry_forever, retrycnt) :=
    match getenv netretry with
    | Some nretry =>
        if bool_decide (nretry = word_yes) then (true, 0)
        else if bool_decide (nretry = word_no) then (false, 0)
        else if bool_decide (nretry = word_once) then (false, 1)
        else (false, (simple_strtoul nretry 0).1)
    | None => (false, 0)
    end in
  tries ← read net_try_count;
  if negb retry_forever && (retrycnt <=? u32 tries) then
    net_set_state NETLOOP_FAIL;; mret (-110)
  else
    net_try_count ::= s32 (tries + 1);;
    restarted ← read net_restarted;
    eth_try_another getenv (negb restarted);;
    ret ← eth_init getenv;
    wrap ← read net_restart_wrap;
    (if wrap : bool then
       net_restart_wrap ::= false;;
       dev_exists ← read net_dev_exists;
       if dev_exists : bool then
         net_set_timeout_handler 10000 (Some start_again_timeout_handler);;
         net_set_udp_handler None
       else net_set_state NETLOOP_FAIL
     else net_set_state NETLOOP_RESTART);;
    mret ret.

Definition start_again_timeout_handler_body : N unit := net_set_state NETLOOP_RESTART.

(** ** arp.c: waiting and answers *)
Definition arp_timeout_check : N Z :=
  wait ← read net_arp_wait_packet_ip;
  if wait =? 0 then mret 0
  else
    t ← get_timer 0; start ← read arp_wait_timer_start;
    (if ARP_TIMEOUT <? u32 (t - start) then
       try ← read arp_wait_try; arp_wait_try ::= s32 (try + 1);;
       if ARP_TIMEOUT_COUNT <=? s32 (try + 1) then
         arp_wait_try ::= 0;; net_set_state NETLOOP_FAIL
       else arp_wait_timer_start ::= t;; arp_request
     else mret tt);;
    mret 1.

Context (call_rxhand : rxhand -> list Z -> Z -> Z -> Z -> Z -> N unit).

(** [et]: the packet; [arp]: where the ARP header begins in it. *)
Definition arp_receive (et : list Z) (arp : nat) (len : Z) : N unit :=
  if len <? Z.of_nat ARP_HDR_SIZE then mret tt
  else
    hrd ← lift (load16 arp et); pro ← lift (load16 (arp + 2) et);
    hln ← lift (load8 (arp + 4) et); pln ← lift (load8 (arp + 5) et);
    ip ← read net_ip; tpa ← lift (net_read_ip (arp + 24) et);
    if negb (hrd =? ARP_ETHER) || negb (pro =? PROT_IP) || negb (hln =? ARP_HLEN) || negb (pln =? ARP_PLEN) ||
       (ip =? 0) || negb (tpa =? ip) then mret tt
    else
      op ← lift (load16 (arp + 6) et);
      if op =? ARPOP_REQUEST then
        s ← read id;
        src ← lift (load 6 6 et);
        '(eth_hdr_size, et) ← lift (net_update_ether s et src PROT_ARP);
        et ← lift (
          et ← store (arp + 6) (be16 ARPOP_REPLY) et;
          sha ← load (arp + 8) 6 et; et ← store (arp + 18) sha et;
          et ← net_copy_ip (arp + 24) (arp + 14) et;
          et ← store (arp + 8) (net_ethaddr s) et;
          net_write_ip (arp + 14) ip et);
        net_send_packet et (Z.of_nat (eth_hdr_size + ARP_HDR_SIZE))
      else if op =? ARPOP_REPLY then
        wait ← read net_arp_wait_packet_ip;
        if wait =? 0 then mret tt
        else
          reply_ip_addr ← lift (net_read_ip (arp + 14) et); reply ← read net_arp_wait_reply_ip;
          if reply_ip_addr =? reply then
            sha ← lift (load (arp + 8) 6 et);
            p ← read arp_wait_packet_ethaddr;
            (match p with Some p => write_ether p sha | None => mret tt end);;
            f ← read arp_packet_handler; call_rxhand f (drop arp et) 0 reply_ip_addr 0 len;;
            pkt ← read net_tx_packet; pkt ← lift (store 0 sha pkt); net_tx_packet ::= pkt;;
            size ← read arp_wait_tx_packet_size; net_send_packet pkt size;;
            net_arp_wait_packet_ip ::= 0;;
            arp_wait_tx_packet_size ::= 0;;
            arp_wait_packet_ethaddr ::= None
          else mret tt
      else mret tt.

(** ** ping.c *)
Definition set_icmp_header (pkt : nat) (dest : Z) (buf : list Z) : N (list Z) :=
  source ← read net_ip;
  buf ← net_set_ip_header pkt dest source buf;
  seq ← read ping_seq_number; ping_seq_number ::= u16 (seq + 1);;
  lift (
    buf ← store (pkt + 2) (be16 (Z.of_nat IP_ICMP_HDR_SIZE)) buf;
    buf ← store (pkt + 9) [IPPROTO_ICMP] buf;
    sum ← compute_ip_checksum (drop pkt buf) IP_HDR_SIZE;
    buf ← store (pkt + 10) (le16 sum) buf;
    buf ← store (pkt + 20) [ICMP_ECHO_REQUEST] buf;
    buf ← store (pkt + 21) [0] buf;
    buf ← store (pkt + 22) (le16 0) buf;
    buf ← store (pkt + 24) (le16 0) buf;
    buf ← store (pkt + 26) (be16 seq) buf;
    sum ← compute_ip_checksum (drop (pkt + 20) buf) ICMP_HDR_SIZE;
    store (pkt + 22) (le16 sum) buf).

Definition ping_send : N Z :=
  ping_ip ← read net_ping_ip; net_arp_wait_packet_ip ::= ping_ip;;
  s ← read id; pkt ← read net_tx_packet;
  '(eth_hdr_size, pkt) ← lift (net_set_ether s pkt net_null_ethaddr PROT_IP);
  pkt ← set_icmp_header eth_hdr_size ping_ip pkt;
  net_tx_packet ::= pkt;;
  arp_wait_tx_packet_size ::= Z.of_nat (eth_hdr_size + IP_ICMP_HDR_SIZE);;
  arp_wait_try ::= 1;;
  t ← get_timer 0; arp_wait_timer_start ::= t;;
  arp_request;;
  mret 1.
Definition ping_timeout_handler_body : N unit := net_set_state NETLOOP_FAIL.
Definition ping_start : N unit :=
  net_set_timeout_handler 10000 (Some ping_timeout_handler);; ping_send;; mret tt.

(** [et]: the packet; [ip]: where its IP header begins. *)
Definition ping_receive (et : list Z) (ip : nat) (len : Z) : N unit :=
  type ← lift (load8 (ip + 20) et);
  if type =? ICMP_ECHO_REPLY then
    src_ip ← lift (net_read_ip (ip + 12) et); ping_ip ← read net_ping_ip;
    if src_ip =? ping_ip then net_set_state NETLOOP_SUCCESS else mret tt
  else if type =? ICMP_ECHO_REQUEST then
    s ← read id;
    src ← lift (load 6 6 et);
    '(eth_hdr_size, et) ← lift (net_update_ether s et src PROT_IP);
    et ← lift (
      et ← store (ip + 10) (le16 0) et;
      et ← store (ip + 6) (le16 0) et;
      et ← net_copy_ip (ip + 16) (ip + 12) et;
      et ← net_write_ip (ip + 12) (net_ip s) et;
      sum ← compute_ip_checksum (drop ip et) IP_HDR_SIZE;
      et ← store (ip + 10) (le16 sum) et;
      et ← store (ip + 20) [ICMP_ECHO_REPLY] et;
      et ← store (ip + 22) (le16 0) et;
      let nbytes := u32 (len - Z.of_nat IP_HDR_SIZE) in
      sum ← (if Z.of_nat (length et) <? nbytes then None else compute_ip_checksum (drop (ip + 20) et) (Z.to_nat nbytes));
      store (ip + 22) (le16 sum) et);
    net_send_packet et (Z.of_nat eth_hdr_size + len)
  else mret tt.

(** ** Receiving *)

(** Redirects are only reported. *)
Definition receive_icmp (et : list Z) (ip : nat) (len : Z) : N unit :=
  type ← lift (load8 (ip + 20) et);
  if type =? ICMP_REDIRECT then mret tt else ping_receive et ip len.

(** A fragment is dropped. *)
Definition net_defragment (ip_off : Z) : bool := negb (truthy (ip_off .& (IP_OFFS .| IP_FLAGS_MFRAG))).

(** The case of an IP packet, from the length check on.  Sizes of headers are
    unsigned in C, so a negative [len] is a large number there. *)
Definition receive_ip (et : list Z) (ip : nat) (len : Z) : N unit :=
  if u32 len <? Z.of_nat IP_UDP_HDR_SIZE then mret tt
  else
    ip_len ← lift (load16 (ip + 2) et);
    if len <? ip_len then mret tt
    else
      let len := ip_len in
      hl_v ← lift (load8 ip et);
      if negb (hl_v .& 0xf0 =? 0x40) then mret tt
      else if 0x05 <? hl_v .& 0x0f then mret tt
      else
        ok ← lift (ip_checksum_ok (drop ip et) IP_HDR_SIZE);
        if negb (truthy ok) then mret tt
        else
          dst_ip ← lift (net_read_ip (ip + 16) et); our ← read net_ip;
          if truthy our && negb (dst_ip =? our) && negb (dst_ip =? 0xFFFFFFFF) then mret tt
          else
            src_ip ← lift (net_read_ip (ip + 12) et);
            ip_off ← lift (load16 (ip + 6) et);
            if negb (net_defragment ip_off) then mret tt
            else
              p ← lift (load8 (ip + 9) et);
              if p =? IPPROTO_ICMP then receive_icmp et ip len
              else if negb (p =? IPPROTO_UDP) then mret tt
              else
                dport ← lift (load16 (ip + 22) et); sport ← lift (load16 (ip + 20) et);
                udp_len ← lift (load16 (ip + 24) et);
                f ← read udp_packet_handler;
                call_rxhand f (drop (ip + IP_UDP_HDR_SIZE) et) dport src_ip sport
                  (u32 (udp_len - Z.of_nat UDP_HDR_SIZE)).

(** [in_packet]: the buffer of the driver, [len] bytes of which were received. *)
Definition net_process_received_packet (in_packet : list Z) (len : Z) : N unit :=
  net_rx_packet ::= in_packet;;
  net_rx_packet_len ::= len;;
  if u32 len <? Z.of_nat ETHER_HDR_SIZE then mret tt
  else
    our_vlan ← read net_our_vlan; native_vlan ← read net_native_vlan;
    let myvlanid := vlan_of our_vlan in
    let mynvlanid := vlan_of native_vlan in
    let deliver (eth_proto vlanid : Z) (ip : nat) : N unit :=
      let len := len - Z.of_nat ip in
      let vlanid := if vlanid =? VLAN_NONE then mynvlanid .& VLAN_IDMASK else vlanid in
      if negb (myvlanid .& VLAN_IDMASK =? VLAN_NONE) && negb (vlanid =? myvlanid .& VLAN_IDMASK) then mret tt
      else if eth_proto =? PROT_ARP then arp_receive in_packet ip len
      else if eth_proto =? PROT_IP then receive_ip in_packet ip len
      else mret tt in
    eth_proto ← lift (load16 12 in_packet);
    if eth_proto <? 1514 then
      eth_proto ← lift (load16 20 in_packet); deliver eth_proto VLAN_NONE E802_HDR_SIZE
    else if negb (eth_proto =? PROT_VLAN) then deliver eth_proto VLAN_NONE ETHER_HDR_SIZE
    else if u32 len <? Z.of_nat VLAN_ETHER_HDR_SIZE then mret tt
    else if ntohs our_vlan .& VLAN_IDMASK =? VLAN_NONE then mret tt
    else
      cti ← lift (load16 14 in_packet); eth_proto ← lift (load16 16 in_packet);
      deliver eth_proto (cti .& VLAN_IDMASK) VLAN_ETHER_HDR_SIZE.
End Packets.

(** ** Buffers *)
Lemma store_app pre mid k bs : store (length pre + k) bs (pre ++ mid) = (app pre) <$> store k bs mid.
Proof.
  unfold store. rewrite length_app.
  destruct (Nat.leb_spec (k + length bs) (length mid)), (Nat.leb_spec (length pre + k + length bs) (length pre + length mid)); try lia; [|done].
  simpl. rewrite take_app_add, <- Nat.add_assoc, drop_app_add. by rewrite <- app_assoc.
Qed.
Lemma store_app0 pre mid bs : store (length pre) bs (pre ++ mid) = (app pre) <$> store 0 bs mid.
Proof. rewrite <- (Nat.add_0_r (length pre)). apply store_app. Qed.
Lemma load_app pre mid k n : load (length pre + k) n (pre ++ mid) = load k n mid.
Proof.
  unfold load. rewrite length_app, drop_app_add.
  destruct (Nat.leb_spec (k + n) (length mid)), (Nat.leb_spec (length pre + k + n) (length pre + length mid)); try lia; done.
Qed.
Lemma load16_app pre mid k : load16 (length pre + k) (pre ++ mid) = load16 k mid.
Proof. unfold load16. by rewrite load_app. Qed.
Lemma read_ip_app pre mid k : net_read_ip (length pre + k) (pre ++ mid) = net_read_ip k mid.
Proof. unfold net_read_ip. by rewrite load_app. Qed.
Lemma load8_app pre mid k : load8 (length pre + k) (pre ++ mid) = load8 k mid.
Proof. unfold load8. rewrite lookup_app_r by lia. f_equal. lia. Qed.

Lemma be16_read v : 0 <= v < 2 ^ 16 -> of_be16 (be16 v) = Some v.
Proof.
  intros Hv. unfold of_be16, be16. f_equal. rewrite Z.lor_comm, lor_bytes by apply u8_fits.
  unfold u8. rewrite Z.shiftr_div_pow2 by lia. dlia.
Qed.
Lemma lor_shift x y n : 0 <= n -> fits n x -> x .| (y << n) = x + y * 2 ^ n.
Proof.
  intros Hn Hx. rewrite <- Z.shiftl_mul_pow2 by done. rewrite Z.add_nocarry_lxor, Z.lxor_lor; [done| |].
  all: apply Z.bits_inj'; intros i Hi; autorewrite with bits; rewrite Z.bits_0; destruct (Z.lt_ge_cases i n);
    [rewrite (Z.testbit_neg_r y) by lia; apply andb_false_r|by rewrite (testbit_above n x) by (done || lia)].
Qed.
Lemma le32_word v : 0 <= v < 2 ^ 32 -> of_le32 (le32 v) = Some v.
Proof.
  intros Hv. unfold of_le32, le32. f_equal. unfold u8. rewrite !Z.shiftr_div_pow2 by lia.
  rewrite (lor_shift _ _ 8), (lor_shift _ _ 16), (lor_shift _ _ 24) by (unfold fits; dlia || lia). dlia.
Qed.
