(* ===== verification/NetUdp.v ===== *)
(** Datagrams and address resolution, end to end: what net_send_udp_packet puts on
    the wire is what net_process_received_packet hands to the protocol at the other
    end, and how the packet waits while its address is asked for. *)
From S2P Require Import Prelude Htab Crc32 NetSum NetState Net.

(** ** The frame *)
Definition no_vlan (s : net) : bool := vlan_of (net_our_vlan s) .& VLAN_IDMASK =? VLAN_NONE.
Definition ether_header (s : net) (dest : list Z) (prot : Z) : list Z :=
  dest ++ net_ethaddr s ++
  (if no_vlan s then be16 prot else be16 PROT_VLAN ++ be16 (vlan_of (net_our_vlan s) .& VLAN_IDMASK) ++ be16 prot).
(** [c]: the checksum; [len]: of the whole datagram. *)
Definition ip_header (c id source dest len : Z) : list Z :=
  [0x45; 0] ++ be16 len ++ be16 id ++ be16 IP_FLAGS_DFRAG ++ [255; IPPROTO_UDP] ++ le16 c ++ le32 source ++ le32 dest.
Definition udp_header (sport dport len : Z) : list Z := be16 sport ++ be16 dport ++ be16 len ++ be16 0.
Definition checksum_of (hdr : list Z) : Z := default 0 (compute_ip_checksum hdr (length hdr)).
Definition datagram (id source dest sport dport : Z) (payload : list Z) : list Z :=
  let len := 28 + Z.of_nat (length payload) in
  ip_header (checksum_of (ip_header 0 id source dest len)) id source dest len ++
  udp_header sport dport (8 + Z.of_nat (length payload)) ++ payload.

(** An address of the link layer, and a state in order. *)
Definition mac (a : list Z) : Prop := length a = 6%nat /\ Forall byte a.
Definition in_order (s : net) : Prop := mac (net_ethaddr s) /\ fits 32 (net_ip s) /\ fits 16 (net_our_vlan s).

Ltac explicit l := destruct l as [|? l]; [simpl in *; lia|].

(** One store behind a prefix, computed on the bytes behind it. *)
Lemma store_bind {B} eh k bs mid mid' (f : list Z -> option B) :
  store k bs mid = Some mid' -> store (length eh + k) bs (eh ++ mid) ≫= f = f (eh ++ mid').
Proof. intros H. by rewrite store_app, H. Qed.
Lemma store_bind0 {B} eh bs mid mid' (f : list Z -> option B) :
  store 0 bs mid = Some mid' -> store (length eh) bs (eh ++ mid) ≫= f = f (eh ++ mid').
Proof. intros H. by rewrite store_app0, H. Qed.
Lemma store_last eh k bs mid mid' : store k bs mid = Some mid' -> store (length eh + k) bs (eh ++ mid) = Some (eh ++ mid').
Proof. intros H. by rewrite store_app, H. Qed.
Lemma load_bind {B} eh k n mid bs (f : list Z -> option B) :
  load k n mid = Some bs -> load (length eh + k) n (eh ++ mid) ≫= f = f bs.
Proof. intros H. by rewrite load_app, H. Qed.
Ltac bytes := cbv [load store be16 le16 le32 length Nat.add Nat.leb firstn skipn app]; reflexivity.
Ltac stores := repeat ((erewrite store_bind || erewrite store_bind0 || erewrite load_bind); [|bytes]); try (erewrite store_last; [|bytes]).

Lemma bytes_be16 v : Forall byte (be16 v).
Proof. repeat constructor; apply u8_fits. Qed.
Lemma bytes_le32 v : Forall byte (le32 v).
Proof. repeat constructor; apply u8_fits. Qed.

Lemma run_set_ether s xet dest prot : length dest = 6%nat -> length (net_ethaddr s) = 6%nat -> (18 <= length xet)%nat ->
  let eh := ether_header s dest prot in
  net_set_ether s xet dest prot = Some (length eh, eh ++ drop (length eh) xet) /\
  (length eh = 14%nat \/ length eh = 18%nat) /\ (length eh = 14%nat <-> no_vlan s = true).
Proof.
  intros Hd Hs Hx eh. unfold eh, net_set_ether, ether_header. fold (no_vlan s).
  do 6 explicit dest. destruct dest; [|done]. destruct (net_ethaddr s) as [|e0 es]; [done|]. do 5 explicit es. destruct es; [|done].
  do 18 explicit xet. by destruct (no_vlan s); cbn -[u8 Z.shiftr]; (split; [done|]); (split; [tauto|]).
Qed.

Lemma sum_words_prefix k : forall n a b sum, (n <= k)%nat -> (n <= length a)%nat -> sum_words n (a ++ b) sum = sum_words n a sum.
Proof.
  induction k as [|k IH]; intros [|[|n]] a b sum Hk Hl; try done; try lia.
  - by explicit a.
  - do 2 explicit a. cbn [sum_words app lookup list_lookup mbind option_bind skipn]. rewrite ?drop_0.
    destruct (_ <? _); [|done]. apply IH; simpl in Hl; lia.
Qed.
Lemma checksum_prefix a b n : length a = n -> compute_ip_checksum (a ++ b) n = compute_ip_checksum a n.
Proof. intros Ha. unfold compute_ip_checksum. by rewrite (sum_words_prefix n) by lia. Qed.

(** The header with its own checksum in it. *)
Lemma header_checksum id source dest len :
  exists c, compute_ip_checksum (ip_header 0 id source dest len) 20 = Some c /\ 0 <= c <= 65535 /\
    compute_ip_checksum (ip_header c id source dest len) 20 = Some 0.
Proof.
  set (a := [0x45; 0] ++ be16 len ++ be16 id ++ be16 IP_FLAGS_DFRAG ++ [255; IPPROTO_UDP]).
  set (b := le32 source ++ le32 dest).
  assert (forall c, ip_header c id source dest len = a ++ [u8 c; u8 (c >> 8)] ++ b) as E by done.
  assert (Forall byte a) as Ha by (unfold a; rewrite !Forall_app; repeat split; try apply bytes_be16; repeat constructor; done).
  assert (Forall byte b) as Hb by (unfold b; rewrite Forall_app; split; apply bytes_le32).
  destruct (run_checksum (ip_header 0 id source dest len)) as (r & Hr & _); [|done|].
  { rewrite E, !Forall_app. split_and!; [done|by repeat constructor|done]. }
  exists (65535 - r). split; [done|]. rewrite E. apply (run_checksum_put a b); [done..|].
  by rewrite E in Hr.
Qed.

Lemma run_headers eh hdr rest id source dest dport sport len :
  length hdr = 28%nat ->
  (buf ← set_ip_header id (length eh) dest source (eh ++ hdr ++ rest);
   finish_udp_header (length eh) dport sport len buf) =
  Some (eh ++ (ip_header (checksum_of (ip_header 0 id source dest (28 + len))) id source dest (28 + len) ++
               udp_header sport dport (8 + len)) ++ rest).
Proof.
  intros Hh. unfold checksum_of. change (length (ip_header _ _ _ _ _)) with 20%nat.
  destruct (header_checksum id source dest (28 + len)) as (c & Hc & _). rewrite Hc. cbn [default from_option].
  do 28 explicit hdr. destruct hdr; [|done]. clear Hh. cbn [app].
  unfold set_ip_header, finish_udp_header, net_write_ip. stores. cbn [mbind option_bind]. stores.
  rewrite drop_app_length.
  match goal with |- context [compute_ip_checksum ?m _] =>
    assert (compute_ip_checksum m IP_HDR_SIZE = Some c) as -> end.
  { etransitivity; [|exact Hc]. exact (checksum_prefix (ip_header 0 id source dest (28 + len)) _ 20 eq_refl). }
  cbn [mbind option_bind]. stores. reflexivity.
Qed.

Lemma run_set_udp_header eh hdr payload rest dest dport sport s :
  length hdr = 28%nat -> (1 <= length rest)%nat ->
  let len := Z.of_nat (length payload) in
  exists rest', length rest' = length rest /\
  net_set_udp_header (length eh) dest dport sport len (eh ++ hdr ++ payload ++ rest) s =
    Some (eh ++ datagram (net_ip_id s) (net_ip s) dest sport dport payload ++ rest',
          s <| net_ip_id := u32 (net_ip_id s + 1) |>).
Proof.
  intros Hh Hr len. set (rest' := if truthy (len .& 1) then 0 :: drop 1 rest else rest). exists rest'.
  split; [unfold rest'; destruct (truthy _); [explicit rest; simpl; rewrite drop_0|]; done|].
  unfold net_set_udp_header.
  assert (forall f : list Z -> N (list Z),
    ((if truthy (len .& 1) then lift (store (length eh + IP_UDP_HDR_SIZE + Z.to_nat len) [0] (eh ++ hdr ++ payload ++ rest))
      else mret (eh ++ hdr ++ payload ++ rest)) ≫= f) s = f (eh ++ hdr ++ payload ++ rest') s) as Hpad.
  { intros f. unfold rest'. destruct (truthy _); [|done].
    replace (length eh + IP_UDP_HDR_SIZE + Z.to_nat len)%nat with (length (eh ++ hdr ++ payload))
      by (rewrite !length_app, Hh; unfold len, IP_UDP_HDR_SIZE; lia).
    replace (eh ++ hdr ++ payload ++ rest) with ((eh ++ hdr ++ payload) ++ rest) by (by rewrite <- !app_assoc).
    rewrite store_app0. explicit rest. unfold mbind, N_bind, lift. cbn. by rewrite <- !app_assoc. }
  rewrite Hpad. clear Hpad.
  pose proof (run_headers eh hdr (payload ++ rest') (net_ip_id s) (net_ip s) dest dport sport len Hh) as E.
  unfold net_set_ip_header, read, assign, lift, mbind, N_bind. cbn [put set_net_ip_id].
  destruct (set_ip_header _ _ _ _ _) as [buf|]; [|done]. cbn [mbind option_bind] in E. rewrite E.
  unfold datagram. fold len. by rewrite <- !app_assoc.
Qed.

(** ** Receiving a datagram *)
Lemma load16_be pre v post : 0 <= v < 2 ^ 16 -> load16 (length pre) (pre ++ be16 v ++ post) = Some v.
Proof.
  intros Hv. rewrite <- (Nat.add_0_r (length pre)), load16_app. rewrite <- (be16_read v) by done. reflexivity.
Qed.
Lemma read_ip_le pre v post : fits 32 v -> net_read_ip (length pre) (pre ++ le32 v ++ post) = Some v.
Proof.
  intros Hv. rewrite <- (Nat.add_0_r (length pre)), read_ip_app. rewrite <- (le32_word v) by done. reflexivity.
Qed.

Section Receive.
Context (ticks : nat -> Z) (getenv : cstr -> option cstr) `{Ethernet}.
Context (call_rxhand : rxhand -> list Z -> Z -> Z -> Z -> Z -> N unit).
Abbreviation receive_ip := (receive_ip call_rxhand).
Abbreviation process := (net_process_received_packet call_rxhand).

(** Sizes and numbers are in range, and the datagram is for [r]. *)
Definition sendable (r : net) (source dest sport dport : Z) (payload : list Z) : Prop :=
  fits 32 source /\ fits 32 dest /\ fits 16 sport /\ fits 16 dport /\ 28 + Z.of_nat (length payload) < 2 ^ 16 /\
  (net_ip r = 0 \/ dest = net_ip r \/ dest = 0xFFFFFFFF).

Lemma run_receive_ip eh id source dest sport dport payload junk len r :
  sendable r source dest sport dport payload -> 28 + Z.of_nat (length payload) <= len < 2 ^ 31 ->
  receive_ip (eh ++ datagram id source dest sport dport payload ++ junk) (length eh) len r =
  call_rxhand (udp_packet_handler r) (payload ++ junk) dport source sport (Z.of_nat (length payload)) r.
Proof.
  intros (Hsrc & Hdst & Hsp & Hdp & Hpl & Hfor) Hlen. set (n := Z.of_nat (length payload)) in *.
  unfold datagram. fold n. destruct (header_checksum id source dest (28 + n)) as (c & Hc & Hc' & Hok).
  unfold checksum_of. change (length (ip_header _ _ _ _ _)) with 20%nat. rewrite Hc. cbn [default from_option].
  set (et := eh ++ _). set (dg := ip_header c id source dest (28 + n) ++ udp_header sport dport (8 + n) ++ payload ++ junk).
  assert (et = eh ++ dg) as Het by (unfold et, dg; by rewrite <- !app_assoc).
  clearbody et. subst et.
  assert (load16 (length eh + 2) (eh ++ dg) = Some (28 + n)) as L1 by (rewrite load16_app, <- (be16_read (28 + n)) by lia; done).
  assert (load8 (length eh) (eh ++ dg) = Some 0x45) as L2 by (by rewrite <- (Nat.add_0_r (length eh)), load8_app).
  assert (ip_checksum_ok (drop (length eh) (eh ++ dg)) IP_HDR_SIZE = Some 1) as L3.
  { change IP_HDR_SIZE with 20%nat. rewrite drop_app_length. unfold ip_checksum_ok, dg. rewrite checksum_prefix by done. by rewrite Hok. }
  assert (net_read_ip (length eh + 16) (eh ++ dg) = Some dest) as L4 by (rewrite read_ip_app, <- (le32_word dest) by done; done).
  assert (net_read_ip (length eh + 12) (eh ++ dg) = Some source) as L5 by (rewrite read_ip_app, <- (le32_word source) by done; done).
  assert (load16 (length eh + 6) (eh ++ dg) = Some IP_FLAGS_DFRAG) as L6 by (by rewrite load16_app).
  assert (load8 (length eh + 9) (eh ++ dg) = Some IPPROTO_UDP) as L7 by (by rewrite load8_app).
  assert (load16 (length eh + 22) (eh ++ dg) = Some dport) as L8 by (rewrite load16_app, <- (be16_read dport) by done; done).
  assert (load16 (length eh + 20) (eh ++ dg) = Some sport) as L9 by (rewrite load16_app, <- (be16_read sport) by done; done).
  assert (load16 (length eh + 24) (eh ++ dg) = Some (8 + n)) as L10 by (rewrite load16_app, <- (be16_read (8 + n)) by lia; done).
  assert (drop (length eh + IP_UDP_HDR_SIZE) (eh ++ dg) = payload ++ junk) as L11 by (by rewrite drop_app_add).
  unfold Net.receive_ip, read, lift, mbind, N_bind.
  rewrite (u32_small len) by lia. destruct (Z.ltb_spec len (Z.of_nat IP_UDP_HDR_SIZE)); [unfold IP_UDP_HDR_SIZE in *; lia|].
  rewrite L1. destruct (Z.ltb_spec len (28 + n)); [lia|]. rewrite L2. cbn [negb].
  change (negb (0x45 .& 0xf0 =? 0x40)) with false. change (0x05 <? 0x45 .& 0x0f) with false. cbv iota.
  rewrite L3. change (negb (truthy 1)) with false. cbv iota. rewrite L4.
  assert (truthy (net_ip r) && negb (dest =? net_ip r) && negb (dest =? 0xFFFFFFFF) = false) as ->.
  { unfold truthy. destruct Hfor as [->|[->| ->]]; [done|by rewrite Z.eqb_refl, andb_false_r|by rewrite andb_false_r]. }
  rewrite L5, L6. change (negb (net_defragment IP_FLAGS_DFRAG)) with false. cbv iota. rewrite L7.
  change (IPPROTO_UDP =? IPPROTO_ICMP) with false. change (negb (IPPROTO_UDP =? IPPROTO_UDP)) with false. cbv iota.
  rewrite L8, L9, L10, L11. f_equal. unfold UDP_HDR_SIZE, IP_UDP_HDR_SIZE, IP_HDR_SIZE. simpl Z.of_nat.
  rewrite u32_small by (unfold n in *; lia). lia.
Qed.

Lemma vlan_tag s : fits 16 (net_our_vlan s) -> no_vlan s = false ->
  let v := vlan_of (net_our_vlan s) .& VLAN_IDMASK in
  ntohs (net_our_vlan s) .& VLAN_IDMASK = v /\ v <> VLAN_NONE /\ 0 <= v < 4096 /\ v .& VLAN_IDMASK = v.
Proof.
  intros Hf Hv v. unfold no_vlan in Hv. fold v in Hv. apply Z.eqb_neq in Hv.
  assert (0 <= v < 4096) as Hr.
  { unfold v, VLAN_IDMASK. change 0x0fff with (Z.ones 12). rewrite Z.land_ones by lia. apply Z.mod_pos_bound. lia. }
  split; [|split; [done|split; [done|]]].
  - unfold v, vlan_of in *. destruct (ntohs _ =? 0xffff) eqn:E; [|done]. done.
  - unfold VLAN_IDMASK. change 0x0fff with (Z.ones 12). rewrite Z.land_ones by lia. apply Z.mod_small. lia.
Qed.

(** The link layer finds the header of the layer above. *)
Lemma run_process s dmac prot body len r :
  length dmac = 6%nat -> length (net_ethaddr s) = 6%nat -> fits 16 (net_our_vlan s) -> net_our_vlan r = net_our_vlan s ->
  prot = PROT_IP \/ prot = PROT_ARP ->
  let eh := ether_header s dmac prot in
  Z.of_nat (length eh) <= len < 2 ^ 31 ->
  let r' := r <| net_rx_packet := eh ++ body |> <| net_rx_packet_len := len |> in
  process (eh ++ body) len r =
    (if prot =? PROT_ARP then arp_receive call_rxhand (eh ++ body) (length eh) (len - Z.of_nat (length eh)) r'
     else receive_ip (eh ++ body) (length eh) (len - Z.of_nat (length eh)) r').
Proof.
  intros Hd Hs Hf Hr Hp eh Hlen r'. assert (fits 16 prot) as Hp16 by (destruct Hp as [->| ->]; done).
  unfold net_process_received_packet. unfold assign at 1 2, read, lift, mbind, N_bind. fold r'.
  rewrite (u32_small len) by lia.
  assert (Z.of_nat 14 <= Z.of_nat (length eh)) as He by (unfold eh, ether_header; rewrite !length_app; destruct (no_vlan s); simpl length; lia).
  destruct (Z.ltb_spec len (Z.of_nat ETHER_HDR_SIZE)) as [|_]; [unfold ETHER_HDR_SIZE in *; lia|].
  assert (net_our_vlan r' = net_our_vlan s) as -> by done.
  destruct (no_vlan s) eqn:Hv.
  - assert (eh = (dmac ++ net_ethaddr s) ++ be16 prot) as Eh by (unfold eh, ether_header; rewrite Hv; by rewrite <- app_assoc).
    assert (length eh = 14%nat) as E14 by (rewrite Eh, !length_app, Hd, Hs; done).
    assert (load16 12 (eh ++ body) = Some prot) as ->.
    { rewrite Eh, <- app_assoc. replace 12%nat with (length (dmac ++ net_ethaddr s)) by (rewrite length_app; lia). by apply load16_be. }
    assert ((prot <? 1514) = false /\ (prot =? PROT_VLAN) = false) as [-> ->] by (by destruct Hp as [->| ->]).
    cbn [negb]. unfold no_vlan in Hv. rewrite Hv. cbn [negb andb]. rewrite E14. unfold ETHER_HDR_SIZE.
    by destruct Hp as [->| ->].
  - destruct (vlan_tag s Hf Hv) as (Hn & Hne & Hr4 & Hvv). set (v := vlan_of (net_our_vlan s) .& VLAN_IDMASK) in *.
    assert (eh = (dmac ++ net_ethaddr s) ++ be16 PROT_VLAN ++ be16 v ++ be16 prot) as Eh
      by (unfold eh, ether_header; rewrite Hv; by rewrite <- app_assoc).
    assert (length eh = 18%nat) as E18 by (rewrite Eh, !length_app, Hd, Hs; done).
    assert (load16 12 (eh ++ body) = Some PROT_VLAN) as ->.
    { rewrite Eh, <- app_assoc. replace 12%nat with (length (dmac ++ net_ethaddr s)) by (rewrite length_app; lia). by apply load16_be. }
    change (PROT_VLAN <? 1514) with false. change (negb (PROT_VLAN =? PROT_VLAN)) with false. cbv iota.
    destruct (Z.ltb_spec len (Z.of_nat VLAN_ETHER_HDR_SIZE)) as [|_]; [rewrite E18 in Hlen; unfold VLAN_ETHER_HDR_SIZE in *; lia|].
    rewrite Hn. destruct (Z.eqb_spec v VLAN_NONE) as [|_]; [done|].
    assert (load16 14 (eh ++ body) = Some v) as ->.
    { rewrite Eh, <- app_assoc. replace 14%nat with (length (dmac ++ net_ethaddr s) + 2)%nat by (rewrite length_app; lia).
      rewrite load16_app, <- (be16_read v) by lia. done. }
    assert (load16 16 (eh ++ body) = Some prot) as ->.
    { rewrite Eh, <- app_assoc. replace 16%nat with (length (dmac ++ net_ethaddr s) + 4)%nat by (rewrite length_app; lia).
      rewrite load16_app, <- (be16_read prot) by done. done. }
    rewrite Hvv. destruct (Z.eqb_spec v VLAN_NONE) as [|_]; [done|]. rewrite Z.eqb_refl. cbn [negb andb].
    rewrite E18. unfold VLAN_ETHER_HDR_SIZE. by destruct Hp as [->| ->].
Qed.

Lemma run_process_udp s dmac id source dest sport dport payload junk len r :
  length dmac = 6%nat -> length (net_ethaddr s) = 6%nat -> fits 16 (net_our_vlan s) -> net_our_vlan r = net_our_vlan s ->
  sendable r source dest sport dport payload ->
  let frame := ether_header s dmac PROT_IP ++ datagram id source dest sport dport payload in
  Z.of_nat (length frame) <= len < 2 ^ 31 ->
  process (frame ++ junk) len r =
    call_rxhand (udp_packet_handler r) (payload ++ junk) dport source sport (Z.of_nat (length payload))
      (r <| net_rx_packet := frame ++ junk |> <| net_rx_packet_len := len |>).
Proof.
  intros Hd Hs Hf Hr Hsend frame Hlen. unfold frame in *. rewrite <- !app_assoc.
  rewrite length_app in Hlen. assert (length (datagram id source dest sport dport payload) = 28 + length payload)%nat as Ed
    by (unfold datagram; rewrite !length_app; simpl; lia).
  rewrite run_process by (done || lia || by left). change (PROT_IP =? PROT_ARP) with false. cbv iota.
  rewrite run_receive_ip; [done|done|lia].
Qed.
End Receive.

(** ** Sending a datagram *)
Lemma run_send_packet (s : net) pkt rest :
  net_send_packet (pkt ++ rest) (Z.of_nat (length pkt)) s = Some (tt, s <| sent := sent s ++ [pkt] |>).
Proof.
  unfold net_send_packet. rewrite length_app.
  assert ((0 <=? Z.of_nat (length pkt)) && (Z.of_nat (length pkt) <=? Z.of_nat (length pkt + length rest)) = true) as ->
    by (apply andb_true_iff; split; apply Z.leb_le; lia).
  unfold read, assign, mbind, N_bind. by rewrite Nat2Z.id, take_app_length.
Qed.

(** The transmit buffer holds the payload where the protocol put it. *)
Definition holds_payload (s : net) (payload : list Z) : Prop :=
  exists pre rest, net_tx_packet s = pre ++ payload ++ rest /\ length pre = (net_eth_hdr_size s + 28)%nat /\ (1 <= length rest)%nat.

Section Send.
Context (ticks : nat -> Z).
Abbreviation send_udp := (net_send_udp_packet ticks).

(** The address the packet is sent to, for the two ways to ask for a broadcast. *)
Definition destination (dest : Z) : Z := if dest =? 0 then 0xFFFFFFFF else dest.
Definition target (s : net) (ether : ether_ptr) (dest : Z) : list Z :=
  if destination dest =? 0xFFFFFFFF then net_bcast_ethaddr
  else match ether with net_server_ethaddr_ptr => net_server_ethaddr s | net_bcast_ethaddr_ptr => net_bcast_ethaddr end.

(** The packet is put together in the transmit buffer. *)
Lemma run_send_udp s ether dest dport sport payload : let mac := target s ether dest in
  length mac = 6%nat -> length (net_ethaddr s) = 6%nat -> holds_payload s payload ->
  let frame := ether_header s mac PROT_IP ++ datagram (net_ip_id s) (net_ip s) (destination dest) sport dport payload in
  exists rest, length (frame ++ rest) = length (net_tx_packet s) /\
  let s1 := s <| net_ip_id := u32 (net_ip_id s + 1) |> <| net_tx_packet := frame ++ rest |> in
  send_udp ether dest dport sport (Z.of_nat (length payload)) s =
  if bool_decide (mac = net_null_ethaddr) then
    (net_arp_wait_packet_ip ::= destination dest;;
     arp_wait_packet_ethaddr ::= Some (if destination dest =? 0xFFFFFFFF then net_bcast_ethaddr_ptr else ether);;
     arp_wait_tx_packet_size ::= Z.of_nat (length frame);;
     arp_wait_try ::= 1;;
     t ← get_timer ticks 0; arp_wait_timer_start ::= t;;
     arp_request;;
     mret 1) s1
  else Some (0, s1 <| sent := sent s ++ [frame] |>).
Proof.
  intros mac Hm Hs (pre & rest & Htx & Hpre & Hrest) frame.
  assert (18 <= length (net_tx_packet s))%nat as Hlen.
  { rewrite Htx, length_app, Hpre. unfold net_eth_hdr_size, ETHER_HDR_SIZE, VLAN_ETHER_HDR_SIZE. destruct (_ =? _); lia. }
  destruct (run_set_ether s (net_tx_packet s) mac PROT_IP Hm Hs Hlen) as (Heh & Hsz & Hnv).
  set (eh := ether_header s mac PROT_IP) in *.
  assert (net_eth_hdr_size s = length eh) as Hsize.
  { unfold net_eth_hdr_size. fold (no_vlan s). destruct (no_vlan s); [symmetry; by apply Hnv|].
    destruct Hsz as [E|E]; [|by rewrite E]. apply Hnv in E. done. }
  assert (drop (length eh) (net_tx_packet s) = drop (length eh) pre ++ payload ++ rest) as Hdrop.
  { rewrite Htx, drop_app_le; [done|lia]. }
  destruct (run_set_udp_header eh (drop (length eh) pre) payload rest (destination dest) dport sport s) as (rest' & Hl' & Hudp);
    [rewrite length_drop; lia|done|].
  exists rest'. split.
  { unfold frame, datagram. rewrite Htx, !length_app, Hl', Hpre, Hsize. simpl length. lia. }
  cbv zeta. unfold net_send_udp_packet. fold (destination dest).
  assert (forall f : list Z -> N Z, (read_ether (if destination dest =? 0xFFFFFFFF then net_bcast_ethaddr_ptr else ether) ≫= f) s = f mac s) as Hread.
  { intros f. unfold mac, target. destruct (_ =? _); [done|by destruct ether]. }
  do 2 nstep. change (id s) with s. rewrite Hread, Heh, Hdrop, (bind_lift _ _ _ _ eq_refl).
  rewrite (bind_some _ _ _ _ _ Hudp). nstep. rewrite app_assoc. fold frame.
  assert (Z.of_nat (length eh + IP_UDP_HDR_SIZE) + Z.of_nat (length payload) = Z.of_nat (length frame)) as ->.
  { unfold frame, datagram. rewrite !length_app. unfold IP_UDP_HDR_SIZE. simpl length. lia. }
  destruct (bool_decide _); [done|]. by rewrite (bind_some _ _ _ _ _ (run_send_packet _ _ _)).
Qed.
End Send.

(** ** Address resolution *)
Definition arp_packet (op : Z) (sha : list Z) (spa : Z) (tha : list Z) (tpa : Z) : list Z :=
  be16 ARP_ETHER ++ be16 PROT_IP ++ [ARP_HLEN; ARP_PLEN] ++ be16 op ++ sha ++ le32 spa ++ tha ++ le32 tpa.

Lemma arp_packet_length op sha spa tha tpa : length sha = 6%nat -> length tha = 6%nat -> length (arp_packet op sha spa tha tpa) = 28%nat.
Proof. intros H1 H2. unfold arp_packet. rewrite !length_app, H1, H2. done. Qed.

(** A request goes out to everybody. *)
Lemma run_arp_raw_request s source target_mac ip : length target_mac = 6%nat -> length (net_ethaddr s) = 6%nat ->
  (46 <= length (arp_tx_packet s))%nat ->
  let frame := ether_header s net_bcast_ethaddr PROT_ARP ++ arp_packet ARPOP_REQUEST (net_ethaddr s) source target_mac ip in
  exists rest, length rest = (length (arp_tx_packet s) - length frame)%nat /\
  arp_raw_request source target_mac ip s =
    Some (tt, s <| arp_tx_packet := frame ++ rest |> <| sent := sent s ++ [frame] |>).
Proof.
  intros Ht Hs Hbuf frame. destruct (run_set_ether s (arp_tx_packet s) net_bcast_ethaddr PROT_ARP) as (Heh & Hsz & _); [done|done|lia|].
  set (eh := ether_header s net_bcast_ethaddr PROT_ARP) in *.
  set (mid := take 28 (drop (length eh) (arp_tx_packet s))). set (rest := drop 28 (drop (length eh) (arp_tx_packet s))).
  assert (drop (length eh) (arp_tx_packet s) = mid ++ rest) as Hdrop by (unfold mid, rest; by rewrite take_drop).
  assert (length mid = 28%nat) as Hmid by (unfold mid; rewrite length_take, length_drop; lia).
  exists rest. assert (length frame = length eh + 28)%nat as Hf by (unfold frame; rewrite length_app, arp_packet_length by done; done).
  split; [unfold rest; rewrite !length_drop; lia|].
  unfold arp_raw_request. do 2 nstep. change (id s) with s. rewrite (bind_lift _ _ _ _ Heh), Hdrop. clearbody rest mid.
  rewrite (bind_lift _ _ _ (frame ++ rest)).
  2:   { unfold frame, arp_packet. clear Heh Hsz Hdrop. clearbody eh. destruct (net_ethaddr s) as [|e0 es]; [done|]. do 5 explicit es. destruct es; [|done].
    do 6 explicit target_mac. destruct target_mac; [|done]. do 28 explicit mid. destruct mid; [|done].
    unfold net_write_ip. cbn [app]. stores. by rewrite <- app_assoc. }
  nstep. replace (Z.of_nat (length eh + ARP_HDR_SIZE)) with (Z.of_nat (length frame)) by (unfold ARP_HDR_SIZE; lia).
  by rewrite run_send_packet.
Qed.

(** Where a packet for [dest] goes first. *)
Definition next_hop (s : net) (dest : Z) : Z :=
  if negb (dest .& net_netmask s =? net_ip s .& net_netmask s) then (if net_gateway s =? 0 then dest else net_gateway s) else dest.

Lemma run_arp_request s : length (net_ethaddr s) = 6%nat -> (46 <= length (arp_tx_packet s))%nat ->
  let hop := next_hop s (net_arp_wait_packet_ip s) in
  let frame := ether_header s net_bcast_ethaddr PROT_ARP ++ arp_packet ARPOP_REQUEST (net_ethaddr s) (net_ip s) net_null_ethaddr hop in
  exists rest, length rest = (length (arp_tx_packet s) - length frame)%nat /\
  arp_request s = Some (tt, s <| net_arp_wait_reply_ip := hop |> <| arp_tx_packet := frame ++ rest |> <| sent := sent s ++ [frame] |>).
Proof.
  intros Hs Hbuf hop frame. unfold arp_request. do 6 nstep. fold (next_hop s (net_arp_wait_packet_ip s)). fold hop.
  destruct (run_arp_raw_request (s <| net_arp_wait_reply_ip := hop |>) (net_ip s) net_null_ethaddr hop) as (rest & Hl & E); [done..|].
  exists rest. split; [exact Hl|exact E].
Qed.

(** Reading the addresses of a frame, and turning it round. *)
Lemma load_source s dest prot body : length dest = 6%nat -> length (net_ethaddr s) = 6%nat ->
  load 6 6 (ether_header s dest prot ++ body) = Some (net_ethaddr s).
Proof.
  intros Hd Hs. unfold ether_header. rewrite <- !app_assoc. do 6 explicit dest. destruct dest; [|done].
  destruct (net_ethaddr s) as [|e0 es]; [done|]. do 5 explicit es. by destruct es.
Qed.
Lemma run_update_ether s r dest addr prot prot' body : length dest = 6%nat -> length (net_ethaddr s) = 6%nat -> length addr = 6%nat ->
  length (net_ethaddr r) = 6%nat -> net_our_vlan r = net_our_vlan s -> 1514 < prot < 2 ^ 16 -> prot <> PROT_VLAN ->
  net_update_ether r (ether_header s dest prot ++ body) addr prot' =
    Some (length (ether_header s dest prot), ether_header r addr prot' ++ body).
Proof.
  intros Hd Hs Ha Hr Hv Hp Hp'. assert (of_be16 (be16 prot) = Some prot) as Hprot by (apply be16_read; lia).
  unfold net_update_ether, ether_header, no_vlan, load16. rewrite Hv.
  do 6 explicit dest. destruct dest; [|done]. do 6 explicit addr. destruct addr; [|done].
  destruct (net_ethaddr s) as [|e0 es]; [done|]. do 5 explicit es. destruct es; [|done].
  destruct (net_ethaddr r) as [|f0 fs]; [done|]. do 5 explicit fs. destruct fs; [|done].
  destruct (vlan_of (net_our_vlan s) .& VLAN_IDMASK =? VLAN_NONE).
  - cbn -[u8 Z.shiftr of_be16 Z.eqb Z.ltb]. rewrite take_0, drop_0. unfold be16 in Hprot. rewrite Hprot. cbn [mbind option_bind].
    destruct (Z.eqb_spec prot PROT_VLAN); [done|]. destruct (Z.ltb_spec 1514 prot); [|lia]. reflexivity.
  - reflexivity.
Qed.

Lemma read_arp eh op sha spa tha tpa junk : length sha = 6%nat -> length tha = 6%nat -> 0 <= op < 2 ^ 16 -> fits 32 spa -> fits 32 tpa ->
  let et := eh ++ arp_packet op sha spa tha tpa ++ junk in
  load16 (length eh) et = Some ARP_ETHER /\ load16 (length eh + 2) et = Some PROT_IP /\ load8 (length eh + 4) et = Some ARP_HLEN /\
  load8 (length eh + 5) et = Some ARP_PLEN /\ load16 (length eh + 6) et = Some op /\ load (length eh + 8) 6 et = Some sha /\
  net_read_ip (length eh + 14) et = Some spa /\ net_read_ip (length eh + 24) et = Some tpa.
Proof.
  intros Hs Ht Hop Hspa Htpa et. unfold et. rewrite <- (Nat.add_0_r (length eh)) at 1.
  rewrite !load16_app, !load8_app, !load_app, !read_ip_app. unfold arp_packet. rewrite <- !app_assoc.
  do 6 explicit sha. destruct sha; [|done]. do 6 explicit tha. destruct tha; [|done].
  rewrite <- (be16_read op), <- (le32_word spa), <- (le32_word tpa) by done. split_and!; reflexivity.
Qed.

Section Exchange.
Context (ticks : nat -> Z) (getenv : cstr -> option cstr) `{Ethernet}.
Context (call_rxhand : rxhand -> list Z -> Z -> Z -> Z -> Z -> N unit).
Context (Hdummy : forall pkt dport sip sport len s, call_rxhand dummy_handler pkt dport sip sport len s = Some (tt, s)).
Abbreviation process := (net_process_received_packet call_rxhand).

(** The checks at the head of [arp_receive] pass. *)
Lemma run_arp_checks eh op sha spa tha junk len r : length sha = 6%nat -> length tha = 6%nat -> 0 <= op < 2 ^ 16 -> fits 32 spa ->
  fits 32 (net_ip r) -> net_ip r <> 0 -> 28 <= len ->
  let et := eh ++ arp_packet op sha spa tha (net_ip r) ++ junk in
  (op = ARPOP_REPLY -> net_arp_wait_packet_ip r <> 0 -> net_arp_wait_reply_ip r = spa ->
    arp_receive call_rxhand et (length eh) len r =
    (p ← read arp_wait_packet_ethaddr;
     (match p with Some p => write_ether p sha | None => mret tt end);;
     f ← read arp_packet_handler; call_rxhand f (drop (length eh) et) 0 spa 0 len;;
     pkt ← read net_tx_packet; pkt ← lift (store 0 sha pkt); net_tx_packet ::= pkt;;
     size ← read arp_wait_tx_packet_size; net_send_packet pkt size;;
     net_arp_wait_packet_ip ::= 0;;
     arp_wait_tx_packet_size ::= 0;;
     arp_wait_packet_ethaddr ::= None) r) /\
  (op = ARPOP_REQUEST ->
    arp_receive call_rxhand et (length eh) len r =
    (s ← read id;
     src ← lift (load 6 6 et);
     '(eth_hdr_size, et) ← lift (net_update_ether s et src PROT_ARP);
     et ← lift (
       et ← store (length eh + 6) (be16 ARPOP_REPLY) et;
       sha ← load (length eh + 8) 6 et; et ← store (length eh + 18) sha et;
       et ← net_copy_ip (length eh + 24) (length eh + 14) et;
       et ← store (length eh + 8) (net_ethaddr s) et;
       net_write_ip (length eh + 14) (net_ip r) et);
     net_send_packet et (Z.of_nat (eth_hdr_size + ARP_HDR_SIZE))) r).
Proof.
  intros Hs Ht Hop Hspa Hip Hnz Hlen et.
  destruct (read_arp eh op sha spa tha (net_ip r) junk Hs Ht Hop Hspa Hip) as (L1 & L2 & L3 & L4 & L5 & L6 & L7 & L8). fold et in L1, L2, L3, L4, L5, L6, L7, L8.
  split; [intros Eop Hw Hr|intros Eop].
  all: unfold arp_receive; destruct (Z.ltb_spec len (Z.of_nat ARP_HDR_SIZE)); [unfold ARP_HDR_SIZE in *; lia|].
  all: rewrite (bind_lift _ _ _ _ L1), (bind_lift _ _ _ _ L2), (bind_lift _ _ _ _ L3), (bind_lift _ _ _ _ L4); nstep.
  all: rewrite (bind_lift _ _ _ _ L8), !Z.eqb_refl; destruct (Z.eqb_spec (net_ip r) 0); [done|]; cbn [negb orb].
  all: rewrite (bind_lift _ _ _ _ L5), Eop.
  - change (ARPOP_REPLY =? ARPOP_REQUEST) with false. change (ARPOP_REPLY =? ARPOP_REPLY) with true. cbv iota.
    nstep. destruct (Z.eqb_spec (net_arp_wait_packet_ip r) 0); [done|]. rewrite (bind_lift _ _ _ _ L7). nstep.
    rewrite Hr, Z.eqb_refl, (bind_lift _ _ _ _ L6). done.
  - reflexivity.
Qed.

(** The owner of the address answers. *)
Lemma run_answer s r junk len : mac (net_ethaddr s) -> mac (net_ethaddr r) -> fits 32 (net_ip s) -> fits 32 (net_ip r) -> net_ip r <> 0 ->
  fits 16 (net_our_vlan s) -> net_our_vlan r = net_our_vlan s ->
  let q := ether_header s net_bcast_ethaddr PROT_ARP ++ arp_packet ARPOP_REQUEST (net_ethaddr s) (net_ip s) net_null_ethaddr (net_ip r) in
  let a := ether_header r (net_ethaddr s) PROT_ARP ++ arp_packet ARPOP_REPLY (net_ethaddr r) (net_ip r) (net_ethaddr s) (net_ip s) in
  Z.of_nat (length q) <= len < 2 ^ 31 ->
  process (q ++ junk) len r =
    Some (tt, r <| net_rx_packet := q ++ junk |> <| net_rx_packet_len := len |> <| sent := sent r ++ [a] |>).
Proof.
  intros [Hs _] [Hr _] His Hir Hnz Hv Hvr q a Hlen. unfold q in *. rewrite <- app_assoc.
  rewrite length_app, arp_packet_length in Hlen by done.
  rewrite run_process by (done || lia || by right). change (PROT_ARP =? PROT_ARP) with true. cbv iota.
  set (r1 := r <| net_rx_packet := _ |> <| net_rx_packet_len := len |>).
  destruct (run_arp_checks (ether_header s net_bcast_ethaddr PROT_ARP) ARPOP_REQUEST (net_ethaddr s) (net_ip s) net_null_ethaddr junk
    (len - Z.of_nat (length (ether_header s net_bcast_ethaddr PROT_ARP))) r1) as [_ Hreq]; [done..|lia|].
  change (net_ip r1) with (net_ip r) in Hreq. rewrite Hreq by done. clear Hreq. nstep. change (id r1) with r1.
  rewrite (bind_lift _ _ _ _ (load_source s net_bcast_ethaddr PROT_ARP _ eq_refl Hs)).
  rewrite (bind_lift _ _ _ _ (run_update_ether s r1 net_bcast_ethaddr (net_ethaddr s) PROT_ARP PROT_ARP _ eq_refl Hs Hs Hr Hvr ltac:(done) ltac:(done))).
  set (eh := ether_header s net_bcast_ethaddr PROT_ARP).
  assert (length eh = length (ether_header r1 (net_ethaddr s) PROT_ARP)) as El.
  { unfold eh, ether_header, no_vlan. rewrite !length_app. change (net_our_vlan r1) with (net_our_vlan r). rewrite Hvr.
    change (net_ethaddr r1) with (net_ethaddr r). rewrite Hs, Hr. done. }
  rewrite (bind_lift _ _ _ (a ++ junk)).
  - replace (Z.of_nat (length eh + ARP_HDR_SIZE)) with (Z.of_nat (length a)).
    { by rewrite run_send_packet. }
    unfold a. rewrite length_app, arp_packet_length, El by done. done.
  - unfold a. change (net_ethaddr r1) with (net_ethaddr r). rewrite El. change (ether_header r1) with (ether_header r).
    generalize (ether_header r (net_ethaddr s) PROT_ARP) as eh'. intros eh'. unfold arp_packet.
    destruct (net_ethaddr s) as [|e0 es]; [done|]. do 5 explicit es. destruct es; [|done].
    destruct (net_ethaddr r) as [|f0 fs]; [done|]. do 5 explicit fs. destruct fs; [|done].
    unfold net_copy_ip, net_write_ip. rewrite <- !app_assoc. stores. reflexivity.
Qed.

Lemma store_over a b x : length a = length b -> store 0 b (a ++ x) = Some (b ++ x).
Proof.
  intros E. unfold store. rewrite length_app. destruct (Nat.leb_spec (0 + length b) (length a + length x)); [|lia].
  by rewrite take_0, Nat.add_0_l, drop_app_length' by done.
Qed.

(** The answer arrives: the address is noted and the waiting packet leaves. *)
Lemma run_reply s r body rest junk len : mac (net_ethaddr s) -> mac (net_ethaddr r) -> fits 32 (net_ip s) -> fits 32 (net_ip r) -> net_ip s <> 0 ->
  fits 16 (net_our_vlan s) -> net_our_vlan r = net_our_vlan s ->
  net_arp_wait_packet_ip s <> 0 -> net_arp_wait_reply_ip s = net_ip r -> arp_packet_handler s = dummy_handler ->
  arp_wait_packet_ethaddr s = Some net_server_ethaddr_ptr ->
  net_tx_packet s = (ether_header s net_null_ethaddr PROT_IP ++ body) ++ rest ->
  arp_wait_tx_packet_size s = Z.of_nat (length (ether_header s net_null_ethaddr PROT_IP ++ body)) ->
  let a := ether_header r (net_ethaddr s) PROT_ARP ++ arp_packet ARPOP_REPLY (net_ethaddr r) (net_ip r) (net_ethaddr s) (net_ip s) in
  let frame := ether_header s (net_ethaddr r) PROT_IP ++ body in
  Z.of_nat (length a) <= len < 2 ^ 31 ->
  process (a ++ junk) len s =
    Some (tt, s <| net_rx_packet := a ++ junk |> <| net_rx_packet_len := len |> <| net_server_ethaddr := net_ethaddr r |>
      <| net_tx_packet := frame ++ rest |> <| sent := sent s ++ [frame] |>
      <| net_arp_wait_packet_ip := 0 |> <| arp_wait_tx_packet_size := 0 |> <| arp_wait_packet_ethaddr := None |>).
Proof.
  intros [Hs _] [Hr _] His Hir Hnz Hv Hvr Hw Hwr Hh Hp Htx Hsz a frame Hlen. unfold a in *. rewrite <- app_assoc.
  rewrite length_app, arp_packet_length in Hlen by done.
  rewrite run_process by (done || congruence || lia || by right). change (PROT_ARP =? PROT_ARP) with true. cbv iota.
  set (s1 := s <| net_rx_packet := _ |> <| net_rx_packet_len := len |>).
  destruct (run_arp_checks (ether_header r (net_ethaddr s) PROT_ARP) ARPOP_REPLY (net_ethaddr r) (net_ip r) (net_ethaddr s) junk
    (len - Z.of_nat (length (ether_header r (net_ethaddr s) PROT_ARP))) s1) as [Hrep _]; [done..|lia|].
  change (net_ip s1) with (net_ip s) in Hrep. rewrite Hrep by done. clear Hrep. nstep.
  change (arp_wait_packet_ethaddr s1) with (arp_wait_packet_ethaddr s). rewrite Hp. unfold write_ether. do 2 nstep.
  change (arp_packet_handler _) with (arp_packet_handler s). rewrite Hh, (bind_some _ _ _ _ _ (Hdummy _ _ _ _ _ _)). nstep.
  change (net_tx_packet _) with (net_tx_packet s). rewrite Htx.
  rewrite (bind_lift _ _ _ (frame ++ rest)).
  2: { unfold frame, ether_header. rewrite <- !app_assoc. by apply store_over. }
  do 2 nstep. change (arp_wait_tx_packet_size _) with (arp_wait_tx_packet_size s). rewrite Hsz.
  replace (length (ether_header s net_null_ethaddr PROT_IP ++ body)) with (length frame).
  2: { unfold frame, ether_header. rewrite !length_app, Hr. done. }
  by rewrite (bind_some _ _ _ _ _ (run_send_packet _ _ _)).
Qed.
End Exchange.

(** C8: what net_send_udp_packet puts on the wire, when the address of the
    destination is known, is a frame that net_process_received_packet takes apart at
    the other end, with any padding behind it: the protocol there gets the same payload,
    ports and sender, for every VLAN the two share. *)
Theorem udp_delivered ticks `{Ethernet} call_rxhand ether dest dport sport payload s r :
  length (target s ether dest) = 6%nat -> target s ether dest <> net_null_ethaddr -> mac (net_ethaddr s) -> fits 16 (net_our_vlan s) ->
  holds_payload s payload ->
  net_our_vlan r = net_our_vlan s -> sendable r (net_ip s) (destination dest) sport dport payload ->
  exists frame s', net_send_udp_packet ticks ether dest dport sport (Z.of_nat (length payload)) s = Some (0, s') /\
    sent s' = sent s ++ [frame] /\
    forall junk len, Z.of_nat (length frame) <= len < 2 ^ 31 ->
      net_process_received_packet call_rxhand (frame ++ junk) len r =
      call_rxhand (udp_packet_handler r) (payload ++ junk) dport (net_ip s) sport (Z.of_nat (length payload))
        (r <| net_rx_packet := frame ++ junk |> <| net_rx_packet_len := len |>).
Proof.
  intros Hm Hnn [Hs _] Hv Htx Hvr Hsend.
  destruct (run_send_udp ticks s ether dest dport sport payload Hm Hs Htx) as (rest & _ & E).
  rewrite bool_decide_false in E by done. eexists _, _. split; [exact E|]. split; [done|].
  intros junk len Hlen. by apply run_process_udp.
Qed.

(** A link between two machines. *)
Definition linked (s r : net) : Prop :=
  mac (net_ethaddr s) /\ mac (net_ethaddr r) /\ fits 32 (net_ip s) /\ fits 32 (net_ip r) /\ net_ip s <> 0 /\ net_ip r <> 0 /\
  net_ip r <> 0xFFFFFFFF /\ net_our_vlan r = net_our_vlan s /\ fits 16 (net_our_vlan s).


(** ** Examples *)
#[export] Instance one_device : Ethernet := {| eth_devices := 1; dev_init _ _ := 0; dev_enetaddr _ := [2; 0; 0; 0; 0; 1] |}.
Definition no_protocol (f : rxhand) (pkt : list Z) (dport sip sport len : Z) : N unit := mret tt.
(** 192.168.1.50 and 192.168.1.1, with the payload "hi!" in the buffer. *)
Definition board : net := net0 <| net_ethaddr := [2; 0; 0; 0; 0; 1] |> <| net_ip := 0x3201A8C0 |> <| net_netmask := 0xFFFFFF |>
  <| net_tx_packet := replicate 42 0 ++ [104; 105; 33] ++ replicate 64 0 |>.
Definition host : net := net0 <| net_ethaddr := [2; 0; 0; 0; 0; 2] |> <| net_ip := 0x0101A8C0 |>.

Lemma board_holds b : holds_payload (board <| net_server_ethaddr := b |>) [104; 105; 33].
Proof. exists (replicate 42 0), (replicate 64 0). split; [done|]. split; [done|]. rewrite length_replicate. lia. Qed.
Lemma host_sendable : sendable host (net_ip board) (net_ip host) 1030 69 [104; 105; 33].
Proof. unfold sendable. simpl. repeat split; unfold fits; lia || (right; left; done). Qed.

Lemma board_mac : mac (net_ethaddr board).
Proof. split; [done|]. repeat constructor; done. Qed.
Lemma no_vlan_fits : fits 16 (net_our_vlan board).
Proof. done. Qed.
Lemma board_host_linked : linked board host.
Proof. unfold linked. split_and!; try done; split; try done; repeat constructor; done. Qed.

Lemma udp_delivered_witness : exists frame s',
  net_send_udp_packet (fun _ => 0) net_server_ethaddr_ptr (net_ip host) 69 1030 3 (board <| net_server_ethaddr := [2; 0; 0; 0; 0; 2] |>) =
    Some (0, s') /\ sent s' = [frame] /\
  forall junk len, Z.of_nat (length frame) <= len < 2 ^ 31 ->
    net_process_received_packet no_protocol (frame ++ junk) len host =
      Some (tt, host <| net_rx_packet := frame ++ junk |> <| net_rx_packet_len := len |>).
Proof.
  exact (udp_delivered (fun _ => 0) no_protocol net_server_ethaddr_ptr (net_ip host) 69 1030 [104; 105; 33]
    (board <| net_server_ethaddr := [2; 0; 0; 0; 0; 2] |>) host eq_refl ltac:(done) board_mac no_vlan_fits
    (board_holds [2; 0; 0; 0; 0; 2]) eq_refl host_sendable).
Defined.

