(* ===== verification/Tftp.v ===== *)
(** File transfer: uboot/net/tftp.c, for the board's configuration (reading files
    only, no multicast, no size option).

    The payload of a packet is what lies in the receive buffer from it on, so a read
    behind the packet but inside the buffer is one of stale bytes, and a read behind
    the buffer is undefined.  Messages and progress marks are left out; sprintf's %lu
    and %d of a non-negative number are its decimal digits ([simple_itoa]). *)
From Stdlib Require Import String Ascii.
From S2P Require Import Prelude Htab Ctype Strto NetSum NetState Net.

Definition WELL_KNOWN_PORT : Z := 69.
Definition TFTP_RRQ : Z := 1.
Definition TFTP_DATA : Z := 3.
Definition TFTP_ACK : Z := 4.
Definition TFTP_ERROR : Z := 5.
Definition TFTP_OACK : Z := 6.
Definition TFTP_ERR_FILE_NOT_FOUND : Z := 1.
Definition TFTP_ERR_ACCESS_DENIED : Z := 2.
Definition STATE_SEND_RRQ : Z := 1.
Definition STATE_DATA : Z := 2.
Definition STATE_TOO_LARGE : Z := 3.
Definition STATE_BAD_MAGIC : Z := 4.
Definition STATE_OACK : Z := 5.
Definition STATE_RECV_WRQ : Z := 6.
Definition STATE_SEND_WRQ : Z := 7.
Definition TFTP_BLOCK_SIZE : Z := 512.
Definition TFTP_SEQUENCE_SIZE : Z := 1 << 16.
Definition MAX_LEN : nat := 128.

(** The characters of a literal. *)
Definition text (s : string) : cstr := (fun a => Z.of_nat (nat_of_ascii a)) <$> list_ascii_of_string s.

(** strcmp of the string at [p] with a literal: it stops at the first difference. *)
Fixpoint string_is (w p : list Z) : option bool :=
  match w, p with
  | [], c :: _ => Some (c =? 0)
  | x :: w, c :: p => if c =? x then string_is w p else Some false
  | _, [] => None
  end.
(** simple_strtoul of the string at [p], in base 10, which ends inside the buffer. *)
Definition decimal_at (p : list Z) : option Z :=
  let '(v, endp) := simple_strtoul p 10 in match endp with [] => None | _ => Some v end.

Section Tftp.
Context (ticks : nat -> Z) (getenv : cstr -> option cstr) `{Ethernet}.
Abbreviation net_set_timeout_handler := (net_set_timeout_handler ticks).
Abbreviation net_start_again := (net_start_again ticks getenv).

(** [block] is an [int], the block size an [unsigned short]; their product is an
    [int]. *)
Definition store_block (block : Z) (src : list Z) (len : Z) : N unit :=
  bs ← read tftp_block_size; wrap ← read tftp_block_wrap_offset; addr ← read load_addr;
  if negb ((- 2 ^ 31 <=? block * bs) && (block * bs <? 2 ^ 31)) then undefined
  else
    let offset := u32 (block * bs + wrap) in
    let newsize := u32 (offset + len) in
    let ptr := u32 (addr + offset) in
    if (Z.of_nat (Datatypes.length src) <? len) || (2 ^ 32 <? ptr + len) then undefined
    else
      m ← read mem; mem ::= memcpy_to ptr (take (Z.to_nat len) src) m;;
      size ← read net_boot_file_size;
      if size <? newsize then net_boot_file_size ::= newsize else mret tt.

Definition new_transfer : N unit :=
  tftp_prev_block ::= 0;; tftp_block_wrap ::= 0;; tftp_block_wrap_offset ::= 0.

Definition restart : N unit := net_start_again;; mret tt.

Definition update_block_number : N unit :=
  cur ← read tftp_cur_block; prev ← read tftp_prev_block;
  if (cur =? 0) && negb (prev =? 0) then
    wrap ← read tftp_block_wrap; tftp_block_wrap ::= u32 (wrap + 1);;
    off ← read tftp_block_wrap_offset; bs ← read tftp_block_size;
    tftp_block_wrap_offset ::= u32 (off + u32 (bs * TFTP_SEQUENCE_SIZE));;
    timeout_count ::= 0
  else mret tt.

Definition tftp_complete : N unit :=
  start ← read tftp_time_start; t ← get_timer ticks start; tftp_time_start ::= t;;
  net_set_state NETLOOP_SUCCESS.

(** The payload: its bytes, and how many of them are sent (the NUL that sprintf puts
    behind the last option is not). *)
Definition tftp_payload (s : net) : option (list Z * Z) :=
  let state := tftp_state s in
  if (state =? STATE_SEND_RRQ) || (state =? STATE_SEND_WRQ) then
    timeout ← simple_itoa (timeout_ms s / 1000);
    blksize ← simple_itoa (tftp_block_size_option s);
    let pkt := be16 TFTP_RRQ ++ tftp_filename s ++ [0] ++ text "octet" ++ [0] ++ text "timeout" ++ [0] ++ timeout ++ [0] ++
               text "blksize" ++ [0] ++ blksize ++ [0] in
    Some (pkt ++ [0], Z.of_nat (Datatypes.length pkt))
  else if (state =? STATE_OACK) || (state =? STATE_RECV_WRQ) || (state =? STATE_DATA) then
    Some (be16 TFTP_ACK ++ be16 (tftp_cur_block s), 4)
  else if state =? STATE_TOO_LARGE then
    let pkt := be16 TFTP_ERROR ++ be16 3 ++ text "File too large" ++ [0] in Some (pkt, Z.of_nat (Datatypes.length pkt))
  else if state =? STATE_BAD_MAGIC then
    let pkt := be16 TFTP_ERROR ++ be16 2 ++ text "File has bad magic" ++ [0] in Some (pkt, Z.of_nat (Datatypes.length pkt))
  else Some ([], 0).

Definition tftp_send : N unit :=
  s ← read id;
  '(bytes, len) ← lift (tftp_payload s);
  pkt ← lift (store (net_eth_hdr_size s + IP_UDP_HDR_SIZE) bytes (net_tx_packet s)); net_tx_packet ::= pkt;;
  net_send_udp_packet ticks net_server_ethaddr_ptr (tftp_remote_ip s) (tftp_remote_port s) (tftp_our_port s) len;;
  mret tt.

(** The options of an acknowledgement, from byte [i] on, [k] of them left to look at. *)
Fixpoint oack_options (k : nat) (pkt : list Z) : N unit :=
  match k with
  | O => mret tt
  | S k =>
      found ← lift (string_is (text "blksize") pkt);
      (if found : bool then v ← lift (decimal_at (drop 8 pkt)); tftp_block_size ::= u16 v else mret tt);;
      oack_options k (drop 1 pkt)
  end.

(** What happens to a data packet with the number [cur] once it is known not to be a
    wrong first one. *)
Definition tftp_block (cur : Z) (pkt : list Z) (len : Z) : N unit :=
  prev ← read tftp_prev_block;
  if cur =? prev then mret tt
  else
    tftp_prev_block ::= cur;;
    max ← read tftp_timeout_count_max; timeout_count_max ::= max;;
    ms ← read timeout_ms; net_set_timeout_handler ms (Some tftp_timeout_handler);;
    store_block (cur - 1) (drop 2 pkt) len;;
    tftp_send;;
    bs ← read tftp_block_size;
    if len <? bs then tftp_complete else mret tt.

Definition tftp_data (pkt : list Z) (src len : Z) : N unit :=
  cur ← lift (load16 0 pkt); tftp_cur_block ::= cur;;
  update_block_number;;
  state ← read tftp_state;
  if (state =? STATE_SEND_RRQ) || (state =? STATE_OACK) || (state =? STATE_RECV_WRQ) then
    tftp_state ::= STATE_DATA;;
    tftp_remote_port ::= src;;
    new_transfer;;
    if negb (cur =? 1) then net_start_again;; mret tt else tftp_block cur pkt len
  else tftp_block cur pkt len.

Definition tftp_handler_body (pkt : list Z) (dest sip src len : Z) : N unit :=
  our ← read tftp_our_port; state ← read tftp_state; remote ← read tftp_remote_port;
  if negb (dest =? our) then mret tt
  else if negb (state =? STATE_SEND_RRQ) && negb (src =? remote) && negb (state =? STATE_RECV_WRQ) && negb (state =? STATE_SEND_WRQ)
  then mret tt
  else if len <? 2 then mret tt
  else
    let len := len - 2 in
    proto ← lift (load16 0 pkt);
    let pkt := drop 2 pkt in
    if proto =? TFTP_OACK then
      tftp_state ::= STATE_OACK;;
      tftp_remote_port ::= src;;
      oack_options (Z.to_nat (len - 8)) pkt;;
      tftp_send
    else if proto =? TFTP_DATA then
      if len <? 2 then mret tt else tftp_data pkt src (len - 2)
    else if proto =? TFTP_ERROR then
      code ← lift (load16 0 pkt);
      if (code =? TFTP_ERR_FILE_NOT_FOUND) || (code =? TFTP_ERR_ACCESS_DENIED) then net_set_state NETLOOP_FAIL
      else net_start_again;; mret tt
    else mret tt.

Definition tftp_timeout_handler_body : N unit :=
  count ← read timeout_count; timeout_count ::= s32 (count + 1);; max ← read timeout_count_max;
  if max <? s32 (count + 1) then restart
  else
    ms ← read timeout_ms; net_set_timeout_handler ms (Some tftp_timeout_handler);;
    state ← read tftp_state;
    if negb (state =? STATE_RECV_WRQ) then tftp_send else mret tt.

(** ** Starting *)
Definition hex_digit (d : Z) : Z := if d <? 10 then 48 + d else 55 + d.
(** sprintf "%02X" *)
Definition hex_byte (b : Z) : cstr := [hex_digit (b >> 4); hex_digit (b .& 0xf)].
Definition default_filename (ip : Z) : cstr :=
  hex_byte (ip .& 0xff) ++ hex_byte ((ip >> 8) .& 0xff) ++ hex_byte ((ip >> 16) .& 0xff) ++ hex_byte ((ip >> 24) .& 0xff) ++ text ".img".

(** net_utils.c: the four numbers of a dotted address. *)
Fixpoint ip_numbers (k : nat) (s : cstr) (addr : Z) : Z :=
  match k with
  | O => addr
  | S k =>
      let '(val, e) := simple_strtoul s 10 in
      ip_numbers k (drop 1 e) (u32 (addr << 8) .| (val .& 0xFF))
  end.
Definition htonl (v : Z) : Z := (u8 v << 24) .| (u8 (v >> 8) << 16) .| (u8 (v >> 16) << 8) .| u8 (v >> 24).
Definition string_to_ip (s : option cstr) : Z := match s with None => 0 | Some s => htonl (ip_numbers 4 s 0) end.

(** What follows the first colon. *)
Fixpoint after_colon (s : cstr) : option cstr :=
  match s with [] => None | c :: s => if c =? 58 then Some s else after_colon s end.

Definition tftp_start : N unit :=
  (match getenv (text "tftpblocksize") with Some ep => tftp_block_size_option ::= u16 (simple_strtol ep 10).1 | None => mret tt end);;
  (match getenv (text "tftptimeout") with Some ep => timeout_ms ::= u32 (simple_strtol ep 10).1 | None => mret tt end);;
  (ms ← read timeout_ms; if ms <? 1000 then timeout_ms ::= 1000 else mret tt);;
  (match getenv (text "tftptimeoutcountmax") with
   | Some ep => tftp_timeout_count_max ::= s32 (simple_strtol ep 10).1 | None => mret tt end);;
  (max ← read tftp_timeout_count_max; if max <? 0 then tftp_timeout_count_max ::= 0 else mret tt);;
  server ← read net_server_ip; tftp_remote_ip ::= server;;
  name ← read net_boot_file_name; ip ← read net_ip;
  (match name with
   | [] => tftp_filename ::= take (MAX_LEN - 1) (default_filename ip)
   | _ =>
       match after_colon name with
       | None => tftp_filename ::= take (MAX_LEN - 1) name
       | Some p => tftp_remote_ip ::= string_to_ip (Some name);; tftp_filename ::= take (MAX_LEN - 1) p
       end
   end);;
  tftp_state ::= STATE_SEND_RRQ;;
  t ← get_timer ticks 0; tftp_time_start ::= t;;
  max ← read tftp_timeout_count_max; timeout_count_max ::= max;;
  ms ← read timeout_ms; net_set_timeout_handler ms (Some tftp_timeout_handler);;
  net_set_udp_handler (Some tftp_handler);;
  tftp_remote_port ::= WELL_KNOWN_PORT;;
  timeout_count ::= 0;;
  t ← get_timer ticks 0; tftp_our_port ::= 1024 + t mod 3072;;
  tftp_cur_block ::= 0;;
  net_server_ethaddr ::= replicate 6 0;;
  tftp_block_size ::= TFTP_BLOCK_SIZE;;
  tftp_send.
End Tftp.
