(* ===== verification/NetVars.v ===== *)
(** Addresses as strings, and the variables that set them: the rest of
    uboot/net/net.c's services to the environment (copy_filename, ip_to_string,
    vlan_to_string, string_to_vlan, getenv_vlan and the callbacks). *)
From Stdlib Require Import String.
From S2P Require Import Prelude Ctype Htab EnvCommon Strto UDiv64 UFormat UFormatText UFormatNum UFormatSpec UFormatCalls.
From S2P Require Import NetSum NetState Net NetUdp Tftp.

(** What is copied; [src] is cut at its terminator. *)
Fixpoint copy_loop (src : cstr) (size : Z) : cstr :=
  let size := size - 1 in
  match src with
  | [] => []
  | c :: rest => if (0 <? size) && negb (c =? 34) then c :: copy_loop rest size else []
  end.
Definition copy_filename (src : cstr) (size : Z) : cstr :=
  if deref src =? 34 then copy_loop (drop 1 src) (size - 1) else copy_loop src size.

(** The object at [s] afterwards; network order on this machine is the other one. *)
Definition ip_to_string (s x : Z) (mem : list Z) : option (list Z) :=
  let x := htonl x in
  '(_, mem, _) ← sprintf s (chars "%d.%d.%d.%d")
    [Int ((x >> 24) .& 0xff); Int ((x >> 16) .& 0xff); Int ((x >> 8) .& 0xff); Int ((x >> 0) .& 0xff)] mem;
  Some mem.

Definition vlan_to_string (s x : Z) (mem : list Z) : option (list Z) :=
  let x := ntohs x in
  let x := if x =? 0xffff then VLAN_NONE else x in
  if x =? VLAN_NONE then
    if (5 <=? length mem)%nat then Some (chars "none" ++ [0] ++ drop 5 mem) else None
  else '(_, mem, _) ← sprintf s (chars "%d") [Int (x .& VLAN_IDMASK)] mem; Some mem.

Definition string_to_vlan (s : option cstr) : Z :=
  match s with
  | None => ntohs VLAN_NONE
  | Some s =>
      let id := if (deref s <? 48) || (57 <? deref s) then VLAN_NONE else u16 (simple_strtoul s 10).1 in
      ntohs id
  end.
Definition getenv_vlan (getenv : cstr -> option cstr) (var : cstr) : Z := string_to_vlan (getenv var).

(** *** The callbacks of the variables *)
Definition on_bootfile (value : option cstr) (op : env_op) (flags : Z) : N Z :=
  if truthy (flags .& H_PROGRAMMATIC) then mret 0
  else
    match op, value with
    | (env_op_create | env_op_overwrite), Some v => net_boot_file_name ::= copy_filename v 1024;; mret 0
    | (env_op_create | env_op_overwrite), None => undefined
    | env_op_delete, _ => mret 0
    end.
Definition on_ipaddr (value : option cstr) (op : env_op) (flags : Z) : N Z :=
  if truthy (flags .& H_PROGRAMMATIC) then mret 0 else net_ip ::= string_to_ip value;; mret 0.
Definition on_gatewayip (value : option cstr) (op : env_op) (flags : Z) : N Z :=
  if truthy (flags .& H_PROGRAMMATIC) then mret 0 else net_gateway ::= string_to_ip value;; mret 0.
Definition on_netmask (value : option cstr) (op : env_op) (flags : Z) : N Z :=
  if truthy (flags .& H_PROGRAMMATIC) then mret 0 else net_netmask ::= string_to_ip value;; mret 0.
Definition on_serverip (value : option cstr) (op : env_op) (flags : Z) : N Z :=
  if truthy (flags .& H_PROGRAMMATIC) then mret 0 else net_server_ip ::= string_to_ip value;; mret 0.
Definition on_nvlan (value : option cstr) (op : env_op) (flags : Z) : N Z :=
  if truthy (flags .& H_PROGRAMMATIC) then mret 0 else net_native_vlan ::= string_to_vlan value;; mret 0.
Definition on_vlan (value : option cstr) (op : env_op) (flags : Z) : N Z :=
  if truthy (flags .& H_PROGRAMMATIC) then mret 0 else net_our_vlan ::= string_to_vlan value;; mret 0.

(** ** File names *)
Lemma copy_loop_all name rest size : Forall (fun c => c <> 34) name -> Z.of_nat (length name) < size ->
  match rest with [] => True | c :: _ => c = 34 end -> copy_loop (name ++ rest) size = name.
Proof.
  intros Hn. revert size. induction Hn as [|c name Hc Hn IH]; intros size Hs Hr; cbn [app length copy_loop] in *.
  - destruct rest as [|c rest]; [done|]. cbn [copy_loop]. subst c. by rewrite andb_false_r.
  - destruct (Z.ltb_spec 0 (size - 1)); [|lia]. rewrite (proj2 (Z.eqb_neq _ _) Hc). cbn [andb negb]. f_equal. apply IH; [lia|done].
Qed.

(** A name that fits is copied; in quotes, without them. *)
Lemma copy_filename_name name size : Forall (fun c => c <> 34) name -> Z.of_nat (length name) + 1 < size ->
  copy_filename name size = name /\ copy_filename (34 :: name ++ [34]) size = name.
Proof.
  intros Hn Hs. unfold copy_filename. split.
  - destruct (Z.eqb_spec (deref name) 34) as [E|_].
    + destruct Hn as [|c name Hc Hn]; [done|]. by cbn in E.
    + rewrite <- (app_nil_r name) at 1. apply copy_loop_all; [done|lia|done].
  - cbn [deref Z.eqb Pos.eqb drop]. rewrite drop_0. apply copy_loop_all; [done|lia|done].
Qed.

(** What is copied fits with its terminator. *)
Lemma copy_filename_fits src size : 0 < size -> Z.of_nat (length (copy_filename src size)) < size.
Proof.
  assert (forall l z, 0 < z -> Z.of_nat (length (copy_loop l z)) < z) as Hl.
  { intros l. induction l as [|c l IH]; intros z Hz; cbn [copy_loop length]; [lia|].
    destruct (Z.ltb_spec 0 (z - 1)); cbn [andb]; [|cbn [length]; lia]. destruct (negb _); cbn [length]; [|lia].
    specialize (IH (z - 1) ltac:(lia)). lia. }
  intros Hs. unfold copy_filename. destruct (deref src =? 34) eqn:E; [|by apply Hl].
  destruct (Z.eq_dec size 1) as [->|]; [|specialize (Hl (drop 1 src) (size - 1) ltac:(lia)); lia].
  destruct (drop 1 src) as [|c l]; [done|]. cbn [copy_loop]. destruct (Z.ltb_spec 0 (1 - 1 - 1)); [lia|done].
Qed.

(** ** Internet addresses *)
Lemma lor4 a b c d : 0 <= a < 256 -> 0 <= b < 256 -> 0 <= c < 256 -> 0 <= d < 256 ->
  (a << 24) .| (b << 16) .| (c << 8) .| d = a * 2 ^ 24 + b * 2 ^ 16 + c * 2 ^ 8 + d.
Proof.
  intros Ha Hb Hc Hd. rewrite (Z.shiftl_mul_pow2 b), (Z.shiftl_mul_pow2 c) by lia. rewrite (shiftl_lor a) by lia.
  replace (a * 2 ^ 24 + b * 2 ^ 16) with ((a * 2 ^ 8 + b) << 16) by (rewrite Z.shiftl_mul_pow2 by lia; lia).
  rewrite shiftl_lor by lia.
  replace ((a * 2 ^ 8 + b) * 2 ^ 16 + c * 2 ^ 8) with ((a * 2 ^ 16 + b * 2 ^ 8 + c) << 8) by (rewrite Z.shiftl_mul_pow2 by lia; lia).
  rewrite shiftl_lor, ?Z.shiftl_mul_pow2 by lia. lia.
Qed.

(** A number from its four bytes, and the one with them in the other order. *)
Definition quad (a b c d : Z) : Z := a * 2 ^ 24 + b * 2 ^ 16 + c * 2 ^ 8 + d.
Lemma htonl_quad a b c d : 0 <= a < 256 -> 0 <= b < 256 -> 0 <= c < 256 -> 0 <= d < 256 ->
  htonl (quad a b c d) = quad d c b a.
Proof.
  intros Ha Hb Hc Hd. unfold htonl. rewrite !Z.shiftr_div_pow2 by lia.
  assert (u8 (quad a b c d) = d /\ u8 (quad a b c d / 2 ^ 8) = c /\ u8 (quad a b c d / 2 ^ 16) = b /\ u8 (quad a b c d / 2 ^ 24) = a)
    as (-> & -> & -> & ->) by (unfold u8, quad; split_and!; dlia).
  by apply lor4.
Qed.
Lemma quad_of x : 0 <= x < 2 ^ 32 -> exists a b c d, x = quad a b c d /\
  0 <= a < 256 /\ 0 <= b < 256 /\ 0 <= c < 256 /\ 0 <= d < 256.
Proof.
  intros Hx. exists (x / 2 ^ 24), (x / 2 ^ 16 mod 256), (x / 2 ^ 8 mod 256), (x mod 256). unfold quad. split_and!; dlia.
Qed.
Lemma byte_of a b c d : 0 <= a < 256 -> 0 <= b < 256 -> 0 <= c < 256 -> 0 <= d < 256 ->
  (quad a b c d >> 24) .& 0xff = a /\ (quad a b c d >> 16) .& 0xff = b /\ (quad a b c d >> 8) .& 0xff = c /\
  (quad a b c d >> 0) .& 0xff = d.
Proof.
  intros Ha Hb Hc Hd. change 0xff with (Z.ones 8). rewrite !Z.land_ones, !Z.shiftr_div_pow2 by lia. unfold quad. split_and!; dlia.
Qed.

(** A byte in decimal. *)
Lemma decimal_byte b : 0 <= b < 256 -> decimal b = radix_text 10 0 b /\ (length (decimal b) <= 3)%nat.
Proof.
  intros Hb. assert (b ∈ seqZ 0 256) as Hs by (apply elem_of_seqZ; lia).
  assert (forallb (fun b => (length (decimal b) <=? 3)%nat) (seqZ 0 256) = true) as H by (vm_compute; reflexivity).
  rewrite forallb_forall in H. apply list_elem_of_In, H, Nat.leb_le in Hs. split; [|done].
  unfold decimal. destruct (Z.ltb_spec b 0); [lia|]. by rewrite Z.abs_eq by lia.
Qed.

(** The string of an address. *)
Definition dotted (a b c d : Z) : cstr := decimal a ++ [46] ++ decimal b ++ [46] ++ decimal c ++ [46] ++ decimal d.

Lemma formats_dotted a b c d : 0 <= a < 256 -> 0 <= b < 256 -> 0 <= c < 256 -> 0 <= d < 256 ->
  format_text (chars "%d.%d.%d.%d") [Int a; Int b; Int c; Int d] = Some (dotted a b c d).
Proof.
  intros Ha Hb Hc Hd. apply formats_text. unfold dotted.
  apply (formats_d (chars ".%d.%d.%d")); [lia|]. apply (formats_char 46 (chars "%d.%d.%d")); [done|].
  apply (formats_d (chars ".%d.%d")); [lia|]. apply (formats_char 46 (chars "%d.%d")); [done|].
  apply (formats_d (chars ".%d")); [lia|]. apply (formats_char 46 (chars "%d")); [done|].
  rewrite <- (app_nil_r (decimal d)). apply (formats_d []); [lia|]. apply formats_nil.
Qed.

Lemma ip_numbers_step k b rest addr : 0 <= b < 256 -> 0 <= addr < 2 ^ 24 ->
  match rest with [] => True | c :: _ => isxdigit c = false /\ c <> 120 end ->
  ip_numbers (S k) (decimal b ++ rest) addr = ip_numbers k (drop 1 rest) (addr * 256 + b).
Proof.
  intros Hb Ha Hr. destruct (decimal_byte b Hb) as [-> _]. cbn [ip_numbers].
  destruct (strtoul_radix 10 0 b rest ltac:(by left) ltac:(lia) ltac:(lia) Hr) as (-> & _).
  f_equal. change 0xFF with (Z.ones 8). rewrite Z.land_ones, Z.mod_small by lia.
  rewrite Z.shiftl_mul_pow2, u32_small by lia.
  replace (addr * 2 ^ 8) with (addr << 8) by (by rewrite Z.shiftl_mul_pow2 by lia). by rewrite shiftl_lor by lia.
Qed.

Lemma string_to_ip_dotted a b c d : 0 <= a < 256 -> 0 <= b < 256 -> 0 <= c < 256 -> 0 <= d < 256 ->
  string_to_ip (Some (dotted a b c d)) = htonl (quad a b c d).
Proof.
  intros Ha Hb Hc Hd. unfold string_to_ip, dotted. f_equal.
  rewrite (ip_numbers_step 3) by (done || lia). cbn [app drop]. rewrite drop_0.
  rewrite (ip_numbers_step 2) by (done || lia). cbn [app drop]. rewrite drop_0.
  rewrite (ip_numbers_step 1) by (done || lia). cbn [app drop]. rewrite drop_0.
  rewrite <- (app_nil_r (decimal d)), (ip_numbers_step 0) by (done || lia). unfold quad. cbn [ip_numbers]. lia.
Qed.

(** C16: the string of any Internet address fits into sixteen bytes with its
    terminator, and is read back as that address. *)
Theorem ip_string_roundtrip s x mem :
  0 <= x < 2 ^ 32 -> 0 <= s -> s + 16 < 2 ^ 32 -> (16 <= length mem)%nat ->
  exists t, (length t < 16)%nat /\ ip_to_string s x mem = Some (t ++ [0] ++ drop (S (length t)) mem) /\
    string_to_ip (Some t) = x.
Proof.
  intros Hx Hs Hs' Hm. destruct (quad_of x Hx) as (a & b & c & d & -> & Ha & Hb & Hc & Hd).
  exists (dotted d c b a).
  assert (length (dotted d c b a) < 16)%nat as Hl.
  { unfold dotted. rewrite !length_app. cbn [length].
    pose proof (decimal_byte a Ha) as [_ ?]. pose proof (decimal_byte b Hb) as [_ ?].
    pose proof (decimal_byte c Hc) as [_ ?]. pose proof (decimal_byte d Hd) as [_ ?]. lia. }
  split; [done|]. split.
  - unfold ip_to_string. rewrite htonl_quad by done. cbv zeta.
    destruct (byte_of d c b a Hd Hc Hb Ha) as (-> & -> & -> & ->).
    rewrite (run_sprintf s _ _ _ _ Hs (formats_dotted d c b a Hd Hc Hb Ha)) by (unfold INT_MAX; lia). done.
  - by rewrite string_to_ip_dotted, htonl_quad.
Qed.

Lemma ip_string_roundtrip_witness :
  exists t, (length t < 16)%nat /\ ip_to_string 4096 0x0a00a8c0 (replicate 16 7) = Some (t ++ [0] ++ drop (S (length t)) (replicate 16 7)) /\
    string_to_ip (Some t) = 0x0a00a8c0.
Proof. apply (ip_string_roundtrip 4096 0x0a00a8c0 (replicate 16 7)); [lia|lia|lia|reflexivity]. Defined.

Example ip_string : ip_to_string 4096 0x0a00a8c0 (replicate 16 7) = Some (chars "192.168.0.10" ++ [0; 7; 7; 7]).
Proof. vm_compute. reflexivity. Qed.

(** What "%pI4" writes is the same string. *)
Lemma ip4_chars_dotted a b c d : 0 <= a < 256 -> 0 <= b < 256 -> 0 <= c < 256 -> 0 <= d < 256 ->
  ip4_chars [a; b; c; d] (seq 0 4) = Some (dotted a b c d).
Proof.
  assert (forall z, 0 <= z < 256 -> rev (put_dec_trunc [] z) = decimal z /\ (3 <? length (put_dec_trunc [] z))%nat = false) as Hz.
  { intros z Hz. assert (z ∈ seqZ 0 256) as Hs by (apply elem_of_seqZ; lia).
    assert (forallb (fun b => bool_decide (rev (put_dec_trunc [] b) = decimal b) && negb (3 <? length (put_dec_trunc [] b))%nat)
      (seqZ 0 256) = true) as H by (vm_compute; reflexivity).
    rewrite forallb_forall in H. apply list_elem_of_In, H, andb_prop in Hs as [H1%bool_decide_eq_true H2%negb_true_iff]. done. }
  intros Ha Hb Hc Hd. cbn [ip4_chars seq lookup list_lookup mbind option_bind]. cbv zeta.
  destruct (Hz a Ha) as [-> ->], (Hz b Hb) as [-> ->], (Hz c Hc) as [-> ->], (Hz d Hd) as [-> ->].
  cbn [mbind option_bind Nat.eqb negb app]. unfold dotted. by rewrite app_nil_r.
Qed.

(** ** VLANs *)
Definition vlan_checked (v : Z) : bool :=
  let t := decimal v in
  (length t <=? 4)%nat && (48 <=? deref t) && (deref t <=? 57) && ((simple_strtoul t 10).1 =? v).
Lemma vlan_decimal v : 0 <= v < 4096 -> vlan_checked v = true.
Proof.
  intros Hv. assert (v ∈ seqZ 0 4096) as Hs by (apply elem_of_seqZ; lia).
  assert (forallb vlan_checked (seqZ 0 4096) = true) as H by (vm_compute; reflexivity).
  rewrite forallb_forall in H. by apply list_elem_of_In, H in Hs.
Qed.

(** The string of a VLAN is read back as the VLAN the frames carry. *)
Lemma vlan_string_roundtrip s x mem :
  0 <= x < 2 ^ 16 -> 0 <= s -> s + 16 < 2 ^ 32 -> (5 <= length mem)%nat ->
  exists t, vlan_to_string s x mem = Some (t ++ [0] ++ drop (S (length t)) mem) /\
    string_to_vlan (Some t) = ntohs (vlan_of x .& VLAN_IDMASK).
Proof.
  intros Hx Hs Hs' Hm. unfold vlan_to_string, vlan_of. cbv zeta.
  destruct (Z.eqb_spec (if ntohs x =? 65535 then VLAN_NONE else ntohs x) VLAN_NONE) as [->|Hn].
  - exists (chars "none"). destruct (Nat.leb_spec 5 (length mem)); [|lia]. done.
  - set (v := (if ntohs x =? 65535 then VLAN_NONE else ntohs x) .& VLAN_IDMASK).
    assert (0 <= v < 4096) as Hv by (subst v; change VLAN_IDMASK with (Z.ones 12); rewrite Z.land_ones by lia; apply Z.mod_pos_bound; lia).
    pose proof (vlan_decimal v Hv) as Hc. unfold vlan_checked in Hc. cbv zeta in Hc.
    apply andb_prop in Hc as [[[Hlen%Nat.leb_le H1]%andb_prop H2]%andb_prop H3%Z.eqb_eq].
    exists (decimal v). split.
    + assert (format_text (chars "%d") [Int v] = Some (decimal v)) as HT.
      { apply formats_text. rewrite <- (app_nil_r (decimal v)). apply (formats_d []); [lia|]. apply formats_nil. }
      rewrite (run_sprintf s _ _ _ _ Hs HT) by (unfold INT_MAX; lia). done.
    + unfold string_to_vlan. rewrite H3. apply Z.leb_le in H1, H2.
      destruct (Z.ltb_spec (deref (decimal v)) 48); [lia|]. destruct (Z.ltb_spec 57 (deref (decimal v))); [lia|].
      cbn [orb]. by rewrite u16_small by lia.
Qed.

(** ** The variables *)

(** setting one of the address variables to the string of an address makes it the
    board's, the gateway's, the netmask or the server's address; the network code
    itself, which sets variables as a program, does not come back to its own state. *)
Theorem variables_set_addresses s0 x mem op flags st :
  0 <= x < 2 ^ 32 -> 0 <= s0 -> s0 + 16 < 2 ^ 32 -> (16 <= length mem)%nat -> flags .& H_PROGRAMMATIC = 0 ->
  exists t, ip_to_string s0 x mem = Some (t ++ [0] ++ drop (S (length t)) mem) /\
    on_ipaddr (Some t) op flags st = Some (0, st <| net_ip := x |>) /\
    on_gatewayip (Some t) op flags st = Some (0, st <| net_gateway := x |>) /\
    on_netmask (Some t) op flags st = Some (0, st <| net_netmask := x |>) /\
    on_serverip (Some t) op flags st = Some (0, st <| net_server_ip := x |>) /\
    on_ipaddr (Some t) op (flags .| H_PROGRAMMATIC) st = Some (0, st).
Proof.
  intros Hx Hs Hs' Hm Hf. destruct (quad_of x Hx) as (a & b & c & d & -> & Ha & Hb & Hc & Hd).
  exists (dotted d c b a). pose proof (string_to_ip_dotted d c b a Hd Hc Hb Ha) as E. rewrite htonl_quad in E by done.
  assert (truthy (flags .& H_PROGRAMMATIC) = false) as F by (by rewrite Hf).
  assert (truthy ((flags .| H_PROGRAMMATIC) .& H_PROGRAMMATIC) = true) as F'.
  { rewrite Z.land_lor_distr_l, Hf, Z.lor_0_l. done. }
  unfold on_ipaddr, on_gatewayip, on_netmask, on_serverip. rewrite F, F', E. split; [|done].
  unfold ip_to_string. rewrite htonl_quad by done. cbv zeta. destruct (byte_of d c b a Hd Hc Hb Ha) as (-> & -> & -> & ->).
  rewrite (run_sprintf s0 _ _ _ _ Hs (formats_dotted d c b a Hd Hc Hb Ha)); [done|..]; try (unfold INT_MAX);
    unfold dotted; rewrite !length_app; cbn [length];
    pose proof (decimal_byte a Ha) as [_ ?]; pose proof (decimal_byte b Hb) as [_ ?];
    pose proof (decimal_byte c Hc) as [_ ?]; pose proof (decimal_byte d Hd) as [_ ?]; lia.
Qed.

Lemma variables_set_addresses_witness :
  exists t, ip_to_string 4096 0x0a00a8c0 (replicate 16 7) = Some (t ++ [0] ++ drop (S (length t)) (replicate 16 7)) /\
    on_ipaddr (Some t) env_op_create 0 net0 = Some (0, net0 <| net_ip := 0x0a00a8c0 |>) /\
    on_gatewayip (Some t) env_op_create 0 net0 = Some (0, net0 <| net_gateway := 0x0a00a8c0 |>) /\
    on_netmask (Some t) env_op_create 0 net0 = Some (0, net0 <| net_netmask := 0x0a00a8c0 |>) /\
    on_serverip (Some t) env_op_create 0 net0 = Some (0, net0 <| net_server_ip := 0x0a00a8c0 |>) /\
    on_ipaddr (Some t) env_op_create (0 .| H_PROGRAMMATIC) net0 = Some (0, net0).
Proof. apply (variables_set_addresses 4096 0x0a00a8c0 (replicate 16 7)); [lia|lia|lia|simpl; lia|reflexivity]. Defined.

(** ** The default name of the boot file *)
Lemma two_hex_byte b : 0 <= b < 256 -> two_hex b = hex_byte b.
Proof.
  intros Hb. assert (b ∈ seqZ 0 256) as Hs by (apply elem_of_seqZ; lia).
  assert (forallb (fun b => bool_decide (two_hex b = hex_byte b)) (seqZ 0 256) = true) as H by (vm_compute; reflexivity).
  rewrite forallb_forall in H. by apply list_elem_of_In, H, bool_decide_eq_true in Hs.
Qed.

(** What tftp_start names it is what its format says. *)
Lemma default_filename_printed a b c d : 0 <= a < 256 -> 0 <= b < 256 -> 0 <= c < 256 -> 0 <= d < 256 ->
  format_text (chars "%02X%02X%02X%02X.img") [Int d; Int c; Int b; Int a] = Some (default_filename (quad a b c d)).
Proof.
  intros Ha Hb Hc Hd. apply formats_text. unfold default_filename.
  destruct (byte_of a b c d Ha Hb Hc Hd) as (-> & -> & -> & E). rewrite Z.shiftr_0_r in E. rewrite E.
  rewrite <- !two_hex_byte by done.
  apply (formats_02X (chars "%02X%02X%02X.img")); [lia|]. apply (formats_02X (chars "%02X%02X.img")); [lia|].
  apply (formats_02X (chars "%02X.img")); [lia|]. apply (formats_02X (chars ".img")); [lia|].
  change (Tftp.text ".img") with (chars ".img").
  do 4 (apply formats_char; [done|]). apply formats_nil.
Qed.
