(* ===== verification/TftpFile.v ===== *)
(** A file that arrives: the handlers of tftp.c, driven by the packets of a server
    and by timeouts, leave the file in memory. *)
From S2P Require Import Prelude Htab Crc32 NetSum NetState Net NetUdp Tftp.

(** ** Memory *)
Lemma memcpy_next dst (xs ys : list Z) m a :
  memcpy_to (dst + Z.of_nat (length xs)) ys (memcpy_to dst xs m) a = memcpy_to dst (xs ++ ys) m a.
Proof.
  unfold memcpy_to. rewrite length_app, Nat2Z.inj_add.
  destruct (Z.lt_ge_cases a (dst + Z.of_nat (length xs))).
  - rewrite (proj2 (Z.leb_gt _ _)) by lia. cbn [andb]. destruct (Z.leb_spec dst a); cbn [andb]; [|done].
    rewrite !(proj2 (Z.ltb_lt _ _)) by lia. by rewrite app_nth1 by lia.
  - rewrite (proj2 (Z.leb_le _ _)), (proj2 (Z.leb_le dst a)) by lia. cbn [andb].
    rewrite (proj2 (Z.ltb_ge a (dst + Z.of_nat (length xs)))) by lia. rewrite Z.add_assoc.
    destruct (Z.ltb_spec a (dst + Z.of_nat (length xs) + Z.of_nat (length ys))); [|done].
    rewrite app_nth2 by lia. f_equal. lia.
Qed.
Lemma memcpy_ext dst bs m m' : (forall a, m a = m' a) -> forall a, memcpy_to dst bs m a = memcpy_to dst bs m' a.
Proof. intros E a. unfold memcpy_to. by destruct (_ && _). Qed.
Lemma memcpy_nil dst m a : memcpy_to dst [] m a = m a.
Proof. unfold memcpy_to. cbn [length]. destruct (Z.leb_spec dst a), (Z.ltb_spec a (dst + Z.of_nat 0)); cbn [andb]; done || lia. Qed.

(** ** Sending *)

(** The board can send to the server: buffers and addresses are in order, and the
    address of the server is known. *)
Record connected (s : net) : Prop := {
  c_mac : mac (net_ethaddr s);
  c_server : length (net_server_ethaddr s) = 6%nat;
  c_known : net_server_ethaddr s <> net_null_ethaddr;
  c_remote : 0 < tftp_remote_ip s < 0xFFFFFFFF;
  c_buffer : (1536 <= length (net_tx_packet s))%nat
}.

(** The frame with a payload from the board to the server. *)
Definition to_server (s : net) (payload : list Z) : list Z :=
  ether_header s (net_server_ethaddr s) PROT_IP ++
  datagram (net_ip_id s) (net_ip s) (tftp_remote_ip s) (tftp_our_port s) (tftp_remote_port s) payload.

Section Send.
Context (ticks : nat -> Z).

(** The payload is put in its place in the buffer. *)
Lemma run_tftp_prepare s payload more : (1536 <= length (net_tx_packet s))%nat ->
  tftp_payload s = Some (payload ++ more, Z.of_nat (length payload)) -> (length payload + length more <= 1400)%nat ->
  exists pkt, length pkt = length (net_tx_packet s) /\ holds_payload (s <| net_tx_packet := pkt |>) payload /\
  tftp_send ticks s = (net_send_udp_packet ticks net_server_ethaddr_ptr (tftp_remote_ip s) (tftp_remote_port s) (tftp_our_port s)
    (Z.of_nat (length payload));; mret tt) (s <| net_tx_packet := pkt |>).
Proof.
  intros Hb Hp Hl. unfold tftp_send. nstep. change (id s) with s. rewrite (bind_lift _ _ _ _ Hp).
  set (off := (net_eth_hdr_size s + IP_UDP_HDR_SIZE)%nat).
  assert (off <= 46)%nat as Hoff by (unfold off, net_eth_hdr_size, ETHER_HDR_SIZE, VLAN_ETHER_HDR_SIZE, IP_UDP_HDR_SIZE; destruct (_ =? _); lia).
  set (pre := take off (net_tx_packet s)). set (post := drop (off + length (payload ++ more)) (net_tx_packet s)).
  assert (length pre = off) as Hpre by (unfold pre; rewrite length_take; lia).
  assert (length post = length (net_tx_packet s) - (off + length (payload ++ more)))%nat as Hpost by (unfold post; by rewrite length_drop).
  assert (store off (payload ++ more) (net_tx_packet s) = Some (pre ++ (payload ++ more) ++ post)) as Hst.
  { unfold store. rewrite length_app. destruct (Nat.leb_spec (off + (length payload + length more)) (length (net_tx_packet s))); [|lia].
    unfold pre, post. by rewrite length_app. }
  rewrite (bind_lift _ _ _ _ Hst). nstep. eexists. split; [|split; [|reflexivity]].
  - rewrite !length_app, Hpre, Hpost, length_app. lia.
  - exists pre, (more ++ post). split; [cbn [put set_net_tx_packet net_tx_packet]; by rewrite <- app_assoc|].
    split; [exact Hpre|]. rewrite length_app, Hpost, length_app. lia.
Qed.

Lemma run_tftp_send s payload more : connected s -> tftp_payload s = Some (payload ++ more, Z.of_nat (length payload)) ->
  (length payload + length more <= 1400)%nat ->
  exists pkt, (1536 <= length pkt)%nat /\
  tftp_send ticks s = Some (tt, s <| net_ip_id := u32 (net_ip_id s + 1) |> <| net_tx_packet := pkt |>
    <| sent := sent s ++ [to_server s payload] |>).
Proof.
  intros [Hm Hsv Hk Hr Hb] Hp Hl. destruct (run_tftp_prepare s payload more Hb Hp Hl) as (pkt & Hpkt & Hhold & ->).
  set (s1 := s <| net_tx_packet := _ |>).
  assert (destination (tftp_remote_ip s) = tftp_remote_ip s) as Hd.
  { unfold destination. destruct (Z.eqb_spec (tftp_remote_ip s) 0); [lia|done]. }
  assert (target s1 net_server_ethaddr_ptr (tftp_remote_ip s) = net_server_ethaddr s) as Ht.
  { unfold target. rewrite Hd. destruct (Z.eqb_spec (tftp_remote_ip s) 0xFFFFFFFF); [lia|done]. }
  destruct (run_send_udp ticks s1 net_server_ethaddr_ptr (tftp_remote_ip s) (tftp_remote_port s) (tftp_our_port s) payload) as (rest & Hlen & E);
    [by rewrite Ht|apply Hm|exact Hhold|].
  rewrite Ht, Hd in E. rewrite bool_decide_false in E by done.
  rewrite (bind_some _ _ _ _ _ E). change (ether_header s1) with (ether_header s).
  rewrite Ht, Hd in Hlen. eexists. split; [|reflexivity].
  eapply Nat.le_trans; [|apply Nat.eq_le_incl; symmetry; exact Hlen].
  unfold s1. cbn [put set_net_tx_packet net_tx_packet]. lia.
Qed.
End Send.

(** ** The server's side *)
Inductive event := Packet (pkt : list Z) (dest sip src len : Z) | Timeout.

Definition ack (k : Z) : list Z := be16 TFTP_ACK ++ be16 (k mod 2 ^ 16).
(** What is repeated after [k] blocks. *)
Definition repeated (first : list Z) (k : Z) : list Z := if k =? 0 then first else ack k.

Section Session.
Context (file : list Z) (bs port : Z).

(** Blocks are numbered from 1; the last one is shorter than [bs]. *)
Definition blocks : Z := Z.of_nat (length file) / bs + 1.
Definition block (k : Z) : list Z := take (Z.to_nat bs) (drop (Z.to_nat ((k - 1) * bs)) file).
Definition front (k : Z) : list Z := take (Z.to_nat (k * bs)) file.
Definition data (k : Z) : list Z := be16 TFTP_DATA ++ be16 (k mod 2 ^ 16) ++ block k.

(** What the board was sent so far, [k] blocks of the file and [c] timeouts since the
    block number wrapped, and what it has to answer: [first] is what it repeats
    before the first block.  Packets may be repeated, may be followed by anything in
    the buffer, and packets for other ports or from other senders may come in
    between. *)
Inductive transfer (our_port max : Z) (first : list Z) : Z -> Z -> list (list Z) -> list event -> Prop :=
  | transfer_start : transfer our_port max first 0 0 [] []
  | transfer_block k c out evs junk sip : transfer our_port max first k c out evs -> k < blocks ->
      transfer our_port max first (k + 1) (if (k + 1) mod 2 ^ 16 =? 0 then 0 else c) (out ++ [ack (k + 1)])
        (evs ++ [Packet (data (k + 1) ++ junk) our_port sip port (4 + Z.of_nat (length (block (k + 1))))])
  | transfer_again k c out evs junk sip : transfer our_port max first k c out evs -> 0 < k ->
      transfer our_port max first k c out
        (evs ++ [Packet (data k ++ junk) our_port sip port (4 + Z.of_nat (length (block k)))])
  | transfer_noise k c out evs pkt dest sip src len : transfer our_port max first k c out evs ->
      dest <> our_port \/ (0 < k /\ src <> port) ->
      transfer our_port max first k c out (evs ++ [Packet pkt dest sip src len])
  | transfer_lost k c out evs : transfer our_port max first k c out evs -> c < max ->
      transfer our_port max first k (c + 1) (out ++ [repeated first k]) (evs ++ [Timeout]).

Context (Hbs : 0 < bs <= 2 ^ 15).

Lemma front_block k : 0 <= k -> front k ++ block (k + 1) = front (k + 1).
Proof.
  intros Hk. unfold front, block. replace (k + 1 - 1) with k by lia. rewrite take_take_drop. f_equal. lia.
Qed.
Lemma front_length k : 0 <= k < blocks -> Z.of_nat (length (front k)) = k * bs.
Proof.
  intros Hk. unfold front, blocks in *. rewrite length_take. assert (k * bs <= Z.of_nat (length file)) by dnia. lia.
Qed.
Lemma block_short k : 0 <= k < blocks -> Z.of_nat (length (block (k + 1))) <= bs /\
  (Z.of_nat (length (block (k + 1))) < bs <-> k + 1 = blocks).
Proof.
  intros Hk. unfold block, blocks in *. replace (k + 1 - 1) with k by lia. rewrite length_take, length_drop.
  assert (k * bs <= Z.of_nat (length file)) by dnia. split; [lia|].
  destruct (Z.eq_dec (k + 1) (Z.of_nat (length file) / bs + 1)) as [E|E].
  - assert (Z.of_nat (length file) < k * bs + bs) by (replace k with (Z.of_nat (length file) / bs) by lia; dnia). lia.
  - assert (k * bs + bs <= Z.of_nat (length file)) by dnia. lia.
Qed.
Lemma front_all : front blocks = file.
Proof. unfold front, blocks. apply take_ge. apply Nat2Z.inj_le. rewrite Z2Nat.id by dnia. dnia. Qed.
End Session.

(** What no handler changes. *)
Definition fixed (s : net) :=
  (load_addr s, tftp_our_port s, tftp_remote_ip s, net_ip s, net_ethaddr s, net_server_ethaddr s, net_our_vlan s, timeout_ms s,
   tftp_timeout_count_max s, tftp_filename s, tftp_block_size_option s, net_arp_wait_packet_ip s, net_try_count s, udp_packet_handler s, env_hex s).

(** [f] carries [payload] from the board to the server. *)
Definition carries (s : net) (f payload : list Z) : Prop :=
  exists id rport, f = ether_header s (net_server_ethaddr s) PROT_IP ++
    datagram id (net_ip s) (tftp_remote_ip s) (tftp_our_port s) rport payload.

(** The board in the middle of a session that began in [s0]: what it holds, *)
Record holding (file : list Z) (bs : Z) (s0 : net) (k c : Z) (out : list (list Z)) (s : net) : Prop := {
  h_fixed : fixed s = fixed s0;
  h_buffer : (1536 <= length (net_tx_packet s))%nat;
  h_bs : tftp_block_size s = bs;
  h_mem : forall a, mem s a = memcpy_to (load_addr s0) (front file bs k) (mem s0) a;
  h_size : net_boot_file_size s = Z.of_nat (length (front file bs k));
  h_count : timeout_count s = c;
  h_max : timeout_count_max s = tftp_timeout_count_max s0;
  h_sent : exists fs, sent s = sent s0 ++ fs /\ Forall2 (carries s0) fs out
}.
(** the number of block [k], *)
Definition numbered (bs port : Z) (k : Z) (s : net) : Prop :=
  tftp_state s = STATE_DATA /\ tftp_cur_block s = k mod 2 ^ 16 /\
  tftp_block_wrap_offset s = u32 (bs * 2 ^ 16 * (k / 2 ^ 16)) /\ tftp_remote_port s = port.
(** and what it waits with. *)
Definition waiting (bs port : Z) (s0 : net) (k : Z) (s : net) : Prop :=
  if k =? 0 then
    tftp_state s = tftp_state s0 /\ tftp_cur_block s = tftp_cur_block s0 /\ tftp_remote_port s = tftp_remote_port s0
  else numbered bs port k s /\ tftp_prev_block s = k mod 2 ^ 16.
Definition receiving (file : list Z) (bs port : Z) (s0 : net) (k c : Z) (out : list (list Z)) (s : net) : Prop :=
  holding file bs s0 k c out s /\ waiting bs port s0 k s.

(** The timer runs, since a read of the clock that is past. *)
Definition timed (ticks : nat -> Z) (s : net) : Prop :=
  time_handler s = Some tftp_timeout_handler /\ time_delta s = u32 (timeout_ms s * 1000) / 1000 /\
  exists i, (i < timer_reads s)%nat /\ time_start s = u32 (ticks i - 0).

Section Transfer.
Context (ticks : nat -> Z) (getenv : cstr -> option cstr) `{Ethernet}.
Definition handle (e : event) : N unit :=
  match e with
  | Packet pkt dest sip src len => tftp_handler_body ticks getenv pkt dest sip src len
  | Timeout => tftp_timeout_handler_body ticks getenv
  end.
Fixpoint handle_all (evs : list event) : N unit :=
  match evs with [] => mret tt | e :: evs => handle e;; handle_all evs end.

Lemma handle_app evs1 evs2 s s1 : handle_all evs1 s = Some (tt, s1) -> handle_all (evs1 ++ evs2) s = handle_all evs2 s1.
Proof.
  revert s. induction evs1 as [|e evs1 IH]; intros s; [by intros [= <-]|]. cbn [handle_all app].
  unfold mbind, N_bind. destruct (handle e s) as [[[] s2]|]; [apply IH|done].
Qed.

Context (file : list Z) (bs port : Z) (s0 : net).
Context (Hbs : 0 < bs <= 2 ^ 15) (Hroom : 0 <= load_addr s0) (Hfits : load_addr s0 + Z.of_nat (length file) < 2 ^ 32).
Context (Hconn : connected s0) (Hms : 1000 <= timeout_ms s0 < 2 ^ 32) (Hmax : tftp_timeout_count_max s0 < 2 ^ 31 - 1).
Context (Hbegin : (tftp_state s0 = STATE_SEND_RRQ \/ (tftp_state s0 = STATE_OACK /\ tftp_remote_port s0 = port))).
Context (request more : list Z) (Hreq : tftp_payload s0 = Some (request ++ more, Z.of_nat (length request))).
Context (Hreq_short : (length request + length more <= 1400)%nat).
Abbreviation receiving := (receiving file bs port s0).
Abbreviation blocks := (blocks file bs).

Lemma fixed_connected s : fixed s = fixed s0 -> (1536 <= length (net_tx_packet s))%nat -> connected s.
Proof. intros [= _ _ E1 _ E2 E3 _ _ _ _ _ _ _ _ _] Hb. destruct Hconn. split; congruence. Qed.
Lemma fixed_carries s payload : fixed s = fixed s0 -> carries s0 (to_server s payload) payload.
Proof.
  intros E. unfold carries, to_server. exists (net_ip_id s), (tftp_remote_port s).
  injection E as _ E1 E2 E3 E4 E5 E6 _ _ _ _ _ _ _ _. unfold ether_header, no_vlan. by rewrite E1, E2, E3, E4, E5, E6.
Qed.

(** Sending keeps everything but what was sent. *)
Lemma receiving_sent k c out s payload pkt id : receiving k c out s -> (1536 <= length pkt)%nat ->
  receiving k c (out ++ [payload]) (s <| net_ip_id := id |> <| net_tx_packet := pkt |> <| sent := sent s ++ [to_server s payload] |>).
Proof.
  intros [[] Hw] Hp. split; [|exact Hw]. split; try done. destruct h_sent0 as (fs & E & Hfs). exists (fs ++ [to_server s payload]).
  split; [cbn; by rewrite E, app_assoc|]. apply Forall2_app; [done|]. constructor; [|done]. by apply fixed_carries.
Qed.

(** What is sent next, when nothing new came. *)
Lemma receiving_payload k c out s : receiving k c out s -> exists more',
  tftp_payload s = Some (repeated request k ++ more', Z.of_nat (length (repeated request k))) /\
  (length (repeated request k) + length more' <= 1400)%nat /\ tftp_state s <> STATE_RECV_WRQ.
Proof.
  intros [[] Hw]. unfold repeated. unfold waiting in Hw. destruct (Z.eqb_spec k 0) as [->|Hn].
  - destruct Hw as (E1 & E2 & _). exists more. split; [|split; [done|rewrite E1; destruct Hbegin as [->|[-> _]]; done]].
    rewrite <- Hreq. injection h_fixed0 as _ _ _ _ _ _ _ F1 _ F2 F3 _ _ _ _. unfold tftp_payload. by rewrite E1, E2, F1, F2, F3.
  - destruct Hw as ((E1 & E2 & _) & _). exists []. rewrite app_nil_r. split; [|split; [simpl; lia|by rewrite E1]].
    unfold tftp_payload. rewrite E1, E2. done.
Qed.

Lemma run_receiving_send k c out s : receiving k c out s ->
  exists s', tftp_send ticks s = Some (tt, s') /\ receiving k c (out ++ [repeated request k]) s' /\ net_state s' = net_state s /\
    (timed ticks s -> timed ticks s').
Proof.
  intros Hr. destruct (receiving_payload _ _ _ _ Hr) as (more' & Hp & Hl & _). pose proof Hr as [[] _].
  destruct (run_tftp_send ticks s _ more' (fixed_connected s h_fixed0 h_buffer0) Hp Hl) as (pkt & Hpkt & E).
  eexists. split; [exact E|]. split; [by apply receiving_sent|]. done.
Qed.

(** The timer starts again. *)
Lemma run_rearm s : timeout_ms s = timeout_ms s0 -> forall {A} (f : unit -> N A), exists i t d,
  let s1 := s <| time_handler := Some tftp_timeout_handler |> <| timer_reads := i |> <| time_start := t |> <| time_delta := d |> in
  (NetState.net_set_timeout_handler ticks (timeout_ms s0) (Some tftp_timeout_handler) ≫= f) s = f tt s1 /\ timed ticks s1.
Proof.
  intros Ems A f. unfold NetState.net_set_timeout_handler. destruct (Z.eqb_spec (timeout_ms s0) 0); [lia|].
  unfold get_timer. repeat nstep. eexists _, _, _. split; [reflexivity|]. rewrite <- Ems. split; [done|]. split; [done|].
  exists (timer_reads s). split; [apply Nat.lt_succ_diag_r|done].
Qed.
Lemma holding_timer k c out s h i t d : holding file bs s0 k c out s ->
  holding file bs s0 k c out (s <| time_handler := h |> <| timer_reads := i |> <| time_start := t |> <| time_delta := d |>).
Proof. intros []. by split. Qed.

Lemma run_timeout k c out s : receiving k c out s -> 0 <= c -> c < tftp_timeout_count_max s0 ->
  exists s', handle Timeout s = Some (tt, s') /\ receiving k (c + 1) (out ++ [repeated request k]) s' /\ net_state s' = net_state s.
Proof.
  intros Hr Hc Hc'. pose proof Hr as [[] Hw]. cbn [handle]. unfold tftp_timeout_handler_body. do 3 nstep.
  rewrite h_count0. assert (s32 (c + 1) = c + 1) as -> by (unfold s32; rewrite Z.mod_small by lia; lia).
  set (s1 := s <| timeout_count := c + 1 |>). change (timeout_count_max s1) with (timeout_count_max s). rewrite h_max0.
  destruct (Z.ltb_spec (tftp_timeout_count_max s0) (c + 1)); [lia|]. nstep.
  assert (timeout_ms s1 = timeout_ms s0) as Ems by (by injection h_fixed0). rewrite Ems.
  destruct (run_rearm s1 Ems (fun _ => state ← read tftp_state;
    if negb (state =? STATE_RECV_WRQ) then tftp_send ticks else mret tt)) as (i & t & d & -> & _). nstep.
  match goal with |- context [if negb (tftp_state ?x =? _) then _ else _] => set (s2 := x) end.
  assert (receiving k (c + 1) out s2) as Hr2 by (split; [apply holding_timer; by split|exact Hw]).
  destruct (receiving_payload _ _ _ _ Hr2) as (_ & _ & _ & Hst). rewrite (proj2 (Z.eqb_neq _ _) Hst).
  destruct (run_receiving_send _ _ _ _ Hr2) as (s' & E & Hr' & Hs' & _). by exists s'.
Qed.

(** *** A data packet *)
Definition block_number (k : Z) : Z := k mod 2 ^ 16.
Lemma data_head k rest : data file bs k ++ rest = be16 TFTP_DATA ++ be16 (block_number k) ++ block file bs k ++ rest.
Proof. unfold data, block_number. by rewrite <- !app_assoc. Qed.
Lemma block_number_range k : 0 <= block_number k < 2 ^ 16.
Proof. unfold block_number. dlia. Qed.

(** It reaches [tftp_data]. *)
Lemma run_data_packet s k junk sip src len : tftp_our_port s = tftp_our_port s0 ->
  tftp_state s = STATE_SEND_RRQ \/ src = tftp_remote_port s -> 0 <= len ->
  tftp_handler_body ticks getenv (data file bs k ++ junk) (tftp_our_port s0) sip src (4 + len) s =
  tftp_data ticks getenv (be16 (block_number k) ++ block file bs k ++ junk) src len s.
Proof.
  intros Hp Hs Hl. rewrite data_head. unfold tftp_handler_body. do 3 nstep. rewrite Hp, Z.eqb_refl. cbn [negb].
  assert (negb (tftp_state s =? STATE_SEND_RRQ) && negb (src =? tftp_remote_port s) = false) as ->
    by (destruct Hs as [->| ->]; [done|by rewrite Z.eqb_refl, andb_false_r]). cbn [andb].
  destruct (Z.ltb_spec (4 + len) 2); [lia|].
  rewrite (bind_lift _ _ _ TFTP_DATA) by (by apply (load16_be [] TFTP_DATA)).
  change (TFTP_DATA =? TFTP_OACK) with false. change (TFTP_DATA =? TFTP_DATA) with true. cbv iota.
  destruct (Z.ltb_spec (4 + len - 2) 2); [lia|]. by replace (4 + len - 2 - 2) with len by lia.
Qed.

(** The count of timeouts, which a wrap resets. *)
Definition recount (k c : Z) : Z := if block_number k =? 0 then 0 else c.

Lemma run_update k c out s cur : receiving k c out s -> 0 <= k -> cur = block_number (k + 1) ->
  forall {A} (f : unit -> N A), exists w o,
  (update_block_number ≫= f) (s <| tftp_cur_block := cur |>) =
  f tt (s <| tftp_cur_block := cur |> <| tftp_block_wrap := w |> <| tftp_block_wrap_offset := o |>
          <| timeout_count := recount (k + 1) c |>) /\
  (0 < k -> o = u32 (bs * 2 ^ 16 * ((k + 1) / 2 ^ 16))).
Proof.
  intros [[] Hw] Hk Hcur A f. unfold update_block_number. do 4 nstep. unfold recount. rewrite <- Hcur.
  change (tftp_cur_block (s <| tftp_cur_block := cur |>)) with cur.
  change (tftp_prev_block (s <| tftp_cur_block := cur |>)) with (tftp_prev_block s).
  unfold waiting, numbered in Hw. pose proof (block_number_range (k + 1)) as Hn. unfold block_number in *.
  assert ((cur =? 0) = true -> negb (tftp_prev_block s =? 0) = true) as Hboth.
  { destruct (Z.eqb_spec cur 0) as [E0|]; [|done]. destruct (Z.eqb_spec k 0) as [->|]; [by rewrite Hcur in E0|].
    destruct Hw as (_ & ->). intros _. apply negb_true_iff, Z.eqb_neq. dlia. }
  destruct (Z.eqb_spec cur 0) as [E|E].
  - rewrite Hboth by done. cbn [andb]. repeat nstep. eexists _, _. split; [reflexivity|]. intros Hk'.
    destruct (Z.eqb_spec k 0); [lia|]. destruct Hw as ((_ & _ & Ho & _) & _).
    change (tftp_block_wrap_offset _) with (tftp_block_wrap_offset s). change (tftp_block_size _) with (tftp_block_size s).
    rewrite Ho, h_bs0. change TFTP_SEQUENCE_SIZE with (2 ^ 16). unfold u32. rewrite <- Zplus_mod. f_equal.
    assert ((k + 1) / 2 ^ 16 = k / 2 ^ 16 + 1) as -> by dlia. lia.
  - cbn [andb]. eexists (tftp_block_wrap s), (tftp_block_wrap_offset s). split.
    + rewrite bind_ret. f_equal. subst c. by destruct s.
    + intros Hk'. destruct (Z.eqb_spec k 0); [lia|]. destruct Hw as ((_ & _ & Ho & _) & _). rewrite Ho.
      assert ((k + 1) / 2 ^ 16 = k / 2 ^ 16) as -> by dlia. done.
Qed.

(** Whichever state the packet finds, its number and place are right. *)
Lemma run_numbering k c out s rest len : receiving k c out s -> 0 <= k ->
  exists s1, tftp_data ticks getenv (be16 (block_number (k + 1)) ++ rest) port len s =
    tftp_block ticks (block_number (k + 1)) (be16 (block_number (k + 1)) ++ rest) len s1 /\
    holding file bs s0 k (recount (k + 1) c) out s1 /\ numbered bs port (k + 1) s1 /\
    tftp_prev_block s1 = block_number k /\ net_state s1 = net_state s.
Proof.
  intros Hr Hk. unfold tftp_data. set (pkt := be16 _ ++ rest).
  rewrite (bind_lift _ _ _ (block_number (k + 1))) by (apply (load16_be []), block_number_range). nstep.
  match goal with |- context [(update_block_number ≫= ?f) _] =>
    destruct (run_update k c out s _ Hr Hk eq_refl f) as (w & o & -> & Ho) end. nstep.
  match goal with |- context [tftp_state ?x =? _] => set (s1 := x) end.
  pose proof Hr as [[] Hw]. unfold waiting in Hw. change (tftp_state s1) with (tftp_state s).
  assert (holding file bs s0 k (recount (k + 1) c) out s1) as Hh by (by split).
  assert (forall x y, holding file bs s0 k (recount (k + 1) c) out
    (s1 <| tftp_state := x |> <| tftp_remote_port := y |> <| tftp_prev_block := 0 |> <| tftp_block_wrap := 0 |> <| tftp_block_wrap_offset := 0 |>)) as Hh'
    by (by split).
  destruct (Z.eqb_spec k 0) as [->|Hn].
  - assert ((tftp_state s =? STATE_SEND_RRQ) || (tftp_state s =? STATE_OACK) || (tftp_state s =? STATE_RECV_WRQ) = true) as ->
      by (destruct Hw as (-> & _); by destruct Hbegin as [->|[-> _]]).
    do 2 nstep. unfold new_transfer. do 5 nstep. change (negb (block_number (0 + 1) =? 1)) with false. cbv iota. eexists. split; [reflexivity|].
    split; [apply Hh'|]. split; [|done]. unfold numbered. split_and!; try done. cbn. by rewrite Z.mul_0_r.
  - destruct Hw as ((Es & _ & _ & Ep) & Eprev). rewrite Es.
    change ((STATE_DATA =? STATE_SEND_RRQ) || (STATE_DATA =? STATE_OACK) || (STATE_DATA =? STATE_RECV_WRQ)) with false. cbv iota.
    exists s1. split; [done|]. split; [done|]. split; [|done]. split_and!; try done. apply Ho. lia.
Qed.

(** The block goes to its place behind those before it. *)
Lemma run_store k c out s rest : holding file bs s0 k c out s -> numbered bs port (k + 1) s -> 0 <= k < blocks ->
  let b := block file bs (k + 1) in
  exists s1, store_block (block_number (k + 1) - 1) (b ++ rest) (Z.of_nat (length b)) s = Some (tt, s1) /\
    holding file bs s0 (k + 1) c out s1 /\ numbered bs port (k + 1) s1 /\ tftp_prev_block s1 = tftp_prev_block s /\
    net_state s1 = net_state s /\ (timed ticks s -> timed ticks s1).
Proof.
  intros [] Hn Hk b. unfold store_block. do 3 nstep. pose proof (block_number_range (k + 1)).
  pose proof (front_block file bs Hbs k ltac:(lia)) as Hf. fold b in Hf.
  pose proof (front_length file bs Hbs k Hk) as Hl.
  assert (k * bs + Z.of_nat (length b) <= Z.of_nat (length file)) as Hle.
  { rewrite <- Hl, <- Nat2Z.inj_add, <- length_app, Hf. unfold front. rewrite length_take. lia. }
  assert (load_addr s = load_addr s0) as Hla by (by injection h_fixed0).
  rewrite h_bs0, Hla. pose proof Hn as (_ & _ & -> & _).
  assert (((- 2 ^ 31 <=? (block_number (k + 1) - 1) * bs) && ((block_number (k + 1) - 1) * bs <? 2 ^ 31)) = true) as ->.
  { apply andb_true_iff. split; [apply Z.leb_le|apply Z.ltb_lt]; nia. }
  cbn [negb].
  assert (u32 ((block_number (k + 1) - 1) * bs + u32 (bs * 2 ^ 16 * ((k + 1) / 2 ^ 16))) = k * bs) as ->.
  { unfold u32. rewrite Zplus_mod_idemp_r. unfold block_number.
    replace (((k + 1) mod 2 ^ 16 - 1) * bs + bs * 2 ^ 16 * ((k + 1) / 2 ^ 16)) with (k * bs) by (pose proof (Z.div_mod (k + 1) (2 ^ 16)); nia).
    apply Z.mod_small. nia. }
  rewrite !u32_small by nia.
  assert ((Z.of_nat (length (b ++ rest)) <? Z.of_nat (length b)) || (2 ^ 32 <? load_addr s0 + k * bs + Z.of_nat (length b)) = false) as ->.
  { rewrite length_app. apply orb_false_iff. split; apply Z.ltb_ge; lia. }
  rewrite Nat2Z.id, take_app_length. do 3 nstep.
  set (s1 := s <| mem := _ |>). change (net_boot_file_size s1) with (net_boot_file_size s). rewrite h_size0, Hl.
  assert (forall a, mem s1 a = memcpy_to (load_addr s0) (front file bs (k + 1)) (mem s0) a) as Hm.
  { intros a. unfold s1. cbn [put set_mem mem]. rewrite <- Hf, <- memcpy_next, Hl. by apply memcpy_ext. }
  assert (k * bs + Z.of_nat (length b) = Z.of_nat (length (front file bs (k + 1)))) as Hl' by (rewrite <- Hf, length_app; lia).
  destruct (Z.ltb_spec (k * bs) (k * bs + Z.of_nat (length b))); eexists; (split; [reflexivity|]).
  all: split; [split; try done|done]. cbn. rewrite h_size0. lia.
Qed.

Lemma run_complete k c out s : receiving k c out s ->
  exists s', tftp_complete ticks s = Some (tt, s') /\ receiving k c out s' /\ net_state s' = NETLOOP_SUCCESS /\
    (timed ticks s -> timed ticks s').
Proof.
  intros [[] Hw]. unfold tftp_complete, get_timer. repeat nstep. eexists. split; [reflexivity|].
  split; [split; [by split|exact Hw]|]. split; [done|]. intros (E1 & E2 & i & Hi & E3). split; [done|]. split; [done|].
  exists i. split; [by apply Nat.lt_lt_succ_r|done].
Qed.

(** What the state of the loop is after [k] blocks. *)
Definition state_after (k : Z) (s : net) : Prop := net_state s = if k =? blocks then NETLOOP_SUCCESS else net_state s0.

Lemma run_block k c out s junk : holding file bs s0 k c out s -> numbered bs port (k + 1) s -> tftp_prev_block s = block_number k ->
  0 <= k < blocks -> state_after k s ->
  let b := block file bs (k + 1) in
  exists s', tftp_block ticks (block_number (k + 1)) (be16 (block_number (k + 1)) ++ b ++ junk) (Z.of_nat (length b)) s = Some (tt, s') /\
    receiving (k + 1) c (out ++ [ack (k + 1)]) s' /\ state_after (k + 1) s' /\ timed ticks s'.
Proof.
  intros Hh Hn Hp Hk Hs b. unfold tftp_block. nstep. rewrite Hp.
  assert (block_number (k + 1) <> block_number k) as Hne by (unfold block_number; dlia). rewrite (proj2 (Z.eqb_neq _ _) Hne).
  do 4 nstep. pose proof Hh as []. set (s1 := s <| tftp_prev_block := _ |> <| timeout_count_max := _ |>).
  assert (timeout_ms s1 = timeout_ms s0) as Ems by (by injection h_fixed0). rewrite Ems.
  match goal with |- context [(NetState.net_set_timeout_handler _ _ _ ≫= ?f) _] =>
    destruct (run_rearm s1 Ems f) as (i & t & d & -> & Ht2) end.
  match goal with |- context [_ ?x = Some (tt, _)] => set (s2 := x) end.
  assert (holding file bs s0 k c out s2) as Hh2.
  { apply holding_timer. split; try done. cbn. by injection h_fixed0. }
  destruct (run_store k c out s2 junk Hh2 Hn Hk) as (s3 & E3 & Hh3 & Hn3 & Hp3 & Hs3 & Ht3). fold b in E3.
  change (drop 2 (be16 (block_number (k + 1)) ++ b ++ junk)) with (drop 0 (b ++ junk)). rewrite drop_0, (bind_some _ _ _ _ _ E3).
  assert (receiving (k + 1) c out s3) as Hr3.
  { split; [done|]. unfold waiting. destruct (Z.eqb_spec (k + 1) 0); [lia|]. split; [done|]. by rewrite Hp3. }
  destruct (run_receiving_send _ _ _ _ Hr3) as (s4 & E4 & Hr4 & Hs4 & Ht4). rewrite (bind_some _ _ _ _ _ E4). nstep.
  unfold repeated in Hr4. destruct (Z.eqb_spec (k + 1) 0); [lia|].
  assert (net_state s4 = net_state s) as Es by (rewrite Hs4, Hs3; done).
  pose proof Hr4 as [[_ _ -> _ _ _ _ _] _]. destruct (block_short file bs Hbs k Hk) as (Hle & Hlast). fold b in Hle, Hlast.
  unfold state_after in *. destruct (Z.eqb_spec k blocks); [lia|].
  destruct (Z.ltb_spec (Z.of_nat (length b)) bs).
  - destruct (run_complete _ _ _ _ Hr4) as (s5 & E5 & Hr5 & Hs5 & Ht5). exists s5. split; [done|]. split; [done|].
    split; [by rewrite (proj2 (Z.eqb_eq _ _)) by tauto|]. tauto.
  - exists s4. split; [done|]. split; [done|]. split; [|tauto]. rewrite (proj2 (Z.eqb_neq _ _)) by lia. congruence.
Qed.

(** *** Events *)
Lemma run_event_block k c out s junk sip : receiving k c out s -> 0 <= k < blocks -> state_after k s ->
  exists s', handle (Packet (data file bs (k + 1) ++ junk) (tftp_our_port s0) sip port
                      (4 + Z.of_nat (length (block file bs (k + 1))))) s = Some (tt, s') /\
    receiving (k + 1) (recount (k + 1) c) (out ++ [ack (k + 1)]) s' /\ state_after (k + 1) s' /\ timed ticks s'.
Proof.
  intros Hr Hk Hs. cbn [handle]. pose proof Hr as [[] Hw]. rewrite run_data_packet; [|by injection h_fixed0| |lia].
  - destruct (run_numbering k c out s (block file bs (k + 1) ++ junk) (Z.of_nat (length (block file bs (k + 1)))) Hr ltac:(lia))
      as (s1 & -> & Hh1 & Hn1 & Hp1 & Hs1).
    apply run_block; try done. unfold state_after in *. congruence.
  - unfold waiting in Hw. destruct (Z.eqb_spec k 0).
    + destruct Hw as (-> & _ & ->). destruct Hbegin as [->|[_ ->]]; tauto.
    + destruct Hw as ((_ & _ & _ & ->) & _). by right.
Qed.

(** The last block again: nothing changes. *)
Lemma run_event_again k c out s junk sip len : receiving k c out s -> 0 < k -> 0 <= len ->
  handle (Packet (data file bs k ++ junk) (tftp_our_port s0) sip port (4 + len)) s = Some (tt, s).
Proof.
  intros [[] Hw] Hk Hl. cbn [handle]. unfold waiting in Hw. destruct (Z.eqb_spec k 0); [lia|].
  destruct Hw as ((E1 & E2 & _ & E4) & E5). rewrite run_data_packet; [|by injection h_fixed0|by right|done].
  unfold tftp_data. rewrite (bind_lift _ _ _ (block_number k)) by (apply (load16_be []), block_number_range). nstep.
  assert (s <| tftp_cur_block := block_number k |> = s) as -> by (unfold block_number; rewrite <- E2; by destruct s).
  unfold update_block_number. do 4 nstep. rewrite E2, E5.
  assert ((k mod 2 ^ 16 =? 0) && negb (k mod 2 ^ 16 =? 0) = false) as -> by (by destruct (_ =? _)). do 2 nstep. rewrite E1.
  change ((STATE_DATA =? STATE_SEND_RRQ) || (STATE_DATA =? STATE_OACK) || (STATE_DATA =? STATE_RECV_WRQ)) with false. cbv iota.
  unfold tftp_block. nstep. unfold block_number. by rewrite E5, Z.eqb_refl.
Qed.

(** Packets for others: nothing changes. *)
Lemma run_event_noise k c out s pkt dest sip src len : receiving k c out s -> 0 <= k ->
  dest <> tftp_our_port s0 \/ (0 < k /\ src <> port) -> handle (Packet pkt dest sip src len) s = Some (tt, s).
Proof.
  intros [[] Hw] Hk Hn. cbn [handle]. unfold tftp_handler_body. do 3 nstep.
  assert (tftp_our_port s = tftp_our_port s0) as -> by (by injection h_fixed0).
  destruct (Z.eqb_spec dest (tftp_our_port s0)); [|done]. destruct Hn as [|[Hk0 Hsrc]]; [done|]. cbn [negb].
  unfold waiting in Hw. destruct (Z.eqb_spec k 0); [lia|]. destruct Hw as ((-> & _ & _ & ->) & _).
  by rewrite (proj2 (Z.eqb_neq src port)).
Qed.

Lemma run_session k c out evs : transfer file bs port (tftp_our_port s0) (tftp_timeout_count_max s0) request k c out evs ->
  timeout_count s0 = 0 -> timeout_count_max s0 = tftp_timeout_count_max s0 -> net_boot_file_size s0 = 0 -> tftp_block_size s0 = bs ->
  0 <= k <= blocks /\ 0 <= c /\
  exists s, handle_all evs s0 = Some (tt, s) /\ receiving k c out s /\ state_after k s.
Proof.
  intros Hse Hc0 Hm0 Hz0 Hb0.
  assert (0 < blocks) as Hpos by (unfold TftpFile.blocks; dnia).
  induction Hse as [|k c out evs junk sip Hse (Hk & Hc & s & E & Hr & Hs) Hlt|k c out evs junk sip Hse (Hk & Hc & s & E & Hr & Hs) Hlt|
    k c out evs pkt dest sip src len Hse (Hk & Hc & s & E & Hr & Hs) Hn|k c out evs Hse (Hk & Hc & s & E & Hr & Hs) Hlt].
  - split; [lia|]. split; [done|]. exists s0. split; [done|]. split.
    + split; [|done]. assert (front file bs 0 = []) as Hf by done. split; try done.
      * by destruct Hconn.
      * intros a. by rewrite Hf, memcpy_nil.
      * exists []. by rewrite app_nil_r.
    + unfold state_after. by rewrite (proj2 (Z.eqb_neq _ _)) by lia.
  - destruct (run_event_block k c out s junk sip Hr ltac:(lia) Hs) as (s' & E' & Hr' & Hs' & _).
    split; [lia|]. split; [by destruct (_ =? _)|]. exists s'. rewrite (handle_app _ _ _ _ E). cbn [handle_all].
    by rewrite (bind_some _ _ _ _ _ E').
  - split; [done|]. split; [done|]. exists s. rewrite (handle_app _ _ _ _ E). cbn [handle_all].
    by rewrite (bind_some _ _ _ _ _ (run_event_again k c out s junk sip _ Hr Hlt (Nat2Z.is_nonneg _))).
  - split; [done|]. split; [done|]. exists s. rewrite (handle_app _ _ _ _ E). cbn [handle_all].
    by rewrite (bind_some _ _ _ _ _ (run_event_noise k c out s pkt dest sip src len Hr ltac:(lia) Hn)).
  - destruct (run_timeout k c out s Hr Hc Hlt) as (s' & E' & Hr' & Hs').
    split; [done|]. split; [lia|]. exists s'. rewrite (handle_app _ _ _ _ E). cbn [handle_all].
    rewrite (bind_some _ _ _ _ _ E'). split; [done|]. split; [done|]. unfold state_after in *. congruence.
Qed.
End Transfer.

(** The board after tftp_start and the resolution of the server's address (or with the
    server's options acknowledged), about to get [file] in blocks of [bs] bytes: sizes
    are in range, nothing has arrived, and [request] is what it repeats. *)
Record ready (file : list Z) (bs port : Z) (request : list Z) (s : net) : Prop := {
  rd_block : 0 < bs <= 2 ^ 15;
  rd_size : tftp_block_size s = bs;
  rd_addr : 0 <= load_addr s;
  rd_room : load_addr s + Z.of_nat (length file) < 2 ^ 32;
  rd_connected : connected s;
  rd_timeout : 1000 <= timeout_ms s < 2 ^ 32;
  rd_max : tftp_timeout_count_max s < 2 ^ 31 - 1;
  rd_max' : timeout_count_max s = tftp_timeout_count_max s;
  rd_count : timeout_count s = 0;
  rd_empty : net_boot_file_size s = 0;
  rd_state : tftp_state s = STATE_SEND_RRQ \/ (tftp_state s = STATE_OACK /\ tftp_remote_port s = port);
  rd_request : exists more, tftp_payload s = Some (request ++ more, Z.of_nat (length request)) /\
    (length request + length more <= 1400)%nat
}.


(** ** An example *)

(** The board of NetUdp.v has asked for the file "a" and can send to 192.168.1.1. *)
Definition client : net := board <| net_server_ethaddr := [2; 0; 0; 0; 0; 2] |> <| net_tx_packet := replicate 1536 0 |>
  <| tftp_remote_ip := 0x0101A8C0 |> <| tftp_remote_port := 69 |> <| tftp_our_port := 1030 |> <| tftp_state := STATE_SEND_RRQ |>
  <| tftp_filename := [97] |> <| tftp_block_size := 4 |> <| load_addr := 0x80800000 |>.
Definition client_request : list Z :=
  [0; 1; 97; 0; 111; 99; 116; 101; 116; 0; 116; 105; 109; 101; 111; 117; 116; 0; 53; 0;
   98; 108; 107; 115; 105; 122; 101; 0; 49; 52; 54; 56; 0].
Definition client_file : list Z := [1; 2; 3; 4; 5; 6].

Lemma client_ready : ready client_file 4 2000 client_request client.
Proof.
  assert (Z.of_nat (length (net_tx_packet client)) = 1536) as E by (vm_compute; reflexivity).
  split; try done.
  - split; [exact board_mac|done|done|done|lia].
  - left. done.
  - exists [0]. split; [vm_compute; reflexivity|]. simpl. lia.
Qed.

(** The request is lost once, the two blocks arrive, the second one twice. *)
Definition client_events : list event := [Timeout; Packet ([0; 3; 0; 1; 1; 2; 3; 4; 0; 0]) 1030 0 2000 8;
  Packet ([0; 3; 0; 2; 5; 6]) 1030 0 2000 6; Packet ([0; 3; 0; 2; 5; 6]) 1030 0 2000 6].
Lemma client_session : transfer client_file 4 2000 1030 10 client_request 2 1
  [client_request; [0; 4; 0; 1]; [0; 4; 0; 2]] client_events.
Proof.
  apply (transfer_again client_file 4 2000 1030 10 client_request 2 1 _ (take 3 client_events) [] 0); [|done].
  apply (transfer_block client_file 4 2000 1030 10 client_request 1 1 [client_request; [0; 4; 0; 1]] (take 2 client_events) [] 0); [|done].
  apply (transfer_block client_file 4 2000 1030 10 client_request 0 1 [client_request] (take 1 client_events) [0; 0] 0); [|done].
  apply (transfer_lost client_file 4 2000 1030 10 client_request 0 0 [] []); [constructor|done].
Qed.

