(* ===== verification/NetLoop.v ===== *)
(** The loop that receives packets until a protocol is done: net_loop in
    uboot/net/net.c, with the functions it calls handlers and protocols through.

    A turn of the loop is given what the driver receives in it and whether ctrl-c was
    pressed; the clock is the parameter of NetState.v.  Protocols that are not modelled
    (BOOTP, DHCP and NFS are compiled in) are parameters.  Which device is used is
    chosen before (eth_set_current); halting a device changes nothing here. *)
From Stdlib Require Import String.
From S2P Require Import Prelude Htab NetSum NetState Net Tftp.

Record turn := Turn { rx : option (list Z * Z); interrupted : bool }.

(** What a turn, or the part before the first one, decides. *)
Inductive verdict := Continue (ret : Z) | Again (ret : Z) | Done (ret : Z).

(** filesize and fileaddr *)
Definition word_filesize : cstr := text "filesize".
Definition word_fileaddr : cstr := text "fileaddr".

Section Loop.
Context (ticks : nat -> Z) (getenv : cstr -> option cstr) `{Ethernet}.
Context (other_rx : list Z -> Z -> Z -> Z -> Z -> N unit) (other_timeout : N unit) (other_start : proto_t -> N unit).

Definition call_rxhand (f : rxhand) (pkt : list Z) (dport sip sport len : Z) : N unit :=
  match f with
  | dummy_handler => mret tt
  | tftp_handler => tftp_handler_body ticks getenv pkt dport sip sport len
  | other_handler => other_rx pkt dport sip sport len
  end.
Definition call_thand (f : thand) : N unit :=
  match f with
  | start_again_timeout_handler => start_again_timeout_handler_body
  | ping_timeout_handler => ping_timeout_handler_body
  | tftp_timeout_handler => tftp_timeout_handler_body ticks getenv
  | other_timeout_handler => other_timeout
  end.

Definition net_init_loop : N unit :=
  cur ← read eth_current; if (eth_devices =? 0)%nat then mret tt else net_ethaddr ::= dev_enetaddr cur.
Definition net_cleanup_loop : N unit := net_clear_handlers ticks.

(** The address of the board and of the device are needed, whatever the protocol. *)
Definition check_ethaddr : N Z :=
  mac ← read net_ethaddr;
  if bool_decide (mac = net_null_ethaddr) then
    if (eth_devices =? 0)%nat then mret 1 else net_start_again ticks getenv;; mret 2
  else mret 0.
Definition check_ip : N Z := ip ← read net_ip; if ip =? 0 then mret 1 else check_ethaddr.
Definition net_check_prereq (protocol : proto_t) : N Z :=
  match protocol with
  | PING => ping_ip ← read net_ping_ip; if ping_ip =? 0 then mret 1 else check_ip
  | NFS | TFTPGET | TFTPPUT => server ← read net_server_ip; if server =? 0 then mret 1 else check_ip
  | NETCONS | TFTPSRV => check_ip
  | BOOTP | CDP | DHCP | LINKLOCAL => check_ethaddr
  | _ => mret 0
  end.

Definition protocol_start (protocol : proto_t) : N unit :=
  match protocol with
  | TFTPGET => tftp_start ticks getenv
  | PING => ping_start ticks
  | DHCP | BOOTP => net_ip ::= 0;; other_start protocol
  | NFS => other_start protocol
  | _ => mret tt
  end.

(** From the label [restart] to the loop. *)
Definition net_loop_restart (protocol : proto_t) (ret : Z) : N verdict :=
  net_set_state NETLOOP_CONTINUE;;
  net_init_loop;;
  r ← net_check_prereq protocol;
  if r =? 1 then mret (Done (-19))
  else if r =? 2 then mret (Continue ret)
  else
    net_dev_exists ::= true;;
    net_boot_file_size ::= 0;;
    protocol_start protocol;;
    mret (Continue ret).

Definition setenv_hex (name : cstr) (value : Z) : N unit := e ← read env_hex; env_hex ::= e ++ [(name, value)].

(** What the loop does in the state it finds. *)
Definition net_loop_state_step (ret : Z) : N verdict :=
  state ← read net_state;
  ret ← (if bool_decide (state = NETLOOP_FAIL) then net_start_again ticks getenv else mret ret);
  state ← read net_state;
  match state with
  | NETLOOP_RESTART => net_restarted ::= true;; mret (Again ret)
  | NETLOOP_SUCCESS =>
      net_cleanup_loop;;
      size ← read net_boot_file_size; addr ← read load_addr;
      (if 0 <? size then setenv_hex word_filesize size;; setenv_hex word_fileaddr addr else mret tt);;
      mret (Done (s32 size))
  | NETLOOP_FAIL => net_cleanup_loop;; mret (Done ret)
  | NETLOOP_CONTINUE => mret (Continue ret)
  end.

Definition check_timeout : N unit :=
  h ← read time_handler;
  match h with
  | None => mret tt
  | Some x =>
      t ← get_timer ticks 0; start ← read time_start; delta ← read time_delta;
      if delta <? u32 (t - start) then time_handler ::= None;; call_thand x else mret tt
  end.

Definition eth_rx (t : turn) : N unit :=
  match rx t with None => mret tt | Some (pkt, len) => net_process_received_packet call_rxhand pkt len end.

Definition net_loop_turn (t : turn) (ret : Z) : N verdict :=
  waits ← arp_timeout_check ticks;
  (if 0 <? waits then now ← get_timer ticks 0; time_start ::= now else mret tt);;
  eth_rx t;;
  if interrupted t then
    net_arp_wait_packet_ip ::= 0;;
    net_cleanup_loop;;
    mret (Done (-4))
  else
    check_timeout;;
    net_loop_state_step ret.

(** [None]: it still runs after these turns. *)
Fixpoint net_loop_turns (protocol : proto_t) (turns : list turn) (v : verdict) : N (option Z) :=
  match v with
  | Done ret => mret (Some ret)
  | Again ret =>
      v ← net_loop_restart protocol ret;
      match v with
      | Done ret => mret (Some ret)
      | Again ret | Continue ret =>
          match turns with [] => mret None | t :: turns => v ← net_loop_turn t ret; net_loop_turns protocol turns v end
      end
  | Continue ret =>
      match turns with [] => mret None | t :: turns => v ← net_loop_turn t ret; net_loop_turns protocol turns v end
  end.

Definition net_loop (protocol : proto_t) (turns : list turn) : N (option Z) :=
  net_restarted ::= false;;
  net_dev_exists ::= false;;
  net_try_count ::= 1;;
  net_init_loop;;
  ret ← eth_init getenv;
  if ret <? 0 then mret (Some ret) else net_loop_turns protocol turns (Again ret).
End Loop.
