(* ===== verification/Download.v ===== *)
(** A whole download, from net_loop's first statement to its result: the address of the
    server is asked for and learnt, the file is requested, options are agreed on, the
    blocks arrive, as frames on the wire, and the loop returns the size of the file. *)
From Stdlib Require Import String.
From S2P Require Import Prelude Htab Crc32 Strto NetSum NetState Net NetUdp Tftp TftpFile NetLoop.

(** ** Asking for the address of the server *)

(** The request waits in the transmit buffer; the machine [hop] was asked for its
    address. *)
Record asking (ticks : nat -> Z) (hop : Z) (s : net) : Prop := {
  ak_wait : net_arp_wait_packet_ip s <> 0;
  ak_reply : net_arp_wait_reply_ip s = hop;
  ak_ether : arp_wait_packet_ethaddr s = Some net_server_ethaddr_ptr;
  ak_handler : arp_packet_handler s = dummy_handler;
  ak_packet : exists body rest, net_tx_packet s = (ether_header s net_null_ethaddr PROT_IP ++ body) ++ rest /\
    arp_wait_tx_packet_size s = Z.of_nat (length (ether_header s net_null_ethaddr PROT_IP ++ body)) /\
    (1536 <= length (net_tx_packet s))%nat;
  ak_timer : exists i, (i < timer_reads s)%nat /\ arp_wait_timer_start s = u32 (ticks i - 0)
}.

(** The question, and that it was asked for the first time. *)
Definition question (s : net) (ip : Z) : list Z :=
  ether_header s net_bcast_ethaddr PROT_ARP ++ arp_packet ARPOP_REQUEST (net_ethaddr s) (net_ip s) net_null_ethaddr (next_hop s ip).
Lemma question_ext s s' ip : net_ip s' = net_ip s -> net_ethaddr s' = net_ethaddr s -> net_our_vlan s' = net_our_vlan s ->
  net_netmask s' = net_netmask s -> net_gateway s' = net_gateway s -> question s' ip = question s ip.
Proof. intros E1 E2 E3 E4 E5. unfold question, ether_header, no_vlan, next_hop. by rewrite E1, E2, E3, E4, E5. Qed.
Record first_asked (ticks : nat -> Z) (ip : Z) (s s' : net) : Prop := {
  fa_wait : net_arp_wait_packet_ip s' = ip;
  fa_try : arp_wait_try s' = 1;
  fa_timer : exists i, timer_reads s' = S i /\ arp_wait_timer_start s' = u32 (ticks i - 0);
  fa_buffer : (46 <= length (arp_tx_packet s'))%nat;
  fa_sent : sent s' = sent s ++ [question s ip]
}.

Section Ask.
Context (ticks : nat -> Z).

Lemma run_tftp_ask s payload more : mac (net_ethaddr s) -> net_server_ethaddr s = net_null_ethaddr ->
  0 < tftp_remote_ip s < 0xFFFFFFFF -> (1536 <= length (net_tx_packet s))%nat -> (46 <= length (arp_tx_packet s))%nat ->
  tftp_payload s = Some (payload ++ more, Z.of_nat (length payload)) -> (length payload + length more <= 1400)%nat ->
  arp_packet_handler s = dummy_handler ->
  exists n pkt z p, let s' := s <| net_ip_id := n |> <| net_tx_packet := pkt |> <| net_arp_wait_packet_ip := tftp_remote_ip s |>
      <| arp_wait_packet_ethaddr := Some net_server_ethaddr_ptr |> <| arp_wait_tx_packet_size := z |> <| arp_wait_try := 1 |>
      <| timer_reads := S (timer_reads s) |> <| arp_wait_timer_start := u32 (ticks (timer_reads s) - 0) |>
      <| net_arp_wait_reply_ip := next_hop s (tftp_remote_ip s) |> <| arp_tx_packet := p |>
      <| sent := sent s ++ [question s (tftp_remote_ip s)] |> in
    tftp_send ticks s = Some (tt, s') /\ asking ticks (next_hop s (tftp_remote_ip s)) s' /\ (46 <= length p)%nat.
Proof.
  intros Hm Hnull Hip Hb Hab Hp Hl Hh. destruct (run_tftp_prepare ticks s payload more Hb Hp Hl) as (pkt & Hpkt & Hhold & ->).
  set (s1 := s <| net_tx_packet := _ |>).
  assert (destination (tftp_remote_ip s) = tftp_remote_ip s) as Hd.
  { unfold destination. destruct (Z.eqb_spec (tftp_remote_ip s) 0); [lia|done]. }
  assert (target s1 net_server_ethaddr_ptr (tftp_remote_ip s) = net_null_ethaddr) as Ht.
  { unfold target. rewrite Hd. destruct (Z.eqb_spec (tftp_remote_ip s) 0xFFFFFFFF); [lia|done]. }
  destruct (run_send_udp ticks s1 net_server_ethaddr_ptr (tftp_remote_ip s) (tftp_remote_port s) (tftp_our_port s) payload) as (rest & Hlen & E);
    [by rewrite Ht|apply Hm|exact Hhold|].
  rewrite Ht, Hd in E. rewrite bool_decide_true in E by done. rewrite Ht, Hd in Hlen.
  assert (1536 <= length (net_tx_packet s1))%nat as Hb1 by (unfold s1; cbn [put set_net_tx_packet net_tx_packet]; lia).
  unfold mbind at 1, N_bind at 1. rewrite E. clear E. destruct (Z.eqb_spec (tftp_remote_ip s) 0xFFFFFFFF) as [|_]; [lia|].
  do 4 nstep. unfold get_timer. do 6 nstep.
  match goal with |- context [(arp_request;; _) ?x] => set (s2 := x) end.
  destruct (run_arp_request s2) as (rest' & Hrest & Ereq); [apply Hm|done|].
  rewrite (bind_some _ _ _ _ _ Ereq). eexists _, _, _, _. split; [reflexivity|]. split.
  2: { rewrite length_app. change (arp_tx_packet s2) with (arp_tx_packet s) in Hrest. lia. }
  split; try done; cbn -[ether_header datagram app length Nat.le]; [lia| |].
  - eexists _, rest. split; [reflexivity|]. split; [done|]. eapply Nat.le_trans; [exact Hb1|].
    apply Nat.eq_le_incl. symmetry. exact Hlen.
  - exists (timer_reads s). split; [lia|done].
Qed.
End Ask.

(** ** Starting *)
Lemma itoa_length n : forall i p q, itoa_loop n i p = Some q -> (length q <= length p + n)%nat.
Proof.
  induction n as [|n IH]; intros i p q; [done|]. cbn [itoa_loop]. destruct (0 <? i / 10).
  - intros E. apply IH in E. simpl in E. lia.
  - intros [= <-]. simpl. lia.
Qed.

Lemma rrq_payload s : tftp_state s = STATE_SEND_RRQ -> 0 <= timeout_ms s < 2 ^ 32 -> 0 <= tftp_block_size_option s < 2 ^ 16 ->
  (length (tftp_filename s) <= 127)%nat ->
  exists request, tftp_payload s = Some (request ++ [0], Z.of_nat (length request)) /\ (length request + 1 <= 1400)%nat.
Proof.
  intros Hst Ht Ho Hn. unfold tftp_payload. rewrite Hst, Z.eqb_refl. cbn [orb].
  destruct (strtoul_itoa (timeout_ms s / 1000) []) as (t & Et & _); [dlia|done|].
  destruct (strtoul_itoa (tftp_block_size_option s) []) as (b & Eb & _); [lia|done|].
  rewrite Et, Eb. cbn [mbind option_bind]. eexists. split; [reflexivity|].
  apply itoa_length in Et, Eb. rewrite !length_app. simpl. simpl in Et, Eb. lia.
Qed.

(** The request depends on these fields only. *)
Definition request_of (state ms option : Z) (name : cstr) (block : Z) (s : net) : Prop :=
  tftp_state s = state /\ timeout_ms s = ms /\ tftp_block_size_option s = option /\ tftp_filename s = name /\ tftp_cur_block s = block.
Lemma same_request state ms option name block s s' :
  request_of state ms option name block s -> request_of state ms option name block s' -> tftp_payload s = tftp_payload s'.
Proof.
  intros (E1 & E2 & E3 & E4 & E5) (F1 & F2 & F3 & F4 & F5). unfold tftp_payload.
  by rewrite E1, E2, E3, E4, E5, F1, F2, F3, F4, F5.
Qed.

(** What a download needs before it starts. *)
Record startable (getenv : cstr -> option cstr) (file : list Z) (s : net) : Prop := {
  st_blksize : getenv (text "tftpblocksize") = None;
  st_tftptimeout : getenv (text "tftptimeout") = None;
  st_countmax : getenv (text "tftptimeoutcountmax") = None;
  st_name : net_boot_file_name s <> [];
  st_name' : after_colon (net_boot_file_name s) = None;
  st_server : 0 < net_server_ip s < 0xFFFFFFFF;
  st_timeout : 1000 <= timeout_ms s < 2 ^ 32 / 1000;
  st_max : 0 <= tftp_timeout_count_max s < 2 ^ 31 - 1;
  st_option : 0 <= tftp_block_size_option s < 2 ^ 16;
  st_tx : (1536 <= length (net_tx_packet s))%nat;
  st_arp : (46 <= length (arp_tx_packet s))%nat;
  st_handler : arp_packet_handler s = dummy_handler;
  st_addr : 0 <= load_addr s;
  st_room : load_addr s + Z.of_nat (length file) < 2 ^ 32
}.

(** The port the client takes. *)
Definition client_port (ticks : nat -> Z) (s : net) : Z := 1024 + u32 (ticks (S (S (timer_reads s))) - 0) mod 3072.

(** What stays as it was. *)
Definition surroundings (s : net) :=
  (net_ip s, net_ethaddr s, net_our_vlan s, mem s, load_addr s, env_hex s, net_state s, timeout_ms s, net_netmask s, net_gateway s).

(** The fields [f] of the states in the goal have the value [v]. *)
Ltac known f v := repeat match goal with |- context [f ?x] => progress change (f x) with v end.

Section Start.
Context (ticks : nat -> Z) (getenv : cstr -> option cstr) `{Ethernet}.

Lemma run_tftp_start file s : startable getenv file s -> mac (net_ethaddr s) -> net_boot_file_size s = 0 ->
  exists s', tftp_start ticks getenv s = Some (tt, s') /\ asking ticks (next_hop s (net_server_ip s)) s' /\
    first_asked ticks (net_server_ip s) s s' /\ timed ticks s' /\
    surroundings s' = surroundings s /\ tftp_our_port s' = client_port ticks s /\ udp_packet_handler s' = tftp_handler /\
    exists request, forall a port, length a = 6%nat -> a <> net_null_ethaddr -> ready file 512 port request (s' <| net_server_ethaddr := a |>).
Proof.
  intros [] Hm Hz. unfold tftp_start. rewrite st_blksize0, st_tftptimeout0, st_countmax0.
  do 4 nstep. rewrite (proj2 (Z.ltb_ge (timeout_ms s) 1000)) by lia. do 4 nstep.
  rewrite (proj2 (Z.ltb_ge (tftp_timeout_count_max s) 0)) by lia. do 5 nstep.
  match goal with |- context [match ?x with [] => _ | _ :: _ => _ end] => change x with (net_boot_file_name s) end.
  destruct (net_boot_file_name s) as [|n0 name] eqn:En; [done|]. rewrite st_name'0. do 2 nstep.
  unfold get_timer. do 5 nstep. known timer_reads (timer_reads s). do 2 nstep. known tftp_timeout_count_max (tftp_timeout_count_max s).
  do 2 nstep. unfold NetState.net_set_timeout_handler. known timeout_ms (timeout_ms s).
  rewrite (proj2 (Z.eqb_neq (timeout_ms s) 0)) by lia. unfold get_timer. do 5 nstep. known timer_reads (S (timer_reads s)).
  do 3 nstep. unfold net_set_udp_handler. do 8 nstep. known timer_reads (S (S (timer_reads s))). do 7 nstep.
  match goal with |- context [tftp_send ticks ?x = _] => set (s1 := x) end.
  assert (length (tftp_filename s1) <= 127)%nat as Hn by (apply firstn_le_length).
  destruct (rrq_payload s1 eq_refl ltac:(change (timeout_ms s1) with (timeout_ms s); dlia) st_option0 Hn) as (request & Hp & Hl).
  destruct (run_tftp_ask ticks s1 request [0] Hm eq_refl st_server0 st_tx0 st_arp0 Hp Hl st_handler0)
    as (n & pkt & z & p & E & Hask & Hab).
  eexists. split; [exact E|]. split; [exact Hask|]. split.
  { split; [reflexivity|reflexivity| |exact Hab|reflexivity]. exists (S (S (S (timer_reads s)))). split; reflexivity. }
  split.
  { split; [done|]. split; [done|]. exists (S (timer_reads s)). split; [|done]. simpl. lia. }
  split; [done|]. split; [done|]. split; [done|]. exists request. intros a port Ha Hnn.
  destruct Hask. destruct ak_packet0 as (body & rest & _ & _ & Hlen). assert (1536 <= length pkt)%nat as Hpkt by exact Hlen.
  split; [lia|reflexivity|exact st_addr0|exact st_room0| | |exact (proj2 st_max0)|reflexivity|reflexivity|exact Hz|left; reflexivity|].
  - split; [exact Hm|exact Ha|exact Hnn|exact st_server0|exact Hpkt].
  - change (1000 <= timeout_ms s < 2 ^ 32). dlia.
  - exists [0]. split; [|exact Hl]. rewrite <- Hp.
    apply (same_request STATE_SEND_RRQ (timeout_ms s) (tftp_block_size_option s) (take (MAX_LEN - 1) (n0 :: name)) 0);
      split_and!; reflexivity.
Qed.
End Start.

(** ** Turns without a timeout *)

(** Within any two reads of the clock no more than [T] milliseconds pass. *)
Definition quick (ticks : nat -> Z) (T : Z) : Prop := forall i j, (i <= j)%nat -> u32 (ticks j - ticks i) <= T.
Lemma quick_read ticks T i j : quick ticks T -> (i <= j)%nat -> u32 (u32 (ticks j - 0) - u32 (ticks i - 0)) <= T.
Proof.
  intros Hq Hij. rewrite !Z.sub_0_r. specialize (Hq i j Hij).
  replace (u32 (u32 (ticks j) - u32 (ticks i))) with (u32 (ticks j - ticks i)); [done|].
  unfold u32. by rewrite <- Zminus_mod.
Qed.

(** The protocol's time is not over. *)
Lemma check_not_over ticks getenv `{Ethernet} other_timeout h s : time_handler s = Some h ->
  u32 (u32 (ticks (timer_reads s) - 0) - time_start s) <= time_delta s ->
  check_timeout ticks getenv other_timeout s = Some (tt, s <| timer_reads := S (timer_reads s) |>).
Proof.
  intros Eh Hd. unfold check_timeout. nstep. rewrite Eh. unfold get_timer. do 7 nstep.
  change (time_delta _) with (time_delta s). change (time_start _) with (time_start s).
  destruct (Z.ltb_spec (time_delta s) (u32 (u32 (ticks (timer_reads s) - 0) - time_start s))); [lia|done].
Qed.

Section Turns.
Context (ticks : nat -> Z) (getenv : cstr -> option cstr) `{Ethernet}.
Context (other_rx : list Z -> Z -> Z -> Z -> Z -> N unit) (other_timeout : N unit) (other_start : proto_t -> N unit).
Context (T : Z) (Hquick : quick ticks (Z.min T ARP_TIMEOUT)).
Abbreviation net_loop_turn := (net_loop_turn ticks getenv other_rx other_timeout).
Abbreviation eth_rx := (eth_rx ticks getenv other_rx).

Lemma run_check_timeout s : timed ticks s -> timeout_ms s = T -> 0 <= T < 2 ^ 32 / 1000 ->
  check_timeout ticks getenv other_timeout s = Some (tt, s <| timer_reads := S (timer_reads s) |>).
Proof.
  intros (Eh & Ed & i & Hi & Es) Ems HT. apply (check_not_over _ _ _ _ _ Eh). rewrite Es, Ed, Ems.
  assert (u32 (T * 1000) / 1000 = T) as -> by (rewrite u32_small by dlia; apply Z.div_mul; lia).
  pose proof (quick_read ticks _ i (timer_reads s) Hquick ltac:(lia)). lia.
Qed.

(** Nothing waits for an address. *)
Lemma run_turn t ret s s1 : net_arp_wait_packet_ip s = 0 -> eth_rx t s = Some (tt, s1) -> interrupted t = false ->
  timed ticks s1 -> timeout_ms s1 = T -> 0 <= T < 2 ^ 32 / 1000 ->
  net_loop_turn t ret s = net_loop_state_step ticks getenv ret (s1 <| timer_reads := S (timer_reads s1) |>).
Proof.
  intros Hw E Hi Ht Ems HT. unfold NetLoop.net_loop_turn, arp_timeout_check. do 2 nstep. rewrite Hw. change (0 =? 0) with true. cbv iota.
  nstep. change (0 <? 0) with false. cbv iota. nstep. rewrite (bind_some _ _ _ _ _ E), Hi.
  by rewrite (bind_some _ _ _ _ _ (run_check_timeout s1 Ht Ems HT)).
Qed.

Lemma run_step_continue ret s : net_state s = NETLOOP_CONTINUE -> net_loop_state_step ticks getenv ret s = Some (Continue ret, s).
Proof. intros Es. unfold net_loop_state_step. nstep. rewrite Es, bool_decide_false by done. nstep. nstep. by rewrite Es. Qed.
Lemma run_step_success ret s : net_state s = NETLOOP_SUCCESS ->
  exists s', net_loop_state_step ticks getenv ret s = Some (Done (s32 (net_boot_file_size s)), s') /\ mem s' = mem s /\
    env_hex s' = env_hex s ++ (if 0 <? net_boot_file_size s
                               then [(word_filesize, net_boot_file_size s); (word_fileaddr, load_addr s)] else []).
Proof.
  intros Es. unfold net_loop_state_step. nstep. rewrite Es, bool_decide_false by done. do 2 nstep. rewrite Es.
  unfold net_cleanup_loop, net_clear_handlers, net_set_udp_handler, net_set_arp_handler, NetState.net_set_timeout_handler.
  change (0 =? 0) with true. cbv iota. repeat nstep. change (net_boot_file_size _) with (net_boot_file_size s).
  change (load_addr _) with (load_addr s). destruct (0 <? net_boot_file_size s).
  - unfold setenv_hex. repeat nstep. eexists. split; [reflexivity|]. split; [done|]. cbn. by rewrite <- app_assoc.
  - repeat nstep. eexists. split; [reflexivity|]. split; [done|]. cbn. by rewrite app_nil_r.
Qed.

(** An address is waited for: the clock is read twice, and the protocol's timer starts
    anew. *)
Lemma run_turn_asking hop t ret s : asking ticks hop s -> interrupted t = false ->
  net_loop_turn t ret s =
  (eth_rx t;; check_timeout ticks getenv other_timeout;; net_loop_state_step ticks getenv ret)
    (s <| timer_reads := S (S (timer_reads s)) |> <| time_start := u32 (ticks (S (timer_reads s)) - 0) |>).
Proof.
  intros [] Hi. unfold NetLoop.net_loop_turn, arp_timeout_check. do 2 nstep.
  destruct (Z.eqb_spec (net_arp_wait_packet_ip s) 0); [done|]. unfold get_timer. do 8 nstep.
  known arp_wait_timer_start (arp_wait_timer_start s). destruct ak_timer0 as (i & Hlt & ->).
  pose proof (quick_read ticks _ i (timer_reads s) Hquick ltac:(lia)) as Hq.
  destruct (Z.ltb_spec ARP_TIMEOUT (u32 (u32 (ticks (timer_reads s) - 0) - u32 (ticks i - 0)))); [lia|].
  do 3 nstep. change (0 <? 1) with true. cbv iota. do 7 nstep. by rewrite Hi.
Qed.
End Turns.

(** ** The server's side, frame by frame *)

(** The acknowledgement of options: others, without a b, then the block size. *)
Definition oack (opts digits : list Z) : list Z := be16 TFTP_OACK ++ opts ++ text "blksize" ++ [0] ++ digits ++ [0].

Section Serve.
Context (r s : net) (file : list Z) (port our : Z).

(** A frame from [r] with a datagram from anywhere for [s], and anything behind it in
    the buffer. *)
Definition arrives (t : turn) (sport dport : Z) (payload : list Z) : Prop :=
  exists dmac id sip dip junk len, length dmac = 6%nat /\ sendable s sip dip sport dport payload /\
    let frame := ether_header r dmac PROT_IP ++ datagram id sip dip sport dport payload in
    Z.of_nat (length frame) <= len < 2 ^ 31 /\ t = Turn (Some (frame ++ junk, len)) false.
(** The answer of [r] to the question for its address. *)
Definition answers (t : turn) : Prop :=
  exists junk len,
    let frame := ether_header r (net_ethaddr s) PROT_ARP ++ arp_packet ARPOP_REPLY (net_ethaddr r) (net_ip r) (net_ethaddr s) (net_ip s) in
    Z.of_nat (length frame) <= len < 2 ^ 31 /\ t = Turn (Some (frame ++ junk, len)) false.

(** What has happened so far: the address is unknown, or [k] blocks of [bs] bytes have
    come. *)
Inductive phase := Asking | Receiving (bs k : Z).

Inductive serves : phase -> list turn -> Prop :=
  | serves_done bs ts : serves (Receiving bs (blocks file bs)) ts
  | serves_idle ph ts : serves ph ts -> serves ph (Turn None false :: ts)
  | serves_address t ts : answers t -> serves (Receiving 512 0) ts -> serves Asking (t :: ts)
  | serves_options bs bs' opts digits t ts : Forall (fun c => c <> 98) opts -> 0 < bs' <= 2 ^ 15 -> simple_itoa bs' = Some digits ->
      arrives t port our (oack opts digits) -> serves (Receiving bs' 0) ts -> serves (Receiving bs 0) (t :: ts)
  | serves_block bs k t ts : arrives t port our (data file bs (k + 1)) -> serves (Receiving bs (k + 1)) ts -> serves (Receiving bs k) (t :: ts)
  | serves_again bs k t ts : 0 < k -> arrives t port our (data file bs k) -> serves (Receiving bs k) ts -> serves (Receiving bs k) (t :: ts)
  | serves_other bs k t ts sport dport payload : dport <> our \/ (0 < k /\ sport <> port) ->
      arrives t sport dport payload -> serves (Receiving bs k) ts -> serves (Receiving bs k) (t :: ts).
End Serve.

(** ** Options *)
Lemma oack_skip k n pkt s : Forall (fun c => c <> 98) (take k pkt) -> (k <= length pkt)%nat ->
  oack_options (k + n) pkt s = oack_options n (drop k pkt) s.
Proof.
  revert pkt. induction k as [|k IH]; intros pkt Hf Hl; [by rewrite drop_0|].
  destruct pkt as [|c pkt]; [simpl in Hl; lia|]. cbn [firstn] in Hf. apply list.Forall_cons in Hf as [Hc Hf].
  cbn [Nat.add oack_options]. change (string_is (text "blksize") (c :: pkt)) with
    (if c =? 98 then string_is (text "lksize") pkt else Some false).
  rewrite (proj2 (Z.eqb_neq c 98) Hc). cbn [skipn] in *. rewrite (bind_lift _ _ _ false) by done. nstep.
  rewrite drop_0. apply IH; [done|simpl in Hl; lia].
Qed.
Lemma string_is_self w rest : string_is w (w ++ 0 :: rest) = Some true.
Proof. induction w as [|c w IH]; [done|]. cbn [string_is app]. by rewrite Z.eqb_refl. Qed.

Lemma run_options opts digits junk bs s : Forall (fun c => c <> 98) opts -> 0 <= bs < 2 ^ 16 -> simple_itoa bs = Some digits ->
  let o := opts ++ text "blksize" ++ [0] ++ digits ++ [0] in
  oack_options (Z.to_nat (Z.of_nat (length o) - 8)) (o ++ junk) s = Some (tt, s <| tftp_block_size := bs |>).
Proof.
  intros Ho Hbs Hd o. destruct (strtoul_itoa bs (0 :: junk)) as (ds & Eds & Ev & Hne & Hds); [lia|done|].
  rewrite Hd in Eds. injection Eds as <-.
  assert (Forall (fun c => c <> 98) digits) as Hd98.
  { eapply Forall_impl; [|exact Hds]. intros c [_ Hc] ->. vm_compute in Hc. by destruct Hc. }
  replace (Z.to_nat (Z.of_nat (length o) - 8)) with (length opts + (1 + (length digits + 0)))%nat
    by (unfold o; rewrite !length_app; simpl; lia).
  unfold o. rewrite <- !app_assoc. rewrite oack_skip; [|by rewrite take_app_length|rewrite length_app; lia].
  rewrite drop_app_length. cbn [Nat.add oack_options].
  rewrite (bind_lift _ _ _ true) by apply string_is_self.
  change (drop 8 (text "blksize" ++ [0] ++ digits ++ [0] ++ junk)) with (drop 0 (digits ++ [0] ++ junk)). rewrite drop_0.
  nstep. rewrite (bind_lift _ _ _ bs) by (unfold decimal_at; cbn [app]; by rewrite Ev). nstep.
  assert (u16 bs = bs) as -> by (unfold u16; rewrite Z.mod_small; lia).
  change (drop 1 (text "blksize" ++ [0] ++ digits ++ [0] ++ junk)) with (drop 0 (text "lksize" ++ [0] ++ digits ++ [0] ++ junk)).
  rewrite drop_0. rewrite oack_skip; [done| |rewrite !length_app; lia].
  assert (Forall (fun c => c <> 98) (text "lksize" ++ [0] ++ digits)) as Hall
    by (rewrite !Forall_app; split; [|split]; [by repeat constructor..|done]).
  rewrite <- (take_drop (length digits) (text "lksize" ++ [0] ++ digits)) in Hall. apply Forall_app in Hall as [Hall _].
  replace (text "lksize" ++ [0] ++ digits ++ [0] ++ junk) with ((text "lksize" ++ [0] ++ digits) ++ [0] ++ junk) by (by rewrite <- !app_assoc).
  rewrite take_app_le; [exact Hall|rewrite !length_app; lia].
Qed.

(** ** Staying ready *)
Definition essentials (s : net) :=
  (load_addr s, tftp_remote_ip s, net_ethaddr s, net_server_ethaddr s, timeout_ms s, tftp_timeout_count_max s, tftp_filename s,
   tftp_block_size_option s, (tftp_block_size s, timeout_count_max s, timeout_count s, net_boot_file_size s, tftp_state s,
   tftp_remote_port s, tftp_cur_block s)).
Lemma ready_ext file bs port request s s' : essentials s' = essentials s -> (1536 <= length (net_tx_packet s'))%nat ->
  ready file bs port request s -> ready file bs port request s'.
Proof.
  intros [= E1 E2 E3 E4 E5 E6 E7 E8 E9 E10 E11 E12 E13 E14 E15] Hb [? ? ? ? [] ? ? ? ? ? ? (more & Hp & Hl)].
  split; rewrite ?E1, ?E5, ?E6, ?E9, ?E10, ?E11, ?E12, ?E13, ?E14; try done.
  - by split; rewrite ?E2, ?E3, ?E4.
  - exists more. split; [|done]. rewrite <- Hp. by apply (same_request (tftp_state s) (timeout_ms s) (tftp_block_size_option s) (tftp_filename s) (tftp_cur_block s)).
Qed.

(** What the steps of a download leave alone. *)
Definition around (s : net) :=
  (net_ip s, net_ethaddr s, net_our_vlan s, load_addr s, env_hex s, timeout_ms s, tftp_our_port s, udp_packet_handler s).

Section Ready.
Context (ticks : nat -> Z) (getenv : cstr -> option cstr) `{Ethernet} (file : list Z) (port : Z).

Lemma run_oack bs bs' request opts digits junk sip s : ready file bs port request s ->
  Forall (fun c => c <> 98) opts -> 0 < bs' <= 2 ^ 15 -> simple_itoa bs' = Some digits ->
  let p := oack opts digits in
  exists s', tftp_handler_body ticks getenv (p ++ junk) (tftp_our_port s) sip port (Z.of_nat (length p)) s = Some (tt, s') /\
    ready file bs' port (be16 TFTP_ACK ++ be16 (tftp_cur_block s)) s' /\ (timed ticks s -> timed ticks s') /\
    around s' = around s /\ net_state s' = net_state s /\ net_arp_wait_packet_ip s' = net_arp_wait_packet_ip s /\ mem s' = mem s.
Proof.
  intros Hrd Ho Hbs Hd p. pose proof Hrd as [? ? ? ? Hconn ? ? ? ? ? Hst _].
  unfold tftp_handler_body. do 3 nstep. rewrite Z.eqb_refl. cbn [negb].
  assert (negb (tftp_state s =? STATE_SEND_RRQ) && negb (port =? tftp_remote_port s) = false) as ->
    by (destruct Hst as [->|[_ ->]]; [done|by rewrite Z.eqb_refl, andb_false_r]). cbn [andb].
  set (o := opts ++ text "blksize" ++ [0] ++ digits ++ [0]). assert (p ++ junk = be16 TFTP_OACK ++ o ++ junk) as -> by done.
  assert (Z.of_nat (length p) = 2 + Z.of_nat (length o)) as -> by (change p with (be16 TFTP_OACK ++ o); rewrite length_app; simpl; lia).
  destruct (Z.ltb_spec (2 + Z.of_nat (length o)) 2); [lia|].
  rewrite (bind_lift _ _ _ TFTP_OACK) by (by apply (load16_be [] TFTP_OACK)).
  change (TFTP_OACK =? TFTP_OACK) with true. cbv iota. do 2 nstep.
  replace (2 + Z.of_nat (length o) - 2 - 8) with (Z.of_nat (length o) - 8) by lia.
  change (drop 2 (be16 TFTP_OACK ++ o ++ junk)) with (drop 0 (o ++ junk)). rewrite drop_0.
  rewrite (bind_some _ _ _ _ _ (run_options opts digits junk bs' _ Ho ltac:(lia) Hd)).
  match goal with |- context [tftp_send ticks ?x = _] => set (s1 := x) end.
  assert (connected s1) as Hconn1 by (destruct Hconn; by split).
  destruct (run_tftp_send ticks s1 (be16 TFTP_ACK ++ be16 (tftp_cur_block s)) [] Hconn1 eq_refl ltac:(simpl; lia)) as (pkt & Hpkt & E).
  eexists. split; [exact E|]. split; [|done]. split; try done.
  - destruct Hconn. by split.
  - by right.
  - exists []. split; [done|simpl; lia].
Qed.
End Ready.

Lemma ready_receiving file bs port request s : ready file bs port request s -> receiving file bs port s 0 0 [] s.
Proof.
  intros [? ? ? ? [] ? ? ? ? ? ? _]. split; [|done]. assert (front file bs 0 = []) as Hf by done. split; try done.
  - intros a. by rewrite Hf, memcpy_nil.
  - exists []. by rewrite app_nil_r.
Qed.
(** Before the first block: still ready. *)
Lemma receiving_ready file bs port request s1 c out s : ready file bs port request s1 -> receiving file bs port s1 0 c out s -> c = 0 ->
  ready file bs port request s /\ forall a, mem s a = mem s1 a.
Proof.
  intros Hrd [[Hf Hb Hbs Hm Hz Hc Hmax _] (E1 & E2 & E3)] ->. split.
  - injection Hf as F1 F2 F3 F4 F5 F6 F7 F8 F9 F10 F11 F12 F13 F14 F15. pose proof Hrd as [].
    eapply ready_ext; [|done|exact Hrd]. change (net_boot_file_size s = 0) in Hz.
    unfold essentials. congruence.
  - intros a. rewrite Hm. apply memcpy_nil.
Qed.
Lemma receiving_rx file bs port s1 k c out s b n : receiving file bs port s1 k c out s ->
  receiving file bs port s1 k c out (s <| net_rx_packet := b |> <| net_rx_packet_len := n |>).
Proof. intros [[] Hw]. split; [by split|exact Hw]. Qed.
Lemma receiving_tick file bs port s1 k c out s n : receiving file bs port s1 k c out s ->
  receiving file bs port s1 k c out (s <| timer_reads := n |>).
Proof. intros [[] Hw]. split; [by split|exact Hw]. Qed.
Lemma timed_tick ticks s : timed ticks s -> timed ticks (s <| timer_reads := S (timer_reads s) |>).
Proof. intros (E1 & E2 & i & Hi & E3). split; [done|]. split; [done|]. exists i. split; [by apply Nat.lt_lt_succ_r|done]. Qed.

(** ** The loop *)
Section Main.
Context (ticks : nat -> Z) (getenv : cstr -> option cstr) `{Ethernet}.
Context (other_rx : list Z -> Z -> Z -> Z -> Z -> N unit) (other_timeout : N unit) (other_start : proto_t -> N unit).
Context (r s0 : net) (file : list Z) (port : Z).
Context (Hquick : quick ticks (Z.min (timeout_ms s0) ARP_TIMEOUT)) (HT : 0 <= timeout_ms s0 < 2 ^ 32 / 1000).
Context (Hr : mac (net_ethaddr r)) (Hs : mac (net_ethaddr s0)) (Hnn : net_ethaddr r <> net_null_ethaddr).
Context (Hvr : net_our_vlan r = net_our_vlan s0) (Hv : fits 16 (net_our_vlan s0)).
Context (Hir : fits 32 (net_ip r)) (His : fits 32 (net_ip s0)) (Hnz : net_ip s0 <> 0) (Hudp : udp_packet_handler s0 = tftp_handler).
Abbreviation our := (tftp_our_port s0).
Abbreviation eth_rx := (eth_rx ticks getenv other_rx).
Abbreviation net_loop_turn := (net_loop_turn ticks getenv other_rx other_timeout).
Abbreviation net_loop_turns := (net_loop_turns ticks getenv other_rx other_timeout other_start).

(** A datagram reaches the handler. *)
Lemma run_arrives t sport dport payload s : arrives r s0 t sport dport payload -> around s = around s0 ->
  interrupted t = false /\ exists junk sip b n,
  eth_rx t s = tftp_handler_body ticks getenv (payload ++ junk) dport sip sport (Z.of_nat (length payload))
    (s <| net_rx_packet := b |> <| net_rx_packet_len := n |>).
Proof.
  intros (dmac & id & sip & dip & junk & len & Hd & Hsend & Hlen & ->) [= E1 E2 E3 E4 E5 E6 E7 E8]. split; [done|].
  exists junk, sip. eexists _, len. unfold NetLoop.eth_rx. cbn [rx].
  rewrite run_process_udp; [|done|apply Hr|congruence|congruence| |exact Hlen].
  - rewrite E8, Hudp. reflexivity.
  - unfold sendable in *. by rewrite E1.
Qed.

Definition found (k : Z) (s : net) (s1 : net) : Prop :=
  around s1 = around s0 /\ net_arp_wait_packet_ip s1 = 0 /\ (forall a, mem s1 a = mem s0 a) /\ net_state s1 = NETLOOP_CONTINUE.
(** What the states of the loop satisfy. *)
Definition downloading (ph : phase) (s : net) : Prop :=
  around s = around s0 /\ net_state s = NETLOOP_CONTINUE /\ timed ticks s /\
  match ph with
  | Asking => (forall a, mem s a = mem s0 a) /\ asking ticks (net_ip r) s /\
      exists request, forall a, length a = 6%nat -> a <> net_null_ethaddr -> ready file 512 port request (s <| net_server_ethaddr := a |>)
  | Receiving bs k => 0 <= k < blocks file bs /\ net_arp_wait_packet_ip s = 0 /\
      exists s1 request c out, ready file bs port request s1 /\ found k s s1 /\ receiving file bs port s1 k c out s /\ (k = 0 -> c = 0)
  end.
(** The file is there. *)
Definition downloaded (s : net) : Prop :=
  around s = around s0 /\ net_state s = NETLOOP_SUCCESS /\ timed ticks s /\ net_boot_file_size s = Z.of_nat (length file) /\
  forall a, mem s a = memcpy_to (load_addr s0) file (mem s0) a.

Lemma fixed_around s s1 : fixed s = fixed s1 -> around s1 = around s0 -> around s = around s0.
Proof. intros [= F1 F2 F3 F4 F5 F6 F7 F8 F9 F10 F11 F12 F13 F14 F15] [= E1 E2 E3 E4 E5 E6 E7 E8]. unfold around. congruence. Qed.
Lemma fixed_wait s s1 : fixed s = fixed s1 -> net_arp_wait_packet_ip s = net_arp_wait_packet_ip s1.
Proof. by intros [= F1 F2 F3 F4 F5 F6 F7 F8 F9 F10 F11 F12 F13 F14 F15]. Qed.

Lemma downloading_rx ph s b n : downloading ph s -> downloading ph (s <| net_rx_packet := b |> <| net_rx_packet_len := n |>).
Proof.
  intros (E & Es & Ht & Hph). split; [done|]. split; [done|]. split; [done|]. destruct ph as [|bs k].
  - destruct Hph as (Hm & [] & request & Hrd). split; [done|]. split; [by split|]. exists request. intros a Ha Ha'.
    pose proof (Hrd a Ha Ha') as Hrd'. eapply ready_ext; [|apply Hrd'|exact Hrd']. done.
  - destruct Hph as (Hk & Hw & s1 & request & c & out & Hrd & Hf & Hrc & Hc). split; [done|]. split; [done|].
    exists s1, request, c, out. split; [done|]. split; [done|]. split; [by apply receiving_rx|done].
Qed.
Lemma downloading_tick bs k s : downloading (Receiving bs k) s -> downloading (Receiving bs k) (s <| timer_reads := S (timer_reads s) |>).
Proof.
  intros (E & Es & Ht & Hk & Hw & s1 & request & c & out & Hrd & Hf & Hrc & Hc). split; [done|]. split; [done|].
  split; [by apply timed_tick|]. split; [done|]. split; [done|]. exists s1, request, c, out.
  split; [done|]. split; [done|]. split; [by apply receiving_tick|done].
Qed.

(** *** What the handler does in a state of the loop *)
Abbreviation handler pkt dport sip sport len := (tftp_handler_body ticks getenv pkt dport sip sport len).

Lemma data_length bs k : Z.of_nat (length (data file bs k)) = 4 + Z.of_nat (length (block file bs k)).
Proof. unfold data. rewrite !length_app. simpl. lia. Qed.

Lemma step_block bs k s junk sip : downloading (Receiving bs k) s ->
  exists s', handler (data file bs (k + 1) ++ junk) our sip port (Z.of_nat (length (data file bs (k + 1)))) s = Some (tt, s') /\
    if k + 1 =? blocks file bs then downloaded s' else downloading (Receiving bs (k + 1)) s'.
Proof.
  intros (E & Es & Ht & Hk & Hw & s1 & request & c & out & Hrd & (Ea & Hw1 & Hm & Hs1) & Hrc & Hc).
  pose proof Hrd as [Hb _ Hadr Hroom Hcn Hto _ _ _ _ Hst (more & Hp & Hl)].
  assert (state_after file bs s1 k s) as Hsa by (unfold state_after; destruct (Z.eqb_spec k (blocks file bs)); [lia|congruence]).
  destruct (run_event_block ticks getenv file bs port s1 Hb Hadr Hroom Hcn Hto Hst request more Hp Hl
    k c out s junk sip Hrc Hk Hsa) as (s' & E' & Hrc' & Hsa' & Ht').
  assert (tftp_our_port s1 = our) as Eo by (by injection Ea). cbn [handle] in E'. rewrite Eo in E'.
  exists s'. rewrite data_length. split; [exact E'|]. pose proof Hrc' as [Hh _].
  assert (around s' = around s0) as Ea' by (exact (fixed_around s' s1 (h_fixed _ _ _ _ _ _ _ Hh) Ea)).
  unfold state_after in Hsa'. destruct (Z.eqb_spec (k + 1) (blocks file bs)) as [Ek|Ek].
  - split; [done|]. split; [done|]. split; [done|]. rewrite (h_size _ _ _ _ _ _ _ Hh), Ek, (front_all file bs Hb). split; [done|].
    intros a. rewrite (h_mem _ _ _ _ _ _ _ Hh), Ek, (front_all file bs Hb).
    assert (load_addr s1 = load_addr s0) as -> by (by injection Ea). by apply memcpy_ext.
  - split; [done|]. split; [congruence|]. split; [done|]. split; [lia|].
    split; [by rewrite (fixed_wait s' s1 (h_fixed _ _ _ _ _ _ _ Hh))|].
    exists s1, request, (recount (k + 1) c), (out ++ [ack (k + 1)]). split; [done|]. split; [done|]. split; [done|lia].
Qed.

Lemma step_again bs k s junk sip : downloading (Receiving bs k) s -> 0 < k ->
  handler (data file bs k ++ junk) our sip port (Z.of_nat (length (data file bs k))) s = Some (tt, s).
Proof.
  intros (E & Es & Ht & Hk & Hw & s1 & request & c & out & Hrd & (Ea & _) & Hrc & Hc) Hk0.
  pose proof Hrd as [? ? ? ? ? ? ? ? ? ? ? (more & Hp & Hl)].
  pose proof (run_event_again ticks getenv file bs port s1 request more Hl k c out s junk sip _ Hrc Hk0 (Nat2Z.is_nonneg (length (block file bs k)))) as E'.
  assert (tftp_our_port s1 = our) as Eo by (by injection Ea). cbn [handle] in E'. by rewrite Eo, <- data_length in E'.
Qed.

Lemma step_other bs k s pkt dport sip sport len : downloading (Receiving bs k) s -> dport <> our \/ (0 < k /\ sport <> port) ->
  handler pkt dport sip sport len s = Some (tt, s).
Proof.
  intros (E & Es & Ht & Hk & Hw & s1 & request & c & out & Hrd & (Ea & _) & Hrc & Hc) Hne.
  pose proof Hrd as [? ? ? ? ? ? ? ? ? ? ? (more & Hp & Hl)].
  assert (tftp_our_port s1 = our) as Eo by (by injection Ea). rewrite <- Eo in Hne.
  exact (run_event_noise ticks getenv file bs port s1 request more Hl k c out s pkt dport sip sport len Hrc (proj1 Hk) Hne).
Qed.

Lemma ready_downloading bs request s : ready file bs port request s -> around s = around s0 -> net_state s = NETLOOP_CONTINUE ->
  timed ticks s -> net_arp_wait_packet_ip s = 0 -> (forall a, mem s a = mem s0 a) -> downloading (Receiving bs 0) s.
Proof.
  intros Hrd E Es Ht Hw Hm. split; [done|]. split; [done|]. split; [done|].
  split; [unfold blocks; pose proof (rd_block _ _ _ _ _ Hrd); dnia|]. split; [done|].
  exists s, request, 0, []. split; [done|]. split; [done|]. split; [by eapply ready_receiving|done].
Qed.

Lemma step_options bs bs' opts digits s junk sip : downloading (Receiving bs 0) s ->
  Forall (fun c => c <> 98) opts -> 0 < bs' <= 2 ^ 15 -> simple_itoa bs' = Some digits ->
  exists s', handler (oack opts digits ++ junk) our sip port (Z.of_nat (length (oack opts digits))) s = Some (tt, s') /\
    downloading (Receiving bs' 0) s'.
Proof.
  intros (E & Es & Ht & Hk & Hw & s1 & request & c & out & Hrd & (Ea & Hw1 & Hm & Hs1) & Hrc & Hc) Ho Hbs Hd.
  destruct (receiving_ready _ _ _ _ _ _ _ _ Hrd Hrc (Hc eq_refl)) as (Hrd' & Hm').
  destruct (run_oack ticks getenv file port bs bs' request opts digits junk sip s Hrd' Ho Hbs Hd) as (s' & E' & Hrd2 & Ht2 & Ea2 & Es2 & Hw2 & Hm2).
  assert (tftp_our_port s = our) as Eo by (by injection E). rewrite Eo in E'.
  exists s'. split; [exact E'|]. eapply ready_downloading; [exact Hrd2|congruence|congruence|by apply Ht2|congruence|].
  intros a. by rewrite Hm2, Hm', Hm.
Qed.

Lemma step_address t s : downloading Asking s -> answers r s0 t ->
  interrupted t = false /\ exists s', eth_rx t s = Some (tt, s') /\ downloading (Receiving 512 0) s'.
Proof.
  intros (E & Es & Ht & Hm & [Hw Hrep Hp Hh (body & rest & Htx & Hsz & Hb) _] & request & Hrd) (junk & len & Hlen & ->). split; [done|].
  pose proof E as [= E1 E2 E3 E4 E5 E6 E7 E8]. unfold NetLoop.eth_rx. cbn [rx]. rewrite <- E1, <- E2 in Hlen |- *.
  destruct Hr as [Hr6 Hrb].
  eexists. split.
  { apply (run_reply (call_rxhand ticks getenv other_rx) (fun _ _ _ _ _ _ => eq_refl) s r body rest junk len); try done; congruence. }
  assert (1536 <= length ((ether_header s (net_ethaddr r) PROT_IP ++ body) ++ rest))%nat as Hb'.
  { rewrite Htx in Hb. unfold ether_header in *. rewrite !length_app in *. by rewrite Hr6. }
  apply (ready_downloading _ request); [|done..]. eapply ready_ext; [|exact Hb'|exact (Hrd (net_ethaddr r) Hr6 Hnn)]. done.
Qed.

(** *** Turn by turn *)
Lemma turn_receiving bs' k' t ts ret s s1 : net_arp_wait_packet_ip s = 0 -> interrupted t = false -> eth_rx t s = Some (tt, s1) ->
  downloading (Receiving bs' k') s1 -> exists s2, downloading (Receiving bs' k') s2 /\
  net_loop_turns TFTPGET (t :: ts) (Continue ret) s = net_loop_turns TFTPGET ts (Continue ret) s2.
Proof.
  intros Hw Hi E Hd. exists (s1 <| timer_reads := S (timer_reads s1) |>). split; [by apply downloading_tick|].
  pose proof Hd as (Ea & Es & Ht & _). cbn [NetLoop.net_loop_turns]. assert (timeout_ms s1 = timeout_ms s0) as Ems by (by injection Ea).
  apply bind_some. rewrite (run_turn ticks getenv other_rx other_timeout (timeout_ms s0) Hquick t ret s s1 Hw E Hi Ht Ems HT).
  by apply run_step_continue.
Qed.

Lemma turn_finished t ts ret s s1 : net_arp_wait_packet_ip s = 0 -> interrupted t = false -> eth_rx t s = Some (tt, s1) ->
  downloaded s1 -> exists s2, net_loop_turns TFTPGET (t :: ts) (Continue ret) s = Some (Some (s32 (Z.of_nat (length file))), s2) /\
    (forall a, mem s2 a = memcpy_to (load_addr s0) file (mem s0) a) /\
    env_hex s2 = env_hex s0 ++ (if (0 <? Z.of_nat (length file)) then
      [(word_filesize, Z.of_nat (length file)); (word_fileaddr, load_addr s0)] else []).
Proof.
  intros Hw Hi E (Ea & Es & Ht & Hz & Hm). set (s1' := s1 <| timer_reads := S (timer_reads s1) |>).
  destruct (run_step_success ticks getenv ret s1' Es) as (s2 & E2 & Em & Ee).
  change (net_boot_file_size s1') with (net_boot_file_size s1) in *. change (load_addr s1') with (load_addr s1) in *.
  change (env_hex s1') with (env_hex s1) in *. rewrite Hz in *. injection Ea as _ _ _ El Eh Ems _ _. rewrite El, Eh in Ee.
  exists s2. split; [|split; [intros a; rewrite Em; apply Hm|exact Ee]].
  cbn [NetLoop.net_loop_turns]. unfold mbind, N_bind.
  rewrite (run_turn ticks getenv other_rx other_timeout (timeout_ms s0) Hquick t ret s s1 Hw E Hi Ht Ems HT). fold s1'. rewrite E2. by destruct ts.
Qed.

Lemma asking_tick hop s : asking ticks hop s ->
  asking ticks hop (s <| timer_reads := S (S (timer_reads s)) |> <| time_start := u32 (ticks (S (timer_reads s)) - 0) |>).
Proof.
  intros [? ? ? ? ? (i & Hi & E)]. split; try done. exists i. split; [|done]. apply Nat.lt_lt_succ_r, Nat.lt_lt_succ_r, Hi.
Qed.
Lemma downloading_asked s : downloading Asking s ->
  downloading Asking (s <| timer_reads := S (S (timer_reads s)) |> <| time_start := u32 (ticks (S (timer_reads s)) - 0) |>).
Proof.
  intros (E & Es & (T1 & T2 & _) & Hm & Hask & request & Hrd). split; [done|]. split; [done|]. split.
  { split; [done|]. split; [done|]. exists (S (timer_reads s)). split; [apply Nat.lt_succ_diag_r|done]. }
  split; [done|]. split; [by apply asking_tick|]. exists request. intros a Ha Ha'. pose proof (Hrd a Ha Ha') as Hrd'.
  eapply ready_ext; [|apply Hrd'|exact Hrd']. done.
Qed.

Lemma turn_asking ph t ts ret s s1 : downloading Asking s -> interrupted t = false ->
  eth_rx t (s <| timer_reads := S (S (timer_reads s)) |> <| time_start := u32 (ticks (S (timer_reads s)) - 0) |>) = Some (tt, s1) ->
  downloading ph s1 ->
  net_loop_turns TFTPGET (t :: ts) (Continue ret) s = net_loop_turns TFTPGET ts (Continue ret) (s1 <| timer_reads := S (timer_reads s1) |>).
Proof.
  intros Hd Hi E (Ea & Es & Ht & _). pose proof Hd as (_ & _ & _ & _ & Hask & _). cbn [NetLoop.net_loop_turns]. apply bind_some.
  rewrite (run_turn_asking ticks getenv other_rx other_timeout (timeout_ms s0) Hquick (net_ip r) t ret s Hask Hi).
  rewrite (bind_some _ _ _ _ _ E).
  rewrite (bind_some _ _ _ _ _ (run_check_timeout ticks getenv other_rx other_timeout (timeout_ms s0) Hquick s1 Ht ltac:(by injection Ea) HT)).
  by apply run_step_continue.
Qed.

Definition result (ret : Z) (s : net) : Prop :=
  ret = s32 (Z.of_nat (length file)) /\ (forall a, mem s a = memcpy_to (load_addr s0) file (mem s0) a) /\
  env_hex s = env_hex s0 ++ (if (0 <? Z.of_nat (length file)) then
    [(word_filesize, Z.of_nat (length file)); (word_fileaddr, load_addr s0)] else []).

Lemma run_downloading ph ts : serves r s0 file port our ph ts -> forall s ret, downloading ph s ->
  exists s', net_loop_turns TFTPGET ts (Continue ret) s = Some (Some (s32 (Z.of_nat (length file))), s') /\
    result (s32 (Z.of_nat (length file))) s'.
Proof.
  induction 1 as [bs ts|ph ts Hse IH|t ts Ht Hse IH|bs bs' opts digits t ts Ho Hbs Hdg Ht Hse IH|bs k t ts Ht Hse IH|
    bs k t ts Hk Ht Hse IH|bs k t ts sport dport payload Hne Ht Hse IH]; intros s ret Hd.
  - destruct Hd as (_ & _ & _ & Hk & _). lia.
  - destruct ph as [|bs k].
    + pose proof (downloading_asked s Hd) as Hd'. rewrite (turn_asking Asking (Turn None false) ts ret s _ Hd eq_refl eq_refl Hd').
      apply IH. destruct Hd' as (E & Es & Ht & Hm & Hask & Hrd). split; [done|]. split; [done|]. split; [by apply timed_tick|].
      split; [done|]. split; [|destruct Hrd as (request & Hrd); exists request; intros a Ha Ha'; pose proof (Hrd a Ha Ha') as Hrd';
        eapply ready_ext; [|apply Hrd'|exact Hrd']; done].
      destruct Hask as [? ? ? ? ? (i & Hi & Ei)]. split; try done. exists i. split; [by apply Nat.lt_lt_succ_r|done].
    + pose proof Hd as (_ & _ & _ & _ & Hw & _).
      destruct (turn_receiving bs k (Turn None false) ts ret s s Hw eq_refl eq_refl Hd) as (s2 & Hd2 & ->). by apply IH.
  - destruct (step_address t _ (downloading_asked s Hd) Ht) as (Hi & s1 & E1 & Hd1).
    rewrite (turn_asking (Receiving 512 0) t ts ret s s1 Hd Hi E1 Hd1). by apply IH, downloading_tick.
  - pose proof Hd as (Ea & _ & _ & _ & Hw & _). destruct (run_arrives t _ _ _ s Ht Ea) as (Hi & junk & sip & b & n & E).
    destruct (step_options bs bs' opts digits _ junk sip (downloading_rx _ s b n Hd) Ho Hbs Hdg) as (s1 & E1 & Hd1).
    destruct (turn_receiving bs' 0 t ts ret s s1 Hw Hi (eq_trans E E1) Hd1) as (s2 & Hd2 & ->). by apply IH.
  - pose proof Hd as (Ea & _ & _ & Hk & Hw & _). destruct (run_arrives t _ _ _ s Ht Ea) as (Hi & junk & sip & b & n & E).
    destruct (step_block bs k _ junk sip (downloading_rx _ s b n Hd)) as (s1 & E1 & Hd1).
    destruct (Z.eqb_spec (k + 1) (blocks file bs)) as [Ek|Ek].
    + destruct (turn_finished t ts ret s s1 Hw Hi (eq_trans E E1) Hd1) as (s2 & E2 & Hres). by exists s2.
    + destruct (turn_receiving bs (k + 1) t ts ret s s1 Hw Hi (eq_trans E E1) Hd1) as (s2 & Hd2 & ->). by apply IH.
  - pose proof Hd as (Ea & _ & _ & _ & Hw & _). destruct (run_arrives t _ _ _ s Ht Ea) as (Hi & junk & sip & b & n & E).
    pose proof (downloading_rx _ s b n Hd) as Hd1.
    destruct (turn_receiving bs k t ts ret s _ Hw Hi (eq_trans E (step_again bs k _ junk sip Hd1 Hk)) Hd1) as (s2 & Hd2 & ->). by apply IH.
  - pose proof Hd as (Ea & _ & _ & _ & Hw & _). destruct (run_arrives t _ _ _ s Ht Ea) as (Hi & junk & sip & b & n & E).
    pose proof (downloading_rx _ s b n Hd) as Hd1.
    destruct (turn_receiving bs k t ts ret s _ Hw Hi (eq_trans E (step_other bs k _ _ dport sip sport _ Hd1 Hne)) Hd1) as (s2 & Hd2 & ->).
    by apply IH.
Qed.
End Main.

(** ** From the first statement *)
Lemma serves_ext r s s' file port our ph ts : net_ip s' = net_ip s -> net_ethaddr s' = net_ethaddr s ->
  serves r s file port our ph ts -> serves r s' file port our ph ts.
Proof.
  intros Ei Em. assert (forall t sport dport payload, arrives r s t sport dport payload -> arrives r s' t sport dport payload) as Ha.
  { unfold arrives, sendable. by rewrite Ei. }
  induction 1.
  - apply serves_done.
  - by apply serves_idle.
  - apply serves_address; [|done]. unfold answers in *. by rewrite Ei, Em.
  - eapply serves_options; eauto.
  - eapply serves_block; eauto.
  - eapply serves_again; eauto.
  - eapply serves_other; eauto.
Qed.

(** The board as its device makes it. *)
Definition board_of `{Ethernet} (s : net) : net := s <| net_ethaddr := dev_enetaddr (eth_current s) |>.

(** A board that can start, and the machine [r], the server or the gateway to it, on the
    same network. *)
Record configured `{Ethernet} (getenv : cstr -> option cstr) (file : list Z) (r s : net) : Prop := {
  cf_start : startable getenv file s;
  cf_ip : fits 32 (net_ip s) /\ net_ip s <> 0;
  cf_vlan : fits 16 (net_our_vlan s);
  cf_device : (0 < eth_devices)%nat /\ 0 <= dev_init (eth_current s) (eth_inits s);
  cf_mac : mac (dev_enetaddr (eth_current s)) /\ dev_enetaddr (eth_current s) <> net_null_ethaddr;
  cf_hop : next_hop s (net_server_ip s) = net_ip r;
  cf_hop_mac : mac (net_ethaddr r) /\ net_ethaddr r <> net_null_ethaddr;
  cf_hop_ip : fits 32 (net_ip r);
  cf_hop_vlan : net_our_vlan r = net_our_vlan s
}.

Section Begin.
Context (ticks : nat -> Z) (getenv : cstr -> option cstr) `{Ethernet}.
Context (other_rx : list Z -> Z -> Z -> Z -> Z -> N unit) (other_timeout : N unit) (other_start : proto_t -> N unit).

Lemma turns_again protocol ts ret s : net_loop_turns ticks getenv other_rx other_timeout other_start protocol ts (Again ret) s =
  (v ← net_loop_restart ticks getenv other_start protocol ret;
   net_loop_turns ticks getenv other_rx other_timeout other_start protocol ts
     (match v with Again ret => Continue ret | _ => v end)) s.
Proof.
  destruct ts as [|t ts]; cbn [net_loop_turns]; unfold mbind, N_bind;
    destruct (net_loop_restart _ _ _ _ _ s) as [[[] s']|]; done.
Qed.

(** Up to the start of the protocol. *)
Lemma run_net_loop_begin file r s : configured getenv file r s ->
  exists s1, startable getenv file s1 /\ mac (net_ethaddr s1) /\ net_boot_file_size s1 = 0 /\
    next_hop s1 (net_server_ip s1) = net_ip r /\ surroundings s1 = surroundings (board_of s <| net_state := NETLOOP_CONTINUE |>) /\
    timer_reads s1 = timer_reads s /\ (sent s1 = sent s /\ net_server_ip s1 = net_server_ip s) /\
    forall turns, net_loop ticks getenv other_rx other_timeout other_start TFTPGET turns s =
    (tftp_start ticks getenv;; net_loop_turns ticks getenv other_rx other_timeout other_start TFTPGET turns (Continue 0)) s1.
Proof.
  intros [[] [Hip Hnz] Hv [Hdev Hinit] [Hmac Hnn] Hhop _ _ _]. eexists.
  split; [|split; [|split; [|split; [|split; [|split; [|split; [|intros turns]]]]]]]; cycle 7.
  { unfold net_loop. do 3 nstep. unfold net_init_loop. do 2 nstep. destruct (Nat.eqb_spec eth_devices 0); [lia|]. nstep.
  unfold eth_init. destruct (Nat.eqb_spec eth_devices 0); [lia|]. do 2 nstep.
  destruct eth_devices as [|n'] eqn:En; [lia|]. cbn [eth_init_loop]. do 6 nstep.
  known eth_current (eth_current s). known eth_inits (eth_inits s).
  rewrite (proj2 (Z.leb_le _ _) Hinit). nstep. change (0 <? 0) with false. cbv iota.
  rewrite turns_again. unfold net_loop_restart, net_set_state. do 2 nstep. unfold net_init_loop. do 2 nstep.
  rewrite En. cbn [Nat.eqb]. do 2 nstep. known eth_current (eth_current s). unfold net_check_prereq, check_ip, check_ethaddr.
  do 3 nstep. known net_server_ip (net_server_ip s).
  rewrite (proj2 (Z.eqb_neq (net_server_ip s) 0)) by lia. do 2 nstep. known net_ip (net_ip s).
  rewrite (proj2 (Z.eqb_neq (net_ip s) 0)) by done. do 2 nstep. known net_ethaddr (dev_enetaddr (eth_current s)).
  rewrite bool_decide_false by done. nstep. change (0 =? 1) with false. change (0 =? 2) with false. cbv iota. do 4 nstep.
  cbn [protocol_start]. rewrite bind_bind. reflexivity. }
  - by split.
  - exact Hmac.
  - done.
  - exact Hhop.
  - done.
  - done.
  - done.
Qed.
End Begin.

(** C5: the whole program from net_loop's first statement: on a configured board, when the
    server's machine (or the gateway to it) answers the question for its address and the
    server sends the file, with its options acknowledged or not, with blocks repeated
    and datagrams for others in between, within the time allowed, net_loop returns the
    size of the file, the memory at the load address holds the file and the rest of the
    memory is unchanged, and filesize and fileaddr are set. *)
Theorem net_loop_downloads ticks getenv `{Ethernet} other_rx other_timeout other_start file port r s turns :
  configured getenv file r s -> quick ticks (Z.min (timeout_ms s) ARP_TIMEOUT) ->
  serves r (board_of s) file port (client_port ticks s) Asking turns ->
  exists s', net_loop ticks getenv other_rx other_timeout other_start TFTPGET turns s =
      Some (Some (s32 (Z.of_nat (length file))), s') /\
    (forall a, mem s' a = memcpy_to (load_addr s) file (mem s) a) /\
    env_hex s' = env_hex s ++ (if (0 <? Z.of_nat (length file)) then
      [(word_filesize, Z.of_nat (length file)); (word_fileaddr, load_addr s)] else []).
Proof.
  intros Hc Hq Hse. destruct (run_net_loop_begin ticks getenv other_rx other_timeout other_start file r s Hc)
    as (s1 & Hst & Hm & Hz & Hhop & Esur & Etim & _ & ->).
  destruct (run_tftp_start ticks getenv file s1 Hst Hm Hz) as (s2 & E & Hask & _ & Ht & Esur2 & Eour & Hudp & request & Hrd).
  rewrite (bind_some _ _ _ _ _ E). rewrite Hhop in Hask. rewrite Esur in Esur2. injection Esur2 as E1 E2 E3 E4 E5 E6 E7 E8 _ _.
  pose proof Hc as [[] [Hip Hnz] Hv _ [Hmac Hnn] _ [Hr Hrnn] Hir Hvr].
  change (net_ip s2 = net_ip s) in E1. change (net_ethaddr s2 = dev_enetaddr (eth_current s)) in E2.
  change (mem s2 = mem s) in E4. change (env_hex s2 = env_hex s) in E6. change (load_addr s2 = load_addr s) in E5.
  change (timeout_ms s2 = timeout_ms s) in E8. change (net_our_vlan s2 = net_our_vlan s) in E3.
  change (net_state s2 = NETLOOP_CONTINUE) in E7.
  assert (client_port ticks s = tftp_our_port s2) as Ep by (rewrite Eour; unfold client_port; by rewrite Etim). rewrite Ep in Hse.
  destruct (run_downloading ticks getenv other_rx other_timeout other_start r s2 file port) with (ph := Asking) (ts := turns) (s := s2) (ret := 0)
    as (s' & E' & _ & Hmem & Henv); try congruence; try (by rewrite ?E1, ?E2, ?E3, ?E8).
  - rewrite E8. lia.
  - by apply (serves_ext r (board_of s)).
  - split; [done|]. split; [done|]. split; [done|]. split; [done|]. split; [done|]. exists request. intros a Ha Ha'. by apply Hrd.
  - exists s'. rewrite E4, E5 in Hmem. rewrite E5, E6 in Henv. done.
Qed.

(** ** An example: 192.168.1.50 fetches a file of six bytes in blocks of four. *)
Definition start_board : net := net0 <| net_ip := 0x3201A8C0 |> <| net_netmask := 0xFFFFFF |> <| net_server_ip := 0x0101A8C0 |>
  <| net_boot_file_name := [97] |> <| load_addr := 0x80800000 |>.
Definition no_env : cstr -> option cstr := fun _ => None.
Definition from_host (payload : list Z) : turn :=
  Turn (Some ((ether_header host [2; 0; 0; 0; 0; 1] PROT_IP ++ datagram 7 (net_ip host) (net_ip start_board) 2000 1024 payload) ++ [0; 0], 512)) false.
Definition host_answers : turn :=
  Turn (Some ((ether_header host [2; 0; 0; 0; 0; 1] PROT_ARP ++ arp_packet ARPOP_REPLY [2; 0; 0; 0; 0; 2] (net_ip host) [2; 0; 0; 0; 0; 1]
    (net_ip start_board)) ++ [0; 0], 60)) false.
Definition example_turns : list turn :=
  [Turn None false; host_answers; from_host (oack [] [52]); from_host (data client_file 4 1); Turn None false; from_host (data client_file 4 2)].

Lemma start_board_configured : configured no_env client_file host start_board.
Proof.
  assert (Z.of_nat (length (net_tx_packet start_board)) = 1536) as E1 by (vm_compute; reflexivity).
  assert (Z.of_nat (length (arp_tx_packet start_board)) = 1536) as E2 by (vm_compute; reflexivity).
  assert (mac [2; 0; 0; 0; 0; 1] /\ mac [2; 0; 0; 0; 0; 2]) as [M1 M2] by (split; (split; [done|]); repeat constructor; done).
  split; try done.
  - split; try done; lia.
  - split; [simpl; lia|done].
Qed.
Lemma no_time_passes T : 0 <= T -> quick (fun _ => 0) T.
Proof. intros HT i j _. change (u32 (0 - 0)) with 0. done. Qed.

Lemma from_host_arrives payload : (length payload <= 400)%nat -> arrives host (board_of start_board) (from_host payload) 2000 1024 payload.
Proof.
  intros Hl. exists [2; 0; 0; 0; 0; 1], 7, (net_ip host), (net_ip start_board), [0; 0], 512. split; [done|]. split.
  - unfold sendable. split_and!; try done; [lia|]. right. left. done.
  - split; [|done]. cbv zeta. unfold datagram. rewrite !length_app. simpl length. lia.
Qed.
Lemma example_serves : serves host (board_of start_board) client_file 2000 1024 Asking example_turns.
Proof.
  apply serves_idle, serves_address.
  { exists [0; 0], 60. by vm_compute. }
  apply (serves_options _ _ _ _ _ 512 4 [] [52]); [constructor|lia|done|apply from_host_arrives; simpl; lia|].
  apply serves_block; [apply from_host_arrives; simpl; lia|]. apply serves_idle.
  apply serves_block; [apply from_host_arrives; simpl; lia|]. exact (serves_done _ _ client_file _ _ 4 []).
Qed.

Lemma net_loop_downloads_witness : exists s', net_loop (fun _ => 0) no_env (fun _ _ _ _ _ => mret tt) (mret tt) (fun _ => mret tt)
    TFTPGET example_turns start_board = Some (Some 6, s') /\
  (forall a, mem s' a = memcpy_to 0x80800000 client_file (fun _ => 0) a) /\
  env_hex s' = [(word_filesize, 6); (word_fileaddr, 0x80800000)].
Proof.
  exact (net_loop_downloads (fun _ => 0) no_env (fun _ _ _ _ _ => mret tt) (mret tt) (fun _ => mret tt) client_file 2000 host start_board
    example_turns start_board_configured (no_time_passes 5000 ltac:(lia)) example_serves).
Defined.
