(* ===== verification/Silence.v ===== *)
(** A server that does not answer: net_loop ends, on every clock that does not stand
    still, after it has asked four times. *)
From S2P Require Import Prelude Htab NetSum NetState Net NetUdp Tftp TftpFile NetLoop Download.

Definition idle : turn := Turn None false.

(** The clock goes on, and is read at least once in a second. *)
Record running_clock (ticks : nat -> Z) : Prop := {
  rc_step : forall i, 0 <= ticks (S i) - ticks i <= 1000;
  rc_progress : forall i n, exists j, (i <= j)%nat /\ n < ticks j - ticks i
}.
Lemma clock_later ticks i d : running_clock ticks -> 0 <= ticks (d + i)%nat - ticks i <= 1000 * Z.of_nat d.
Proof.
  intros [Hs _]. induction d as [|d IH]; [simpl; lia|]. specialize (Hs (d + i)%nat). change (S d + i)%nat with (S (d + i)). lia.
Qed.
Lemma clock_elapsed ticks i j : running_clock ticks -> (i <= j)%nat -> ticks j - ticks i < 2 ^ 32 ->
  u32 (u32 (ticks j - 0) - u32 (ticks i - 0)) = ticks j - ticks i.
Proof.
  intros Hc Hij Hb. pose proof (clock_later ticks i (j - i) Hc) as Hl. replace (j - i + i)%nat with j in Hl by lia.
  rewrite !Z.sub_0_r. unfold u32. rewrite <- Zminus_mod. apply Z.mod_small. lia.
Qed.

Definition constants (s : net) :=
  (net_ip s, net_ethaddr s, net_our_vlan s, net_netmask s, net_gateway s, net_arp_wait_packet_ip s, timeout_ms s).

(** The question was asked [j] times, last at read [i] of the clock. *)
Record lonely (ticks : nat -> Z) (s0 : net) (j : Z) (i : nat) (s : net) : Prop := {
  l_constants : constants s = constants s0;
  l_mem : mem s = mem s0;
  l_try : arp_wait_try s = j;
  l_read : (i < timer_reads s)%nat;
  l_start : arp_wait_timer_start s = u32 (ticks i - 0);
  l_recent : ticks (timer_reads s) - ticks i <= 8000;
  l_handler : time_handler s = Some tftp_timeout_handler;
  l_delta : time_delta s = timeout_ms s0;
  l_state : net_state s = NETLOOP_CONTINUE;
  l_buffer : (46 <= length (arp_tx_packet s))%nat
}.

Section Silence.
Context (ticks : nat -> Z) (getenv : cstr -> option cstr) `{Ethernet}.
Context (other_rx : list Z -> Z -> Z -> Z -> Z -> N unit) (other_timeout : N unit) (other_start : proto_t -> N unit).
Context (s0 : net) (Hclock : running_clock ticks) (Hretry : getenv netretry = None).
Context (Hw : net_arp_wait_packet_ip s0 <> 0) (Hm : length (net_ethaddr s0) = 6%nat) (HT : 1000 <= timeout_ms s0).
Abbreviation net_loop_turn := (net_loop_turn ticks getenv other_rx other_timeout).
Abbreviation net_loop_turns := (net_loop_turns ticks getenv other_rx other_timeout other_start).

(** What is left of a turn after the question of the address. *)
Definition rest_of_turn (ret : Z) : N verdict :=
  now ← get_timer ticks 0; time_start ::= now;;
  check_timeout ticks getenv other_timeout;;
  net_loop_state_step ticks getenv ret.
Lemma rest_continues ret s : time_handler s = Some tftp_timeout_handler -> time_delta s = timeout_ms s0 ->
  rest_of_turn ret s = net_loop_state_step ticks getenv ret
    (s <| timer_reads := S (S (timer_reads s)) |> <| time_start := u32 (ticks (timer_reads s) - 0) |>).
Proof.
  intros Hh Hd. unfold rest_of_turn, get_timer. do 6 nstep.
  set (s1 := s <| timer_reads := _ |> <| time_start := _ |>).
  assert (u32 (u32 (ticks (timer_reads s1) - 0) - time_start s1) <= time_delta s1) as Hover.
  { change (timer_reads s1) with (S (timer_reads s)). change (time_start s1) with (u32 (ticks (timer_reads s) - 0)).
    pose proof (rc_step _ Hclock (timer_reads s)). rewrite clock_elapsed by (done || lia). change (time_delta s1) with (time_delta s). lia. }
  by rewrite (bind_some _ _ _ _ _ (check_not_over ticks getenv other_timeout tftp_timeout_handler s1 Hh Hover)).
Qed.

Lemma turn_idle ret s s1 : arp_timeout_check ticks s = Some (1, s1) -> net_loop_turn idle ret s = rest_of_turn ret s1.
Proof.
  intros E. unfold NetLoop.net_loop_turn. rewrite (bind_some _ _ _ _ _ E). change (0 <? 1) with true. cbv iota.
  unfold rest_of_turn, mbind, N_bind. destruct (get_timer ticks 0 s1) as [[t s2]|]; done.
Qed.

(** *** The check of the address's time *)
Lemma elapsed j i s : lonely ticks s0 j i s -> u32 (u32 (ticks (timer_reads s) - 0) - arp_wait_timer_start s) = ticks (timer_reads s) - ticks i.
Proof. intros []. rewrite l_start0. apply clock_elapsed; [done|lia|lia]. Qed.
Lemma check_reads j i s : lonely ticks s0 j i s ->
  arp_timeout_check ticks s =
  ((if ARP_TIMEOUT <? ticks (timer_reads s) - ticks i then
      arp_wait_try ::= s32 (j + 1);;
      if ARP_TIMEOUT_COUNT <=? s32 (j + 1) then
        arp_wait_try ::= 0;; net_set_state NETLOOP_FAIL
      else arp_wait_timer_start ::= u32 (ticks (timer_reads s) - 0);; arp_request
    else mret tt);; mret 1) (s <| timer_reads := S (timer_reads s) |>).
Proof.
  intros Hl. pose proof (elapsed _ _ _ Hl) as He. pose proof Hl as []. unfold arp_timeout_check. nstep.
  assert (net_arp_wait_packet_ip s = net_arp_wait_packet_ip s0) as -> by (by injection l_constants0).
  rewrite (proj2 (Z.eqb_neq _ 0) Hw). cbv iota. unfold get_timer. do 6 nstep.
  known arp_wait_timer_start (arp_wait_timer_start s). rewrite He. destruct (ARP_TIMEOUT <? _); [|done].
  do 2 nstep. change (arp_wait_try _) with (arp_wait_try s). by rewrite l_try0.
Qed.

(** *** The three kinds of turn *)
Lemma later_reads i k : ticks (S (S (S k))) - ticks i <= ticks k - ticks i + 3000.
Proof. pose proof (clock_later ticks k 3 Hclock) as Hl. cbn [Nat.add] in Hl. lia. Qed.

Lemma turn_waits j i ret s : lonely ticks s0 j i s -> ticks (timer_reads s) - ticks i <= ARP_TIMEOUT ->
  exists s', net_loop_turn idle ret s = Some (Continue ret, s') /\ lonely ticks s0 j i s' /\ sent s' = sent s /\
    timer_reads s' = S (S (S (timer_reads s))).
Proof.
  intros Hl Hd. pose proof Hl as []. set (s1 := s <| timer_reads := S (timer_reads s) |>).
  assert (arp_timeout_check ticks s = Some (1, s1)) as E.
  { rewrite (check_reads _ _ _ Hl), (proj2 (Z.ltb_ge _ _) Hd). done. }
  rewrite (turn_idle ret s s1 E), rest_continues by done. rewrite run_step_continue by done.
  eexists. split; [reflexivity|]. split; [|done]. split; try done.
  - cbn. lia.
  - pose proof (later_reads i (timer_reads s)). unfold ARP_TIMEOUT in Hd. cbn [put set_timer_reads set_time_start timer_reads s1]. lia.
Qed.

Lemma turn_asks j i ret s : lonely ticks s0 j i s -> ARP_TIMEOUT < ticks (timer_reads s) - ticks i -> 1 <= j < 4 ->
  exists s', net_loop_turn idle ret s = Some (Continue ret, s') /\ lonely ticks s0 (j + 1) (timer_reads s) s' /\
    sent s' = sent s ++ [question s0 (net_arp_wait_packet_ip s0)].
Proof.
  intros Hl Hd Hj. pose proof Hl as []. set (k := timer_reads s) in *.
  set (s1 := s <| timer_reads := S k |> <| arp_wait_try := j + 1 |> <| arp_wait_timer_start := u32 (ticks k - 0) |>).
  injection l_constants0 as C1 C2 C3 C4 C5 C6 C7.
  destruct (run_arp_request s1) as (rest & Hrest & Ereq); [by change (net_ethaddr s1) with (net_ethaddr s); rewrite C2|exact l_buffer0|].
  fold (question s1 (net_arp_wait_packet_ip s1)) in Hrest, Ereq.
  assert (question s1 (net_arp_wait_packet_ip s1) = question s0 (net_arp_wait_packet_ip s0)) as Eq.
  { change (net_arp_wait_packet_ip s1) with (net_arp_wait_packet_ip s). rewrite C6. by apply question_ext. }
  rewrite Eq in Hrest, Ereq.
  match type of Ereq with _ = Some (tt, ?x) => set (s2 := x) in Ereq end.
  assert (arp_timeout_check ticks s = Some (1, s2)) as E.
  { rewrite (check_reads _ _ _ Hl). fold k. rewrite (proj2 (Z.ltb_lt _ _) Hd). assert (s32 (j + 1) = j + 1) as -> by (unfold s32; rewrite Z.mod_small by lia; lia).
    do 2 nstep. rewrite (proj2 (Z.leb_gt ARP_TIMEOUT_COUNT (j + 1))) by (unfold ARP_TIMEOUT_COUNT; lia). do 2 nstep.
    fold s1. by rewrite (bind_some _ _ _ _ _ Ereq). }
  rewrite (turn_idle ret s s2 E), rest_continues by done. rewrite run_step_continue by done.
  eexists. split; [reflexivity|]. split; [|done]. split; try done.
  - cbn. unfold constants. cbn. by rewrite C1, C2, C3, C4, C5, C6, C7.
  - cbn. lia.
  - pose proof (later_reads k k). cbn [put set_timer_reads set_time_start timer_reads s2]. cbn. lia.
  - cbn -[question length app Nat.le]. rewrite length_app. change (arp_tx_packet s1) with (arp_tx_packet s) in Hrest. lia.
Qed.

Lemma turn_ends i ret s : lonely ticks s0 4 i s -> ARP_TIMEOUT < ticks (timer_reads s) - ticks i ->
  exists s', net_loop_turn idle ret s = Some (Done (-110), s') /\ sent s' = sent s /\ mem s' = mem s0.
Proof.
  intros Hl Hd. pose proof Hl as [].
  set (s1 := s <| timer_reads := S (timer_reads s) |> <| arp_wait_try := 5 |> <| arp_wait_try := 0 |> <| net_state := NETLOOP_FAIL |>).
  assert (arp_timeout_check ticks s = Some (1, s1)) as E.
  { rewrite (check_reads _ _ _ Hl), (proj2 (Z.ltb_lt _ _) Hd). done. }
  rewrite (turn_idle ret s s1 E), rest_continues by done.
  unfold net_loop_state_step. nstep. change (net_state _) with NETLOOP_FAIL at 1. rewrite bool_decide_true by done.
  unfold net_start_again. rewrite Hretry. do 2 nstep. cbn [negb].
  match goal with |- context [0 <=? u32 ?x] => assert ((0 <=? u32 x) = true) as -> by (apply Z.leb_le, Z.mod_pos_bound; lia) end.
  cbn [andb]. unfold net_set_state. do 4 nstep. change (net_state _) with NETLOOP_FAIL.
  unfold net_cleanup_loop, net_clear_handlers, net_set_udp_handler, net_set_arp_handler, NetState.net_set_timeout_handler.
  change (0 =? 0) with true. cbv iota. repeat nstep. eexists. split; [reflexivity|]. split; [done|exact l_mem0].
Qed.

(** *** Until the end *)
Lemma turns_continue ts ret s s1 : net_loop_turn idle ret s = Some (Continue ret, s1) ->
  net_loop_turns TFTPGET (idle :: ts) (Continue ret) s = net_loop_turns TFTPGET ts (Continue ret) s1.
Proof. intros E. cbn [NetLoop.net_loop_turns]. by apply bind_some. Qed.

(** The time of a question passes. *)
Lemma waits_out ret j i m d : ARP_TIMEOUT < ticks m - ticks i -> forall s, lonely ticks s0 j i s -> (m <= timer_reads s + d)%nat ->
  exists n s1, lonely ticks s0 j i s1 /\ ARP_TIMEOUT < ticks (timer_reads s1) - ticks i /\ sent s1 = sent s /\
    forall ts, net_loop_turns TFTPGET (replicate n idle ++ ts) (Continue ret) s = net_loop_turns TFTPGET ts (Continue ret) s1.
Proof.
  intros Hm'. induction d as [|d IH]; intros s Hl Hd.
  all: destruct (Z.lt_ge_cases ARP_TIMEOUT (ticks (timer_reads s) - ticks i)) as [Hlt|Hge]; [by exists 0%nat, s|].
  - pose proof (clock_later ticks m (timer_reads s - m) Hclock) as Hc. replace (timer_reads s - m + m)%nat with (timer_reads s) in Hc by lia. lia.
  - destruct (turn_waits j i ret s Hl Hge) as (s2 & E & Hl2 & Es & Er).
    destruct (IH s2 Hl2 ltac:(lia)) as (n & s1 & Hl1 & Hlt & Es1 & E1). exists (S n), s1. split; [done|]. split; [done|].
    split; [congruence|]. intros ts. cbn [replicate app]. by rewrite (turns_continue _ _ _ _ E).
Qed.

Lemma run_silence n : forall j i ret s, 1 <= j <= 4 -> Z.of_nat n = 4 - j -> lonely ticks s0 j i s ->
  exists turns s', net_loop_turns TFTPGET (replicate turns idle) (Continue ret) s = Some (Some (-110), s') /\
    sent s' = sent s ++ replicate n (question s0 (net_arp_wait_packet_ip s0)) /\ mem s' = mem s0.
Proof.
  induction n as [|n IH]; intros j i ret s Hj Hn Hl; destruct (rc_progress _ Hclock i ARP_TIMEOUT) as (m & _ & Hm').
  all: destruct (waits_out ret j i m m Hm' s Hl ltac:(lia)) as (k & s1 & Hl1 & Hlt & Es1 & E1).
  - assert (j = 4) as -> by lia. destruct (turn_ends i ret s1 Hl1 Hlt) as (s2 & E2 & Es2 & Em2).
    exists (k + 1)%nat, s2. split; [|split; [by rewrite app_nil_r, Es2, Es1|done]].
    rewrite replicate_add, E1. cbn [replicate NetLoop.net_loop_turns]. unfold mbind, N_bind. by rewrite E2.
  - destruct (turn_asks j i ret s1 Hl1 Hlt ltac:(lia)) as (s2 & E2 & Hl2 & Es2).
    destruct (IH (j + 1) (timer_reads s1) ret s2 ltac:(lia) ltac:(lia) Hl2) as (k' & s3 & E3 & Es3 & Em3).
    exists (k + S k')%nat, s3. split; [|split; [|done]].
    + by rewrite replicate_add, E1, replicate_S, (turns_continue _ _ _ _ E2).
    + rewrite Es3, Es2, Es1, <- !app_assoc. done.
Qed.
End Silence.


(** A clock of half a second, and nobody on the network. *)
Definition half_seconds (k : nat) : Z := 500 * Z.of_nat k.
Lemma half_seconds_run : running_clock half_seconds.
Proof.
  split; unfold half_seconds; [intros i; lia|]. intros i n. exists (i + Z.to_nat (Z.max n 0) + 1)%nat. split; lia.
Qed.
