(* ===== verification/NetEdges.v ===== *)
(** The network code at its edges: results that differ from what comments and the
    manual say, packets that lead outside the buffers, and numbers that overflow. *)
From Stdlib Require Import String.
From S2P Require Import Prelude Htab NetSum NetState Net NetUdp Tftp TftpFile NetLoop Download.

Definition nothing_else {A B C D E} (a : A) (b : B) (c : C) (d : D) (e : E) : N unit := mret tt.
(** The handlers of the loop. *)
Definition rx_table := call_rxhand (fun _ => 0) no_env nothing_else.

(** Two computations that agree in the result; the state afterwards is left open. *)
Definition result_is {A} (m : N A) (s : net) (a : A) (P : net -> Prop) : Prop :=
  match m s with Some (b, s') => b = a /\ P s' | None => False end.

(** ** Retrying *)
Definition retry_yes : cstr -> option cstr := fun n => if bool_decide (n = netretry) then Some word_yes else None.
Definition retry_once : cstr -> option cstr := fun n => if bool_decide (n = netretry) then Some word_once else None.

(** netretry=yes and one device: after a failure net_start_again sets up a new attempt
    in ten seconds, but leaves the state at NETLOOP_FAIL, so net_loop returns at once,
    with the result of the device's initialisation: 0, no error. *)
Lemma retry_reports_success :
  result_is (net_loop_state_step (fun _ => 0) retry_yes (-1)) (client <| net_state := NETLOOP_FAIL |> <| net_dev_exists := true |> <| net_try_count := 1 |>)
    (Done 0) (fun s' => net_state s' = NETLOOP_FAIL /\ time_handler s' = None).
Proof. vm_compute. tauto. Qed.

(** netretry=once: no attempt is repeated on another device, since the tries are counted
    from 1. *)
Lemma once_is_not_at_all ticks `{Ethernet} s : net_try_count s = 1 ->
  net_start_again ticks retry_once s = Some (-110, s <| net_state := NETLOOP_FAIL |>).
Proof. intros E. unfold net_start_again. cbn [retry_once]. change (retry_once netretry) with (Some word_once). cbn iota.
  rewrite !bool_decide_false by done. rewrite bool_decide_true by done. nstep. by rewrite E. Qed.

(** ** Time *)

(** A tftptimeout of 4294968 ms or more is not what the timer is set to: 4294968 is none at all. *)
Lemma long_timeout_is_short :
  result_is (net_set_timeout_handler (fun _ => 0) 4294968 (Some tftp_timeout_handler)) client tt (fun s' => time_delta s' = 0).
Proof. by vm_compute. Qed.

(** ** Packets *)

(** A datagram whose UDP header gives a length of less than 8: the handler gets a length
    near 2^32, and a data packet makes it read behind the buffer. *)
Definition short_udp : list Z :=
  let hdr := ip_header 0 7 (net_ip host) (net_ip client) 36 in
  ether_header host [2; 0; 0; 0; 0; 1] PROT_IP ++ ip_header (checksum_of hdr) 7 (net_ip host) (net_ip client) 36 ++
  udp_header 2000 1030 7 ++ [0; 3; 0; 1; 9; 9; 9; 9] ++ replicate 1486 0.
Lemma short_udp_undefined :
  net_process_received_packet rx_table short_udp 64 (client <| udp_packet_handler := tftp_handler |>) = None.
Proof. by vm_compute. Qed.

(** An echo request whose IP header gives a length of less than 20 is summed up far
    behind the buffer. *)
Definition short_echo : list Z :=
  let hdr (c : Z) := [0x45; 0] ++ be16 12 ++ be16 7 ++ be16 0 ++ [255; IPPROTO_ICMP] ++ le16 c ++ le32 (net_ip host) ++ le32 (net_ip client) in
  ether_header host [2; 0; 0; 0; 0; 1] PROT_IP ++ hdr (checksum_of (hdr 0)) ++ [ICMP_ECHO_REQUEST; 0; 0; 0; 0; 0; 0; 0] ++ replicate 1486 0.
Lemma short_echo_undefined : net_process_received_packet rx_table short_echo 64 client = None.
Proof. by vm_compute. Qed.

(** ** Transfers *)
Definition receives (pkt : list Z) : N unit := tftp_handler_body (fun _ => 0) no_env pkt 1030 0 2000 (Z.of_nat (length pkt)).

(** The block with the number 0 again, after block 1 of the next round: the wrap is
    counted twice, and what follows is stored 65536 blocks too far. *)
Definition second_round : net := client <| tftp_state := STATE_DATA |> <| tftp_remote_port := 2000 |> <| tftp_prev_block := 1 |>
  <| tftp_cur_block := 1 |> <| tftp_block_wrap := 1 |> <| tftp_block_wrap_offset := 262144 |>.
Lemma late_duplicate_moves_file :
  result_is (receives [0; 3; 0; 0; 5; 6; 7; 8];; receives [0; 3; 0; 2; 1; 2; 3; 4]) second_round tt (fun s' =>
    tftp_block_wrap_offset s' = 2 * 262144 /\ mem s' (0x80800000 + 262144 + 4) = 0 /\ mem s' (0x80800000 + 2 * 262144 + 4) = 1).
Proof. vm_compute. tauto. Qed.

(** A block size of 0 is accepted; then no packet is the last one. *)
Lemma block_size_zero :
  result_is (receives (oack [] [48]);; receives [0; 3; 0; 1]) client tt (fun s' => tftp_block_size s' = 0 /\ net_state s' = NETLOOP_CONTINUE).
Proof. vm_compute. tauto. Qed.

(** The answer to a request: a server that is not asked for its options may send any first
    block, but one that is not block 1 starts everything again, and without a retry it is
    the end. *)
Lemma wrong_first_block : result_is (receives [0; 3; 0; 2; 1; 2]) client tt (fun s' => net_state s' = NETLOOP_FAIL).
Proof. by vm_compute. Qed.
